(* ===== verification/_CoqProject ===== *)
-Q . S2P
Prelude.v
F64.v
F64Grid.v
Proto.v
Intern.v
Models.v
Reservation.v
Position.v
Balance.v
Config.v
Metadata.v
MetadataFacts.v
MetadataReload.v
MetadataFresh.v
Utils.v
OrderStore.v
OrderHistory.v
OmsCore.v
Scenario.v
OmsSafety.v
OmsLifecycle.v
OmsPlacement.v
OmsHolds.v
OmsReports.v
OmsSync.v
OmsTracked.v
OmsFindings.v
V1Stores.v
V1Agree.v
V1Orders.v
V1Core.v
V1Safety.v
V1Fills.v
V1Reports.v
Text.v
RtmdSub.v
RtmdFacts.v
Snowflake.v
Channels.v
Reconcile.v
SnapshotV2.v
Persist.v
Latency.v
OmsExec.v
OmsActor.v
OmsService.v
ServiceSafety.v
ServiceReplica.v
OmsGrpc.v
Gateway.v
GatewayFacts.v
GwExec.v
Collections.v
Scheduler.v
SchedulerFacts.v
ClockContract.v
Rtmd.v
Strategy.v
TimerFacts.v
Simulator.v
SimFacts.v
EventQueue.v
QueueFacts.v
BacktestOms.v
Backtester.v
BacktestFacts.v
Engine.v
EngineFacts.v
EngineSvc.v
SimVenue.v
SimVenueFacts.v
Json.v
Strategies.v
StrategyFacts.v
Registry.v
Discovery.v
RegistryFacts.v
RefdataSdk.v
ConfigMgmt.v
ConfigFacts.v
