(* ===== verification/Prelude.v ===== *)
(** * zkbot: a verification development for a trading system

    zkbot trades through exchange gateways.  Its parts, and how they interact
    (paths below [src/rust/crates] unless stated):

    - the order management system: a core that is a pure state machine
      ([zk-oms-rs], second generation [oms_core_v2.rs], first generation
      [oms_core.rs]) and the service around it ([zk-oms-svc]): one writer task
      owns the core, hands its actions to sharded workers (gateways, Redis,
      NATS, recorder) and publishes snapshots from which queries are answered;
    - the gateways ([zk-gw-svc]): commands of the OMS go to a venue adapter
      through sharded workers; what the venue reports is deduplicated,
      completed and published to the OMS;
    - market data ([zk-rtmd-rs], [zk-rtmd-gw-svc]): leases of subscribers are
      counted into upstream subscriptions;
    - strategies and the backtester ([zk-core-rs], [zk-strategy-sdk-rs],
      [zk-sim-core], [zk-backtest-rs]): a replay of market data through the
      timers and callbacks of a strategy, whose orders go to the first
      generation core and a simulated exchange;
    - the live engine ([zk-engine-rs], [zk-engine-svc]), which runs a strategy
      of [src/rust/strategies] on live events, and the simulated venue of the
      gateway ([zk-gw-svc/src/venue/simulator]);
    - the trading SDK ([zk-trading-sdk-rs]): ids, endpoints and reference data
      for the clients of the OMS;
    - infrastructure shared by the services ([zk-infra-rs]): registration with
      a heartbeat in a key-value store, discovery from it, bootstrap and
      inspection of configurations.

    ** Files

    Shared: [Prelude] (record update, panics as [outcome], machine integers,
    hash-table iteration, tactics), [F64], [F64Grid] (binary64 bit for bit, and
    the grids on which it is exact), [Text] (functions of [str]), [Collections]
    (heaps and sorts as interfaces with laws), [Channels] (bounded queues and
    shards), [Proto], [Rtmd] (protobuf messages, [src/protos/zk]).

    OMS core, second generation: [Intern] ([intern_v2.rs]), [Models]
    ([models.rs], [models_v2.rs]), [Reservation], [Position], [Balance],
    [Config], [Metadata] with [MetadataFacts], [MetadataReload] and
    [MetadataFresh], [Utils] ([utils.rs], [validation.rs]), [OrderStore] and
    [OrderHistory] ([order_store_v2.rs]), [OmsCore] ([oms_core_v2.rs]).  Its
    theorems: [OmsSafety], [OmsLifecycle], [OmsPlacement], [OmsHolds],
    [OmsReports], [OmsSync], [OmsTracked], [OmsFindings], on the concrete OMS
    of [Scenario].

    OMS core, first generation: [V1Stores] (reservation, position and balance
    managers), [V1Orders] ([order_mgr.rs]), [V1Core] ([oms_core.rs]); theorems
    in [V1Agree], [V1Safety], [V1Fills], [V1Reports].

    OMS service: [Reconcile] ([reconcile.rs]), [SnapshotV2]
    ([zk-oms-rs/src/snapshot_v2.rs]), [Persist] ([redis_writer.rs],
    [persist_executor.rs]), [Latency], [OmsExec] (the executors and the
    commands), [OmsActor] ([oms_actor.rs]: one definition per action handler of
    [process_command], [writer_step] for the loop), [OmsService] ([main.rs]:
    [OmsStartup], then [serving], the service as a transition system: commands
    in any order, workers that take or lose actions at any time), [OmsGrpc]
    ([grpc_handler.rs]); theorems in [ServiceSafety], [ServiceReplica] and
    [OmsGrpc].

    Gateway: [Gateway] ([semantic_pipeline.rs], [nats_publisher.rs],
    [reconnect.rs]) with [GatewayFacts]; [GwExec] ([gw_executor.rs],
    [grpc_handler.rs]).  Market data: [RtmdSub] ([sub_manager.rs],
    [nats_sub_source.rs]) with [RtmdFacts].  Simulated venue: [SimVenue]
    ([adapter.rs], [admin.rs], [state.rs], [error_injection.rs]) with
    [SimVenueFacts].

    Backtesting: [Scheduler] ([scheduler.rs], the clocks) with [SchedulerFacts]
    and [ClockContract]; [Strategy] ([timer_manager.rs], [context.rs],
    [runner.rs]) with [TimerFacts]; [Simulator] with [SimFacts]; [EventQueue]
    with [QueueFacts]; [BacktestOms], [Backtester] with [BacktestFacts].

    Live engine: [Engine] ([live_engine.rs], [action_dispatcher.rs] and the
    rest of [zk-engine-rs]) with [EngineFacts]; [EngineSvc] (the queues, the
    control calls and the dispatcher of [zk-engine-svc]); [Strategies] (the four
    strategies, [zk-strategy-host-rs], the strategy part of [runtime.rs]) with
    [StrategyFacts]; [Json] (values of [serde_json]).

    Shared infrastructure: [Registry] ([nats_kv.rs], [service_registry.rs] and
    the services' shutdown; [World] is any number of instances on one store)
    and [Discovery] ([nats_kv_discovery.rs], [discovery_registration.rs] and the
    SDK's [discovery.rs]) with [RegistryFacts]; [ConfigMgmt] ([config_mgmt.rs],
    [bootstrap.rs], the bootstraps of the services) with [ConfigFacts].  SDK:
    [Snowflake] ([id_gen.rs]), [RefdataSdk] ([refdata.rs]).

    ** What the theorems show

    - No panic: no message, reload or event builder of a reachable core panics,
      in either generation; nor does any command of the running service, its
      start-up included, nor the gateway's command path.
    - Invariants: a reachable core is well-typed (indexes, references and
      symbols resolve, the cache stays within its limit); order histories are
      append-only, final states stay final, ids survive reloads.
    - Functional: when an order is admitted and what is sent, what a failed
      send, a cancel, a report and a fill do to every ledger, balance and
      position synchronisation, reconciliation with a gateway.
    - Refinement: reservations implement a ledger of integers; the query of
      open orders lists the non-terminal orders of the core, through snapshots,
      failures and interleavings; upstream subscriptions follow the leases; a
      consumer of the gateway holds the venue's positions; the replay queue is
      a priority queue; the events of discovery replay to its cache, which is
      what the registry said.
    - Ordering: the commands of one order reach the gateway, and the adapter of
      the gateway, in the order in which they were issued; the engine gets
      every reliable event, in order.
    - Registration: a heartbeat renews only its sender's entry, and an instance
      that lost its key stops within five ticks, over every interleaving and
      every loss of requests and replies.
    - Engine and strategies: which callbacks a batch of events becomes, through
      pauses and coalescing; the smoke-test strategy forgets no order it placed.
    - Configuration: a shown configuration says nothing of its secrets, drift
      is reported exactly when configurations differ, and what a bootstrap with
      Pilot accepts; an account resolves to the OMS that claims it.
    - Equivalence: first and second generation agree on ledgers and reports;
      differences of configurations and their equality.
    - Round trips: warm start, persisted orders, id fields.
    - Termination and liveness: clocks, timers and a whole backtest end; the id
      generator returns, with increasing ids.
    - The remaining files state where the code departs from its comments or
      from its own bookkeeping, proved in general or evaluated on a run.

    ** Reading the model

    A function that can panic returns an [outcome]; [returns m Q] says that it
    does not and that [Q] holds of the result.  Wall clocks are oracles.  The
    iteration order of hash tables and [str::to_uppercase] are type classes;
    theorems that depend on the order assume only that an iteration visits
    every entry once ([HashIterOk]), which [canonical_iter_ok] satisfies.  Code
    that is not in the repository is a parameter: cron expressions, heaps and
    sorts, and the key-value store, with their documented laws; JSON printing,
    hashes and derived decoders, gateway clients, their answers, venue
    adapters and failing publishes without any law.  Redis, published messages
    and replies are the lists of what was sent.  [f64] is the exact binary64 of
    the Standard Library's [spec_float]; the ledger theorems hold on a grid of
    a power of two, where sums are exact.

    Bounds: most loops are structural over lists.  The drains of the scheduler
    and of the timer manager and the watch loop of the subscriptions compute
    their number of rounds from the state and panic in the model if it is
    exceeded; the theorems show they return, so it is enough.  [Backtester.run]
    and [SnowflakeIdGen.next_id] take a bound; [backtest_completes] and
    [snowflake_increasing] show that some bound suffices, and every larger one.

    ** Not modelled

    [snapshot.rs] of the first generation (copies of the managers for readers,
    not used by the service); the processes' start-up, recorder, tools, Python
    bridges (wiring and I/O around third-party runtimes and databases); venue
    integrations other than the simulator (third-party interfaces); the
    reference data service and the control plane (SQL, Spring); connections to
    NATS, Redis, Vault and databases; logging, tracing, NATS decoding and gRPC
    transport. *)

From stdpp Require Export base gmap strings list fin_maps sets pretty.
From Stdlib Require Export ZArith Lia.

#[global] Open Scope Z_scope.

Declare Scope zk_scope.
Delimit Scope zk_scope with zk.
#[global] Open Scope zk_scope.

Create HintDb zk discriminated.

(** ** Functional record update

    [r <| f := v |>] is the Rust assignment [r.f = v] and [r <| f ::= g |>] the
    in-place update [r.f = g(r.f)].  A record type registers the list of its
    projections once, as an [Eta] instance, and every setter is derived from
    it: the projection is abstracted from the eta-expanded identity. *)

Class Eta (R : Type) := eta : R → R.
Class Setter {R T : Type} (p : R → T) := set_field : (T → T) → R → R.
Arguments set_field {R T} p {_} _ _.

Ltac derive_setter p :=
  lazymatch type of p with
  | ?R → ?T =>
      let inst := constr:(_ : Eta R) in
      let body := eval hnf in inst in
      lazymatch eval pattern p in body with
      | ?ctx _ =>
          let t := eval cbv beta in
            (λ (g : T → T) (r : R), ctx (λ r', g (p r')) r) in
          exact t
      end
  end.
#[export] Hint Extern 0 (Setter ?p) => derive_setter p : typeclass_instances.

Notation "r <| p := v |>" := (set_field p (λ _, v) r)
  (at level 1, left associativity, format "r  <| p  :=  v |>") : zk_scope.
Notation "r <| p ::= g |>" := (set_field p g r)
  (at level 1, left associativity, format "r  <| p  ::=  g |>") : zk_scope.

(** ** Rust control effects

    A Rust function that can panic ([unwrap] on [None], an index out of range)
    returns an [outcome]; [Panics] carries the panicking expression. *)

Inductive outcome (A : Type) : Type :=
| Returns (a : A)
| Panics (why : string).
Arguments Returns {_} _.
Arguments Panics {_} _.

#[export] Instance outcome_ret : MRet outcome := @Returns.
#[export] Instance outcome_bind : MBind outcome := λ A B f m,
  match m with Returns a => f a | Panics w => Panics w end.

(** [Option::unwrap] and slice indexing. *)
Definition unwrap {A} (why : string) (o : option A) : outcome A :=
  match o with Some a => Returns a | None => Panics why end.

(** A [for] loop over a list whose body may panic. *)
Fixpoint for_each {S A} (f : S → A → outcome S) (l : list A) (s : S) : outcome S :=
  match l with
  | [] => Returns s
  | a :: l' => s' ← f s a; for_each f l' s'
  end.

Lemma for_each_fmap {S A B} (g : A → B) (f : S → B → outcome S) l s :
  for_each f (g <$> l) s = for_each (λ s a, f s (g a)) l s.
Proof.
  revert s. induction l as [|a l IH]; intros s; [done|]. simpl. destruct (f s (g a)); [apply IH|done].
Qed.

(** The total-correctness reading of an outcome: it returns, and its result
    satisfies [Q].  All panic-freedom theorems are stated with it. *)
Definition returns {A} (m : outcome A) (Q : A → Prop) : Prop :=
  match m with Returns a => Q a | Panics _ => False end.

Lemma returns_ret {A} (a : A) (Q : A → Prop) : Q a → returns (mret a) Q.
Proof. done. Qed.

Lemma returns_bind {A B} (m : outcome A) (f : A → outcome B) Q :
  returns m (λ a, returns (f a) Q) → returns (m ≫= f) Q.
Proof. by destruct m. Qed.

Lemma returns_mono {A} (m : outcome A) (P Q : A → Prop) :
  returns m P → (∀ a, P a → Q a) → returns m Q.
Proof. destruct m; naive_solver. Qed.

Lemma returns_unwrap {A} why (o : option A) (Q : A → Prop) a :
  o = Some a → Q a → returns (unwrap why o) Q.
Proof. by intros ->. Qed.

Lemma returns_for_each {S A} (I : S → Prop) (f : S → A → outcome S) l s :
  I s → (∀ s a, a ∈ l → I s → returns (f s a) I) → returns (for_each f l s) I.
Proof.
  revert s; induction l as [|a l IH]; intros s HI Hf; simpl; [done|].
  apply returns_bind.
  eapply returns_mono; [apply Hf; [set_solver|done]|].
  intros s' ?; apply IH; [done|]. intros; apply Hf; [set_solver|done].
Qed.

Lemma returns_inv {A} (m : outcome A) Q : returns m Q → ∃ a, m = Returns a ∧ Q a.
Proof. destruct m; naive_solver. Qed.

Lemma returns_inj {A} (a b : A) : Returns a = Returns b → a = b.
Proof. congruence. Qed.

(** The partial reading, used only for frame lemmas: if it returns, then [Q]. *)
Definition yields {A} (m : outcome A) (Q : A → Prop) : Prop :=
  match m with Returns a => Q a | Panics _ => True end.

Lemma yields_bind {A B} (m : outcome A) (f : A → outcome B) Q :
  (∀ a, m = Returns a → yields (f a) Q) → yields (m ≫= f) Q.
Proof. destruct m; naive_solver. Qed.

Lemma yields_for_each {S A} (I : S → Prop) (f : S → A → outcome S) l s :
  I s → (∀ s a, I s → yields (f s a) I) → yields (for_each f l s) I.
Proof.
  intros Hs Hf. revert s Hs; induction l as [|a l IH]; intros s Hs; simpl; [done|].
  apply yields_bind. intros s' E. specialize (Hf s a Hs). rewrite E in Hf. auto.
Qed.

#[export] Hint Resolve returns_ret : zk.

(** [Result<T, E>]. *)
Inductive result (T E : Type) : Type :=
| Ok (t : T)
| Err (e : E).
Arguments Ok {_ _} _.
Arguments Err {_ _} _.

Definition is_err {T E} (r : result T E) : bool :=
  match r with Err _ => true | Ok _ => false end.

(** ** Formatted text

    The result of a [format!] that prints an [f64] is kept as the sequence of
    the pieces it prints; integers and strings are rendered. *)
Definition display_i64 (z : Z) : string := pretty z.
#[global] Arguments display_i64 : simpl never.

(** ** Machine integers *)
Definition wrap_u32 (z : Z) : Z := z mod 2 ^ 32.
Definition wrap_i64 (z : Z) : Z := (z + 2 ^ 63) mod 2 ^ 64 - 2 ^ 63.
Definition wrap_u64 (z : Z) : Z := z mod 2 ^ 64.
Definition wrap_i32 (z : Z) : Z := (z + 2 ^ 31) mod 2 ^ 32 - 2 ^ 31.

Lemma wrap_u32_small z : 0 ≤ z < 2 ^ 32 → wrap_u32 z = z.
Proof. apply Z.mod_small. Qed.

Lemma wrap_u32_range z : 0 ≤ wrap_u32 z < 2 ^ 32.
Proof. by apply Z.mod_pos_bound. Qed.

Lemma wrap_u32_le z : 0 ≤ z → wrap_u32 z ≤ z.
Proof. intros. by apply Z.mod_le. Qed.

Lemma wrap_i64_range z : - 2 ^ 63 ≤ wrap_i64 z < 2 ^ 63.
Proof. unfold wrap_i64. pose proof (Z.mod_pos_bound (z + 2 ^ 63) (2 ^ 64)). lia. Qed.
Lemma wrap_i64_small z : - 2 ^ 63 ≤ z < 2 ^ 63 → wrap_i64 z = z.
Proof. intros. unfold wrap_i64. rewrite Z.mod_small; lia. Qed.

Lemma wrap_u64_small z : 0 ≤ z < 2 ^ 64 → wrap_u64 z = z.
Proof. apply Z.mod_small. Qed.

#[export] Hint Resolve wrap_u32_range : zk.

(** ** Hash-table iteration

    [HashMap] iterates in an unspecified order.  A component that iterates one
    takes the order as a parameter: any listing of the bindings. *)
Class HashIter (K : Type) `{Countable K} :=
  hash_iter : ∀ {V : Type}, gmap K V → list (K * V).
Class HashIterOk (K : Type) `{HashIter K} : Prop :=
  hash_iter_perm : ∀ (V : Type) (m : gmap K V), hash_iter m ≡ₚ map_to_list m.

Lemma elem_of_hash_iter `{HashIterOk K} {V} (m : gmap K V) k v :
  (k, v) ∈ hash_iter m ↔ m !! k = Some v.
Proof. by rewrite (hash_iter_perm V m), elem_of_map_to_list. Qed.

(** The order of the [gmap] representation itself: one admissible order, used
    to run the definitions on concrete inputs. *)
Definition canonical_iter {K : Type} `{Countable K} : HashIter K :=
  λ V m, map_to_list m.
Lemma canonical_iter_ok {K : Type} `{Countable K} :
  @HashIterOk K _ _ canonical_iter.
Proof. intros V m. done. Qed.

(** Iteration of a [HashSet], through the map of its elements. *)
Definition set_iter `{HashIter K} (s : gset K) : list K :=
  (hash_iter (gset_to_gmap tt s)).*1.

Lemma elem_of_set_iter `{HashIterOk K} (s : gset K) k : k ∈ set_iter s ↔ k ∈ s.
Proof.
  unfold set_iter. rewrite list_elem_of_fmap. split.
  - intros ([k' []] & -> & Hk). apply elem_of_hash_iter in Hk.
    by apply lookup_gset_to_gmap_Some in Hk as [? _].
  - intros Hk. exists (k, tt). split; [done|]. apply elem_of_hash_iter.
    by apply lookup_gset_to_gmap_Some.
Qed.

(** [iter().map(|x| (key(x), x)).collect::<HashMap<_, _>>()]: a later entry
    replaces an earlier one with the same key. *)
Definition collect_map {K V A} `{Countable K} (key : A → K) (val : A → V) (l : list A)
    : gmap K V :=
  foldl (λ m a, <[key a := val a]> m) ∅ l.

(** What such a loop leaves at a key: the last entry with that key. *)
Lemma foldl_insert_lookup {K V A} `{Countable K} (key : A → K) (val : A → V) (l : list A)
    (m : gmap K V) k :
  foldl (λ m a, <[key a := val a]> m) m l !! k =
  match last (filter (λ a, key a = k) l) with Some a => Some (val a) | None => m !! k end.
Proof.
  induction l as [|a l IH] using rev_ind; [done|].
  rewrite foldl_snoc, filter_app, last_app, filter_cons, filter_nil.
  destruct (decide (key a = k)) as [->|Hne]; [apply lookup_insert_eq|].
  by rewrite lookup_insert_ne.
Qed.

Lemma collect_map_lookup {K V A} `{Countable K} (key : A → K) (val : A → V) (l : list A) k :
  collect_map key val l !! k = val <$> last (filter (λ a, key a = k) l).
Proof. unfold collect_map. rewrite foldl_insert_lookup. by destruct (last _). Qed.

Lemma last_filter_Some {A} (P : A → Prop) `{∀ x, Decision (P x)} l a :
  last (filter P l) = Some a → a ∈ l ∧ P a.
Proof. intros Hl%last_Some_elem_of. apply list_elem_of_filter in Hl. tauto. Qed.

(** [map.entry(k).or_default().insert(x)] on a map of sets. *)
Definition insert_at {K A} `{Countable K, Countable A} (k : K) (x : A)
    (m : gmap K (gset A)) : gmap K (gset A) :=
  <[k := {[x]} ∪ default ∅ (m !! k)]> m.

Lemma foldl_inv {S A} (P : S → Prop) (f : S → A → S) l s :
  P s → (∀ s a, a ∈ l → P s → P (f s a)) → P (foldl f s l).
Proof.
  revert s. induction l as [|a l IH]; intros s Hs Hf; [done|]. simpl.
  apply IH; [apply Hf; [set_solver|done]|]. intros; apply Hf; [set_solver|done].
Qed.

(** A loop that pushes some of its elements. *)
Lemma foldl_push {A B} (f : A → bool) (g : A → B) l :
  foldl (λ acc a, if f a then acc ++ [g a] else acc) [] l =
  omap (λ a, if f a then Some (g a) else None) l.
Proof.
  induction l as [|a l IH] using rev_ind; [done|].
  rewrite foldl_snoc, omap_app, IH. cbn. destruct (f a); cbn; [done|by rewrite app_nil_r].
Qed.

(** ** Sums over lists *)
Definition Zsum (l : list Z) : Z := foldr Z.add 0 l.

Lemma Zsum_app l k : Zsum (l ++ k) = Zsum l + Zsum k.
Proof. induction l as [|x l IH]; simpl; lia. Qed.

Lemma Zsum_nonneg l : Forall (λ q, 0 ≤ q) l → 0 ≤ Zsum l.
Proof. induction 1; simpl; lia. Qed.

(** ** Sums over finite maps *)
Section map_sum.
Context {K V : Type} `{Countable K}.
Implicit Types (f : K → V → Z) (m : gmap K V).

Definition map_sum f m : Z := map_fold (λ k v acc, f k v + acc) 0 m.

Lemma map_sum_empty f : map_sum f ∅ = 0.
Proof. done. Qed.

Lemma map_sum_insert f m k v :
  m !! k = None → map_sum f (<[k:=v]> m) = f k v + map_sum f m.
Proof. intros. unfold map_sum. rewrite map_fold_insert_L; [done|lia|done]. Qed.

Lemma map_sum_delete f m k v :
  m !! k = Some v → map_sum f m = f k v + map_sum f (delete k m).
Proof.
  intros Hk. rewrite <- (insert_delete_id m k v Hk) at 1.
  rewrite map_sum_insert; [done|]. apply lookup_delete_eq.
Qed.

Lemma map_sum_replace f m k v w :
  m !! k = Some v → map_sum f (<[k:=w]> m) = map_sum f m - f k v + f k w.
Proof.
  intros Hk. rewrite <- insert_delete_eq, map_sum_insert by apply lookup_delete_eq.
  rewrite (map_sum_delete f m k v) by done. lia.
Qed.

Lemma map_sum_nonneg f m :
  (∀ k v, m !! k = Some v → 0 ≤ f k v) → 0 ≤ map_sum f m.
Proof.
  induction m as [|k v m Hk Hfold IH] using map_first_key_ind; intros Hf.
  - done.
  - rewrite map_sum_insert by done.
    assert (0 ≤ f k v) by (apply Hf; by rewrite lookup_insert_eq).
    assert (0 ≤ map_sum f m); [|lia].
    apply IH. intros k' v' Hk'. apply Hf.
    rewrite lookup_insert_ne; [done|congruence].
Qed.
End map_sum.

(** ** Strings *)

Definition is_empty (s : string) : bool :=
  match s with EmptyString => true | _ => false end.

(** [str::trim().is_empty()]: every character is Unicode white space.  The
    recogniser reads the UTF-8 bytes. *)
Definition byte_of (a : Ascii.ascii) : Z := Z.of_N (Ascii.N_of_ascii a).

Definition is_ascii_ws (b : Z) : bool := ((9 <=? b) && (b <=? 13)) || (b =? 32).
Definition is_ws2 (b c : Z) : bool := (b =? 0xC2) && ((c =? 0x85) || (c =? 0xA0)).
Definition is_ws3 (b c d : Z) : bool :=
  ((b =? 0xE1) && (c =? 0x9A) && (d =? 0x80)) ||
  ((b =? 0xE2) && (c =? 0x80) &&
    (((0x80 <=? d) && (d <=? 0x8A)) || (d =? 0xA8) || (d =? 0xA9) || (d =? 0xAF))) ||
  ((b =? 0xE2) && (c =? 0x81) && (d =? 0x9F)) ||
  ((b =? 0xE3) && (c =? 0x80) && (d =? 0x80)).

Fixpoint trim_is_empty (s : string) : bool :=
  match s with
  | EmptyString => true
  | String a s1 =>
      is_ascii_ws (byte_of a) && trim_is_empty s1 ||
      match s1 with
      | EmptyString => false
      | String b s2 =>
          is_ws2 (byte_of a) (byte_of b) && trim_is_empty s2 ||
          match s2 with
          | EmptyString => false
          | String c s3 => is_ws3 (byte_of a) (byte_of b) (byte_of c) && trim_is_empty s3
          end
      end
  end.

(** [str::to_uppercase] maps whole Unicode strings.  The components that call it
    take the mapping as a parameter; [ascii_uppercase] is its restriction to
    ASCII text, used to run the definitions. *)
Class Uppercase := to_uppercase : string → string.

Definition ascii_upper (a : Ascii.ascii) : Ascii.ascii :=
  let n := Ascii.N_of_ascii a in
  if ((97 <=? n)%N && (n <=? 122)%N) then Ascii.ascii_of_N (n - 32) else a.
Fixpoint ascii_uppercase (s : string) : string :=
  match s with
  | EmptyString => EmptyString
  | String a s => String (ascii_upper a) (ascii_uppercase s)
  end.

(** ** Tactics *)

(** Case analysis on every [match] of the goal (or of a hypothesis), keeping
    the equations. *)
Ltac case_goal :=
  repeat match goal with
         | |- context [match ?x with _ => _ end] => destruct x eqn:?; simpl
         end.
Ltac case_hyp H :=
  repeat match type of H with
         | context [match ?x with _ => _ end] => destruct x eqn:?; simpl in H
         end.

(** Step through an outcome computation: binds are split, known unwraps are
    discharged. *)
Ltac ostep :=
  first
    [ apply returns_bind
    | eapply returns_unwrap; [eassumption|]
    | apply returns_ret ].
