(* ===== verification/F64.v ===== *)
(** * IEEE-754 binary64, as the Rust code uses it

    Prices, quantities and balances are [f64].  The model computes with the
    exact binary64 semantics (round to nearest, ties to even, infinities, NaN,
    signed zeros): [f64] is the Standard Library's [spec_float] at precision 53
    and exponent bound 1024, so every arithmetic operation of the source is
    evaluated bit for bit.

    - [Module f64]: the operations of [core::f64] the code calls;
    - order lemmas: comparisons with NaN excluded form a total preorder;
    - [on_grid g m x]: [x] is the canonical float of value [m * 2^g]; on a grid,
      additions, subtractions, products and comparisons are exact while the
      mantissa stays under 53 bits.  Ledger theorems are stated on grids. *)

From S2P Require Import Prelude.
From Stdlib Require Import SpecFloat.

Abbreviation prec := 53 (only parsing).
Abbreviation emax := 1024 (only parsing).

(** The Rust type [f64]. *)
Abbreviation f64 := spec_float.

Module f64.
Definition add (x y : f64) : f64 := SFadd prec emax x y.
Definition sub (x y : f64) : f64 := SFsub prec emax x y.
Definition mul (x y : f64) : f64 := SFmul prec emax x y.
Definition div (x y : f64) : f64 := SFdiv prec emax x y.
Definition neg (x : f64) : f64 := SFopp x.
Definition abs (x : f64) : f64 := SFabs x.

(** [==], [<], [<=]: false as soon as one operand is NaN. *)
Definition eqb (x y : f64) : bool := SFeqb x y.
Definition ltb (x y : f64) : bool := SFltb x y.
Definition leb (x y : f64) : bool := SFleb x y.

Definition is_nan (x : f64) : bool :=
  match x with S754_nan => true | _ => false end.
Definition is_finite (x : f64) : bool :=
  match x with S754_zero _ | S754_finite _ _ _ => true | _ => false end.

(** [f64::max] and [f64::min] ignore a NaN operand. *)
Definition max (x y : f64) : f64 :=
  if is_nan x then y else if is_nan y then x else if ltb x y then y else x.
Definition min (x y : f64) : f64 :=
  if is_nan x then y else if is_nan y then x else if ltb y x then y else x.

(** [f64::floor]: the largest integer not above [x]. *)
Definition floor (x : f64) : f64 :=
  match x with
  | S754_finite s m e =>
      if 0 <=? e then x
      else
        let q := Z.div (cond_Zopp s (Zpos m)) (2 ^ (- e)) in
        binary_normalize prec emax q 0 s
  | _ => x
  end.

Definition zero : f64 := S754_zero false.
Definition of_Z (m : Z) : f64 := binary_normalize prec emax m 0 false.
(** The float nearest to [m * 10^-k], as a decimal literal denotes it. *)
Definition of_decimal (m : Z) (k : nat) : f64 := div (of_Z m) (of_Z (10 ^ Z.of_nat k)).

(** [f64::powi] as compiler-rt's [__powidf2] computes it: square and
    multiply on the exponent's magnitude, inverted for a negative one. *)
Fixpoint powi_pos (a : f64) (b : positive) (r : f64) : f64 :=
  match b with
  | xH => mul r a
  | xO b' => powi_pos (mul a a) b' r
  | xI b' => powi_pos (mul a a) b' (mul r a)
  end.
Definition powi (a : f64) (n : Z) : f64 :=
  match n with
  | Z0 => of_Z 1
  | Zpos p => powi_pos a p (of_Z 1)
  | Zneg p => div (of_Z 1) (powi_pos a p (of_Z 1))
  end.

#[global] Arguments add : simpl never.
#[global] Arguments sub : simpl never.
#[global] Arguments mul : simpl never.
#[global] Arguments div : simpl never.
#[global] Arguments eqb : simpl never.
#[global] Arguments ltb : simpl never.
#[global] Arguments leb : simpl never.
#[global] Arguments max : simpl never.
#[global] Arguments min : simpl never.
End f64.

Declare Scope f64_scope.
Delimit Scope f64_scope with f64.
Bind Scope f64_scope with spec_float.
Infix "+" := f64.add : f64_scope.
Infix "-" := f64.sub : f64_scope.
Infix "*" := f64.mul : f64_scope.
Infix "/" := f64.div : f64_scope.
Notation "- x" := (f64.neg x) : f64_scope.
Infix "=?" := f64.eqb : f64_scope.
Infix "<?" := f64.ltb : f64_scope.
Infix "<=?" := f64.leb : f64_scope.
Notation "x >? y" := (f64.ltb y x) (only parsing) : f64_scope.
Notation "x >=? y" := (f64.leb y x) (only parsing) : f64_scope.

(** [1e-8] and [1e-9], the tolerances of the fill and reconcile code. *)
Definition eps8 : f64 := Eval vm_compute in f64.of_decimal 1 8.
Definition eps9 : f64 := Eval vm_compute in f64.of_decimal 1 9.

(** ** Order *)

Definition fle (x y : f64) : Prop := (x <=? y)%f64 = true.
Definition flt (x y : f64) : Prop := (x <? y)%f64 = true.

Section order.
Implicit Types x y z : f64.

Lemma SFcompare_nan x y :
  SFcompare x y = None ↔ f64.is_nan x = true ∨ f64.is_nan y = true.
Proof. destruct x as [[]|[]| |[] ??], y as [[]|[]| |[] ??]; simpl; intuition congruence. Qed.

Lemma SFcompare_refl x : f64.is_nan x = false → SFcompare x x = Some Eq.
Proof.
  destruct x as [[]|[]| |[] m e]; try done; intros _; simpl;
    rewrite Z.compare_refl, Pos.compare_cont_refl; done.
Qed.

Lemma Pos_compare_cont_opp m1 m2 :
  Pos.compare_cont Eq m2 m1 = CompOpp (Pos.compare_cont Eq m1 m2).
Proof. symmetry. apply (Pos.compare_cont_antisym m1 m2 Eq). Qed.

Lemma SFcompare_antisym x y :
  SFcompare y x = CompOpp <$> SFcompare x y.
Proof.
  destruct x as [[]|[]| |[] m1 e1], y as [[]|[]| |[] m2 e2]; simpl; try done;
    rewrite (Z.compare_antisym e1 e2), (Pos_compare_cont_opp m1 m2);
    by destruct (e1 ?= e2), (Pos.compare_cont Eq m1 m2).
Qed.

Lemma fle_refl x : f64.is_nan x = false → fle x x.
Proof.
  intros. unfold fle, f64.leb, SFleb. by rewrite SFcompare_refl.
Qed.

Lemma fle_not_nan x y : fle x y → f64.is_nan x = false ∧ f64.is_nan y = false.
Proof.
  unfold fle, f64.leb, SFleb. intros H.
  destruct (SFcompare x y) eqn:E; [|done].
  split; apply not_true_is_false; intros ?;
    assert (SFcompare x y = None) by (apply SFcompare_nan; auto); congruence.
Qed.

Lemma fle_total x y :
  f64.is_nan x = false → f64.is_nan y = false → fle x y ∨ flt y x.
Proof.
  intros Hx Hy. unfold fle, flt, f64.leb, f64.ltb, SFleb, SFltb.
  rewrite (SFcompare_antisym x y).
  destruct (SFcompare x y) as [[]|] eqn:E; simpl; auto.
  apply SFcompare_nan in E as []; congruence.
Qed.

Lemma flt_fle x y : flt x y → fle x y.
Proof. unfold flt, fle, f64.ltb, f64.leb, SFltb, SFleb. by destruct (SFcompare x y) as [[]|]. Qed.

Lemma fle_not_flt x y : fle x y → (y <? x)%f64 = false.
Proof.
  unfold fle, f64.ltb, f64.leb, SFltb, SFleb. rewrite (SFcompare_antisym x y).
  by destruct (SFcompare x y) as [[]|].
Qed.

Lemma flt_irrefl_le x y : flt x y → (y <=? x)%f64 = false.
Proof.
  unfold flt, f64.ltb, f64.leb, SFltb, SFleb. rewrite (SFcompare_antisym x y).
  by destruct (SFcompare x y) as [[]|].
Qed.

(** The order of finite magnitudes is lexicographic on (exponent, mantissa). *)
Definition magn (m1 : positive) (e1 : Z) (m2 : positive) (e2 : Z) : comparison :=
  match e1 ?= e2 with
  | Lt => Lt
  | Gt => Gt
  | Eq => Pos.compare_cont Eq m1 m2
  end.

Lemma magn_trans m1 e1 m2 e2 m3 e3 :
  magn m1 e1 m2 e2 ≠ Gt → magn m2 e2 m3 e3 ≠ Gt → magn m1 e1 m3 e3 ≠ Gt.
Proof.
  unfold magn. change (Pos.compare_cont Eq) with Pos.compare.
  destruct (Z.compare_spec e1 e2), (Z.compare_spec e2 e3),
    (Z.compare_spec e1 e3); subst; try done; try lia;
  destruct (Pos.compare_spec m1 m2), (Pos.compare_spec m2 m3),
    (Pos.compare_spec m1 m3); subst; try done; lia.
Qed.

Lemma magn_opp m1 e1 m2 e2 : magn m2 e2 m1 e1 = CompOpp (magn m1 e1 m2 e2).
Proof.
  unfold magn. rewrite (Z.compare_antisym e1 e2), (Pos_compare_cont_opp m1 m2).
  by destruct (e1 ?= e2).
Qed.

Lemma SFcompare_finite s1 m1 e1 s2 m2 e2 :
  SFcompare (S754_finite s1 m1 e1) (S754_finite s2 m2 e2) =
  Some (match s1, s2 with
        | true, false => Lt
        | false, true => Gt
        | false, false => magn m1 e1 m2 e2
        | true, true => magn m2 e2 m1 e1
        end).
Proof.
  destruct s1, s2; try done. rewrite magn_opp. simpl. unfold magn.
  by destruct (e1 ?= e2).
Qed.

Lemma fle_spec x y :
  fle x y ↔ ∃ c, SFcompare x y = Some c ∧ c ≠ Gt.
Proof.
  unfold fle, f64.leb, SFleb. split.
  - destruct (SFcompare x y) as [[]|]; naive_solver.
  - intros (c & -> & ?). by destruct c.
Qed.

Lemma fle_trans x y z : fle x y → fle y z → fle x z.
Proof.
  rewrite !fle_spec. intros (c1 & H1 & N1) (c2 & H2 & N2).
  destruct x as [?|s1| |s1 m1 e1], y as [?|s2| |s2 m2 e2], z as [?|s3| |s3 m3 e3];
    try discriminate; rewrite ?SFcompare_finite in *;
    repeat match goal with s : bool |- _ => destruct s end;
    simpl in *; simplify_eq; try done; eexists; (split; [reflexivity|]);
    first [done | eapply magn_trans; eassumption].
Qed.

Lemma fmax_spec x y :
  f64.is_nan x = false → f64.is_nan y = false →
  fle x (f64.max x y) ∧ fle y (f64.max x y) ∧ (f64.max x y = x ∨ f64.max x y = y).
Proof.
  intros Hx Hy. unfold f64.max. rewrite Hx, Hy.
  destruct (x <? y)%f64 eqn:E.
  - split_and!; auto using flt_fle, fle_refl.
  - destruct (fle_total y x) as [|H]; [done..| |].
    + split_and!; auto using fle_refl.
    + unfold flt in H. congruence.
Qed.

(** Clamping at zero: the result is never negative, even for a NaN. *)
Lemma fmax_zero_nonneg x : fle f64.zero (f64.max x f64.zero).
Proof.
  destruct (f64.is_nan x) eqn:Hx.
  - unfold f64.max. by rewrite Hx.
  - by apply fmax_spec.
Qed.

Lemma fmin_le_r x y : f64.is_nan y = false → fle (f64.min x y) y.
Proof.
  intros Hy. unfold f64.min. destruct (f64.is_nan x) eqn:Hx.
  - by apply fle_refl.
  - rewrite Hy. destruct (y <? x)%f64 eqn:E; [by apply fle_refl|].
    destruct (fle_total x y) as [|H]; [done..|]. unfold flt in H. congruence.
Qed.

Lemma fabs_nonneg x : f64.is_nan x = false → fle f64.zero (f64.abs x).
Proof. by destruct x as [[]|[]| |[] ??]. Qed.

Lemma fabs_neg x : flt x f64.zero → fle f64.zero (f64.abs x).
Proof. by destruct x as [[]|[]| |[] ??]. Qed.
End order.

#[export] Hint Resolve fle_refl flt_fle fmax_zero_nonneg fmin_le_r fabs_neg : zk.
