(* ===== verification/F64Grid.v ===== *)
(** * Exact binary64 arithmetic on a power-of-two grid

    [on_grid g m x] says that the float [x] is the canonical representation of
    [m * 2^g].  While mantissas stay below [2^53], [+], [-], [*], [min] and the
    comparisons of the source compute exactly on such values: they follow the
    integer mantissas.  Lot-sized quantities (integers, halves, quarters, ...)
    live on a grid, and the ledger theorems of the reservation and position
    stores are stated there. *)

From S2P Require Import Prelude F64.
From Stdlib Require Import SpecFloat.

Definition on_grid (g m : Z) (x : f64) : Prop :=
  match x with
  | S754_zero _ => m = 0
  | S754_finite s p e =>
      bounded prec emax p e = true ∧ e ≤ g ∧ cond_Zopp s (Zpos p) = m * 2 ^ (g - e)
  | _ => False
  end.

(** The grids whose 53-bit mantissas neither underflow nor overflow. *)
Definition grid_ok (g : Z) : Prop := -1074 ≤ g ≤ 971.

(** The mantissas a grid carries exactly. *)
Definition fits (m : Z) : Prop := Z.abs m < 2 ^ 53.

Section digits.
Lemma digits2_pos_log2 p : Zpos (digits2_pos p) = Z.log2 (Zpos p) + 1.
Proof.
  induction p as [p IH|p IH|]; [| |done]; simpl digits2_pos;
    rewrite Pos2Z.inj_succ, IH.
  - rewrite Pos2Z.inj_xI, Z.log2_succ_double by lia. lia.
  - rewrite Pos2Z.inj_xO, Z.log2_double by lia. lia.
Qed.

Lemma Zdigits2_pos m : 0 < m → Zdigits2 m = Z.log2 m + 1.
Proof. destruct m; try lia. intros _. apply digits2_pos_log2. Qed.

Lemma Zdigits2_shift m k : 0 < m → 0 ≤ k → Zdigits2 (m * 2 ^ k) = Zdigits2 m + k.
Proof.
  intros. rewrite !Zdigits2_pos, Z.log2_mul_pow2 by nia. lia.
Qed.

Lemma Zdigits2_fits m : 0 < m → fits m → 1 ≤ Zdigits2 m ≤ 53.
Proof.
  unfold fits. intros. rewrite Zdigits2_pos by done.
  pose proof (Z.log2_nonneg m). assert (Z.log2 m < 53); [|lia].
  apply Z.log2_lt_pow2; lia.
Qed.

Lemma canonical_exp p e :
  bounded prec emax p e = true →
  e = Z.max (Zpos (digits2_pos p) + e - 53) (-1074) ∧ e ≤ 971.
Proof.
  unfold bounded, canonical_mantissa, fexp, emin. intros [H1 H2]%andb_true_iff.
  apply Z.eqb_eq in H1. apply Z.leb_le in H2. lia.
Qed.

Lemma bounded_range p e :
  bounded prec emax p e = true →
  Zpos p < 2 ^ 53 ∧ -1074 ≤ e ∧ (-1074 < e → 2 ^ 52 ≤ Zpos p).
Proof.
  intros [He _]%canonical_exp. rewrite digits2_pos_log2 in He.
  split_and!; [|lia|].
  - apply Z.log2_lt_pow2; lia.
  - intros. assert (Z.log2 (Zpos p) = 52) as Hl by lia.
    pose proof (Z.log2_spec (Zpos p)) as Hs. rewrite Hl in Hs. lia.
Qed.
End digits.

Section shifts.
Lemma shl_align_spec mx ex ex' :
  ex' ≤ ex → ∃ p, shl_align mx ex ex' = (p, ex') ∧ Zpos p = Zpos mx * 2 ^ (ex - ex').
Proof.
  intros Hle. unfold shl_align. destruct (ex' - ex) as [|d|d] eqn:Hd.
  - assert (ex = ex') as -> by lia. exists mx. rewrite Z.sub_diag. split; [done|lia].
  - lia.
  - eexists; split; [done|]. replace (ex - ex') with (Zpos d) by lia.
    clear Hd Hle. revert mx. induction d as [|d IH] using Pos.peano_ind; intros mx.
    + simpl. lia.
    + rewrite Pos.iter_succ, Pos2Z.inj_xO, IH, Pos2Z.inj_succ, Z.pow_succ_r; lia.
Qed.

Lemma shl_align_id mx ex ex' : ex < ex' → shl_align mx ex ex' = (mx, ex).
Proof. intros. unfold shl_align. destruct (ex' - ex) eqn:?; [done|done|lia]. Qed.

Definition exact_rec (m : Z) : shr_record :=
  {| shr_m := m; shr_r := false; shr_s := false |}.

Lemma iter_shr_exact n m :
  0 < m → iter_pos shr_1 n (exact_rec (m * 2 ^ Zpos n)) = exact_rec m.
Proof.
  assert (Hstep : ∀ m, 0 < m → shr_1 (exact_rec (2 * m)) = exact_rec m).
  { intros m' ?. by destruct m'. }
  revert m; induction n as [n IH|n IH|]; intros m Hm; cbn [iter_pos].
  - replace (m * 2 ^ Z.pos n~1) with (2 * (m * 2 ^ Zpos n * 2 ^ Zpos n)).
    2: { rewrite Pos2Z.inj_xI, Z.pow_add_r, Z.pow_twice_r by lia. ring. }
    rewrite Hstep, IH, IH by nia. done.
  - replace (m * 2 ^ Z.pos n~0) with (m * 2 ^ Zpos n * 2 ^ Zpos n).
    2: { rewrite (Pos2Z.inj_xO n), Z.pow_twice_r by lia. ring. }
    rewrite IH, IH by nia. done.
  - rewrite (Z.mul_comm m). by apply Hstep.
Qed.

Lemma shr_exact m e n :
  0 < m → 0 ≤ n → shr (exact_rec (m * 2 ^ n)) e n = (exact_rec m, e + n).
Proof.
  intros Hm Hn. destruct n as [|n|n]; [|by simpl; rewrite iter_shr_exact|lia].
  simpl. by rewrite Z.mul_1_r, Z.add_0_r.
Qed.

Lemma round_exact s m e n :
  0 < m → 0 ≤ n → fexp prec emax (Zdigits2 m + (e + n)) = e + n → e + n ≤ 971 →
  binary_round_aux prec emax s (m * 2 ^ n) e loc_Exact = S754_finite s (Z.to_pos m) (e + n).
Proof.
  intros Hm Hn Hexp Hmax. unfold binary_round_aux, shr_fexp.
  rewrite Zdigits2_shift by done.
  replace (Zdigits2 m + n + e) with (Zdigits2 m + (e + n)) by lia. rewrite Hexp.
  replace (e + n - e) with n by lia.
  change (shr_record_of_loc ?x loc_Exact) with (exact_rec x).
  rewrite shr_exact by done. cbn [shr_m exact_rec loc_of_shr_record round_nearest_even].
  rewrite Hexp, Z.sub_diag. cbn [shr shr_m shr_record_of_loc].
  destruct m as [|p|]; [lia| |lia].
  replace (e + n <=? emax - prec) with true; [done|].
  symmetry. apply Z.leb_le. lia.
Qed.
End shifts.

Section grid.
Context (g : Z) (Hg : grid_ok g).

(** The canonical exponent of [m * 2^g]. *)
Let texp (m : Z) : Z := Z.max (Zdigits2 m + g - 53) (-1074).

Lemma texp_spec m :
  0 < m → fits m →
  texp m ≤ g ∧ fexp prec emax (Zdigits2 (m * 2 ^ (g - texp m)) + texp m) = texp m.
Proof using Hg.
  intros Hm Hf. pose proof (Zdigits2_fits m Hm Hf). unfold grid_ok in Hg.
  assert (texp m ≤ g) by (unfold texp; lia). split; [done|].
  rewrite Zdigits2_shift by lia.
  replace (Zdigits2 m + (g - texp m) + texp m) with (Zdigits2 m + g) by lia.
  unfold fexp, emin, texp. lia.
Qed.

Lemma round_on_grid s m e :
  0 < m → fits m → e ≤ g →
  on_grid g (cond_Zopp s m) (binary_round prec emax s (Z.to_pos (m * 2 ^ (g - e))) e).
Proof using Hg.
  intros Hm Hf He. destruct (texp_spec m Hm Hf) as [Ht Hexp]. unfold grid_ok in Hg.
  set (t := texp m) in *. set (M := m * 2 ^ (g - t)) in *.
  assert (0 < M) by (unfold M; nia).
  assert (∃ E n, 0 ≤ n ∧ E + n = t ∧
    binary_round prec emax s (Z.to_pos (m * 2 ^ (g - e))) e
    = binary_round_aux prec emax s (M * 2 ^ n) E loc_Exact) as (E & n & ? & HE & ->).
  { unfold binary_round.
    change (Zpos (digits2_pos ?p)) with (Zdigits2 (Zpos p)).
    rewrite Z2Pos.id, Zdigits2_shift by nia.
    replace (fexp prec emax (Zdigits2 m + (g - e) + e)) with t
      by (unfold t, texp, fexp, emin; lia).
    destruct (Z_le_gt_dec t e) as [Hte|Hte].
    - destruct (shl_align_spec (Z.to_pos (m * 2 ^ (g - e))) e t Hte) as (p & -> & Hp).
      exists t, 0. split_and!; [lia|lia|]. rewrite Hp, Z2Pos.id, Z.mul_1_r by nia.
      rewrite <- Z.mul_assoc, <- Z.pow_add_r by lia.
      by replace (g - e + (e - t)) with (g - t) by lia.
    - rewrite shl_align_id by lia. exists e, (t - e). split_and!; [lia|lia|].
      rewrite Z2Pos.id by nia. unfold M. rewrite <- Z.mul_assoc, <- Z.pow_add_r by lia.
      by replace (g - t + (t - e)) with (g - e) by lia. }
  rewrite round_exact; rewrite ?HE; try done; [|unfold t, texp in *; lia].
  simpl. unfold bounded, canonical_mantissa.
  change (Zpos (digits2_pos ?p)) with (Zdigits2 (Zpos p)).
  rewrite Z2Pos.id by done. rewrite Hexp, Z.eqb_refl. split_and!; [|done|].
  - apply Z.leb_le. lia.
  - unfold M. by destruct s; simpl; lia.
Qed.

Lemma normalize_on_grid m e s :
  fits m → e ≤ g → on_grid g m (binary_normalize prec emax (m * 2 ^ (g - e)) e s).
Proof using Hg.
  intros Hf He. destruct (Z.lt_trichotomy m 0) as [Hm|[->|Hm]].
  - pose proof (round_on_grid true (- m) e ltac:(lia) ltac:(unfold fits in *; lia) He) as H.
    simpl in H. rewrite Z.opp_involutive in H.
    destruct (m * 2 ^ (g - e)) as [|p|p] eqn:E; [nia|nia|].
    replace (Z.to_pos (- m * 2 ^ (g - e))) with p in H by (rewrite Z.mul_opp_l, E; done).
    exact H.
  - done.
  - pose proof (round_on_grid false m e Hm Hf He) as H. simpl in H.
    destruct (m * 2 ^ (g - e)) as [|p|p] eqn:E; [nia| |nia]. exact H.
Qed.

Lemma on_grid_fits m x : on_grid g m x → fits m.
Proof using Type.
  unfold fits. destruct x as [| | |s p e]; simpl; [by intros ->|done|done|].
  intros (Hb & He & Hp). apply bounded_range in Hb as (Hlt & _).
  assert (Z.abs m * 2 ^ (g - e) = Zpos p); [|nia].
  destruct s; simpl in Hp; nia.
Qed.

Lemma align_value m s p e ez :
  ez ≤ e → e ≤ g → cond_Zopp s (Zpos p) = m * 2 ^ (g - e) →
  cond_Zopp s (Zpos (shl_align p e ez).1) = m * 2 ^ (g - ez).
Proof using Type.
  intros Hz He Hp. destruct (shl_align_spec p e ez Hz) as (q & -> & Hq). simpl.
  replace (g - ez) with (g - e + (e - ez)) by lia.
  rewrite Z.pow_add_r by lia. rewrite Z.mul_assoc, <- Hp, Hq. destruct s; simpl; lia.
Qed.

Lemma grid_add a b x y :
  on_grid g a x → on_grid g b y → fits (a + b) → on_grid g (a + b) (x + y)%f64.
Proof using Hg.
  destruct x as [sx| | |sx px ex], y as [sy| | |sy py ey]; simpl; try done.
  - intros -> -> _. by destruct sx, sy.
  - by intros ->.
  - intros H ->. by rewrite Z.add_0_r.
  - intros (Hbx & Hex & Hpx) (Hby & Hey & Hpy) Hf.
    unfold f64.add, SFadd.
    rewrite (align_value a sx), (align_value b sy), <- Z.mul_add_distr_r by lia || done.
    apply normalize_on_grid; [done|lia].
Qed.

Lemma grid_opp a x : on_grid g a x → on_grid g (- a) (f64.neg x).
Proof using Type.
  destruct x as [| | |s p e]; simpl; try done; [by intros ->|].
  intros (? & ? & Hp). split_and!; [done..|]. destruct s; simpl in *; lia.
Qed.

Lemma grid_sub a b x y :
  on_grid g a x → on_grid g b y → fits (a - b) → on_grid g (a - b) (x - y)%f64.
Proof using Hg.
  destruct x as [sx| | |sx px ex], y as [sy| | |sy py ey]; simpl; try done.
  - intros -> -> _. by destruct sx, sy.
  - intros -> (? & ? & Hp) _. split_and!; [done..|]. destruct sy; simpl in *; lia.
  - intros (? & ? & ?) ->. by rewrite Z.sub_0_r.
  - intros (Hbx & Hex & Hpx) (Hby & Hey & Hpy) Hf.
    unfold f64.sub, SFsub.
    rewrite (align_value a sx), (align_value b sy), <- Z.mul_sub_distr_r by lia || done.
    apply normalize_on_grid; [done|lia].
Qed.

Lemma magn_on_grid a b p1 e1 p2 e2 :
  bounded prec emax p1 e1 = true → bounded prec emax p2 e2 = true →
  e1 ≤ g → e2 ≤ g → Zpos p1 = a * 2 ^ (g - e1) → Zpos p2 = b * 2 ^ (g - e2) →
  magn p1 e1 p2 e2 = (a ?= b).
Proof using Type.
  assert (Hlt : ∀ a b p1 e1 p2 e2,
    bounded prec emax p1 e1 = true → bounded prec emax p2 e2 = true →
    e1 < e2 → e2 ≤ g → Zpos p1 = a * 2 ^ (g - e1) → Zpos p2 = b * 2 ^ (g - e2) → a < b).
  { clear. intros a b p1 e1 p2 e2 H1%bounded_range H2%bounded_range Hlt Hle E1 E2.
    assert (b * 2 ^ (g - e1) = Zpos p2 * 2 ^ (e2 - e1)) as Hb.
    { rewrite E2, <- Z.mul_assoc, <- Z.pow_add_r by lia. do 2 f_equal. lia. }
    pose proof (Z.pow_le_mono_r 2 1 (e2 - e1) ltac:(lia) ltac:(lia)).
    assert (2 ^ 53 ≤ b * 2 ^ (g - e1)) by nia. nia. }
  intros H1 H2 He1 He2 E1 E2. unfold magn. change (Pos.compare_cont Eq) with Pos.compare.
  destruct (Z.compare_spec e1 e2) as [->|?|?]; symmetry.
  - change (p1 ?= p2)%positive with (Zpos p1 ?= Zpos p2). rewrite E1, E2.
    rewrite <- Zmult_compare_compat_r; [done|]. apply Z.lt_gt, Z.pow_pos_nonneg; lia.
  - apply Z.compare_lt_iff. by eapply Hlt; [exact H1|exact H2|..].
  - apply Z.compare_gt_iff. by eapply Hlt; [exact H2|exact H1|..].
Qed.

Lemma grid_compare a b x y :
  on_grid g a x → on_grid g b y → SFcompare x y = Some (a ?= b).
Proof using Type.
  assert (Hs : ∀ a s p e, cond_Zopp s (Zpos p) = a * 2 ^ (g - e) → if s then a < 0 else 0 < a).
  { clear. intros a s p e H. assert (0 ≤ 2 ^ (g - e)) by (apply Z.pow_nonneg; lia).
    destruct s; simpl in H; nia. }
  destruct x as [sx| | |sx px ex], y as [sy| | |sy py ey]; simpl; try done.
  - by intros -> ->.
  - intros -> (_ & _ & H%Hs). f_equal. symmetry. destruct sy;
      [by apply Z.compare_gt_iff|by apply Z.compare_lt_iff].
  - intros (_ & _ & H%Hs) ->. f_equal. symmetry. destruct sx;
      [by apply Z.compare_lt_iff|by apply Z.compare_gt_iff].
  - intros (Hb1 & He1 & H1) (Hb2 & He2 & H2).
    pose proof (Hs _ _ _ _ H1). pose proof (Hs _ _ _ _ H2).
    etransitivity; [apply (SFcompare_finite sx px ex sy py ey)|]. f_equal.
    destruct sx, sy; simpl in *.
    + rewrite (magn_on_grid (- b) (- a)) by (done || lia). by rewrite Z.compare_opp.
    + symmetry. apply Z.compare_lt_iff. lia.
    + symmetry. apply Z.compare_gt_iff. lia.
    + by apply magn_on_grid.
Qed.

Lemma grid_ltb a b x y :
  on_grid g a x → on_grid g b y → (x <? y)%f64 = (a <? b).
Proof using Type.
  intros H1 H2. unfold f64.ltb, SFltb. rewrite (grid_compare a b) by done.
  unfold Z.ltb. by destruct (a ?= b).
Qed.

Lemma grid_leb a b x y :
  on_grid g a x → on_grid g b y → (x <=? y)%f64 = (a <=? b).
Proof using Type.
  intros H1 H2. unfold f64.leb, SFleb. rewrite (grid_compare a b) by done.
  unfold Z.leb. by destruct (a ?= b).
Qed.

Lemma grid_not_nan a x : on_grid g a x → f64.is_nan x = false.
Proof using Type. by destruct x. Qed.

Lemma grid_min a b x y :
  on_grid g a x → on_grid g b y → on_grid g (Z.min a b) (f64.min x y).
Proof using Type.
  intros H1 H2. unfold f64.min.
  rewrite (grid_not_nan a x), (grid_not_nan b y), (grid_ltb b a) by done.
  destruct (Z.ltb_spec b a); [rewrite Z.min_r by lia|rewrite Z.min_l by lia]; done.
Qed.

Lemma grid_max a b x y :
  on_grid g a x → on_grid g b y → on_grid g (Z.max a b) (f64.max x y).
Proof using Type.
  intros H1 H2. unfold f64.max.
  rewrite (grid_not_nan a x), (grid_not_nan b y), (grid_ltb a b) by done.
  destruct (Z.ltb_spec a b); [rewrite Z.max_r by lia|rewrite Z.max_l by lia]; done.
Qed.

Lemma grid_abs a x : on_grid g a x → on_grid g (Z.abs a) (f64.abs x).
Proof using Type.
  destruct x as [| | |s p e]; simpl; try done; [by intros ->|].
  intros (? & ? & Hp). split_and!; [done..|].
  assert (0 < 2 ^ (g - e)) by (apply Z.pow_pos_nonneg; lia).
  destruct s; simpl in *; nia.
Qed.

Lemma grid_zero : on_grid g 0 f64.zero.
Proof using Type. done. Qed.

(** A float has one mantissa on the grid. *)
Lemma grid_inj a b x : on_grid g a x → on_grid g b x → a = b.
Proof using Type.
  intros H1 H2. pose proof (grid_compare a b x x H1 H2) as Hc.
  rewrite SFcompare_refl in Hc by eauto using grid_not_nan.
  injection Hc as Hc. symmetry in Hc. by apply Z.compare_eq.
Qed.
End grid.

(** Products: mantissas and grid exponents multiply and add. *)
Lemma grid_mul g1 g2 a b x y :
  grid_ok (g1 + g2) → on_grid g1 a x → on_grid g2 b y → fits (a * b) →
  on_grid (g1 + g2) (a * b) (x * y)%f64.
Proof.
  intros Hg.
  destruct x as [sx| | |sx px ex], y as [sy| | |sy py ey]; simpl; try done.
  - by intros -> ->.
  - by intros ->.
  - intros _ -> _. lia.
  - intros (Hb1 & He1 & H1) (Hb2 & He2 & H2) Hf. unfold f64.mul, SFmul.
    set (G := g1 + g2) in *. set (E := ex + ey).
    assert (Hp1 : 0 < 2 ^ (g1 - ex)) by (apply Z.pow_pos_nonneg; lia).
    assert (Hp2 : 0 < 2 ^ (g2 - ey)) by (apply Z.pow_pos_nonneg; lia).
    assert (Zpos (px * py) = Z.abs (a * b) * 2 ^ (G - E)) as Hprod.
    { replace (G - E) with (g1 - ex + (g2 - ey)) by lia. rewrite Z.pow_add_r by lia.
      rewrite Pos2Z.inj_mul, Z.abs_mul.
      assert (Zpos px = Z.abs a * 2 ^ (g1 - ex)) by (destruct sx; simpl in H1; nia).
      assert (Zpos py = Z.abs b * 2 ^ (g2 - ey)) by (destruct sy; simpl in H2; nia). nia. }
    assert (0 < Z.abs (a * b)) as Hm by nia. set (m := Z.abs (a * b)) in *.
    assert (fits m) as Hfm by (unfold fits in *; lia).
    destruct (texp_spec G Hg m Hm Hfm) as [Ht Hexp].
    set (t := Z.max (Zdigits2 m + G - 53) (-1074)) in *.
    apply bounded_range in Hb1 as (Hx1 & Hx2 & Hx3), Hb2 as (Hy1 & Hy2 & Hy3).
    assert (E ≤ t) as HEt.
    { assert (Zdigits2 (Zpos (px * py)) = Zdigits2 m + (G - E)) as Hd.
      { rewrite Hprod. apply Zdigits2_shift; lia. }
      rewrite Zdigits2_pos in Hd by lia.
      destruct (Z_le_gt_dec E (-1074)); [lia|].
      assert (52 ≤ Z.log2 (Zpos (px * py))); [|lia].
      apply Z.log2_le_pow2; [lia|]. rewrite Pos2Z.inj_mul.
      destruct (Z_le_gt_dec ex (-1074)); [assert (2 ^ 52 ≤ Zpos py) by lia|assert (2 ^ 52 ≤ Zpos px) by lia]; nia. }
    rewrite Hprod. replace (m * 2 ^ (G - E)) with (m * 2 ^ (G - t) * 2 ^ (t - E)).
    2: { rewrite <- Z.mul_assoc, <- Z.pow_add_r by lia. do 2 f_equal. lia. }
    assert (0 < m * 2 ^ (G - t)) by (assert (0 < 2 ^ (G - t)) by (apply Z.pow_pos_nonneg; lia); nia).
    unfold grid_ok in Hg.
    rewrite round_exact; replace (E + (t - E)) with t by lia; [|done|lia|done|lia].
    simpl. unfold bounded, canonical_mantissa.
    change (Zpos (digits2_pos ?p)) with (Zdigits2 (Zpos p)).
    rewrite Z2Pos.id, Hexp, Z.eqb_refl by done. split_and!; [apply Z.leb_le; lia|done|].
    assert (cond_Zopp (xorb sx sy) m = a * b); [|destruct (xorb sx sy); simpl in *; lia].
    unfold m. destruct sx, sy; simpl in *; nia.
Qed.

#[export] Hint Resolve grid_zero grid_add grid_sub grid_opp grid_min grid_max grid_abs : zk.

(** The float of a grid mantissa. *)
Definition of_grid (g m : Z) : f64 := binary_normalize prec emax m g false.

Lemma of_grid_on_grid g m : grid_ok g → fits m → on_grid g m (of_grid g m).
Proof.
  intros Hg Hf. pose proof (normalize_on_grid g Hg m g false Hf ltac:(lia)) as H.
  by rewrite Z.sub_diag, Z.mul_1_r in H.
Qed.
