(* ===== verification/Proto.v ===== *)
(** * Protobuf messages of the OMS boundary

    The message and enum types [prost] generates from [src/protos/zk/**.proto],
    restricted to the packages the OMS core exchanges: orders, reports,
    balances, positions and the gateway requests.  Fields keep their proto
    names behind a prefix per message.  As in the generated Rust, an enum field
    is a raw [i32] ([Z]); [X_try_from] is the generated [TryFrom<i32>], and a
    missing singular message is [None].  [default_X] is [X::default()]. *)

From S2P Require Import Prelude F64.

(** [zk.oms.v1.OrderStatus] *)
Inductive OrderStatus : Set :=
| Unspecified
| Pending
| Booked
| PartiallyFilled
| Filled
| Cancelled
| Rejected.
#[export] Instance OrderStatus_eq_dec : EqDecision OrderStatus.
Proof. solve_decision. Defined.
Definition OrderStatus_i32 (x : OrderStatus) : Z :=
  match x with
  | Unspecified => 0
  | Pending => 1
  | Booked => 2
  | PartiallyFilled => 3
  | Filled => 4
  | Cancelled => 5
  | Rejected => 6
  end.
Definition OrderStatus_try_from (i : Z) : option OrderStatus :=
  if i =? 0 then Some Unspecified
  else if i =? 1 then Some Pending
  else if i =? 2 then Some Booked
  else if i =? 3 then Some PartiallyFilled
  else if i =? 4 then Some Filled
  else if i =? 5 then Some Cancelled
  else if i =? 6 then Some Rejected
  else None.
Lemma OrderStatus_try_from_i32 x : OrderStatus_try_from (OrderStatus_i32 x) = Some x.
Proof. by destruct x. Qed.

(** [zk.oms.v1.ExecType] *)
Inductive ExecType : Set :=
| ExecUnspecified
| Cancel
| PlacingOrder.
#[export] Instance ExecType_eq_dec : EqDecision ExecType.
Proof. solve_decision. Defined.
Definition ExecType_i32 (x : ExecType) : Z :=
  match x with
  | ExecUnspecified => 0
  | Cancel => 1
  | PlacingOrder => 2
  end.
Definition ExecType_try_from (i : Z) : option ExecType :=
  if i =? 0 then Some ExecUnspecified
  else if i =? 1 then Some Cancel
  else if i =? 2 then Some PlacingOrder
  else None.
Lemma ExecType_try_from_i32 x : ExecType_try_from (ExecType_i32 x) = Some x.
Proof. by destruct x. Qed.

(** [zk.exch_gw.v1.OrderReportType] *)
Inductive OrderReportType : Set :=
| OrderRepTypeUnspecified
| OrderRepTypeTrade
| OrderRepTypeState
| OrderRepTypeFee
| OrderRepTypeLinkage
| OrderRepTypeExec.
#[export] Instance OrderReportType_eq_dec : EqDecision OrderReportType.
Proof. solve_decision. Defined.
Definition OrderReportType_i32 (x : OrderReportType) : Z :=
  match x with
  | OrderRepTypeUnspecified => 0
  | OrderRepTypeTrade => 1
  | OrderRepTypeState => 2
  | OrderRepTypeFee => 3
  | OrderRepTypeLinkage => 4
  | OrderRepTypeExec => 5
  end.
Definition OrderReportType_try_from (i : Z) : option OrderReportType :=
  if i =? 0 then Some OrderRepTypeUnspecified
  else if i =? 1 then Some OrderRepTypeTrade
  else if i =? 2 then Some OrderRepTypeState
  else if i =? 3 then Some OrderRepTypeFee
  else if i =? 4 then Some OrderRepTypeLinkage
  else if i =? 5 then Some OrderRepTypeExec
  else None.
Lemma OrderReportType_try_from_i32 x : OrderReportType_try_from (OrderReportType_i32 x) = Some x.
Proof. by destruct x. Qed.

(** [zk.exch_gw.v1.ExchangeOrderStatus] *)
Inductive ExchangeOrderStatus : Set :=
| ExchOrderStatusUnspecified
| ExchOrderStatusBooked
| ExchOrderStatusPartialFilled
| ExchOrderStatusFilled
| ExchOrderStatusCancelled
| ExchOrderStatusExchRejected
| ExchOrderStatusExpired.
#[export] Instance ExchangeOrderStatus_eq_dec : EqDecision ExchangeOrderStatus.
Proof. solve_decision. Defined.
Definition ExchangeOrderStatus_i32 (x : ExchangeOrderStatus) : Z :=
  match x with
  | ExchOrderStatusUnspecified => 0
  | ExchOrderStatusBooked => 1
  | ExchOrderStatusPartialFilled => 2
  | ExchOrderStatusFilled => 3
  | ExchOrderStatusCancelled => 4
  | ExchOrderStatusExchRejected => 5
  | ExchOrderStatusExpired => 6
  end.
Definition ExchangeOrderStatus_try_from (i : Z) : option ExchangeOrderStatus :=
  if i =? 0 then Some ExchOrderStatusUnspecified
  else if i =? 1 then Some ExchOrderStatusBooked
  else if i =? 2 then Some ExchOrderStatusPartialFilled
  else if i =? 3 then Some ExchOrderStatusFilled
  else if i =? 4 then Some ExchOrderStatusCancelled
  else if i =? 5 then Some ExchOrderStatusExchRejected
  else if i =? 6 then Some ExchOrderStatusExpired
  else None.
Lemma ExchangeOrderStatus_try_from_i32 x : ExchangeOrderStatus_try_from (ExchangeOrderStatus_i32 x) = Some x.
Proof. by destruct x. Qed.

(** [zk.exch_gw.v1.ExchExecType] *)
Inductive ExchExecType : Set :=
| ExchExecUnspecified
| ExchRejected
| CancelReject
| Replaced
| Restated.
#[export] Instance ExchExecType_eq_dec : EqDecision ExchExecType.
Proof. solve_decision. Defined.
Definition ExchExecType_i32 (x : ExchExecType) : Z :=
  match x with
  | ExchExecUnspecified => 0
  | ExchRejected => 1
  | CancelReject => 2
  | Replaced => 3
  | Restated => 4
  end.
Definition ExchExecType_try_from (i : Z) : option ExchExecType :=
  if i =? 0 then Some ExchExecUnspecified
  else if i =? 1 then Some ExchRejected
  else if i =? 2 then Some CancelReject
  else if i =? 3 then Some Replaced
  else if i =? 4 then Some Restated
  else None.
Lemma ExchExecType_try_from_i32 x : ExchExecType_try_from (ExchExecType_i32 x) = Some x.
Proof. by destruct x. Qed.

(** Enum values the code compares raw [i32] fields with. *)
Definition BsBuy : Z := 1.
Definition OcOpen : Z := 1.
Definition BsSell : Z := 2.
Definition LsLong : Z := 1.
Definition LsShort : Z := 2.
Definition ExchReject : Z := 1.
Definition OmsReject : Z := 3.
Definition RejReasonOmsInternalError : Z := 3.
Definition RejReasonNetworkError : Z := 7.
Definition RejReasonOmsInvalidState : Z := 8.
Definition OrderSourceNonTq : Z := 2.
Definition OrderSourceUnknown : Z := 3.

(** A text the code builds with [format!]: what the Rust formatter renders with
    rules of its own (floats, also to a number of decimals, and quoted strings)
    is kept as unrendered pieces. *)
Inductive piece : Set :=
| Lit (s : string)
| DispF64 (x : f64)
| FixedF64 (decimals : nat) (x : f64)
| DebugStr (s : option string).
Definition message : Set := list piece.
Definition text (s : string) : message := if is_empty s then [] else [Lit s].

(** [zk.common.v1.ExtraData] *)
Record ExtraData : Set := mkExtraData {
  xd_data_map : list (string * string);
}.
#[export] Instance eta_ExtraData : Eta ExtraData := λ r,
  mkExtraData (xd_data_map r).
Definition default_ExtraData : ExtraData :=
  mkExtraData [].

(** [zk.common.v1.Rejection] *)
Record Rejection : Set := mkRejection {
  rej_source : Z;
  rej_recoverable : bool;
  rej_reason : Z;
  rej_error_code : Z;
  rej_error_message : string;
}.
#[export] Instance eta_Rejection : Eta Rejection := λ r,
  mkRejection (rej_source r) (rej_recoverable r) (rej_reason r) (rej_error_code r)
    (rej_error_message r).
Definition default_Rejection : Rejection :=
  mkRejection 0 false 0 0 "".

(** [zk.common.v1.TriggerContext] *)
Record TriggerContext : Set := mkTriggerContext {
  tc_execution_id : string;
  tc_strategy_key : string;
  tc_trigger_event_type : string;
  tc_instrument_code : string;
  tc_source_ts_ns : Z;
  tc_recv_ts_ns : Z;
  tc_enqueue_ts_ns : Z;
  tc_dispatch_ts_ns : Z;
  tc_decision_ts_ns : Z;
  tc_decision_seq : Z;
  tc_oms_submit_ts_ns : Z;
  tc_client_order_id : string;
}.
#[export] Instance eta_TriggerContext : Eta TriggerContext := λ r,
  mkTriggerContext (tc_execution_id r) (tc_strategy_key r) (tc_trigger_event_type r)
    (tc_instrument_code r) (tc_source_ts_ns r) (tc_recv_ts_ns r) (tc_enqueue_ts_ns r)
    (tc_dispatch_ts_ns r) (tc_decision_ts_ns r) (tc_decision_seq r) (tc_oms_submit_ts_ns
    r) (tc_client_order_id r).
Definition default_TriggerContext : TriggerContext :=
  mkTriggerContext "" "" "" "" 0 0 0 0 0 0 0 "".

(** [zk.common.v1.MarginPositionInfo] *)
Record MarginPositionInfo : Set := mkMarginPositionInfo {
  mpi_leverage : f64;
  mpi_entry_price : f64;
  mpi_mark_price : f64;
  mpi_liquidation_price : f64;
  mpi_margin : f64;
  mpi_contracts : f64;
  mpi_contract_size : f64;
  mpi_contract_value : f64;
  mpi_index_price : f64;
  mpi_unsettled_pnl : f64;
  mpi_last_trade_price : f64;
  mpi_update_ts : Z;
}.
#[export] Instance eta_MarginPositionInfo : Eta MarginPositionInfo := λ r,
  mkMarginPositionInfo (mpi_leverage r) (mpi_entry_price r) (mpi_mark_price r)
    (mpi_liquidation_price r) (mpi_margin r) (mpi_contracts r) (mpi_contract_size r)
    (mpi_contract_value r) (mpi_index_price r) (mpi_unsettled_pnl r) (mpi_last_trade_price
    r) (mpi_update_ts r).
Definition default_MarginPositionInfo : MarginPositionInfo :=
  mkMarginPositionInfo f64.zero f64.zero f64.zero f64.zero f64.zero f64.zero f64.zero
    f64.zero f64.zero f64.zero f64.zero 0.

(** [zk.common.v1.InstrumentRefData] *)
Record InstrumentRefData : Set := mkInstrumentRefData {
  rd_instrument_id : string;
  rd_instrument_id_exchange : string;
  rd_update_ts : Z;
  rd_exchange_name : string;
  rd_instrument_type : Z;
  rd_base_asset : string;
  rd_quote_asset : string;
  rd_settlement_asset : string;
  rd_contract_size : f64;
  rd_price_precision : Z;
  rd_qty_precision : Z;
  rd_price_tick_size : f64;
  rd_qty_lot_size : f64;
  rd_min_notional : f64;
  rd_max_notional : f64;
  rd_min_price : f64;
  rd_max_price : f64;
  rd_min_order_qty : f64;
  rd_max_order_qty : f64;
  rd_extra_properties : list (string * string);
  rd_original_info : string;
  rd_disabled : bool;
  rd_max_mkt_order_qty : f64;
  rd_expiry_date : string;
  rd_currency : string;
  rd_isin : string;
  rd_listing_exchange : string;
  rd_margin_requirement : f64;
  rd_asset_class : string;
}.
#[export] Instance eta_InstrumentRefData : Eta InstrumentRefData := λ r,
  mkInstrumentRefData (rd_instrument_id r) (rd_instrument_id_exchange r) (rd_update_ts r)
    (rd_exchange_name r) (rd_instrument_type r) (rd_base_asset r) (rd_quote_asset r)
    (rd_settlement_asset r) (rd_contract_size r) (rd_price_precision r) (rd_qty_precision
    r) (rd_price_tick_size r) (rd_qty_lot_size r) (rd_min_notional r) (rd_max_notional r)
    (rd_min_price r) (rd_max_price r) (rd_min_order_qty r) (rd_max_order_qty r)
    (rd_extra_properties r) (rd_original_info r) (rd_disabled r) (rd_max_mkt_order_qty r)
    (rd_expiry_date r) (rd_currency r) (rd_isin r) (rd_listing_exchange r)
    (rd_margin_requirement r) (rd_asset_class r).
Definition default_InstrumentRefData : InstrumentRefData :=
  mkInstrumentRefData "" "" 0 "" 0 "" "" "" f64.zero 0 0 f64.zero f64.zero f64.zero
    f64.zero f64.zero f64.zero f64.zero f64.zero [] "" false f64.zero "" "" "" "" f64.zero
    "".

(** [zk.ods.v1.OMSRouteEntry] *)
Record OmsRouteEntry : Set := mkOmsRouteEntry {
  rt_account_id : Z;
  rt_exch_account_id : string;
  rt_gw_key : string;
  rt_startup_sync : bool;
  rt_desc : string;
  rt_broker_type : Z;
}.
#[export] Instance eta_OmsRouteEntry : Eta OmsRouteEntry := λ r,
  mkOmsRouteEntry (rt_account_id r) (rt_exch_account_id r) (rt_gw_key r) (rt_startup_sync
    r) (rt_desc r) (rt_broker_type r).
Definition default_OmsRouteEntry : OmsRouteEntry :=
  mkOmsRouteEntry 0 "" "" false "" 0.

(** [zk.ods.v1.GWConfigEntry] *)
Record GwConfigEntry : Set := mkGwConfigEntry {
  gwc_exch_name : string;
  gwc_gw_key : string;
  gwc_rpc_endpoint : string;
  gwc_extra_rpc_endpoint : string;
  gwc_report_endpoint : string;
  gwc_balance_endpoint : string;
  gwc_gw_system_endpoint : string;
  gwc_support_order_replace : bool;
  gwc_support_order_query : bool;
  gwc_support_position_query : bool;
  gwc_support_batch_order : bool;
  gwc_support_batch_cancel : bool;
  gwc_support_trade_history_query : bool;
  gwc_support_fee_query : bool;
  gwc_calc_balance_needed : bool;
  gwc_cancel_required_fields : list string;
  gwc_broker_type : Z;
  gwc_account_type : Z;
}.
#[export] Instance eta_GwConfigEntry : Eta GwConfigEntry := λ r,
  mkGwConfigEntry (gwc_exch_name r) (gwc_gw_key r) (gwc_rpc_endpoint r)
    (gwc_extra_rpc_endpoint r) (gwc_report_endpoint r) (gwc_balance_endpoint r)
    (gwc_gw_system_endpoint r) (gwc_support_order_replace r) (gwc_support_order_query r)
    (gwc_support_position_query r) (gwc_support_batch_order r) (gwc_support_batch_cancel
    r) (gwc_support_trade_history_query r) (gwc_support_fee_query r)
    (gwc_calc_balance_needed r) (gwc_cancel_required_fields r) (gwc_broker_type r)
    (gwc_account_type r).
Definition default_GwConfigEntry : GwConfigEntry :=
  mkGwConfigEntry "" "" "" "" "" "" "" false false false false false false false false []
    0 0.

(** [zk.ods.v1.OMSConfigEntry] *)
Record OmsConfigEntry : Set := mkOmsConfigEntry {
  oc_oms_id : string;
  oc_managed_account_ids : list Z;
  oc_namespace : string;
  oc_desc : string;
}.
#[export] Instance eta_OmsConfigEntry : Eta OmsConfigEntry := λ r,
  mkOmsConfigEntry (oc_oms_id r) (oc_managed_account_ids r) (oc_namespace r) (oc_desc r).
Definition default_OmsConfigEntry : OmsConfigEntry :=
  mkOmsConfigEntry "" [] "" "".

(** [zk.oms.v1.OrderRequest] *)
Record OrderRequest : Set := mkOrderRequest {
  req_order_id : Z;
  req_account_id : Z;
  req_instrument_code : string;
  req_buy_sell_type : Z;
  req_open_close_type : Z;
  req_order_type : Z;
  req_price : f64;
  req_qty : f64;
  req_source_id : string;
  req_timestamp : Z;
  req_leverage : f64;
  req_extra_properties : option ExtraData;
  req_time_inforce_type : Z;
  req_extra_order_tags : list Z;
  req_trigger_context : option TriggerContext;
}.
#[export] Instance eta_OrderRequest : Eta OrderRequest := λ r,
  mkOrderRequest (req_order_id r) (req_account_id r) (req_instrument_code r)
    (req_buy_sell_type r) (req_open_close_type r) (req_order_type r) (req_price r)
    (req_qty r) (req_source_id r) (req_timestamp r) (req_leverage r) (req_extra_properties
    r) (req_time_inforce_type r) (req_extra_order_tags r) (req_trigger_context r).
Definition default_OrderRequest : OrderRequest :=
  mkOrderRequest 0 0 "" 0 0 0 f64.zero f64.zero "" 0 f64.zero None 0 [] None.

(** [zk.oms.v1.OrderCancelRequest] *)
Record OrderCancelRequest : Set := mkOrderCancelRequest {
  creq_order_id : Z;
  creq_exch_order_ref : string;
  creq_extra_info_required : option ExtraData;
  creq_source_id : string;
  creq_timestamp : Z;
  creq_trigger_context : option TriggerContext;
}.
#[export] Instance eta_OrderCancelRequest : Eta OrderCancelRequest := λ r,
  mkOrderCancelRequest (creq_order_id r) (creq_exch_order_ref r) (creq_extra_info_required
    r) (creq_source_id r) (creq_timestamp r) (creq_trigger_context r).
Definition default_OrderCancelRequest : OrderCancelRequest :=
  mkOrderCancelRequest 0 "" None "" 0 None.

(** [zk.oms.v1.Order] *)
Record Order : Set := mkOrder {
  ord_order_id : Z;
  ord_exch_order_ref : string;
  ord_snapshot_version : Z;
  ord_instrument : string;
  ord_buy_sell_type : Z;
  ord_open_close_type : Z;
  ord_price : f64;
  ord_qty : f64;
  ord_filled_qty : f64;
  ord_filled_avg_price : f64;
  ord_error_msg : message;
  ord_source_id : string;
  ord_created_at : Z;
  ord_updated_at : Z;
  ord_order_status : Z;
  ord_gw_key : string;
  ord_instrument_exch : string;
  ord_account_id : Z;
}.
#[export] Instance eta_Order : Eta Order := λ r,
  mkOrder (ord_order_id r) (ord_exch_order_ref r) (ord_snapshot_version r) (ord_instrument
    r) (ord_buy_sell_type r) (ord_open_close_type r) (ord_price r) (ord_qty r)
    (ord_filled_qty r) (ord_filled_avg_price r) (ord_error_msg r) (ord_source_id r)
    (ord_created_at r) (ord_updated_at r) (ord_order_status r) (ord_gw_key r)
    (ord_instrument_exch r) (ord_account_id r).
Definition default_Order : Order :=
  mkOrder 0 "" 0 "" 0 0 f64.zero f64.zero f64.zero f64.zero [] "" 0 0 0 "" "" 0.

(** [zk.oms.v1.Fee] *)
Record Fee : Set := mkFee {
  fee_order_id : Z;
  fee_fee_symbol : string;
  fee_fee_amount : f64;
  fee_fee_type : Z;
  fee_fee_ts : Z;
}.
#[export] Instance eta_Fee : Eta Fee := λ r,
  mkFee (fee_order_id r) (fee_fee_symbol r) (fee_fee_amount r) (fee_fee_type r)
    (fee_fee_ts r).
Definition default_Fee : Fee :=
  mkFee 0 "" f64.zero 0 0.

(** [zk.oms.v1.Trade] *)
Record Trade : Set := mkTrade {
  tr_order_id : Z;
  tr_ext_order_ref : string;
  tr_ext_trade_id : string;
  tr_filled_qty : f64;
  tr_filled_price : f64;
  tr_filled_ts : Z;
  tr_buy_sell_type : Z;
  tr_instrument : string;
  tr_account_id : Z;
  tr_fill_type : Z;
  tr_fees : list Fee;
  tr_exch_pnl : f64;
}.
#[export] Instance eta_Trade : Eta Trade := λ r,
  mkTrade (tr_order_id r) (tr_ext_order_ref r) (tr_ext_trade_id r) (tr_filled_qty r)
    (tr_filled_price r) (tr_filled_ts r) (tr_buy_sell_type r) (tr_instrument r)
    (tr_account_id r) (tr_fill_type r) (tr_fees r) (tr_exch_pnl r).
Definition default_Trade : Trade :=
  mkTrade 0 "" "" f64.zero f64.zero 0 0 "" 0 0 [] f64.zero.

(** [zk.oms.v1.ExecMessage] *)
Record ExecMessage : Set := mkExecMessage {
  em_order_id : Z;
  em_exch_order_ref : string;
  em_timestamp : Z;
  em_exec_type : Z;
  em_exec_success : bool;
  em_error_msg : message;
  em_rejection_info : option Rejection;
}.
#[export] Instance eta_ExecMessage : Eta ExecMessage := λ r,
  mkExecMessage (em_order_id r) (em_exch_order_ref r) (em_timestamp r) (em_exec_type r)
    (em_exec_success r) (em_error_msg r) (em_rejection_info r).
Definition default_ExecMessage : ExecMessage :=
  mkExecMessage 0 "" 0 0 false [] None.

(** [zk.oms.v1.Position] *)
Record Position : Set := mkPosition {
  pos_account_id : Z;
  pos_instrument_code : string;
  pos_long_short_type : Z;
  pos_instrument_type : Z;
  pos_total_qty : f64;
  pos_frozen_qty : f64;
  pos_avail_qty : f64;
  pos_sync_timestamp : Z;
  pos_update_timestamp : Z;
  pos_is_from_exch : bool;
  pos_exch_data_raw : string;
  pos_contract_size : f64;
  pos_margin_pos_info : option MarginPositionInfo;
  pos_contract_size_adjusted : bool;
}.
#[export] Instance eta_Position : Eta Position := λ r,
  mkPosition (pos_account_id r) (pos_instrument_code r) (pos_long_short_type r)
    (pos_instrument_type r) (pos_total_qty r) (pos_frozen_qty r) (pos_avail_qty r)
    (pos_sync_timestamp r) (pos_update_timestamp r) (pos_is_from_exch r)
    (pos_exch_data_raw r) (pos_contract_size r) (pos_margin_pos_info r)
    (pos_contract_size_adjusted r).
Definition default_Position : Position :=
  mkPosition 0 "" 0 0 f64.zero f64.zero f64.zero 0 0 false "" f64.zero None false.

(** [zk.oms.v1.Balance] *)
Record Balance : Set := mkBalance {
  bal_account_id : Z;
  bal_asset : string;
  bal_total_qty : f64;
  bal_frozen_qty : f64;
  bal_avail_qty : f64;
  bal_sync_timestamp : Z;
  bal_update_timestamp : Z;
  bal_is_from_exch : bool;
  bal_exch_data_raw : string;
}.
#[export] Instance eta_Balance : Eta Balance := λ r,
  mkBalance (bal_account_id r) (bal_asset r) (bal_total_qty r) (bal_frozen_qty r)
    (bal_avail_qty r) (bal_sync_timestamp r) (bal_update_timestamp r) (bal_is_from_exch r)
    (bal_exch_data_raw r).
Definition default_Balance : Balance :=
  mkBalance 0 "" f64.zero f64.zero f64.zero 0 0 false "".

(** [zk.oms.v1.BalanceUpdateEvent] *)
Record BalanceUpdateEvent : Set := mkBalanceUpdateEvent {
  bue_account_id : Z;
  bue_balance_snapshots : list Balance;
  bue_timestamp : Z;
}.
#[export] Instance eta_BalanceUpdateEvent : Eta BalanceUpdateEvent := λ r,
  mkBalanceUpdateEvent (bue_account_id r) (bue_balance_snapshots r) (bue_timestamp r).
Definition default_BalanceUpdateEvent : BalanceUpdateEvent :=
  mkBalanceUpdateEvent 0 [] 0.

(** [zk.oms.v1.OrderUpdateEvent] *)
Record OrderUpdateEvent : Set := mkOrderUpdateEvent {
  oue_order_id : Z;
  oue_account_id : Z;
  oue_order_snapshot : option Order;
  oue_last_trade : option Trade;
  oue_last_fee : option Fee;
  oue_exec_message : option ExecMessage;
  oue_timestamp : Z;
  oue_order_source_id : string;
  oue_order_inferred_trade : option Trade;
  oue_gw_report_timestamp_ns : Z;
  oue_gw_received_at_ns : Z;
}.
#[export] Instance eta_OrderUpdateEvent : Eta OrderUpdateEvent := λ r,
  mkOrderUpdateEvent (oue_order_id r) (oue_account_id r) (oue_order_snapshot r)
    (oue_last_trade r) (oue_last_fee r) (oue_exec_message r) (oue_timestamp r)
    (oue_order_source_id r) (oue_order_inferred_trade r) (oue_gw_report_timestamp_ns r)
    (oue_gw_received_at_ns r).
Definition default_OrderUpdateEvent : OrderUpdateEvent :=
  mkOrderUpdateEvent 0 0 None None None None 0 "" None 0 0.

(** [zk.oms.v1.PositionUpdateEvent] *)
Record PositionUpdateEvent : Set := mkPositionUpdateEvent {
  pue_account_id : Z;
  pue_position_snapshots : list Position;
  pue_timestamp : Z;
}.
#[export] Instance eta_PositionUpdateEvent : Eta PositionUpdateEvent := λ r,
  mkPositionUpdateEvent (pue_account_id r) (pue_position_snapshots r) (pue_timestamp r).
Definition default_PositionUpdateEvent : PositionUpdateEvent :=
  mkPositionUpdateEvent 0 [] 0.

(** [zk.exch_gw.v1.OrderInfo] *)
Record OrderInfo : Set := mkOrderInfo {
  oi_exch_order_ref : string;
  oi_client_order_id : string;
  oi_instrument : string;
  oi_exch_account_id : string;
  oi_buy_sell_type : Z;
  oi_place_qty : f64;
  oi_place_price : f64;
}.
#[export] Instance eta_OrderInfo : Eta OrderInfo := λ r,
  mkOrderInfo (oi_exch_order_ref r) (oi_client_order_id r) (oi_instrument r)
    (oi_exch_account_id r) (oi_buy_sell_type r) (oi_place_qty r) (oi_place_price r).
Definition default_OrderInfo : OrderInfo :=
  mkOrderInfo "" "" "" "" 0 f64.zero f64.zero.

(** [zk.exch_gw.v1.ExchErrorInfo] *)
Record ExchErrorInfo : Set := mkExchErrorInfo {
  eei_error_code : Z;
  eei_error_message : string;
}.
#[export] Instance eta_ExchErrorInfo : Eta ExchErrorInfo := λ r,
  mkExchErrorInfo (eei_error_code r) (eei_error_message r).
Definition default_ExchErrorInfo : ExchErrorInfo :=
  mkExchErrorInfo 0 "".

(** [zk.exch_gw.v1.OrderIdLinkageReport] *)
Record OrderIdLinkageReport : Set := mkOrderIdLinkageReport {
  lnk_exch_order_ref : string;
  lnk_order_id : Z;
}.
#[export] Instance eta_OrderIdLinkageReport : Eta OrderIdLinkageReport := λ r,
  mkOrderIdLinkageReport (lnk_exch_order_ref r) (lnk_order_id r).
Definition default_OrderIdLinkageReport : OrderIdLinkageReport :=
  mkOrderIdLinkageReport "" 0.

(** [zk.exch_gw.v1.OrderStateReport] *)
Record OrderStateReport : Set := mkOrderStateReport {
  osr_exch_order_status : Z;
  osr_filled_qty : f64;
  osr_unfilled_qty : f64;
  osr_avg_price : f64;
  osr_order_info : option OrderInfo;
}.
#[export] Instance eta_OrderStateReport : Eta OrderStateReport := λ r,
  mkOrderStateReport (osr_exch_order_status r) (osr_filled_qty r) (osr_unfilled_qty r)
    (osr_avg_price r) (osr_order_info r).
Definition default_OrderStateReport : OrderStateReport :=
  mkOrderStateReport 0 f64.zero f64.zero f64.zero None.

(** [zk.exch_gw.v1.TradeReport] *)
Record TradeReport : Set := mkTradeReport {
  trr_exch_trade_id : string;
  trr_filled_qty : f64;
  trr_filled_price : f64;
  trr_fill_type : Z;
  trr_filled_ts : Z;
  trr_exch_pnl : f64;
  trr_order_info : option OrderInfo;
}.
#[export] Instance eta_TradeReport : Eta TradeReport := λ r,
  mkTradeReport (trr_exch_trade_id r) (trr_filled_qty r) (trr_filled_price r)
    (trr_fill_type r) (trr_filled_ts r) (trr_exch_pnl r) (trr_order_info r).
Definition default_TradeReport : TradeReport :=
  mkTradeReport "" f64.zero f64.zero 0 0 f64.zero None.

(** [zk.exch_gw.v1.FeeReport] *)
Record FeeReport : Set := mkFeeReport {
  fr_fee_unit_type : Z;
  fr_fee_qty : f64;
  fr_fee_symbol : string;
  fr_fee_type : Z;
  fr_fee_ts : Z;
  fr_inst_symbol : string;
}.
#[export] Instance eta_FeeReport : Eta FeeReport := λ r,
  mkFeeReport (fr_fee_unit_type r) (fr_fee_qty r) (fr_fee_symbol r) (fr_fee_type r)
    (fr_fee_ts r) (fr_inst_symbol r).
Definition default_FeeReport : FeeReport :=
  mkFeeReport 0 f64.zero "" 0 0 "".

(** [zk.exch_gw.v1.ExecReport] *)
Record ExecReport : Set := mkExecReport {
  exr_exec_id : string;
  exr_exec_type : Z;
  exr_exec_message : string;
  exr_error_info : option ExchErrorInfo;
  exr_rejection_info : option Rejection;
}.
#[export] Instance eta_ExecReport : Eta ExecReport := λ r,
  mkExecReport (exr_exec_id r) (exr_exec_type r) (exr_exec_message r) (exr_error_info r)
    (exr_rejection_info r).
Definition default_ExecReport : ExecReport :=
  mkExecReport "" 0 "" None None.

(** The [oneof report] of [zk.exch_gw.v1.OrderReportEntry]. *)
Inductive Report : Set :=
| RTradeReport (t : TradeReport)
| ROrderStateReport (s : OrderStateReport)
| ROrderIdLinkageReport (l : OrderIdLinkageReport)
| RFeeReport (f : FeeReport)
| RExecReport (e : ExecReport).

(** [zk.exch_gw.v1.OrderReportEntry] *)
Record OrderReportEntry : Set := mkOrderReportEntry {
  ent_report_type : Z;
  ent_report : option Report;
}.
#[export] Instance eta_OrderReportEntry : Eta OrderReportEntry := λ r,
  mkOrderReportEntry (ent_report_type r) (ent_report r).
Definition default_OrderReportEntry : OrderReportEntry :=
  mkOrderReportEntry 0 None.

(** [zk.exch_gw.v1.OrderReport] *)
Record OrderReport : Set := mkOrderReport {
  rep_exch_order_ref : string;
  rep_order_id : Z;
  rep_exchange : string;
  rep_order_report_entries : list OrderReportEntry;
  rep_account_id : Z;
  rep_update_timestamp : Z;
  rep_extra_order_id : string;
  rep_order_source_type : Z;
  rep_gw_received_at_ns : Z;
}.
#[export] Instance eta_OrderReport : Eta OrderReport := λ r,
  mkOrderReport (rep_exch_order_ref r) (rep_order_id r) (rep_exchange r)
    (rep_order_report_entries r) (rep_account_id r) (rep_update_timestamp r)
    (rep_extra_order_id r) (rep_order_source_type r) (rep_gw_received_at_ns r).
Definition default_OrderReport : OrderReport :=
  mkOrderReport "" 0 "" [] 0 0 "" 0 0.

(** [zk.exch_gw.v1.PositionReport] *)
Record PositionReport : Set := mkPositionReport {
  pr_instrument_code : string;
  pr_instrument_type : Z;
  pr_long_short_type : Z;
  pr_exch_account_code : string;
  pr_qty : f64;
  pr_avail_qty : f64;
  pr_value : f64;
  pr_update_timestamp : Z;
  pr_message_raw : string;
  pr_account_id : Z;
  pr_margin_pos_info : option MarginPositionInfo;
}.
#[export] Instance eta_PositionReport : Eta PositionReport := λ r,
  mkPositionReport (pr_instrument_code r) (pr_instrument_type r) (pr_long_short_type r)
    (pr_exch_account_code r) (pr_qty r) (pr_avail_qty r) (pr_value r) (pr_update_timestamp
    r) (pr_message_raw r) (pr_account_id r) (pr_margin_pos_info r).
Definition default_PositionReport : PositionReport :=
  mkPositionReport "" 0 0 "" f64.zero f64.zero f64.zero 0 "" 0 None.

(** [zk.exch_gw.v1.BalanceUpdate] *)
Record BalanceUpdate : Set := mkBalanceUpdate {
  bu_balances : list PositionReport;
}.
#[export] Instance eta_BalanceUpdate : Eta BalanceUpdate := λ r,
  mkBalanceUpdate (bu_balances r).
Definition default_BalanceUpdate : BalanceUpdate :=
  mkBalanceUpdate [].

(** [zk.gateway.v1.SendOrderRequest] *)
Record SendOrderRequest : Set := mkSendOrderRequest {
  gwreq_correlation_id : Z;
  gwreq_exch_account_id : string;
  gwreq_instrument : string;
  gwreq_buysell_type : Z;
  gwreq_openclose_type : Z;
  gwreq_order_type : Z;
  gwreq_scaled_price : f64;
  gwreq_scaled_qty : f64;
  gwreq_leverage : f64;
  gwreq_timestamp : Z;
  gwreq_exch_specific_params : option ExtraData;
  gwreq_time_inforce_type : Z;
  gwreq_extra_order_tags : list Z;
}.
#[export] Instance eta_SendOrderRequest : Eta SendOrderRequest := λ r,
  mkSendOrderRequest (gwreq_correlation_id r) (gwreq_exch_account_id r) (gwreq_instrument
    r) (gwreq_buysell_type r) (gwreq_openclose_type r) (gwreq_order_type r)
    (gwreq_scaled_price r) (gwreq_scaled_qty r) (gwreq_leverage r) (gwreq_timestamp r)
    (gwreq_exch_specific_params r) (gwreq_time_inforce_type r) (gwreq_extra_order_tags r).
Definition default_SendOrderRequest : SendOrderRequest :=
  mkSendOrderRequest 0 "" "" 0 0 0 f64.zero f64.zero f64.zero 0 None 0 [].

(** [zk.gateway.v1.CancelOrderRequest] *)
Record CancelOrderRequest : Set := mkCancelOrderRequest {
  gwcan_exch_order_ref : string;
  gwcan_order_id : Z;
  gwcan_exch_specific_params : option ExtraData;
  gwcan_timestamp : Z;
}.
#[export] Instance eta_CancelOrderRequest : Eta CancelOrderRequest := λ r,
  mkCancelOrderRequest (gwcan_exch_order_ref r) (gwcan_order_id r)
    (gwcan_exch_specific_params r) (gwcan_timestamp r).
Definition default_CancelOrderRequest : CancelOrderRequest :=
  mkCancelOrderRequest "" 0 None 0.

