(* ===== verification/Intern.v ===== *)
(** * String interning ([intern_v2.rs], [models_v2.rs])

    The OMS core works on integer ids.  [InternTable] interns configuration
    strings, [DynStringTable] the exchange order references.  Both are an
    append-only vector with a reverse index; ids are [u32], so the
    [len() as u32] cast wraps past [2^32] entries.

    [StringTable] is the interface the two share: the client theorems of this
    file are proved once against it, and each table discharges it. *)

From S2P Require Import Prelude.

(** ** [intern_v2.rs] *)

Record InternTable : Type := mkInternTable {
  ids_by_str : gmap string Z;
  strs_by_id : list string;
}.
#[export] Instance eta_InternTable : Eta InternTable := λ r,
  mkInternTable (ids_by_str r) (strs_by_id r).

Module InternTable.
Definition new : InternTable := mkInternTable ∅ [].

Definition intern (s : string) (t : InternTable) : Z * InternTable :=
  match ids_by_str t !! s with
  | Some id => (id, t)
  | None =>
      let id := wrap_u32 (Z.of_nat (length (strs_by_id t))) in
      let t := t <| strs_by_id ::= λ v, v ++ [s] |> in
      (id, t <| ids_by_str ::= <[s := id]> |>)
  end.

Definition try_resolve (t : InternTable) (id : Z) : option string :=
  strs_by_id t !! Z.to_nat id.
Definition resolve (t : InternTable) (id : Z) : outcome string :=
  unwrap "strs_by_id[id]" (try_resolve t id).
Definition lookup (t : InternTable) (s : string) : option Z := ids_by_str t !! s.
Definition len (t : InternTable) : Z := Z.of_nat (length (strs_by_id t)).
End InternTable.

(** ** [models_v2.rs]: [DynStrId] and [DynStringTable] *)

Definition DynStrId : Set := Z.

Record DynStringTable : Type := mkDynStringTable {
  dyn_ids_by_str : gmap string Z;
  dyn_strs_by_id : list string;
}.
#[export] Instance eta_DynStringTable : Eta DynStringTable := λ r,
  mkDynStringTable (dyn_ids_by_str r) (dyn_strs_by_id r).

Module DynStringTable.
Definition new : DynStringTable := mkDynStringTable ∅ [].

Definition intern (s : string) (t : DynStringTable) : Z * DynStringTable :=
  match dyn_ids_by_str t !! s with
  | Some id => (id, t)
  | None =>
      let id := wrap_u32 (Z.of_nat (length (dyn_strs_by_id t))) in
      let t := t <| dyn_strs_by_id ::= λ v, v ++ [s] |> in
      (id, t <| dyn_ids_by_str ::= <[s := id]> |>)
  end.

Definition try_resolve (t : DynStringTable) (id : Z) : option string :=
  dyn_strs_by_id t !! Z.to_nat id.
Definition resolve (t : DynStringTable) (id : Z) : outcome string :=
  unwrap "strs_by_id[id]" (try_resolve t id).
Definition lookup (t : DynStringTable) (s : string) : option Z := dyn_ids_by_str t !! s.
End DynStringTable.

(** ** The interface *)

Class StringTable (T : Type) := {
  st_ids : T → gmap string Z;
  st_strs : T → list string;
  st_intern : string → T → Z * T;
}.

Class StringTableOk (T : Type) `{StringTable T} : Prop := {
  st_intern_hit s t id : st_ids t !! s = Some id → st_intern s t = (id, t);
  st_intern_miss s t :
    st_ids t !! s = None →
    let id := wrap_u32 (Z.of_nat (length (st_strs t))) in
    (st_intern s t).1 = id ∧
    st_ids (st_intern s t).2 = <[s := id]> (st_ids t) ∧
    st_strs (st_intern s t).2 = st_strs t ++ [s];
}.

#[export] Instance InternTable_table : StringTable InternTable := {|
  st_ids := ids_by_str; st_strs := strs_by_id; st_intern := InternTable.intern;
|}.
#[export] Instance InternTable_table_ok : StringTableOk InternTable.
Proof. split; intros * E; simpl in *; unfold InternTable.intern; by rewrite E. Qed.

#[export] Instance DynStringTable_table : StringTable DynStringTable := {|
  st_ids := dyn_ids_by_str; st_strs := dyn_strs_by_id; st_intern := DynStringTable.intern;
|}.
#[export] Instance DynStringTable_table_ok : StringTableOk DynStringTable.
Proof. split; intros * E; simpl in *; unfold DynStringTable.intern; by rewrite E. Qed.

Section table.
Context `{StringTableOk T}.
Implicit Types (t : T) (s : string) (id : Z).

Definition st_resolve t id : option string := st_strs t !! Z.to_nat id.

(** Every id of the index is a position of the vector.  This holds however
    many strings are interned, and makes every [resolve] panic-free. *)
Definition table_safe t : Prop :=
  ∀ s id, st_ids t !! s = Some id → 0 ≤ id < Z.of_nat (length (st_strs t)).

(** Below the [u32] limit the index is exactly the inverse of the vector. *)
Definition table_wf t : Prop :=
  Z.of_nat (length (st_strs t)) ≤ 2 ^ 32 ∧
  ∀ s id, st_ids t !! s = Some id ↔ 0 ≤ id ∧ st_resolve t id = Some s.

(** [t'] extends [t]: ids already given keep their string. *)
Definition table_ext t t' : Prop :=
  ∀ id s, st_resolve t id = Some s → st_resolve t' id = Some s.

#[export] Instance table_ext_preorder : PreOrder table_ext.
Proof. split; unfold table_ext; red; eauto. Qed.

Lemma intern_ext s t : table_ext t (st_intern s t).2.
Proof.
  intros id s' Hr. destruct (st_ids t !! s) as [i|] eqn:E.
  - by rewrite (st_intern_hit s t i E).
  - destruct (st_intern_miss s t E) as (_ & _ & Hs).
    unfold st_resolve in *. rewrite Hs. by apply lookup_app_l_Some.
Qed.

Lemma intern_safe s t : table_safe t → table_safe (st_intern s t).2.
Proof.
  intros Hs. destruct (st_ids t !! s) as [i|] eqn:E.
  - by rewrite (st_intern_hit s t i E).
  - destruct (st_intern_miss s t E) as (_ & Hids & Hstrs). intros s' id.
    rewrite Hids, Hstrs, length_app, lookup_insert. simpl. case_decide.
    + intros [= <-]. pose proof (wrap_u32_range (Z.of_nat (length (st_strs t)))).
      pose proof (wrap_u32_le (Z.of_nat (length (st_strs t)))). lia.
    + intros ?%Hs. lia.
Qed.

(** The id [intern] returns resolves in the resulting table. *)
Lemma intern_resolves s t :
  table_safe t → is_Some (st_resolve (st_intern s t).2 (st_intern s t).1).
Proof.
  intros Hs. unfold st_resolve. apply lookup_lt_is_Some. pose proof (intern_safe s t Hs) as Hs'.
  destruct (st_ids t !! s) as [i|] eqn:E.
  - rewrite (st_intern_hit s t i E). simpl. apply Hs in E. lia.
  - destruct (st_intern_miss s t E) as (Hid & Hids & _).
    assert (st_ids (st_intern s t).2 !! s = Some (st_intern s t).1) as Hl.
    { rewrite Hids, Hid. apply lookup_insert_eq. }
    apply Hs' in Hl. lia.
Qed.

Lemma table_wf_safe t : table_wf t → table_safe t.
Proof.
  intros [_ Hw] s id [? Hr]%Hw. apply lookup_lt_Some in Hr. lia.
Qed.

Lemma table_wf_empty t : st_ids t = ∅ → st_strs t = [] → table_wf t.
Proof.
  intros Hi Hs. split; [rewrite Hs; simpl; lia|]. intros s id.
  unfold st_resolve. rewrite Hi, Hs, lookup_empty, lookup_nil. naive_solver.
Qed.

Lemma intern_wf s t :
  table_wf t → Z.of_nat (length (st_strs t)) < 2 ^ 32 → table_wf (st_intern s t).2.
Proof.
  intros [Hlen Hw] Hlt. destruct (st_ids t !! s) as [i|] eqn:E.
  - by rewrite (st_intern_hit s t i E).
  - destruct (st_intern_miss s t E) as (_ & Hids & Hstrs).
    split; [rewrite Hstrs, length_app; simpl; lia|]. intros s' id.
    unfold st_resolve in *. rewrite Hids, Hstrs, wrap_u32_small by lia.
    rewrite lookup_insert_Some, lookup_app_Some. split.
    + intros [[<- <-]|[Hne ?%Hw]]; [|naive_solver]. split; [lia|]. right.
      rewrite Nat2Z.id, Nat.sub_diag. done.
    + intros [Hid [Hr|[Hge Hr]]].
      * right. split; [|by apply Hw]. intros ->.
        assert (st_ids t !! s' = Some id) by (by apply Hw). congruence.
      * left. apply list_lookup_singleton_Some in Hr as [? ->]. split; [done|lia].
Qed.

Lemma intern_lookup s t :
  table_wf t → Z.of_nat (length (st_strs t)) < 2 ^ 32 →
  st_resolve (st_intern s t).2 (st_intern s t).1 = Some s ∧
  st_ids (st_intern s t).2 !! s = Some (st_intern s t).1.
Proof.
  intros Hw Hlt. pose proof (intern_wf s t Hw Hlt) as [_ Hw'].
  assert (st_ids (st_intern s t).2 !! s = Some (st_intern s t).1) as Hl.
  { destruct (st_ids t !! s) as [i|] eqn:E.
    - by rewrite (st_intern_hit s t i E).
    - destruct (st_intern_miss s t E) as (Hid & -> & _). rewrite Hid.
      apply lookup_insert_eq. }
  split; [|done]. by apply Hw' in Hl as [_ ?].
Qed.

Lemma intern_lookup_ne s s' t :
  s ≠ s' → st_ids (st_intern s t).2 !! s' = st_ids t !! s'.
Proof.
  intros. destruct (st_ids t !! s) as [i|] eqn:E.
  - by rewrite (st_intern_hit s t i E).
  - destruct (st_intern_miss s t E) as (_ & -> & _). by rewrite lookup_insert_ne.
Qed.

(** What holds of every table built by interning, whatever its size. *)
Definition table_sound t : Prop :=
  table_safe t ∧ (Z.of_nat (length (st_strs t)) ≤ 2 ^ 32 → table_wf t).

Lemma intern_sound s t : table_sound t → table_sound (st_intern s t).2.
Proof.
  intros [Hs Hw]. split; [by apply intern_safe|]. destruct (st_ids t !! s) as [i|] eqn:E.
  - by rewrite (st_intern_hit s t i E).
  - destruct (st_intern_miss s t E) as (_ & _ & Hstrs). rewrite Hstrs, length_app. simpl.
    intros Hlen. apply intern_wf; [apply Hw; lia|lia].
Qed.

Lemma intern_names s t :
  table_sound t → Z.of_nat (length (st_strs (st_intern s t).2)) ≤ 2 ^ 32 →
  st_ids (st_intern s t).2 !! s = Some (st_intern s t).1.
Proof.
  intros [_ Hw]. destruct (st_ids t !! s) as [i|] eqn:E.
  - by rewrite (st_intern_hit s t i E).
  - destruct (st_intern_miss s t E) as (_ & _ & Hstrs). rewrite Hstrs, length_app. simpl.
    intros Hlen. apply intern_lookup; [apply Hw; lia|lia].
Qed.

(** A whole sequence of [intern] calls, as the configuration loader and the
    report handler issue them. *)
Fixpoint intern_all (l : list string) t : list Z * T :=
  match l with
  | [] => ([], t)
  | s :: l =>
      let '(id, t) := st_intern s t in
      let '(ids, t) := intern_all l t in (id :: ids, t)
  end.

Lemma intern_ids_stable s t s' id :
  st_ids t !! s' = Some id → st_ids (st_intern s t).2 !! s' = Some id.
Proof.
  intros Hs'. destruct (decide (s = s')) as [->|Hne].
  - by rewrite (st_intern_hit s' t id Hs').
  - by rewrite intern_lookup_ne.
Qed.

Lemma intern_length s t :
  (length (st_strs (st_intern s t).2) ≤ S (length (st_strs t)))%nat.
Proof.
  destruct (st_ids t !! s) as [i|] eqn:E.
  - rewrite (st_intern_hit s t i E). simpl. lia.
  - destruct (st_intern_miss s t E) as (_ & _ & ->). rewrite length_app. simpl. lia.
Qed.

Lemma intern_all_stable l t s id :
  st_ids t !! s = Some id → st_ids (intern_all l t).2 !! s = Some id.
Proof.
  revert t. induction l as [|s' l IH]; intros t Hs; simpl; [done|].
  destruct (st_intern s' t) as [i t1] eqn:E1.
  specialize (IH t1). destruct (intern_all l t1) as [ids t2]. apply IH.
  change t1 with ((i, t1).2). rewrite <- E1. by apply intern_ids_stable.
Qed.

Lemma intern_all_spec l t :
  table_wf t → Z.of_nat (length (st_strs t) + length l) ≤ 2 ^ 32 →
  table_wf (intern_all l t).2 ∧
  Forall2 (λ s id, st_ids (intern_all l t).2 !! s = Some id) l (intern_all l t).1.
Proof.
  revert t. induction l as [|s l IH]; intros t Hwf Hlen; simpl; [by auto|]. simpl in Hlen.
  pose proof (intern_wf s t Hwf ltac:(lia)) as Hwf1.
  pose proof (intern_lookup s t Hwf ltac:(lia)) as [_ Hl].
  pose proof (intern_length s t) as Hlen1.
  destruct (st_intern s t) as [id t1]. simpl in *.
  pose proof (intern_all_stable l t1 s id Hl) as Hst.
  destruct (IH t1 Hwf1 ltac:(lia)) as [Hwf2 Hall].
  destruct (intern_all l t1) as [ids t2]. simpl in *. auto.
Qed.
End table.

Arguments table_safe {T _} t.
Arguments table_wf {T _} t.
Arguments table_sound {T _} t.
Arguments table_ext {T _} t t'.

#[export] Hint Resolve intern_safe intern_ext table_wf_safe : zk.

(** Interning is a round trip.  After interning any sequence of at most
    [2^32] strings in a fresh table, each returned id resolves to the string it
    was returned for (so the panicking [resolve] never panics on it), the
    reverse index gives that id back, and two positions carry the same id
    exactly when they carry the same string: later interning never moves an
    id. *)
Theorem intern_roundtrip (l : list string) :
  Z.of_nat (length l) ≤ 2 ^ 32 →
  let '(ids, t) := intern_all l InternTable.new in
  length ids = length l ∧
  ∀ i s id, l !! i = Some s → ids !! i = Some id →
    InternTable.resolve t id = Returns s ∧ InternTable.lookup t s = Some id ∧
    ∀ j s' id', l !! j = Some s' → ids !! j = Some id' → (s = s' ↔ id = id').
Proof.
  intros Hl. assert (table_wf InternTable.new) as Hnew by (by apply table_wf_empty).
  destruct (intern_all_spec l InternTable.new Hnew Hl) as [[_ Hwf] Hall].
  destruct (intern_all l InternTable.new) as [ids t]; simpl in *.
  pose proof (Forall2_length _ _ _ Hall) as Hlen.
  split; [done|]. intros i s id Hs Hid.
  pose proof (Forall2_lookup_lr _ _ _ _ _ _ Hall Hs Hid) as Hidx. simpl in Hidx.
  pose proof (proj1 (Hwf s id) Hidx) as [_ Hr]. split_and!; [|done|].
  - unfold InternTable.resolve, InternTable.try_resolve. unfold st_resolve in Hr. simpl in Hr. by rewrite Hr.
  - intros j s' id' Hs' Hid'.
    pose proof (Forall2_lookup_lr _ _ _ _ _ _ Hall Hs' Hid') as Hidx'. simpl in Hidx'.
    split; [congruence|]. intros <-. apply Hwf in Hidx' as [_ Hr']. congruence.
Qed.

Lemma intern_roundtrip_witness :
  let '(ids, t) := intern_all ["BTC"; "USDT"; "BTC"]%string InternTable.new in
  ids = [0; 1; 0] ∧ length ids = 3%nat.
Proof.
  destruct (intern_all ["BTC"; "USDT"; "BTC"]%string InternTable.new) as [ids t] eqn:E.
  pose proof (intern_roundtrip ["BTC"; "USDT"; "BTC"]%string ltac:(simpl; lia)) as H.
  rewrite E in H. split; [by vm_compute in E; congruence|apply H].
Defined.
