(* ===== verification/Models.v ===== *)
(** * Domain types of the OMS ([models.rs], [models_v2.rs])

    The records keep the source's fields behind a prefix per type; [String]
    fields that hold formatted error texts are [message]s.  [i64], [i32] and
    [u32] fields are [Z]; the operations wrap where the source's arithmetic
    does. *)

From S2P Require Import Prelude F64 Proto Intern.

(** ** [models.rs] *)

(** [ReconcileStatus] *)
Inductive ReconcileStatus : Set :=
| Unknown
| InSync
| DivergedTransient
| DivergedPersistent
| ExchangeOnly
| OmsOnly.
#[export] Instance ReconcileStatus_eq_dec : EqDecision ReconcileStatus.
Proof. solve_decision. Defined.

(** [OmsOrder]: the v1 order record, still the persistence format. *)
Record OmsOrder : Set := mkOmsOrder {
  oo_is_from_external : bool;
  oo_order_id : Z;
  oo_account_id : Z;
  oo_exch_order_ref : option string;
  oo_oms_req : option OrderRequest;
  oo_gw_req : option SendOrderRequest;
  oo_cancel_req : option CancelOrderRequest;
  oo_order_state : Order;
  oo_trades : list Trade;
  oo_acc_trades_filled_qty : f64;
  oo_acc_trades_value : f64;
  oo_order_inferred_trades : list Trade;
  oo_exec_msgs : list ExecMessage;
  oo_fees : list Fee;
  oo_cancel_attempts : Z;
}.
#[export] Instance eta_OmsOrder : Eta OmsOrder := λ r,
  mkOmsOrder (oo_is_from_external r) (oo_order_id r) (oo_account_id r) (oo_exch_order_ref
    r) (oo_oms_req r) (oo_gw_req r) (oo_cancel_req r) (oo_order_state r) (oo_trades r)
    (oo_acc_trades_filled_qty r) (oo_acc_trades_value r) (oo_order_inferred_trades r)
    (oo_exec_msgs r) (oo_fees r) (oo_cancel_attempts r).

(** [OmsManagedPosition] *)
Record OmsManagedPosition : Set := mkOmsManagedPosition {
  omp_account_id : Z;
  omp_instrument_code : string;
  omp_symbol_exch : option string;
  omp_instrument_type : Z;
  omp_is_short : bool;
  omp_qty_total : f64;
  omp_qty_frozen : f64;
  omp_qty_available : f64;
  omp_last_local_update_ts : Z;
  omp_last_exch_sync_ts : Z;
  omp_reconcile_status : ReconcileStatus;
  omp_last_exch_qty : f64;
  omp_first_diverged_ts : Z;
  omp_divergence_count : Z;
}.
#[export] Instance eta_OmsManagedPosition : Eta OmsManagedPosition := λ r,
  mkOmsManagedPosition (omp_account_id r) (omp_instrument_code r) (omp_symbol_exch r)
    (omp_instrument_type r) (omp_is_short r) (omp_qty_total r) (omp_qty_frozen r)
    (omp_qty_available r) (omp_last_local_update_ts r) (omp_last_exch_sync_ts r)
    (omp_reconcile_status r) (omp_last_exch_qty r) (omp_first_diverged_ts r)
    (omp_divergence_count r).

(** [OmsManagedPosition::new] *)
Definition OmsManagedPosition_new (account_id : Z) (instrument_code : string)
    (instrument_type : Z) (is_short : bool) : OmsManagedPosition :=
  mkOmsManagedPosition account_id instrument_code None instrument_type is_short
    f64.zero f64.zero f64.zero 0 0 Unknown f64.zero 0 0.

(** [ExchPositionSnapshot] *)
Record ExchPositionSnapshot : Set := mkExchPositionSnapshot {
  eps_account_id : Z;
  eps_instrument_code : string;
  eps_symbol_exch : option string;
  eps_position_state : Position;
  eps_exch_data_raw : string;
  eps_sync_ts : Z;
}.
#[export] Instance eta_ExchPositionSnapshot : Eta ExchPositionSnapshot := λ r,
  mkExchPositionSnapshot (eps_account_id r) (eps_instrument_code r) (eps_symbol_exch r)
    (eps_position_state r) (eps_exch_data_raw r) (eps_sync_ts r).

(** [ExchBalanceSnapshot] *)
Record ExchBalanceSnapshot : Set := mkExchBalanceSnapshot {
  ebs_account_id : Z;
  ebs_asset : string;
  ebs_symbol_exch : option string;
  ebs_balance_state : Balance;
  ebs_exch_data_raw : string;
  ebs_sync_ts : Z;
}.
#[export] Instance eta_ExchBalanceSnapshot : Eta ExchBalanceSnapshot := λ r,
  mkExchBalanceSnapshot (ebs_account_id r) (ebs_asset r) (ebs_symbol_exch r)
    (ebs_balance_state r) (ebs_exch_data_raw r) (ebs_sync_ts r).

(** [OrderRecheckRequest] *)
Record OrderRecheckRequest : Set := mkOrderRecheckRequest {
  orr_order_id : Z;
  orr_check_delay_secs : Z;
  orr_timestamp : Z;
}.
#[export] Instance eta_OrderRecheckRequest : Eta OrderRecheckRequest := λ r,
  mkOrderRecheckRequest (orr_order_id r) (orr_check_delay_secs r) (orr_timestamp r).

(** [CancelRecheckRequest] *)
Record CancelRecheckRequest : Set := mkCancelRecheckRequest {
  crr_orig_cancel_request : CancelOrderRequest;
  crr_check_delay_secs : Z;
  crr_retry : bool;
  crr_timestamp : Z;
}.
#[export] Instance eta_CancelRecheckRequest : Eta CancelRecheckRequest := λ r,
  mkCancelRecheckRequest (crr_orig_cancel_request r) (crr_check_delay_secs r) (crr_retry
    r) (crr_timestamp r).

(** [OmsMessage]: the inputs of [process_message]. *)
Inductive OmsMessage : Set :=
| PlaceOrder (req : OrderRequest)
| BatchPlaceOrders (reqs : list OrderRequest)
| CancelOrder (req : OrderCancelRequest)
| BatchCancelOrders (reqs : list OrderCancelRequest)
| GatewayOrderReport (report : OrderReport)
| BalanceUpdateMsg (update : BalanceUpdate)
| RecheckOrder (req : OrderRecheckRequest)
| RecheckCancel (req : CancelRecheckRequest)
| Panic (account_id : Z)
| DontPanic (account_id : Z)
| Cleanup (ts_ms : Z)
| ReloadConfig
| PositionRecheck
| GatewaySendFailed (order_id gw_id : Z) (error_msg : string)
| GatewayCancelSendFailed (order_id gw_id : Z) (error_msg : string).

(** [OmsAction]: the v1 outputs, the target of [materialize_action].  The two
    batch variants carry the request lists of their gateway messages. *)
Inductive OmsAction : Set :=
| V1SendOrderToGw (gw_key : string) (request : SendOrderRequest)
    (order_id order_created_at : Z)
| V1BatchSendOrdersToGw (gw_key : string) (requests : list SendOrderRequest)
| V1SendCancelToGw (gw_key : string) (request : CancelOrderRequest)
| V1BatchCancelToGw (gw_key : string) (requests : list CancelOrderRequest)
| V1PublishOrderUpdate (event : OrderUpdateEvent)
| V1PublishBalanceUpdate (event : BalanceUpdateEvent)
| V1PublishPositionUpdate (event : PositionUpdateEvent)
| V1PersistOrder (order : OmsOrder) (set_expire set_closed : bool)
| V1PersistBalance (account_id : Z) (asset : string) (snapshot : ExchBalanceSnapshot)
| V1PersistPosition (account_id : Z) (instrument_code side : string)
    (position : OmsManagedPosition).

(** ** [models_v2.rs] *)

(** [OrderAccountingFlags] *)
Record OrderAccountingFlags : Set := mkOrderAccountingFlags {
  af_bookkeeping_balance : bool;
  af_balance_check : bool;
  af_use_margin : bool;
  af_is_buy : bool;
  af_fund_asset_id : option Z;
  af_pos_instrument_id : option Z;
}.
#[export] Instance eta_OrderAccountingFlags : Eta OrderAccountingFlags := λ r,
  mkOrderAccountingFlags (af_bookkeeping_balance r) (af_balance_check r) (af_use_margin r)
    (af_is_buy r) (af_fund_asset_id r) (af_pos_instrument_id r).

Definition default_OrderAccountingFlags : OrderAccountingFlags :=
  mkOrderAccountingFlags false false false false None None.

(** [LiveOrder]: compact hot-path order state. *)
Record LiveOrder : Set := mkLiveOrder {
  lo_order_id : Z;
  lo_account_id : Z;
  lo_instrument_id : Z;
  lo_gw_id : Z;
  lo_route_exch_account_sym : Z;
  lo_source_sym : Z;
  lo_order_status : Z;
  lo_buy_sell_type : Z;
  lo_open_close_type : Z;
  lo_order_type : Z;
  lo_tif_type : Z;
  lo_price : f64;
  lo_qty : f64;
  lo_filled_qty : f64;
  lo_filled_avg_price : f64;
  lo_acc_trades_filled_qty : f64;
  lo_acc_trades_value : f64;
  lo_exch_order_ref_id : option DynStrId;
  lo_snapshot_version : Z;
  lo_created_at : Z;
  lo_updated_at : Z;
  lo_is_external : bool;
  lo_cancel_attempts : Z;
  lo_accounting_flags : OrderAccountingFlags;
  lo_error_msg : message;
  lo_terminal_at : option Z;
}.
#[export] Instance eta_LiveOrder : Eta LiveOrder := λ r,
  mkLiveOrder (lo_order_id r) (lo_account_id r) (lo_instrument_id r) (lo_gw_id r)
    (lo_route_exch_account_sym r) (lo_source_sym r) (lo_order_status r) (lo_buy_sell_type
    r) (lo_open_close_type r) (lo_order_type r) (lo_tif_type r) (lo_price r) (lo_qty r)
    (lo_filled_qty r) (lo_filled_avg_price r) (lo_acc_trades_filled_qty r)
    (lo_acc_trades_value r) (lo_exch_order_ref_id r) (lo_snapshot_version r)
    (lo_created_at r) (lo_updated_at r) (lo_is_external r) (lo_cancel_attempts r)
    (lo_accounting_flags r) (lo_error_msg r) (lo_terminal_at r).

(** [LiveOrder::is_in_terminal_state] *)
Definition is_terminal_status (status : Z) : bool :=
  match OrderStatus_try_from status with
  | Some Filled | Some Cancelled | Some Rejected => true
  | _ => false
  end.
Definition is_in_terminal_state (live : LiveOrder) : bool :=
  is_terminal_status (lo_order_status live).

(** [OrderDetailLog]: cold audit and history data. *)
Record OrderDetailLog : Set := mkOrderDetailLog {
  dl_order_id : Z;
  dl_original_req : option OrderRequest;
  dl_last_gw_req : option SendOrderRequest;
  dl_cancel_req : option CancelOrderRequest;
  dl_trades : list Trade;
  dl_inferred_trades : list Trade;
  dl_exec_msgs : list ExecMessage;
  dl_fees : list Fee;
}.
#[export] Instance eta_OrderDetailLog : Eta OrderDetailLog := λ r,
  mkOrderDetailLog (dl_order_id r) (dl_original_req r) (dl_last_gw_req r) (dl_cancel_req
    r) (dl_trades r) (dl_inferred_trades r) (dl_exec_msgs r) (dl_fees r).

Definition default_OrderDetailLog : OrderDetailLog :=
  mkOrderDetailLog 0 None None None [] [] [] [].

(** [ResolvedOrderMeta] *)
Record ResolvedOrderMeta : Set := mkResolvedOrderMeta {
  rm_account_id : Z;
  rm_gw_id : Z;
  rm_instrument_id : Z;
  rm_instrument_exch_sym : Z;
  rm_exch_account_sym : Z;
  rm_source_sym : Z;
  rm_fund_asset_id : option Z;
  rm_pos_instrument_id : option Z;
  rm_bookkeeping_balance : bool;
  rm_balance_check : bool;
  rm_use_margin : bool;
  rm_max_order_size : option f64;
  rm_qty_precision : Z;
  rm_price_precision : Z;
}.
#[export] Instance eta_ResolvedOrderMeta : Eta ResolvedOrderMeta := λ r,
  mkResolvedOrderMeta (rm_account_id r) (rm_gw_id r) (rm_instrument_id r)
    (rm_instrument_exch_sym r) (rm_exch_account_sym r) (rm_source_sym r) (rm_fund_asset_id
    r) (rm_pos_instrument_id r) (rm_bookkeeping_balance r) (rm_balance_check r)
    (rm_use_margin r) (rm_max_order_size r) (rm_qty_precision r) (rm_price_precision r).

(** [ManagedPositionV2] *)
Record ManagedPositionV2 : Set := mkManagedPositionV2 {
  mp_account_id : Z;
  mp_instrument_id : Z;
  mp_instrument_type : Z;
  mp_is_short : bool;
  mp_qty_total : f64;
  mp_qty_frozen : f64;
  mp_qty_available : f64;
  mp_last_local_update_ts : Z;
  mp_last_exch_sync_ts : Z;
  mp_reconcile_status : ReconcileStatus;
  mp_last_exch_qty : f64;
  mp_first_diverged_ts : Z;
  mp_divergence_count : Z;
}.
#[export] Instance eta_ManagedPositionV2 : Eta ManagedPositionV2 := λ r,
  mkManagedPositionV2 (mp_account_id r) (mp_instrument_id r) (mp_instrument_type r)
    (mp_is_short r) (mp_qty_total r) (mp_qty_frozen r) (mp_qty_available r)
    (mp_last_local_update_ts r) (mp_last_exch_sync_ts r) (mp_reconcile_status r)
    (mp_last_exch_qty r) (mp_first_diverged_ts r) (mp_divergence_count r).

(** [ManagedPositionV2::new] *)
Definition ManagedPositionV2_new (account_id instrument_id instrument_type : Z)
    (is_short : bool) : ManagedPositionV2 :=
  mkManagedPositionV2 account_id instrument_id instrument_type is_short
    f64.zero f64.zero f64.zero 0 0 Unknown f64.zero 0 0.

(** [ReserveKind] *)
Inductive ReserveKind : Set := CashAsset | InventoryInstrument.
#[export] Instance ReserveKind_eq_dec : EqDecision ReserveKind.
Proof. solve_decision. Defined.

(** [ReservationRecordV2] *)
Record ReservationRecordV2 : Set := mkReservationRecordV2 {
  rr_order_id : Z;
  rr_account_id : Z;
  rr_kind : ReserveKind;
  rr_target_id : Z;
  rr_reserved_qty : f64;
}.
#[export] Instance eta_ReservationRecordV2 : Eta ReservationRecordV2 := λ r,
  mkReservationRecordV2 (rr_order_id r) (rr_account_id r) (rr_kind r) (rr_target_id r)
    (rr_reserved_qty r).

(** [PositionDeltaV2] *)
Record PositionDeltaV2 : Set := mkPositionDeltaV2 {
  pd_account_id : Z;
  pd_instrument_id : Z;
  pd_is_short : bool;
  pd_avail_change : f64;
  pd_frozen_change : f64;
  pd_total_change : f64;
}.
#[export] Instance eta_PositionDeltaV2 : Eta PositionDeltaV2 := λ r,
  mkPositionDeltaV2 (pd_account_id r) (pd_instrument_id r) (pd_is_short r)
    (pd_avail_change r) (pd_frozen_change r) (pd_total_change r).

(** [OmsActionV2]: compact output actions. *)
Inductive OmsActionV2 : Set :=
| SendOrderToGw (gw_id order_id order_created_at : Z)
| BatchSendOrdersToGw (gw_id : Z) (order_ids : list Z)
| SendCancelToGw (gw_id order_id : Z)
| BatchCancelToGw (gw_id : Z) (order_ids : list Z)
| PublishOrderUpdate (order_id : Z) (include_last_trade include_last_fee
    include_exec_message include_inferred_trade : bool)
| PublishBalanceUpdate (account_id : Z)
| PublishPositionUpdate (account_id : Z)
| PersistOrder (order_id : Z) (set_expire set_closed : bool)
| PersistBalance (account_id asset_id : Z)
| PersistPosition (account_id instrument_id : Z).

(** [RetryState] *)
Record RetryState : Set := mkRetryState {
  rs_total_retries_orders : Z;
  rs_total_retries_cancels : Z;
}.
#[export] Instance eta_RetryState : Eta RetryState := λ r,
  mkRetryState (rs_total_retries_orders r) (rs_total_retries_cancels r).

Definition default_RetryState : RetryState := mkRetryState 0 0.
