(* ===== verification/Reservation.v ===== *)
(** * Reservations ([reservation_v2.rs])

    Per-order holds against cash or inventory, with a running total per
    [(account_id, target_id)].  The definitions compute in binary64, as the
    source does.

    The abstract specification is a ledger: a finite map from order ids to
    integer amounts, whose total is the sum of the outstanding entries.  On a
    grid (see [F64Grid]) the store refines the ledger: the incrementally
    maintained total is exactly that sum, after every sequence of operations. *)

From S2P Require Import Prelude F64 F64Grid Proto Models.

Record ReservationStoreV2 : Type := mkReservationStoreV2 {
  reservations : gmap Z ReservationRecordV2;
  account_totals : gmap (Z * Z) f64;
}.
#[export] Instance eta_ReservationStoreV2 : Eta ReservationStoreV2 := λ r,
  mkReservationStoreV2 (reservations r) (account_totals r).

Module ReservationStoreV2.
Definition new : ReservationStoreV2 := mkReservationStoreV2 ∅ ∅.

Definition reserve (order_id account_id : Z) (kind : ReserveKind) (target_id : Z)
    (qty : f64) (st : ReservationStoreV2) : result unit message * ReservationStoreV2 :=
  match reservations st !! order_id with
  | Some _ =>
      (Err (text ("reservation already exists for order " +:+ display_i64 order_id)), st)
  | None =>
      let rec := mkReservationRecordV2 order_id account_id kind target_id qty in
      let st := st <| reservations ::= <[order_id := rec]> |> in
      let key := (account_id, target_id) in
      let total := default f64.zero (account_totals st !! key) in
      (Ok tt, st <| account_totals ::= <[key := (total + qty)%f64]> |>)
  end.

(** [*total -= amount; if *total <= 0.0 { remove }], for an entry that exists. *)
Definition sub_total (key : Z * Z) (amount : f64) (totals : gmap (Z * Z) f64)
    : gmap (Z * Z) f64 :=
  match totals !! key with
  | Some total =>
      let total := (total - amount)%f64 in
      if (total <=? f64.zero)%f64 then delete key totals else <[key := total]> totals
  | None => totals
  end.

Definition release (order_id : Z) (st : ReservationStoreV2) : ReservationStoreV2 :=
  match reservations st !! order_id with
  | Some res =>
      let st := st <| reservations ::= delete order_id |> in
      st <| account_totals ::=
        sub_total (rr_account_id res, rr_target_id res) (rr_reserved_qty res) |>
  | None => st
  end.

Definition release_partial (order_id : Z) (filled_qty : f64) (st : ReservationStoreV2)
    : ReservationStoreV2 :=
  match reservations st !! order_id with
  | Some res =>
      let amount := f64.min filled_qty (rr_reserved_qty res) in
      let res := res <| rr_reserved_qty ::= λ q, (q - amount)%f64 |> in
      let st := st <| reservations ::= <[order_id := res]> |> in
      let st := st <| account_totals ::=
        sub_total (rr_account_id res, rr_target_id res) amount |> in
      if (rr_reserved_qty res <=? f64.zero)%f64
      then st <| reservations ::= delete order_id |> else st
  | None => st
  end.

Definition total_reserved (account_id target_id : Z) (st : ReservationStoreV2) : f64 :=
  default f64.zero (account_totals st !! (account_id, target_id)).

Definition check_available (account_id target_id : Z) (required available : f64)
    (st : ReservationStoreV2) : result unit message :=
  let reserved := total_reserved account_id target_id st in
  let effective := (available - reserved)%f64 in
  if (effective <? required)%f64 then
    Err [Lit ("Not enough available for target " +:+ display_i64 target_id +:+ ": need ");
         DispF64 required; Lit ", have "; DispF64 effective; Lit " (available ";
         DispF64 available; Lit " - reserved "; DispF64 reserved; Lit ")"]
  else Ok tt.
End ReservationStoreV2.

(** ** The abstract ledger *)

Module Ledger.
Record entry : Set := mkentry { account : Z; target : Z; amount : Z }.
Definition t : Type := gmap Z entry.
Definition key (e : entry) : Z * Z := (account e, target e).

Definition reserve (oid acct tgt q : Z) (l : gmap Z entry) : gmap Z entry :=
  match l !! oid with Some _ => l | None => <[oid := mkentry acct tgt q]> l end.
Definition release (oid : Z) (l : gmap Z entry) : gmap Z entry := delete oid l.
Definition release_partial (oid f : Z) (l : gmap Z entry) : gmap Z entry :=
  match l !! oid with
  | Some e =>
      let rest := amount e - Z.min f (amount e) in
      if rest <=? 0 then delete oid l
      else <[oid := mkentry (account e) (target e) rest]> l
  | None => l
  end.
Definition share (k : Z * Z) (e : entry) : Z := if decide (key e = k) then amount e else 0.
Definition total (k : Z * Z) (l : gmap Z entry) : Z := map_sum (λ _ e, share k e) l.
End Ledger.

(** ** Refinement *)

Section refinement.
Context (g : Z) (Hg : grid_ok g).
Implicit Types (st : ReservationStoreV2) (l : gmap Z Ledger.entry).

(** One reservation record stands for one ledger entry. *)
Definition entry_rel (oid : Z) (e : Ledger.entry) (r : ReservationRecordV2) : Prop :=
  rr_order_id r = oid ∧ rr_account_id r = Ledger.account e ∧
  rr_target_id r = Ledger.target e ∧
  on_grid g (Ledger.amount e) (rr_reserved_qty r) ∧ 0 ≤ Ledger.amount e.

(** A stored total is the sum of the open entries; a missing total is 0. *)
Definition total_rel l (k : Z * Z) (o : option f64) : Prop :=
  on_grid g (Ledger.total k l) (default f64.zero o).

Record ledger_rel l st : Prop := {
  rel_entries : ∀ oid, option_relation (entry_rel oid) (λ _, False) (λ _, False)
                         (l !! oid) (reservations st !! oid);
  rel_totals : ∀ k, total_rel l k (account_totals st !! k);
}.

Lemma ledger_rel_new : ledger_rel ∅ ReservationStoreV2.new.
Proof. split; intros; [by rewrite !lookup_empty|]. done. Qed.

Lemma share_nonneg k e : 0 ≤ Ledger.amount e → 0 ≤ Ledger.share k e.
Proof. unfold Ledger.share. case_decide; lia. Qed.

Lemma total_nonneg l st k : ledger_rel l st → 0 ≤ Ledger.total k l.
Proof.
  intros [He _]. apply map_sum_nonneg. intros oid e Hl. apply share_nonneg.
  specialize (He oid). rewrite Hl in He.
  destruct (reservations st !! oid); [apply He|done].
Qed.

Lemma rel_lookup l st oid e :
  ledger_rel l st → l !! oid = Some e →
  ∃ r, reservations st !! oid = Some r ∧ entry_rel oid e r.
Proof.
  intros [He _] Hl. specialize (He oid). rewrite Hl in He.
  destruct (reservations st !! oid); [eauto|done].
Qed.

Lemma rel_lookup_None l st oid :
  ledger_rel l st → l !! oid = None ↔ reservations st !! oid = None.
Proof.
  intros [He _]. specialize (He oid).
  destruct (l !! oid), (reservations st !! oid); naive_solver.
Qed.

(** Adding to, and subtracting from, one running total. *)
Lemma add_total_rel (T T' : Z * Z → Z) (totals : gmap (Z * Z) f64) key a x :
  (∀ k, on_grid g (T k) (default f64.zero (totals !! k))) →
  (∀ k, T' k = T k + if decide (key = k) then a else 0) →
  on_grid g a x → fits (T' key) →
  ∀ k, on_grid g (T' k)
    (default f64.zero (<[key := (default f64.zero (totals !! key) + x)%f64]> totals !! k)).
Proof using Hg.
  intros HT HT' Hx Hf k. rewrite HT'. destruct (decide (key = k)) as [<-|Hne].
  - rewrite HT', decide_True in Hf by done. rewrite lookup_insert_eq. by apply grid_add.
  - rewrite lookup_insert_ne, Z.add_0_r by done. done.
Qed.

Lemma sub_total_rel (T T' : Z * Z → Z) (totals : gmap (Z * Z) f64) key a x :
  (∀ k, on_grid g (T k) (default f64.zero (totals !! k))) →
  (∀ k, T' k = T k - if decide (key = k) then a else 0) →
  on_grid g a x → 0 ≤ a → 0 ≤ T' key →
  ∀ k, on_grid g (T' k)
    (default f64.zero (ReservationStoreV2.sub_total key x totals !! k)).
Proof using Hg.
  intros HT HT' Hx Ha Hpos k. unfold ReservationStoreV2.sub_total.
  pose proof (HT key) as Hkey. pose proof (HT k) as Hk. pose proof (HT' k) as Hk'.
  pose proof (HT' key) as Hkey'. rewrite decide_True in Hkey' by done.
  destruct (totals !! key) as [total|] eqn:E; simpl in Hkey.
  - assert (on_grid g (T key - a) (total - x)%f64) as Hsub.
    { apply grid_sub; [done..|]. apply on_grid_fits in Hkey. unfold fits in *. lia. }
    rewrite (grid_leb g (T key - a) 0) by done.
    destruct (Z.leb_spec (T key - a) 0).
    + destruct (decide (key = k)) as [<-|]; rewrite ?lookup_delete_eq, ?lookup_delete_ne by done.
      * replace (T' key) with 0 by lia. done.
      * by rewrite Hk', Z.sub_0_r.
    + destruct (decide (key = k)) as [<-|]; rewrite ?lookup_insert_eq, ?lookup_insert_ne by done.
      * by rewrite Hk'.
      * by rewrite Hk', Z.sub_0_r.
  - destruct (decide (key = k)) as [<-|]; [|by rewrite Hk', Z.sub_0_r].
    rewrite E. simpl. replace (T' key) with 0 by lia. done.
Qed.

Lemma total_insert l oid e k :
  l !! oid = None → Ledger.total k (<[oid := e]> l) = Ledger.total k l + Ledger.share k e.
Proof. intros. unfold Ledger.total. rewrite map_sum_insert by done. lia. Qed.

Lemma total_delete l oid e k :
  l !! oid = Some e → Ledger.total k (delete oid l) = Ledger.total k l - Ledger.share k e.
Proof. intros. unfold Ledger.total. rewrite (map_sum_delete _ l oid e) by done. lia. Qed.

Lemma total_replace l oid e e' k :
  l !! oid = Some e →
  Ledger.total k (<[oid := e']> l) =
  Ledger.total k l - Ledger.share k e + Ledger.share k e'.
Proof. intros. unfold Ledger.total. by rewrite (map_sum_replace _ l oid e). Qed.

Lemma reserve_sim l st oid acct kind tgt q x :
  ledger_rel l st → on_grid g q x → 0 ≤ q → fits (Ledger.total (acct, tgt) l + q) →
  let '(r, st') := ReservationStoreV2.reserve oid acct kind tgt x st in
  ledger_rel (Ledger.reserve oid acct tgt q l) st' ∧
  (is_err r = true ↔ is_Some (l !! oid)).
Proof using Hg.
  intros Hrel Hx Hq Hf. unfold ReservationStoreV2.reserve, Ledger.reserve.
  pose proof (rel_lookup_None l st oid Hrel) as HN.
  destruct (reservations st !! oid) as [r|] eqn:Er.
  { destruct (l !! oid) eqn:El; [|naive_solver]. split; [done|]. naive_solver. }
  assert (l !! oid = None) as El by (by apply HN). rewrite El.
  split; [|simpl; split; [done|by intros [? ?]]].
  destruct Hrel as [He Ht]. split.
  - intros oid'. cbn. rewrite !lookup_insert. case_decide; [subst|apply He].
    repeat split; done.
  - intros k. cbn. unfold total_rel.
    eapply (add_total_rel (λ k, Ledger.total k l)
      (λ k, Ledger.total k (<[oid := Ledger.mkentry acct tgt q]> l))); [done| |done|].
    + intros k'. by rewrite total_insert.
    + rewrite total_insert by done. unfold Ledger.share. by rewrite decide_True.
Qed.

Lemma release_sim l st oid :
  ledger_rel l st → ledger_rel (Ledger.release oid l) (ReservationStoreV2.release oid st).
Proof using Hg.
  intros Hrel. unfold ReservationStoreV2.release, Ledger.release.
  destruct (l !! oid) as [e|] eqn:El.
  - destruct (rel_lookup l st oid e Hrel El) as (r & -> & _ & Ha & Htg & Hq & Hpos).
    destruct (id Hrel) as [He Ht]. split.
    + intros oid'. cbn. rewrite !lookup_delete. case_decide; [done|apply He].
    + intros k. cbn. unfold total_rel.
      eapply (sub_total_rel (λ k, Ledger.total k l) (λ k, Ledger.total k (delete oid l)));
        [done| |done..|].
      * intros k'. rewrite (total_delete l oid e) by done. unfold Ledger.share, Ledger.key.
        by rewrite Ha, Htg.
      * apply map_sum_nonneg. intros oid' e' [_ Hl]%lookup_delete_Some.
        destruct (rel_lookup l st oid' e' Hrel Hl) as (? & _ & _ & _ & _ & _ & ?).
        by apply share_nonneg.
  - rewrite delete_id by done. rewrite (proj1 (rel_lookup_None l st oid Hrel) El). done.
Qed.

Lemma release_partial_sim l st oid f x :
  ledger_rel l st → on_grid g f x → 0 ≤ f →
  ledger_rel (Ledger.release_partial oid f l) (ReservationStoreV2.release_partial oid x st).
Proof using Hg.
  intros Hrel Hx Hf. unfold ReservationStoreV2.release_partial, Ledger.release_partial.
  destruct (l !! oid) as [e|] eqn:El.
  2: { by rewrite (proj1 (rel_lookup_None l st oid Hrel) El). }
  destruct (rel_lookup l st oid e Hrel El) as (r & -> & Hid & Ha & Htg & Hq & Hpos).
  set (a := Z.min f (Ledger.amount e)). set (y := f64.min x (rr_reserved_qty r)).
  assert (on_grid g a y) as Hy by (by apply grid_min).
  assert (on_grid g (Ledger.amount e - a) (rr_reserved_qty r - y)%f64) as Hrest.
  { apply grid_sub; [done..|]. apply on_grid_fits in Hq. unfold fits, a in *. lia. }
  cbn. rewrite (grid_leb g (Ledger.amount e - a) 0) by done.
  destruct (id Hrel) as [He Ht].
  destruct (Z.leb_spec (Ledger.amount e - a) 0).
  - assert (a = Ledger.amount e) as Hae by lia. split.
    + intros oid'. cbn. rewrite !lookup_delete. case_decide; [done|].
      rewrite lookup_insert_ne by done. apply He.
    + intros k. cbn. unfold total_rel.
      eapply (sub_total_rel (λ k, Ledger.total k l) (λ k, Ledger.total k (delete oid l)));
        [done| |done|lia|].
      * intros k'. rewrite (total_delete l oid e) by done. unfold Ledger.share, Ledger.key.
        by rewrite Ha, Htg, Hae.
      * apply map_sum_nonneg. intros oid' e' [_ Hl]%lookup_delete_Some.
        destruct (rel_lookup l st oid' e' Hrel Hl) as (? & _ & _ & _ & _ & _ & ?).
        by apply share_nonneg.
  - split.
    + intros oid'. cbn. rewrite !lookup_insert. case_decide; [subst|apply He].
      split_and!; simpl; try done. lia.
    + intros k. cbn. unfold total_rel.
      eapply (sub_total_rel (λ k, Ledger.total k l) (λ k, Ledger.total k
        (<[oid := Ledger.mkentry (Ledger.account e) (Ledger.target e) (Ledger.amount e - a)]> l)));
        [done| |done|lia|].
      * intros k'. rewrite (total_replace l oid e) by done.
        unfold Ledger.share, Ledger.key. simpl. rewrite Ha, Htg. case_decide; lia.
      * apply map_sum_nonneg. intros oid' e' [[_ <-]|[_ Hl]]%lookup_insert_Some.
        { apply share_nonneg. simpl. lia. }
        destruct (rel_lookup l st oid' e' Hrel Hl) as (? & _ & _ & _ & _ & _ & ?).
        by apply share_nonneg.
Qed.
End refinement.

(** ** Traces of operations

    Quantities of a trace are given by their grid mantissas; [of_grid] is the
    float the store receives. *)

Inductive rop : Set :=
| OpReserve (oid acct : Z) (kind : ReserveKind) (tgt q : Z)
| OpRelease (oid : Z)
| OpReleasePartial (oid f : Z).

Definition store_step (g : Z) (st : ReservationStoreV2) (op : rop) : ReservationStoreV2 :=
  match op with
  | OpReserve oid acct kind tgt q =>
      (ReservationStoreV2.reserve oid acct kind tgt (of_grid g q) st).2
  | OpRelease oid => ReservationStoreV2.release oid st
  | OpReleasePartial oid f => ReservationStoreV2.release_partial oid (of_grid g f) st
  end.

Definition ledger_step (l : gmap Z Ledger.entry) (op : rop) : gmap Z Ledger.entry :=
  match op with
  | OpReserve oid acct _ tgt q => Ledger.reserve oid acct tgt q l
  | OpRelease oid => Ledger.release oid l
  | OpReleasePartial oid f => Ledger.release_partial oid f l
  end.

(** Amounts are non-negative and no total leaves the 53-bit range. *)
Fixpoint admissible (l : gmap Z Ledger.entry) (ops : list rop) : Prop :=
  match ops with
  | [] => True
  | op :: ops =>
      match op with
      | OpReserve _ acct _ tgt q =>
          0 ≤ q ∧ fits q ∧ fits (Ledger.total (acct, tgt) l + q)
      | OpRelease _ => True
      | OpReleasePartial _ f => 0 ≤ f ∧ fits f
      end ∧ admissible (ledger_step l op) ops
  end.

Lemma trace_sim g ops l st :
  grid_ok g → ledger_rel g l st → admissible l ops →
  ledger_rel g (foldl ledger_step l ops) (foldl (store_step g) st ops).
Proof.
  intros Hg. revert l st. induction ops as [|op ops IH]; intros l st Hrel Had; [done|].
  destruct Had as [Hop Had]. simpl. apply IH; [|done]. destruct op as [oid acct kind tgt q|oid|oid f].
  - destruct Hop as (Hq & Hfq & Hft).
    pose proof (reserve_sim g Hg l st oid acct kind tgt q _ Hrel (of_grid_on_grid g q Hg Hfq) Hq Hft) as H.
    simpl. by destruct (ReservationStoreV2.reserve _ _ _ _ _ _) as [? ?]; destruct H.
  - by apply release_sim.
  - destruct Hop. apply release_partial_sim; [done..| |done]. by apply of_grid_on_grid.
Qed.

(** C6: reservation accounting.  After any sequence of [reserve], [release] and
    [release_partial] calls on grid quantities, starting from an empty store,
    [total_reserved] of every (account, target) pair is exactly the sum of the
    outstanding reservations, the outstanding reservations are those of the
    abstract ledger, and [check_available] refuses exactly when the available
    amount minus that sum is below the requirement. *)
Theorem reservation_refines_ledger g ops acct tgt :
  grid_ok g → admissible ∅ ops →
  let st := foldl (store_step g) ReservationStoreV2.new ops in
  let l := foldl ledger_step ∅ ops in
  dom (reservations st) = dom l ∧
  on_grid g (Ledger.total (acct, tgt) l) (ReservationStoreV2.total_reserved acct tgt st) ∧
  ∀ need avail, fits need → fits avail → fits (avail - Ledger.total (acct, tgt) l) →
    is_err (ReservationStoreV2.check_available acct tgt (of_grid g need) (of_grid g avail) st)
    = (avail - Ledger.total (acct, tgt) l <? need).
Proof.
  intros Hg Had st l.
  assert (ledger_rel g l st) as Hrel by (apply trace_sim; auto using ledger_rel_new).
  assert (on_grid g (Ledger.total (acct, tgt) l) (ReservationStoreV2.total_reserved acct tgt st))
    as Htot by (by apply rel_totals).
  split_and!; [|done|].
  - apply set_eq. intros oid. rewrite !elem_of_dom, <- !not_eq_None_Some.
    by rewrite (rel_lookup_None g l st oid Hrel).
  - intros need avail Hn Ha Hf. unfold ReservationStoreV2.check_available.
    rewrite (grid_ltb g (avail - Ledger.total (acct, tgt) l) need).
    + by destruct (_ <? need).
    + apply grid_sub; auto using of_grid_on_grid.
    + auto using of_grid_on_grid.
Qed.

Lemma reservation_refines_ledger_witness :
  let ops := [OpReserve 1 7 CashAsset 3 500; OpReserve 2 7 CashAsset 3 250;
              OpReleasePartial 1 200; OpRelease 2] in
  let st := foldl (store_step (-2)) ReservationStoreV2.new ops in
  admissible ∅ ops ∧
  on_grid (-2) (Ledger.total (7, 3) (foldl ledger_step ∅ ops))
    (ReservationStoreV2.total_reserved 7 3 st).
Proof.
  intros ops st.
  assert (admissible ∅ ops) as Had by (vm_compute; intuition congruence).
  split; [exact Had|].
  apply (reservation_refines_ledger (-2) ops 7 3); [unfold grid_ok; lia|exact Had].
Defined.

(** On decimal quantities the running total drifts.  Reserving 0.1 and 0.2
    for two orders and releasing both leaves no reservation but a strictly
    positive [total_reserved], which [check_available] keeps subtracting: an
    order for the whole balance of 1.0e-17 is refused. *)
Theorem reservation_total_drifts :
  let q1 := f64.of_decimal 1 1 in
  let q2 := f64.of_decimal 2 1 in
  let st := (ReservationStoreV2.reserve 1 7 CashAsset 3 q1 ReservationStoreV2.new).2 in
  let st := (ReservationStoreV2.reserve 2 7 CashAsset 3 q2 st).2 in
  let st := ReservationStoreV2.release 2 (ReservationStoreV2.release 1 st) in
  reservations st = ∅ ∧
  flt f64.zero (ReservationStoreV2.total_reserved 7 3 st) ∧
  is_err (ReservationStoreV2.check_available 7 3 (f64.of_decimal 1 17)
            (f64.of_decimal 1 17) st) = true.
Proof. split_and!; vm_compute; reflexivity. Qed.
