(* ===== verification/Position.v ===== *)
(** * Positions ([position_v2.rs])

    OMS-owned positions keyed by [(account_id, instrument_id)]: pre-trade
    freezing, fills with sign flip, and reconciliation against the snapshots of
    the exchange.

    - freezing: on a grid, freezes and releases only move quantity between the
      available and the frozen part;
    - fills: a fill is an addition on the signed position, and the stored total
      and frozen parts never become negative;
    - reconciliation: the status is a function of the trailing run of divergent
      observations. *)

From S2P Require Import Prelude F64 F64Grid Proto Models.

Definition RECONCILE_PERSISTENT_THRESHOLD : Z := 3.

Record PositionStoreV2 : Type := mkPositionStoreV2 {
  managed : gmap (Z * Z) ManagedPositionV2;
  exch : gmap (Z * Z) ExchPositionSnapshot;
}.
#[export] Instance eta_PositionStoreV2 : Eta PositionStoreV2 := λ r,
  mkPositionStoreV2 (managed r) (exch r).

Module PositionStoreV2.
Definition new : PositionStoreV2 := mkPositionStoreV2 ∅ ∅.

Definition init_positions (positions : list ManagedPositionV2) (st : PositionStoreV2)
    : PositionStoreV2 :=
  foldl (λ st pos, st <| managed ::= <[(mp_account_id pos, mp_instrument_id pos) := pos]> |>)
    st positions.

Definition get_position (account_id instrument_id : Z) (st : PositionStoreV2)
    : option ManagedPositionV2 :=
  managed st !! (account_id, instrument_id).

(** [get_or_create_position] returns a mutable reference: here the value, and
    the store in which it is present. *)
Definition get_or_create_position (account_id instrument_id instrument_type : Z)
    (is_short : bool) (st : PositionStoreV2) : ManagedPositionV2 * PositionStoreV2 :=
  match managed st !! (account_id, instrument_id) with
  | Some pos => (pos, st)
  | None =>
      let pos := ManagedPositionV2_new account_id instrument_id instrument_type is_short in
      (pos, st <| managed ::= <[(account_id, instrument_id) := pos]> |>)
  end.

Definition get_positions_for_account `{!HashIter (Z * Z)} (account_id : Z)
    (st : PositionStoreV2) : list ManagedPositionV2 :=
  (filter (λ kv, kv.1.1 = account_id) (hash_iter (managed st))).*2.

Definition check_and_freeze (account_id instrument_id : Z) (qty : f64) (is_short : bool)
    (st : PositionStoreV2) : result unit message * PositionStoreV2 :=
  let key := (account_id, instrument_id) in
  let avail := default f64.zero (mp_qty_available <$> managed st !! key) in
  if (avail <? qty)%f64 then
    (Err [Lit ("Not enough available position for instrument " +:+
               display_i64 instrument_id +:+ ": need "); DispF64 qty;
          Lit ", have "; DispF64 avail], st)
  else
    let pos := default (ManagedPositionV2_new account_id instrument_id 0 is_short)
                 (managed st !! key) in
    let pos := pos <| mp_qty_available ::= λ a, (a - qty)%f64 |> in
    let pos := pos <| mp_qty_frozen ::= λ f, (f + qty)%f64 |> in
    (Ok tt, st <| managed ::= <[key := pos]> |>).

Definition unfreeze (account_id instrument_id : Z) (qty : f64) (st : PositionStoreV2)
    : PositionStoreV2 :=
  let key := (account_id, instrument_id) in
  match managed st !! key with
  | Some pos =>
      let amount := f64.min qty (mp_qty_frozen pos) in
      let pos := pos <| mp_qty_frozen ::= λ f, (f - amount)%f64 |> in
      let pos := pos <| mp_qty_available ::= λ a, (a + amount)%f64 |> in
      st <| managed ::= <[key := pos]> |>
  | None => st
  end.

(** The body of [apply_delta] on the entry. *)
Definition apply_delta_pos (delta : PositionDeltaV2) (ts : Z) (pos : ManagedPositionV2)
    : ManagedPositionV2 :=
  let pos := pos <| mp_qty_total ::= λ t, (t + pd_total_change delta)%f64 |> in
  let pos := pos <| mp_qty_frozen ::=
    λ f, f64.max (f + pd_frozen_change delta)%f64 f64.zero |> in
  let new_avail := (mp_qty_available pos + pd_avail_change delta)%f64 in
  let pos := pos <| mp_qty_available :=
    if (new_avail >? mp_qty_total pos)%f64 then mp_qty_total pos else new_avail |> in
  let pos := pos <| mp_last_local_update_ts := ts |> in
  if (mp_qty_total pos <? f64.zero)%f64 then
    let pos := pos <| mp_is_short ::= negb |> in
    let pos := pos <| mp_qty_total ::= f64.abs |> in
    pos <| mp_qty_available ::= f64.abs |>
  else pos.

Definition apply_delta (delta : PositionDeltaV2) (ts : Z) (st : PositionStoreV2)
    : PositionStoreV2 :=
  let key := (pd_account_id delta, pd_instrument_id delta) in
  let pos := default (ManagedPositionV2_new (pd_account_id delta) (pd_instrument_id delta)
                        0 (pd_is_short delta)) (managed st !! key) in
  st <| managed ::= <[key := apply_delta_pos delta ts pos]> |>.

(** The body of [update_reconcile_status] on the entry. *)
Definition reconcile_pos (exch_qty : option f64) (ts : Z) (pos : ManagedPositionV2)
    : ManagedPositionV2 :=
  let pos := pos <| mp_last_exch_qty := default f64.zero exch_qty |> in
  let diff := f64.abs (mp_qty_total pos - mp_last_exch_qty pos)%f64 in
  if (diff <? eps9)%f64 then
    let pos := pos <| mp_reconcile_status := InSync |> in
    let pos := pos <| mp_first_diverged_ts := 0 |> in
    pos <| mp_divergence_count := 0 |>
  else if bool_decide (mp_reconcile_status pos = InSync)
       || bool_decide (mp_reconcile_status pos = Unknown) then
    let pos := pos <| mp_reconcile_status := DivergedTransient |> in
    let pos := pos <| mp_first_diverged_ts := ts |> in
    pos <| mp_divergence_count := 1 |>
  else
    let pos := pos <| mp_divergence_count ::= λ n, wrap_u32 (n + 1) |> in
    if RECONCILE_PERSISTENT_THRESHOLD <=? mp_divergence_count pos then
      pos <| mp_reconcile_status := DivergedPersistent |>
    else pos.

Definition update_reconcile_status (account_id instrument_id ts : Z) (st : PositionStoreV2)
    : PositionStoreV2 :=
  let key := (account_id, instrument_id) in
  let exch_qty := (λ s, pos_total_qty (eps_position_state s)) <$> exch st !! key in
  match managed st !! key with
  | Some pos => st <| managed ::= <[key := reconcile_pos exch_qty ts pos]> |>
  | None => st
  end.

Definition check_reconcile (account_id instrument_id : Z) (st : PositionStoreV2)
    : ReconcileStatus :=
  default Unknown (mp_reconcile_status <$> managed st !! (account_id, instrument_id)).
End PositionStoreV2.

(** ** Freezing *)

(** The position at one key, seen on a grid. *)
Definition pos_grid (g t f a : Z) (pos : ManagedPositionV2) : Prop :=
  on_grid g t (mp_qty_total pos) ∧ on_grid g f (mp_qty_frozen pos) ∧
  on_grid g a (mp_qty_available pos).

Inductive fop : Set :=
| OpFreeze (q : Z)
| OpUnfreeze (q : Z).

Definition fop_qty (op : fop) : Z := match op with OpFreeze q | OpUnfreeze q => q end.

Definition freeze_step (g acct inst : Z) (st : PositionStoreV2) (op : fop) : PositionStoreV2 :=
  match op with
  | OpFreeze q => (PositionStoreV2.check_and_freeze acct inst (of_grid g q) false st).2
  | OpUnfreeze q => PositionStoreV2.unfreeze acct inst (of_grid g q) st
  end.

(** The reference account: what is frozen out of a fixed holding [h]. *)
Definition frozen_step (h f : Z) (op : fop) : Z :=
  match op with
  | OpFreeze q => if h - f <? q then f else f + q
  | OpUnfreeze q => f - Z.min q f
  end.

Section freezing.
Context (g : Z) (Hg : grid_ok g) (acct inst t h : Z) (Hh : 0 ≤ h) (Hhf : fits h).

Definition holds (f : Z) (st : PositionStoreV2) : Prop :=
  0 ≤ f ≤ h ∧
  ∃ pos, managed st !! (acct, inst) = Some pos ∧ pos_grid g t f (h - f) pos.

Lemma freeze_refused f st q :
  holds f st → 0 ≤ q → fits q →
  is_err (PositionStoreV2.check_and_freeze acct inst (of_grid g q) false st).1
  = (h - f <? q).
Proof using Hg.
  intros (_ & pos & Hpos & _ & _ & Ha) Hq Hqf. unfold PositionStoreV2.check_and_freeze.
  rewrite Hpos. simpl.
  rewrite (grid_ltb g (h - f) q) by auto using of_grid_on_grid. by destruct (_ <? _).
Qed.

Lemma freeze_sim f st q x is_short :
  holds f st → 0 ≤ q → on_grid g q x →
  holds (if h - f <? q then f else f + q)
    (PositionStoreV2.check_and_freeze acct inst x is_short st).2.
Proof using Hg Hh Hhf.
  intros (Hf & pos & Hpos & Ht & Hfr & Ha) Hq Hx.
  unfold PositionStoreV2.check_and_freeze. rewrite Hpos. simpl.
  rewrite (grid_ltb g (h - f) q) by done.
  destruct (Z.ltb_spec (h - f) q); [split; [done|]; by exists pos|].
  split; [lia|]. eexists. split; [by apply lookup_insert_eq|]. split_and!; simpl; [done| |].
  - apply grid_add; [done..|]. unfold fits in *; lia.
  - replace (h - (f + q)) with (h - f - q) by lia.
    apply grid_sub; [done..|]. unfold fits in *; lia.
Qed.

Lemma unfreeze_sim f st q x :
  holds f st → 0 ≤ q → on_grid g q x →
  holds (f - Z.min q f) (PositionStoreV2.unfreeze acct inst x st).
Proof using Hg Hh Hhf.
  intros (Hf & pos & Hpos & Ht & Hfr & Ha) Hq Hx.
  unfold PositionStoreV2.unfreeze. rewrite Hpos.
  pose proof (grid_min g q f _ _ Hx Hfr) as Hm. split; [lia|].
  eexists. split; [by apply lookup_insert_eq|]. split_and!; simpl; [done| |].
  - apply grid_sub; [done..|]. unfold fits in *; lia.
  - replace (h - (f - Z.min q f)) with (h - f + Z.min q f) by lia.
    apply grid_add; [done..|]. unfold fits in *; lia.
Qed.

Lemma freeze_step_sim f st op :
  holds f st → 0 ≤ fop_qty op → fits (fop_qty op) →
  holds (frozen_step h f op) (freeze_step g acct inst st op).
Proof using Hg Hh Hhf.
  intros. destruct op; [apply freeze_sim|apply unfreeze_sim]; auto using of_grid_on_grid.
Qed.

Lemma freeze_trace_sim ops f st :
  holds f st → Forall (λ op, 0 ≤ fop_qty op ∧ fits (fop_qty op)) ops →
  holds (foldl (frozen_step h) f ops) (foldl (freeze_step g acct inst) st ops).
Proof using Hg Hh Hhf.
  intros Hst Hops. revert f st Hst. induction Hops as [|op ops [? ?] _ IH]; intros f st Hst.
  - done.
  - simpl. apply IH. by apply freeze_step_sim.
Qed.
End freezing.

Lemma freeze_step_frame g acct inst k st op :
  k ≠ (acct, inst) → managed (freeze_step g acct inst st op) !! k = managed st !! k.
Proof.
  intros Hk. destruct op as [q|q]; simpl.
  - unfold PositionStoreV2.check_and_freeze. destruct (_ <? _)%f64; simpl; [done|].
    by rewrite lookup_insert_ne.
  - unfold PositionStoreV2.unfreeze. destruct (managed st !! (acct, inst)); simpl; [|done].
    by rewrite lookup_insert_ne.
Qed.

(** Pre-trade freezing conserves the holding.  Starting from a position
    whose holding [h] is entirely available, after any sequence of sell-order
    freezes and releases (a release larger than what is frozen included) the
    available part is exactly [h] minus the frozen part, both are non-negative,
    the total is untouched, no other position changes, and a freeze is refused
    exactly when it asks for more than what is available. *)
Theorem freeze_conserves_holding g acct inst t h st pos ops :
  grid_ok g → 0 ≤ h → fits h →
  managed st !! (acct, inst) = Some pos → pos_grid g t 0 h pos →
  Forall (λ op, 0 ≤ fop_qty op ∧ fits (fop_qty op)) ops →
  let st' := foldl (freeze_step g acct inst) st ops in
  let f := foldl (frozen_step h) 0 ops in
  0 ≤ f ≤ h ∧
  (∃ pos', managed st' !! (acct, inst) = Some pos' ∧ pos_grid g t f (h - f) pos') ∧
  (∀ k, k ≠ (acct, inst) → managed st' !! k = managed st !! k) ∧
  ∀ q, 0 ≤ q → fits q →
    is_err (PositionStoreV2.check_and_freeze acct inst (of_grid g q) false st').1
    = (h - f <? q).
Proof.
  intros Hg Hh Hhf Hpos Hgr Hops st' f.
  assert (holds g acct inst t h f st') as Hst'.
  { apply freeze_trace_sim; [done..| |done]. split; [lia|]. exists pos. by rewrite Z.sub_0_r. }
  split_and!; [apply Hst'..| |].
  - intros k Hk. subst st'. clear -Hk. revert st. induction ops as [|op ops IH]; intros st; [done|].
    simpl. rewrite IH. by apply freeze_step_frame.
  - intros q ? ?. eapply freeze_refused; eauto.
Qed.

Definition demo_position (q : Z) : ManagedPositionV2 :=
  (ManagedPositionV2_new 7 3 1 false) <| mp_qty_total := of_grid 0 q |>
    <| mp_qty_available := of_grid 0 q |>.

Lemma freeze_conserves_holding_witness :
  let st := PositionStoreV2.init_positions [demo_position 100] PositionStoreV2.new in
  let st' := foldl (freeze_step 0 7 3) st [OpFreeze 30; OpFreeze 80; OpUnfreeze 50] in
  ∃ pos', managed st' !! (7, 3) = Some pos' ∧ pos_grid 0 100 0 100 pos'.
Proof.
  intros st st'.
  apply (freeze_conserves_holding 0 7 3 100 100 st (demo_position 100)
           [OpFreeze 30; OpFreeze 80; OpUnfreeze 50]).
  - unfold grid_ok; lia.
  - lia.
  - unfold fits; lia.
  - reflexivity.
  - vm_compute. intuition congruence.
  - repeat constructor; vm_compute; congruence.
Defined.

(** ** Fills *)

(** The entry a delta applies to: the stored one, or a fresh one on the side of
    the delta. *)
Definition delta_target (delta : PositionDeltaV2) (st : PositionStoreV2) : ManagedPositionV2 :=
  default (ManagedPositionV2_new (pd_account_id delta) (pd_instrument_id delta) 0
             (pd_is_short delta))
    (managed st !! (pd_account_id delta, pd_instrument_id delta)).

Lemma clamp_le new_avail total :
  f64.is_nan new_avail = false → f64.is_nan total = false →
  fle (if (new_avail >? total)%f64 then total else new_avail) total.
Proof.
  intros Ha Ht. destruct (total <? new_avail)%f64 eqn:E; [by apply fle_refl|].
  destruct (fle_total new_avail total Ha Ht) as [?|?]; [done|]. congruence.
Qed.

(** A fill is an addition on the signed position.  [apply_delta] adds the
    change to the magnitude along the current side; when the sum is negative
    the side flips and the magnitude is its absolute value, so the stored total
    is never negative.  The frozen part is never negative, the available part
    never exceeds the total while the side is kept, and no other entry
    changes. *)
Theorem apply_delta_signed g delta ts st t c :
  grid_ok g →
  let pos := delta_target delta st in
  on_grid g t (mp_qty_total pos) → on_grid g c (pd_total_change delta) → fits (t + c) →
  let key := (pd_account_id delta, pd_instrument_id delta) in
  let st' := PositionStoreV2.apply_delta delta ts st in
  (∃ pos', managed st' !! key = Some pos' ∧
    on_grid g (Z.abs (t + c)) (mp_qty_total pos') ∧
    mp_is_short pos' = xorb (mp_is_short pos) (t + c <? 0) ∧
    fle f64.zero (mp_qty_frozen pos') ∧
    (0 ≤ t + c → f64.is_nan (mp_qty_available pos + pd_avail_change delta)%f64 = false →
     fle (mp_qty_available pos') (mp_qty_total pos')) ∧
    mp_last_local_update_ts pos' = ts) ∧
  ∀ k, k ≠ key → managed st' !! k = managed st !! k.
Proof.
  intros Hg pos Ht Hc Hf key st'. split; [|intros k Hk; simpl; by rewrite lookup_insert_ne].
  eexists. split; [by apply lookup_insert_eq|]. fold (delta_target delta st). fold pos.
  clearbody pos. clear key st'.
  pose proof (grid_add g Hg t c _ _ Ht Hc Hf) as Hs.
  unfold PositionStoreV2.apply_delta_pos. simpl.
  rewrite (grid_ltb g (t + c) 0) by auto using grid_zero.
  destruct (Z.ltb_spec (t + c) 0); simpl; split_and!; try done.
  - by apply grid_abs.
  - apply fmax_zero_nonneg.
  - lia.
  - by rewrite Z.abs_eq.
  - by destruct (mp_is_short pos).
  - apply fmax_zero_nonneg.
  - intros _ ?. apply clamp_le; [done|]. by eapply grid_not_nan.
Qed.

Lemma apply_delta_signed_witness :
  let st := PositionStoreV2.init_positions [demo_position 5] PositionStoreV2.new in
  let delta := mkPositionDeltaV2 7 3 false (of_grid 0 0) (of_grid 0 0) (of_grid 0 (-8)) in
  ∃ pos', managed (PositionStoreV2.apply_delta delta 1000 st) !! (7, 3) = Some pos' ∧
    on_grid 0 3 (mp_qty_total pos') ∧ mp_is_short pos' = true.
Proof.
  intros st delta.
  destruct (apply_delta_signed 0 delta 1000 st 5 (-8)) as [(pos' & Hp & Ht & Hs & _) _].
  - unfold grid_ok; lia.
  - vm_compute; intuition congruence.
  - vm_compute; intuition congruence.
  - unfold fits; lia.
  - exists pos'. auto.
Defined.

(** ** Reconciliation *)

(** One reconciliation round: the managed total and the exchange snapshot at
    that time, and the timestamp of the call. *)
Record observation : Set := mkobservation {
  ob_total : f64;
  ob_exch : option ExchPositionSnapshot;
  ob_ts : Z;
}.

Definition exch_total (s : option ExchPositionSnapshot) : f64 :=
  default f64.zero ((λ s, pos_total_qty (eps_position_state s)) <$> s).

Definition diverges (o : observation) : bool :=
  negb (f64.abs (ob_total o - exch_total (ob_exch o))%f64 <? eps9)%f64.

Definition observe (acct inst : Z) (st : PositionStoreV2) (o : observation)
    : PositionStoreV2 :=
  let key := (acct, inst) in
  let st := st <| managed ::= alter (λ p, p <| mp_qty_total := ob_total o |>) key |> in
  let st := st <| exch ::= partial_alter (λ _, ob_exch o) key |> in
  PositionStoreV2.update_reconcile_status acct inst (ob_ts o) st.

(** The divergent observations since the last matching one, oldest first. *)
Definition divergent_run (obs : list observation) : list observation :=
  foldl (λ run o, if diverges o then run ++ [o] else []) [] obs.

Definition status_of_run (run : list observation) : ReconcileStatus :=
  match run with
  | [] => InSync
  | [_] | [_; _] => DivergedTransient
  | _ => DivergedPersistent
  end.

Definition reconciled (run : list observation) (pos : ManagedPositionV2) : Prop :=
  mp_reconcile_status pos = status_of_run run ∧
  mp_divergence_count pos = Z.of_nat (length run) ∧
  mp_first_diverged_ts pos = default 0 (ob_ts <$> head run).

Definition fresh_status (pos : ManagedPositionV2) : Prop :=
  mp_reconcile_status pos = InSync ∨ mp_reconcile_status pos = Unknown.

Lemma reconcile_step run pos o :
  (run = [] ∧ fresh_status pos ∨ reconciled run pos) →
  Z.of_nat (length run) + 1 < 2 ^ 32 →
  reconciled (if diverges o then run ++ [o] else [])
    (PositionStoreV2.reconcile_pos
       ((λ s, pos_total_qty (eps_position_state s)) <$> ob_exch o) (ob_ts o)
       (pos <| mp_qty_total := ob_total o |>)).
Proof.
  intros Hpos Hlen. unfold diverges, PositionStoreV2.reconcile_pos. simpl.
  change (default f64.zero _) with (exch_total (ob_exch o)).
  destruct (f64.abs _ <? eps9)%f64; simpl; [done|].
  assert (run = [] ∧ fresh_status pos ∨ (∃ a l, run = a :: l) ∧ reconciled run pos) as Hcase.
  { destruct Hpos as [?|Hr]; [by left|]. destruct run as [|a l]; [left|right; eauto].
    split; [done|]. left. apply Hr. }
  clear Hpos. destruct Hcase as [[-> Hfresh]|[(a & l & ->) (Hst & Hct & Hts)]].
  - destruct Hfresh as [E|E]; rewrite E; done.
  - rewrite Hst, bool_decide_false by (by destruct l as [|? [|? ?]]).
    rewrite bool_decide_false by (by destruct l as [|? [|? ?]]). simpl.
    unfold RECONCILE_PERSISTENT_THRESHOLD. rewrite Hct, wrap_u32_small by lia.
    destruct l as [|b [|c l]].
    + simpl. split_and!; simpl; first [done|by rewrite Hct].
    + simpl. split_and!; simpl; first [done|by rewrite Hct].
    + rewrite (proj2 (Z.leb_le _ _)) by (simpl; lia). split_and!; simpl; [done| |done].
      rewrite Hct, length_app, wrap_u32_small; simpl in *; lia.
Qed.

(** The reconcile status counts consecutive divergences.  From a position
    in state [Unknown] or [InSync], after any non-empty sequence of
    reconciliation rounds the status is [InSync] if the last round matched
    within [1e-9], [DivergedPersistent] if the last three or more rounds all
    diverged and [DivergedTransient] otherwise; the divergence count is the
    length of the current run of divergent rounds, and the first-divergence
    timestamp is that of its oldest round. *)
Theorem reconcile_counts_divergences acct inst st pos obs :
  managed st !! (acct, inst) = Some pos → fresh_status pos →
  obs ≠ [] → Z.of_nat (length obs) < 2 ^ 32 →
  let run := divergent_run obs in
  ∃ pos', managed (foldl (observe acct inst) st obs) !! (acct, inst) = Some pos' ∧
    mp_reconcile_status pos' = status_of_run run ∧
    mp_divergence_count pos' = Z.of_nat (length run) ∧
    mp_first_diverged_ts pos' = default 0 (ob_ts <$> head run).
Proof.
  intros Hpos Hfresh Hne Hlen run. subst run.
  assert (∃ pos', managed (foldl (observe acct inst) st obs) !! (acct, inst) = Some pos' ∧
    (obs = [] ∧ fresh_status pos' ∨ reconciled (divergent_run obs) pos') ∧
    (length (divergent_run obs) ≤ length obs)%nat) as (pos' & Hp & [[? _]|Hr] & _);
    [|done|by exists pos'].
  clear Hne. induction obs as [|o obs IH] using rev_ind; [eauto 10|].
  rewrite length_app in Hlen. simpl in Hlen.
  destruct IH as (pos1 & Hp1 & Hr1 & Hl1); [lia|].
  unfold divergent_run. rewrite !foldl_snoc, length_app. fold (divergent_run obs).
  unfold observe at 1, PositionStoreV2.update_reconcile_status. simpl.
  rewrite lookup_alter_eq, Hp1, lookup_partial_alter_eq. simpl.
  eexists. split; [by apply lookup_insert_eq|]. split.
  - right. apply reconcile_step; [|lia]. destruct Hr1 as [[-> ?]|?]; [left|by right]. done.
  - destruct (diverges o); rewrite ?length_app; simpl; lia.
Qed.

Lemma reconcile_counts_divergences_witness :
  let st := PositionStoreV2.init_positions [demo_position 100] PositionStoreV2.new in
  let o ts := mkobservation (of_grid 0 100) None ts in
  ∃ pos', managed (foldl (observe 7 3) st [o 10; o 20; o 30]) !! (7, 3) = Some pos' ∧
    mp_reconcile_status pos' = DivergedPersistent ∧ mp_divergence_count pos' = 3.
Proof.
  intros st o.
  destruct (reconcile_counts_divergences 7 3 st (demo_position 100) [o 10; o 20; o 30])
    as (pos' & Hp & Hs & Hc & _).
  - reflexivity.
  - right; reflexivity.
  - discriminate.
  - simpl; lia.
  - exists pos'. auto.
Defined.
