(* ===== verification/Balance.v ===== *)
(** * Exchange balances ([balance_v2.rs])

    The cache of exchange-reported balances: resolved assets by asset id,
    unresolved ones by name, and the reverse map from exchange account symbols
    to account ids. *)

From S2P Require Import Prelude F64 Proto Models.

Record BalanceStoreV2 : Type := mkBalanceStoreV2 {
  exch_balances : gmap (Z * Z) ExchBalanceSnapshot;
  unknown_exch_balances : gmap (Z * string) ExchBalanceSnapshot;
  account_id_by_exch_account_sym : gmap Z Z;
}.
#[export] Instance eta_BalanceStoreV2 : Eta BalanceStoreV2 := λ r,
  mkBalanceStoreV2 (exch_balances r) (unknown_exch_balances r)
    (account_id_by_exch_account_sym r).

Module BalanceStoreV2.
Definition new : BalanceStoreV2 := mkBalanceStoreV2 ∅ ∅ ∅.

Definition init_balances (balances : list (Z * ExchBalanceSnapshot)) (st : BalanceStoreV2)
    : BalanceStoreV2 :=
  foldl (λ st '(asset_id, snap),
           st <| exch_balances ::= <[(ebs_account_id snap, asset_id) := snap]> |>) st balances.

Definition init_account_reverse_map (map : gmap Z Z) (st : BalanceStoreV2) : BalanceStoreV2 :=
  st <| account_id_by_exch_account_sym := map |>.

Definition get_balance (account_id asset_id : Z) (st : BalanceStoreV2)
    : option ExchBalanceSnapshot :=
  exch_balances st !! (account_id, asset_id).

Definition get_or_create_balance (account_id asset_id : Z) (st : BalanceStoreV2)
    : ExchBalanceSnapshot * BalanceStoreV2 :=
  match exch_balances st !! (account_id, asset_id) with
  | Some snap => (snap, st)
  | None =>
      let snap := mkExchBalanceSnapshot account_id "" None default_Balance "" 0 in
      (snap, st <| exch_balances ::= <[(account_id, asset_id) := snap]> |>)
  end.

Definition resolve_account_id (exch_account_sym : Z) (st : BalanceStoreV2) : option Z :=
  account_id_by_exch_account_sym st !! exch_account_sym.

Definition get_balances_for_account `{!HashIter (Z * Z)} (account_id : Z)
    (st : BalanceStoreV2) : list ExchBalanceSnapshot :=
  (filter (λ kv, kv.1.1 = account_id) (hash_iter (exch_balances st))).*2.

Definition get_unknown_balances_for_account `{!HashIter (Z * string)} (account_id : Z)
    (st : BalanceStoreV2) : list ExchBalanceSnapshot :=
  (filter (λ kv, kv.1.1 = account_id) (hash_iter (unknown_exch_balances st))).*2.

Definition set_balance (account_id asset_id : Z) (snap : ExchBalanceSnapshot)
    (st : BalanceStoreV2) : BalanceStoreV2 :=
  st <| exch_balances ::= <[(account_id, asset_id) := snap]> |>.

Definition set_unknown_balance (account_id : Z) (asset : string) (snap : ExchBalanceSnapshot)
    (st : BalanceStoreV2) : BalanceStoreV2 :=
  st <| unknown_exch_balances ::= <[(account_id, asset) := snap]> |>.

Definition remove_unknown_balance (account_id : Z) (asset : string) (st : BalanceStoreV2)
    : BalanceStoreV2 :=
  st <| unknown_exch_balances ::= delete (account_id, asset) |>.
End BalanceStoreV2.
