(* ===== verification/Config.v ===== *)
(** * OMS configuration ([config.rs])

    [ConfdataManager] resolves the routes, gateways, reference data and trading
    flags of one OMS instance into string-keyed lookup tables.  The string
    mapping [to_uppercase] and the iteration order of the hash tables are
    parameters. *)

From S2P Require Import Prelude F64 Proto.

(** [InstrumentTradingConfig] *)
Record InstrumentTradingConfig : Set := mkInstrumentTradingConfig {
  itc_instrument_code : string;
  itc_bookkeeping_balance : bool;
  itc_balance_check : bool;
  itc_publish_balance_on_trade : bool;
  itc_publish_balance_on_book : bool;
  itc_publish_balance_on_cancel : bool;
  itc_use_margin : bool;
  itc_margin_ratio : f64;
  itc_max_order_size : option f64;
}.
#[export] Instance eta_InstrumentTradingConfig : Eta InstrumentTradingConfig := λ r,
  mkInstrumentTradingConfig (itc_instrument_code r) (itc_bookkeeping_balance r)
    (itc_balance_check r) (itc_publish_balance_on_trade r) (itc_publish_balance_on_book r)
    (itc_publish_balance_on_cancel r) (itc_use_margin r) (itc_margin_ratio r)
    (itc_max_order_size r).

(** [InstrumentTradingConfig::default_for] *)
Definition default_for (instrument_code : string) : InstrumentTradingConfig :=
  mkInstrumentTradingConfig instrument_code false false true false false false
    (f64.of_Z 1) None.

Record ConfdataManager : Type := mkConfdataManager {
  cf_oms_id : string;
  cf_account_routes : gmap Z OmsRouteEntry;
  cf_gw_configs : gmap string GwConfigEntry;
  cf_exch_name_to_gw_keys : gmap string (gset string);
  cf_gw_key_to_account_ids : gmap string (gset Z);
  cf_account_id_to_gw_config : gmap Z GwConfigEntry;
  cf_refdata : gmap string InstrumentRefData;
  cf_refdata_by_gw_key : gmap string (gmap string InstrumentRefData);
  cf_refdata_by_account_id : gmap Z (gmap string InstrumentRefData);
  cf_trading_configs : gmap string InstrumentTradingConfig;
}.

(** [map.entry(k).or_default().insert(k', v)] on a map of maps. *)
Definition insert_at2 {K V} `{Countable K} (k : K) (k' : string) (v : V)
    (m : gmap K (gmap string V)) : gmap K (gmap string V) :=
  <[k := <[k' := v]> (default ∅ (m !! k))]> m.

Module ConfdataManager.
Section new.
Context `{!Uppercase, !HashIter string, !HashIter Z}.

(** The loop that fills the two reference-data indexes for one entry. *)
Definition index_refdata (exch_name_to_gw_keys : gmap string (gset string))
    (route_map : gmap Z OmsRouteEntry)
    (idx : gmap string (gmap string InstrumentRefData) * gmap Z (gmap string InstrumentRefData))
    (ref_entry : InstrumentRefData)
    : gmap string (gmap string InstrumentRefData) * gmap Z (gmap string InstrumentRefData) :=
  let gw_keys_for_exch :=
    default ∅ (exch_name_to_gw_keys !! to_uppercase (rd_exchange_name ref_entry)) in
  foldl (λ '(by_gw, by_acc) gw_key,
    let by_gw := insert_at2 gw_key (rd_instrument_id_exchange ref_entry) ref_entry by_gw in
    let by_acc := foldl (λ by_acc '(acc_id, acc_route),
      if decide (rt_gw_key acc_route = gw_key) then
        insert_at2 acc_id (rd_instrument_id_exchange ref_entry) ref_entry by_acc
      else by_acc) by_acc (hash_iter route_map) in
    (by_gw, by_acc)) idx (set_iter gw_keys_for_exch).

Definition new (oms_config : OmsConfigEntry) (account_routes : list OmsRouteEntry)
    (gw_configs : list GwConfigEntry) (refdata : list InstrumentRefData)
    (trading_configs : list InstrumentTradingConfig) : ConfdataManager :=
  let managed : gset Z := list_to_set (oc_managed_account_ids oms_config) in
  let routes := filter (λ r, rt_account_id r ∈ managed) account_routes in
  let relevant_gw_keys : gset string := list_to_set (rt_gw_key <$> routes) in
  let gw_key_to_config : gmap string GwConfigEntry :=
    collect_map gwc_gw_key id (filter (λ g, gwc_gw_key g ∈ relevant_gw_keys) gw_configs) in
  let exch_name_to_gw_keys : gmap string (gset string) :=
    foldl (λ m '(gw_key, cfg), insert_at (to_uppercase (gwc_exch_name cfg)) gw_key m)
      ∅ (hash_iter gw_key_to_config) in
  let '(route_map, gw_key_to_account_ids, account_id_to_gw_config) :=
    foldl (λ '(rm, ga, ag) r,
      (<[rt_account_id r := r]> rm,
       insert_at (rt_gw_key r) (rt_account_id r) ga,
       match gw_key_to_config !! rt_gw_key r with
       | Some gw_cfg => <[rt_account_id r := gw_cfg]> ag
       | None => ag
       end)) (∅ : gmap Z OmsRouteEntry, ∅ : gmap string (gset Z), ∅ : gmap Z GwConfigEntry)
      routes in
  let refdata_enabled := filter (λ r, negb (rd_disabled r)) refdata in
  let '(refdata_by_gw_key, refdata_by_account_id) :=
    foldl (index_refdata exch_name_to_gw_keys route_map) (∅, ∅) refdata_enabled in
  let refdata_map : gmap string InstrumentRefData :=
    collect_map rd_instrument_id id refdata_enabled in
  let tc_map : gmap string InstrumentTradingConfig :=
    collect_map itc_instrument_code id trading_configs in
  let tc_map := foldl (λ m '(id, _),
      match m !! id with Some _ => m | None => <[id := default_for id]> m end)
    tc_map (hash_iter refdata_map) in
  mkConfdataManager (oc_oms_id oms_config) route_map gw_key_to_config exch_name_to_gw_keys
    gw_key_to_account_ids account_id_to_gw_config refdata_map refdata_by_gw_key
    refdata_by_account_id tc_map.
End new.

Definition get_trading_config (instrument_code : string) (cf : ConfdataManager)
    : outcome InstrumentTradingConfig :=
  unwrap "trading config missing; should have been filled with defaults"
    (cf_trading_configs cf !! instrument_code).
End ConfdataManager.

(** ** What the resolved configuration holds *)

(** The entries of a table built by [collect_map] with the identity. *)
Lemma collect_id_Some {K A} `{Countable K} (key : A → K) (l : list A) k a :
  collect_map key id l !! k = Some a → a ∈ l ∧ key a = k.
Proof.
  rewrite collect_map_lookup. intros (x & Hx & ->)%fmap_Some. by apply last_filter_Some in Hx.
Qed.

(** Filling the gaps of a table with defaults. *)
Lemma fill_defaults_lookup {K V W} `{Countable K} (dflt : K → V) (l : list (K * W))
    (m : gmap K V) k :
  foldl (λ m '(k, _), match m !! k with Some _ => m | None => <[k := dflt k]> m end) m l !! k =
  match m !! k with
  | Some v => Some v
  | None => if decide (k ∈ l.*1) then Some (dflt k) else None
  end.
Proof.
  revert m. induction l as [|[k' w] l IH]; intros m; cbn [foldl].
  { by destruct (m !! k). }
  rewrite IH. destruct (decide (k' = k)) as [->|Hne].
  - destruct (m !! k) as [v|] eqn:E; [by rewrite E|]. rewrite lookup_insert_eq.
    rewrite decide_True by (cbn; set_solver). done.
  - assert (match m !! k' with Some _ => m | None => <[k' := dflt k']> m end !! k = m !! k) as ->.
    { destruct (m !! k'); [done|by rewrite lookup_insert_ne]. }
    destruct (m !! k); [done|]. cbn. destruct (decide (k ∈ l.*1)).
    + by rewrite decide_True by set_solver.
    + by rewrite decide_False by set_solver.
Qed.

(** The route table of [new]: the last managed route of each account. *)
Lemma route_fold_lookup (gws : gmap string GwConfigEntry) routes rm ga ag a :
  (foldl (λ '(rm, ga, ag) r,
      (<[rt_account_id r := r]> rm, insert_at (rt_gw_key r) (rt_account_id r) ga,
       match gws !! rt_gw_key r with
       | Some gw_cfg => <[rt_account_id r := gw_cfg]> ag
       | None => ag
       end)) (rm : gmap Z OmsRouteEntry, ga : gmap string (gset Z), ag : gmap Z GwConfigEntry)
     routes).1.1 !! a =
  match last (filter (λ r, rt_account_id r = a) routes) with Some r => Some r | None => rm !! a end.
Proof.
  rewrite <- (foldl_insert_lookup rt_account_id id).
  revert rm ga ag. induction routes as [|r routes IH]; intros; cbn [foldl]; [done|]. apply IH.
Qed.

(** Configuration resolution.  The resolved configuration keeps, for each
    account, the last route given for it and only for managed accounts;
    gateways only if such a route uses them; reference data only if enabled,
    under its own instrument id; and a trading configuration for every kept
    instrument, the last one given or else the default, so that
    [get_trading_config] never panics for it. *)
Theorem config_resolution `{!Uppercase, !HashIter string, !HashIterOk string, !HashIter Z}
    oms routes gws refdata tcs :
  let cf := ConfdataManager.new oms routes gws refdata tcs in
  let managed_routes := filter (λ r, rt_account_id r ∈ oc_managed_account_ids oms) routes in
  (∀ a, cf_account_routes cf !! a = last (filter (λ r, rt_account_id r = a) managed_routes)) ∧
  (∀ k g, cf_gw_configs cf !! k = Some g →
     g ∈ gws ∧ gwc_gw_key g = k ∧ ∃ r, r ∈ managed_routes ∧ rt_gw_key r = k) ∧
  (∀ id rd, cf_refdata cf !! id = Some rd →
     rd ∈ refdata ∧ rd_disabled rd = false ∧ rd_instrument_id rd = id) ∧
  (∀ id, is_Some (cf_refdata cf !! id) →
     ConfdataManager.get_trading_config id cf =
     Returns (default (default_for id) (last (filter (λ tc, itc_instrument_code tc = id) tcs)))).
Proof.
  intros cf mr. subst cf. unfold ConfdataManager.new.
  set (managed := list_to_set (oc_managed_account_ids oms) : gset Z).
  assert (filter (λ r, rt_account_id r ∈ managed) routes = mr) as ->.
  { apply list_filter_iff. intros r. subst managed. by rewrite elem_of_list_to_set. }
  set (gwm := collect_map gwc_gw_key id _). set (gkm := foldl _ ∅ (hash_iter gwm)).
  pose proof (route_fold_lookup gwm mr ∅ ∅ ∅) as Hroutes.
  destruct (foldl _ (∅, ∅, ∅) mr) as [[rm ga] ag]. cbn in Hroutes.
  destruct (foldl (ConfdataManager.index_refdata gkm rm) _ _) as [bg ba]. cbn.
  split_and!.
  - intros a. rewrite Hroutes. by destruct (last _).
  - intros k g Hk. apply collect_id_Some in Hk as [Hk <-].
    apply list_elem_of_filter in Hk as [Hr Hk]. split_and!; [done..|].
    apply elem_of_list_to_set, list_elem_of_fmap in Hr as (r & -> & Hr). by exists r.
  - intros id rd Hrd. apply collect_id_Some in Hrd as [Hrd <-].
    apply list_elem_of_filter in Hrd as [Hd Hrd]. split_and!; [done| |done].
    by destruct (rd_disabled rd).
  - intros id [rd Hrd]. unfold ConfdataManager.get_trading_config. cbn.
    rewrite fill_defaults_lookup, collect_map_lookup, option_fmap_id.
    destruct (last _) as [tc|]; [done|]. rewrite decide_True; [done|].
    apply list_elem_of_fmap. exists (id, rd). split; [done|]. by apply elem_of_hash_iter.
Qed.

Lemma config_resolution_witness :
  let oms := default_OmsConfigEntry <| oc_managed_account_ids := [7] |> in
  let route a := default_OmsRouteEntry <| rt_account_id := a |> <| rt_gw_key := "GW1" |> in
  let rd := default_InstrumentRefData <| rd_instrument_id := "BTC-USDT" |> in
  let cf := @ConfdataManager.new ascii_uppercase canonical_iter canonical_iter oms
              [route 7; route 8] [] [rd] [] in
  cf_account_routes cf !! 8 = None ∧
  ConfdataManager.get_trading_config "BTC-USDT" cf = Returns (default_for "BTC-USDT").
Proof.
  intros oms route rd cf.
  destruct (@config_resolution ascii_uppercase canonical_iter canonical_iter_ok canonical_iter
    oms [route 7; route 8] [] [rd] []) as (H1 & _ & _ & H4).
  split; [exact (H1 8)|]. apply (H4 "BTC-USDT"). by exists rd.
Defined.
