(* ===== verification/Metadata.v ===== *)
(** * Integer-id metadata tables ([metadata_v2.rs])

    [MetadataTables] turns the string-keyed configuration into vectors indexed
    by [u32] ids and the maps that give the ids.  [from_confdata] builds the
    tables, [rebuild_from_config] reloads them in place.  Each numbered section
    of the two source functions is one definition. *)

From S2P Require Import Prelude F64 Proto Intern Config.

(** [InstrumentMeta] *)
Record InstrumentMeta : Set := mkInstrumentMeta {
  im_instrument_id : Z;
  im_instrument_code_sym : Z;
  im_instrument_exch_sym : Z;
  im_instrument_type : Z;
  im_base_asset_id : option Z;
  im_base_asset_sym : option Z;
  im_quote_asset_id : option Z;
  im_settlement_asset_id : option Z;
  im_qty_precision : Z;
  im_price_precision : Z;
}.

(** [RouteMeta] *)
Record RouteMeta : Set := mkRouteMeta {
  rtm_account_id : Z;
  rtm_gw_id : Z;
  rtm_gw_key_sym : Z;
  rtm_exch_account_sym : Z;
}.

(** [GwMeta] *)
Record GwMeta : Set := mkGwMeta {
  gm_gw_id : Z;
  gm_gw_key_sym : Z;
  gm_exch_name_sym : Z;
  gm_cancel_required_fields : list string;
}.
#[export] Instance eta_GwMeta : Eta GwMeta := λ r,
  mkGwMeta (gm_gw_id r) (gm_gw_key_sym r) (gm_exch_name_sym r) (gm_cancel_required_fields r).

(** [AssetMeta] *)
Record AssetMeta : Set := mkAssetMeta {
  am_asset_id : Z;
  am_asset_sym : Z;
}.

(** [TradingMeta] *)
Record TradingMeta : Set := mkTradingMeta {
  tm_instrument_id : Z;
  tm_bookkeeping_balance : bool;
  tm_balance_check : bool;
  tm_use_margin : bool;
  tm_margin_ratio : f64;
  tm_max_order_size : option f64;
  tm_publish_balance_on_trade : bool;
  tm_publish_balance_on_book : bool;
  tm_publish_balance_on_cancel : bool;
}.

Record MetadataTables : Type := mkMetadataTables {
  md_strings : InternTable;
  md_instruments : list InstrumentMeta;
  md_instrument_by_code : gmap Z Z;
  md_instrument_by_gw_symbol : gmap (Z * Z) Z;
  md_gws : list GwMeta;
  md_gw_by_key : gmap Z Z;
  md_route_by_account : gmap Z RouteMeta;
  md_assets : list AssetMeta;
  md_asset_by_symbol : gmap Z Z;
  md_trading_by_instrument : gmap Z TradingMeta;
}.
#[export] Instance eta_MetadataTables : Eta MetadataTables := λ r,
  mkMetadataTables (md_strings r) (md_instruments r) (md_instrument_by_code r)
    (md_instrument_by_gw_symbol r) (md_gws r) (md_gw_by_key r) (md_route_by_account r)
    (md_assets r) (md_asset_by_symbol r) (md_trading_by_instrument r).

(** [Vec::len() as u32] *)
Definition len_u32 {A} (l : list A) : Z := wrap_u32 (Z.of_nat (length l)).

(** [v\[i as usize\] = x], which panics out of range. *)
Definition vec_set {A} (why : string) (i : Z) (x : A) (l : list A) : outcome (list A) :=
  match l !! Z.to_nat i with
  | Some _ => Returns (<[Z.to_nat i := x]> l)
  | None => Panics why
  end.

Definition trading_meta (inst_id : Z) (tc : InstrumentTradingConfig) : TradingMeta :=
  mkTradingMeta inst_id (itc_bookkeeping_balance tc) (itc_balance_check tc)
    (itc_use_margin tc) (itc_margin_ratio tc) (itc_max_order_size tc)
    (itc_publish_balance_on_trade tc) (itc_publish_balance_on_book tc)
    (itc_publish_balance_on_cancel tc).

Module MetadataTables.
Section tables.
Context `{!Uppercase, !HashIter string, !HashIter Z}.
Implicit Types (md : MetadataTables) (config : ConfdataManager).

Definition empty : MetadataTables :=
  mkMetadataTables InternTable.new [] ∅ ∅ [] ∅ ∅ [] ∅ ∅.

(** [self.strings.intern(s)] *)
Definition intern (s : string) md : Z * MetadataTables :=
  let '(sym, strings) := InternTable.intern s (md_strings md) in
  (sym, md <| md_strings := strings |>).

(** *** [from_confdata] *)

Definition add_gw md (gw_cfg : GwConfigEntry) : MetadataTables :=
  let gw_id := len_u32 (md_gws md) in
  let '(gw_key_sym, md) := intern (gwc_gw_key gw_cfg) md in
  let '(exch_name_sym, md) := intern (gwc_exch_name gw_cfg) md in
  let md := md <| md_gw_by_key ::= <[gw_key_sym := gw_id]> |> in
  md <| md_gws ::= λ v, v ++ [mkGwMeta gw_id gw_key_sym exch_name_sym
                                (gwc_cancel_required_fields gw_cfg)] |>.

Definition add_route md (entry : Z * OmsRouteEntry) : MetadataTables :=
  let '(account_id, route) := entry in
  let '(gw_key_sym, md) := intern (rt_gw_key route) md in
  match md_gw_by_key md !! gw_key_sym with
  | None => md
  | Some gw_id =>
      let '(exch_account_sym, md) := intern (rt_exch_account_id route) md in
      md <| md_route_by_account ::=
        <[account_id := mkRouteMeta account_id gw_id gw_key_sym exch_account_sym]> |>
  end.

Definition ensure_asset (name : string) md : option Z * MetadataTables :=
  if is_empty name then (None, md)
  else
    let '(sym, md) := intern name md in
    match md_asset_by_symbol md !! sym with
    | Some id => (Some id, md)
    | None =>
        let id := len_u32 (md_assets md) in
        let md := md <| md_asset_by_symbol ::= <[sym := id]> |> in
        (Some id, md <| md_assets ::= λ v, v ++ [mkAssetMeta id sym] |>)
    end.

Definition add_assets md (ref_data : InstrumentRefData) : MetadataTables :=
  let md := (ensure_asset (rd_base_asset ref_data) md).2 in
  let md := (ensure_asset (rd_quote_asset ref_data) md).2 in
  (ensure_asset (rd_settlement_asset ref_data) md).2.

(** The asset fields of an instrument: an empty name is no asset. *)
Definition asset_ref (name : string) md : (option Z * option Z) * MetadataTables :=
  if is_empty name then ((None, None), md)
  else
    let '(sym, md) := intern name md in
    ((md_asset_by_symbol md !! sym, Some sym), md).

(** Intern the fields of one reference-data entry and build its [InstrumentMeta]
    for the id that [inst_id] chooses from the code symbol. *)
Definition instrument_meta (ref_data : InstrumentRefData) md
    : (Z → InstrumentMeta) * Z * Z * MetadataTables :=
  let '(code_sym, md) := intern (rd_instrument_id ref_data) md in
  let '(exch_sym, md) := intern (rd_instrument_id_exchange ref_data) md in
  let '((base_asset_id, base_asset_sym), md) := asset_ref (rd_base_asset ref_data) md in
  let '((quote_asset_id, _), md) := asset_ref (rd_quote_asset ref_data) md in
  let '((settlement_asset_id, _), md) := asset_ref (rd_settlement_asset ref_data) md in
  (λ inst_id, mkInstrumentMeta inst_id code_sym exch_sym (rd_instrument_type ref_data)
     base_asset_id base_asset_sym quote_asset_id settlement_asset_id
     (wrap_i32 (rd_qty_precision ref_data)) (wrap_i32 (rd_price_precision ref_data)),
   code_sym, exch_sym, md).

(** Map [(gw_id, exch_sym)] to the instrument for every gateway that serves the
    exchange. *)
Definition index_gw_symbols config (ref_data : InstrumentRefData) (exch_sym inst_id : Z)
    (acc : gmap (Z * Z) Z * MetadataTables) : gmap (Z * Z) Z * MetadataTables :=
  match cf_exch_name_to_gw_keys config !! to_uppercase (rd_exchange_name ref_data) with
  | None => acc
  | Some gw_keys =>
      foldl (λ '(idx, md) gw_key,
        let '(gk_sym, md) := intern gw_key md in
        match md_gw_by_key md !! gk_sym with
        | Some gw_id => (<[(gw_id, exch_sym) := inst_id]> idx, md)
        | None => (idx, md)
        end) acc (set_iter gw_keys)
  end.

Definition add_instrument config md (ref_data : InstrumentRefData) : MetadataTables :=
  let inst_id := len_u32 (md_instruments md) in
  let '(meta, code_sym, exch_sym, md) := instrument_meta ref_data md in
  let md := md <| md_instrument_by_code ::= <[code_sym := inst_id]> |> in
  let md := md <| md_instruments ::= λ v, v ++ [meta inst_id] |> in
  let '(idx, md) := index_gw_symbols config ref_data exch_sym inst_id
                      (md_instrument_by_gw_symbol md, md) in
  md <| md_instrument_by_gw_symbol := idx |>.

Definition add_trading (acc : gmap Z TradingMeta * MetadataTables)
    (entry : string * InstrumentTradingConfig) : gmap Z TradingMeta * MetadataTables :=
  let '(idx, md) := acc in
  let '(instrument_code, tc) := entry in
  let '(code_sym, md) := intern instrument_code md in
  match md_instrument_by_code md !! code_sym with
  | Some inst_id => (<[inst_id := trading_meta inst_id tc]> idx, md)
  | None => (idx, md)
  end.

Definition from_confdata config : MetadataTables :=
  let md := empty in
  let md := foldl add_gw md (hash_iter (cf_gw_configs config)).*2 in
  let md := foldl add_route md (hash_iter (cf_account_routes config)) in
  let md := foldl add_assets md (hash_iter (cf_refdata config)).*2 in
  let md := foldl (add_instrument config) md (hash_iter (cf_refdata config)).*2 in
  let '(idx, md) := foldl add_trading (∅, md) (hash_iter (cf_trading_configs config)) in
  md <| md_trading_by_instrument := idx |>.

(** *** [rebuild_from_config] *)

(** Section 1: [(new_gw_by_key, next_gw_id, self)]. *)
Definition rebuild_gw (acc : gmap Z Z * Z * MetadataTables) (gw_cfg : GwConfigEntry)
    : outcome (gmap Z Z * Z * MetadataTables) :=
  let '(new_gw_by_key, next_gw_id, md) := acc in
  let '(gw_key_sym, md) := intern (gwc_gw_key gw_cfg) md in
  let '(exch_name_sym, md) := intern (gwc_exch_name gw_cfg) md in
  let m := mkGwMeta 0 gw_key_sym exch_name_sym (gwc_cancel_required_fields gw_cfg) in
  match md_gw_by_key md !! gw_key_sym with
  | Some existing_id =>
      let m := m <| gm_gw_id := existing_id |> in
      gws ← vec_set "self.gws[existing_id]" existing_id m (md_gws md);
      mret (<[gw_key_sym := existing_id]> new_gw_by_key, next_gw_id, md <| md_gws := gws |>)
  | None =>
      let id := next_gw_id in
      let m := m <| gm_gw_id := id |> in
      mret (<[gw_key_sym := id]> new_gw_by_key, wrap_u32 (next_gw_id + 1),
            md <| md_gws ::= λ v, v ++ [m] |>)
  end.

(** Section 2: routes against the new gateway ids. *)
Definition rebuild_route (acc : gmap Z RouteMeta * MetadataTables)
    (entry : Z * OmsRouteEntry) : gmap Z RouteMeta * MetadataTables :=
  let '(routes, md) := acc in
  let '(account_id, route) := entry in
  let '(gw_key_sym, md) := intern (rt_gw_key route) md in
  match md_gw_by_key md !! gw_key_sym with
  | None => (routes, md)
  | Some gw_id =>
      let '(exch_account_sym, md) := intern (rt_exch_account_id route) md in
      (<[account_id := mkRouteMeta account_id gw_id gw_key_sym exch_account_sym]> routes, md)
  end.

(** Section 3: [existing_map] is the map taken out of [self]. *)
Definition ensure_asset_stable (existing_map : gmap Z Z) (name : string)
    (acc : gmap Z Z * Z * MetadataTables) : outcome (gmap Z Z * Z * MetadataTables) :=
  let '(new_map, next_id, md) := acc in
  if is_empty name then mret acc
  else
    let '(sym, md) := intern name md in
    match new_map !! sym with
    | Some _ => mret (new_map, next_id, md)
    | None =>
        match existing_map !! sym with
        | Some existing_id =>
            assets ← vec_set "assets[existing_id]" existing_id (mkAssetMeta existing_id sym)
                       (md_assets md);
            mret (<[sym := existing_id]> new_map, next_id, md <| md_assets := assets |>)
        | None =>
            let id := next_id in
            mret (<[sym := id]> new_map, wrap_u32 (next_id + 1),
                  md <| md_assets ::= λ v, v ++ [mkAssetMeta id sym] |>)
        end
    end.

Definition rebuild_assets (existing_map : gmap Z Z) (acc : gmap Z Z * Z * MetadataTables)
    (ref_data : InstrumentRefData) : outcome (gmap Z Z * Z * MetadataTables) :=
  acc ← ensure_asset_stable existing_map (rd_base_asset ref_data) acc;
  acc ← ensure_asset_stable existing_map (rd_quote_asset ref_data) acc;
  ensure_asset_stable existing_map (rd_settlement_asset ref_data) acc.

(** Section 4: [(new_instrument_by_code, instrument_by_gw_symbol, next_inst_id, self)]. *)
Definition rebuild_instrument config
    (acc : gmap Z Z * gmap (Z * Z) Z * Z * MetadataTables) (ref_data : InstrumentRefData)
    : outcome (gmap Z Z * gmap (Z * Z) Z * Z * MetadataTables) :=
  let '(new_by_code, by_gw, next_inst_id, md) := acc in
  let '(meta, code_sym, exch_sym, md) := instrument_meta ref_data md in
  '(inst_id, next_inst_id, md) ←
    match md_instrument_by_code md !! code_sym with
    | Some existing_id =>
        insts ← vec_set "self.instruments[existing_id]" existing_id (meta existing_id)
                  (md_instruments md);
        mret (existing_id, next_inst_id, md <| md_instruments := insts |>)
    | None =>
        let id := next_inst_id in
        mret (id, wrap_u32 (next_inst_id + 1),
              md <| md_instruments ::= λ v, v ++ [meta id] |>)
    end;
  let new_by_code := <[code_sym := inst_id]> new_by_code in
  let '(by_gw, md) := index_gw_symbols config ref_data exch_sym inst_id (by_gw, md) in
  mret (new_by_code, by_gw, next_inst_id, md).

Definition rebuild_from_config config md : outcome MetadataTables :=
  '(new_gw_by_key, _, md) ←
    for_each rebuild_gw (hash_iter (cf_gw_configs config)).*2 (∅, len_u32 (md_gws md), md);
  let md := md <| md_gw_by_key := new_gw_by_key |> in
  let '(route_by_account, md) :=
    foldl rebuild_route (∅, md) (hash_iter (cf_account_routes config)) in
  let old_asset_map := md_asset_by_symbol md in
  let md := md <| md_asset_by_symbol := ∅ |> in
  '(new_asset_by_symbol, _, md) ←
    for_each (rebuild_assets old_asset_map) (hash_iter (cf_refdata config)).*2
      (∅, len_u32 (md_assets md), md);
  let md := md <| md_asset_by_symbol := new_asset_by_symbol |> in
  '(new_instrument_by_code, instrument_by_gw_symbol, _, md) ←
    for_each (rebuild_instrument config) (hash_iter (cf_refdata config)).*2
      (∅, ∅, len_u32 (md_instruments md), md);
  let md := md <| md_instrument_by_code := new_instrument_by_code |> in
  let md := md <| md_instrument_by_gw_symbol := instrument_by_gw_symbol |> in
  let '(trading_by_instrument, md) :=
    foldl add_trading (∅, md) (hash_iter (cf_trading_configs config)) in
  let md := md <| md_route_by_account := route_by_account |> in
  mret (md <| md_trading_by_instrument := trading_by_instrument |>).
End tables.

(** *** Lookups *)

Definition resolve_instrument (instrument_code : string) (md : MetadataTables)
    : option InstrumentMeta :=
  code_sym ← InternTable.lookup (md_strings md) instrument_code;
  inst_id ← md_instrument_by_code md !! code_sym;
  md_instruments md !! Z.to_nat inst_id.

Definition resolve_instrument_by_gw (gw_id : Z) (exch_symbol : string) (md : MetadataTables)
    : option InstrumentMeta :=
  sym ← InternTable.lookup (md_strings md) exch_symbol;
  inst_id ← md_instrument_by_gw_symbol md !! (gw_id, sym);
  md_instruments md !! Z.to_nat inst_id.

Definition route (account_id : Z) (md : MetadataTables) : option RouteMeta :=
  md_route_by_account md !! account_id.
Definition trading (instrument_id : Z) (md : MetadataTables) : option TradingMeta :=
  md_trading_by_instrument md !! instrument_id.
Definition gw (gw_id : Z) (md : MetadataTables) : option GwMeta :=
  md_gws md !! Z.to_nat gw_id.
Definition instrument (instrument_id : Z) (md : MetadataTables) : option InstrumentMeta :=
  md_instruments md !! Z.to_nat instrument_id.
Definition asset (asset_id : Z) (md : MetadataTables) : option AssetMeta :=
  md_assets md !! Z.to_nat asset_id.
Definition str_resolve (id : Z) (md : MetadataTables) : outcome string :=
  InternTable.resolve (md_strings md) id.
End MetadataTables.
