(* ===== verification/MetadataFacts.v ===== *)
(** * Metadata tables: safety ([metadata_v2.rs])

    - [meta_safe]: every symbol stored in the tables resolves and every index
      entry is a position of its vector; established by [from_confdata],
      preserved by interning and by reloads, which therefore never panic. *)

From S2P Require Import Prelude F64 Proto Intern Config Metadata.

(** ** Safety *)

(** All symbols of [md] are below [n]; all ids are positions. *)
Record meta_bounded (n : Z) (md : MetadataTables) : Prop := {
  mb_insts im : im ∈ md_instruments md →
    0 ≤ im_instrument_code_sym im < n ∧ 0 ≤ im_instrument_exch_sym im < n;
  mb_gws g : g ∈ md_gws md → 0 ≤ gm_gw_key_sym g < n;
  mb_routes a r : md_route_by_account md !! a = Some r → 0 ≤ rtm_exch_account_sym r < n;
  mb_assets a : a ∈ md_assets md → 0 ≤ am_asset_sym a < n;
  mb_gw_ids s id : md_gw_by_key md !! s = Some id → 0 ≤ id < Z.of_nat (length (md_gws md));
  mb_asset_ids s id : md_asset_by_symbol md !! s = Some id →
    0 ≤ id < Z.of_nat (length (md_assets md));
  mb_inst_ids s id : md_instrument_by_code md !! s = Some id →
    0 ≤ id < Z.of_nat (length (md_instruments md));
}.

Definition sym_count (md : MetadataTables) : Z := Z.of_nat (length (strs_by_id (md_strings md))).

Record meta_safe (md : MetadataTables) : Prop := {
  ms_strings : table_sound (md_strings md);
  ms_bounded : meta_bounded (sym_count md) md;
}.

Definition sym_ok (md : MetadataTables) (sym : Z) : Prop := 0 ≤ sym < sym_count md.

Lemma meta_bounded_mono n n' md : n ≤ n' → meta_bounded n md → meta_bounded n' md.
Proof.
  intros Hn [H1 H2 H3 H4 H5 H6 H7]. split; eauto.
  - intros im Him. specialize (H1 im Him). lia.
  - intros g Hgw. specialize (H2 g Hgw). lia.
  - intros a r Hr. specialize (H3 a r Hr). lia.
  - intros a Ha. specialize (H4 a Ha). lia.
Qed.

Lemma sym_resolves md sym : sym_ok md sym → ∃ s, MetadataTables.str_resolve sym md = Returns s.
Proof.
  intros Hs. unfold sym_ok, sym_count in Hs.
  unfold MetadataTables.str_resolve, InternTable.resolve, InternTable.try_resolve.
  destruct (lookup_lt_is_Some_2 (strs_by_id (md_strings md)) (Z.to_nat sym)) as [s ->]; [lia|].
  by exists s.
Qed.

(** Interning changes nothing but the string table, which it extends. *)
Record interned (md md' : MetadataTables) (sym : Z) : Prop := {
  in_frame : md' = md <| md_strings := md_strings md' |>;
  in_ext : table_ext (md_strings md) (md_strings md');
  in_count : sym_count md ≤ sym_count md';
  in_sym : sym_ok md' sym;
  in_safe : meta_safe md';
}.

Lemma intern_spec s md :
  meta_safe md → let '(sym, md') := MetadataTables.intern s md in interned md md' sym.
Proof.
  intros [Hsound Hb]. unfold MetadataTables.intern. pose proof (proj1 Hsound) as Hs.
  pose proof (intern_sound s _ Hsound) as Hs'. pose proof (intern_ext s (md_strings md)) as Hext.
  pose proof (intern_resolves s _ Hs) as Hres.
  assert (0 ≤ (InternTable.intern s (md_strings md)).1 ∧
    Z.of_nat (length (strs_by_id (md_strings md))) ≤
    Z.of_nat (length (strs_by_id (InternTable.intern s (md_strings md)).2))) as [Hpos Hlen].
  { unfold InternTable.intern. destruct (ids_by_str _ !! s) as [i|] eqn:E; simpl.
    - apply Hs in E. lia.
    - rewrite length_app. pose proof (wrap_u32_range (Z.of_nat (length (strs_by_id (md_strings md))))).
      lia. }
  simpl in *. destruct (InternTable.intern s (md_strings md)) as [sym strings]. simpl in *.
  split; try done.
  - apply lookup_lt_is_Some in Hres. unfold sym_ok, sym_count. simpl in *. lia.
  - split; [done|]. apply (meta_bounded_mono (sym_count md)); [done|].
    destruct Hb. by split.
Qed.

(** Used after [destruct (MetadataTables.intern ...)]: the frame rewrites every
    other projection. *)
Lemma interned_fields md md' sym :
  interned md md' sym →
  md_instruments md' = md_instruments md ∧ md_instrument_by_code md' = md_instrument_by_code md ∧
  md_instrument_by_gw_symbol md' = md_instrument_by_gw_symbol md ∧
  md_gws md' = md_gws md ∧ md_gw_by_key md' = md_gw_by_key md ∧
  md_route_by_account md' = md_route_by_account md ∧ md_assets md' = md_assets md ∧
  md_asset_by_symbol md' = md_asset_by_symbol md ∧
  md_trading_by_instrument md' = md_trading_by_instrument md.
Proof. intros [-> _ _ _ _]. done. Qed.

Tactic Notation "intern_step" ident(md') ident(sym) ident(H) :=
  match goal with
  | Hs : meta_safe ?md |- context [MetadataTables.intern ?s ?md] =>
      pose proof (intern_spec s md Hs) as H;
      destruct (MetadataTables.intern s md) as [sym md']
  end.

Lemma len_u32_bound {A} (l : list A) : 0 ≤ len_u32 l ≤ Z.of_nat (length l).
Proof.
  unfold len_u32. pose proof (wrap_u32_range (Z.of_nat (length l))).
  pose proof (wrap_u32_le (Z.of_nat (length l))). lia.
Qed.

(** Growing a vector keeps the ids of its index in range. *)
Lemma ids_app {A} (m : gmap Z Z) (l k : list A) :
  (∀ s id, m !! s = Some id → 0 ≤ id < Z.of_nat (length l)) →
  ∀ s id, m !! s = Some id → 0 ≤ id < Z.of_nat (length (l ++ k)).
Proof. intros H s id Hid. rewrite length_app. specialize (H s id Hid). lia. Qed.

Lemma ids_insert {A} (m : gmap Z Z) (l : list A) x sym id0 :
  (∀ s id, m !! s = Some id → 0 ≤ id < Z.of_nat (length l)) →
  0 ≤ id0 ≤ Z.of_nat (length l) →
  ∀ s id, <[sym := id0]> m !! s = Some id → 0 ≤ id < Z.of_nat (length (l ++ [x])).
Proof.
  intros H H0 s id. rewrite length_app, lookup_insert_Some. simpl.
  intros [[_ <-]|[_ Hid%H]]; lia.
Qed.

Section safety.
Context `{!Uppercase, !HashIter string, !HashIter Z}.
Implicit Types (md : MetadataTables).

Lemma meta_safe_empty : meta_safe MetadataTables.empty.
Proof.
  split; [|split; set_solver]. split; [done|]. intros _. by apply table_wf_empty.
Qed.

Lemma push_gw_safe md id sym nsym fields :
  meta_safe md → sym_ok md sym → 0 ≤ id ≤ Z.of_nat (length (md_gws md)) →
  meta_safe (md <| md_gw_by_key ::= <[sym := id]> |>
                <| md_gws ::= λ v, v ++ [mkGwMeta id sym nsym fields] |>).
Proof.
  intros [Hs [H1 H2 H3 H4 H5 H6 H7]] Hsym Hid. split; [done|]. split; cbn; auto.
  - intros g [?|E%list_elem_of_singleton]%elem_of_app; [auto|by subst].
  - by apply ids_insert.
Qed.

Lemma add_gw_safe md cfg : meta_safe md → meta_safe (MetadataTables.add_gw md cfg).
Proof.
  intros Hs. unfold MetadataTables.add_gw. pose proof (len_u32_bound (md_gws md)) as Hid.
  intern_step md1 sym1 H1. destruct (interned_fields _ _ _ H1) as (_ & _ & _ & Eg1 & _).
  destruct H1 as [_ _ Hc1 Hs1 Hsafe1]. intern_step md2 sym2 H2.
  destruct (interned_fields _ _ _ H2) as (_ & _ & _ & Eg2 & _).
  destruct H2 as [_ _ Hc2 Hs2 Hsafe2].
  apply push_gw_safe; [done|unfold sym_ok in *; lia|]. by rewrite Eg2, Eg1.
Qed.

Lemma add_route_safe md entry : meta_safe md → meta_safe (MetadataTables.add_route md entry).
Proof.
  intros Hs. destruct entry as [acct route]. unfold MetadataTables.add_route.
  intern_step md1 sym1 H1. destruct H1 as [_ _ _ _ Hsafe1].
  destruct (md_gw_by_key md1 !! sym1) as [gw|]; [|done].
  intern_step md2 sym2 H2. destruct H2 as [_ _ _ Hs2 Hsafe2].
  destruct Hsafe2 as [Ht [B1 B2 B3 B4 B5 B6 B7]]. split; [done|]. split; cbn; auto.
  intros a r [[_ <-]|[_ ?]]%lookup_insert_Some; [done|by eapply B3].
Qed.

Lemma ensure_asset_safe name md :
  meta_safe md → meta_safe (MetadataTables.ensure_asset name md).2.
Proof.
  intros Hs. unfold MetadataTables.ensure_asset. destruct (is_empty name); [done|].
  intern_step md1 sym1 H1. destruct H1 as [_ _ _ Hs1 Hsafe1].
  destruct (md_asset_by_symbol md1 !! sym1); [done|].
  destruct Hsafe1 as [Ht [B1 B2 B3 B4 B5 B6 B7]]. split; [done|]. split; cbn; auto.
  - intros a [?|E%list_elem_of_singleton]%elem_of_app; [auto|by subst].
  - apply ids_insert; [done|apply len_u32_bound].
Qed.

Lemma add_assets_safe md rd : meta_safe md → meta_safe (MetadataTables.add_assets md rd).
Proof. intros. by apply ensure_asset_safe, ensure_asset_safe, ensure_asset_safe. Qed.

(** The frame of the interning helpers: only strings are added. *)
Record only_interns (md md' : MetadataTables) : Prop := {
  oi_frame : md' = md <| md_strings := md_strings md' |>;
  oi_ext : table_ext (md_strings md) (md_strings md');
  oi_count : sym_count md ≤ sym_count md';
  oi_safe : meta_safe md';
}.

Lemma interned_only md md' sym : interned md md' sym → only_interns md md'.
Proof. by intros []. Qed.

Lemma only_interns_trans md1 md2 md3 :
  only_interns md1 md2 → only_interns md2 md3 → only_interns md1 md3.
Proof.
  intros [E1 X1 C1 _] [E2 X2 C2 S2]. split; [|by etrans|lia|done].
  by rewrite E2, E1.
Qed.

Lemma only_interns_refl md : meta_safe md → only_interns md md.
Proof. by destruct md; split. Qed.

Lemma only_interns_resolve md md' sym s :
  only_interns md md' → MetadataTables.str_resolve sym md = Returns s →
  MetadataTables.str_resolve sym md' = Returns s.
Proof.
  intros [_ Hx _ _]. specialize (Hx sym). unfold MetadataTables.str_resolve, InternTable.resolve.
  unfold st_resolve in Hx. cbn in Hx. unfold InternTable.try_resolve.
  destruct (_ !! _) as [s'|] eqn:E; [|done]. cbn. intros [= ->]. by rewrite (Hx s).
Qed.

Lemma asset_ref_spec name md :
  meta_safe md → only_interns md (MetadataTables.asset_ref name md).2.
Proof.
  intros Hs. unfold MetadataTables.asset_ref. destruct (is_empty name);
    [by apply only_interns_refl|].
  intern_step md1 sym1 H1. by eapply interned_only.
Qed.

Lemma instrument_meta_spec rd md :
  meta_safe md →
  let '(meta, code_sym, exch_sym, md') := MetadataTables.instrument_meta rd md in
  only_interns md md' ∧ sym_ok md' code_sym ∧ sym_ok md' exch_sym ∧
  ∀ id, im_instrument_id (meta id) = id ∧ im_instrument_code_sym (meta id) = code_sym ∧
        im_instrument_exch_sym (meta id) = exch_sym.
Proof.
  intros Hs. unfold MetadataTables.instrument_meta.
  intern_step md1 code_sym H1. pose proof (interned_only _ _ _ H1) as O1.
  destruct H1 as [_ _ _ Hs1 Hsafe1].
  intern_step md2 exch_sym H2. pose proof (interned_only _ _ _ H2) as O2.
  destruct H2 as [_ _ Hc2 Hs2 Hsafe2].
  pose proof (asset_ref_spec (rd_base_asset rd) md2 Hsafe2) as O3.
  destruct (MetadataTables.asset_ref _ md2) as [[b1 b2] md3]. cbn in O3.
  pose proof (asset_ref_spec (rd_quote_asset rd) md3 (oi_safe _ _ O3)) as O4.
  destruct (MetadataTables.asset_ref _ md3) as [[q1 q2] md4]. cbn in O4.
  pose proof (asset_ref_spec (rd_settlement_asset rd) md4 (oi_safe _ _ O4)) as O5.
  destruct (MetadataTables.asset_ref _ md4) as [[s1 s2] md5]. cbn in O5.
  pose proof (oi_count _ _ O3). pose proof (oi_count _ _ O4). pose proof (oi_count _ _ O5).
  split_and!; try done.
  - do 4 (eapply only_interns_trans; [eassumption|]). done.
  - unfold sym_ok in *. lia.
  - unfold sym_ok in *. lia.
Qed.

Lemma index_gw_symbols_spec config rd exch_sym inst_id idx md :
  meta_safe md →
  only_interns md (MetadataTables.index_gw_symbols config rd exch_sym inst_id (idx, md)).2.
Proof.
  intros Hs. unfold MetadataTables.index_gw_symbols.
  destruct (cf_exch_name_to_gw_keys config !! _) as [keys|]; [|by apply only_interns_refl].
  generalize (set_iter keys). intros l. revert idx md Hs.
  induction l as [|k l IH]; intros idx md Hs; [by apply only_interns_refl|]. cbn [foldl].
  intern_step md1 sym1 H1. pose proof (interned_only _ _ _ H1) as O1.
  eapply only_interns_trans; [exact O1|].
  destruct (md_gw_by_key md1 !! sym1); apply IH, O1.
Qed.

Lemma push_instrument_safe md id meta code_sym :
  meta_safe md → sym_ok md (im_instrument_code_sym meta) → sym_ok md (im_instrument_exch_sym meta) →
  0 ≤ id ≤ Z.of_nat (length (md_instruments md)) →
  meta_safe (md <| md_instrument_by_code ::= <[code_sym := id]> |>
                <| md_instruments ::= λ v, v ++ [meta] |>).
Proof.
  intros [Hs [H1 H2 H3 H4 H5 H6 H7]] Hc He Hid. split; [done|]. split; cbn; auto.
  - intros im [?|E%list_elem_of_singleton]%elem_of_app; [auto|by subst].
  - by apply ids_insert.
Qed.

(** Tables that [meta_safe] does not mention. *)
Lemma meta_safe_indexes md by_gw trading :
  meta_safe md →
  meta_safe (md <| md_instrument_by_gw_symbol := by_gw |> <| md_trading_by_instrument := trading |>).
Proof. intros [Hs []]. by split; [|split]. Qed.

Lemma add_instrument_safe config md rd :
  meta_safe md → meta_safe (MetadataTables.add_instrument config md rd).
Proof.
  intros Hs. unfold MetadataTables.add_instrument.
  pose proof (len_u32_bound (md_instruments md)) as Hid.
  pose proof (instrument_meta_spec rd md Hs) as Hm.
  destruct (MetadataTables.instrument_meta rd md) as [[[meta code_sym] exch_sym] md1].
  destruct Hm as (O1 & Hc & He & Hmeta). pose proof (oi_frame _ _ O1) as E1.
  destruct (Hmeta (len_u32 (md_instruments md))) as (_ & Ec & Ee).
  set (md2 := _ <| md_instruments ::= _ |>).
  assert (meta_safe md2) as Hs2.
  { apply push_instrument_safe; [apply O1|by rewrite Ec|by rewrite Ee|]. by rewrite E1. }
  pose proof (index_gw_symbols_spec config rd exch_sym (len_u32 (md_instruments md))
    (md_instrument_by_gw_symbol md2) md2 Hs2) as O3.
  destruct (MetadataTables.index_gw_symbols _ _ _ _ _) as [idx md3]. cbn in O3.
  pose proof (meta_safe_indexes md3 idx (md_trading_by_instrument md3) (oi_safe _ _ O3)) as Hs3.
  by destruct md3.
Qed.

Lemma add_trading_spec idx md entry :
  meta_safe md → only_interns md (MetadataTables.add_trading (idx, md) entry).2.
Proof.
  intros Hs. destruct entry as [code tc]. unfold MetadataTables.add_trading.
  intern_step md1 sym1 H1. pose proof (interned_only _ _ _ H1) as O1.
  by destruct (md_instrument_by_code md1 !! sym1).
Qed.

Lemma add_tradings_spec idx md l :
  meta_safe md → only_interns md (foldl MetadataTables.add_trading (idx, md) l).2.
Proof.
  intros Hs. apply (foldl_inv (λ acc, only_interns md acc.2)); [by apply only_interns_refl|].
  intros [idx' md'] e _ O. eapply only_interns_trans; [exact O|]. apply add_trading_spec, O.
Qed.

Lemma from_confdata_safe config : meta_safe (MetadataTables.from_confdata config).
Proof.
  unfold MetadataTables.from_confdata.
  set (md4 := foldl (MetadataTables.add_instrument config) _ _).
  assert (meta_safe md4) as Hs4.
  { apply foldl_inv; [|intros; by apply add_instrument_safe].
    apply foldl_inv; [|intros; by apply add_assets_safe].
    apply foldl_inv; [|intros; by apply add_route_safe].
    apply foldl_inv; [apply meta_safe_empty|intros; by apply add_gw_safe]. }
  pose proof (add_tradings_spec ∅ md4 (hash_iter (cf_trading_configs config)) Hs4) as O5.
  destruct (foldl MetadataTables.add_trading _ _) as [idx md5]. cbn in O5.
  pose proof (meta_safe_indexes md5 (md_instrument_by_gw_symbol md5) idx (oi_safe _ _ O5)) as Hs5.
  by destruct md5.
Qed.
End safety.
