(* ===== verification/MetadataReload.v ===== *)
(** * Config reloads keep ids ([metadata_v2.rs], [rebuild_from_config])

    A reload reuses the string table and, per table, the id of every key it
    already indexes; new keys are appended.  The three loops (gateways, assets,
    instruments) follow one scheme, proved once: [reuse_inv] is its invariant,
    [reuse_hit] and [reuse_push] its two branches. *)

From S2P Require Import Prelude F64 Proto Intern Config Metadata MetadataFacts.

Section reuse.
Context {A : Type} (key : A → Z).
Implicit Types (l : list A) (m : gmap Z Z).

(** The index sends a key to a position that holds it. *)
Definition idx_ok m l : Prop :=
  ∀ s id, m !! s = Some id → 0 ≤ id ∧ ∃ x, l !! Z.to_nat id = Some x ∧ key x = s.

(** Every position keeps its key. *)
Definition vec_ext l l' : Prop :=
  ∀ i x, l !! i = Some x → ∃ x', l' !! i = Some x' ∧ key x' = key x.

#[export] Instance vec_ext_preorder : PreOrder vec_ext.
Proof.
  split; [intros l i x; eauto|]. intros l1 l2 l3 H12 H23 i x Hx.
  destruct (H12 i x Hx) as (y & Hy & Ey). destruct (H23 i y Hy) as (z & Hz & Ez).
  exists z. split; [done|congruence].
Qed.

Lemma idx_ok_bound m l s id :
  idx_ok m l → m !! s = Some id → 0 ≤ id < Z.of_nat (length l).
Proof. intros Hi [? (x & Hx & _)]%Hi. apply lookup_lt_Some in Hx. lia. Qed.

(** The invariant of a rebuild loop that started from the vector [l0] with the
    index [old]. *)
Record reuse_inv (old : gmap Z Z) l0 (new : gmap Z Z) (next : Z) l : Prop := {
  ri_ext : vec_ext l0 l;
  ri_next : next = len_u32 l;
  ri_bound s id : new !! s = Some id → 0 ≤ id < Z.of_nat (length l);
  ri_agree s id id' : new !! s = Some id → old !! s = Some id' → id = id';
  ri_idx : Z.of_nat (length l) ≤ 2 ^ 32 → idx_ok new l;
}.

Lemma reuse_start old l0 : reuse_inv old l0 ∅ (len_u32 l0) l0.
Proof. split; try done. Qed.

Lemma reuse_hit why old l0 new next l sym id x :
  idx_ok old l0 → reuse_inv old l0 new next l → old !! sym = Some id → key x = sym →
  returns (vec_set why id x l) (λ l',
    reuse_inv old l0 (<[sym := id]> new) next l' ∧ length l' = length l ∧
    ∀ y, y ∈ l' → y ∈ l ∨ y = x).
Proof.
  intros Hold [Hext Hnext Hb Hag Hidx] Hid Hx.
  destruct (Hold sym id Hid) as [Hpos (x0 & Hx0 & Ek0)].
  destruct (Hext _ _ Hx0) as (y & Hy & Ey). unfold vec_set. rewrite Hy. simpl.
  pose proof (lookup_lt_Some _ _ _ Hy) as Hlt. split_and!.
  - split; rewrite ?length_insert.
    + etrans; [exact Hext|]. intros i z Hz. destruct (decide (i = Z.to_nat id)) as [->|Hne].
      * exists x. rewrite list_lookup_insert_eq by done. split; [done|congruence].
      * exists z. by rewrite list_lookup_insert_ne.
    + unfold len_u32 in *. by rewrite length_insert.
    + intros s i [[_ <-]|[_ ?%Hb]]%lookup_insert_Some; lia.
    + intros s i i' [[<- <-]|[_ ?]]%lookup_insert_Some Hi'; [congruence|by eapply Hag].
    + intros Hlen s i [[<- <-]|[Hs Hi]]%lookup_insert_Some.
      * split; [done|]. exists x. by rewrite list_lookup_insert_eq.
      * destruct (Hidx Hlen s i Hi) as [Hp (z & Hz & Ez)]. split; [done|].
        destruct (decide (Z.to_nat i = Z.to_nat id)) as [E|Hne].
        -- exfalso. apply Hs. rewrite E in Hz. congruence.
        -- exists z. by rewrite list_lookup_insert_ne.
  - by rewrite length_insert.
  - intros z (i & Hz)%list_elem_of_lookup. destruct (decide (i = Z.to_nat id)) as [->|Hne].
    + rewrite list_lookup_insert_eq in Hz by done. right. congruence.
    + rewrite list_lookup_insert_ne in Hz by done. left. by eapply list_elem_of_lookup_2.
Qed.

Lemma len_u32_snoc l x : len_u32 (l ++ [x]) = wrap_u32 (len_u32 l + 1).
Proof.
  unfold len_u32, wrap_u32. rewrite length_app. simpl.
  by rewrite Zplus_mod_idemp_l, Nat2Z.inj_add.
Qed.

Lemma reuse_push old l0 new next l sym x :
  reuse_inv old l0 new next l → old !! sym = None → key x = sym →
  reuse_inv old l0 (<[sym := next]> new) (wrap_u32 (next + 1)) (l ++ [x]).
Proof.
  intros [Hext -> Hb Hag Hidx] Hold Hx. pose proof (len_u32_bound l) as Hlen. split.
  - etrans; [exact Hext|]. intros i z Hz. exists z. split; [|done]. by apply lookup_app_l_Some.
  - by rewrite len_u32_snoc.
  - by apply ids_insert.
  - intros s i i' [[<- <-]|[_ ?]]%lookup_insert_Some Hi'; [congruence|by eapply Hag].
  - rewrite length_app. simpl. intros Hl s i [[<- <-]|[_ Hi]]%lookup_insert_Some.
    + split; [apply Hlen|]. exists x. split; [|done]. unfold len_u32.
      rewrite wrap_u32_small, Nat2Z.id by lia. apply list_lookup_middle. done.
    + destruct (Hidx ltac:(lia) s i Hi) as [Hp (z & Hz & Ez)]. split; [done|].
      exists z. split; [|done]. by apply lookup_app_l_Some.
Qed.
End reuse.

Record meta_indexed (md : MetadataTables) : Prop := {
  mi_gws : idx_ok gm_gw_key_sym (md_gw_by_key md) (md_gws md);
  mi_assets : idx_ok am_asset_sym (md_asset_by_symbol md) (md_assets md);
  mi_insts : idx_ok im_instrument_code_sym (md_instrument_by_code md) (md_instruments md);
}.

Section loops.
Context `{!Uppercase, !HashIter string, !HashIter Z}.
Implicit Types (md : MetadataTables).

(** *** Gateways *)

Definition gw_loop md0 (acc : gmap Z Z * Z * MetadataTables) : Prop :=
  let '(new, next, md) := acc in
  meta_safe md ∧ table_ext (md_strings md0) (md_strings md) ∧
  md = md0 <| md_strings := md_strings md |> <| md_gws := md_gws md |> ∧
  reuse_inv gm_gw_key_sym (md_gw_by_key md0) (md_gws md0) new next (md_gws md).

(** Replacing the gateway vector by one of the same or larger length. *)
Lemma set_gws_safe md gws :
  meta_safe md → (∀ g, g ∈ gws → g ∈ md_gws md ∨ sym_ok md (gm_gw_key_sym g)) →
  (length (md_gws md) ≤ length gws)%nat → meta_safe (md <| md_gws := gws |>).
Proof.
  intros [Hs [H1 H2 H3 H4 H5 H6 H7]] Hg Hlen. split; [done|]. split; cbn; auto.
  - intros g [?|?]%Hg; auto.
  - intros s id Hid. specialize (H5 s id Hid). lia.
Qed.

Lemma rebuild_gw_inv md0 acc cfg :
  idx_ok gm_gw_key_sym (md_gw_by_key md0) (md_gws md0) → gw_loop md0 acc →
  returns (MetadataTables.rebuild_gw acc cfg) (gw_loop md0).
Proof.
  destruct acc as [[new next] md]. intros Hold (Hs & Hext & Hfr & Hinv).
  unfold MetadataTables.rebuild_gw.
  intern_step md1 sym1 H1. destruct H1 as [E1 X1 C1 Y1 S1].
  intern_step md2 sym2 H2. destruct H2 as [E2 X2 C2 Y2 S2].
  assert (md_gw_by_key md2 = md_gw_by_key md0) as Eby by (by rewrite E2, E1, Hfr).
  assert (md_gws md2 = md_gws md) as Egw by (by rewrite E2, E1).
  assert (sym_ok md2 sym1) as Hsym by (unfold sym_ok in *; lia).
  assert (table_ext (md_strings md0) (md_strings md2)) as Hx2 by (do 2 (etrans; [eassumption|]); done).
  assert (∀ gws, md2 <| md_gws := gws |> =
    md0 <| md_strings := md_strings md2 |> <| md_gws := gws |>) as Hfr2.
  { intros gws. by rewrite E2, E1, Hfr. }
  rewrite Eby. destruct (md_gw_by_key md0 !! sym1) as [id|] eqn:Eid.
  - apply returns_bind. rewrite Egw. eapply returns_mono; [by eapply reuse_hit|].
    intros gws (Hr & Hlen & Hel). apply returns_ret.
    split_and!; [|done|by rewrite <- Hfr2|done].
    apply set_gws_safe; [done| |by rewrite Egw, Hlen].
    intros g [Hg| ->]%Hel; [by left; rewrite Egw|by right].
  - apply returns_ret. split_and!; [|done| |].
    + apply (set_gws_safe md2 (md_gws md2 ++ [_])); [done| |rewrite length_app; lia].
      intros g [?|E%list_elem_of_singleton]%elem_of_app; [by left|right; by subst].
    + by rewrite <- Hfr2.
    + cbn. rewrite Egw. by apply reuse_push.
Qed.

(** *** Routes *)

Lemma rebuild_routes_spec md l :
  meta_safe md →
  let '(routes, md') := foldl MetadataTables.rebuild_route (∅, md) l in
  only_interns md md' ∧ ∀ a r, routes !! a = Some r → sym_ok md' (rtm_exch_account_sym r).
Proof.
  intros Hs.
  assert (∀ acc : gmap Z RouteMeta * MetadataTables,
    acc = foldl MetadataTables.rebuild_route (∅, md) l →
    only_interns md acc.2 ∧
    ∀ a r, acc.1 !! a = Some r → sym_ok acc.2 (rtm_exch_account_sym r)) as H0.
  { intros acc ->. apply (foldl_inv (λ acc, only_interns md acc.2 ∧
      ∀ a r, acc.1 !! a = Some r → sym_ok acc.2 (rtm_exch_account_sym r))).
    { split; [by apply only_interns_refl|done]. }
    intros [routes md1] [acct route] _ [O1 Hr]. cbn in O1, Hr. pose proof (oi_safe _ _ O1) as S1.
    unfold MetadataTables.rebuild_route.
    intern_step md2 sym2 H2. pose proof (interned_only _ _ _ H2) as O2.
    destruct H2 as [_ _ C2 _ S2].
    destruct (md_gw_by_key md2 !! sym2) as [gw|].
    - intern_step md3 sym3 H3. pose proof (interned_only _ _ _ H3) as O3.
      destruct H3 as [_ _ C3 Y3 S3]. split; [by do 2 (eapply only_interns_trans; [eassumption|])|].
      cbn. intros a r [[_ <-]|[_ Hl]]%lookup_insert_Some; [done|].
      apply Hr in Hl. unfold sym_ok in *. lia.
    - split; [by eapply only_interns_trans|]. cbn. intros a r Hl%Hr. unfold sym_ok in *. lia. }
  specialize (H0 _ eq_refl). by destruct (foldl _ _ _) as [routes md'].
Qed.

(** *** Assets *)

Definition asset_loop (old : gmap Z Z) md0 (acc : gmap Z Z * Z * MetadataTables) : Prop :=
  let '(new, next, md) := acc in
  meta_safe md ∧ table_ext (md_strings md0) (md_strings md) ∧
  md = md0 <| md_strings := md_strings md |> <| md_assets := md_assets md |> ∧
  reuse_inv am_asset_sym old (md_assets md0) new next (md_assets md).

Lemma set_assets_safe md assets :
  meta_safe md → (∀ a, a ∈ assets → a ∈ md_assets md ∨ sym_ok md (am_asset_sym a)) →
  (length (md_assets md) ≤ length assets)%nat → meta_safe (md <| md_assets := assets |>).
Proof.
  intros [Hs [H1 H2 H3 H4 H5 H6 H7]] Ha Hlen. split; [done|]. split; cbn; auto.
  - intros a [?|?]%Ha; auto.
  - intros s id Hid. specialize (H6 s id Hid). lia.
Qed.

Lemma ensure_asset_stable_inv old md0 acc name :
  idx_ok am_asset_sym old (md_assets md0) → asset_loop old md0 acc →
  returns (MetadataTables.ensure_asset_stable old name acc) (asset_loop old md0).
Proof.
  destruct acc as [[new next] md]. intros Hold Hacc. pose proof Hacc as (Hs & Hext & Hfr & Hinv).
  unfold MetadataTables.ensure_asset_stable. destruct (is_empty name); [done|].
  intern_step md1 sym1 H1. destruct H1 as [E1 X1 C1 Y1 S1].
  assert (md_assets md1 = md_assets md) as Ea by (by rewrite E1).
  assert (table_ext (md_strings md0) (md_strings md1)) as Hx1 by (by etrans).
  assert (∀ assets, md1 <| md_assets := assets |> =
    md0 <| md_strings := md_strings md1 |> <| md_assets := assets |>) as Hfr1.
  { intros assets. by rewrite E1, Hfr. }
  destruct (new !! sym1) as [id|].
  { apply returns_ret. split_and!; [done..|by rewrite <- Hfr1; destruct md1|by rewrite Ea]. }
  destruct (old !! sym1) as [id|] eqn:Eid.
  - apply returns_bind. rewrite Ea. eapply returns_mono; [by eapply reuse_hit|].
    intros assets (Hr & Hlen & Hel). apply returns_ret.
    split_and!; [|done|by rewrite <- Hfr1|done].
    apply set_assets_safe; [done| |by rewrite Ea, Hlen].
    intros a [Ha| ->]%Hel; [by left; rewrite Ea|by right].
  - apply returns_ret. split_and!; [|done| |].
    + apply (set_assets_safe md1 (md_assets md1 ++ [_])); [done| |rewrite length_app; lia].
      intros a [?|E%list_elem_of_singleton]%elem_of_app; [by left|right; by subst].
    + by rewrite <- Hfr1.
    + cbn. rewrite Ea. by apply reuse_push.
Qed.

Lemma rebuild_assets_inv old md0 acc rd :
  idx_ok am_asset_sym old (md_assets md0) → asset_loop old md0 acc →
  returns (MetadataTables.rebuild_assets old acc rd) (asset_loop old md0).
Proof.
  intros Hold Hacc. unfold MetadataTables.rebuild_assets.
  apply returns_bind. eapply returns_mono; [by apply ensure_asset_stable_inv|]. intros acc1 H1.
  apply returns_bind. eapply returns_mono; [by apply ensure_asset_stable_inv|]. intros acc2 H2.
  by apply ensure_asset_stable_inv.
Qed.

(** *** Instruments *)

Definition inst_loop md0 (acc : gmap Z Z * gmap (Z * Z) Z * Z * MetadataTables) : Prop :=
  let '(new, _, next, md) := acc in
  meta_safe md ∧ table_ext (md_strings md0) (md_strings md) ∧
  md = md0 <| md_strings := md_strings md |> <| md_instruments := md_instruments md |> ∧
  reuse_inv im_instrument_code_sym (md_instrument_by_code md0) (md_instruments md0) new next
    (md_instruments md).

Lemma set_insts_safe md insts :
  meta_safe md →
  (∀ im, im ∈ insts → im ∈ md_instruments md ∨
     sym_ok md (im_instrument_code_sym im) ∧ sym_ok md (im_instrument_exch_sym im)) →
  (length (md_instruments md) ≤ length insts)%nat →
  meta_safe (md <| md_instruments := insts |>).
Proof.
  intros [Hs [H1 H2 H3 H4 H5 H6 H7]] Ha Hlen. split; [done|]. split; cbn; auto.
  - intros im [?|?]%Ha; auto.
  - intros s id Hid. specialize (H7 s id Hid). lia.
Qed.

Lemma rebuild_instrument_inv config md0 acc rd :
  idx_ok im_instrument_code_sym (md_instrument_by_code md0) (md_instruments md0) →
  inst_loop md0 acc →
  returns (MetadataTables.rebuild_instrument config acc rd) (inst_loop md0).
Proof.
  destruct acc as [[[new by_gw] next] md]. intros Hold (Hs & Hext & Hfr & Hinv).
  unfold MetadataTables.rebuild_instrument.
  pose proof (instrument_meta_spec rd md Hs) as Hm.
  destruct (MetadataTables.instrument_meta rd md) as [[[meta code_sym] exch_sym] md1].
  destruct Hm as ([E1 X1 C1 S1] & Hc & He & Hmeta).
  assert (md_instrument_by_code md1 = md_instrument_by_code md0) as Eby by (by rewrite E1, Hfr).
  assert (md_instruments md1 = md_instruments md) as Ei by (by rewrite E1).
  assert (∀ insts, md1 <| md_instruments := insts |> =
    md0 <| md_strings := md_strings md1 |> <| md_instruments := insts |>) as Hfr1.
  { intros insts. by rewrite E1, Hfr. }
  rewrite Eby. apply returns_bind.
  eapply (returns_mono _ (λ '(id, next', md2),
    meta_safe md2 ∧ (∃ insts, md2 = md1 <| md_instruments := insts |>) ∧
    reuse_inv im_instrument_code_sym (md_instrument_by_code md0) (md_instruments md0)
      (<[code_sym := id]> new) next' (md_instruments md2))).
  - destruct (md_instrument_by_code md0 !! code_sym) as [id|] eqn:Eid.
    + apply returns_bind. rewrite Ei. destruct (Hmeta id) as (_ & Mc & Me).
      eapply returns_mono; [by eapply reuse_hit|]. intros insts (Hr & Hlen & Hel).
      apply returns_ret. split_and!; [|by eexists|done].
      apply set_insts_safe; [done| |by rewrite Ei, Hlen].
      intros im [?| ->]%Hel; [by left; rewrite Ei|right; by rewrite Mc, Me].
    + apply returns_ret. destruct (Hmeta next) as (_ & Mc & Me). split_and!.
      * apply (set_insts_safe md1 (md_instruments md1 ++ [_])); [done| |rewrite length_app; lia].
        intros im [?|E%list_elem_of_singleton]%elem_of_app; [by left|right].
        subst im. by rewrite Mc, Me.
      * by eexists.
      * cbn. rewrite Ei. by apply reuse_push.
  - intros [[id next'] md2] (S2 & [insts ->] & Hr).
    pose proof (index_gw_symbols_spec config rd exch_sym id by_gw _ S2) as O3.
    destruct (MetadataTables.index_gw_symbols _ _ _ _ _) as [by_gw' md3]. cbn in O3.
    destruct O3 as [E3 X3 C3 S3]. apply returns_ret. split_and!.
    + done.
    + etrans; [exact Hext|]. by etrans.
    + rewrite E3, Hfr1. done.
    + rewrite E3. exact Hr.
Qed.
End loops.

(** ** The reload theorem *)

(** The names ids stand for. *)
Definition gw_name (id : Z) (md : MetadataTables) : option string :=
  g ← MetadataTables.gw id md; InternTable.try_resolve (md_strings md) (gm_gw_key_sym g).
Definition asset_name (id : Z) (md : MetadataTables) : option string :=
  a ← MetadataTables.asset id md; InternTable.try_resolve (md_strings md) (am_asset_sym a).
Definition inst_name (id : Z) (md : MetadataTables) : option string :=
  i ← MetadataTables.instrument id md;
  InternTable.try_resolve (md_strings md) (im_instrument_code_sym i).

(** Two indexes agree on the keys they share. *)
Definition same_ids (m m' : gmap Z Z) : Prop :=
  ∀ s id id', m !! s = Some id → m' !! s = Some id' → id = id'.

Record ids_kept (md md' : MetadataTables) : Prop := {
  ik_gw id s : gw_name id md = Some s → gw_name id md' = Some s;
  ik_asset id s : asset_name id md = Some s → asset_name id md' = Some s;
  ik_inst id s : inst_name id md = Some s → inst_name id md' = Some s;
  ik_gw_idx : same_ids (md_gw_by_key md) (md_gw_by_key md');
  ik_asset_idx : same_ids (md_asset_by_symbol md) (md_asset_by_symbol md');
  ik_inst_idx : same_ids (md_instrument_by_code md) (md_instrument_by_code md');
}.

Definition u32_sized (md : MetadataTables) : Prop :=
  Z.of_nat (length (md_gws md)) ≤ 2 ^ 32 ∧ Z.of_nat (length (md_assets md)) ≤ 2 ^ 32 ∧
  Z.of_nat (length (md_instruments md)) ≤ 2 ^ 32.

Lemma sym_ok_ext md md' sym :
  table_ext (md_strings md) (md_strings md') → sym_ok md sym → sym_ok md' sym.
Proof.
  intros Hext [Hp Hlt]. split; [done|]. unfold sym_count in *.
  destruct (lookup_lt_is_Some_2 (strs_by_id (md_strings md)) (Z.to_nat sym)) as [s Hs]; [lia|].
  apply (Hext sym) in Hs. apply lookup_lt_Some in Hs. simpl in Hs. lia.
Qed.

Lemma name_kept {A} (key : A → Z) (l l' : list A) (t t' : InternTable) id s :
  vec_ext key l l' → table_ext t t' →
  (x ← l !! Z.to_nat id; InternTable.try_resolve t (key x)) = Some s →
  (x ← l' !! Z.to_nat id; InternTable.try_resolve t' (key x)) = Some s.
Proof.
  intros Hv Ht (x & Hx & Hs)%bind_Some. destruct (Hv _ _ Hx) as (x' & Hx' & E).
  rewrite Hx'. cbn. rewrite E. by apply Ht.
Qed.

Section reload.
Context `{!Uppercase, !HashIter string, !HashIter Z}.

(** The state after the gateway and route sections. *)
Definition after_routes (md : MetadataTables) (ngw : gmap Z Z) (md2 : MetadataTables) : Prop :=
  meta_safe md2 ∧ table_ext (md_strings md) (md_strings md2) ∧
  (∃ nx, reuse_inv gm_gw_key_sym (md_gw_by_key md) (md_gws md) ngw nx (md_gws md2)) ∧
  md2 = md <| md_strings := md_strings md2 |> <| md_gws := md_gws md2 |> <| md_gw_by_key := ngw |>.

Lemma routes_stage config md ngw nx1 md1 :
  gw_loop md (ngw, nx1, md1) →
  let '(routes, md2) := foldl MetadataTables.rebuild_route (∅, md1 <| md_gw_by_key := ngw |>)
                          (hash_iter (cf_account_routes config)) in
  after_routes md ngw md2 ∧
  ∀ a r, routes !! a = Some r → sym_ok md2 (rtm_exch_account_sym r).
Proof.
  intros (S1 & X1 & F1 & R1). set (md1' := md1 <| md_gw_by_key := ngw |>).
  assert (meta_safe md1') as S1'.
  { destruct S1 as [T [B1 B2 B3 B4 B5 B6 B7]]. split; [done|]. split; cbn; auto. apply R1. }
  pose proof (rebuild_routes_spec md1' (hash_iter (cf_account_routes config)) S1') as Hr.
  destruct (foldl MetadataTables.rebuild_route _ _) as [routes md2].
  destruct Hr as ([F2 X2 C2 S2] & Hroutes). split; [|done]. split_and!.
  - done.
  - by etrans.
  - exists nx1. by rewrite F2.
  - rewrite F2. subst md1'. cbn. by rewrite F1.
Qed.

(** The state after the asset section, from [md2] on. *)
Lemma assets_stage config md ngw md2 :
  idx_ok am_asset_sym (md_asset_by_symbol md) (md_assets md) → after_routes md ngw md2 →
  returns (for_each (MetadataTables.rebuild_assets (md_asset_by_symbol md2))
             (hash_iter (cf_refdata config)).*2
             (∅, len_u32 (md_assets (md2 <| md_asset_by_symbol := ∅ |>)),
              md2 <| md_asset_by_symbol := ∅ |>))
    (λ '(nas, nx, md3),
       let md3' := md3 <| md_asset_by_symbol := nas |> in
       meta_safe md3' ∧ table_ext (md_strings md2) (md_strings md3) ∧
       reuse_inv am_asset_sym (md_asset_by_symbol md) (md_assets md) nas nx (md_assets md3) ∧
       md3' = md2 <| md_strings := md_strings md3 |> <| md_assets := md_assets md3 |>
                  <| md_asset_by_symbol := nas |>).
Proof.
  intros Ia (S2 & X2 & _ & F2).
  assert (md_assets md2 = md_assets md ∧ md_asset_by_symbol md2 = md_asset_by_symbol md)
    as [Ea Em] by (by rewrite F2).
  set (md2' := md2 <| md_asset_by_symbol := ∅ |>).
  assert (meta_safe md2') as S2'.
  { destruct S2 as [T [B1 B2 B3 B4 B5 B6 B7]]. by split; [|split]. }
  rewrite Em. eapply returns_mono.
  { apply (returns_for_each (asset_loop (md_asset_by_symbol md) md2')).
    - split_and!; [done..|by destruct md2|]. cbn. rewrite Ea. apply reuse_start.
    - intros acc rd _. apply rebuild_assets_inv. cbn. by rewrite Ea. }
  intros [[nas nx] md3] (S3 & X3 & F3 & R3). cbn in R3. rewrite Ea in R3. split_and!.
  - destruct S3 as [T [B1 B2 B3 B4 B5 B6 B7]]. split; [done|]. split; cbn; auto. apply R3.
  - done.
  - done.
  - by rewrite F3.
Qed.

Lemma trading_stage config md4 routes :
  meta_safe md4 → (∀ a r, routes !! a = Some r → sym_ok md4 (rtm_exch_account_sym r)) →
  let '(trading, md5) := foldl MetadataTables.add_trading (∅, md4)
                           (hash_iter (cf_trading_configs config)) in
  meta_safe (md5 <| md_route_by_account := routes |> <| md_trading_by_instrument := trading |>) ∧
  only_interns md4 md5.
Proof.
  intros S4 Hr.
  pose proof (add_tradings_spec ∅ md4 (hash_iter (cf_trading_configs config)) S4) as O5.
  destruct (foldl MetadataTables.add_trading _ _) as [trading md5]. cbn in O5. split; [|done].
  destruct O5 as [_ _ C5 [T [B1 B2 B3 B4 B5 B6 B7]]].
  split; [done|]. split; cbn; auto. intros a r Hl%Hr. unfold sym_ok in Hl.
  change (sym_count (_ <| md_trading_by_instrument := _ |>)) with (sym_count md5). lia.
Qed.

Lemma rebuild_returns config md :
  meta_safe md → meta_indexed md →
  returns (MetadataTables.rebuild_from_config config md)
    (λ md', meta_safe md' ∧ ids_kept md md' ∧ (u32_sized md' → meta_indexed md')).
Proof.
  intros Hs [Ig Ia Ii]. unfold MetadataTables.rebuild_from_config.
  apply returns_bind. eapply returns_mono.
  { apply (returns_for_each (gw_loop md)); [|intros acc cfg _; by apply rebuild_gw_inv].
    split_and!; [done..|by destruct md|apply reuse_start]. }
  intros [[ngw nx1] md1] H1. pose proof (routes_stage config md ngw nx1 md1 H1) as H2.
  destruct (foldl MetadataTables.rebuild_route _ _) as [routes md2].
  destruct H2 as [H2 Hroutes]. apply returns_bind.
  eapply returns_mono; [by apply (assets_stage config md ngw)|].
  intros [[nas nx3] md3] (S3 & X3 & R3 & F3). cbn zeta in S3, F3.
  set (md3' := md3 <| md_asset_by_symbol := nas |>) in *.
  destruct H2 as (S2 & X2 & [nx R2] & F2).
  assert (md_instruments md3' = md_instruments md ∧
    md_instrument_by_code md3' = md_instrument_by_code md) as [Fi Fi'] by (by rewrite F3, F2).
  assert (md_gws md3' = md_gws md2 ∧ md_gw_by_key md3' = ngw ∧ md_assets md3' = md_assets md3 ∧
    md_asset_by_symbol md3' = nas ∧ md_strings md3' = md_strings md3)
    as (Fg & Fg' & Fa & Fa' & Fs) by (by rewrite F3, F2).
  clearbody md3'.
  apply returns_bind. eapply returns_mono.
  { apply (returns_for_each (inst_loop md3')).
    - split_and!; [done..|by destruct md3'|apply reuse_start].
    - intros acc rd _. apply rebuild_instrument_inv. by rewrite Fi, Fi'. }
  intros [[[nin bygw] nx4] md4] (S4 & X4 & F4 & R4). rewrite Fi, Fi' in R4. rewrite Fs in X4.
  set (md4' := md4 <| md_instrument_by_code := nin |> <| md_instrument_by_gw_symbol := bygw |>).
  assert (meta_safe md4') as S4'.
  { destruct S4 as [T [B1 B2 B3 B4 B5 B6 B7]]. split; [done|]. split; cbn; auto. apply R4. }
  pose proof (trading_stage config md4' routes S4') as H5.
  destruct (foldl MetadataTables.add_trading _ _) as [trading md5].
  destruct H5 as [S5 [F5 X5 _ _]].
  { intros a r Hr%Hroutes. apply (sym_ok_ext md2); [|done]. cbn. by trans (md_strings md3). }
  apply returns_ret. split; [done|].
  assert (table_ext (md_strings md) (md_strings md5)) as X.
  { etrans; [exact X2|]. etrans; [exact X3|]. etrans; [exact X4|]. exact X5. }
  assert (md_gws md5 = md_gws md2 ∧ md_gw_by_key md5 = ngw ∧ md_assets md5 = md_assets md3 ∧
    md_asset_by_symbol md5 = nas ∧ md_instruments md5 = md_instruments md4 ∧
    md_instrument_by_code md5 = nin) as (G1 & G2 & G3 & G4 & G5 & G6).
  { rewrite F5. subst md4'. cbn. rewrite F4. cbn. by rewrite Fg, Fg', Fa, Fa'. }
  split.
  - split; unfold gw_name, asset_name, inst_name, MetadataTables.gw, MetadataTables.asset,
      MetadataTables.instrument; cbn; rewrite ?G1, ?G2, ?G3, ?G4, ?G5, ?G6.
    + intros id s. apply name_kept; [apply R2|done].
    + intros id s. apply name_kept; [apply R3|done].
    + intros id s. apply name_kept; [apply R4|done].
    + intros s id id' ? ?. symmetry. by eapply (ri_agree _ _ _ _ _ _ R2).
    + intros s id id' ? ?. symmetry. by eapply (ri_agree _ _ _ _ _ _ R3).
    + intros s id id' ? ?. symmetry. by eapply (ri_agree _ _ _ _ _ _ R4).
  - unfold u32_sized. cbn. rewrite G1, G3, G5. intros (L1 & L2 & L3).
    split; cbn; rewrite ?G1, ?G2, ?G3, ?G4, ?G5, ?G6.
    + by apply (ri_idx _ _ _ _ _ _ R2).
    + by apply (ri_idx _ _ _ _ _ _ R3).
    + by apply (ri_idx _ _ _ _ _ _ R4).
Qed.
End reload.

(** ** Fresh tables are indexed *)

Lemma idx_push {A} (key : A → Z) (m : gmap Z Z) (l : list A) x sym :
  (Z.of_nat (length l) ≤ 2 ^ 32 → idx_ok key m l) → key x = sym →
  Z.of_nat (length (l ++ [x])) ≤ 2 ^ 32 → idx_ok key (<[sym := len_u32 l]> m) (l ++ [x]).
Proof.
  intros Hi Hx Hlen. rewrite length_app in Hlen. simpl in Hlen.
  assert (reuse_inv key ∅ [] m (len_u32 l) l) as Hr.
  { specialize (Hi ltac:(lia)). split; try done. intros s id. by apply idx_ok_bound with key. }
  apply (ri_idx key ∅ [] _ (wrap_u32 (len_u32 l + 1))); [by apply reuse_push|].
  rewrite length_app. simpl. lia.
Qed.

Definition indexed_if_sized (md : MetadataTables) : Prop := u32_sized md → meta_indexed md.

Section fresh.
Context `{!Uppercase, !HashIter string, !HashIter Z}.
Implicit Types (md : MetadataTables).

(** Interning leaves the indexes alone. *)
Lemma only_interns_indexed md md' :
  only_interns md md' → indexed_if_sized md → indexed_if_sized md'.
Proof. intros [E _ _ _] Hi Hsz. rewrite E in *. destruct (Hi Hsz). by split. Qed.

Lemma add_gw_indexed md cfg :
  meta_safe md → indexed_if_sized md → indexed_if_sized (MetadataTables.add_gw md cfg).
Proof.
  intros Hs Hi. unfold MetadataTables.add_gw.
  intern_step md1 sym1 H1. pose proof (interned_only _ _ _ H1) as O1. destruct H1 as [E1 _ _ _ S1].
  intern_step md2 sym2 H2. pose proof (interned_only _ _ _ H2) as O2. destruct H2 as [E2 _ _ _ S2].
  assert (md_gws md = md_gws md2) as -> by (by rewrite E2, E1).
  pose proof (only_interns_indexed _ _ O2 (only_interns_indexed _ _ O1 Hi)) as Hi2.
  intros (L1 & L2 & L3). cbn in L1, L2, L3.
  assert (meta_indexed md2) as [I1 I2 I3].
  { apply Hi2. rewrite length_app in L1. split_and!; lia. }
  split; cbn; [by apply idx_push|done..].
Qed.

Lemma add_route_indexed md e :
  meta_safe md → indexed_if_sized md → indexed_if_sized (MetadataTables.add_route md e).
Proof.
  intros Hs Hi. destruct e as [acct route]. unfold MetadataTables.add_route.
  intern_step md1 sym1 H1. pose proof (interned_only _ _ _ H1) as O1. destruct H1 as [E1 _ _ _ S1].
  pose proof (only_interns_indexed _ _ O1 Hi) as Hi1.
  destruct (md_gw_by_key md1 !! sym1); [|done].
  intern_step md2 sym2 H2. pose proof (interned_only _ _ _ H2) as O2.
  intros Hsz. destruct (only_interns_indexed _ _ O2 Hi1 Hsz). by split.
Qed.

Lemma ensure_asset_indexed name md :
  meta_safe md → indexed_if_sized md → indexed_if_sized (MetadataTables.ensure_asset name md).2.
Proof.
  intros Hs Hi. unfold MetadataTables.ensure_asset. destruct (is_empty name); [done|].
  intern_step md1 sym1 H1. pose proof (interned_only _ _ _ H1) as O1.
  pose proof (only_interns_indexed _ _ O1 Hi) as Hi1.
  destruct (md_asset_by_symbol md1 !! sym1); [done|].
  intros (L1 & L2 & L3). cbn in L1, L2, L3.
  assert (meta_indexed md1) as [I1 I2 I3].
  { apply Hi1. rewrite length_app in L2. split_and!; lia. }
  split; cbn; [done|by apply idx_push|done].
Qed.

Lemma add_assets_indexed md rd :
  meta_safe md → indexed_if_sized md → indexed_if_sized (MetadataTables.add_assets md rd).
Proof.
  intros Hs Hi. unfold MetadataTables.add_assets.
  do 3 (apply ensure_asset_indexed; [repeat apply ensure_asset_safe; done|]). done.
Qed.

Lemma add_instrument_indexed config md rd :
  meta_safe md → indexed_if_sized md →
  indexed_if_sized (MetadataTables.add_instrument config md rd).
Proof.
  intros Hs Hi. unfold MetadataTables.add_instrument.
  pose proof (instrument_meta_spec rd md Hs) as Hm.
  destruct (MetadataTables.instrument_meta rd md) as [[[meta code_sym] exch_sym] md1].
  destruct Hm as (O1 & Hc & He & Hmeta).
  pose proof (only_interns_indexed _ _ O1 Hi) as Hi1. pose proof (oi_frame _ _ O1) as E1.
  assert (md_instruments md = md_instruments md1) as -> by (by rewrite E1).
  pose proof (len_u32_bound (md_instruments md1)) as Hid.
  destruct (Hmeta (len_u32 (md_instruments md1))) as (_ & Ec & Ee).
  set (md2 := _ <| md_instruments ::= _ |>).
  assert (meta_safe md2) as Hs2.
  { apply push_instrument_safe; [apply O1|by rewrite Ec|by rewrite Ee|done]. }
  assert (indexed_if_sized md2) as Hi2.
  { intros (L1 & L2 & L3). cbn in L1, L2, L3. assert (meta_indexed md1) as [I1 I2 I3].
    { apply Hi1. rewrite length_app in L3. split_and!; lia. }
    split; cbn; [done..|by apply idx_push]. }
  pose proof (index_gw_symbols_spec config rd exch_sym (len_u32 (md_instruments md1))
    (md_instrument_by_gw_symbol md2) md2 Hs2) as O3.
  destruct (MetadataTables.index_gw_symbols _ _ _ _ _) as [idx md3]. cbn in O3.
  intros Hsz. destruct (only_interns_indexed _ _ O3 Hi2 Hsz). by split.
Qed.

Lemma from_confdata_indexed config : indexed_if_sized (MetadataTables.from_confdata config).
Proof.
  unfold MetadataTables.from_confdata.
  set (md4 := foldl (MetadataTables.add_instrument config) _ _).
  assert (meta_safe md4 ∧ indexed_if_sized md4) as [S4 I4].
  { apply (foldl_inv (λ md, meta_safe md ∧ indexed_if_sized md));
      [|intros ??? []; split; [by apply add_instrument_safe|by apply add_instrument_indexed]].
    apply (foldl_inv (λ md, meta_safe md ∧ indexed_if_sized md));
      [|intros ??? []; split; [by apply add_assets_safe|by apply add_assets_indexed]].
    apply (foldl_inv (λ md, meta_safe md ∧ indexed_if_sized md));
      [|intros ??? []; split; [by apply add_route_safe|by apply add_route_indexed]].
    apply (foldl_inv (λ md, meta_safe md ∧ indexed_if_sized md));
      [|intros ??? []; split; [by apply add_gw_safe|by apply add_gw_indexed]].
    split; [apply meta_safe_empty|]. by split. }
  pose proof (add_tradings_spec ∅ md4 (hash_iter (cf_trading_configs config)) S4) as O5.
  destruct (foldl MetadataTables.add_trading _ _) as [idx md5]. cbn in O5.
  intros Hsz. destruct (only_interns_indexed _ _ O5 I4 Hsz). by split.
Qed.
End fresh.
