(* ===== verification/MetadataFresh.v ===== *)
(** * A fresh build is a reload of empty tables ([metadata_v2.rs])

    [from_confdata] and [rebuild_from_config] are two copies of the same five
    sections, one that builds and one that reuses ids.  On empty tables they
    compute the same thing, so what is proved of a reload holds of a fresh
    build.  Each section has one lemma that runs the two loops in step. *)

From S2P Require Import Prelude F64 Proto Intern Config Metadata MetadataFacts MetadataReload.

Section fresh_is_reload.
Context `{!Uppercase, !HashIter string, !HashIter Z}.
Implicit Types (md : MetadataTables).

(** Run the two sides over one element: expose the interning they share. *)
Local Ltac intern_both :=
  unfold MetadataTables.intern; cbn;
  repeat match goal with
         | |- context [InternTable.intern ?s ?t] =>
             destruct (InternTable.intern s t) as [? ?] eqn:?; cbn
         end.

Lemma gws_in_step l new md :
  md_gw_by_key md = ∅ →
  ∃ new' md', for_each MetadataTables.rebuild_gw l (new, len_u32 (md_gws md), md)
      = Returns (new', len_u32 (md_gws md'), md') ∧
    foldl MetadataTables.add_gw (md <| md_gw_by_key := new |>) l = md' <| md_gw_by_key := new' |> ∧
    md' = md <| md_strings := md_strings md' |> <| md_gws := md_gws md' |>.
Proof.
  revert new md. induction l as [|cfg l IH]; intros new md Hnone; cbn [for_each foldl].
  { exists new, md. split_and!; [done..|by destruct md]. }
  destruct md as [strs insts bycode bygw gws gwk routes assets bysym trading].
  cbn in Hnone. subst gwk. unfold MetadataTables.rebuild_gw, MetadataTables.add_gw.
  intern_both. rewrite lookup_empty. cbn.
  rewrite <- (len_u32_snoc gws (mkGwMeta (len_u32 gws) z z0 (gwc_cancel_required_fields cfg))).
  edestruct (IH (<[z := len_u32 gws]> new) (mkMetadataTables i0 insts bycode bygw
    (gws ++ [mkGwMeta (len_u32 gws) z z0 (gwc_cancel_required_fields cfg)]) ∅ routes assets bysym
    trading) eq_refl) as (new' & md' & E1 & E2 & E3).
  exists new', md'. split_and!; [exact E1|exact E2|]. by rewrite E3.
Qed.

Lemma routes_in_step l routes md :
  let '(routes', md') := foldl MetadataTables.rebuild_route (routes, md) l in
  foldl MetadataTables.add_route (md <| md_route_by_account := routes |>) l
    = md' <| md_route_by_account := routes' |> ∧
  md' = md <| md_strings := md_strings md' |>.
Proof.
  revert routes md. induction l as [|[acct route] l IH]; intros routes md; cbn [foldl].
  { split; [done|by destruct md]. }
  destruct md as [strs insts bycode bygw gws gwk routes0 assets bysym trading].
  unfold MetadataTables.rebuild_route at 2, MetadataTables.add_route at 2.
  intern_both. destruct (gwk !! z) as [gw|] eqn:Egw; cbn.
  - intern_both.
    specialize (IH (<[acct := mkRouteMeta acct gw z z0]> routes)
      (mkMetadataTables i0 insts bycode bygw gws gwk routes0 assets bysym trading)).
    destruct (foldl MetadataTables.rebuild_route _ l) as [routes' md'].
    destruct IH as [E1 E2]. split; [exact E1|]. by rewrite E2.
  - specialize (IH routes (mkMetadataTables i insts bycode bygw gws gwk routes0 assets bysym trading)).
    destruct (foldl MetadataTables.rebuild_route _ l) as [routes' md'].
    destruct IH as [E1 E2]. split; [exact E1|]. by rewrite E2.
Qed.

(** From here on the fresh side already has its routes. *)
Definition asset_step (routes : gmap Z RouteMeta) md (m' : gmap Z Z) md' (fresh : MetadataTables)
    : Prop :=
  fresh = md' <| md_asset_by_symbol := m' |> <| md_route_by_account := routes |> ∧
  md' = md <| md_strings := md_strings md' |> <| md_assets := md_assets md' |>.

Lemma ensure_in_step name routes m md :
  ∃ m' md', MetadataTables.ensure_asset_stable ∅ name (m, len_u32 (md_assets md), md)
      = Returns (m', len_u32 (md_assets md'), md') ∧
    asset_step routes md m' md' (MetadataTables.ensure_asset name
      (md <| md_asset_by_symbol := m |> <| md_route_by_account := routes |>)).2.
Proof.
  destruct md as [strs insts bycode bygw gws gwk routes0 assets bysym trading].
  unfold MetadataTables.ensure_asset_stable, MetadataTables.ensure_asset.
  destruct (is_empty name); [by eexists _, _|]. intern_both.
  destruct (m !! z) as [id|] eqn:Em; cbn.
  - by eexists _, (mkMetadataTables i _ _ _ _ _ _ _ _ _).
  - rewrite lookup_empty. eexists _, (mkMetadataTables i _ _ _ _ _ _ (assets ++ [_]) _ _).
    split; [|done]. cbn. rewrite len_u32_snoc. done.
Qed.

Lemma assets_in_step l routes m md :
  ∃ m' md', for_each (MetadataTables.rebuild_assets ∅) l (m, len_u32 (md_assets md), md)
      = Returns (m', len_u32 (md_assets md'), md') ∧
    asset_step routes md m' md' (foldl MetadataTables.add_assets
      (md <| md_asset_by_symbol := m |> <| md_route_by_account := routes |>) l).
Proof.
  revert m md. induction l as [|rd l IH]; intros m md; cbn [for_each foldl].
  { exists m, md. split; [done|]. split; [done|by destruct md]. }
  unfold MetadataTables.rebuild_assets at 2, MetadataTables.add_assets at 2.
  destruct (ensure_in_step (rd_base_asset rd) routes m md) as (m1 & md1 & -> & [-> F1]).
  cbn -[MetadataTables.ensure_asset_stable MetadataTables.ensure_asset for_each].
  destruct (ensure_in_step (rd_quote_asset rd) routes m1 md1) as (m2 & md2 & -> & [-> F2]).
  cbn -[MetadataTables.ensure_asset_stable MetadataTables.ensure_asset for_each].
  destruct (ensure_in_step (rd_settlement_asset rd) routes m2 md2) as (m3 & md3 & -> & [-> F3]).
  cbn -[MetadataTables.ensure_asset_stable MetadataTables.ensure_asset for_each].
  destruct (IH m3 md3) as (m' & md' & E & [E1 E2]). exists m', md'. split; [done|].
  split; [exact E1|]. by rewrite E2, F3, F2, F1.
Qed.

(** The fresh side of the instrument section. *)
Definition fresh_of (routes : gmap Z RouteMeta) (new : gmap Z Z) (bygw : gmap (Z * Z) Z) md
    : MetadataTables :=
  md <| md_instrument_by_code := new |> <| md_instrument_by_gw_symbol := bygw |>
     <| md_route_by_account := routes |>.

Lemma instrument_meta_in_step routes new bygw rd md :
  let '(meta, code_sym, exch_sym, md1) := MetadataTables.instrument_meta rd md in
  MetadataTables.instrument_meta rd (fresh_of routes new bygw md)
    = (meta, code_sym, exch_sym, fresh_of routes new bygw md1) ∧
  md1 = md <| md_strings := md_strings md1 |>.
Proof.
  destruct md as [strs insts bycode bygw0 gws gwk routes0 assets bysym trading].
  unfold MetadataTables.instrument_meta, MetadataTables.asset_ref. intern_both.
  destruct (is_empty (rd_base_asset rd)), (is_empty (rd_quote_asset rd)),
    (is_empty (rd_settlement_asset rd)); by intern_both.
Qed.

Lemma index_in_step routes new bygw config rd exch_sym id idx md :
  let '(idx', md') := MetadataTables.index_gw_symbols config rd exch_sym id (idx, md) in
  MetadataTables.index_gw_symbols config rd exch_sym id (idx, fresh_of routes new bygw md)
    = (idx', fresh_of routes new bygw md') ∧
  md' = md <| md_strings := md_strings md' |>.
Proof.
  unfold MetadataTables.index_gw_symbols.
  destruct (cf_exch_name_to_gw_keys config !! _) as [keys|]; [|by destruct md].
  match goal with |- context [foldl ?g _ _] => set (f := g) end.
  assert (∀ idx md k, let '(idx', md') := f (idx, md) k in
    f (idx, fresh_of routes new bygw md) k = (idx', fresh_of routes new bygw md') ∧
    md' = md <| md_strings := md_strings md' |>) as Hf.
  { intros idx' [strs insts bycode bygw0 gws gwk routes0 assets bysym trading] k.
    subst f. intern_both. by destruct (gwk !! z). }
  clearbody f. generalize (set_iter keys). intros l. revert idx md.
  induction l as [|k l IH]; intros idx md; cbn [foldl]; [by destruct md|].
  specialize (Hf idx md k). destruct (f (idx, md) k) as [idx1 md1]. destruct Hf as [-> F1].
  specialize (IH idx1 md1). destruct (foldl f (idx1, md1) l) as [idx2 md2].
  destruct IH as [E F2]. split; [done|]. by rewrite F2, F1.
Qed.

Lemma instruments_in_step config l routes new bygw md :
  md_instrument_by_code md = ∅ →
  ∃ new' bygw' md',
    for_each (MetadataTables.rebuild_instrument config) l
      (new, bygw, len_u32 (md_instruments md), md)
      = Returns (new', bygw', len_u32 (md_instruments md'), md') ∧
    foldl (MetadataTables.add_instrument config) (fresh_of routes new bygw md) l
      = fresh_of routes new' bygw' md'.
Proof.
  revert new bygw md. induction l as [|rd l IH]; intros new bygw md Hnone.
  { by exists new, bygw, md. }
  cbn [for_each foldl].
  unfold MetadataTables.rebuild_instrument at 2, MetadataTables.add_instrument at 2.
  pose proof (instrument_meta_in_step routes new bygw rd md) as Hm.
  destruct (MetadataTables.instrument_meta rd md) as [[[meta code_sym] exch_sym] md1].
  destruct Hm as [-> F1].
  assert (md_instrument_by_code md1 = ∅ ∧ md_instruments md1 = md_instruments md) as [-> Ei]
    by (by rewrite F1).
  rewrite lookup_empty. cbn -[MetadataTables.index_gw_symbols for_each fresh_of].
  change (len_u32 (md_instruments (fresh_of routes new bygw md)))
    with (len_u32 (md_instruments md)).
  change (md_instrument_by_gw_symbol (fresh_of routes new bygw md1)) with bygw.
  set (id := len_u32 (md_instruments md)).
  set (md2 := md1 <| md_instruments ::= λ v, v ++ [meta id] |>).
  change ((fresh_of routes new bygw md1) <| md_instrument_by_code ::= <[code_sym := id]> |>
    <| md_instruments ::= λ v, v ++ [meta id] |>) with
    (fresh_of routes (<[code_sym := id]> new) bygw md2).
  pose proof (index_in_step routes (<[code_sym := id]> new) bygw config rd exch_sym id bygw md2) as Hi.
  destruct (MetadataTables.index_gw_symbols config rd exch_sym id (bygw, md2)) as [bygw' md3].
  destruct Hi as [-> F3]. cbn -[for_each fresh_of].
  change ((fresh_of routes (<[code_sym := id]> new) bygw md3) <| md_instrument_by_gw_symbol := bygw' |>)
    with (fresh_of routes (<[code_sym := id]> new) bygw' md3).
  replace (wrap_u32 (id + 1)) with (len_u32 (md_instruments md3)).
  - apply IH. rewrite F3. subst md2. cbn. by rewrite F1.
  - rewrite F3. subst md2. cbn. rewrite Ei. apply len_u32_snoc.
Qed.

Lemma tradings_in_step l routes idx md :
  let '(idx', md') := foldl MetadataTables.add_trading (idx, md) l in
  foldl MetadataTables.add_trading (idx, md <| md_route_by_account := routes |>) l
    = (idx', md' <| md_route_by_account := routes |>).
Proof.
  revert idx md. induction l as [|[code tc] l IH]; intros idx md; cbn [foldl]; [done|].
  destruct md as [strs insts bycode bygw gws gwk routes0 assets bysym trading].
  unfold MetadataTables.add_trading at 2 4. intern_both.
  set (md1 := mkMetadataTables i insts bycode bygw gws gwk routes0 assets bysym trading).
  destruct (bycode !! z) as [id|]; apply (IH _ md1).
Qed.
End fresh_is_reload.

(** A fresh build is a reload of empty tables.  Rebuilding the empty
    metadata tables from a configuration never panics and gives exactly the
    tables the constructor builds from it: same ids, same vectors, same indexes,
    same symbols. *)
Theorem reload_of_empty_is_fresh `{!Uppercase, !HashIter string, !HashIter Z}
    (config : ConfdataManager) :
  MetadataTables.rebuild_from_config config MetadataTables.empty
  = Returns (MetadataTables.from_confdata config).
Proof.
  unfold MetadataTables.rebuild_from_config, MetadataTables.from_confdata.
  destruct (gws_in_step (hash_iter (cf_gw_configs config)).*2 ∅ MetadataTables.empty eq_refl)
    as (ngw & md1 & E1 & G1 & F1).
  change (MetadataTables.empty <| md_gw_by_key := ∅ |>) with MetadataTables.empty in G1.
  rewrite E1, G1. cbv beta iota delta [mbind outcome_bind].
  pose proof (routes_in_step (hash_iter (cf_account_routes config)) ∅
    (md1 <| md_gw_by_key := ngw |>)) as G2.
  destruct (foldl MetadataTables.rebuild_route _ _) as [routes md2]. destruct G2 as [G2 F2].
  assert (md1 <| md_gw_by_key := ngw |> =
    md1 <| md_gw_by_key := ngw |> <| md_route_by_account := ∅ |>) as A1 by (by rewrite F1).
  rewrite <- A1 in G2. rewrite G2. assert (md2 = md2 <| md_asset_by_symbol := ∅ |> ∧ md_asset_by_symbol md2 = ∅ ∧
    md_instrument_by_code md2 = ∅ ∧ md_instrument_by_gw_symbol md2 = ∅)
    as (A2 & -> & C2 & D2) by (by rewrite F2, F1).
  rewrite <- A2.
  destruct (assets_in_step (hash_iter (cf_refdata config)).*2 routes ∅ md2)
    as (nas & md3 & -> & [G3 F3]).
  rewrite <- A2 in G3. rewrite G3.
  set (md3' := md3 <| md_asset_by_symbol := nas |>).
  destruct (instruments_in_step config (hash_iter (cf_refdata config)).*2 routes ∅ ∅ md3')
    as (nin & bygw & md4 & -> & G4). { subst md3'. cbn. by rewrite F3. }
  assert (fresh_of routes ∅ ∅ md3' = md3' <| md_route_by_account := routes |>) as Ef.
  { unfold fresh_of. subst md3'. rewrite F3. clear -C2 D2. destruct md2. cbn in *. by subst. }
  rewrite Ef in G4. rewrite G4. unfold fresh_of.
  set (md4' := _ <| md_instrument_by_gw_symbol := bygw |>).
  pose proof (tradings_in_step (hash_iter (cf_trading_configs config)) routes ∅ md4') as G5.
  destruct (foldl MetadataTables.add_trading (∅, md4') _) as [idx md5]. by rewrite G5.
Qed.
