(* ===== verification/Utils.v ===== *)
(** * Request validation and helpers ([validation.rs], [utils.rs])

    The wall clock is read through an oracle: every [gen_timestamp_ms()] of a
    handler takes its value from the oracle the handler receives. *)

From S2P Require Import Prelude F64 F64Grid Proto Models.

(** ** [validation.rs] *)

Definition validate_order_request (req : OrderRequest) : result unit string :=
  if req_order_id req <=? 0 then Err "place_order: order_id must be > 0"
  else if req_account_id req <=? 0 then Err "place_order: account_id must be > 0"
  else if trim_is_empty (req_instrument_code req) then
    Err "place_order: instrument_code is required"
  else if negb (f64.is_finite (req_qty req)) || (req_qty req <=? f64.zero)%f64 then
    Err "place_order: qty must be finite and > 0"
  else if negb (f64.is_finite (req_price req)) then
    Err "place_order: price must be finite"
  else Ok tt.

Definition validate_cancel_request (req : OrderCancelRequest) : result unit string :=
  if creq_order_id req <=? 0 then Err "cancel_order: order_id must be > 0" else Ok tt.

(** ** [utils.rs] *)

(** [zk.common.v1.InstrumentType] values the classification tables list. *)
Definition InstTypeSpot : Z := 1.
Definition InstTypePerp : Z := 2.
Definition InstTypeFuture : Z := 3.
Definition InstTypeCfd : Z := 4.
Definition InstTypeOption : Z := 5.
Definition InstTypeEtf : Z := 6.
Definition InstTypeStock : Z := 7.

Definition SPOT_INSTRUMENT_TYPE : Z := 1.
Definition SPOT_LIKE_TYPES : list Z := [InstTypeSpot; InstTypeEtf; InstTypeStock].
Definition MARGIN_TYPES : list Z := [InstTypePerp; InstTypeFuture; InstTypeCfd; InstTypeOption].

Definition is_spot_like (t : Z) : bool := bool_decide (t ∈ SPOT_LIKE_TYPES).
Definition is_margin (t : Z) : bool := bool_decide (t ∈ MARGIN_TYPES).

Definition round_to_precision (val : f64) (precision : Z) : f64 :=
  let factor := f64.powi (f64.of_Z 10) (wrap_i32 precision) in
  (f64.floor (val * factor) / factor)%f64.

(** [COUNTER]: the static counter behind [gen_order_id]. [seed] is the
    sub-second microsecond count [init_id_gen] reads. *)
Definition init_id_gen (seed : Z) : Z := wrap_i64 (Z.shiftl seed 20).
Definition gen_order_id (counter : Z) : Z * Z := (counter, wrap_i64 (counter + 1)).

Definition collect_spot_position_assets (refdata : list InstrumentRefData) : gset string :=
  list_to_set (rd_base_asset <$>
    filter (λ rd, rd_instrument_type rd = SPOT_INSTRUMENT_TYPE ∧
                  is_empty (rd_base_asset rd) = false) refdata).

Section derivation.
Context `{!HashIter string, !HashIter (Z * string)}.

Definition derive_spot_positions_from_balances (account_id : Z) (balances : gmap string f64)
    (spot_assets : gset string) : list OmsManagedPosition :=
  foldl (λ acc '(asset, qty),
    if (qty >? f64.zero)%f64 && bool_decide (asset ∈ spot_assets) then
      let pos := OmsManagedPosition_new account_id asset SPOT_INSTRUMENT_TYPE false in
      let pos := pos <| omp_qty_total := qty |> in
      let pos := pos <| omp_qty_available := qty |> in
      acc ++ [pos]
    else acc) [] (hash_iter balances).

Definition derive_spot_positions_from_balances_with_refdata (account_id : Z)
    (balances : gmap string f64) (refdata : list InstrumentRefData)
    : list OmsManagedPosition :=
  derive_spot_positions_from_balances account_id balances
    (collect_spot_position_assets refdata).

Definition pos_key (pos : OmsManagedPosition) : Z * string :=
  (omp_account_id pos, omp_instrument_code pos).

Definition merge_positions_with_override (derived explicit : list OmsManagedPosition)
    : list OmsManagedPosition :=
  let map : gmap (Z * string) OmsManagedPosition :=
    foldl (λ m pos, <[pos_key pos := pos]> m) ∅ derived in
  let map := foldl (λ m pos, <[pos_key pos := pos]> m) map explicit in
  (hash_iter map).*2.
End derivation.

(** ** Warm-start positions *)

(** Derived positions.  The positions derived from balances are exactly one
    long, fully available spot position for every asset that has a positive
    balance and is a spot base asset. *)
Theorem derived_positions_spec `{!HashIter string, !HashIterOk string}
    account_id (balances : gmap string f64) spot_assets p :
  p ∈ derive_spot_positions_from_balances account_id balances spot_assets ↔
  ∃ asset qty, balances !! asset = Some qty ∧ (qty >? f64.zero)%f64 = true ∧
    asset ∈ spot_assets ∧
    p = (OmsManagedPosition_new account_id asset SPOT_INSTRUMENT_TYPE false)
          <| omp_qty_total := qty |> <| omp_qty_available := qty |>.
Proof.
  set (f := λ kv : string * f64, (kv.2 >? f64.zero)%f64 && bool_decide (kv.1 ∈ spot_assets)).
  set (g := λ kv : string * f64, (OmsManagedPosition_new account_id kv.1 SPOT_INSTRUMENT_TYPE false)
    <| omp_qty_total := kv.2 |> <| omp_qty_available := kv.2 |>).
  assert (derive_spot_positions_from_balances account_id balances spot_assets =
    omap (λ kv, if f kv then Some (g kv) else None) (hash_iter balances)) as ->.
  { rewrite <- foldl_push. unfold derive_spot_positions_from_balances.
    induction (hash_iter balances) as [|[k v] l IH] using rev_ind; [done|].
    by rewrite !foldl_snoc, IH. }
  rewrite list_elem_of_omap. split.
  - intros ([k v] & Hkv%elem_of_hash_iter & Hp). exists k, v. unfold f in Hp. cbn in Hp.
    destruct (v >? f64.zero)%f64; [|done]. cbn in Hp. case_bool_decide; [|done].
    by injection Hp as <-.
  - intros (k & v & Hkv & Hv & Hs & ->). exists (k, v). split; [by apply elem_of_hash_iter|].
    unfold f. cbn. by rewrite Hv, bool_decide_true.
Qed.

Lemma derived_positions_spec_witness :
  let balances : gmap string f64 := {[ "BTC" := f64.of_Z 3; "USDT" := f64.of_Z 50 ]} in
  ∃ p, p ∈ @derive_spot_positions_from_balances canonical_iter 7 balances {[ "BTC" ]} ∧
       omp_instrument_code p = "BTC".
Proof.
  intros balances. eexists. split.
  - apply (@derived_positions_spec canonical_iter canonical_iter_ok 7 balances {[ "BTC" ]}).
    exists "BTC", (f64.of_Z 3). split_and!; [reflexivity|reflexivity|set_solver|reflexivity].
  - reflexivity.
Defined.

(** Explicit positions override derived ones.  The merged positions have one
    entry per account and instrument: the last explicit one, or the last
    derived one where there is no explicit one. *)
Theorem merge_explicit_wins `{!HashIter (Z * string), !HashIterOk (Z * string)} derived explicit :
  let merged := merge_positions_with_override derived explicit in
  NoDup (pos_key <$> merged) ∧
  ∀ p, p ∈ merged ↔
    match last (filter (λ q, pos_key q = pos_key p) explicit) with
    | Some q => p = q
    | None => last (filter (λ q, pos_key q = pos_key p) derived) = Some p
    end.
Proof.
  intros merged. unfold merged, merge_positions_with_override.
  set (m := foldl _ (foldl _ _ derived) explicit).
  assert (∀ k, m !! k = match last (filter (λ q, pos_key q = k) explicit) with
    | Some q => Some q | None => last (filter (λ q, pos_key q = k) derived) end) as Hm.
  { intros k. subst m. rewrite (foldl_insert_lookup pos_key id), (foldl_insert_lookup pos_key id).
    destruct (last _); [done|]. by destruct (last _). }
  assert (∀ k p, m !! k = Some p → pos_key p = k) as Hkey.
  { intros k p. rewrite Hm. destruct (last (filter _ explicit)) as [q|] eqn:E.
    - intros [= <-]. by apply last_filter_Some in E as [_ ?].
    - intros Hd. by apply last_filter_Some in Hd as [_ ?]. }
  split.
  - assert (pos_key <$> (hash_iter m).*2 = (hash_iter m).*1) as ->.
    { rewrite <- list_fmap_compose. apply list_fmap_ext. intros i [k p] Hi. cbn.
      apply Hkey, elem_of_hash_iter. by eapply list_elem_of_lookup_2. }
    rewrite (hash_iter_perm _ m). apply NoDup_fst_map_to_list.
  - intros p. rewrite list_elem_of_fmap. specialize (Hm (pos_key p)). split.
    + intros ([k q] & -> & Hq%elem_of_hash_iter). cbn in *. rewrite (Hkey _ _ Hq) in *.
      rewrite Hq in Hm. destruct (last (filter _ explicit)); congruence.
    + intros Hp. exists (pos_key p, p). split; [done|]. apply elem_of_hash_iter. rewrite Hm.
      destruct (last (filter _ explicit)); congruence.
Qed.

Lemma merge_explicit_wins_witness :
  let pos q := (OmsManagedPosition_new 7 "BTC" 1 false) <| omp_qty_total := f64.of_Z q |> in
  pos 2 ∈ @merge_positions_with_override canonical_iter [pos 1] [pos 2].
Proof.
  intros pos. apply (@merge_explicit_wins canonical_iter canonical_iter_ok [pos 1] [pos 2]).
  reflexivity.
Defined.
