(* ===== verification/OrderStore.v ===== *)
(** * Orders ([order_store_v2.rs])

    The order store: hot order state, cold detail logs, the open-order and
    exchange-reference indexes, the eviction queue of closed orders, and the
    functions that apply gateway reports to one order.  [id_counter] is the
    static counter [gen_order_id] draws from, which only this store uses. *)

From S2P Require Import Prelude F64 F64Grid Proto Intern Models Utils.

Record OrderStoreV2 : Type := mkOrderStoreV2 {
  os_live : gmap Z LiveOrder;
  os_detail : gmap Z OrderDetailLog;
  os_open_order_ids : gset Z;
  os_open_by_account : gmap Z (gset Z);
  os_order_id_by_exch_ref : gmap (Z * DynStrId) Z;
  os_external_order_ids : gmap (Z * DynStrId) Z;
  os_closed_lru : list Z;
  os_max_cached_orders : Z;
  os_dyn_strings : DynStringTable;
  os_use_time_emulation : bool;
  os_id_counter : Z;
}.
#[export] Instance eta_OrderStoreV2 : Eta OrderStoreV2 := λ r,
  mkOrderStoreV2 (os_live r) (os_detail r) (os_open_order_ids r) (os_open_by_account r)
    (os_order_id_by_exch_ref r) (os_external_order_ids r) (os_closed_lru r)
    (os_max_cached_orders r) (os_dyn_strings r) (os_use_time_emulation r) (os_id_counter r).

(** ** Static helpers *)

Definition map_order_status (gw_status : ExchangeOrderStatus) : OrderStatus :=
  match gw_status with
  | ExchOrderStatusBooked => Booked
  | ExchOrderStatusPartialFilled => PartiallyFilled
  | ExchOrderStatusFilled => Filled
  | ExchOrderStatusCancelled => Cancelled
  | ExchOrderStatusExchRejected => Rejected
  | ExchOrderStatusExpired => Cancelled
  | _ => Unspecified
  end.

Definition can_update_status (old new : OrderStatus) : bool :=
  negb (match old with Cancelled | Filled => true | _ => false end)
  && negb (bool_decide (new = Unspecified)).

Definition infer_trade_price (orig_qty orig_avg new_qty new_avg : f64) : option f64 :=
  if (new_qty =? f64.zero)%f64 then None
  else if (orig_avg =? f64.zero)%f64 then Some new_avg
  else if (new_avg =? f64.zero)%f64 then None
  else
    let increment := (new_qty - orig_qty)%f64 in
    if (increment =? f64.zero)%f64 then None
    else
      let orig_value := (orig_avg * orig_qty)%f64 in
      let new_value := (new_avg * new_qty)%f64 in
      Some ((new_value - orig_value) / increment)%f64.

Definition order_status (live : LiveOrder) : OrderStatus :=
  default Unspecified (OrderStatus_try_from (lo_order_status live)).

Module OrderStoreV2.
Implicit Types (st : OrderStoreV2) (live : LiveOrder) (detail : OrderDetailLog).

Definition new (seed max_cached_orders : Z) (use_time_emulation : bool) : OrderStoreV2 :=
  mkOrderStoreV2 ∅ ∅ ∅ ∅ ∅ ∅ [] max_cached_orders DynStringTable.new use_time_emulation
    (init_id_gen seed).

(** ** Initialisation and creation *)

Definition init_order st (entry : LiveOrder * OrderDetailLog) : OrderStoreV2 :=
  let '(live, detail) := entry in
  let oid := lo_order_id live in
  if oid =? 0 then st
  else
    let st :=
      if negb (is_in_terminal_state live) then
        st <| os_open_order_ids ::= λ s, {[oid]} ∪ s |>
           <| os_open_by_account ::= insert_at (lo_account_id live) oid |>
      else st in
    let st :=
      match lo_exch_order_ref_id live with
      | Some ref_id => st <| os_order_id_by_exch_ref ::= <[(lo_gw_id live, ref_id) := oid]> |>
      | None => st
      end in
    st <| os_live ::= <[oid := live]> |> <| os_detail ::= <[oid := detail]> |>.

Definition init_with_orders (orders : list (LiveOrder * OrderDetailLog)) st : OrderStoreV2 :=
  foldl init_order st orders.

(** The records [create_order] inserts. *)
Definition new_live (order_id : Z) (req : OrderRequest) (meta : ResolvedOrderMeta)
    (flags : OrderAccountingFlags) (ts : Z) : LiveOrder :=
  {| lo_order_id := order_id;
     lo_account_id := req_account_id req;
     lo_instrument_id := rm_instrument_id meta;
     lo_gw_id := rm_gw_id meta;
     lo_route_exch_account_sym := rm_exch_account_sym meta;
     lo_source_sym := rm_source_sym meta;
     lo_order_status := OrderStatus_i32 Pending;
     lo_buy_sell_type := req_buy_sell_type req;
     lo_open_close_type := req_open_close_type req;
     lo_order_type := req_order_type req;
     lo_tif_type := req_time_inforce_type req;
     lo_price := req_price req;
     lo_qty := req_qty req;
     lo_filled_qty := f64.zero;
     lo_filled_avg_price := f64.zero;
     lo_acc_trades_filled_qty := f64.zero;
     lo_acc_trades_value := f64.zero;
     lo_exch_order_ref_id := None;
     lo_snapshot_version := 1;
     lo_created_at := ts;
     lo_updated_at := ts;
     lo_is_external := false;
     lo_cancel_attempts := 0;
     lo_accounting_flags := flags;
     lo_error_msg := [];
     lo_terminal_at := None |}.

Definition new_detail (order_id : Z) (req : OrderRequest) (gw_req : option SendOrderRequest)
    : OrderDetailLog :=
  mkOrderDetailLog order_id (Some req) gw_req None [] [] [] [].

Definition create_order (now order_id : Z) (req : OrderRequest) (meta : ResolvedOrderMeta)
    (flags : OrderAccountingFlags) (gw_req : option SendOrderRequest) st : OrderStoreV2 :=
  let ts := if os_use_time_emulation st then req_timestamp req else now in
  st <| os_live ::= <[order_id := new_live order_id req meta flags ts]> |>
     <| os_detail ::= <[order_id := new_detail order_id req gw_req]> |>
     <| os_open_order_ids ::= λ s, {[order_id]} ∪ s |>
     <| os_open_by_account ::= insert_at (req_account_id req) order_id |>.

(** ** Lookups.  A [get_live_mut] followed by writes is [update_live]. *)

Definition get_live (order_id : Z) st : option LiveOrder := os_live st !! order_id.
Definition get_detail (order_id : Z) st : option OrderDetailLog := os_detail st !! order_id.
Definition update_live (f : LiveOrder → LiveOrder) (order_id : Z) st : OrderStoreV2 :=
  st <| os_live ::= alter f order_id |>.
Definition update_detail (f : OrderDetailLog → OrderDetailLog) (order_id : Z) st
    : OrderStoreV2 :=
  st <| os_detail ::= alter f order_id |>.

Definition get_live_and_detail (order_id : Z) st : option (LiveOrder * OrderDetailLog) :=
  live ← os_live st !! order_id; detail ← os_detail st !! order_id; Some (live, detail).
(** Writing both references back. *)
Definition put_live_and_detail (order_id : Z) (both : LiveOrder * OrderDetailLog) st
    : OrderStoreV2 :=
  st <| os_live ::= <[order_id := both.1]> |> <| os_detail ::= <[order_id := both.2]> |>.

Definition resolve_order_id (order_id gw_id : Z) (exch_ref : string) st : option Z :=
  if negb (order_id =? 0) && bool_decide (is_Some (os_live st !! order_id)) then Some order_id
  else
    dyn_id ← DynStringTable.lookup (os_dyn_strings st) exch_ref;
    os_order_id_by_exch_ref st !! (gw_id, dyn_id).

Definition is_external (gw_id : Z) (exch_ref_id : DynStrId) st : bool :=
  bool_decide (is_Some (os_external_order_ids st !! (gw_id, exch_ref_id))).

Definition get_open_orders_for_account `{!HashIter Z} (account_id : Z) st : list Z :=
  default [] (set_iter <$> os_open_by_account st !! account_id).

(** ** Linkage and closing *)

Definition register_exch_ref (order_id gw_id : Z) (exch_ref : string) st : OrderStoreV2 :=
  let '(dyn_id, dyn_strings) := DynStringTable.intern exch_ref (os_dyn_strings st) in
  let st := st <| os_dyn_strings := dyn_strings |> in
  let st := st <| os_order_id_by_exch_ref ::= <[(gw_id, dyn_id) := order_id]> |> in
  update_live (λ live, live <| lo_exch_order_ref_id := Some dyn_id |>) order_id st.

Definition cleanup_order (order_id : Z) st : OrderStoreV2 :=
  let st :=
    match os_live st !! order_id with
    | Some live =>
        let st := st <| os_live ::= delete order_id |> in
        match lo_exch_order_ref_id live with
        | Some ref_id => st <| os_order_id_by_exch_ref ::= delete (lo_gw_id live, ref_id) |>
        | None => st
        end
    | None => st
    end in
  st <| os_detail ::= delete order_id |>.

Definition mark_closed (order_id : Z) st : OrderStoreV2 :=
  let st := st <| os_open_order_ids ::= λ s, s ∖ {[order_id]} |> in
  let st :=
    match os_live st !! order_id with
    | Some live =>
        st <| os_open_by_account ::= alter (λ s, s ∖ {[order_id]}) (lo_account_id live) |>
    | None => st
    end in
  let st := st <| os_closed_lru ::= λ q, q ++ [order_id] |> in
  if os_max_cached_orders st <? Z.of_nat (length (os_closed_lru st)) then
    match os_closed_lru st with
    | oldest :: q => cleanup_order oldest (st <| os_closed_lru := q |>)
    | [] => st
    end
  else st.

(** ** External orders *)

Definition external_live (order_id gw_id : Z) (dyn_id : DynStrId) (account_id ts source_sym : Z)
    : LiveOrder :=
  {| lo_order_id := order_id;
     lo_account_id := account_id;
     lo_instrument_id := 0;
     lo_gw_id := gw_id;
     lo_route_exch_account_sym := 0;
     lo_source_sym := source_sym;
     lo_order_status := OrderStatus_i32 Pending;
     lo_buy_sell_type := 0;
     lo_open_close_type := 0;
     lo_order_type := 0;
     lo_tif_type := 0;
     lo_price := f64.zero;
     lo_qty := f64.zero;
     lo_filled_qty := f64.zero;
     lo_filled_avg_price := f64.zero;
     lo_acc_trades_filled_qty := f64.zero;
     lo_acc_trades_value := f64.zero;
     lo_exch_order_ref_id := Some dyn_id;
     lo_snapshot_version := 1;
     lo_created_at := ts;
     lo_updated_at := ts;
     lo_is_external := true;
     lo_cancel_attempts := 0;
     lo_accounting_flags := default_OrderAccountingFlags;
     lo_error_msg := [];
     lo_terminal_at := None |}.

Definition create_external_order (gw_id : Z) (exch_ref : string)
    (account_id ts source_sym : Z) st : Z * OrderStoreV2 :=
  let '(order_id, counter) := gen_order_id (os_id_counter st) in
  let st := st <| os_id_counter := counter |> in
  let '(dyn_id, dyn_strings) := DynStringTable.intern exch_ref (os_dyn_strings st) in
  let st := st <| os_dyn_strings := dyn_strings |> in
  let live := external_live order_id gw_id dyn_id account_id ts source_sym in
  let detail := default_OrderDetailLog <| dl_order_id := order_id |> in
  (order_id,
   st <| os_external_order_ids ::= <[(gw_id, dyn_id) := order_id]> |>
      <| os_order_id_by_exch_ref ::= <[(gw_id, dyn_id) := order_id]> |>
      <| os_live ::= <[order_id := live]> |>
      <| os_detail ::= <[order_id := detail]> |>).

(** ** Report application *)

Definition apply_linkage_promotion (order_id : Z) st : OrderStoreV2 :=
  update_live (λ live,
    match order_status live with
    | Pending | Rejected => live <| lo_order_status := OrderStatus_i32 Booked |>
    | _ => live
    end) order_id st.

Definition apply_state_report (filled_qty_from_report : option f64) (avg_price : f64)
    (exch_status : ExchangeOrderStatus) (ts : Z) (both : LiveOrder * OrderDetailLog)
    : LiveOrder * OrderDetailLog :=
  let '(live, detail) := both in
  let orig_filled := lo_filled_qty live in
  let orig_avg := lo_filled_avg_price live in
  let new_filled :=
    match filled_qty_from_report with
    | Some fq => if negb (fq =? f64.zero)%f64 then Some fq else None
    | None => None
    end in
  let live :=
    match new_filled with
    | Some nf => live <| lo_filled_qty := f64.max nf orig_filled |>
    | None => live
    end in
  let live :=
    if negb (avg_price =? f64.zero)%f64 then live <| lo_filled_avg_price := avg_price |>
    else live in
  let fill_increment := (lo_filled_qty live - orig_filled)%f64 in
  let detail :=
    if (fill_increment >? eps8)%f64 then
      let pseudo_id :=
        display_i64 (lo_order_id live) +:+ "_" +:+
        display_i64 (Z.of_nat (length (dl_inferred_trades detail))) in
      let inferred_price :=
        infer_trade_price orig_filled orig_avg (lo_filled_qty live) (lo_filled_avg_price live) in
      let inferred_trade :=
        default_Trade <| tr_order_id := lo_order_id live |> <| tr_ext_trade_id := pseudo_id |>
          <| tr_filled_ts := ts |> <| tr_filled_qty := fill_increment |>
          <| tr_filled_price := default f64.zero inferred_price |> in
      detail <| dl_inferred_trades ::= λ v, v ++ [inferred_trade] |>
    else detail in
  let new_status := map_order_status exch_status in
  let live :=
    if can_update_status (order_status live) new_status then
      live <| lo_order_status := OrderStatus_i32 new_status |>
    else live in
  (live, detail).

Definition apply_trade_report (trade : Trade) (both : LiveOrder * OrderDetailLog)
    : LiveOrder * OrderDetailLog :=
  let '(live, detail) := both in
  (live <| lo_acc_trades_filled_qty ::= λ q, (q + tr_filled_qty trade)%f64 |>
        <| lo_acc_trades_value ::= λ v, (v + tr_filled_qty trade * tr_filled_price trade)%f64 |>,
   detail <| dl_trades ::= λ v, v ++ [trade] |>).

Definition apply_exec_report (exec_msg : ExecMessage) (both : LiveOrder * OrderDetailLog)
    : LiveOrder * OrderDetailLog :=
  let '(live, detail) := both in
  let is_placing := em_exec_type exec_msg =? ExecType_i32 PlacingOrder in
  let detail := detail <| dl_exec_msgs ::= λ v, v ++ [exec_msg] |> in
  let live :=
    if is_placing then live <| lo_order_status := OrderStatus_i32 Rejected |> else live in
  (live, detail).

Definition apply_fee_report (fee : Fee) detail : OrderDetailLog :=
  detail <| dl_fees ::= λ v, v ++ [fee] |>.

(** The loop of [infer_state_from_trades]: quantity, value, and whether a trade
    was seen. *)
Definition add_trade_entry (acc : f64 * f64 * bool) (e : OrderReportEntry) : f64 * f64 * bool :=
  let '(new_qty, new_value, has_trade) := acc in
  match ent_report e with
  | Some (RTradeReport t) =>
      ((new_qty + trr_filled_qty t)%f64,
       (new_value + trr_filled_qty t * trr_filled_price t)%f64, true)
  | _ => acc
  end.

Definition is_state_entry (e : OrderReportEntry) : bool :=
  match ent_report e with Some (ROrderStateReport _) => true | _ => false end.

Definition infer_state_from_trades (entries : list OrderReportEntry) live
    : option OrderReportEntry :=
  if is_in_terminal_state live then None
  else if existsb is_state_entry entries then None
  else
    let '(new_qty, new_value, has_trade) :=
      foldl add_trade_entry (f64.zero, f64.zero, false) entries in
    if negb has_trade then None
    else
      let total_qty := (new_qty + lo_acc_trades_filled_qty live)%f64 in
      if (total_qty >? lo_qty live)%f64 then None
      else
        let avg_price :=
          if negb (total_qty =? f64.zero)%f64 then
            ((lo_acc_trades_value live + new_value) / total_qty)%f64
          else f64.zero in
        let exch_status :=
          if (f64.abs (total_qty - lo_qty live) <? eps8)%f64 then ExchOrderStatusFilled
          else ExchOrderStatusPartialFilled in
        let report :=
          default_OrderStateReport
            <| osr_exch_order_status := ExchangeOrderStatus_i32 exch_status |>
            <| osr_filled_qty := total_qty |>
            <| osr_unfilled_qty := (lo_qty live - total_qty)%f64 |>
            <| osr_avg_price := avg_price |> in
        Some (mkOrderReportEntry (OrderReportType_i32 OrderRepTypeState)
                (Some (ROrderStateReport report))).

(** ** OMS-level errors *)

Definition apply_oms_error (error_msg : message) (ts exec_type : Z) (rejection : Rejection)
    (both : LiveOrder * OrderDetailLog) : LiveOrder * OrderDetailLog :=
  let '(live, detail) := both in
  let exec_msg :=
    default_ExecMessage <| em_order_id := lo_order_id live |> <| em_exec_type := exec_type |>
      <| em_exec_success := false |> <| em_timestamp := ts |> <| em_error_msg := error_msg |>
      <| em_rejection_info := Some rejection |> in
  let detail := detail <| dl_exec_msgs ::= λ v, v ++ [exec_msg] |> in
  let live :=
    if exec_type =? ExecType_i32 PlacingOrder then
      let live := live <| lo_snapshot_version ::= λ n, wrap_u32 (n + 1) |> in
      let live := live <| lo_order_status := OrderStatus_i32 Rejected |> in
      let live := live <| lo_updated_at := ts |> in
      let live := live <| lo_error_msg := error_msg |> in
      match lo_terminal_at live with
      | None => live <| lo_terminal_at := Some ts |>
      | Some _ => live
      end
    else live in
  (live, detail).
End OrderStoreV2.

(** ** Well-formedness *)

(** An id the dynamic string table resolves. *)
Definition dyn_ok (st : OrderStoreV2) (id : DynStrId) : Prop :=
  0 ≤ id < Z.of_nat (length (dyn_strs_by_id (os_dyn_strings st))).

Record orders_wf (st : OrderStoreV2) : Prop := {
  ow_both oid : is_Some (os_live st !! oid) ↔ is_Some (os_detail st !! oid);
  ow_id oid l : os_live st !! oid = Some l → lo_order_id l = oid;
  ow_ref oid l id :
    os_live st !! oid = Some l → lo_exch_order_ref_id l = Some id → dyn_ok st id;
  ow_dyn : table_safe (os_dyn_strings st);
  ow_max : 0 ≤ os_max_cached_orders st;
  ow_lru : Z.of_nat (length (os_closed_lru st)) ≤ os_max_cached_orders st;
}.

Lemma orders_wf_new seed n emu : 0 ≤ n → orders_wf (OrderStoreV2.new seed n emu).
Proof.
  intros Hn. split; simpl; try done. intros oid. by rewrite !lookup_empty.
Qed.

Section wf.
Implicit Types (st : OrderStoreV2).

(** What every later operation needs of a stored order. *)
Lemma wf_lookup st oid l :
  orders_wf st → os_live st !! oid = Some l →
  ∃ d, os_detail st !! oid = Some d ∧
       OrderStoreV2.get_live_and_detail oid st = Some (l, d).
Proof.
  intros Hwf Hl. destruct (proj1 (ow_both st Hwf oid)) as [d Hd]; [by rewrite Hl|].
  exists d. split; [done|]. unfold OrderStoreV2.get_live_and_detail. by rewrite Hl, Hd.
Qed.

Lemma dyn_resolves st id :
  dyn_ok st id → ∃ s, DynStringTable.resolve (os_dyn_strings st) id = Returns s.
Proof.
  intros [? ?]. unfold DynStringTable.resolve, DynStringTable.try_resolve.
  destruct (lookup_lt_is_Some_2 (dyn_strs_by_id (os_dyn_strings st)) (Z.to_nat id))
    as [s ->]; [lia|]. by exists s.
Qed.

(** Replacing both records of a stored or new order. *)
Lemma put_wf st oid both :
  orders_wf st → lo_order_id both.1 = oid →
  (∀ id, lo_exch_order_ref_id both.1 = Some id → dyn_ok st id) →
  orders_wf (OrderStoreV2.put_live_and_detail oid both st).
Proof.
  intros Hwf Hid Href. split; simpl; try apply Hwf.
  - intros oid'. rewrite !lookup_insert. case_decide; [naive_solver|apply Hwf].
  - intros oid' l. rewrite lookup_insert_Some. intros [[<- <-]|[_ ?]]; [done|by apply Hwf].
  - intros oid' l id. rewrite lookup_insert_Some.
    intros [[<- <-]|[_ ?]] ?; [by apply Href|by eapply (ow_ref st Hwf)].
Qed.

Lemma update_live_wf st oid f :
  orders_wf st → (∀ l, lo_order_id (f l) = lo_order_id l) →
  (∀ l id, os_live st !! oid = Some l → lo_exch_order_ref_id (f l) = Some id → dyn_ok st id) →
  orders_wf (OrderStoreV2.update_live f oid st).
Proof.
  intros Hwf Hid Href. split; simpl; try apply Hwf.
  - intros oid'. rewrite lookup_alter_is_Some. apply Hwf.
  - intros oid' l. rewrite lookup_alter_Some. intros [(-> & l0 & Hl0 & ->)|[_ ?]].
    + rewrite Hid. by apply Hwf.
    + by apply Hwf.
  - intros oid' l id. rewrite lookup_alter_Some. intros [(-> & l0 & Hl0 & ->)|[_ ?]] Hr.
    + by eapply Href.
    + by eapply (ow_ref st Hwf).
Qed.

(** The same for a write of a record computed beforehand. *)
Lemma update_live_wf' st oid l l' :
  orders_wf st → os_live st !! oid = Some l → lo_order_id l' = lo_order_id l →
  (∀ id, lo_exch_order_ref_id l' = Some id → dyn_ok st id) →
  orders_wf (OrderStoreV2.update_live (λ _, l') oid st).
Proof.
  intros Hwf Hl Hid Href. split; simpl; try apply Hwf.
  - intros oid'. rewrite lookup_alter_is_Some. apply Hwf.
  - intros oid' l0. rewrite lookup_alter_Some. intros [(-> & l1 & Hl1 & ->)|[_ ?]].
    + rewrite Hid. by apply (ow_id st Hwf).
    + by apply Hwf.
  - intros oid' l0 id. rewrite lookup_alter_Some. intros [(-> & l1 & Hl1 & ->)|[_ ?]] Hr.
    + by apply Href.
    + by eapply (ow_ref st Hwf).
Qed.

Lemma update_detail_wf st oid f :
  orders_wf st → orders_wf (OrderStoreV2.update_detail f oid st).
Proof.
  intros Hwf. split; simpl; try apply Hwf.
  intros oid'. rewrite lookup_alter_is_Some. apply Hwf.
Qed.

Lemma create_order_wf st now oid req meta flags gw_req :
  orders_wf st → orders_wf (OrderStoreV2.create_order now oid req meta flags gw_req st).
Proof.
  intros Hwf. split; simpl; try apply Hwf.
  - intros oid'. rewrite !lookup_insert. case_decide; [naive_solver|apply Hwf].
  - intros oid' l. rewrite lookup_insert_Some. intros [[<- <-]|[_ ?]]; [done|by apply Hwf].
  - intros oid' l id. rewrite lookup_insert_Some.
    intros [[<- <-]|[_ ?]] ?; [done|by eapply (ow_ref st Hwf)].
Qed.

(** Interning into the store's string table. *)
Lemma set_dyn_wf st s :
  orders_wf st →
  let '(id, dyn) := DynStringTable.intern s (os_dyn_strings st) in
  orders_wf (st <| os_dyn_strings := dyn |>) ∧ dyn_ok (st <| os_dyn_strings := dyn |>) id.
Proof.
  intros Hwf. pose proof (ow_dyn st Hwf) as Hs.
  pose proof (intern_safe s _ Hs) as Hs'. pose proof (intern_ext s (os_dyn_strings st)) as Hext.
  pose proof (intern_resolves s _ Hs) as Hres.
  assert (0 ≤ (DynStringTable.intern s (os_dyn_strings st)).1) as Hpos.
  { unfold DynStringTable.intern. destruct (dyn_ids_by_str _ !! s) as [i|] eqn:E; simpl.
    - apply Hs in E. lia.
    - apply wrap_u32_range. }
  simpl in *. destruct (DynStringTable.intern s (os_dyn_strings st)) as [id dyn]. simpl in *.
  split.
  - split; simpl; try apply Hwf; [|done].
    intros oid l i Hl Hi. pose proof (ow_ref st Hwf oid l i Hl Hi) as [? ?].
    destruct (lookup_lt_is_Some_2 (dyn_strs_by_id (os_dyn_strings st)) (Z.to_nat i))
      as [x Hx]; [lia|]. apply Hext in Hx. apply lookup_lt_Some in Hx.
    unfold dyn_ok. simpl in *. lia.
  - apply lookup_lt_is_Some in Hres. unfold dyn_ok. simpl in *. lia.
Qed.

Lemma cleanup_order_wf st oid : orders_wf st → orders_wf (OrderStoreV2.cleanup_order oid st).
Proof.
  intros Hwf. unfold OrderStoreV2.cleanup_order.
  destruct (os_live st !! oid) as [live|] eqn:El.
  - set (st1 := match lo_exch_order_ref_id live with
                | Some ref_id => _ | None => _ end).
    assert (os_live st1 = delete oid (os_live st) ∧ os_detail st1 = os_detail st ∧
            os_dyn_strings st1 = os_dyn_strings st ∧ os_closed_lru st1 = os_closed_lru st ∧
            os_max_cached_orders st1 = os_max_cached_orders st) as (Hl & Hd & Hs & Hq & Hm).
    { subst st1. by destruct (lo_exch_order_ref_id live). }
    split; simpl; unfold dyn_ok; simpl; rewrite ?Hl, ?Hd, ?Hs, ?Hq, ?Hm; try apply Hwf.
    + intros oid'. destruct (decide (oid = oid')) as [<-|];
        rewrite ?lookup_delete_eq, ?lookup_delete_ne by done; [done|apply Hwf].
    + intros oid' l [_ ?]%lookup_delete_Some. by apply Hwf.
    + intros oid' l id [_ ?]%lookup_delete_Some ?. by eapply (ow_ref st Hwf).
  - split; simpl; try apply Hwf.
    intros oid'. destruct (decide (oid = oid')) as [<-|].
    + rewrite El, lookup_delete_eq. done.
    + rewrite lookup_delete_ne by done. apply Hwf.
Qed.

Lemma mark_closed_wf st oid : orders_wf st → orders_wf (OrderStoreV2.mark_closed oid st).
Proof.
  intros Hwf. unfold OrderStoreV2.mark_closed.
  set (st1 := match os_live _ !! oid with Some live => _ | None => _ end).
  assert (orders_wf st1) as Hwf1.
  { subst st1. destruct (os_live _ !! oid); split; simpl; apply Hwf. }
  clearbody st1. clear st Hwf. simpl. pose proof (ow_lru st1 Hwf1) as Hlru.
  rewrite length_app. simpl. destruct (Z.ltb_spec (os_max_cached_orders st1)
    (Z.of_nat (length (os_closed_lru st1) + 1))).
  - destruct (os_closed_lru st1 ++ [oid]) as [|oldest q] eqn:Eq;
      [by destruct (os_closed_lru st1)|].
    apply cleanup_order_wf. split; simpl; try apply Hwf1.
    assert (length (os_closed_lru st1 ++ [oid]) = S (length q)) as Hlen by (by rewrite Eq).
    rewrite length_app in Hlen. simpl in Hlen. lia.
  - split; simpl; try apply Hwf1. rewrite length_app. simpl. lia.
Qed.

Lemma register_exch_ref_wf st oid gw ref :
  orders_wf st → orders_wf (OrderStoreV2.register_exch_ref oid gw ref st).
Proof.
  intros Hwf. unfold OrderStoreV2.register_exch_ref. pose proof (set_dyn_wf st ref Hwf) as H.
  destruct (DynStringTable.intern ref (os_dyn_strings st)) as [id dyn]. destruct H as [H1 H2].
  apply update_live_wf; [|done|].
  - split; simpl; apply H1.
  - simpl. intros l i _ [= <-]. apply H2.
Qed.

Lemma apply_linkage_promotion_wf st oid :
  orders_wf st → orders_wf (OrderStoreV2.apply_linkage_promotion oid st).
Proof.
  intros Hwf. apply update_live_wf; [done| |].
  - intros l. by destruct (order_status l).
  - intros l id Hl Hid. eapply (ow_ref st Hwf oid l); [done|].
    by destruct (order_status l).
Qed.

Lemma create_external_order_wf st gw ref acct ts src :
  orders_wf st → orders_wf (OrderStoreV2.create_external_order gw ref acct ts src st).2.
Proof.
  intros Hwf. unfold OrderStoreV2.create_external_order, gen_order_id. simpl.
  pose proof (set_dyn_wf st ref Hwf) as H.
  destruct (DynStringTable.intern ref (os_dyn_strings st)) as [id dyn]. destruct H as [H1 H2].
  pose proof (put_wf _ (os_id_counter st)
    (OrderStoreV2.external_live (os_id_counter st) gw id acct ts src,
     default_OrderDetailLog <| dl_order_id := os_id_counter st |>) H1 eq_refl) as H.
  destruct H as [Hb Hi Hr Hd Hm Hq]; [by intros ? [= <-]|]. by split.
Qed.

(** A created external order is live. *)
Lemma create_external_order_live st gw ref acct ts src :
  let '(oid, st') := OrderStoreV2.create_external_order gw ref acct ts src st in
  is_Some (os_live st' !! oid).
Proof.
  unfold OrderStoreV2.create_external_order, gen_order_id. simpl.
  destruct (DynStringTable.intern ref _) as [id dyn]. simpl. by rewrite lookup_insert_eq.
Qed.

Lemma init_order_wf st live detail :
  orders_wf st →
  (∀ id, lo_exch_order_ref_id live = Some id → dyn_ok st id) →
  orders_wf (OrderStoreV2.init_order st (live, detail)).
Proof.
  intros Hwf Href. unfold OrderStoreV2.init_order.
  destruct (lo_order_id live =? 0); [done|].
  pose proof (put_wf st (lo_order_id live) (live, detail) Hwf eq_refl Href) as [Hb Hi Hr Hd Hm Hq].
  destruct (negb _), (lo_exch_order_ref_id live) eqn:E; split; simpl in *; auto.
Qed.
End wf.

#[export] Hint Resolve mark_closed_wf register_exch_ref_wf apply_linkage_promotion_wf
  create_order_wf update_detail_wf : zk.
