(* ===== verification/OrderHistory.v ===== *)
(** * Order histories ([order_store_v2.rs])

    What reports may do to one order.

    - [evolves]: the identity of an order is fixed, its filled quantity never
      decreases, its terminal timestamp is written once, its four logs only
      grow, and a filled or cancelled order leaves that status only with a
      logged placing error.  It is a preorder every report function respects, so it lifts to
      whole reports and to sequences of messages.
    - inferred trades: on a grid, the trades synthesised from state reports add
      up to the filled quantity.
    - inferred states: the state synthesised from trades.
    - linkage and eviction. *)

From S2P Require Import Prelude F64 F64Grid Proto Intern Models Utils OrderStore.

(** ** Evolution of one order *)

(** The fields no report changes. *)
Definition identity (l : LiveOrder)
    : Z * Z * Z * Z * Z * f64 * f64 * bool * OrderAccountingFlags * Z :=
  (lo_order_id l, lo_account_id l, lo_instrument_id l, lo_gw_id l, lo_buy_sell_type l,
   lo_price l, lo_qty l, lo_is_external l, lo_accounting_flags l, lo_created_at l).

Definition filled_mono (l l' : LiveOrder) : Prop :=
  f64.is_nan (lo_filled_qty l) = false →
  f64.is_nan (lo_filled_qty l') = false ∧ fle (lo_filled_qty l) (lo_filled_qty l').

(** Filled and cancelled are final, unless a placing error is logged. *)
Definition is_final (l : LiveOrder) : Prop :=
  order_status l = Filled ∨ order_status l = Cancelled.
Definition placing_errors (d : OrderDetailLog) : nat :=
  length (filter (λ em, em_exec_type em = ExecType_i32 PlacingOrder) (dl_exec_msgs d)).
Definition status_kept (o o' : LiveOrder * OrderDetailLog) : Prop :=
  is_final o.1 →
  order_status o'.1 = order_status o.1 ∨ (placing_errors o.2 < placing_errors o'.2)%nat.

Record evolves (o o' : LiveOrder * OrderDetailLog) : Prop := {
  ev_identity : identity o'.1 = identity o.1;
  ev_filled : filled_mono o.1 o'.1;
  ev_terminal_at t : lo_terminal_at o.1 = Some t → lo_terminal_at o'.1 = Some t;
  ev_trades : dl_trades o.2 `prefix_of` dl_trades o'.2;
  ev_inferred : dl_inferred_trades o.2 `prefix_of` dl_inferred_trades o'.2;
  ev_exec : dl_exec_msgs o.2 `prefix_of` dl_exec_msgs o'.2;
  ev_fees : dl_fees o.2 `prefix_of` dl_fees o'.2;
  ev_final : status_kept o o';
}.

Lemma filled_mono_refl l l' : lo_filled_qty l' = lo_filled_qty l → filled_mono l l'.
Proof. intros E H. rewrite E. auto using fle_refl. Qed.

Lemma placing_errors_mono d d' :
  dl_exec_msgs d `prefix_of` dl_exec_msgs d' → (placing_errors d ≤ placing_errors d')%nat.
Proof. intros [k E]. unfold placing_errors. rewrite E, filter_app, length_app. lia. Qed.

Lemma status_kept_same o o' : order_status o'.1 = order_status o.1 → status_kept o o'.
Proof. intros E _. by left. Qed.

#[export] Instance evolves_preorder : PreOrder evolves.
Proof.
  split.
  - intros [l d]. split; try done; [by apply filled_mono_refl|by apply status_kept_same].
  - intros o1 o2 o3 [] [? ? ? ? ? Hx ? ?]. split; try (by etrans).
    + intros Hn. unfold filled_mono in *. naive_solver eauto using fle_trans.
    + naive_solver.
    + apply placing_errors_mono in Hx. unfold status_kept, is_final in *. intros Hf.
      destruct (ev_final0 Hf) as [E|]; [|right; lia].
      destruct (ev_final1 ltac:(by rewrite E)) as [E'|]; [left; congruence|].
      right. apply placing_errors_mono in ev_exec0. lia.
Qed.

(** Steps that only touch the live record, or only the detail log. *)
Lemma evolves_live (l l' : LiveOrder) (d : OrderDetailLog) :
  identity l' = identity l → lo_filled_qty l' = lo_filled_qty l →
  (∀ t, lo_terminal_at l = Some t → lo_terminal_at l' = Some t) →
  (is_final l → order_status l' = order_status l) → evolves (l, d) (l', d).
Proof.
  intros ? ? ? Hs. split; simpl; try done; [by apply filled_mono_refl|].
  intros Hf. left. by apply Hs.
Qed.

Lemma evolves_cancel_req l d r : evolves (l, d) (l, d <| dl_cancel_req := r |>).
Proof. split; simpl; try done; [by apply filled_mono_refl|by apply status_kept_same]. Qed.

Lemma state_fill_mono fq (l : LiveOrder) :
  filled_mono l
    (match (match fq with
            | Some fq => if negb (fq =? f64.zero)%f64 then Some fq else None
            | None => None
            end) with
     | Some nf => l <| lo_filled_qty := f64.max nf (lo_filled_qty l) |>
     | None => l
     end).
Proof.
  destruct fq as [q|]; [|by apply filled_mono_refl].
  destruct (negb _); [|by apply filled_mono_refl].
  intros Hn. simpl. destruct (f64.is_nan q) eqn:Hq.
  - unfold f64.max. rewrite Hq. auto using fle_refl.
  - destruct (fmax_spec q (lo_filled_qty l) Hq Hn) as (_ & ? & [E|E]).
    + by rewrite E in *.
    + by rewrite E in *.
Qed.

Lemma apply_state_report_evolves fq avg status ts both :
  evolves both (OrderStoreV2.apply_state_report fq avg status ts both).
Proof.
  destruct both as [l d]. unfold OrderStoreV2.apply_state_report.
  pose proof (state_fill_mono fq l) as Hf.
  set (l1 := match _ with Some nf => _ | None => _ end) in *.
  assert (identity l1 = identity l ∧ lo_terminal_at l1 = lo_terminal_at l ∧
          order_status l1 = order_status l) as (Hi1 & Ht1 & Hs1).
  { subst l1. by destruct fq as [q|]; [destruct (negb _)|]. }
  clearbody l1.
  set (l2 := if negb (avg =? f64.zero)%f64 then _ else _).
  assert (identity l2 = identity l ∧ lo_terminal_at l2 = lo_terminal_at l ∧
          lo_filled_qty l2 = lo_filled_qty l1 ∧ order_status l2 = order_status l)
    as (Hi2 & Ht2 & Hf2 & Hs2).
  { subst l2. by destruct (negb _). }
  clearbody l2. split; simpl.
  - by destruct (can_update_status _ _).
  - unfold filled_mono in *. destruct (can_update_status _ _); simpl; by rewrite Hf2.
  - intros t. rewrite <- Ht2. by destruct (can_update_status _ _).
  - by destruct (_ >? _)%f64.
  - destruct (_ >? _)%f64; simpl; [by apply prefix_app_r|done].
  - by destruct (_ >? _)%f64.
  - by destruct (_ >? _)%f64.
  - intros Hfin. left. cbn in *. rewrite <- Hs2. unfold is_final in Hfin. rewrite <- Hs2 in Hfin.
    destruct Hfin as [E|E]; by rewrite E.
Qed.

Lemma apply_trade_report_evolves trade both :
  evolves both (OrderStoreV2.apply_trade_report trade both).
Proof.
  destruct both as [l d]. split; simpl; try done.
  - by apply filled_mono_refl.
  - by apply prefix_app_r.
  - by apply status_kept_same.
Qed.

Lemma apply_fee_report_evolves fee l d :
  evolves (l, d) (l, OrderStoreV2.apply_fee_report fee d).
Proof.
  split; simpl; try done;
    [by apply filled_mono_refl|by apply prefix_app_r|by apply status_kept_same].
Qed.

Lemma apply_oms_error_evolves msg ts ty rej both :
  evolves both (OrderStoreV2.apply_oms_error msg ts ty rej both).
Proof.
  destruct both as [l d]. unfold OrderStoreV2.apply_oms_error.
  destruct (Z.eqb_spec ty (ExecType_i32 PlacingOrder)) as [->|];
    [destruct (lo_terminal_at l) eqn:E; simpl; rewrite E|];
    split; simpl; try first [done|by apply filled_mono_refl|by apply prefix_app_r|congruence
                            |by apply status_kept_same].
  all: intros _; right; unfold placing_errors; cbn [dl_exec_msgs snd]; cbn.
  all: rewrite filter_app, length_app, filter_cons_True; cbn; lia.
Qed.

(** ** Inferred trades *)

(** [2^-26] is the finest grid whose unit exceeds the [1e-8] fill tolerance. *)
Definition fill_grid (g : Z) : Prop := -26 ≤ g ≤ 971.

Lemma fill_grid_ok g : fill_grid g → grid_ok g.
Proof. unfold fill_grid, grid_ok. lia. Qed.

Lemma eps8_units : forallb (λ g, (eps8 <? of_grid g 1)%f64) (seqZ (-26) 998) = true.
Proof. vm_compute. reflexivity. Qed.

Lemma eps8_lt g k x : fill_grid g → on_grid g k x → (eps8 <? x)%f64 = (0 <? k).
Proof.
  intros Hg Hx. destruct (Z.ltb_spec 0 k).
  - assert (flt eps8 (of_grid g 1)) as H1.
    { pose proof eps8_units as Hall. rewrite forallb_forall in Hall. apply Hall.
      apply list_elem_of_In, elem_of_seqZ. unfold fill_grid in Hg. lia. }
    assert (fle (of_grid g 1) x) as H2.
    { unfold fle. rewrite (grid_leb g 1 k); [apply Z.leb_le; lia| |done].
      apply of_grid_on_grid; [by apply fill_grid_ok|]. unfold fits. lia. }
    destruct (fle_not_nan _ _ (flt_fle _ _ H1)) as [Hn1 _].
    destruct (fle_not_nan _ _ H2) as [_ Hn2].
    destruct (fle_total x eps8 Hn2 Hn1) as [H3|H3]; [|done].
    pose proof (flt_irrefl_le _ _ H1). pose proof (fle_trans _ _ _ H2 H3) as H4.
    unfold fle in H4. congruence.
  - apply fle_not_flt. assert (fle x f64.zero) as H1.
    { unfold fle. rewrite (grid_leb g k 0); [by apply Z.leb_le|done|apply grid_zero]. }
    eapply fle_trans; [exact H1|]. vm_compute. reflexivity.
Qed.

(** A sequence of state reports: reported cumulative quantity (grid mantissa),
    average price, exchange status, timestamp. *)
Definition state_report : Set := Z * f64 * ExchangeOrderStatus * Z.

Definition report_step (g : Z) (both : LiveOrder * OrderDetailLog) (r : state_report)
    : LiveOrder * OrderDetailLog :=
  let '(m, avg, status, ts) := r in
  OrderStoreV2.apply_state_report (Some (of_grid g m)) avg status ts both.

Definition reported (r : state_report) : Z := r.1.1.1.

(** The inferred trades of [o'] beyond those of [o] have quantities [qs]. *)
Definition inferred_since (g : Z) (o o' : LiveOrder * OrderDetailLog) (qs : list Z) : Prop :=
  ∃ new, dl_inferred_trades o'.2 = dl_inferred_trades o.2 ++ new ∧
         Forall2 (on_grid g) qs (tr_filled_qty <$> new) ∧ Forall (λ q, 0 < q) qs.

Section inferred.
Context (g : Z) (Hg : fill_grid g).

Lemma state_report_fills m0 m x avg status ts both :
  on_grid g m0 (lo_filled_qty both.1) → 0 ≤ m0 → 0 ≤ m → on_grid g m x →
  let both' := OrderStoreV2.apply_state_report (Some x) avg status ts both in
  on_grid g (Z.max m0 m) (lo_filled_qty both'.1) ∧
  ∃ qs, inferred_since g both both' qs ∧ Zsum qs = Z.max m0 m - m0.
Proof using Hg.
  destruct both as [l d]. simpl. intros Hm0 Hpos Hm Hx. pose proof (fill_grid_ok g Hg) as Hgo.
  unfold OrderStoreV2.apply_state_report.
  set (l1 := match _ with Some nf => _ | None => _ end).
  assert (on_grid g (Z.max m0 m) (lo_filled_qty l1)) as Hfill.
  { subst l1. unfold f64.eqb, SpecFloat.SFeqb.
    rewrite (grid_compare g m 0 _ _ Hx (grid_zero g)).
    destruct (Z.compare_spec m 0); simpl; [|rewrite Z.max_comm; by apply grid_max..].
    by rewrite Z.max_l by lia. }
  clearbody l1.
  set (l2 := if negb (avg =? f64.zero)%f64 then _ else _).
  assert (lo_filled_qty l2 = lo_filled_qty l1) as Hf2 by (subst l2; by destruct (negb _)).
  clearbody l2. rewrite <- Hf2 in Hfill. clear Hf2 l1.
  assert (on_grid g (Z.max m0 m - m0) (lo_filled_qty l2 - lo_filled_qty l)%f64) as Hinc.
  { apply grid_sub; [done..|]. apply on_grid_fits in Hfill. unfold fits in *. lia. }
  rewrite (eps8_lt g _ _ Hg Hinc). split.
  { simpl. by destruct (can_update_status _ _). }
  destruct (Z.ltb_spec 0 (Z.max m0 m - m0)).
  - exists [Z.max m0 m - m0]. split; [|simpl; lia]. eexists. split; [done|].
    split; [|auto]. constructor; [done|constructor].
  - exists []. split; [|simpl; lia]. exists []. simpl. by rewrite app_nil_r.
Qed.

Lemma report_step_spec m0 both r :
  on_grid g m0 (lo_filled_qty both.1) → 0 ≤ m0 → 0 ≤ reported r → fits (reported r) →
  let both' := report_step g both r in
  on_grid g (Z.max m0 (reported r)) (lo_filled_qty both'.1) ∧
  ∃ qs, inferred_since g both both' qs ∧ Zsum qs = Z.max m0 (reported r) - m0.
Proof using Hg.
  destruct r as [[[m avg] status] ts]. unfold reported. cbn. intros.
  apply state_report_fills; [done..|]. apply of_grid_on_grid; [by apply fill_grid_ok|done].
Qed.
End inferred.

(** Inferred trades add up.  For an order whose filled quantity is on a
    grid of unit at least [2^-26], any sequence of state reports of cumulative
    grid quantities leaves as filled quantity the maximum reported one, and
    appends inferred trades of strictly positive quantities whose exact sum is
    the increase: late, repeated and out-of-order state reports neither lose
    nor duplicate a fill. *)
Theorem inferred_trades_sum g m0 (both : LiveOrder * OrderDetailLog) rs :
  fill_grid g → 0 ≤ m0 → on_grid g m0 (lo_filled_qty both.1) →
  Forall (λ r, 0 ≤ reported r ∧ fits (reported r)) rs →
  let both' := foldl (report_step g) both rs in
  let m := foldl Z.max m0 (reported <$> rs) in
  on_grid g m (lo_filled_qty both'.1) ∧
  ∃ qs, inferred_since g both both' qs ∧ Zsum qs = m - m0.
Proof.
  intros Hg Hm0 Hfill Hrs. revert m0 both Hm0 Hfill.
  induction Hrs as [|r rs [Hr Hfr] Hrs IH]; intros m0 both Hm0 Hfill.
  { split; [done|]. exists []. split; [|simpl; lia]. exists []. by rewrite app_nil_r. }
  destruct (report_step_spec g Hg m0 both r Hfill Hm0 Hr Hfr) as [Hf1 (qs1 & Hi1 & Hs1)].
  destruct (IH (Z.max m0 (reported r)) (report_step g both r) ltac:(lia) Hf1)
    as [Hf2 (qs2 & Hi2 & Hs2)].
  split; [done|]. exists (qs1 ++ qs2). split; [|rewrite Zsum_app, Hs1, Hs2; rewrite fmap_cons; cbn [foldl]; lia].
  destruct Hi1 as (n1 & E1 & HF1 & HP1), Hi2 as (n2 & E2 & HF2 & HP2).
  exists (n1 ++ n2). simpl. split_and!.
  - by rewrite E2, E1, app_assoc.
  - rewrite fmap_app. by apply Forall2_app.
  - by apply Forall_app.
Qed.

Definition demo_live (qty : Z) : LiveOrder :=
  OrderStoreV2.new_live 1 (default_OrderRequest <| req_qty := of_grid 0 qty |>)
    (mkResolvedOrderMeta 7 0 0 0 0 0 None None false false false None 0 0)
    default_OrderAccountingFlags 0.

Lemma inferred_trades_sum_witness :
  let both := (demo_live 10, default_OrderDetailLog) in
  let r m : state_report := (m, f64.of_Z 100, ExchOrderStatusPartialFilled, 5) in
  let both' := foldl (report_step 0) both [r 3; r 3; r 2; r 7] in
  on_grid 0 7 (lo_filled_qty both'.1) ∧ ∃ qs, inferred_since 0 both both' qs ∧ Zsum qs = 7.
Proof.
  intros both r both'.
  apply (inferred_trades_sum 0 0 both [r 3; r 3; r 2; r 7]).
  - unfold fill_grid; lia.
  - lia.
  - reflexivity.
  - repeat constructor; vm_compute; congruence.
Defined.

(** ** Inferred states *)

Lemma lt_eps8 g k x : fill_grid g → on_grid g k x → 0 ≤ k → (x <? eps8)%f64 = (k =? 0).
Proof.
  intros Hg Hx Hk. destruct (Z.eqb_spec k 0) as [->|].
  - destruct x as [[]| | |s p e]; simpl in Hx; try done.
    destruct Hx as (_ & _ & Hx). by destruct s.
  - apply fle_not_flt, flt_fle. unfold flt. rewrite (eps8_lt g k x) by done. lia.
Qed.

(** The quantities of the trade entries of a report, in order. *)
Definition trade_qty (e : OrderReportEntry) : option f64 :=
  match ent_report e with Some (RTradeReport t) => Some (trr_filled_qty t) | _ => None end.
Definition trade_qtys (entries : list OrderReportEntry) : list f64 := omap trade_qty entries.

Lemma add_trade_entries_spec g entries qs acc a :
  fill_grid g → Forall2 (on_grid g) qs (trade_qtys entries) → Forall (λ q, 0 ≤ q) qs →
  on_grid g a acc.1.1 → 0 ≤ a → fits (a + Zsum qs) →
  let acc' := foldl OrderStoreV2.add_trade_entry acc entries in
  on_grid g (a + Zsum qs) acc'.1.1 ∧
  acc'.2 = acc.2 || bool_decide (qs ≠ []).
Proof.
  intros Hg. revert qs acc a. induction entries as [|e entries IH]; intros qs acc a Hqs Hpos Ha H0 Hf.
  { apply Forall2_nil_inv_r in Hqs as ->. simpl in *. by rewrite Z.add_0_r, orb_false_r. }
  destruct acc as [[q v] b]. simpl in *. unfold trade_qtys in Hqs. simpl in Hqs.
  unfold trade_qty, OrderStoreV2.add_trade_entry in *.
  destruct (ent_report e) as [[t| | | |]|] eqn:E; try (by apply IH).
  apply Forall2_cons_inv_r in Hqs as (k & qs' & Hk & Hqs & ->).
  apply Forall_cons in Hpos as [Hk0 Hpos]. simpl in Hf.
  assert (0 ≤ Zsum qs') as Hs.
  { by apply Zsum_nonneg. }
  destruct (IH qs' ((q + trr_filled_qty t)%f64, (v + trr_filled_qty t * trr_filled_price t)%f64, true)
             (a + k)) as [H1 H2]; simpl; try done.
  - apply grid_add; [by apply fill_grid_ok|done..|]. unfold fits in *. lia.
  - lia.
  - by rewrite <- Z.add_assoc.
  - simpl in *. rewrite H2. split; [|by destruct b].
    by rewrite Z.add_assoc.
Qed.

(** States inferred from trades.  For an open order and a report without a
    state entry whose trades carry grid quantities, a state is synthesised
    exactly when there is a trade and the cumulative traded quantity stays
    within the order quantity; it reports that quantity, the unfilled rest, and
    [Filled] exactly when nothing is left. *)
Theorem inferred_state_spec g entries live qs a n :
  fill_grid g → is_in_terminal_state live = false → existsb OrderStoreV2.is_state_entry entries = false →
  Forall2 (on_grid g) qs (trade_qtys entries) → Forall (λ q, 0 ≤ q) qs →
  on_grid g a (lo_acc_trades_filled_qty live) → 0 ≤ a → on_grid g n (lo_qty live) → 0 ≤ n →
  fits (Zsum qs + a) →
  match OrderStoreV2.infer_state_from_trades entries live with
  | None => qs = [] ∨ n < Zsum qs + a
  | Some e =>
      qs ≠ [] ∧ Zsum qs + a ≤ n ∧
      ∃ s, e = mkOrderReportEntry (OrderReportType_i32 OrderRepTypeState)
                 (Some (ROrderStateReport s)) ∧
        on_grid g (Zsum qs + a) (osr_filled_qty s) ∧
        on_grid g (n - (Zsum qs + a)) (osr_unfilled_qty s) ∧
        osr_exch_order_status s = ExchangeOrderStatus_i32
          (if Zsum qs + a =? n then ExchOrderStatusFilled else ExchOrderStatusPartialFilled)
  end.
Proof.
  intros Hg Hterm Hst Hqs Hpos Ha Ha0 Hn Hn0 Hf.
  pose proof (fill_grid_ok g Hg) as Hgo. pose proof (Zsum_nonneg qs Hpos) as Hs0.
  destruct (add_trade_entries_spec g entries qs (f64.zero, f64.zero, false) 0) as [Hq Hb];
    [done..|apply grid_zero|lia|unfold fits in *; lia|].
  unfold OrderStoreV2.infer_state_from_trades. rewrite Hterm, Hst.
  destruct (foldl OrderStoreV2.add_trade_entry _ entries) as [[q v] b]. simpl in Hq, Hb. subst b.
  destruct (bool_decide_reflect (qs ≠ [])) as [Hne|Hne]; simpl;
    [|left; by apply dec_stable].
  rewrite Z.add_0_l in Hq. pose proof (grid_add g Hgo _ _ _ _ Hq Ha Hf) as Ht.
  rewrite (grid_ltb g n (Zsum qs + a)) by done.
  destruct (Z.ltb_spec n (Zsum qs + a)); [by right|]. split_and!; [done|lia|].
  eexists. split; [reflexivity|]. simpl. split_and!; [done| |].
  - apply grid_sub; [done..|]. apply on_grid_fits in Hn. unfold fits in *. lia.
  - assert (on_grid g (Zsum qs + a - n) (q + lo_acc_trades_filled_qty live - lo_qty live)%f64)
      as Hd.
    { apply grid_sub; [done..|]. apply on_grid_fits in Hn. unfold fits in *. lia. }
    apply grid_abs in Hd. rewrite (lt_eps8 g _ _ Hg Hd) by lia.
    destruct (Z.eqb_spec (Z.abs (Zsum qs + a - n)) 0), (Z.eqb_spec (Zsum qs + a) n);
      first [done|lia].
Qed.

Definition demo_trade (q : Z) : OrderReportEntry :=
  mkOrderReportEntry (OrderReportType_i32 OrderRepTypeTrade)
    (Some (RTradeReport (default_TradeReport <| trr_filled_qty := of_grid 0 q |>
                           <| trr_filled_price := f64.of_Z 100 |>))).

Lemma inferred_state_spec_witness :
  ∃ e, OrderStoreV2.infer_state_from_trades [demo_trade 4; demo_trade 6] (demo_live 10) = Some e
    ∧ ∃ s, ent_report e = Some (ROrderStateReport s) ∧ on_grid 0 10 (osr_filled_qty s) ∧
        osr_exch_order_status s = ExchangeOrderStatus_i32 ExchOrderStatusFilled.
Proof.
  pose proof (inferred_state_spec 0 [demo_trade 4; demo_trade 6] (demo_live 10) [4; 6] 0 10) as H.
  destruct (OrderStoreV2.infer_state_from_trades _ _) as [e|] eqn:E.
  - exists e. split; [reflexivity|].
    destruct H as (_ & _ & s & -> & Hf & _ & Hs); try reflexivity; try lia.
    + unfold fill_grid; lia.
    + repeat constructor; vm_compute; intuition congruence.
    + repeat constructor; lia.
    + vm_compute; intuition congruence.
    + exists s. auto.
  - vm_compute in E. discriminate.
Defined.

(** ** Linkage and eviction *)

(** Exchange references resolve.  After [register_exch_ref] the reference
    leads to the order on that gateway, the order carries an id that resolves
    to the reference, and the resolution of every other reference, on any
    gateway, is unchanged. *)
Theorem registered_ref_resolves st oid gw ref :
  table_wf (os_dyn_strings st) →
  Z.of_nat (length (dyn_strs_by_id (os_dyn_strings st))) < 2 ^ 32 →
  let st' := OrderStoreV2.register_exch_ref oid gw ref st in
  OrderStoreV2.resolve_order_id 0 gw ref st' = Some oid ∧
  (∀ l, os_live st !! oid = Some l → ∃ l' id, os_live st' !! oid = Some l' ∧
     lo_exch_order_ref_id l' = Some id ∧
     DynStringTable.resolve (os_dyn_strings st') id = Returns ref) ∧
  (∀ gw' ref', ref' ≠ ref →
     OrderStoreV2.resolve_order_id 0 gw' ref' st' = OrderStoreV2.resolve_order_id 0 gw' ref' st).
Proof.
  intros Hwf Hlen st'.
  pose proof (intern_lookup ref _ Hwf Hlen) as [Hres Hidx].
  pose proof (intern_wf ref _ Hwf Hlen) as [_ Hwf'].
  pose proof (λ s' H, intern_lookup_ne ref s' (os_dyn_strings st) H) as Hne.
  subst st'. unfold OrderStoreV2.register_exch_ref. simpl in *.
  destruct (DynStringTable.intern ref (os_dyn_strings st)) as [id dyn]. simpl in *.
  split_and!.
  - unfold OrderStoreV2.resolve_order_id, DynStringTable.lookup. simpl. rewrite Hidx. simpl.
    by rewrite lookup_insert_eq.
  - intros l Hl. exists (l <| lo_exch_order_ref_id := Some id |>), id.
    rewrite lookup_alter_eq, Hl. split_and!; [done..|].
    unfold DynStringTable.resolve, DynStringTable.try_resolve, st_resolve in *. simpl in *.
    by rewrite Hres.
  - intros gw' ref' Hr. unfold OrderStoreV2.resolve_order_id, DynStringTable.lookup. simpl.
    rewrite (Hne ref') by done.
    destruct (dyn_ids_by_str (os_dyn_strings st) !! ref') as [id'|] eqn:E; simpl; [|done].
    rewrite lookup_insert_ne; [done|]. intros [= _ ->].
    rewrite <- (Hne ref') in E by done.
    apply Hwf' in E as [_ E]. unfold st_resolve in *. simpl in *. congruence.
Qed.

Lemma registered_ref_resolves_witness :
  let st := OrderStoreV2.register_exch_ref 1 0 "X-1" (OrderStoreV2.new 0 10 false) in
  OrderStoreV2.resolve_order_id 0 0 "X-2" (OrderStoreV2.register_exch_ref 2 0 "X-2" st) = Some 2
  ∧ OrderStoreV2.resolve_order_id 0 0 "X-1" (OrderStoreV2.register_exch_ref 2 0 "X-2" st) = Some 1.
Proof.
  intros st.
  assert (table_wf (os_dyn_strings st)) as Hwf.
  { change (os_dyn_strings st) with (st_intern "X-1" DynStringTable.new).2.
    apply intern_wf; [by apply table_wf_empty|simpl; lia]. }
  destruct (registered_ref_resolves st 2 0 "X-2" Hwf) as (H1 & _ & H3).
  - vm_compute. reflexivity.
  - split; [exact H1|]. rewrite H3 by discriminate. reflexivity.
Defined.

(** Closing and eviction.  [mark_closed] takes a stored order out of both
    open indexes and keeps the closed queue within capacity.  Below capacity
    nothing is dropped; at capacity exactly the longest-closed order loses its
    live record and its detail log; with no capacity the order itself is
    dropped. *)
Theorem mark_closed_spec st oid l :
  orders_wf st → os_live st !! oid = Some l →
  let st' := OrderStoreV2.mark_closed oid st in
  let n := Z.of_nat (length (os_closed_lru st)) in
  oid ∉ os_open_order_ids st' ∧
  oid ∉ default ∅ (os_open_by_account st' !! lo_account_id l) ∧
  Z.of_nat (length (os_closed_lru st')) ≤ os_max_cached_orders st' ∧
  (n < os_max_cached_orders st →
     os_live st' = os_live st ∧ os_detail st' = os_detail st ∧
     os_closed_lru st' = os_closed_lru st ++ [oid]) ∧
  (n = os_max_cached_orders st → ∀ oldest q, os_closed_lru st = oldest :: q →
     os_live st' = delete oldest (os_live st) ∧ os_detail st' = delete oldest (os_detail st) ∧
     os_closed_lru st' = q ++ [oid]) ∧
  (os_max_cached_orders st = 0 →
     os_live st' = delete oid (os_live st) ∧ os_detail st' = delete oid (os_detail st)).
Proof.
  intros Hwf Hl st' n. pose proof (ow_lru _ (mark_closed_wf st oid Hwf)) as Hcap.
  fold st' in Hcap.
  set (st1 := st <| os_open_order_ids ::= λ s, s ∖ {[oid]} |>
                 <| os_open_by_account ::= alter (λ s, s ∖ {[oid]}) (lo_account_id l) |>
                 <| os_closed_lru ::= λ q, q ++ [oid] |>).
  assert (st' = if os_max_cached_orders st <? n + 1 then
                  match os_closed_lru st ++ [oid] with
                  | oldest :: q => OrderStoreV2.cleanup_order oldest (st1 <| os_closed_lru := q |>)
                  | [] => st1 end
                else st1) as Est.
  { subst st' n. unfold OrderStoreV2.mark_closed. simpl. rewrite Hl. simpl.
    rewrite length_app. simpl. by rewrite Nat2Z.inj_add. }
  assert (∀ o q, let s := OrderStoreV2.cleanup_order o (st1 <| os_closed_lru := q |>) in
    os_open_order_ids s = os_open_order_ids st1 ∧
    os_open_by_account s = os_open_by_account st1 ∧ os_closed_lru s = q ∧
    os_live s = delete o (os_live st) ∧ os_detail s = delete o (os_detail st)) as Hclean.
  { intros o q. unfold OrderStoreV2.cleanup_order. simpl.
    destruct (os_live st !! o) as [lo|] eqn:Eo; simpl.
    - by destruct (lo_exch_order_ref_id lo).
    - by rewrite (delete_id (os_live st)). }
  assert (oid ∉ os_open_order_ids st1 ∧
          oid ∉ default ∅ (os_open_by_account st1 !! lo_account_id l)) as [Hop Hoa].
  { simpl. rewrite lookup_alter_eq.
    destruct (os_open_by_account st !! lo_account_id l); simpl; set_solver. }
  pose proof (ow_lru st Hwf) as Hlru. fold n in Hlru.
  assert (oid ∉ os_open_order_ids st' ∧
          oid ∉ default ∅ (os_open_by_account st' !! lo_account_id l)) as [Hop' Hoa'].
  { rewrite Est. destruct (_ <? _); [|done].
    destruct (os_closed_lru st ++ [oid]) as [|o q]; [done|].
    destruct (Hclean o q) as (-> & -> & _). done. }
  split_and!; [done..| | |].
  - intros Hn. rewrite Est, (proj2 (Z.ltb_ge _ _)) by lia. done.
  - intros Hn oldest q Eq. rewrite Est, (proj2 (Z.ltb_lt _ _)), Eq by lia. cbn [app].
    destruct (Hclean oldest (q ++ [oid])) as (_ & _ & -> & -> & ->). done.
  - intros Hn. assert (os_closed_lru st = []) as Eq.
    { apply length_zero_iff_nil. lia. }
    rewrite Est, (proj2 (Z.ltb_lt _ _)), Eq by lia. cbn [app].
    destruct (Hclean oid []) as (_ & _ & _ & -> & ->). done.
Qed.

Lemma mark_closed_spec_witness :
  let st := OrderStoreV2.put_live_and_detail 1 (demo_live 10, default_OrderDetailLog)
              (OrderStoreV2.new 0 10 false) in
  let st' := OrderStoreV2.mark_closed 1 st in
  os_closed_lru st' = [1] ∧ is_Some (os_live st' !! 1).
Proof.
  intros st st'.
  destruct (mark_closed_spec st 1 (demo_live 10)) as (_ & _ & _ & H & _).
  - apply put_wf; [by apply orders_wf_new|reflexivity|discriminate].
  - reflexivity.
  - destruct H as (H1 & _ & H3); [vm_compute; reflexivity|].
    split; [exact H3|]. unfold st'; rewrite H1. by exists (demo_live 10).
Defined.

(** An order that is closed for the first time survives its own closing. *)
Lemma mark_closed_keeps st oid :
  0 < os_max_cached_orders st → oid ∉ os_closed_lru st →
  os_live (OrderStoreV2.mark_closed oid st) !! oid = os_live st !! oid.
Proof.
  intros Hm Hn. unfold OrderStoreV2.mark_closed.
  set (st1 := match os_live _ !! oid with Some _ => _ | None => _ end).
  assert (os_live st1 = os_live st ∧ os_closed_lru st1 = os_closed_lru st ∧
    os_max_cached_orders st1 = os_max_cached_orders st) as (E1 & E2 & E3).
  { subst st1. by destruct (os_live _ !! oid). }
  clearbody st1. cbn. destruct (_ <? _) eqn:Hlt; [|cbn; by rewrite E1]. rewrite E2.
  destruct (os_closed_lru st) as [|o q] eqn:Eq; cbn [app].
  - apply Z.ltb_lt in Hlt. rewrite E3, E2 in Hlt. cbn in Hlt. lia.
  - unfold OrderStoreV2.cleanup_order. cbn. rewrite E1.
    assert (o ≠ oid) by set_solver.
    destruct (os_live st !! o) as [lo|] eqn:Eo; cbn; [|by rewrite E1].
    destruct (lo_exch_order_ref_id lo); cbn; by rewrite E1, lookup_delete_ne.
Qed.

Lemma mark_closed_live st oid oid' l :
  os_live (OrderStoreV2.mark_closed oid st) !! oid' = Some l → os_live st !! oid' = Some l.
Proof.
  unfold OrderStoreV2.mark_closed.
  set (st1 := match os_live _ !! oid with Some _ => _ | None => _ end).
  assert (os_live st1 = os_live st) as E1 by (subst st1; by destruct (os_live _ !! oid)).
  clearbody st1. cbn. destruct (_ <? _); [|cbn; by rewrite E1].
  destruct (os_closed_lru st1 ++ [oid]) as [|o q]; cbn; [by rewrite E1|].
  unfold OrderStoreV2.cleanup_order. cbn. rewrite E1.
  destruct (os_live st !! o) as [lo|]; cbn; [|by rewrite E1].
  destruct (lo_exch_order_ref_id lo); cbn; rewrite E1; by intros [_ ?]%lookup_delete_Some.
Qed.

Lemma mark_closed_not_open st oid :
  oid ∉ os_open_order_ids (OrderStoreV2.mark_closed oid st).
Proof.
  assert (∀ o s, os_open_order_ids (OrderStoreV2.cleanup_order o s) = os_open_order_ids s)
    as Hc.
  { intros o s. unfold OrderStoreV2.cleanup_order. destruct (os_live s !! o) as [l|]; [|done].
    by destruct (lo_exch_order_ref_id l). }
  unfold OrderStoreV2.mark_closed. set (st1 := match _ with Some _ => _ | None => _ end).
  assert (os_open_order_ids st1 = os_open_order_ids st ∖ {[oid]}) as E1.
  { subst st1. cbn. by destruct (os_live st !! oid). }
  clearbody st1. cbn. destruct (_ <? _); [destruct (_ ++ _)|]; rewrite ?Hc; cbn; rewrite E1;
    set_solver.
Qed.

(** ** Histories of the whole store *)

(** What happened to order [oid] between two stores: it stayed absent, it was
    evicted, or it evolved. *)
Definition kept (oid : Z) (st st' : OrderStoreV2) : Prop :=
  match OrderStoreV2.get_live_and_detail oid st, OrderStoreV2.get_live_and_detail oid st' with
  | Some o, Some o' => evolves o o'
  | None, Some _ => False
  | _, None => True
  end.

#[export] Instance kept_preorder oid : PreOrder (kept oid).
Proof.
  split; unfold kept.
  - intros st. by destruct (OrderStoreV2.get_live_and_detail oid st).
  - intros st1 st2 st3.
    destruct (OrderStoreV2.get_live_and_detail oid st1),
      (OrderStoreV2.get_live_and_detail oid st2),
      (OrderStoreV2.get_live_and_detail oid st3); try done. apply transitivity.
Qed.

Section kept.
Implicit Types (st : OrderStoreV2).

Lemma kept_same oid st st' :
  os_live st' !! oid = os_live st !! oid → os_detail st' !! oid = os_detail st !! oid →
  kept oid st st'.
Proof.
  intros Hl Hd. unfold kept, OrderStoreV2.get_live_and_detail. rewrite Hl, Hd.
  destruct (os_live st !! oid); simpl; [|done]. by destruct (os_detail st !! oid); simpl.
Qed.

Lemma kept_put oid oid0 st o o' :
  OrderStoreV2.get_live_and_detail oid0 st = Some o → evolves o o' →
  kept oid st (OrderStoreV2.put_live_and_detail oid0 o' st).
Proof.
  intros Ho Hev. destruct (decide (oid0 = oid)) as [->|Hne].
  - unfold kept. rewrite Ho. unfold OrderStoreV2.get_live_and_detail. simpl.
    rewrite !lookup_insert_eq. simpl. by destruct o'.
  - apply kept_same; simpl; by rewrite lookup_insert_ne.
Qed.

Lemma kept_update_live oid oid0 f st :
  (∀ l d, os_live st !! oid0 = Some l → evolves (l, d) (f l, d)) →
  kept oid st (OrderStoreV2.update_live f oid0 st).
Proof.
  intros Hf. destruct (decide (oid0 = oid)) as [->|Hne].
  - unfold kept, OrderStoreV2.get_live_and_detail. simpl. rewrite lookup_alter_eq.
    destruct (os_live st !! oid) as [l|]; simpl; [|done].
    destruct (os_detail st !! oid) as [d|]; simpl; auto.
  - apply kept_same; simpl; by rewrite ?lookup_alter_ne.
Qed.

Lemma kept_update_detail oid oid0 f st :
  (∀ l d, evolves (l, d) (l, f d)) → kept oid st (OrderStoreV2.update_detail f oid0 st).
Proof.
  intros Hf. destruct (decide (oid0 = oid)) as [->|Hne].
  - unfold kept, OrderStoreV2.get_live_and_detail. simpl. rewrite lookup_alter_eq.
    destruct (os_live st !! oid) as [l|]; simpl; [|done].
    destruct (os_detail st !! oid) as [d|]; simpl; auto.
  - apply kept_same; simpl; by rewrite ?lookup_alter_ne.
Qed.

Lemma kept_cleanup oid oid0 st : kept oid st (OrderStoreV2.cleanup_order oid0 st).
Proof.
  destruct (decide (oid0 = oid)) as [->|Hne].
  - unfold kept, OrderStoreV2.get_live_and_detail, OrderStoreV2.cleanup_order. simpl.
    rewrite lookup_delete_eq.
    set (st1 := match os_live st !! oid with Some _ => _ | None => _ end).
    assert (os_live st1 !! oid = None) as ->.
    { subst st1. destruct (os_live st !! oid) as [l|] eqn:E; [|done].
      destruct (lo_exch_order_ref_id l); simpl; apply lookup_delete_eq. }
    by destruct (os_live st !! oid ≫= _).
  - apply kept_same; unfold OrderStoreV2.cleanup_order; simpl.
    + destruct (os_live st !! oid0) as [l|]; [|done].
      destruct (lo_exch_order_ref_id l); simpl; by rewrite lookup_delete_ne.
    + rewrite lookup_delete_ne by done. destruct (os_live st !! oid0) as [l|]; [|done].
      by destruct (lo_exch_order_ref_id l).
Qed.

Lemma kept_mark_closed oid oid0 st : kept oid st (OrderStoreV2.mark_closed oid0 st).
Proof.
  unfold OrderStoreV2.mark_closed.
  set (st1 := match os_live _ !! oid0 with Some live => _ | None => _ end).
  assert (os_live st1 = os_live st ∧ os_detail st1 = os_detail st) as [Hl Hd].
  { subst st1. by destruct (os_live _ !! oid0). }
  clearbody st1. simpl.
  destruct (_ <? _); [|by apply kept_same; simpl; rewrite ?Hl, ?Hd].
  destruct (os_closed_lru st1 ++ [oid0]) as [|o q];
    [by apply kept_same; simpl; rewrite ?Hl, ?Hd|].
  etrans; [|apply kept_cleanup]. by apply kept_same; simpl; rewrite ?Hl, ?Hd.
Qed.

Lemma kept_register oid oid0 gw ref st :
  kept oid st (OrderStoreV2.register_exch_ref oid0 gw ref st).
Proof.
  unfold OrderStoreV2.register_exch_ref.
  destruct (DynStringTable.intern ref (os_dyn_strings st)) as [id dyn].
  etrans; [|apply kept_update_live; intros l d _; by apply evolves_live].
  by apply kept_same.
Qed.

Lemma kept_promotion oid oid0 st :
  kept oid st (OrderStoreV2.apply_linkage_promotion oid0 st).
Proof.
  apply kept_update_live. intros l d _. apply evolves_live; try by destruct (order_status l).
  by intros [E|E]; rewrite E.
Qed.

Lemma kept_create oid now oid0 req meta flags gw_req st :
  oid ≠ oid0 → kept oid st (OrderStoreV2.create_order now oid0 req meta flags gw_req st).
Proof. intros. apply kept_same; simpl; by rewrite lookup_insert_ne. Qed.

Lemma kept_create_external oid gw ref acct ts src st :
  oid ≠ os_id_counter st →
  kept oid st (OrderStoreV2.create_external_order gw ref acct ts src st).2.
Proof.
  intros. unfold OrderStoreV2.create_external_order, gen_order_id. simpl.
  destruct (DynStringTable.intern ref _) as [id dyn].
  apply kept_same; simpl; by rewrite lookup_insert_ne.
Qed.
End kept.

#[export] Hint Resolve kept_mark_closed kept_register kept_promotion kept_create
  kept_create_external : zk.

(** Writing back an evolved order. *)
Lemma get_both_Some oid st o :
  OrderStoreV2.get_live_and_detail oid st = Some o →
  os_live st !! oid = Some o.1 ∧ os_detail st !! oid = Some o.2.
Proof.
  unfold OrderStoreV2.get_live_and_detail. intros (l & Hl & (d & Hd & [= <-])%bind_Some)%bind_Some.
  done.
Qed.

Lemma put_evolved_wf oid st o o' :
  orders_wf st → OrderStoreV2.get_live_and_detail oid st = Some o → evolves o o' →
  lo_exch_order_ref_id o'.1 = lo_exch_order_ref_id o.1 →
  orders_wf (OrderStoreV2.put_live_and_detail oid o' st).
Proof.
  intros Hwf Ho Hev Href. apply get_both_Some in Ho as [Hl Hd].
  apply put_wf; [done| |].
  - pose proof (ev_identity _ _ Hev) as E. injection E as -> _. by apply (ow_id st Hwf).
  - intros id Hid. rewrite Href in Hid. by eapply (ow_ref st Hwf).
Qed.

Lemma apply_state_report_ref fq avg status ts both :
  lo_exch_order_ref_id (OrderStoreV2.apply_state_report fq avg status ts both).1 =
  lo_exch_order_ref_id both.1.
Proof.
  destruct both as [l d]. simpl.
  destruct (can_update_status _ _), (negb _), fq as [q|]; simpl; try done;
    by destruct (negb _).
Qed.

Lemma apply_oms_error_ref msg ts ty rej both :
  lo_exch_order_ref_id (OrderStoreV2.apply_oms_error msg ts ty rej both).1 =
  lo_exch_order_ref_id both.1.
Proof.
  destruct both as [l d]. simpl. destruct (ty =? _); [|done]. simpl.
  by destruct (lo_terminal_at l).
Qed.
