(* ===== verification/OmsCore.v ===== *)
(** * The OMS state machine ([oms_core_v2.rs])

    [OmsCoreV2] composes the metadata tables, the order, reservation, position
    and balance stores, and handles one message at a time.  A handler is a
    function from the core to an [outcome] of the emitted actions and the new
    core: [Panics] marks the [unwrap]s and indexings of the source.

    [clk] is the wall clock of one handled message: [clk k] is what the [k]-th
    [gen_timestamp_ms()] call site of the handler reads. *)

From S2P Require Import Prelude F64 Proto Intern Models Reservation Position Balance.
From S2P Require Import Config Metadata Utils OrderStore.

Record OmsCoreV2 : Type := mkOmsCoreV2 {
  c_metadata : MetadataTables;
  c_orders : OrderStoreV2;
  c_reservations : ReservationStoreV2;
  c_positions : PositionStoreV2;
  c_balances : BalanceStoreV2;
  c_pending_reports : gmap (Z * DynStrId) (list OrderReport);
  c_panic_accounts : gset Z;
  c_retry_state : RetryState;
  c_use_time_emulation : bool;
  c_risk_check_enabled : bool;
  c_handle_external_orders : bool;
}.
#[export] Instance eta_OmsCoreV2 : Eta OmsCoreV2 := λ r,
  mkOmsCoreV2 (c_metadata r) (c_orders r) (c_reservations r) (c_positions r) (c_balances r)
    (c_pending_reports r) (c_panic_accounts r) (c_retry_state r) (c_use_time_emulation r)
    (c_risk_check_enabled r) (c_handle_external_orders r).

(** What a handler returns. *)
Definition handled : Type := outcome (list OmsActionV2 * OmsCoreV2).

(** The publish action that only carries the last execution message. *)
Definition publish_exec (order_id : Z) : OmsActionV2 :=
  PublishOrderUpdate order_id false false true false.

Definition oms_rejection (reason : Z) : Rejection :=
  default_Rejection <| rej_source := OmsReject |> <| rej_reason := reason |>.

Definition default_trading_meta : TradingMeta :=
  mkTradingMeta 0 false false false (f64.of_Z 1) None true false false.

Module OmsCoreV2.
Implicit Types (c : OmsCoreV2).

(** [if self.use_time_emulation { emulated } else { gen_timestamp_ms() }] *)
Definition timestamp c (emulated now : Z) : Z :=
  if c_use_time_emulation c then emulated else now.

(** [OrderStoreV2::apply_oms_error] on the stored order: the two references are
    obtained by [get_live_and_detail_mut(order_id).unwrap()]. *)
Definition oms_error (order_id : Z) (error_msg : message) (ts : Z) (exec_type : ExecType)
    (rejection : Rejection) (orders : OrderStoreV2) : outcome OrderStoreV2 :=
  both ← unwrap "get_live_and_detail_mut(order_id)"
           (OrderStoreV2.get_live_and_detail order_id orders);
  mret (OrderStoreV2.put_live_and_detail order_id
          (OrderStoreV2.apply_oms_error error_msg ts (ExecType_i32 exec_type) rejection both)
          orders).

(** Release of what a non-filled sell still holds frozen. *)
Definition unfreeze_remaining (order_id account_id : Z) (flags : OrderAccountingFlags) c
    : OmsCoreV2 :=
  match af_pos_instrument_id flags with
  | Some pos_id =>
      if negb (af_is_buy flags) then
        let remaining :=
          default f64.zero ((λ l, (lo_qty l - lo_filled_qty l)%f64) <$>
                              OrderStoreV2.get_live order_id (c_orders c)) in
        if (remaining >? f64.zero)%f64 then
          c <| c_positions ::= PositionStoreV2.unfreeze account_id pos_id remaining |>
        else c
      else c
  | None => c
  end.

(** ** Gateway send failures *)

Definition process_gateway_send_failed (clk : nat → Z) (order_id : Z) (error_msg : string) c
    : handled :=
  match OrderStoreV2.get_live order_id (c_orders c) with
  | None => mret ([], c)
  | Some live =>
      if is_in_terminal_state live then mret ([], c)
      else
        let account_id := lo_account_id live in
        let flags := lo_accounting_flags live in
        let ts := clk 0%nat in
        let rejection := oms_rejection RejReasonOmsInternalError in
        let full_msg := text ("gateway send failed: " +:+ error_msg) in
        orders ← oms_error order_id full_msg ts PlacingOrder rejection (c_orders c);
        let c := c <| c_orders := OrderStoreV2.mark_closed order_id orders |> in
        let c := c <| c_reservations ::= ReservationStoreV2.release order_id |> in
        let c := unfreeze_remaining order_id account_id flags c in
        mret ([PersistOrder order_id true true; publish_exec order_id], c)
  end.

Definition process_gateway_cancel_send_failed (clk : nat → Z) (order_id : Z)
    (error_msg : string) c : handled :=
  match OrderStoreV2.get_live order_id (c_orders c) with
  | None => mret ([], c)
  | Some live =>
      if is_in_terminal_state live then mret ([], c)
      else
        let ts := clk 0%nat in
        let rejection := oms_rejection RejReasonOmsInternalError in
        let full_msg := text ("gateway cancel send failed: " +:+ error_msg) in
        orders ← oms_error order_id full_msg ts Cancel rejection (c_orders c);
        mret ([PersistOrder order_id false false; publish_exec order_id],
              c <| c_orders := orders |>)
  end.

(** ** Order placement *)

Definition resolve_order_meta (req : OrderRequest) c : result ResolvedOrderMeta (list string) :=
  let md := c_metadata c in
  match MetadataTables.route (req_account_id req) md with
  | None => Err ["no route for account " +:+ display_i64 (req_account_id req)]
  | Some route =>
      match MetadataTables.resolve_instrument (req_instrument_code req) md with
      | None => Err ["unknown instrument " +:+ req_instrument_code req]
      | Some instrument =>
          let tc := default default_trading_meta
                      (MetadataTables.trading (im_instrument_id instrument) md) in
          let '(fund_asset_id, pos_instrument_id) :=
            if im_instrument_type instrument =? SPOT_INSTRUMENT_TYPE then
              (im_quote_asset_id instrument, im_base_asset_sym instrument)
            else
              let fund :=
                match im_settlement_asset_id instrument with
                | Some id => Some id
                | None => im_quote_asset_id instrument
                end in
              (fund, Some (im_instrument_code_sym instrument)) in
          Ok {| rm_account_id := req_account_id req;
                rm_gw_id := rtm_gw_id route;
                rm_instrument_id := im_instrument_id instrument;
                rm_instrument_exch_sym := im_instrument_exch_sym instrument;
                rm_exch_account_sym := rtm_exch_account_sym route;
                rm_source_sym := 0;
                rm_fund_asset_id := fund_asset_id;
                rm_pos_instrument_id := pos_instrument_id;
                rm_bookkeeping_balance := tm_bookkeeping_balance tc;
                rm_balance_check := tm_balance_check tc;
                rm_use_margin := tm_use_margin tc;
                rm_max_order_size := tm_max_order_size tc;
                rm_qty_precision := im_qty_precision instrument;
                rm_price_precision := im_price_precision instrument |}
      end
  end.

Definition build_gw_request (now : Z) (req : OrderRequest) (meta : ResolvedOrderMeta) c
    : outcome SendOrderRequest :=
  let qty := if rm_qty_precision meta >? 0
             then round_to_precision (req_qty req) (rm_qty_precision meta)
             else req_qty req in
  let price := if rm_price_precision meta >? 0
               then round_to_precision (req_price req) (rm_price_precision meta)
               else req_price req in
  let ts := timestamp c (req_timestamp req) now in
  exch_account_id ← MetadataTables.str_resolve (rm_exch_account_sym meta) (c_metadata c);
  instrument ← MetadataTables.str_resolve (rm_instrument_exch_sym meta) (c_metadata c);
  let gw_req := default_SendOrderRequest in
  let gw_req := gw_req <| gwreq_exch_account_id := exch_account_id |> in
  let gw_req := gw_req <| gwreq_order_type := req_order_type req |> in
  let gw_req := gw_req <| gwreq_buysell_type := req_buy_sell_type req |> in
  let gw_req := gw_req <| gwreq_openclose_type := req_open_close_type req |> in
  let gw_req := gw_req <| gwreq_correlation_id := req_order_id req |> in
  let gw_req := gw_req <| gwreq_instrument := instrument |> in
  let gw_req := gw_req <| gwreq_scaled_qty := qty |> in
  let gw_req := gw_req <| gwreq_scaled_price := price |> in
  let gw_req := gw_req <| gwreq_timestamp := ts |> in
  let gw_req := gw_req <| gwreq_time_inforce_type := req_time_inforce_type req |> in
  mret (match req_extra_properties req with
        | Some extra => gw_req <| gwreq_exch_specific_params := Some extra |>
        | None => gw_req
        end).

(** The rejection path of [process_order]: the order is created, marked
    rejected and closed, and the rejection is published. *)
Definition reject_order (now : Z) (req : OrderRequest) (meta : ResolvedOrderMeta)
    (flags : OrderAccountingFlags) (error_msg : message) (ts reason : Z) c : handled :=
  let order_id := req_order_id req in
  let orders := OrderStoreV2.create_order now order_id req meta flags None (c_orders c) in
  orders ← oms_error order_id error_msg ts PlacingOrder (oms_rejection reason) orders;
  let orders := OrderStoreV2.mark_closed order_id orders in
  mret ([publish_exec order_id], c <| c_orders := orders |>).

Definition stub_meta (account_id : Z) : ResolvedOrderMeta :=
  mkResolvedOrderMeta account_id 0 0 0 0 0 None None false false false None 0 0.

(** Step 3, the risk check: the size limit the request exceeds. *)
Definition risk_violation (req : OrderRequest) (meta : ResolvedOrderMeta) c : option f64 :=
  if c_risk_check_enabled c then
    match rm_max_order_size meta with
    | Some max_size => if (req_qty req >? max_size)%f64 then Some max_size else None
    | None => None
    end
  else None.

Definition order_flags (req : OrderRequest) (meta : ResolvedOrderMeta) : OrderAccountingFlags :=
  mkOrderAccountingFlags (rm_bookkeeping_balance meta) (rm_balance_check meta)
    (rm_use_margin meta) (req_buy_sell_type req =? BsBuy) (rm_fund_asset_id meta)
    (rm_pos_instrument_id meta).

(** Step 4: check and reserve cash for a buy, check and freeze inventory for a
    sell. *)
Definition pre_trade (req : OrderRequest) (meta : ResolvedOrderMeta) c
    : result unit message * OmsCoreV2 :=
  let order_id := req_order_id req in
  let account_id := req_account_id req in
  if rm_bookkeeping_balance meta && negb (rm_use_margin meta) then
    if req_buy_sell_type req =? BsBuy then
      match rm_fund_asset_id meta with
      | Some fund_id =>
          if rm_balance_check meta then
            let cost := (req_qty req * req_price req)%f64 in
            let avail :=
              default f64.zero ((λ b, bal_avail_qty (ebs_balance_state b)) <$>
                BalanceStoreV2.get_balance account_id fund_id (c_balances c)) in
            match ReservationStoreV2.check_available account_id fund_id cost avail
                    (c_reservations c) with
            | Err e => (Err e, c)
            | Ok _ =>
                (Ok tt, c <| c_reservations ::= λ r,
                  (ReservationStoreV2.reserve order_id account_id CashAsset fund_id cost r).2 |>)
            end
          else (Ok tt, c)
      | None => (Ok tt, c)
      end
    else
      match rm_pos_instrument_id meta with
      | Some pos_id =>
          let is_short := false in
          let '(r, positions) :=
            PositionStoreV2.check_and_freeze account_id pos_id (req_qty req) is_short
              (c_positions c) in
          let c := c <| c_positions := positions |> in
          match r with
          | Err e => (Err e, c)
          | Ok _ =>
              (Ok tt, c <| c_reservations ::= λ r,
                (ReservationStoreV2.reserve order_id account_id InventoryInstrument pos_id
                   (req_qty req) r).2 |>)
          end
      | None => (Ok tt, c)
      end
  else (Ok tt, c).

(** Steps 5 to 7: build the gateway request, store the order, emit. *)
Definition accept_order (clk : nat → Z) (req : OrderRequest) (meta : ResolvedOrderMeta)
    (ts : Z) c : handled :=
  let order_id := req_order_id req in
  gw_req ← build_gw_request (clk 1%nat) req meta c;
  let scaled_price := gwreq_scaled_price gw_req in
  let scaled_qty := gwreq_scaled_qty gw_req in
  let orders := OrderStoreV2.create_order (clk 2%nat) order_id req meta (order_flags req meta)
                  (Some gw_req) (c_orders c) in
  let orders := OrderStoreV2.update_live (λ live,
    live <| lo_price := scaled_price |> <| lo_qty := scaled_qty |>) order_id orders in
  mret ([PersistOrder order_id false false; SendOrderToGw (rm_gw_id meta) order_id ts],
        c <| c_orders := orders |>).

(** [meta.source_sym = self.metadata.strings.intern(&req.source_id)] *)
Definition intern_source (req : OrderRequest) (meta : ResolvedOrderMeta) c
    : ResolvedOrderMeta * OmsCoreV2 :=
  if negb (is_empty (req_source_id req)) then
    let '(sym, md) := MetadataTables.intern (req_source_id req) (c_metadata c) in
    (meta <| rm_source_sym := sym |>, c <| c_metadata := md |>)
  else (meta, c).

Definition process_order (clk : nat → Z) (req : OrderRequest) c : handled :=
  let ts := timestamp c (req_timestamp req) (clk 0%nat) in
  match validate_order_request req with
  | Err _ => mret ([], c)
  | Ok _ =>
      if bool_decide (req_account_id req ∈ c_panic_accounts c) then mret ([], c)
      else
        match resolve_order_meta req c with
        | Err errors =>
            reject_order (clk 2%nat) req (stub_meta (req_account_id req))
              default_OrderAccountingFlags (text (String.concat "; " errors)) ts
              RejReasonOmsInternalError c
        | Ok meta =>
            let '(meta, c) := intern_source req meta c in
            match risk_violation req meta c with
            | Some max_size =>
                reject_order (clk 2%nat) req meta default_OrderAccountingFlags
                  [Lit "order qty "; DispF64 (req_qty req); Lit " exceeds max ";
                   DispF64 max_size] ts RejReasonOmsInvalidState c
            | None =>
                let '(checked, c) := pre_trade req meta c in
                match checked with
                | Err e =>
                    reject_order (clk 2%nat) req meta (order_flags req meta) e ts
                      RejReasonOmsInvalidState c
                | Ok _ => accept_order clk req meta ts c
                end
            end
        end
  end.

(** ** Cancel *)

Definition resolve_exch_ref (live : LiveOrder) (orders : OrderStoreV2) : outcome string :=
  match lo_exch_order_ref_id live with
  | Some id => DynStringTable.resolve (os_dyn_strings orders) id
  | None => mret ""
  end.

Definition process_cancel (clk : nat → Z) (req : OrderCancelRequest) c : handled :=
  let order_id := creq_order_id req in
  match validate_cancel_request req with
  | Err _ => mret ([], c)
  | Ok _ =>
      match OrderStoreV2.get_live order_id (c_orders c) with
      | None => mret ([], c)
      | Some live =>
          exch_ref_str ← resolve_exch_ref live (c_orders c);
          if lo_is_external live then mret ([], c)
          else if is_in_terminal_state live then
            let ts := timestamp c (creq_timestamp req) (clk 0%nat) in
            orders ← oms_error order_id (text "cannot cancel terminal order") ts Cancel
                       (oms_rejection RejReasonOmsInternalError) (c_orders c);
            mret ([publish_exec order_id], c <| c_orders := orders |>)
          else
            let cancel_req :=
              default_CancelOrderRequest <| gwcan_order_id := order_id |>
                <| gwcan_exch_order_ref := exch_ref_str |>
                <| gwcan_timestamp := timestamp c (creq_timestamp req) (clk 1%nat) |> in
            let orders := OrderStoreV2.update_detail
              (λ d, d <| dl_cancel_req := Some cancel_req |>) order_id (c_orders c) in
            _ ← unwrap "get_live_mut(order_id)" (OrderStoreV2.get_live order_id orders);
            let orders := OrderStoreV2.update_live
              (λ l, l <| lo_cancel_attempts ::= λ n, wrap_u32 (n + 1) |>) order_id orders in
            mret ([SendCancelToGw (lo_gw_id live) order_id], c <| c_orders := orders |>)
      end
  end.

(** ** Order reports *)

(** The flags [process_report_for_order] collects over the entries. *)
Record ReportFlags : Set := mkReportFlags {
  rf_original_order_updated : bool;
  rf_new_trade : bool;
  rf_new_oms_trade : bool;
  rf_new_fee : bool;
  rf_new_exec_msg : bool;
}.
#[global] Instance eta_ReportFlags : Eta ReportFlags := λ r,
  mkReportFlags (rf_original_order_updated r) (rf_new_trade r) (rf_new_oms_trade r)
    (rf_new_fee r) (rf_new_exec_msg r).

Definition no_flags : ReportFlags := mkReportFlags false false false false false.

(** Both stored records of the order, or a panic. *)
Definition both_mut (order_id : Z) c : outcome (LiveOrder * OrderDetailLog) :=
  unwrap "get_live_and_detail_mut(order_id)"
    (OrderStoreV2.get_live_and_detail order_id (c_orders c)).
Definition put_both (order_id : Z) (both : LiveOrder * OrderDetailLog) c : OmsCoreV2 :=
  c <| c_orders ::= OrderStoreV2.put_live_and_detail order_id both |>.

Definition apply_linkage_entry (order_id gw_id : Z) (linkage_only : bool)
    (linkage : OrderIdLinkageReport) (acc : ReportFlags * OmsCoreV2)
    : ReportFlags * OmsCoreV2 :=
  let '(fl, c) := acc in
  let c := c <| c_orders ::=
    OrderStoreV2.register_exch_ref order_id gw_id (lnk_exch_order_ref linkage) |> in
  if linkage_only then
    (fl <| rf_original_order_updated := true |>,
     c <| c_orders ::= OrderStoreV2.apply_linkage_promotion order_id |>)
  else (fl, c).

Definition apply_state_entry (order_id ts : Z) (state_report : OrderStateReport)
    (acc : ReportFlags * OmsCoreV2) : outcome (ReportFlags * OmsCoreV2) :=
  let '(fl, c) := acc in
  '(live, detail) ← both_mut order_id c;
  let new_filled :=
    if negb (osr_filled_qty state_report =? f64.zero)%f64 then
      Some (osr_filled_qty state_report)
    else if negb (osr_unfilled_qty state_report =? f64.zero)%f64 then
      Some (lo_qty live - osr_unfilled_qty state_report)%f64
    else None in
  let inferred_before := length (dl_inferred_trades detail) in
  let exch_status := default ExchOrderStatusUnspecified
    (ExchangeOrderStatus_try_from (osr_exch_order_status state_report)) in
  let both := OrderStoreV2.apply_state_report new_filled (osr_avg_price state_report)
                exch_status ts (live, detail) in
  let fl := fl <| rf_original_order_updated := true |> in
  let fl :=
    if (inferred_before <? length (dl_inferred_trades both.2))%nat
    then fl <| rf_new_oms_trade := true |> else fl in
  mret (fl, put_both order_id both c).

(** [self.metadata.instrument(id).map(|i| str_resolve(code_sym)).unwrap_or_default()] *)
Definition instrument_code (instrument_id : Z) c : outcome string :=
  match MetadataTables.instrument instrument_id (c_metadata c) with
  | Some i => MetadataTables.str_resolve (im_instrument_code_sym i) (c_metadata c)
  | None => mret ""
  end.

Definition apply_trade_entry (order_id ts : Z) (trade_report : TradeReport)
    (acc : ReportFlags * OmsCoreV2) : outcome (ReportFlags * OmsCoreV2) :=
  let '(fl, c) := acc in
  live ← unwrap "get_live(order_id)" (OrderStoreV2.get_live order_id (c_orders c));
  ext_ref ← resolve_exch_ref live (c_orders c);
  inst_code ← instrument_code (lo_instrument_id live) c;
  let trade := default_Trade <| tr_order_id := lo_order_id live |>
    <| tr_ext_order_ref := ext_ref |>
    <| tr_ext_trade_id := trr_exch_trade_id trade_report |>
    <| tr_filled_qty := trr_filled_qty trade_report |>
    <| tr_filled_price := trr_filled_price trade_report |>
    <| tr_filled_ts := ts |>
    <| tr_account_id := lo_account_id live |>
    <| tr_buy_sell_type := lo_buy_sell_type live |>
    <| tr_instrument := inst_code |>
    <| tr_fill_type := trr_fill_type trade_report |>
    <| tr_exch_pnl := trr_exch_pnl trade_report |> in
  both ← both_mut order_id c;
  mret (fl <| rf_new_trade := true |> <| rf_original_order_updated := true |>,
        put_both order_id (OrderStoreV2.apply_trade_report trade both) c).

(** The OMS reading of a gateway execution report. *)
Definition oms_exec_type (exec_report : ExecReport) : ExecType :=
  match default ExchExecUnspecified (ExchExecType_try_from (exr_exec_type exec_report)) with
  | ExchRejected => PlacingOrder
  | CancelReject => Cancel
  | _ => ExecUnspecified
  end.

Definition exec_error_msg (exec_report : ExecReport) (rejection : Rejection) : string :=
  match exr_error_info exec_report with
  | Some err_info =>
      "err from gw: code=" +:+ display_i64 (eei_error_code err_info) +:+ ", msg=" +:+
      eei_error_message err_info
  | None =>
      if negb (is_empty (rej_error_message rejection)) then rej_error_message rejection
      else if negb (is_empty (exr_exec_message exec_report)) then exr_exec_message exec_report
      else "gateway execution rejected request"
  end.

Definition apply_exec_entry (order_id ts : Z) (exec_report : ExecReport)
    (acc : ReportFlags * OmsCoreV2) : outcome (ReportFlags * OmsCoreV2) :=
  let '(fl, c) := acc in
  match oms_exec_type exec_report with
  | ExecUnspecified => mret (fl, c)
  | oms_exec =>
      let rejection := default default_Rejection (exr_rejection_info exec_report) in
      let msg := exec_error_msg exec_report rejection in
      orders ← oms_error order_id (text msg) ts oms_exec rejection (c_orders c);
      mret (fl <| rf_new_exec_msg := true |> <| rf_original_order_updated := true |>,
            c <| c_orders := orders |>)
  end.

Definition apply_fee_entry (order_id ts : Z) (fee_report : FeeReport)
    (acc : ReportFlags * OmsCoreV2) : outcome (ReportFlags * OmsCoreV2) :=
  let '(fl, c) := acc in
  live ← unwrap "get_live(order_id)" (OrderStoreV2.get_live order_id (c_orders c));
  let fee := mkFee (lo_order_id live) (fr_fee_symbol fee_report) (fr_fee_qty fee_report)
               (fr_fee_type fee_report) ts in
  _ ← unwrap "get_detail_mut(order_id)" (OrderStoreV2.get_detail order_id (c_orders c));
  mret (fl <| rf_new_fee := true |> <| rf_original_order_updated := true |>,
        c <| c_orders ::= OrderStoreV2.update_detail (OrderStoreV2.apply_fee_report fee)
                            order_id |>).

(** One iteration of the entry loop. *)
Definition apply_entry (order_id gw_id ts : Z) (linkage_only : bool)
    (acc : ReportFlags * OmsCoreV2) (entry : OrderReportEntry)
    : outcome (ReportFlags * OmsCoreV2) :=
  match default OrderRepTypeUnspecified (OrderReportType_try_from (ent_report_type entry)),
        ent_report entry with
  | OrderRepTypeLinkage, Some (ROrderIdLinkageReport linkage) =>
      mret (apply_linkage_entry order_id gw_id linkage_only linkage acc)
  | OrderRepTypeState, Some (ROrderStateReport r) => apply_state_entry order_id ts r acc
  | OrderRepTypeTrade, Some (RTradeReport r) => apply_trade_entry order_id ts r acc
  | OrderRepTypeExec, Some (RExecReport r) => apply_exec_entry order_id ts r acc
  | OrderRepTypeFee, Some (RFeeReport r) => apply_fee_entry order_id ts r acc
  | _, _ => mret acc
  end.

(** The finalisation of the live order. *)
Definition finalize_live (live : LiveOrder) : LiveOrder :=
  let live := live <| lo_snapshot_version ::= λ n, wrap_u32 (n + 1) |> in
  let live :=
    if is_in_terminal_state live && (lo_filled_avg_price live =? f64.zero)%f64
       && negb (lo_acc_trades_filled_qty live =? f64.zero)%f64 then
      live <| lo_filled_avg_price := (lo_acc_trades_value live /
                                      lo_acc_trades_filled_qty live)%f64 |>
    else live in
  if is_in_terminal_state live && negb (bool_decide (is_Some (lo_terminal_at live))) then
    live <| lo_terminal_at := Some (lo_updated_at live) |>
  else live.

(** The position delta of one fill. *)
Definition fill_delta (account_id pos_id : Z) (is_buy sell_was_frozen : bool) (fill_qty : f64)
    : PositionDeltaV2 :=
  {| pd_account_id := account_id;
     pd_instrument_id := pos_id;
     pd_is_short := negb is_buy;
     pd_avail_change := if is_buy then fill_qty
                        else if sell_was_frozen then f64.zero else f64.zero;
     pd_frozen_change := if sell_was_frozen then f64.neg fill_qty else f64.zero;
     pd_total_change := if is_buy then fill_qty else f64.neg fill_qty |}.

(** One iteration of the fill loop; the flag is [position_changed]. *)
Definition apply_fill (order_id account_id ts : Z) (is_buy : bool)
    (flags : OrderAccountingFlags) (order_price : f64) (acc : bool * OmsCoreV2)
    (fill_qty : f64) : bool * OmsCoreV2 :=
  let '(position_changed, c) := acc in
  if (fill_qty <=? f64.zero)%f64 then acc
  else
    let sell_was_frozen := negb is_buy && af_balance_check flags in
    let '(position_changed, c) :=
      match af_pos_instrument_id flags with
      | Some pos_id =>
          let delta := fill_delta account_id pos_id is_buy sell_was_frozen fill_qty in
          (true, c <| c_positions ::= PositionStoreV2.apply_delta delta ts |>)
      | None => (position_changed, c)
      end in
    let release_amount :=
      if af_is_buy flags then (fill_qty * order_price)%f64 else fill_qty in
    (position_changed,
     c <| c_reservations ::= ReservationStoreV2.release_partial order_id release_amount |>).

(** [&v\[n..\]] *)
Definition slice_from {A} (n : nat) (l : list A) : outcome (list A) :=
  if (n <=? length l)%nat then Returns (drop n l) else Panics "range start out of range".

Definition settle_fills (order_id account_id ts buy_sell_type : Z)
    (flags : OrderAccountingFlags) (trades_before inferred_before : nat) c : handled :=
  let is_buy := buy_sell_type =? BsBuy in
  let order_price :=
    default f64.zero (lo_price <$> OrderStoreV2.get_live order_id (c_orders c)) in
  detail ← unwrap "get_detail(order_id)" (OrderStoreV2.get_detail order_id (c_orders c));
  trades ← slice_from trades_before (dl_trades detail);
  inferred ← slice_from inferred_before (dl_inferred_trades detail);
  let new_fills := (tr_filled_qty <$> trades) ++ (tr_filled_qty <$> inferred) in
  let '(position_changed, c) :=
    foldl (apply_fill order_id account_id ts is_buy flags order_price) (false, c) new_fills in
  mret (if position_changed then
          match af_pos_instrument_id flags with
          | Some pos_id => [PersistPosition account_id pos_id; PublishPositionUpdate account_id]
          | None => []
          end
        else [], c).

(** The terminal-state handling at the end of a report. *)
Definition close_order (order_id account_id : Z) (flags : OrderAccountingFlags) c : OmsCoreV2 :=
  let c := c <| c_reservations ::= ReservationStoreV2.release order_id |> in
  let c := unfreeze_remaining order_id account_id flags c in
  c <| c_orders ::= OrderStoreV2.mark_closed order_id |>.

(** From the first [return] guard on: finalise, publish, settle, close. *)
Definition finish_report (order_id ts : Z) (trades_before inferred_before : nat)
    (fl : ReportFlags) c : handled :=
  if negb (rf_original_order_updated fl) then mret ([], c)
  else
    live ← unwrap "get_live_mut(order_id)" (OrderStoreV2.get_live order_id (c_orders c));
    let live := finalize_live live in
    let c := c <| c_orders ::= OrderStoreV2.update_live (λ _, live) order_id |> in
    let publish := PublishOrderUpdate order_id (rf_new_trade fl) (rf_new_fee fl)
                     (rf_new_exec_msg fl) (rf_new_oms_trade fl) in
    '(settled, c) ←
      if rf_new_trade fl || rf_new_oms_trade fl then
        settle_fills order_id (lo_account_id live) ts (lo_buy_sell_type live)
          (lo_accounting_flags live) trades_before inferred_before c
      else mret ([], c);
    if is_in_terminal_state live then
      mret ([publish] ++ settled ++ [PersistOrder order_id true true],
            close_order order_id (lo_account_id live) (lo_accounting_flags live) c)
    else mret ([publish] ++ settled ++ [PersistOrder order_id false false], c).

Definition process_report_for_order (order_id gw_id : Z) (report : OrderReport) c : handled :=
  let ts := rep_update_timestamp report in
  match OrderStoreV2.get_live order_id (c_orders c) with
  | None => mret ([], c)
  | Some live =>
      let entries := rep_order_report_entries report in
      let extra_entry := OrderStoreV2.infer_state_from_trades entries live in
      let detail := OrderStoreV2.get_detail order_id (c_orders c) in
      let trades_before := default 0%nat ((λ d, length (dl_trades d)) <$> detail) in
      let inferred_before := default 0%nat ((λ d, length (dl_inferred_trades d)) <$> detail) in
      let c := c <| c_orders ::=
        OrderStoreV2.update_live (λ l, l <| lo_updated_at := ts |>) order_id |> in
      let linkage_only :=
        (length entries =? 1)%nat && negb (bool_decide (is_Some extra_entry)) in
      '(fl, c) ← for_each (apply_entry order_id gw_id ts linkage_only)
                   (entries ++ option_list extra_entry) (no_flags, c);
      finish_report order_id ts trades_before inferred_before fl c
  end.

Definition resolve_gw (gw_key : string) c : option Z :=
  sym ← InternTable.lookup (md_strings (c_metadata c)) gw_key;
  md_gw_by_key (c_metadata c) !! sym.

(** The external order a report belongs to: the registered one, or a new one. *)
Definition external_order (gw_id : Z) (report : OrderReport) c : outcome (Z * OmsCoreV2) :=
  let exch_order_ref := rep_exch_order_ref report in
  let existing :=
    ref_id ← DynStringTable.lookup (os_dyn_strings (c_orders c)) exch_order_ref;
    if OrderStoreV2.is_external gw_id ref_id (c_orders c) then Some ref_id else None in
  match existing with
  | None =>
      let source_label := "External@" +:+ rep_exchange report in
      let '(source_sym, md) := MetadataTables.intern source_label (c_metadata c) in
      let c := c <| c_metadata := md |> in
      let '(oid, orders) := OrderStoreV2.create_external_order gw_id exch_order_ref
        (rep_account_id report) (rep_update_timestamp report) source_sym (c_orders c) in
      mret (oid, c <| c_orders := orders |>)
  | Some _ =>
      ref_id ← unwrap "dyn_strings.lookup(&exch_order_ref)"
        (DynStringTable.lookup (os_dyn_strings (c_orders c)) exch_order_ref);
      oid ← unwrap "external_order_ids.get"
        (os_external_order_ids (c_orders c) !! (gw_id, ref_id));
      mret (oid, c)
  end.

Definition buffer_report (gw_id : Z) (report : OrderReport) c : OmsCoreV2 :=
  if negb (is_empty (rep_exch_order_ref report)) then
    let '(ref_id, dyn) :=
      DynStringTable.intern (rep_exch_order_ref report) (os_dyn_strings (c_orders c)) in
    let c := c <| c_orders ::= λ o, o <| os_dyn_strings := dyn |> |> in
    c <| c_pending_reports ::= λ m,
      <[(gw_id, ref_id) := default [] (m !! (gw_id, ref_id)) ++ [report]]> m |>
  else c.

Definition process_order_report (report : OrderReport) c : handled :=
  match resolve_gw (rep_exchange report) c with
  | None => mret ([], c)
  | Some gw_id =>
      match OrderStoreV2.resolve_order_id (rep_order_id report) gw_id
              (rep_exch_order_ref report) (c_orders c) with
      | Some resolved_id => process_report_for_order resolved_id gw_id report c
      | None =>
          if c_handle_external_orders c && negb (is_empty (rep_exch_order_ref report)) then
            '(oid, c) ← external_order gw_id report c;
            process_report_for_order oid gw_id report c
          else mret ([], buffer_report gw_id report c)
      end
  end.

(** ** Balance updates *)

(** [self.metadata.route_by_account.iter().find(|(_, r)| str_resolve(r.exch_account_sym) == code)] *)
Fixpoint find_route (code : string) (routes : list (Z * RouteMeta)) (md : MetadataTables)
    : outcome (option Z) :=
  match routes with
  | [] => mret None
  | (id, r) :: routes =>
      s ← MetadataTables.str_resolve (rtm_exch_account_sym r) md;
      if decide (s = code) then mret (Some id) else find_route code routes md
  end.

Definition resolve_account `{!HashIter Z} (exch_account_code : string) c : outcome (option Z) :=
  let direct :=
    sym ← InternTable.lookup (md_strings (c_metadata c)) exch_account_code;
    BalanceStoreV2.resolve_account_id sym (c_balances c) in
  match direct with
  | Some id => mret (Some id)
  | None => find_route exch_account_code (hash_iter (md_route_by_account (c_metadata c)))
              (c_metadata c)
  end.

Definition lookup_asset (asset : string) c : option Z :=
  s ← InternTable.lookup (md_strings (c_metadata c)) asset;
  md_asset_by_symbol (c_metadata c) !! s.

(** The balance a spot entry reports. *)
Definition spot_balance (account_id ts : Z) (entry : PositionReport) : Balance :=
  {| bal_account_id := account_id;
     bal_asset := pr_instrument_code entry;
     bal_total_qty := pr_qty entry;
     bal_frozen_qty := (pr_qty entry - pr_avail_qty entry)%f64;
     bal_avail_qty := pr_avail_qty entry;
     bal_sync_timestamp := ts;
     bal_update_timestamp := pr_update_timestamp entry;
     bal_is_from_exch := true;
     bal_exch_data_raw := pr_message_raw entry |}.

(** A spot entry of a resolved asset updates the stored snapshot in place. *)
Definition set_snapshot (account_id ts : Z) (entry : PositionReport)
    (snap : ExchBalanceSnapshot) : ExchBalanceSnapshot :=
  let snap := snap <| ebs_symbol_exch := Some (pr_instrument_code entry) |> in
  let snap := snap <| ebs_balance_state ::= λ b,
    b <| bal_account_id := account_id |> <| bal_asset := pr_instrument_code entry |>
      <| bal_total_qty := pr_qty entry |> <| bal_avail_qty := pr_avail_qty entry |>
      <| bal_frozen_qty := (pr_qty entry - pr_avail_qty entry)%f64 |>
      <| bal_update_timestamp := pr_update_timestamp entry |>
      <| bal_sync_timestamp := ts |> <| bal_is_from_exch := true |>
      <| bal_exch_data_raw := pr_message_raw entry |> |> in
  let snap := snap <| ebs_exch_data_raw := pr_message_raw entry |> in
  snap <| ebs_sync_ts := ts |>.

Definition apply_spot_entry (account_id ts : Z) (acc : list OmsActionV2 * OmsCoreV2)
    (entry : PositionReport) : list OmsActionV2 * OmsCoreV2 :=
  let '(actions, c) := acc in
  if pr_instrument_type entry =? SPOT_INSTRUMENT_TYPE then
    let asset := pr_instrument_code entry in
    match lookup_asset asset c with
    | Some asset_id =>
        let c := c <| c_balances ::= BalanceStoreV2.remove_unknown_balance account_id asset |> in
        let '(snap, balances) :=
          BalanceStoreV2.get_or_create_balance account_id asset_id (c_balances c) in
        let balances := BalanceStoreV2.set_balance account_id asset_id
                          (set_snapshot account_id ts entry snap) balances in
        (actions ++ [PersistBalance account_id asset_id], c <| c_balances := balances |>)
    | None =>
        let snap := mkExchBalanceSnapshot account_id asset (Some asset)
                      (spot_balance account_id ts entry) (pr_message_raw entry) ts in
        (actions, c <| c_balances ::= BalanceStoreV2.set_unknown_balance account_id asset snap |>)
    end
  else acc.

(** The exchange snapshot after a position entry. *)
Definition set_exch_position (account_id ts : Z) (code : string) (entry : PositionReport)
    (old : option ExchPositionSnapshot) : ExchPositionSnapshot :=
  let snap := default (mkExchPositionSnapshot account_id code
                         (Some (pr_instrument_code entry)) default_Position "" 0) old in
  let snap := snap <| eps_symbol_exch := Some (pr_instrument_code entry) |> in
  let snap := snap <| eps_position_state ::= λ p,
    p <| pos_account_id := account_id |> <| pos_instrument_code := code |>
      <| pos_total_qty := pr_qty entry |> <| pos_avail_qty := pr_avail_qty entry |>
      <| pos_frozen_qty := (pr_qty entry - pr_avail_qty entry)%f64 |>
      <| pos_long_short_type := pr_long_short_type entry |>
      <| pos_instrument_type := pr_instrument_type entry |>
      <| pos_update_timestamp := pr_update_timestamp entry |>
      <| pos_sync_timestamp := ts |> |> in
  let snap := snap <| eps_exch_data_raw := pr_message_raw entry |> in
  snap <| eps_sync_ts := ts |>.

(** Seeding of the managed position on the first exchange sync. *)
Definition seed_position (account_id instrument_id ts : Z) (entry : PositionReport)
    (positions : PositionStoreV2) : PositionStoreV2 :=
  let key := (account_id, instrument_id) in
  let is_short := pr_long_short_type entry =? LsShort in
  let should_seed :=
    default true ((λ p, mp_last_exch_sync_ts p =? 0) <$> managed positions !! key) in
  if should_seed then
    let '(pos, positions) := PositionStoreV2.get_or_create_position account_id instrument_id
                               (pr_instrument_type entry) is_short positions in
    let pos := pos <| mp_qty_total := pr_qty entry |> in
    let pos := pos <| mp_qty_available := pr_avail_qty entry |> in
    let pos := pos <| mp_qty_frozen := (pr_qty entry - pr_avail_qty entry)%f64 |> in
    let pos := pos <| mp_is_short := is_short |> in
    let pos := pos <| mp_last_exch_sync_ts := ts |> in
    positions <| managed ::= <[key := pos]> |>
  else positions.

Definition apply_position_entry (account_id ts : Z) (acc : list OmsActionV2 * OmsCoreV2)
    (entry : PositionReport) : handled :=
  let '(actions, c) := acc in
  if negb (pr_instrument_type entry =? SPOT_INSTRUMENT_TYPE) then
    match (route ← MetadataTables.route account_id (c_metadata c);
           MetadataTables.resolve_instrument_by_gw (rtm_gw_id route) (pr_instrument_code entry)
             (c_metadata c)) with
    | Some inst =>
        let instrument_id := im_instrument_id inst in
        code ← MetadataTables.str_resolve (im_instrument_code_sym inst) (c_metadata c);
        let key := (account_id, instrument_id) in
        let positions := (c_positions c) <| exch ::= λ m,
          <[key := set_exch_position account_id ts code entry (m !! key)]> m |> in
        let positions := seed_position account_id instrument_id ts entry positions in
        let positions :=
          PositionStoreV2.update_reconcile_status account_id instrument_id ts positions in
        mret (actions ++ [PersistPosition account_id instrument_id],
              c <| c_positions := positions |>)
    | None => mret acc
    end
  else mret acc.

Definition is_spot_entry (entry : PositionReport) : bool :=
  pr_instrument_type entry =? SPOT_INSTRUMENT_TYPE.

Definition process_balance_update `{!HashIter Z} (clk : nat → Z) (update : BalanceUpdate) c
    : handled :=
  let ts := clk 0%nat in
  match bu_balances update with
  | [] => mret ([], c)
  | first :: _ =>
      account ← resolve_account (pr_exch_account_code first) c;
      match account with
      | None => mret ([], c)
      | Some account_id =>
          let '(actions, c) := foldl (apply_spot_entry account_id ts) ([], c)
                                 (bu_balances update) in
          let actions := if existsb is_spot_entry (bu_balances update)
                         then actions ++ [PublishBalanceUpdate account_id] else actions in
          '(actions, c) ← for_each (apply_position_entry account_id ts) (bu_balances update)
                            (actions, c);
          mret (if existsb (λ e, negb (is_spot_entry e)) (bu_balances update)
                then actions ++ [PublishPositionUpdate account_id] else actions, c)
      end
  end.

Definition process_cleanup (ts_ms : Z) c : handled := mret ([], c).
Definition process_position_recheck c : handled := mret ([], c).

(** ** Main entry point *)

(** A batch runs its items in order on the evolving core; item [i] reads the
    clock after the three call sites of each earlier item. *)
Fixpoint batch {A} (f : (nat → Z) → A → OmsCoreV2 → handled) (clk : nat → Z) (l : list A) c
    : handled :=
  match l with
  | [] => mret ([], c)
  | a :: l =>
      '(actions, c) ← f clk a c;
      '(rest, c) ← batch f (λ k, clk (3 + k)%nat) l c;
      mret (actions ++ rest, c)
  end.

Definition process_message `{!HashIter Z} (clk : nat → Z) (msg : OmsMessage) c : handled :=
  match msg with
  | PlaceOrder req => process_order clk req c
  | BatchPlaceOrders reqs => batch process_order clk reqs c
  | CancelOrder req => process_cancel clk req c
  | BatchCancelOrders reqs => batch process_cancel clk reqs c
  | GatewayOrderReport report => process_order_report report c
  | BalanceUpdateMsg update => process_balance_update clk update c
  | Panic account_id => mret ([], c <| c_panic_accounts ::= λ s, {[account_id]} ∪ s |>)
  | DontPanic account_id => mret ([], c <| c_panic_accounts ::= λ s, s ∖ {[account_id]} |>)
  | Cleanup ts_ms => process_cleanup ts_ms c
  | ReloadConfig => mret ([], c)
  | PositionRecheck => process_position_recheck c
  | RecheckOrder _ | RecheckCancel _ => mret ([], c)
  | GatewaySendFailed order_id _ error_msg =>
      process_gateway_send_failed clk order_id error_msg c
  | GatewayCancelSendFailed order_id _ error_msg =>
      process_gateway_cancel_send_failed clk order_id error_msg c
  end.

(** ** Construction and warm start *)

Definition new `{!Uppercase, !HashIter string, !HashIter Z} (seed : Z)
    (config : ConfdataManager)
    (use_time_emulation risk_check_enabled handle_external_orders : bool)
    (max_cached_orders : Z) : OmsCoreV2 :=
  let metadata := MetadataTables.from_confdata config in
  let orders := OrderStoreV2.new seed max_cached_orders use_time_emulation in
  let reverse_map : gmap Z Z :=
    foldl (λ m '(account_id, route), <[rtm_exch_account_sym route := account_id]> m) ∅
      (hash_iter (md_route_by_account metadata)) in
  let balances := BalanceStoreV2.init_account_reverse_map reverse_map BalanceStoreV2.new in
  {| c_metadata := metadata;
     c_orders := orders;
     c_reservations := ReservationStoreV2.new;
     c_positions := PositionStoreV2.new;
     c_balances := balances;
     c_pending_reports := ∅;
     c_panic_accounts := ∅;
     c_retry_state := default_RetryState;
     c_use_time_emulation := use_time_emulation;
     c_risk_check_enabled := risk_check_enabled;
     c_handle_external_orders := handle_external_orders |}.

Definition v1_live (v1 : OmsOrder) (instrument_id gw_id route_sym source_sym : Z)
    (exch_ref_id : option DynStrId) : LiveOrder :=
  let s := oo_order_state v1 in
  {| lo_order_id := oo_order_id v1;
     lo_account_id := oo_account_id v1;
     lo_instrument_id := instrument_id;
     lo_gw_id := gw_id;
     lo_route_exch_account_sym := route_sym;
     lo_source_sym := source_sym;
     lo_order_status := ord_order_status s;
     lo_buy_sell_type := ord_buy_sell_type s;
     lo_open_close_type := ord_open_close_type s;
     lo_order_type := 0;
     lo_tif_type := 0;
     lo_price := ord_price s;
     lo_qty := ord_qty s;
     lo_filled_qty := ord_filled_qty s;
     lo_filled_avg_price := ord_filled_avg_price s;
     lo_acc_trades_filled_qty := oo_acc_trades_filled_qty v1;
     lo_acc_trades_value := oo_acc_trades_value v1;
     lo_exch_order_ref_id := exch_ref_id;
     lo_snapshot_version := wrap_u32 (ord_snapshot_version s);
     lo_created_at := ord_created_at s;
     lo_updated_at := ord_updated_at s;
     lo_is_external := oo_is_from_external v1;
     lo_cancel_attempts := oo_cancel_attempts v1;
     lo_accounting_flags := default_OrderAccountingFlags;
     lo_error_msg := ord_error_msg s;
     lo_terminal_at := None |}.

Definition convert_v1_order (v1 : OmsOrder) c : LiveOrder * OrderDetailLog * OmsCoreV2 :=
  let s := oo_order_state v1 in
  let instrument_id := default 0 (im_instrument_id <$>
    MetadataTables.resolve_instrument (ord_instrument s) (c_metadata c)) in
  let gw_id := default 0 (resolve_gw (ord_gw_key s) c) in
  let route_sym := default 0 (rtm_exch_account_sym <$>
    MetadataTables.route (oo_account_id v1) (c_metadata c)) in
  let '(source_sym, c) :=
    if is_empty (ord_source_id s) then (0, c)
    else
      let '(sym, md) := MetadataTables.intern (ord_source_id s) (c_metadata c) in
      (sym, c <| c_metadata := md |>) in
  let '(exch_ref_id, c) :=
    match oo_exch_order_ref v1 with
    | Some r =>
        let '(id, dyn) := DynStringTable.intern r (os_dyn_strings (c_orders c)) in
        (Some id, c <| c_orders ::= λ o, o <| os_dyn_strings := dyn |> |>)
    | None => (None, c)
    end in
  let live := v1_live v1 instrument_id gw_id route_sym source_sym exch_ref_id in
  let detail := mkOrderDetailLog (oo_order_id v1) (oo_oms_req v1) (oo_gw_req v1)
    (oo_cancel_req v1) (oo_trades v1) (oo_order_inferred_trades v1) (oo_exec_msgs v1)
    (oo_fees v1) in
  let live :=
    if is_in_terminal_state live && negb (bool_decide (is_Some (lo_terminal_at live))) then
      live <| lo_terminal_at := Some (lo_updated_at live) |>
    else live in
  (live, detail, c).

Definition init_v1_order c (v1 : OmsOrder) : OmsCoreV2 :=
  let '(live, detail, c) := convert_v1_order v1 c in
  c <| c_orders ::= OrderStoreV2.init_with_orders [(live, detail)] |>.

Definition init_v1_position c (pos : OmsManagedPosition) : OmsCoreV2 :=
  match MetadataTables.resolve_instrument (omp_instrument_code pos) (c_metadata c) with
  | Some inst =>
      let v2_pos := mkManagedPositionV2 (omp_account_id pos) (im_instrument_id inst)
        (omp_instrument_type pos) (omp_is_short pos) (omp_qty_total pos) (omp_qty_frozen pos)
        (omp_qty_available pos) (omp_last_local_update_ts pos) (omp_last_exch_sync_ts pos)
        (omp_reconcile_status pos) (omp_last_exch_qty pos) (omp_first_diverged_ts pos)
        (omp_divergence_count pos) in
      c <| c_positions ::= λ p,
        p <| managed ::= <[(omp_account_id pos, im_instrument_id inst) := v2_pos]> |> |>
  | None => c
  end.

Definition init_balance c (snap : ExchBalanceSnapshot) : OmsCoreV2 :=
  match lookup_asset (ebs_asset snap) c with
  | Some asset_id =>
      c <| c_balances ::= BalanceStoreV2.set_balance (ebs_account_id snap) asset_id snap |>
  | None =>
      c <| c_balances ::=
        BalanceStoreV2.set_unknown_balance (ebs_account_id snap) (ebs_asset snap) snap |>
  end.

Definition init_state (warm_orders : list OmsOrder) (positions : list OmsManagedPosition)
    (balances : list ExchBalanceSnapshot) c : OmsCoreV2 :=
  let c := foldl init_v1_order c warm_orders in
  let c := foldl init_v1_position c positions in
  foldl init_balance c balances.

Definition reload_config `{!Uppercase, !HashIter string, !HashIter Z}
    (new_config : ConfdataManager) c : outcome OmsCoreV2 :=
  md ← MetadataTables.rebuild_from_config new_config (c_metadata c);
  mret (c <| c_metadata := md |>).

(** ** Event builders *)

Definition gw_key (gw_id : Z) c : outcome (option string) :=
  match MetadataTables.gw gw_id (c_metadata c) with
  | Some g => s ← MetadataTables.str_resolve (gm_gw_key_sym g) (c_metadata c); mret (Some s)
  | None => mret None
  end.
Definition resolve_gw_key (gw_id : Z) c : outcome (option string) := gw_key gw_id c.
Definition resolve_instrument_code (instrument_id : Z) c : outcome string :=
  instrument_code instrument_id c.
Definition resolve_asset_name (asset_id : Z) c : outcome string :=
  match MetadataTables.asset asset_id (c_metadata c) with
  | Some a => MetadataTables.str_resolve (am_asset_sym a) (c_metadata c)
  | None => mret ""
  end.

Definition source_id (live : LiveOrder) c : string :=
  default "" (InternTable.try_resolve (md_strings (c_metadata c)) (lo_source_sym live)).

Definition build_proto_order (live : LiveOrder) c : outcome Order :=
  instrument ← instrument_code (lo_instrument_id live) c;
  instrument_exch ←
    match MetadataTables.instrument (lo_instrument_id live) (c_metadata c) with
    | Some i => MetadataTables.str_resolve (im_instrument_exch_sym i) (c_metadata c)
    | None => mret ""
    end;
  gw ← gw_key (lo_gw_id live) c;
  exch_order_ref ← resolve_exch_ref live (c_orders c);
  mret {| ord_order_id := lo_order_id live;
          ord_exch_order_ref := exch_order_ref;
          ord_snapshot_version := wrap_i32 (lo_snapshot_version live);
          ord_instrument := instrument;
          ord_buy_sell_type := lo_buy_sell_type live;
          ord_open_close_type := lo_open_close_type live;
          ord_price := lo_price live;
          ord_qty := lo_qty live;
          ord_filled_qty := lo_filled_qty live;
          ord_filled_avg_price := lo_filled_avg_price live;
          ord_error_msg := lo_error_msg live;
          ord_source_id := source_id live c;
          ord_created_at := lo_created_at live;
          ord_updated_at := lo_updated_at live;
          ord_order_status := lo_order_status live;
          ord_gw_key := default "" gw;
          ord_instrument_exch := instrument_exch;
          ord_account_id := lo_account_id live |}.

Definition build_order_update_event (now order_id : Z) (include_last_trade include_last_fee
    include_exec_message include_inferred_trade : bool) c : outcome (option OrderUpdateEvent) :=
  match OrderStoreV2.get_live order_id (c_orders c) with
  | None => mret None
  | Some live =>
      let detail := OrderStoreV2.get_detail order_id (c_orders c) in
      let ts := timestamp c (lo_updated_at live) now in
      order_state ← build_proto_order live c;
      let event := default_OrderUpdateEvent <| oue_order_id := order_id |>
        <| oue_account_id := lo_account_id live |> <| oue_timestamp := ts |>
        <| oue_order_snapshot := Some order_state |>
        <| oue_order_source_id := source_id live c |> in
      mret (Some
        match detail with
        | Some detail =>
            let event := if include_inferred_trade then
              event <| oue_order_inferred_trade := last (dl_inferred_trades detail) |>
              else event in
            let event := if include_last_trade then
              event <| oue_last_trade := last (dl_trades detail) |> else event in
            let event := if include_exec_message then
              event <| oue_exec_message := last (dl_exec_msgs detail) |> else event in
            if include_last_fee then
              event <| oue_last_fee := last (dl_fees detail) |> else event
        | None => event
        end)
  end.

Section builders.
Context `{!HashIter (Z * Z), !HashIter (Z * string)}.

Definition build_balance_update_event (now account_id : Z) c : BalanceUpdateEvent :=
  let ts := timestamp c 0 now in
  let balances :=
    (ebs_balance_state <$> BalanceStoreV2.get_balances_for_account account_id (c_balances c)) ++
    (ebs_balance_state <$>
       BalanceStoreV2.get_unknown_balances_for_account account_id (c_balances c)) in
  mkBalanceUpdateEvent account_id balances ts.

Definition proto_position (p : ManagedPositionV2) c : outcome Position :=
  inst_code ← instrument_code (mp_instrument_id p) c;
  mret (default_Position <| pos_account_id := mp_account_id p |>
    <| pos_instrument_code := inst_code |>
    <| pos_instrument_type := mp_instrument_type p |>
    <| pos_long_short_type := if mp_is_short p then LsShort else LsLong |>
    <| pos_total_qty := mp_qty_total p |>
    <| pos_frozen_qty := mp_qty_frozen p |>
    <| pos_avail_qty := mp_qty_available p |>
    <| pos_update_timestamp := mp_last_local_update_ts p |>
    <| pos_sync_timestamp := mp_last_exch_sync_ts p |>).

Definition build_position_update_event (now account_id : Z) c : outcome PositionUpdateEvent :=
  let ts := timestamp c 0 now in
  positions ← for_each (λ acc p, x ← proto_position p c; mret (acc ++ [x]))
    (PositionStoreV2.get_positions_for_account account_id (c_positions c)) [];
  mret (mkPositionUpdateEvent account_id positions ts).

(** ** Materialisation to v1 actions *)

Definition build_v1_order (order_id : Z) c : outcome OmsOrder :=
  live ← unwrap "order must exist for materialize"
           (OrderStoreV2.get_live order_id (c_orders c));
  let detail := OrderStoreV2.get_detail order_id (c_orders c) in
  exch_order_ref ←
    match lo_exch_order_ref_id live with
    | Some id => s ← DynStringTable.resolve (os_dyn_strings (c_orders c)) id; mret (Some s)
    | None => mret None
    end;
  order_state ← build_proto_order live c;
  mret {| oo_is_from_external := lo_is_external live;
          oo_order_id := lo_order_id live;
          oo_account_id := lo_account_id live;
          oo_exch_order_ref := exch_order_ref;
          oo_oms_req := d ← detail; dl_original_req d;
          oo_gw_req := d ← detail; dl_last_gw_req d;
          oo_cancel_req := d ← detail; dl_cancel_req d;
          oo_order_state := order_state;
          oo_trades := default [] (dl_trades <$> detail);
          oo_acc_trades_filled_qty := lo_acc_trades_filled_qty live;
          oo_acc_trades_value := lo_acc_trades_value live;
          oo_order_inferred_trades := default [] (dl_inferred_trades <$> detail);
          oo_exec_msgs := default [] (dl_exec_msgs <$> detail);
          oo_fees := default [] (dl_fees <$> detail);
          oo_cancel_attempts := lo_cancel_attempts live |}.

(** The v1 form of a stored position. *)
Definition v1_position (inst_code : string) (p : ManagedPositionV2) : OmsManagedPosition :=
  mkOmsManagedPosition (mp_account_id p) inst_code None (mp_instrument_type p)
    (mp_is_short p) (mp_qty_total p) (mp_qty_frozen p) (mp_qty_available p)
    (mp_last_local_update_ts p) (mp_last_exch_sync_ts p) (mp_reconcile_status p)
    (mp_last_exch_qty p) (mp_first_diverged_ts p) (mp_divergence_count p).

Definition materialize_action (now : Z) (action : OmsActionV2) c : outcome OmsAction :=
  match action with
  | SendOrderToGw gw_id order_id order_created_at =>
      key ← gw_key gw_id c;
      let request := default default_SendOrderRequest
        (d ← OrderStoreV2.get_detail order_id (c_orders c); dl_last_gw_req d) in
      mret (V1SendOrderToGw (default "" key) request order_id order_created_at)
  | SendCancelToGw gw_id order_id =>
      key ← gw_key gw_id c;
      let request := default default_CancelOrderRequest
        (d ← OrderStoreV2.get_detail order_id (c_orders c); dl_cancel_req d) in
      mret (V1SendCancelToGw (default "" key) request)
  | PersistOrder order_id set_expire set_closed =>
      order ← build_v1_order order_id c;
      mret (V1PersistOrder order set_expire set_closed)
  | PublishOrderUpdate order_id last_trade last_fee exec_message inferred_trade =>
      event ← build_order_update_event now order_id last_trade last_fee exec_message
                inferred_trade c;
      event ← unwrap "build_order_update_event" event;
      mret (V1PublishOrderUpdate event)
  | PublishBalanceUpdate account_id =>
      mret (V1PublishBalanceUpdate (build_balance_update_event now account_id c))
  | PublishPositionUpdate account_id =>
      event ← build_position_update_event now account_id c;
      mret (V1PublishPositionUpdate event)
  | PersistBalance account_id asset_id =>
      let snap := default (mkExchBalanceSnapshot account_id "" None default_Balance "" 0)
                    (BalanceStoreV2.get_balance account_id asset_id (c_balances c)) in
      mret (V1PersistBalance account_id (ebs_asset snap) snap)
  | PersistPosition account_id instrument_id =>
      let pos := PositionStoreV2.get_position account_id instrument_id (c_positions c) in
      inst_code ← instrument_code instrument_id c;
      let managed_pos := default (OmsManagedPosition_new 0 "" 0 false)
                           (v1_position inst_code <$> pos) in
      let side := if omp_is_short managed_pos then "SHORT" else "LONG" in
      mret (V1PersistPosition account_id inst_code side managed_pos)
  | BatchSendOrdersToGw _ _ | BatchCancelToGw _ _ =>
      Panics "batch materialize not yet implemented"
  end.
End builders.
End OmsCoreV2.
