(* ===== verification/Scenario.v ===== *)
(** * A concrete OMS

    One gateway, one account, a spot pair and a perpetual: the configuration the
    witnesses and the runs of the finding theorems are evaluated on. *)

From S2P Require Import Prelude F64 F64Grid Proto Intern Models Reservation Position Balance.
From S2P Require Import Config Metadata Utils OrderStore OmsCore.

#[export] Instance demo_uppercase : Uppercase := ascii_uppercase.
#[export] Instance demo_iter_string : HashIter string := canonical_iter.
#[export] Instance demo_iter_Z : HashIter Z := canonical_iter.
#[export] Instance demo_iter_Z_ok : HashIterOk Z := canonical_iter_ok.
#[export] Instance demo_iter_ZZ : HashIter (Z * Z) := canonical_iter.
#[export] Instance demo_iter_Zs : HashIter (Z * string) := canonical_iter.

Definition demo_clk : nat → Z := λ k, 1000 + Z.of_nat k.

Definition demo_spot : InstrumentRefData :=
  default_InstrumentRefData <| rd_instrument_id := "BTC-USDT" |>
    <| rd_instrument_id_exchange := "BTCUSDT" |> <| rd_exchange_name := "BINANCE" |>
    <| rd_instrument_type := SPOT_INSTRUMENT_TYPE |> <| rd_base_asset := "BTC" |>
    <| rd_quote_asset := "USDT" |>.
Definition demo_perp : InstrumentRefData :=
  default_InstrumentRefData <| rd_instrument_id := "BTC-PERP" |>
    <| rd_instrument_id_exchange := "BTCPERP" |> <| rd_exchange_name := "BINANCE" |>
    <| rd_instrument_type := InstTypePerp |> <| rd_base_asset := "BTC" |>
    <| rd_quote_asset := "USDT" |> <| rd_settlement_asset := "USDT" |>.
Definition demo_route : OmsRouteEntry :=
  default_OmsRouteEntry <| rt_account_id := 7 |> <| rt_exch_account_id := "EX7" |>
    <| rt_gw_key := "GW1" |>.
Definition demo_gw : GwConfigEntry :=
  default_GwConfigEntry <| gwc_gw_key := "GW1" |> <| gwc_exch_name := "binance" |>.

(** Trading flags of an instrument under inventory accounting. *)
Definition demo_trading (code : string) (balance_check : bool) (max : option f64)
    : InstrumentTradingConfig :=
  mkInstrumentTradingConfig code true balance_check true false false false (f64.of_Z 1) max.

Definition demo_config (trading : list InstrumentTradingConfig) : ConfdataManager :=
  ConfdataManager.new (default_OmsConfigEntry <| oc_managed_account_ids := [7] |>)
    [demo_route] [demo_gw] [demo_spot; demo_perp] trading.

Definition demo_core (trading : list InstrumentTradingConfig) : OmsCoreV2 :=
  OmsCoreV2.new 0 (demo_config trading) false true false 100.

Definition checked_core : OmsCoreV2 :=
  demo_core [demo_trading "BTC-USDT" true (Some (f64.of_Z 1000))].

Definition demo_order (oid : Z) (side : Z) (code : string) (qty price : f64) : OrderRequest :=
  default_OrderRequest <| req_order_id := oid |> <| req_account_id := 7 |>
    <| req_instrument_code := code |> <| req_buy_sell_type := side |>
    <| req_qty := qty |> <| req_price := price |>.

Definition demo_sell : Z := BsSell.

Definition demo_balance (asset : string) (total avail : f64) : BalanceUpdate :=
  mkBalanceUpdate
    [default_PositionReport <| pr_instrument_code := asset |>
       <| pr_instrument_type := SPOT_INSTRUMENT_TYPE |> <| pr_exch_account_code := "EX7" |>
       <| pr_qty := total |> <| pr_avail_qty := avail |>].

Definition demo_report (oid : Z) (entries : list OrderReportEntry) : OrderReport :=
  default_OrderReport <| rep_order_id := oid |> <| rep_exchange := "GW1" |>
    <| rep_order_report_entries := entries |> <| rep_account_id := 7 |>
    <| rep_update_timestamp := 2000 |>.
Definition trade_entry (qty price : f64) : OrderReportEntry :=
  mkOrderReportEntry (OrderReportType_i32 OrderRepTypeTrade)
    (Some (RTradeReport (default_TradeReport <| trr_filled_qty := qty |>
                           <| trr_filled_price := price |>))).
Definition state_entry (status : ExchangeOrderStatus) (filled avg : f64) : OrderReportEntry :=
  mkOrderReportEntry (OrderReportType_i32 OrderRepTypeState)
    (Some (ROrderStateReport (default_OrderStateReport
       <| osr_exch_order_status := ExchangeOrderStatus_i32 status |>
       <| osr_filled_qty := filled |> <| osr_avg_price := avg |>))).
Definition linkage_entry (ref : string) : OrderReportEntry :=
  mkOrderReportEntry (OrderReportType_i32 OrderRepTypeLinkage)
    (Some (ROrderIdLinkageReport (default_OrderIdLinkageReport <| lnk_exch_order_ref := ref |>))).
Definition exec_entry (ty : ExchExecType) : OrderReportEntry :=
  mkOrderReportEntry (OrderReportType_i32 OrderRepTypeExec)
    (Some (RExecReport (default_ExecReport <| exr_exec_type := ExchExecType_i32 ty |>))).

(** Handle messages in order, keeping all actions. *)
Fixpoint play (msgs : list OmsMessage) (c : OmsCoreV2) : outcome (list OmsActionV2 * OmsCoreV2) :=
  match msgs with
  | [] => mret ([], c)
  | m :: msgs =>
      '(a, c) ← OmsCoreV2.process_message demo_clk m c;
      '(rest, c) ← play msgs c;
      mret (a ++ rest, c)
  end.
