(* ===== verification/OmsSafety.v ===== *)
(** * The OMS never panics, and orders only evolve ([oms_core_v2.rs])

    [core_wf] is the invariant of the core: the metadata tables are safe and the
    order store is well formed.  Every handler of [process_message] returns (no
    [unwrap], index or slice of the source can panic), preserves the invariant,
    and lets every order it did not create evolve in the sense of
    [OrderHistory]. *)

From S2P Require Import Prelude F64 Proto Intern Models Reservation Position Balance.
From S2P Require Import Config Metadata MetadataFacts Utils OrderStore OrderHistory OmsCore.

Record core_wf (c : OmsCoreV2) : Prop := {
  cw_meta : meta_safe (c_metadata c);
  cw_orders : orders_wf (c_orders c);
}.

(** Panic set and settings. *)
Definition env (c : OmsCoreV2) : gset Z * RetryState * bool * bool * bool :=
  (c_panic_accounts c, c_retry_state c, c_use_time_emulation c, c_risk_check_enabled c,
   c_handle_external_orders c).

(** A step that only touches reservations, positions, balances or the buffer. *)
Record frame (c c' : OmsCoreV2) : Prop := {
  fr_meta : c_metadata c' = c_metadata c;
  fr_orders : c_orders c' = c_orders c;
  fr_env : env c' = env c;
}.

#[export] Instance frame_preorder : PreOrder frame.
Proof. split; [done|]. intros c1 c2 c3 [] []. split; congruence. Qed.

(** What a handler guarantees about the core it leaves: the invariant, metadata
    tables changed by interning at most, the panic set and settings unchanged,
    and the history of every order but the created ones. *)
Record safe_step (created : Z → Prop) (c c' : OmsCoreV2) : Prop := {
  st_wf : core_wf c';
  st_meta : only_interns (c_metadata c) (c_metadata c');
  st_env : env c' = env c;
  st_kept oid : ¬ created oid → kept oid (c_orders c) (c_orders c');
}.

Definition none_created : Z → Prop := λ _, False.

Lemma safe_step_refl created c : core_wf c → safe_step created c c.
Proof. intros Hwf. split; [done|apply only_interns_refl, Hwf|done..]. Qed.

Lemma safe_step_trans created c1 c2 c3 :
  safe_step created c1 c2 → safe_step created c2 c3 → safe_step created c1 c3.
Proof.
  intros [_ M1 E1 H1] [Hw M2 E2 H2]. split; [done|by eapply only_interns_trans|congruence|].
  intros oid Hoid. etrans; eauto.
Qed.

Lemma safe_step_weaken (P Q : Z → Prop) c c' :
  (∀ oid, P oid → Q oid) → safe_step P c c' → safe_step Q c c'.
Proof. intros HPQ [Hw Hm He Hk]. split; [done..|]. naive_solver. Qed.

(** A step that leaves metadata and orders alone. *)
Lemma safe_step_frame created c c' :
  core_wf c → frame c c' → safe_step created c c'.
Proof.
  intros [Hm Ho] [Em Eo Ee]. split; [split; congruence| |done|]; rewrite ?Em, ?Eo; [|done].
  by apply only_interns_refl.
Qed.

(** A step that leaves metadata alone. *)
Lemma safe_step_intro created c c' :
  c_metadata c' = c_metadata c → env c' = env c → core_wf c → orders_wf (c_orders c') →
  (∀ oid, ¬ created oid → kept oid (c_orders c) (c_orders c')) → safe_step created c c'.
Proof.
  intros Em Ee [Hm _] Ho Hk. split; [split; congruence| |done..].
  rewrite Em. by apply only_interns_refl.
Qed.

Lemma safe_step_orders created c (orders : OrderStoreV2) :
  core_wf c → orders_wf orders → (∀ oid, ¬ created oid → kept oid (c_orders c) orders) →
  safe_step created c (c <| c_orders := orders |>).
Proof. intros [] ? ?. split; [by split|by apply only_interns_refl|done..]. Qed.

#[export] Hint Resolve safe_step_refl : zk.

(** ** Order errors, cancels and send failures *)

Definition error_post (oid0 : Z) (orders orders' : OrderStoreV2) : Prop :=
  orders_wf orders' ∧ (∀ oid, kept oid orders orders') ∧ is_Some (os_live orders' !! oid0).

Lemma oms_error_returns oid msg ts ty rej orders :
  orders_wf orders → is_Some (os_live orders !! oid) →
  returns (OmsCoreV2.oms_error oid msg ts ty rej orders) (error_post oid orders).
Proof.
  intros Hwf [l Hl]. destruct (wf_lookup orders oid l Hwf Hl) as (d & Hd & Hboth).
  unfold OmsCoreV2.oms_error. apply returns_bind. eapply returns_unwrap; [done|].
  apply returns_ret. split_and!.
  - eapply put_evolved_wf; [done..|apply apply_oms_error_evolves|].
    apply (apply_oms_error_ref _ _ _ _ (l, d)).
  - intros oid'. eapply kept_put; [done|apply apply_oms_error_evolves].
  - cbn. by rewrite lookup_insert_eq.
Qed.

Lemma unfreeze_remaining_frame oid acct flags c :
  frame c (OmsCoreV2.unfreeze_remaining oid acct flags c) ∧
  c_reservations (OmsCoreV2.unfreeze_remaining oid acct flags c) = c_reservations c.
Proof.
  unfold OmsCoreV2.unfreeze_remaining.
  destruct (af_pos_instrument_id flags); [|done]. destruct (negb _); [|done].
  by destruct (_ >? _)%f64.
Qed.

Lemma send_failed_safe clk oid msg c :
  core_wf c →
  returns (OmsCoreV2.process_gateway_send_failed clk oid msg c)
    (λ r, safe_step none_created c r.2).
Proof.
  intros Hwf. unfold OmsCoreV2.process_gateway_send_failed, OrderStoreV2.get_live.
  destruct (os_live (c_orders c) !! oid) as [live|] eqn:El; [|by apply safe_step_refl].
  destruct (is_in_terminal_state live); [by apply safe_step_refl|].
  apply returns_bind. eapply returns_mono; [apply oms_error_returns; [apply Hwf|by rewrite El]|].
  intros orders (Hw & Hk & _). apply returns_ret. cbn.
  set (c1 := c <| c_orders := OrderStoreV2.mark_closed oid orders |>
               <| c_reservations ::= ReservationStoreV2.release oid |>).
  destruct (unfreeze_remaining_frame oid (lo_account_id live) (lo_accounting_flags live) c1)
    as [[Em Eo Ee] _].
  apply safe_step_intro; [by rewrite Em|by rewrite Ee|done|rewrite Eo; by apply mark_closed_wf|].
  intros oid' _. rewrite Eo. cbn. etrans; [apply Hk|apply kept_mark_closed].
Qed.

Lemma cancel_send_failed_safe clk oid msg c :
  core_wf c →
  returns (OmsCoreV2.process_gateway_cancel_send_failed clk oid msg c)
    (λ r, safe_step none_created c r.2).
Proof.
  intros Hwf. unfold OmsCoreV2.process_gateway_cancel_send_failed, OrderStoreV2.get_live.
  destruct (os_live (c_orders c) !! oid) as [live|] eqn:El; [|by apply safe_step_refl].
  destruct (is_in_terminal_state live); [by apply safe_step_refl|].
  apply returns_bind. eapply returns_mono; [apply oms_error_returns; [apply Hwf|by rewrite El]|].
  intros orders (Hw & Hk & _). apply returns_ret. by apply safe_step_orders.
Qed.

Lemma resolve_exch_ref_returns oid live orders :
  orders_wf orders → os_live orders !! oid = Some live →
  returns (OmsCoreV2.resolve_exch_ref live orders) (λ _, True).
Proof.
  intros Hwf Hl. unfold OmsCoreV2.resolve_exch_ref.
  destruct (lo_exch_order_ref_id live) as [id|] eqn:E; [|done].
  destruct (dyn_resolves orders id) as [s ->]; [by eapply (ow_ref orders Hwf)|done].
Qed.

Lemma process_cancel_safe clk req c :
  core_wf c →
  returns (OmsCoreV2.process_cancel clk req c) (λ r, safe_step none_created c r.2).
Proof.
  intros Hwf. unfold OmsCoreV2.process_cancel, OrderStoreV2.get_live.
  destruct (validate_cancel_request req); [|by apply safe_step_refl].
  destruct (os_live (c_orders c) !! creq_order_id req) as [live|] eqn:El;
    [|by apply safe_step_refl].
  apply returns_bind. eapply returns_mono;
    [by eapply resolve_exch_ref_returns; [apply Hwf|]|]. intros ref _.
  destruct (lo_is_external live); [by apply safe_step_refl|].
  destruct (is_in_terminal_state live).
  - apply returns_bind.
    eapply returns_mono; [apply oms_error_returns; [apply Hwf|by rewrite El]|].
    intros orders (Hw & Hk & _). apply returns_ret. by apply safe_step_orders.
  - apply returns_bind. eapply returns_unwrap; [exact El|]. apply returns_ret.
    apply safe_step_orders; [done| |].
    + apply update_live_wf; [apply update_detail_wf, Hwf|done|].
      intros l id Hl Hid. eapply (ow_ref _ (cw_orders c Hwf)); [exact Hl|exact Hid].
    + intros oid _.
      etrans; [|apply kept_update_live; intros l d _; by apply evolves_live].
      apply kept_update_detail. intros l d. apply evolves_cancel_req.
Qed.

(** ** Placement *)

Lemma reject_order_safe now req meta flags msg ts reason c :
  core_wf c →
  returns (OmsCoreV2.reject_order now req meta flags msg ts reason c)
    (λ r, safe_step (eq (req_order_id req)) c r.2).
Proof.
  intros Hwf. unfold OmsCoreV2.reject_order.
  set (orders := OrderStoreV2.create_order _ _ _ _ _ _ _).
  assert (orders_wf orders) as Hw by apply create_order_wf, Hwf.
  apply returns_bind. eapply returns_mono; [apply oms_error_returns; [done|]|].
  { subst orders. cbn. by rewrite lookup_insert_eq. }
  intros orders' (Hw' & Hk' & _). apply returns_ret.
  apply safe_step_orders; [done|by apply mark_closed_wf|]. intros oid Hoid.
  trans orders; [apply kept_create; congruence|]. etrans; [apply Hk'|apply kept_mark_closed].
Qed.

(** The symbols a resolved order carries, which [build_gw_request] resolves. *)
Definition meta_syms_ok (md : MetadataTables) (meta : ResolvedOrderMeta) : Prop :=
  sym_ok md (rm_exch_account_sym meta) ∧ sym_ok md (rm_instrument_exch_sym meta).

Lemma resolve_instrument_elem code md im :
  MetadataTables.resolve_instrument code md = Some im → im ∈ md_instruments md.
Proof.
  unfold MetadataTables.resolve_instrument.
  intros (? & _ & (? & _ & Hl)%bind_Some)%bind_Some. by eapply list_elem_of_lookup_2.
Qed.

Lemma resolve_order_meta_syms req c meta :
  meta_safe (c_metadata c) → OmsCoreV2.resolve_order_meta req c = Ok meta →
  meta_syms_ok (c_metadata c) meta.
Proof.
  intros [_ Hb]. unfold OmsCoreV2.resolve_order_meta.
  destruct (MetadataTables.route _ _) as [route|] eqn:Er; [|done].
  destruct (MetadataTables.resolve_instrument _ _) as [im|] eqn:Ei; [|done].
  apply resolve_instrument_elem in Ei. destruct (mb_insts _ _ Hb im Ei) as [_ Hx].
  pose proof (mb_routes _ _ Hb _ _ Er) as Hr.
  destruct (im_instrument_type im =? _); intros [= <-]; done.
Qed.

Lemma build_gw_request_returns now req meta c :
  meta_syms_ok (c_metadata c) meta →
  returns (OmsCoreV2.build_gw_request now req meta c) (λ _, True).
Proof.
  intros [H1 H2]. unfold OmsCoreV2.build_gw_request.
  destruct (sym_resolves _ _ H1) as [s1 ->], (sym_resolves _ _ H2) as [s2 ->]. done.
Qed.

Lemma accept_order_safe clk req meta ts c :
  core_wf c → meta_syms_ok (c_metadata c) meta →
  returns (OmsCoreV2.accept_order clk req meta ts c)
    (λ r, safe_step (eq (req_order_id req)) c r.2).
Proof.
  intros Hwf Hsym. unfold OmsCoreV2.accept_order. apply returns_bind.
  eapply returns_mono; [by apply build_gw_request_returns|]. intros gw_req _.
  apply returns_ret. apply safe_step_orders; [done| |].
  - apply update_live_wf; [apply create_order_wf, Hwf|done|].
    intros l id Hl Hid. cbn in Hl. rewrite lookup_insert_eq in Hl. by injection Hl as <-.
  - intros oid Hoid. apply kept_same; cbn.
    + rewrite lookup_alter_ne, lookup_insert_ne by congruence. done.
    + by rewrite lookup_insert_ne by congruence.
Qed.

Lemma pre_trade_frame req meta c :
  frame c (OmsCoreV2.pre_trade req meta c).2.
Proof.
  unfold OmsCoreV2.pre_trade. destruct (_ && _); [|done].
  destruct (_ =? BsBuy).
  - destruct (rm_fund_asset_id meta); [|done]. destruct (rm_balance_check meta); [|done].
    by destruct (ReservationStoreV2.check_available _ _ _ _ _).
  - destruct (rm_pos_instrument_id meta); [|done].
    destruct (PositionStoreV2.check_and_freeze _ _ _ _ _) as [[] ?]; done.
Qed.

(** Interning the source keeps the core well formed and the resolved symbols. *)
Lemma intern_source_safe req meta c :
  core_wf c → meta_syms_ok (c_metadata c) meta →
  let '(meta', c') := OmsCoreV2.intern_source req meta c in
  safe_step none_created c c' ∧ c_orders c' = c_orders c ∧ meta_syms_ok (c_metadata c') meta'.
Proof.
  intros Hwf [H1 H2]. unfold OmsCoreV2.intern_source.
  destruct (negb _); [|split_and!; by auto using safe_step_refl]. destruct Hwf as [Hm Ho].
  pose proof (intern_spec (req_source_id req) (c_metadata c) Hm) as Hi.
  destruct (MetadataTables.intern _ _) as [sym md]. pose proof (interned_only _ _ _ Hi) as Oi.
  destruct Hi as [_ _ Hcount _ Hsafe].
  split_and!; [by split|done|]. unfold meta_syms_ok, sym_ok in *. cbn. lia.
Qed.

Lemma process_order_safe clk req c :
  core_wf c →
  returns (OmsCoreV2.process_order clk req c) (λ r, safe_step (eq (req_order_id req)) c r.2).
Proof.
  intros Hwf. unfold OmsCoreV2.process_order.
  destruct (validate_order_request req); [|by apply safe_step_refl].
  destruct (bool_decide _); [by apply safe_step_refl|].
  destruct (OmsCoreV2.resolve_order_meta req c) as [meta|errs] eqn:Er;
    [|by apply reject_order_safe].
  pose proof (resolve_order_meta_syms req c meta (cw_meta c Hwf) Er) as Hsym.
  pose proof (intern_source_safe req meta c Hwf Hsym) as Hi.
  destruct (OmsCoreV2.intern_source req meta c) as [meta1 c1].
  destruct Hi as (Hst1 & Eo1 & Hsym1). pose proof (st_wf _ _ _ Hst1) as Hwf1.
  assert (∀ c2 m, safe_step none_created c1 c2 →
    returns m (λ r, safe_step (eq (req_order_id req)) c2 r.2) →
    returns m (λ r : list OmsActionV2 * _, safe_step (eq (req_order_id req)) c r.2)) as Hchain.
  { intros c2 m H12 Hm. eapply returns_mono; [exact Hm|]. intros r Hr.
    do 2 (eapply safe_step_trans; [by eapply safe_step_weaken; [|eassumption]|]). done. }
  destruct (OmsCoreV2.risk_violation req meta1 c1).
  { apply (Hchain c1); [by apply safe_step_refl|]. by apply reject_order_safe. }
  pose proof (pre_trade_frame req meta1 c1) as Hf2.
  destruct (OmsCoreV2.pre_trade req meta1 c1) as [checked c2]. cbn in Hf2.
  assert (safe_step none_created c1 c2) as H12 by (by apply safe_step_frame).
  apply (Hchain c2); [done|]. pose proof (st_wf _ _ _ H12).
  destruct checked; [|by apply reject_order_safe].
  apply accept_order_safe; [done|by rewrite (fr_meta _ _ Hf2)].
Qed.

(** ** Reports *)

(** The loop invariant over the entries of a report for order [oid]. *)
Definition entry_inv (oid : Z) (c0 : OmsCoreV2) (acc : OmsCoreV2.ReportFlags * OmsCoreV2)
    : Prop :=
  safe_step none_created c0 acc.2 ∧ is_Some (os_live (c_orders acc.2) !! oid).

Lemma entry_inv_put oid c0 fl fl' c o o' :
  entry_inv oid c0 (fl, c) →
  OrderStoreV2.get_live_and_detail oid (c_orders c) = Some o → evolves o o' →
  lo_exch_order_ref_id o'.1 = lo_exch_order_ref_id o.1 →
  entry_inv oid c0 (fl', OmsCoreV2.put_both oid o' c).
Proof.
  intros [Hst Hl] Ho Hev Href. split; [|cbn; by rewrite lookup_insert_eq].
  eapply safe_step_trans; [exact Hst|]. destruct Hst as [Hwf _ _ _].
  apply safe_step_intro; [done..| |].
  - by eapply put_evolved_wf; [apply Hwf|..].
  - intros oid' Hn. by eapply kept_put.
Qed.

Lemma entry_inv_both oid c0 fl c :
  entry_inv oid c0 (fl, c) →
  ∃ o, OrderStoreV2.get_live_and_detail oid (c_orders c) = Some o ∧
       os_live (c_orders c) !! oid = Some o.1 ∧ os_detail (c_orders c) !! oid = Some o.2.
Proof.
  intros [[Hwf _ _ _] [l Hl]]. destruct (wf_lookup _ oid l (cw_orders _ Hwf) Hl) as (d & Hd & Hb).
  by exists (l, d).
Qed.

Lemma instrument_code_returns iid c :
  meta_safe (c_metadata c) → returns (OmsCoreV2.instrument_code iid c) (λ _, True).
Proof.
  intros [_ Hb]. unfold OmsCoreV2.instrument_code, MetadataTables.instrument.
  destruct (md_instruments _ !! _) as [im|] eqn:E; [|done].
  apply list_elem_of_lookup_2 in E. destruct (mb_insts _ _ Hb im E) as [H _].
  by destruct (sym_resolves _ _ H) as [s ->].
Qed.

Lemma linkage_entry_inv oid gw only linkage c0 acc :
  entry_inv oid c0 acc → entry_inv oid c0 (OmsCoreV2.apply_linkage_entry oid gw only linkage acc).
Proof.
  destruct acc as [fl c]. intros [Hst Hl]. unfold OmsCoreV2.apply_linkage_entry.
  set (c1 := c <| c_orders ::= _ |>).
  assert (entry_inv oid c0 (fl, c1)) as [Hst1 Hl1].
  { split; [eapply safe_step_trans; [exact Hst|]; destruct Hst as [Hwf _ _]|].
    - apply safe_step_intro; [done..|apply register_exch_ref_wf, Hwf|].
      intros oid' Hn. apply kept_register.
    - subst c1. cbn. unfold OrderStoreV2.register_exch_ref.
      destruct (DynStringTable.intern _ _). cbn. by rewrite lookup_alter_is_Some. }
  destruct only; [|by split]. split.
  - eapply safe_step_trans; [exact Hst1|]. destruct Hst1 as [Hwf1 _ _ _].
    apply safe_step_intro; [done..|apply apply_linkage_promotion_wf, Hwf1|].
    intros oid' Hn. apply kept_promotion.
  - cbn in *. by rewrite lookup_alter_is_Some.
Qed.

Lemma state_entry_inv oid ts r c0 acc :
  entry_inv oid c0 acc →
  returns (OmsCoreV2.apply_state_entry oid ts r acc) (entry_inv oid c0).
Proof.
  destruct acc as [fl c]. intros Hinv. destruct (entry_inv_both _ _ _ _ Hinv) as (o & Ho & _).
  unfold OmsCoreV2.apply_state_entry, OmsCoreV2.both_mut. rewrite Ho. cbn [unwrap mbind outcome_bind].
  destruct o as [l d]. apply returns_ret.
  eapply entry_inv_put; [done..|apply apply_state_report_evolves|apply apply_state_report_ref].
Qed.

Lemma trade_entry_inv oid ts r c0 acc :
  entry_inv oid c0 acc →
  returns (OmsCoreV2.apply_trade_entry oid ts r acc) (entry_inv oid c0).
Proof.
  destruct acc as [fl c]. intros Hinv.
  destruct (entry_inv_both _ _ _ _ Hinv) as (o & Ho & Hl & Hd).
  pose proof Hinv as [[Hwf _ _ _] _]. cbn in Hwf.
  unfold OmsCoreV2.apply_trade_entry, OrderStoreV2.get_live. apply returns_bind.
  eapply returns_unwrap; [done|]. apply returns_bind.
  eapply returns_mono; [by eapply resolve_exch_ref_returns; [apply Hwf|]|]. intros ref _.
  apply returns_bind. eapply returns_mono; [apply instrument_code_returns, Hwf|]. intros code _.
  apply returns_bind. unfold OmsCoreV2.both_mut. eapply returns_unwrap; [done|].
  apply returns_ret. eapply entry_inv_put; [done..|apply apply_trade_report_evolves|].
  by destruct o.
Qed.

Lemma exec_entry_inv oid ts r c0 acc :
  entry_inv oid c0 acc →
  returns (OmsCoreV2.apply_exec_entry oid ts r acc) (entry_inv oid c0).
Proof.
  destruct acc as [fl c]. intros Hinv. unfold OmsCoreV2.apply_exec_entry.
  assert (∀ ty msg rej fl',
    returns (orders ← OmsCoreV2.oms_error oid msg ts ty rej (c_orders c);
             mret (fl', c <| c_orders := orders |>)) (entry_inv oid c0)) as H.
  { intros. destruct Hinv as [Hst Hl]. pose proof (st_wf _ _ _ Hst) as Hwf. apply returns_bind.
    eapply returns_mono; [apply oms_error_returns; [apply Hwf|done]|].
    intros orders (Hw & Hk' & Hl'). apply returns_ret. split; [|done].
    eapply safe_step_trans; [exact Hst|]. by apply safe_step_orders. }
  destruct (OmsCoreV2.oms_exec_type r); [by apply returns_ret|apply H..].
Qed.

Lemma fee_entry_inv oid ts r c0 acc :
  entry_inv oid c0 acc →
  returns (OmsCoreV2.apply_fee_entry oid ts r acc) (entry_inv oid c0).
Proof.
  destruct acc as [fl c]. intros Hinv.
  destruct (entry_inv_both _ _ _ _ Hinv) as (o & Ho & Hl & Hd).
  unfold OmsCoreV2.apply_fee_entry, OrderStoreV2.get_live, OrderStoreV2.get_detail.
  apply returns_bind. eapply returns_unwrap; [done|].
  apply returns_bind. eapply returns_unwrap; [done|]. apply returns_ret.
  destruct Hinv as [Hst His]. split; [|done].
  eapply safe_step_trans; [exact Hst|]. destruct Hst as [Hwf _ _ _].
  apply safe_step_intro; [done..|apply update_detail_wf, Hwf|].
  intros oid' Hn. apply kept_update_detail. intros. apply apply_fee_report_evolves.
Qed.

Lemma apply_entry_inv oid gw ts only c0 acc entry :
  entry_inv oid c0 acc →
  returns (OmsCoreV2.apply_entry oid gw ts only acc entry) (entry_inv oid c0).
Proof.
  intros Hinv. unfold OmsCoreV2.apply_entry.
  destruct (default _ _), (ent_report entry) as [[]|];
    first [by apply returns_ret|by apply state_entry_inv|by apply trade_entry_inv
          |by apply exec_entry_inv|by apply fee_entry_inv
          |by apply returns_ret, linkage_entry_inv].
Qed.

(** Fills touch positions and reservations only. *)
Lemma apply_fills_frame oid acct ts is_buy flags price fills acc :
  frame acc.2 (foldl (OmsCoreV2.apply_fill oid acct ts is_buy flags price) acc fills).2.
Proof.
  revert acc. induction fills as [|q fills IH]; intros [b c]; [done|]. cbn [foldl].
  etrans; [|apply IH]. unfold OmsCoreV2.apply_fill. destruct (q <=? f64.zero)%f64; [done|].
  by destruct (af_pos_instrument_id flags).
Qed.

Lemma slice_from_returns {A} n (l : list A) :
  (n ≤ length l)%nat → returns (OmsCoreV2.slice_from n l) (λ k, k = drop n l).
Proof. intros Hn. unfold OmsCoreV2.slice_from. by rewrite (proj2 (Nat.leb_le _ _) Hn). Qed.

Lemma settle_fills_safe oid acct ts side flags tb ib c d :
  core_wf c → os_detail (c_orders c) !! oid = Some d →
  (tb ≤ length (dl_trades d))%nat → (ib ≤ length (dl_inferred_trades d))%nat →
  returns (OmsCoreV2.settle_fills oid acct ts side flags tb ib c)
    (λ r, frame c r.2).
Proof.
  intros Hwf Hd Ht Hi. unfold OmsCoreV2.settle_fills, OrderStoreV2.get_detail.
  apply returns_bind. eapply returns_unwrap; [done|].
  apply returns_bind. eapply returns_mono; [by apply slice_from_returns|]. intros trades _.
  apply returns_bind. eapply returns_mono; [by apply slice_from_returns|]. intros inf _.
  pose proof (apply_fills_frame oid acct ts (side =? BsBuy) flags
    (default f64.zero (lo_price <$> OrderStoreV2.get_live oid (c_orders c)))
    ((tr_filled_qty <$> trades) ++ (tr_filled_qty <$> inf)) (false, c)) as Hf.
  by destruct (foldl _ _ _) as [changed c'].
Qed.

Lemma finalize_live_evolves l d : evolves (l, d) (OmsCoreV2.finalize_live l, d).
Proof.
  unfold OmsCoreV2.finalize_live.
  set (l1 := l <| lo_snapshot_version ::= _ |>).
  set (l2 := if _ && _ && _ then _ else l1).
  assert (identity l2 = identity l ∧ lo_filled_qty l2 = lo_filled_qty l ∧
          lo_terminal_at l2 = lo_terminal_at l ∧ order_status l2 = order_status l)
    as (Hi & Hf & Ht & Hs).
  { subst l2. by destruct (_ && _ && _). }
  clearbody l2. destruct (is_in_terminal_state l2 && _) eqn:E; apply evolves_live; cbn;
    try done.
  2: by rewrite Ht.
  intros t Hl. exfalso. rewrite andb_true_iff, negb_true_iff, bool_decide_eq_false in E.
  destruct E as [_ E]. apply E. rewrite Ht, Hl. by exists t.
Qed.

Lemma finalize_live_ref l :
  lo_exch_order_ref_id (OmsCoreV2.finalize_live l) = lo_exch_order_ref_id l ∧
  lo_order_id (OmsCoreV2.finalize_live l) = lo_order_id l.
Proof.
  unfold OmsCoreV2.finalize_live.
  destruct (_ && _ && _); cbn; destruct (_ && _); done.
Qed.

Lemma close_order_safe oid acct flags c :
  core_wf c → safe_step none_created c (OmsCoreV2.close_order oid acct flags c).
Proof.
  intros Hwf. unfold OmsCoreV2.close_order.
  set (c1 := c <| c_reservations ::= _ |>).
  destruct (unfreeze_remaining_frame oid acct flags c1) as [[Em Eo Ee] _].
  apply safe_step_intro; cbn; [by rewrite Em|exact Ee|done|rewrite Eo; apply mark_closed_wf, Hwf|].
  intros oid' _. rewrite Eo. apply kept_mark_closed.
Qed.

Lemma finish_report_safe oid ts tb ib fl c0 c :
  entry_inv oid c0 (fl, c) →
  (∀ d, os_detail (c_orders c) !! oid = Some d →
     (tb ≤ length (dl_trades d))%nat ∧ (ib ≤ length (dl_inferred_trades d))%nat) →
  returns (OmsCoreV2.finish_report oid ts tb ib fl c) (λ r, safe_step none_created c0 r.2).
Proof.
  intros Hinv Hlen. pose proof Hinv as [Hstep _].
  destruct (entry_inv_both _ _ _ _ Hinv) as (o & Ho & Hl & Hd).
  unfold OmsCoreV2.finish_report, OrderStoreV2.get_live. destruct (negb _); [done|].
  apply returns_bind. eapply returns_unwrap; [done|].
  set (live := OmsCoreV2.finalize_live o.1). set (c1 := c <| c_orders ::= _ |>).
  assert (safe_step none_created c0 c1) as Hs1.
  { eapply safe_step_trans; [exact Hstep|]. destruct Hstep as [Hwf _ _ _]. cbn in Hwf.
    destruct (finalize_live_ref o.1) as [Er Ei].
    apply safe_step_intro; [done..| |].
    - eapply update_live_wf'; [apply Hwf|exact Hl|..]; unfold live; [by rewrite Ei|].
      intros id. rewrite Er. by eapply (ow_ref _ (cw_orders _ Hwf)).
    - intros oid' _. apply kept_update_live. intros l d Hl'. rewrite Hl in Hl'.
      injection Hl' as <-. apply finalize_live_evolves. }
  apply returns_bind.
  eapply (returns_mono _ (λ r, frame c1 r.2)).
  { destruct (_ || _); [|by apply returns_ret].
    destruct (Hlen _ Hd). by eapply settle_fills_safe; [apply Hs1|..]. }
  intros [settled c2] Hf2. cbn in Hf2.
  assert (safe_step none_created c0 c2) as Hs2.
  { eapply safe_step_trans; [exact Hs1|]. apply safe_step_frame; [apply Hs1|done..]. }
  destruct (is_in_terminal_state live); apply returns_ret; cbn; [|done].
  eapply safe_step_trans; [exact Hs2|]. apply close_order_safe, Hs2.
Qed.

Lemma process_report_for_order_safe oid gw report c :
  core_wf c →
  returns (OmsCoreV2.process_report_for_order oid gw report c)
    (λ r, safe_step none_created c r.2).
Proof.
  intros Hwf. unfold OmsCoreV2.process_report_for_order, OrderStoreV2.get_live.
  destruct (os_live (c_orders c) !! oid) as [live|] eqn:El; [|by apply safe_step_refl].
  destruct (wf_lookup _ oid live (cw_orders c Hwf) El) as (d & Hd & Hb).
  set (c1 := c <| c_orders ::= _ |>).
  assert (entry_inv oid c (OmsCoreV2.no_flags, c1)) as Hinv1.
  { split; [apply safe_step_intro; [done..| |]|].
    - eapply update_live_wf; [apply Hwf|done|]. intros l id Hl Hid. by eapply (ow_ref _ (cw_orders c Hwf)).
    - intros oid' _. apply kept_update_live. intros. by apply evolves_live.
    - cbn. rewrite lookup_alter_is_Some, El. done. }
  apply returns_bind. eapply returns_mono.
  { apply (returns_for_each (entry_inv oid c)); [exact Hinv1|].
    intros acc e _ Hacc. by apply apply_entry_inv. }
  intros [fl c2] Hinv2. apply finish_report_safe; [done|].
  intros d2 Hd2. unfold OrderStoreV2.get_detail. rewrite Hd. simpl.
  destruct (entry_inv_both _ _ _ _ Hinv2) as (o & Ho & _ & Hd2').
  destruct Hinv2 as [[_ _ _ Hk] _]. specialize (Hk oid (λ H, H)). unfold kept in Hk.
  cbn in Hk. rewrite Hb, Ho in Hk. rewrite Hd2 in Hd2'. injection Hd2' as ->.
  split; apply prefix_length; apply Hk.
Qed.

(** The order ids a report may create: the next external id. *)
Lemma process_order_report_safe report c :
  core_wf c →
  returns (OmsCoreV2.process_order_report report c)
    (λ r, safe_step (eq (os_id_counter (c_orders c))) c r.2).
Proof.
  intros Hwf. unfold OmsCoreV2.process_order_report.
  destruct (OmsCoreV2.resolve_gw _ c) as [gw|]; [|by apply safe_step_refl].
  destruct (OrderStoreV2.resolve_order_id _ _ _ _) as [oid|].
  { eapply returns_mono; [by apply process_report_for_order_safe|].
    intros r. by apply safe_step_weaken. }
  destruct (_ && _).
  - apply returns_bind. unfold OmsCoreV2.external_order.
    cbv zeta. case_match eqn:Ex.
    + apply bind_Some in Ex as (rid' & Hlk & Hx).
      unfold OrderStoreV2.is_external in Hx.
      destruct (os_external_order_ids (c_orders c) !! (gw, rid')) as [oid|] eqn:Eo; [|done].
      apply returns_bind. eapply returns_unwrap; [exact Hlk|].
      apply returns_bind. eapply returns_unwrap; [exact Eo|]. apply returns_ret.
      eapply returns_mono; [by apply process_report_for_order_safe|].
      intros r. by apply safe_step_weaken.
    + pose proof (intern_spec ("External@" +:+ rep_exchange report) _ (cw_meta c Hwf)) as Hi.
      destruct (MetadataTables.intern _ _) as [sym md].
      pose proof (interned_only _ _ _ Hi) as Oi. destruct Hi as [_ _ _ _ Hsafe].
      change (c_orders (c <| c_metadata := md |>)) with (c_orders c).
      pose proof (create_external_order_wf (c_orders c) gw (rep_exch_order_ref report)
        (rep_account_id report) (rep_update_timestamp report) sym (cw_orders c Hwf)) as Hw.
      pose proof (λ oid, kept_create_external oid gw (rep_exch_order_ref report)
        (rep_account_id report) (rep_update_timestamp report) sym (c_orders c)) as Hk.
      destruct (OrderStoreV2.create_external_order _ _ _ _ _ _) as [oid orders]. cbn in Hw, Hk.
      apply returns_ret. eapply returns_mono; [apply process_report_for_order_safe; by split|].
      intros r Hr. eapply safe_step_trans; [|by eapply safe_step_weaken, Hr].
      split; [by split|done..|]. cbn. intros oid' Hne. apply Hk. congruence.
  - apply returns_ret. cbn. unfold OmsCoreV2.buffer_report. destruct (negb _);
      [|by apply safe_step_refl].
    pose proof (set_dyn_wf (c_orders c) (rep_exch_order_ref report) (cw_orders c Hwf)) as Hd.
    destruct (DynStringTable.intern _ _) as [id dyn]. destruct Hd as [Hw _].
    apply safe_step_intro; [done..|]. intros oid' _. by apply kept_same.
Qed.

(** ** Balance updates *)

Lemma apply_spot_entries_frame acct ts entries acc :
  frame acc.2 (foldl (OmsCoreV2.apply_spot_entry acct ts) acc entries).2.
Proof.
  revert acc. induction entries as [|e entries IH]; intros [acts c]; [done|]. cbn [foldl].
  etrans; [|apply IH]. unfold OmsCoreV2.apply_spot_entry. destruct (_ =? _); [|done].
  destruct (OmsCoreV2.lookup_asset _ c); [|done].
  by destruct (BalanceStoreV2.get_or_create_balance _ _ _).
Qed.

Lemma apply_position_entry_safe acct ts c0 acc e :
  core_wf c0 → frame c0 acc.2 →
  returns (OmsCoreV2.apply_position_entry acct ts acc e)
    (λ r, frame c0 r.2).
Proof.
  intros Hwf. destruct acc as [acts c]. cbn. intros Hf. pose proof (fr_meta _ _ Hf) as Em.
  unfold OmsCoreV2.apply_position_entry. destruct (negb _); [|done].
  case_match eqn:Ei; [|done]. rename i into inst.
  apply bind_Some in Ei as (route & _ & Hi).
  assert (inst ∈ md_instruments (c_metadata c)) as Hin.
  { unfold MetadataTables.resolve_instrument_by_gw in Hi.
    apply bind_Some in Hi as (? & _ & Hi). apply bind_Some in Hi as (? & _ & Hi).
    by eapply list_elem_of_lookup_2. }
  rewrite Em in Hin. destruct (mb_insts _ _ (ms_bounded _ (cw_meta c0 Hwf)) inst Hin) as [Hs _].
  rewrite Em. destruct (sym_resolves _ _ Hs) as [s ->]. apply returns_ret.
  etrans; [exact Hf|done].
Qed.

Lemma find_route_returns code routes md :
  (∀ a r, (a, r) ∈ routes → sym_ok md (rtm_exch_account_sym r)) →
  returns (OmsCoreV2.find_route code routes md) (λ _, True).
Proof.
  induction routes as [|[a r] routes IH]; intros Hr; [done|]. simpl.
  destruct (sym_resolves md (rtm_exch_account_sym r)) as [s ->]; [apply (Hr a); set_solver|].
  simpl. case_decide; [done|]. apply IH. intros a' r' ?. apply (Hr a'). set_solver.
Qed.

Lemma process_balance_update_safe `{!HashIter Z, !HashIterOk Z} clk update c :
  core_wf c →
  returns (OmsCoreV2.process_balance_update clk update c) (λ r, safe_step none_created c r.2).
Proof.
  intros Hwf. unfold OmsCoreV2.process_balance_update.
  destruct (bu_balances update) as [|first rest] eqn:Eb; [by apply safe_step_refl|].
  apply returns_bind. eapply (returns_mono _ (λ _, True)).
  { unfold OmsCoreV2.resolve_account.
    cbv zeta. case_match; [done|].
    apply find_route_returns. intros a r Hr%elem_of_hash_iter.
    by apply (mb_routes _ _ (ms_bounded _ (cw_meta c Hwf)) a). }
  intros [acct|] _; [|by apply safe_step_refl]. rewrite <- Eb.
  pose proof (apply_spot_entries_frame acct (clk 0%nat) (bu_balances update) ([], c)) as Hf.
  destruct (foldl (OmsCoreV2.apply_spot_entry _ _) _ _) as [acts c1]. cbn in Hf.
  apply returns_bind. eapply returns_mono.
  { apply (returns_for_each (λ r, frame c r.2));
      [exact Hf|]. intros acc e _. by apply apply_position_entry_safe. }
  intros [acts2 c2] Hf2. apply returns_ret. cbn in *.
  by apply safe_step_frame.
Qed.

(** ** All messages *)

(** The order ids a message may create. *)
Definition creates (msg : OmsMessage) (c : OmsCoreV2) (oid : Z) : Prop :=
  match msg with
  | PlaceOrder req => req_order_id req = oid
  | BatchPlaceOrders reqs => oid ∈ req_order_id <$> reqs
  | GatewayOrderReport _ => os_id_counter (c_orders c) = oid
  | _ => False
  end.

Lemma batch_safe {A} (f : (nat → Z) → A → OmsCoreV2 → handled)
    (created : A → Z → Prop) clk l c :
  (∀ clk a c, core_wf c → returns (f clk a c) (λ r, safe_step (created a) c r.2)) →
  core_wf c →
  returns (OmsCoreV2.batch f clk l c) (λ r, safe_step (λ oid, ∃ a, a ∈ l ∧ created a oid) c r.2).
Proof.
  intros Hf. revert clk c. induction l as [|a l IH]; intros clk c Hwf;
    [by apply safe_step_refl|]. simpl.
  apply returns_bind. eapply returns_mono; [by apply Hf|]. intros [acts c1] H1.
  apply returns_bind. eapply returns_mono; [apply IH, H1|]. intros [rest c2] H2.
  apply returns_ret. eapply safe_step_trans.
  - eapply safe_step_weaken; [|exact H1]. intros oid ?. exists a. set_solver.
  - eapply safe_step_weaken; [|exact H2]. intros oid (a' & ? & ?). exists a'. set_solver.
Qed.

(** The panic set after a message. *)
Definition panic_after (msg : OmsMessage) (s : gset Z) : gset Z :=
  match msg with
  | Panic account_id => {[account_id]} ∪ s
  | DontPanic account_id => s ∖ {[account_id]}
  | _ => s
  end.

Lemma process_message_step `{!HashIter Z, !HashIterOk Z} clk msg c :
  core_wf c →
  returns (OmsCoreV2.process_message clk msg c)
    (λ r, safe_step (creates msg c) (c <| c_panic_accounts ::= panic_after msg |>) r.2).
Proof.
  intros Hwf.
  assert (∀ s, core_wf (c <| c_panic_accounts ::= s |>)) as Hwf' by (by destruct Hwf; split).
  assert (c <| c_panic_accounts ::= λ s, s |> = c) as Eid by (by destruct c).
  assert (∀ m : outcome (list OmsActionV2 * OmsCoreV2),
    returns m (λ r, safe_step none_created c r.2) →
    returns m (λ r, safe_step (creates msg c) c r.2)) as Hweak.
  { intros m Hm. eapply returns_mono; [exact Hm|]. intros r. by apply safe_step_weaken. }
  destruct msg; cbn [OmsCoreV2.process_message creates]; unfold panic_after;
    rewrite ?Eid; try (apply returns_ret; by apply safe_step_frame).
  - by apply process_order_safe.
  - eapply returns_mono; [apply batch_safe; [|done]; intros; by apply process_order_safe|].
    intros r. apply safe_step_weaken. intros oid (a & Ha & <-). by apply list_elem_of_fmap_2.
  - apply Hweak. by apply process_cancel_safe.
  - apply Hweak. eapply returns_mono;
      [apply batch_safe; [|done]; intros; by apply process_cancel_safe|].
    intros r. apply safe_step_weaken. by intros oid (a & _ & []).
  - by apply process_order_report_safe.
  - apply Hweak. by apply process_balance_update_safe.
  - apply Hweak. by apply send_failed_safe.
  - apply Hweak. by apply cancel_send_failed_safe.
Qed.
