(* ===== verification/OmsLifecycle.v ===== *)
(** * Reachable cores ([oms_core_v2.rs])

    The life of an OMS core as a transition system: construction from a
    configuration, warm start, config reloads and messages.  Every reachable
    core satisfies the invariant, so no message, reload or event builder
    panics, and order histories only grow. *)

From S2P Require Import Prelude F64 Proto Intern Models Reservation Position Balance.
From S2P Require Import Config Metadata MetadataFacts MetadataReload Utils.
From S2P Require Import OrderStore OrderHistory OmsCore OmsSafety Scenario.

Section lifecycle.
Context `{!Uppercase, !HashIter string, !HashIter Z, !HashIterOk Z}.
Context `{!HashIter (Z * Z), !HashIter (Z * string)}.
Implicit Types (c : OmsCoreV2).

Inductive reachable : OmsCoreV2 → Prop :=
| reach_new seed config emu risk ext max :
    0 ≤ max → reachable (OmsCoreV2.new seed config emu risk ext max)
| reach_init c orders positions balances :
    reachable c → reachable (OmsCoreV2.init_state orders positions balances c)
| reach_reload c config c' :
    reachable c → u32_sized (c_metadata c) →
    OmsCoreV2.reload_config config c = Returns c' → reachable c'
| reach_message c clk msg actions c' :
    reachable c → OmsCoreV2.process_message clk msg c = Returns (actions, c') → reachable c'.

Record core_inv c : Prop := {
  ci_wf : core_wf c;
  ci_idx : indexed_if_sized (c_metadata c);
}.

Lemma new_inv seed config emu risk ext max :
  0 ≤ max → core_inv (OmsCoreV2.new seed config emu risk ext max).
Proof.
  intros Hm. split; [split|]; cbn.
  - apply from_confdata_safe.
  - by apply orders_wf_new.
  - apply from_confdata_indexed.
Qed.

(** A step that changes metadata by interning only keeps the invariant. *)
Lemma core_inv_step c c' :
  core_inv c → only_interns (c_metadata c) (c_metadata c') → orders_wf (c_orders c') →
  core_inv c'.
Proof.
  intros [_ Hi] Ho Hw. split; [split; [apply Ho|done]|]. by eapply only_interns_indexed.
Qed.

Lemma init_v1_order_inv c v1 : core_inv c → core_inv (OmsCoreV2.init_v1_order c v1).
Proof.
  intros Hinv. pose proof Hinv as [[Hm Ho] Hi].
  unfold OmsCoreV2.init_v1_order, OmsCoreV2.convert_v1_order.
  set (r1 := if is_empty (ord_source_id (oo_order_state v1)) then _ else _).
  assert (only_interns (c_metadata c) (c_metadata r1.2) ∧ c_orders r1.2 = c_orders c)
    as [Om Eo].
  { subst r1. destruct (is_empty _); [split; [by apply only_interns_refl|done]|].
    pose proof (intern_spec (ord_source_id (oo_order_state v1)) (c_metadata c) Hm) as H1.
    destruct (MetadataTables.intern _ _) as [sym md]. split; [by eapply interned_only|done]. }
  destruct r1 as [source_sym c1]. cbn in Om, Eo. rewrite <- Eo in Ho.
  set (r2 := match oo_exch_order_ref v1 with Some r => _ | None => _ end).
  assert (c_metadata r2.2 = c_metadata c1 ∧ orders_wf (c_orders r2.2) ∧
    ∀ id, r2.1 = Some id → dyn_ok (c_orders r2.2) id) as (Em2 & Ho2 & Hd2).
  { subst r2. destruct (oo_exch_order_ref v1) as [r|]; [|done].
    pose proof (set_dyn_wf (c_orders c1) r Ho) as H2.
    destruct (DynStringTable.intern _ _) as [id dyn]. destruct H2. cbn.
    split_and!; [done..|]. by intros ? [= <-]. }
  destruct r2 as [ref c2]. cbn in Em2, Ho2, Hd2.
  eapply core_inv_step; [done|cbn; by rewrite Em2|]. cbn -[OrderStoreV2.init_order].
  apply init_order_wf; [done|]. intros id. destruct (_ && _); cbn; apply Hd2.
Qed.

Lemma init_state_inv c orders positions balances :
  core_inv c → core_inv (OmsCoreV2.init_state orders positions balances c).
Proof.
  intros Hinv. unfold OmsCoreV2.init_state.
  assert (∀ c1 c2, c_metadata c2 = c_metadata c1 → c_orders c2 = c_orders c1 →
    core_inv c1 → core_inv c2) as Hframe.
  { intros c1 c2 Em Eo H1. eapply core_inv_step; [exact H1|..]; rewrite ?Em, ?Eo; [|apply H1].
    apply only_interns_refl, H1. }
  apply foldl_inv; [|intros c1 snap _; apply Hframe;
    unfold OmsCoreV2.init_balance; by destruct (OmsCoreV2.lookup_asset _ _)].
  apply foldl_inv; [|intros c1 pos _; apply Hframe;
    unfold OmsCoreV2.init_v1_position; by destruct (MetadataTables.resolve_instrument _ _)].
  apply foldl_inv; [done|]. intros c1 v1 _. apply init_v1_order_inv.
Qed.

Lemma reload_returns config c :
  core_inv c → u32_sized (c_metadata c) →
  returns (OmsCoreV2.reload_config config c)
    (λ c', core_inv c' ∧ ids_kept (c_metadata c) (c_metadata c') ∧ c_orders c' = c_orders c).
Proof.
  intros [[Hm Ho] Hi] Hsz. unfold OmsCoreV2.reload_config. apply returns_bind.
  eapply returns_mono; [apply rebuild_returns; auto|].
  intros md (Hs & Hk & Hi'). apply returns_ret. by split_and!.
Qed.

Lemma message_inv clk msg c :
  core_inv c →
  returns (OmsCoreV2.process_message clk msg c)
    (λ r, core_inv r.2 ∧
          safe_step (creates msg c) (c <| c_panic_accounts ::= panic_after msg |>) r.2).
Proof.
  intros Hinv. eapply returns_mono; [apply process_message_step, Hinv|].
  intros r Hst. split; [|done]. eapply core_inv_step; [done|apply (st_meta _ _ _ Hst)|apply Hst].
Qed.

Lemma reachable_inv c : reachable c → core_inv c.
Proof.
  induction 1 as [| |c config c' _ IH Hsz Hr|c clk msg acts c' _ IH Hr].
  - by apply new_inv.
  - by apply init_state_inv.
  - pose proof (reload_returns config c IH Hsz) as H1. rewrite Hr in H1. apply H1.
  - pose proof (message_inv clk msg c IH) as H1. rewrite Hr in H1. apply H1.
Qed.

(** *** Event builders *)

Lemma gw_key_returns gw c :
  meta_safe (c_metadata c) → returns (OmsCoreV2.gw_key gw c) (λ _, True).
Proof.
  intros [_ Hb]. unfold OmsCoreV2.gw_key, MetadataTables.gw.
  destruct (md_gws _ !! _) as [g|] eqn:E; [|done].
  apply list_elem_of_lookup_2 in E. pose proof (mb_gws _ _ Hb g E) as Hg.
  by destruct (sym_resolves _ _ Hg) as [s ->].
Qed.

Lemma build_proto_order_returns oid live c :
  core_wf c → os_live (c_orders c) !! oid = Some live →
  returns (OmsCoreV2.build_proto_order live c)
    (λ o, ord_order_id o = oid ∧ ord_order_status o = lo_order_status live ∧
          ord_filled_qty o = lo_filled_qty live).
Proof.
  intros [Hm Ho] Hl. unfold OmsCoreV2.build_proto_order.
  apply returns_bind. eapply returns_mono; [by apply instrument_code_returns|]. intros s1 _.
  apply returns_bind. eapply (returns_mono _ (λ _, True)).
  { unfold MetadataTables.instrument.
    destruct (md_instruments _ !! _) as [im|] eqn:E; [|done]. apply list_elem_of_lookup_2 in E.
    destruct (mb_insts _ _ (ms_bounded _ Hm) im E) as [_ He].
    by destruct (sym_resolves _ _ He) as [s ->]. }
  intros s2 _. apply returns_bind. eapply returns_mono; [by apply gw_key_returns|]. intros s3 _.
  apply returns_bind. eapply returns_mono; [by eapply resolve_exch_ref_returns|]. intros s4 _.
  apply returns_ret. cbn. split_and!; [|done..]. by apply (ow_id _ Ho).
Qed.

Lemma build_order_update_event_returns now oid t f e i c :
  core_wf c →
  returns (OmsCoreV2.build_order_update_event now oid t f e i c)
    (λ ev, is_Some ev ↔ is_Some (os_live (c_orders c) !! oid)).
Proof.
  intros Hwf. unfold OmsCoreV2.build_order_update_event, OrderStoreV2.get_live.
  destruct (os_live (c_orders c) !! oid) as [live|] eqn:El; [|by apply returns_ret].
  apply returns_bind. eapply returns_mono; [by eapply build_proto_order_returns|].
  intros o _. apply returns_ret. split; intros _; [by exists live|by eexists].
Qed.

Lemma build_position_update_event_returns now acct c :
  core_wf c → returns (OmsCoreV2.build_position_update_event now acct c) (λ _, True).
Proof.
  intros [Hm Ho]. unfold OmsCoreV2.build_position_update_event. apply returns_bind.
  eapply returns_mono; [|by intros; apply returns_ret].
  apply (returns_for_each (λ _, True)); [done|]. intros acc p _ _. apply returns_bind.
  unfold OmsCoreV2.proto_position. apply returns_bind.
  eapply returns_mono; [by apply instrument_code_returns|]. intros; by apply returns_ret.
Qed.
End lifecycle.

(** C1: the OMS never panics.  In every core reachable from a fresh one by warm
    starts, config reloads and messages, every message is handled to the end,
    every config reload completes (while the tables hold at most [2^32]
    entries), and the order and position event builders return; an order event
    is built exactly for the orders in the store. *)
Theorem oms_never_panics `{!Uppercase, !HashIter string, !HashIter Z, !HashIterOk Z}
    `{!HashIter (Z * Z), !HashIter (Z * string)} (c : OmsCoreV2) :
  reachable c →
  (∀ clk msg, ∃ actions c', OmsCoreV2.process_message clk msg c = Returns (actions, c')) ∧
  (∀ config, u32_sized (c_metadata c) → ∃ c', OmsCoreV2.reload_config config c = Returns c') ∧
  (∀ now oid t f e i, ∃ ev, OmsCoreV2.build_order_update_event now oid t f e i c = Returns ev ∧
     (is_Some ev ↔ is_Some (os_live (c_orders c) !! oid))) ∧
  (∀ now acct, ∃ ev, OmsCoreV2.build_position_update_event now acct c = Returns ev).
Proof.
  intros Hinv%reachable_inv. split_and!.
  - intros clk msg. destruct (returns_inv _ _ (message_inv clk msg c Hinv)) as ([acts c'] & E & _).
    eauto.
  - intros config Hsz. destruct (returns_inv _ _ (reload_returns config c Hinv Hsz)) as (c' & E & _).
    eauto.
  - intros. apply returns_inv. apply build_order_update_event_returns, Hinv.
  - intros now acct. destruct (returns_inv _ _
      (build_position_update_event_returns now acct c (ci_wf c Hinv))) as (ev & E & _). eauto.
Qed.

Lemma play_reachable msgs c acts c' :
  reachable c → play msgs c = Returns (acts, c') → reachable c'.
Proof.
  revert c acts. induction msgs as [|m msgs IH]; intros c acts Hc; cbn [play].
  - by intros [= <- <-].
  - destruct (OmsCoreV2.process_message demo_clk m c) as [[a c1]|] eqn:E; [|done].
    unfold mbind, outcome_bind. destruct (play msgs c1) as [[rest c2]|] eqn:E2; [|done].
    intros [= <- <-]. eapply IH; [|exact E2]. by eapply reach_message.
Qed.

Lemma demo_core_reachable trading : reachable (demo_core trading).
Proof. unfold demo_core. apply reach_new. lia. Qed.

Lemma oms_never_panics_witness :
  ∃ actions c', OmsCoreV2.process_message demo_clk
    (PlaceOrder (demo_order 11 BsBuy "BTC-PERP" (f64.of_Z 10) (f64.of_Z 100))) checked_core
    = Returns (actions, c').
Proof. apply (oms_never_panics checked_core). apply demo_core_reachable. Defined.

(** C3: order histories are append-only.  Handling any message in a reachable
    core never alters an order it did not create otherwise than by evolution:
    an order that was absent stays absent, and one that is still stored keeps
    its id, account, instrument, gateway, side, price, quantity and accounting
    flags, its filled quantity does not decrease, its terminal timestamp, once
    set, is never rewritten, and its trades, inferred trades, execution
    messages and fees extend the earlier ones. *)
Theorem order_history_append_only `{!Uppercase, !HashIter string, !HashIter Z, !HashIterOk Z}
    (c c' : OmsCoreV2) clk msg actions oid :
  reachable c → OmsCoreV2.process_message clk msg c = Returns (actions, c') →
  ¬ creates msg c oid →
  match OrderStoreV2.get_live_and_detail oid (c_orders c),
        OrderStoreV2.get_live_and_detail oid (c_orders c') with
  | None, Some _ => False
  | Some (l, d), Some (l', d') =>
      identity l' = identity l ∧
      (f64.is_nan (lo_filled_qty l) = false → fle (lo_filled_qty l) (lo_filled_qty l')) ∧
      (∀ t, lo_terminal_at l = Some t → lo_terminal_at l' = Some t) ∧
      dl_trades d `prefix_of` dl_trades d' ∧
      dl_inferred_trades d `prefix_of` dl_inferred_trades d' ∧
      dl_exec_msgs d `prefix_of` dl_exec_msgs d' ∧ dl_fees d `prefix_of` dl_fees d'
  | _, None => True
  end.
Proof.
  intros Hinv%reachable_inv Hmsg Hnew. pose proof (message_inv clk msg c Hinv) as H1.
  rewrite Hmsg in H1. destruct H1 as [_ [_ _ _ Hk]]. specialize (Hk oid Hnew). unfold kept in Hk.
  cbn in Hk. destruct (OrderStoreV2.get_live_and_detail oid (c_orders c)) as [[l d]|],
    (OrderStoreV2.get_live_and_detail oid (c_orders c')) as [[l' d']|]; try done.
  destruct Hk as [Hid Hf Ht H2 H3 H4 H5 _]. split_and!; try done.
  intros Hn. by apply Hf.
Qed.

(** A core with one accepted order, and the same core after a partial fill. *)
Definition placed_core : OmsCoreV2 :=
  Eval vm_compute in
  match OmsCoreV2.process_message demo_clk
    (PlaceOrder (demo_order 11 BsBuy "BTC-PERP" (f64.of_Z 10) (f64.of_Z 100))) checked_core with
  | Returns (_, c) => c
  | Panics _ => checked_core
  end.
Definition fill_message : OmsMessage :=
  GatewayOrderReport (demo_report 11 [trade_entry (f64.of_Z 4) (f64.of_Z 100)]).
Definition filled_core : OmsCoreV2 :=
  Eval vm_compute in
  match OmsCoreV2.process_message demo_clk fill_message placed_core with
  | Returns (_, c) => c
  | Panics _ => checked_core
  end.

Lemma placed_core_reachable : reachable placed_core.
Proof.
  apply (reach_message checked_core demo_clk
    (PlaceOrder (demo_order 11 BsBuy "BTC-PERP" (f64.of_Z 10) (f64.of_Z 100)))
    [PersistOrder 11 false false; SendOrderToGw 0 11 1000]).
  - apply demo_core_reachable.
  - vm_compute. reflexivity.
Qed.

Lemma order_history_append_only_witness :
  match OrderStoreV2.get_live_and_detail 11 (c_orders placed_core),
        OrderStoreV2.get_live_and_detail 11 (c_orders filled_core) with
  | Some (l, d), Some (l', d') =>
      identity l' = identity l ∧ fle (lo_filled_qty l) (lo_filled_qty l') ∧
      length (dl_trades d') = 1%nat
  | _, _ => False
  end.
Proof.
  pose proof (order_history_append_only placed_core filled_core demo_clk fill_message
    [PublishOrderUpdate 11 true false false true; PersistPosition 7 7;
     PublishPositionUpdate 7; PersistOrder 11 false false] 11 placed_core_reachable) as H.
  destruct (OrderStoreV2.get_live_and_detail 11 (c_orders placed_core)) as [[l d]|] eqn:E1;
    [|vm_compute in E1; discriminate].
  destruct (OrderStoreV2.get_live_and_detail 11 (c_orders filled_core)) as [[l' d']|] eqn:E2;
    [|vm_compute in E2; discriminate].
  destruct H as (H1 & H2 & _).
  - vm_compute. reflexivity.
  - vm_compute. discriminate.
  - vm_compute in E1, E2. injection E1 as <- <-. injection E2 as <- <-.
    split_and!; [exact H1|apply H2; reflexivity|reflexivity].
Defined.

(** Reloads keep ids.  After a config reload of a reachable core every id
    still names the same gateway, asset and instrument, and a key present in
    the old and the new tables keeps its id; the order store is untouched, so
    the ids its orders carry stay valid. *)
Theorem reload_keeps_ids `{!Uppercase, !HashIter string, !HashIter Z, !HashIterOk Z}
    (config : ConfdataManager) (c c' : OmsCoreV2) :
  reachable c → u32_sized (c_metadata c) → OmsCoreV2.reload_config config c = Returns c' →
  let md := c_metadata c in
  let md' := c_metadata c' in
  (∀ id s, gw_name id md = Some s → gw_name id md' = Some s) ∧
  (∀ id s, asset_name id md = Some s → asset_name id md' = Some s) ∧
  (∀ id s, inst_name id md = Some s → inst_name id md' = Some s) ∧
  same_ids (md_gw_by_key md) (md_gw_by_key md') ∧
  same_ids (md_asset_by_symbol md) (md_asset_by_symbol md') ∧
  same_ids (md_instrument_by_code md) (md_instrument_by_code md') ∧
  c_orders c' = c_orders c.
Proof.
  intros Hinv%reachable_inv Hsz Hr. pose proof (reload_returns config c Hinv Hsz) as H1.
  rewrite Hr in H1. destruct H1 as (_ & [H1 H2 H3 H4 H5 H6] & H7). by split_and!.
Qed.

(** A configuration that drops the spot pair and lists another perpetual. *)
Definition other_config : ConfdataManager :=
  ConfdataManager.new (default_OmsConfigEntry <| oc_managed_account_ids := [7] |>)
    [demo_route] [demo_gw]
    [demo_perp <| rd_instrument_id := "ETH-PERP" |> <| rd_base_asset := "ETH" |>; demo_perp] [].

Definition reloaded_core : OmsCoreV2 :=
  Eval vm_compute in
  match OmsCoreV2.reload_config other_config placed_core with
  | Returns c => c
  | Panics _ => checked_core
  end.

Lemma reload_keeps_ids_witness :
  inst_name 0 (c_metadata placed_core) = Some "BTC-USDT" ∧
  inst_name 0 (c_metadata reloaded_core) = Some "BTC-USDT" ∧
  inst_name 2 (c_metadata reloaded_core) = Some "ETH-PERP".
Proof.
  destruct (reload_keeps_ids other_config placed_core reloaded_core placed_core_reachable)
    as (_ & _ & H & _).
  - vm_compute. intuition congruence.
  - vm_compute. reflexivity.
  - split_and!; [vm_compute; reflexivity|apply H; vm_compute; reflexivity|vm_compute; reflexivity].
Defined.

(** C36: filled and cancelled are final.  Handling any message in a reachable
    core leaves the status of a filled or cancelled order it did not create as
    it is; the one way out is a placing error (a gateway execution report that
    rejects the order), and then that error is in the order's log. *)
Theorem final_status_absorbing `{!Uppercase, !HashIter string, !HashIter Z, !HashIterOk Z}
    (c c' : OmsCoreV2) clk msg actions oid l d l' d' :
  reachable c → OmsCoreV2.process_message clk msg c = Returns (actions, c') →
  ¬ creates msg c oid →
  OrderStoreV2.get_live_and_detail oid (c_orders c) = Some (l, d) → is_final l →
  OrderStoreV2.get_live_and_detail oid (c_orders c') = Some (l', d') →
  order_status l' = order_status l ∨ (placing_errors d < placing_errors d')%nat.
Proof.
  intros Hinv%reachable_inv Hmsg Hnew Ho Hfin Ho'. pose proof (message_inv clk msg c Hinv) as H1.
  rewrite Hmsg in H1. destruct H1 as [_ [_ _ _ Hk]]. specialize (Hk oid Hnew). unfold kept in Hk.
  cbn in Hk. rewrite Ho, Ho' in Hk. by apply (ev_final _ _ Hk).
Qed.

(** The placed order completely filled, and then linked again. *)
Definition done_core : OmsCoreV2 :=
  Eval vm_compute in
  match OmsCoreV2.process_message demo_clk
    (GatewayOrderReport (demo_report 11 [state_entry ExchOrderStatusFilled (f64.of_Z 10)
                                           (f64.of_Z 100)])) placed_core with
  | Returns (_, c) => c
  | Panics _ => checked_core
  end.
Definition link_message : OmsMessage :=
  GatewayOrderReport (demo_report 11 [linkage_entry "X-1"]).
Definition linked_core : OmsCoreV2 :=
  Eval vm_compute in
  match OmsCoreV2.process_message demo_clk link_message done_core with
  | Returns (_, c) => c
  | Panics _ => checked_core
  end.

Lemma final_status_absorbing_witness :
  ∃ l' d', OrderStoreV2.get_live_and_detail 11 (c_orders linked_core) = Some (l', d') ∧
    order_status l' = Filled.
Proof.
  destruct (OrderStoreV2.get_live_and_detail 11 (c_orders done_core)) as [[l d]|] eqn:E1;
    [|vm_compute in E1; discriminate].
  destruct (OrderStoreV2.get_live_and_detail 11 (c_orders linked_core)) as [[l' d']|] eqn:E2;
    [|vm_compute in E2; discriminate].
  exists l', d'. split; [reflexivity|].
  destruct (final_status_absorbing done_core linked_core demo_clk link_message
    [PublishOrderUpdate 11 false false false false; PersistOrder 11 true true] 11 l d l' d')
    as [H|H]; [| | |exact E1| |exact E2|..].
  - apply (reach_message placed_core demo_clk
      (GatewayOrderReport (demo_report 11 [state_entry ExchOrderStatusFilled (f64.of_Z 10)
                                             (f64.of_Z 100)]))
      [PublishOrderUpdate 11 false false false true; PersistPosition 7 7;
       PublishPositionUpdate 7; PersistOrder 11 true true]); [exact placed_core_reachable|].
    vm_compute. reflexivity.
  - vm_compute. reflexivity.
  - vm_compute. discriminate.
  - left. vm_compute in E1. injection E1 as <- <-. reflexivity.
  - rewrite H. vm_compute in E1. injection E1 as <- <-. reflexivity.
  - exfalso. vm_compute in E1, E2. injection E1 as <- <-. injection E2 as <- <-.
    vm_compute in H. lia.
Defined.


