(* ===== verification/OmsPlacement.v ===== *)
(** * Placement and panic mode ([oms_core_v2.rs])

    - admission: an order is sent to the gateway exactly when it passes
      validation, panic mode, routing, the size limit and the funds check, and
      a refused order leaves every ledger untouched;
    - what an accepted order stores and sends;
    - panic mode blocks an account until it is lifted. *)

From S2P Require Import Prelude F64 F64Grid Proto Intern Models Reservation Position Balance.
From S2P Require Import Config Metadata MetadataFacts MetadataReload Utils.
From S2P Require Import OrderStore OrderHistory OmsCore OmsSafety Scenario OmsLifecycle.

(** ** Admission *)

(** Cash the account has for [fund], as last reported by the exchange. *)
Definition cash_available (account_id fund : Z) (c : OmsCoreV2) : f64 :=
  default f64.zero ((λ b, bal_avail_qty (ebs_balance_state b)) <$>
                      exch_balances (c_balances c) !! (account_id, fund)).

Definition inventory_available (account_id pos : Z) (c : OmsCoreV2) : f64 :=
  default f64.zero (mp_qty_available <$> managed (c_positions c) !! (account_id, pos)).

(** The funds check: only instruments under bookkeeping without margin are
    checked; a buy must be covered by unreserved cash (when the balance check
    is on), a sell by available inventory. *)
Definition funds_ok (req : OrderRequest) (meta : ResolvedOrderMeta) (c : OmsCoreV2) : Prop :=
  rm_bookkeeping_balance meta = true → rm_use_margin meta = false →
  (req_buy_sell_type req = BsBuy → rm_balance_check meta = true →
   ∀ fund, rm_fund_asset_id meta = Some fund →
     ((cash_available (req_account_id req) fund c -
       ReservationStoreV2.total_reserved (req_account_id req) fund (c_reservations c))
      <? req_qty req * req_price req)%f64 = false) ∧
  (req_buy_sell_type req ≠ BsBuy →
   ∀ pos, rm_pos_instrument_id meta = Some pos →
     (inventory_available (req_account_id req) pos c <? req_qty req)%f64 = false).

Definition size_ok (req : OrderRequest) (meta : ResolvedOrderMeta) (c : OmsCoreV2) : Prop :=
  c_risk_check_enabled c = true → ∀ max, rm_max_order_size meta = Some max →
  (req_qty req >? max)%f64 = false.

Definition admitted (req : OrderRequest) (c : OmsCoreV2) : Prop :=
  validate_order_request req = Ok tt ∧ req_account_id req ∉ c_panic_accounts c ∧
  ∃ meta, OmsCoreV2.resolve_order_meta req c = Ok meta ∧ size_ok req meta c ∧ funds_ok req meta c.

(** Nothing but the order store and interned strings differs. *)
Record same_ledgers (c c' : OmsCoreV2) : Prop := {
  sl_reservations : c_reservations c' = c_reservations c;
  sl_positions : c_positions c' = c_positions c;
  sl_balances : c_balances c' = c_balances c;
  sl_panic : c_panic_accounts c' = c_panic_accounts c;
}.

#[export] Instance same_ledgers_preorder : PreOrder same_ledgers.
Proof. split; [done|]. intros c1 c2 c3 [] []. split; congruence. Qed.

Lemma risk_violation_None req meta c :
  OmsCoreV2.risk_violation req meta c = None ↔ size_ok req meta c.
Proof.
  unfold OmsCoreV2.risk_violation, size_ok. destruct (c_risk_check_enabled c); [|naive_solver].
  destruct (rm_max_order_size meta) as [max|]; [|naive_solver].
  destruct (req_qty req >? max)%f64 eqn:E; split; try done; [|naive_solver].
  intros Hs. by rewrite Hs in E.
Qed.

(** The pre-trade step accepts exactly when the funds check holds, and a
    refusal changes nothing. *)
Lemma pre_trade_spec req meta c :
  match (OmsCoreV2.pre_trade req meta c).1 with
  | Ok _ => funds_ok req meta c
  | Err _ => ¬ funds_ok req meta c ∧ same_ledgers c (OmsCoreV2.pre_trade req meta c).2
  end.
Proof.
  unfold OmsCoreV2.pre_trade, funds_ok.
  destruct (rm_bookkeeping_balance meta), (rm_use_margin meta); simpl; try done.
  destruct (Z.eqb_spec (req_buy_sell_type req) BsBuy) as [E|E].
  - destruct (rm_fund_asset_id meta) as [fund|]; simpl; [|naive_solver].
    destruct (rm_balance_check meta); simpl; [|naive_solver].
    unfold ReservationStoreV2.check_available, BalanceStoreV2.get_balance.
    fold (cash_available (req_account_id req) fund c).
    destruct (_ <? _)%f64 eqn:Ec; simpl.
    + split; [|done]. intros H. destruct (H eq_refl eq_refl) as [H1 _].
      specialize (H1 E eq_refl fund eq_refl). congruence.
    + intros _ _. split; [|naive_solver]. intros _ _ f [= <-]. done.
  - destruct (rm_pos_instrument_id meta) as [pos|]; simpl; [|naive_solver].
    unfold PositionStoreV2.check_and_freeze.
    fold (inventory_available (req_account_id req) pos c).
    destruct (_ <? _)%f64 eqn:Ec; simpl.
    + split; [|by split]. intros H. destruct (H eq_refl eq_refl) as [_ H1].
      specialize (H1 E pos eq_refl). congruence.
    + intros _ _. split; [naive_solver|]. intros _ p [= <-]. done.
Qed.

(** Interning the source changes neither the checks nor the ledgers. *)
Lemma intern_source_frame req meta c :
  let '(meta', c') := OmsCoreV2.intern_source req meta c in
  (∃ sym, meta' = meta <| rm_source_sym := sym |>) ∧ (∃ md, c' = c <| c_metadata := md |>) ∧
  same_ledgers c c' ∧ (size_ok req meta' c' ↔ size_ok req meta c) ∧
  (funds_ok req meta' c' ↔ funds_ok req meta c).
Proof.
  unfold OmsCoreV2.intern_source. destruct (negb _).
  - destruct (MetadataTables.intern _ _) as [sym md]. split_and!; [by eexists..|by split|done|done].
  - split_and!; [by exists (rm_source_sym meta); destruct meta
                |by exists (c_metadata c); destruct c|done..].
Qed.

Lemma reject_order_ledgers now req meta flags msg ts reason c :
  core_wf c →
  returns (OmsCoreV2.reject_order now req meta flags msg ts reason c)
    (λ r, r.1 = [publish_exec (req_order_id req)] ∧ same_ledgers c r.2).
Proof.
  intros Hwf. unfold OmsCoreV2.reject_order. apply returns_bind.
  eapply returns_mono; [apply oms_error_returns; [apply create_order_wf, Hwf|]|].
  - cbn. by rewrite lookup_insert_eq.
  - intros orders _. apply returns_ret. by split.
Qed.

Lemma accept_order_actions clk req meta ts c :
  meta_syms_ok (c_metadata c) meta →
  returns (OmsCoreV2.accept_order clk req meta ts c)
    (λ r, r.1 = [PersistOrder (req_order_id req) false false;
                 SendOrderToGw (rm_gw_id meta) (req_order_id req) ts]).
Proof.
  intros Hs. unfold OmsCoreV2.accept_order. apply returns_bind.
  eapply returns_mono; [by apply build_gw_request_returns|]. intros; by apply returns_ret.
Qed.

(** A request that is not admitted is dropped or rejected, and leaves the
    ledgers alone. *)
Definition refusal (req : OrderRequest) (c : OmsCoreV2) (r : list OmsActionV2 * OmsCoreV2) : Prop :=
  (r.1 = [] ∨ r.1 = [publish_exec (req_order_id req)]) ∧ same_ledgers c r.2.

Lemma reject_order_refusal now req meta flags msg ts reason c c1 :
  core_wf c1 → same_ledgers c c1 →
  returns (OmsCoreV2.reject_order now req meta flags msg ts reason c1) (refusal req c).
Proof.
  intros Hwf Hs. eapply returns_mono; [by apply reject_order_ledgers|].
  intros r [Ha Hs1]. split; [by right|by etrans].
Qed.

Lemma process_order_cases clk req c :
  core_wf c →
  admitted req c ∨ ¬ admitted req c ∧ returns (OmsCoreV2.process_order clk req c) (refusal req c).
Proof.
  intros Hwf. unfold OmsCoreV2.process_order, admitted.
  destruct (validate_order_request req) as [[]|] eqn:Ev;
    [|right; split; [naive_solver|split; [by left|done]]].
  case_bool_decide as Hp; [right; split; [naive_solver|split; [by left|done]]|].
  destruct (OmsCoreV2.resolve_order_meta req c) as [meta|errs] eqn:Er;
    [|right; split; [naive_solver|by apply reject_order_refusal]].
  pose proof (resolve_order_meta_syms req c meta (cw_meta c Hwf) Er) as Hsym.
  pose proof (intern_source_safe req meta c Hwf Hsym) as Hi.
  pose proof (intern_source_frame req meta c) as Hf.
  destruct (OmsCoreV2.intern_source req meta c) as [meta1 c1].
  destruct Hi as ([Hwf1 _ _ _] & _ & _), Hf as (_ & _ & Hl1 & Hsz & Hfu).
  destruct (OmsCoreV2.risk_violation req meta1 c1) as [max|] eqn:Erisk.
  { right. split; [|by apply reject_order_refusal].
    intros (_ & _ & m & [= <-] & Hk & _). apply Hsz, risk_violation_None in Hk. congruence. }
  apply risk_violation_None, Hsz in Erisk.
  pose proof (pre_trade_spec req meta1 c1) as Hpre.
  pose proof (pre_trade_frame req meta1 c1) as [Em2 Eo2 _].
  destruct (OmsCoreV2.pre_trade req meta1 c1) as [[[]|e] c2]; cbn in Hpre, Em2, Eo2.
  - left. split_and!; [done..|]. exists meta. split_and!; [done..|by apply Hfu].
  - right. destruct Hpre as [Hn Hl2]. split.
    + intros (_ & _ & m & [= <-] & _ & Hk). by apply Hn, Hfu.
    + apply reject_order_refusal; [destruct Hwf1; split; congruence|by etrans].
Qed.

(** An admitted order runs the accepting branch. *)
Lemma process_order_accepted clk req c meta :
  validate_order_request req = Ok tt → req_account_id req ∉ c_panic_accounts c →
  OmsCoreV2.resolve_order_meta req c = Ok meta → size_ok req meta c → funds_ok req meta c →
  ∃ sym md,
    let meta1 := meta <| rm_source_sym := sym |> in
    let c1 := c <| c_metadata := md |> in
    OmsCoreV2.intern_source req meta c = (meta1, c1) ∧
    (OmsCoreV2.pre_trade req meta1 c1).1 = Ok tt ∧
    OmsCoreV2.process_order clk req c =
    OmsCoreV2.accept_order clk req meta1
      (OmsCoreV2.timestamp c (req_timestamp req) (clk 0%nat))
      (OmsCoreV2.pre_trade req meta1 c1).2.
Proof.
  intros Hv Hp Hr Hsz Hfu. pose proof (intern_source_frame req meta c) as Hf.
  unfold OmsCoreV2.process_order. rewrite Hv, bool_decide_false, Hr by done.
  destruct (OmsCoreV2.intern_source req meta c) as [meta1 c1].
  destruct Hf as ([sym ->] & [md ->] & _ & Hsz1 & Hfu1).
  exists sym, md. split; [done|].
  apply Hsz1, risk_violation_None in Hsz. rewrite Hsz.
  pose proof (pre_trade_spec req (meta <| rm_source_sym := sym |>) (c <| c_metadata := md |>))
    as Hpre.
  destruct (OmsCoreV2.pre_trade _ _ _) as [[[]|e] c2]; cbn in *; [done|].
  destruct Hpre as [Hn _]. by destruct Hn; apply Hfu1.
Qed.

Lemma resolve_order_meta_gw req c meta :
  OmsCoreV2.resolve_order_meta req c = Ok meta →
  ∃ route, MetadataTables.route (req_account_id req) (c_metadata c) = Some route ∧
    rm_gw_id meta = rtm_gw_id route ∧ rm_exch_account_sym meta = rtm_exch_account_sym route.
Proof.
  unfold OmsCoreV2.resolve_order_meta.
  destruct (MetadataTables.route _ _) as [route|]; [|done]. exists route.
  destruct (MetadataTables.resolve_instrument _ _); [|done].
  by destruct (_ =? _); simplify_eq.
Qed.

(** The symbols resolved before the pre-trade step resolve after it. *)
Lemma accepted_syms req c meta sym md :
  core_wf c → OmsCoreV2.resolve_order_meta req c = Ok meta →
  OmsCoreV2.intern_source req meta c = (meta <| rm_source_sym := sym |>, c <| c_metadata := md |>) →
  let c2 := (OmsCoreV2.pre_trade req (meta <| rm_source_sym := sym |>)
               (c <| c_metadata := md |>)).2 in
  c_metadata c2 = md ∧ only_interns (c_metadata c) md ∧ meta_syms_ok md meta.
Proof.
  intros Hwf Hr Hi c2. pose proof (resolve_order_meta_syms req c meta (cw_meta c Hwf) Hr) as Hs.
  pose proof (intern_source_safe req meta c Hwf Hs) as H1. rewrite Hi in H1.
  destruct H1 as ([_ Hm _ _] & _ & Hs1). split_and!; [|exact Hm|exact Hs1].
  exact (fr_meta _ _ (pre_trade_frame req (meta <| rm_source_sym := sym |>)
    (c <| c_metadata := md |>))).
Qed.

(** C4: admission.  In a reachable core an order request is handled in one of
    two ways.  Either it is admitted (it validates, its account is not in panic
    mode, its route and instrument resolve, it respects the size limit, and it
    is covered by unreserved cash or available inventory) and the OMS persists
    it and sends it to the gateway of its route; or it is not admitted, nothing
    is sent, at most the rejection is published, and reservations, positions
    and balances are exactly as before. *)
Theorem placement_admission `{!Uppercase, !HashIter string, !HashIter Z, !HashIterOk Z}
    clk req (c : OmsCoreV2) :
  reachable c →
  ∃ actions c', OmsCoreV2.process_message clk (PlaceOrder req) c = Returns (actions, c') ∧
  ((admitted req c ∧ ∃ route ts,
      MetadataTables.route (req_account_id req) (c_metadata c) = Some route ∧
      actions = [PersistOrder (req_order_id req) false false;
                 SendOrderToGw (rtm_gw_id route) (req_order_id req) ts]) ∨
   (¬ admitted req c ∧ (actions = [] ∨ actions = [publish_exec (req_order_id req)]) ∧
    same_ledgers c c')).
Proof.
  intros Hinv%reachable_inv. pose proof (ci_wf c Hinv) as Hwf. cbn.
  destruct (process_order_cases clk req c Hwf) as [Ha|[Hn Hr]].
  - destruct (id Ha) as (Hv & Hp & meta & Hm & Hsz & Hfu).
    destruct (process_order_accepted clk req c meta Hv Hp Hm Hsz Hfu)
      as (sym & md & Hi & _ & ->).
    destruct (accepted_syms req c meta sym md Hwf Hm Hi) as (Em & _ & Hs).
    destruct (resolve_order_meta_gw req c meta Hm) as (route & Hroute & Hgw & _).
    set (meta1 := meta <| rm_source_sym := sym |>) in *.
    destruct (returns_inv _ _ (accept_order_actions clk req meta1
      (OmsCoreV2.timestamp c (req_timestamp req) (clk 0%nat)) _
      (eq_ind_r (λ md, meta_syms_ok md meta1) Hs Em))) as ([acts c'] & E & Hacts).
    exists acts, c'. split; [exact E|]. left. split; [done|]. exists route. eexists.
    split; [done|]. rewrite <- Hgw. exact Hacts.
  - destruct (returns_inv _ _ Hr) as ([acts c'] & E & Ha & Hs).
    exists acts, c'. split; [done|]. by right.
Qed.

(** The account holds 10000 USDT. *)
Definition funded_core : OmsCoreV2 :=
  Eval vm_compute in
  match OmsCoreV2.process_message demo_clk
    (BalanceUpdateMsg (demo_balance "USDT" (f64.of_Z 10000) (f64.of_Z 10000))) checked_core with
  | Returns (_, c) => c
  | Panics _ => checked_core
  end.

Lemma funded_core_reachable : reachable funded_core.
Proof.
  apply (reach_message checked_core demo_clk
    (BalanceUpdateMsg (demo_balance "USDT" (f64.of_Z 10000) (f64.of_Z 10000)))
    [PersistBalance 7 1; PublishBalanceUpdate 7]).
  - apply demo_core_reachable.
  - vm_compute. reflexivity.
Qed.

Lemma placement_admission_witness :
  ∃ actions c', OmsCoreV2.process_message demo_clk
      (PlaceOrder (demo_order 11 BsBuy "BTC-USDT" (f64.of_Z 10) (f64.of_Z 1001))) funded_core
    = Returns (actions, c') ∧ same_ledgers funded_core c'.
Proof.
  destruct (placement_admission demo_clk
    (demo_order 11 BsBuy "BTC-USDT" (f64.of_Z 10) (f64.of_Z 1001)) funded_core
    funded_core_reachable) as (actions & c' & E & [[_ (route & ts & _ & Ha)]|(_ & _ & Hs)]).
  - rewrite Ha in E. vm_compute in E. discriminate.
  - by exists actions, c'.
Defined.

(** ** Accepted orders *)

(** The rounding the gateway request applies. *)
Definition scaled (x : f64) (precision : Z) : f64 :=
  if precision >? 0 then round_to_precision x precision else x.

Lemma build_gw_request_spec now req meta c r :
  OmsCoreV2.build_gw_request now req meta c = Returns r →
  gwreq_correlation_id r = req_order_id req ∧
  gwreq_scaled_qty r = scaled (req_qty req) (rm_qty_precision meta) ∧
  gwreq_scaled_price r = scaled (req_price req) (rm_price_precision meta) ∧
  gwreq_buysell_type r = req_buy_sell_type req ∧
  MetadataTables.str_resolve (rm_exch_account_sym meta) (c_metadata c) =
    Returns (gwreq_exch_account_id r) ∧
  MetadataTables.str_resolve (rm_instrument_exch_sym meta) (c_metadata c) =
    Returns (gwreq_instrument r).
Proof.
  unfold OmsCoreV2.build_gw_request.
  destruct (MetadataTables.str_resolve (rm_exch_account_sym meta) _) as [s1|]; [|done].
  destruct (MetadataTables.str_resolve (rm_instrument_exch_sym meta) _) as [s2|]; [|done].
  cbn. intros [= <-]. by destruct (req_extra_properties req).
Qed.

(** The orders the accepting branch stores. *)
Lemma accept_order_stores clk req meta ts c acts c' :
  OmsCoreV2.accept_order clk req meta ts c = Returns (acts, c') →
  ∃ r now, OmsCoreV2.build_gw_request (clk 1%nat) req meta c = Returns r ∧
    c' = c <| c_orders := c_orders c' |> ∧
    acts = [PersistOrder (req_order_id req) false false;
            SendOrderToGw (rm_gw_id meta) (req_order_id req) ts] ∧
    os_live (c_orders c') !! req_order_id req =
      Some ((OrderStoreV2.new_live (req_order_id req) req meta
               (OmsCoreV2.order_flags req meta) now)
            <| lo_price := gwreq_scaled_price r |> <| lo_qty := gwreq_scaled_qty r |>) ∧
    os_detail (c_orders c') !! req_order_id req =
      Some (OrderStoreV2.new_detail (req_order_id req) req (Some r)) ∧
    req_order_id req ∈ os_open_order_ids (c_orders c').
Proof.
  unfold OmsCoreV2.accept_order.
  destruct (OmsCoreV2.build_gw_request _ _ _ _) as [r|]; [|done]. cbn. intros [= <- <-].
  exists r. eexists. split_and!; [done..| | |]; cbn.
  - by rewrite lookup_alter_eq, lookup_insert_eq.
  - by rewrite lookup_insert_eq.
  - set_solver.
Qed.

(** What an accepted request leaves in the store, for its resolved [meta]. *)
Definition stored_for (req : OrderRequest) (meta : ResolvedOrderMeta) (md : MetadataTables)
    (live : LiveOrder) (detail : OrderDetailLog) (r : SendOrderRequest) : Prop :=
  order_status live = Pending ∧ lo_filled_qty live = f64.zero ∧
  lo_account_id live = req_account_id req ∧ lo_instrument_id live = rm_instrument_id meta ∧
  lo_gw_id live = rm_gw_id meta ∧ lo_buy_sell_type live = req_buy_sell_type req ∧
  lo_qty live = scaled (req_qty req) (rm_qty_precision meta) ∧
  lo_price live = scaled (req_price req) (rm_price_precision meta) ∧
  dl_original_req detail = Some req ∧ dl_last_gw_req detail = Some r ∧
  gwreq_correlation_id r = req_order_id req ∧ gwreq_buysell_type r = req_buy_sell_type req ∧
  gwreq_scaled_qty r = lo_qty live ∧ gwreq_scaled_price r = lo_price live ∧
  MetadataTables.str_resolve (rm_exch_account_sym meta) md = Returns (gwreq_exch_account_id r) ∧
  MetadataTables.str_resolve (rm_instrument_exch_sym meta) md = Returns (gwreq_instrument r).

(** C35: an admitted order reaches the gateway as requested.  After an admitted
    request the order is stored as pending and unfilled, with the account, the
    side and the instrument of the request and the quantity and price rounded
    to the instrument's precision; it is open; and the send action, when
    materialised, carries a gateway request with this quantity and price, the
    order id as correlation id, and the exchange's names of the account and of
    the instrument. *)
Theorem accepted_order_sent `{!Uppercase, !HashIter string, !HashIter Z, !HashIterOk Z}
    `{!HashIter (Z * Z), !HashIter (Z * string)} clk req (c c' : OmsCoreV2) actions :
  reachable c → admitted req c →
  OmsCoreV2.process_message clk (PlaceOrder req) c = Returns (actions, c') →
  ∃ meta live detail r ts, OmsCoreV2.resolve_order_meta req c = Ok meta ∧
    OrderStoreV2.get_live_and_detail (req_order_id req) (c_orders c') = Some (live, detail) ∧
    stored_for req meta (c_metadata c) live detail r ∧
    req_order_id req ∈ os_open_order_ids (c_orders c') ∧
    SendOrderToGw (rm_gw_id meta) (req_order_id req) ts ∈ actions ∧
    ∀ now, ∃ key, OmsCoreV2.gw_key (rm_gw_id meta) c' = Returns key ∧
      OmsCoreV2.materialize_action now (SendOrderToGw (rm_gw_id meta) (req_order_id req) ts) c'
      = Returns (V1SendOrderToGw (default "" key) r (req_order_id req) ts).
Proof.
  intros Hinv%reachable_inv (Hv & Hp & meta & Hm & Hsz & Hfu) Hmsg.
  pose proof (ci_wf c Hinv) as Hwf. pose proof (message_inv clk (PlaceOrder req) c Hinv) as Hinv'.
  rewrite Hmsg in Hinv'. destruct Hinv' as [Hinv' _]. cbn in Hmsg.
  destruct (process_order_accepted clk req c meta Hv Hp Hm Hsz Hfu) as (sym & md & Hi & _ & E).
  destruct (accepted_syms req c meta sym md Hwf Hm Hi) as (Em & Hint & _).
  rewrite E in Hmsg.
  destruct (accept_order_stores _ _ _ _ _ _ _ Hmsg) as (r & now & Hr & _ & -> & Hl & Hd & Hopen).
  destruct (build_gw_request_spec _ _ _ _ _ Hr) as (Hcid & Hq & Hpr & Hside & Hacct & Hinst).
  destruct (resolve_order_meta_syms req c meta (cw_meta c Hwf) Hm) as [S1 S2].
  destruct (sym_resolves _ _ S1) as [s1 R1], (sym_resolves _ _ S2) as [s2 R2].
  rewrite Em in Hacct, Hinst. cbn in Hacct, Hinst, Hq, Hpr.
  rewrite (only_interns_resolve _ _ _ _ Hint R1) in Hacct.
  rewrite (only_interns_resolve _ _ _ _ Hint R2) in Hinst.
  injection Hacct as ->. injection Hinst as ->.
  exists meta. eexists _, _, r, _. split; [done|].
  split; [unfold OrderStoreV2.get_live_and_detail; rewrite Hl, Hd; cbn; reflexivity|].
  split_and!; cbn; [done..|apply list_elem_of_further, list_elem_of_here|].
  intros now'. destruct (returns_inv _ _ (gw_key_returns (rm_gw_id meta) c' (cw_meta _ (ci_wf _ Hinv'))))
    as (key & Ek & _). exists key. split; [done|].
  unfold OrderStoreV2.get_detail. rewrite Ek, Hd. done.
Qed.

(** Ten units at 900 are covered by the 10000 USDT. *)
Definition covered_order : OrderRequest :=
  demo_order 11 BsBuy "BTC-USDT" (f64.of_Z 10) (f64.of_Z 900).

Definition bought_core : OmsCoreV2 :=
  Eval vm_compute in
  match OmsCoreV2.process_message demo_clk (PlaceOrder covered_order) funded_core with
  | Returns (_, c) => c
  | Panics _ => checked_core
  end.

Lemma bought_step :
  OmsCoreV2.process_message demo_clk (PlaceOrder covered_order) funded_core
  = Returns ([PersistOrder 11 false false; SendOrderToGw 0 11 1000], bought_core).
Proof. vm_compute. reflexivity. Qed.

Lemma covered_order_admitted : admitted covered_order funded_core.
Proof.
  destruct (process_order_cases demo_clk covered_order funded_core) as [Ha|[_ Hr]]; [|done|].
  - apply (reachable_inv _ funded_core_reachable).
  - pose proof bought_step as E. cbn in E. rewrite E in Hr. destruct Hr as [[Hr|Hr] _]; done.
Qed.

Lemma accepted_order_sent_witness :
  ∃ live detail, OrderStoreV2.get_live_and_detail 11 (c_orders bought_core) = Some (live, detail) ∧
    order_status live = Pending ∧ lo_qty live = f64.of_Z 10.
Proof.
  destruct (accepted_order_sent demo_clk covered_order funded_core bought_core
    [PersistOrder 11 false false; SendOrderToGw 0 11 1000] funded_core_reachable
    covered_order_admitted bought_step) as (meta & live & detail & r & ts & Hm & Hg & Hs & _).
  exists live, detail. destruct Hs as (H1 & _ & _ & _ & _ & _ & H2 & _).
  split_and!; [exact Hg|exact H1|]. rewrite H2. vm_compute in Hm. injection Hm as <-. reflexivity.
Defined.

(** ** Panic mode *)

(** Messages handled one after the other, each with its own clock. *)
Fixpoint run `{!HashIter Z} (msgs : list ((nat → Z) * OmsMessage)) (c : OmsCoreV2) : handled :=
  match msgs with
  | [] => mret ([], c)
  | (clk, msg) :: msgs =>
      '(acts, c) ← OmsCoreV2.process_message clk msg c;
      '(rest, c) ← run msgs c;
      mret (acts ++ rest, c)
  end.

Section panic.
Context `{!Uppercase, !HashIter string, !HashIter Z, !HashIterOk Z}.

Lemma panic_kept clk msg c a :
  core_inv c → a ∈ c_panic_accounts c → msg ≠ DontPanic a →
  returns (OmsCoreV2.process_message clk msg c)
    (λ r, core_inv r.2 ∧ a ∈ c_panic_accounts r.2).
Proof.
  intros Hinv Ha Hmsg. eapply returns_mono; [by apply message_inv|].
  intros r [Hinv' Hst]. split; [done|]. pose proof (st_env _ _ _ Hst) as He.
  injection He as Hp _ _ _ _. rewrite Hp. cbn. destruct msg; cbn; set_solver.
Qed.

Lemma panic_kept_run msgs c a :
  core_inv c → a ∈ c_panic_accounts c → Forall (λ m, m.2 ≠ DontPanic a) msgs →
  returns (run msgs c) (λ r, a ∈ c_panic_accounts r.2).
Proof.
  intros Hinv Ha Hm. revert c Hinv Ha. induction Hm as [|[clk msg] msgs Hmsg _ IH];
    intros c Hinv Ha; [done|]. cbn [run]. apply returns_bind.
  eapply returns_mono; [by apply panic_kept|]. intros [acts c1] [Hinv1 Ha1].
  apply returns_bind. eapply returns_mono; [by apply IH|]. intros [rest c2] Ha2.
  by apply returns_ret.
Qed.

Lemma panic_drops clk req c :
  req_account_id req ∈ c_panic_accounts c → OmsCoreV2.process_order clk req c = Returns ([], c).
Proof.
  intros Ha. unfold OmsCoreV2.process_order.
  destruct (validate_order_request req); [|done]. by rewrite bool_decide_true.
Qed.
End panic.

(** Panic mode is an interlock.  Once an account is put in panic mode, any
    further messages other than lifting that panic leave it there, whatever
    they are, and from then on each order request for the account, alone or in
    a batch, is dropped: no action is emitted and the core does not change. *)
Theorem panic_mode_blocks `{!Uppercase, !HashIter string, !HashIter Z, !HashIterOk Z}
    (c : OmsCoreV2) clk0 a msgs :
  reachable c → Forall (λ m, m.2 ≠ DontPanic a) msgs →
  ∃ actions c', run ((clk0, Panic a) :: msgs) c = Returns (actions, c') ∧
    (∀ clk req, req_account_id req = a →
       OmsCoreV2.process_message clk (PlaceOrder req) c' = Returns ([], c')) ∧
    ∀ clk reqs, Forall (λ req, req_account_id req = a) reqs →
       OmsCoreV2.process_message clk (BatchPlaceOrders reqs) c' = Returns ([], c').
Proof.
  intros Hinv%reachable_inv Hm.
  pose proof (message_inv clk0 (Panic a) c Hinv) as H1. cbn in H1. destruct H1 as [Hinv1 _].
  destruct (returns_inv _ _ (panic_kept_run msgs (c <| c_panic_accounts ::= λ s, {[a]} ∪ s |>) a
    Hinv1 ltac:(cbn; set_solver) Hm)) as ([acts c'] & E & Ha). cbn in Ha.
  exists acts, c'. split; [cbn; by rewrite E|]. split.
  - intros clk req <-. by apply panic_drops.
  - intros clk reqs Hr. cbn. revert clk. induction Hr as [|req reqs Hreq _ IH]; intros clk; [done|].
    cbn. rewrite panic_drops by (by rewrite Hreq). cbn. by rewrite IH.
Qed.

Lemma panic_mode_blocks_witness :
  ∃ actions c', run [(demo_clk, Panic 7); (demo_clk, DontPanic 8);
                     (demo_clk, PlaceOrder covered_order)] funded_core = Returns (actions, c') ∧
    OmsCoreV2.process_message demo_clk (PlaceOrder covered_order) c' = Returns ([], c').
Proof.
  destruct (panic_mode_blocks funded_core demo_clk 7
    [(demo_clk, DontPanic 8); (demo_clk, PlaceOrder covered_order)] funded_core_reachable)
    as (actions & c' & E & H1 & _); [by repeat constructor|].
  exists actions, c'. split; [exact E|by apply H1].
Defined.
