(* ===== verification/OmsHolds.v ===== *)
(** * Holds: placement against send failures and cancels ([oms_core_v2.rs])

    An accepted order holds cash (a buy under the balance check) or inventory
    (a sell).  A failed gateway send gives the hold back exactly; a cancel
    request never touches it.  Quantities are on a grid (see [F64Grid]), where
    binary64 sums are exact. *)

From S2P Require Import Prelude F64 F64Grid Proto Intern Models Reservation Position Balance.
From S2P Require Import Config Metadata MetadataFacts MetadataReload Utils.
From S2P Require Import OrderStore OrderHistory OmsCore OmsSafety Scenario OmsLifecycle.
From S2P Require Import OmsPlacement.

(** ** What acceptance holds *)

(** The asset or position an accepted order holds, and how much of it. *)
Definition hold_target (req : OrderRequest) (meta : ResolvedOrderMeta) : option Z :=
  if rm_bookkeeping_balance meta && negb (rm_use_margin meta) then
    if req_buy_sell_type req =? BsBuy then
      if rm_balance_check meta then rm_fund_asset_id meta else None
    else rm_pos_instrument_id meta
  else None.

Definition hold_amount (req : OrderRequest) : f64 :=
  if req_buy_sell_type req =? BsBuy then (req_qty req * req_price req)%f64 else req_qty req.

(** The position store after the pre-trade step of a request. *)
Definition frozen_for (req : OrderRequest) (tgt : Z) (positions : PositionStoreV2)
    : PositionStoreV2 :=
  if req_buy_sell_type req =? BsBuy then positions
  else (PositionStoreV2.check_and_freeze (req_account_id req) tgt (req_qty req) false positions).2.

Lemma pre_trade_holds req meta c tgt :
  hold_target req meta = Some tgt → (OmsCoreV2.pre_trade req meta c).1 = Ok tt →
  ∃ kind,
    c_reservations (OmsCoreV2.pre_trade req meta c).2 =
      (ReservationStoreV2.reserve (req_order_id req) (req_account_id req) kind tgt
         (hold_amount req) (c_reservations c)).2 ∧
    c_positions (OmsCoreV2.pre_trade req meta c).2 = frozen_for req tgt (c_positions c).
Proof.
  unfold hold_target, OmsCoreV2.pre_trade, hold_amount, frozen_for.
  destruct (_ && _); [|done]. destruct (_ =? BsBuy).
  - destruct (rm_balance_check meta); [|done]. intros ->.
    destruct (ReservationStoreV2.check_available _ _ _ _ _); [|done]. by exists CashAsset.
  - intros ->. destruct (PositionStoreV2.check_and_freeze _ _ _ _ _) as [[] p]; [|done].
    by exists InventoryInstrument.
Qed.

Lemma scaled_id x p : p ≤ 0 → scaled x p = x.
Proof. intros Hp. unfold scaled. destruct (Z.gtb_spec p 0); [lia|done]. Qed.

(** ** What a failed send gives back *)

Lemma oms_error_placing oid msg ts rej orders l d :
  OrderStoreV2.get_live_and_detail oid orders = Some (l, d) →
  ∃ l' d', OmsCoreV2.oms_error oid msg ts PlacingOrder rej orders =
      Returns (OrderStoreV2.put_live_and_detail oid (l', d') orders) ∧
    order_status l' = Rejected ∧ lo_qty l' = lo_qty l ∧ lo_filled_qty l' = lo_filled_qty l.
Proof.
  intros Hb. unfold OmsCoreV2.oms_error. rewrite Hb. cbn.
  eexists _, _. split; [reflexivity|]. by destruct (lo_terminal_at l).
Qed.

Lemma send_failed_effect clk oid msg c l :
  core_wf c → os_live (c_orders c) !! oid = Some l → is_in_terminal_state l = false →
  0 < os_max_cached_orders (c_orders c) → oid ∉ os_closed_lru (c_orders c) →
  ∃ c', OmsCoreV2.process_gateway_send_failed clk oid msg c =
      Returns ([PersistOrder oid true true; publish_exec oid], c') ∧
    c_reservations c' = ReservationStoreV2.release oid (c_reservations c) ∧
    c_positions c' =
      match af_pos_instrument_id (lo_accounting_flags l) with
      | Some pos =>
          if negb (af_is_buy (lo_accounting_flags l)) &&
             (lo_qty l - lo_filled_qty l >? f64.zero)%f64
          then PositionStoreV2.unfreeze (lo_account_id l) pos (lo_qty l - lo_filled_qty l)%f64
                 (c_positions c)
          else c_positions c
      | None => c_positions c
      end ∧
    (order_status <$> os_live (c_orders c') !! oid) = Some Rejected ∧
    oid ∉ os_open_order_ids (c_orders c').
Proof.
  intros Hwf Hl Ht Hmax Hlru. destruct (wf_lookup _ _ _ (cw_orders c Hwf) Hl) as (d & _ & Hb).
  unfold OmsCoreV2.process_gateway_send_failed, OrderStoreV2.get_live. rewrite Hl, Ht.
  destruct (oms_error_placing oid (text ("gateway send failed: " +:+ msg)) (clk 0%nat)
    (oms_rejection RejReasonOmsInternalError) _ l d Hb) as (l' & d' & E & Hs & Hq & Hf).
  rewrite E. cbn. set (orders := OrderStoreV2.put_live_and_detail oid (l', d') (c_orders c)).
  assert (os_live (OrderStoreV2.mark_closed oid orders) !! oid = Some l') as El.
  { rewrite mark_closed_keeps by done. apply lookup_insert_eq. }
  eexists. split; [reflexivity|]. rewrite (proj2 (unfreeze_remaining_frame _ _ _ _)).
  rewrite (fr_orders _ _ (proj1 (unfreeze_remaining_frame _ _ _ _))). cbn.
  split_and!; [done| |by rewrite El, <- Hs|apply mark_closed_not_open].
  unfold OmsCoreV2.unfreeze_remaining, OrderStoreV2.get_live. cbn. rewrite El. cbn.
  rewrite Hq, Hf. destruct (af_pos_instrument_id _); [|done].
  destruct (af_is_buy _); [done|]. by destruct (_ >? _)%f64.
Qed.

(** An accepted order, with the holds it takes. *)
Lemma placement_takes_hold clk req c meta tgt acts c1 :
  core_wf c → validate_order_request req = Ok tt → req_account_id req ∉ c_panic_accounts c →
  OmsCoreV2.resolve_order_meta req c = Ok meta → size_ok req meta c → funds_ok req meta c →
  hold_target req meta = Some tgt →
  OmsCoreV2.process_order clk req c = Returns (acts, c1) →
  ∃ kind live,
    c_reservations c1 = (ReservationStoreV2.reserve (req_order_id req) (req_account_id req) kind
                           tgt (hold_amount req) (c_reservations c)).2 ∧
    c_positions c1 = frozen_for req tgt (c_positions c) ∧
    os_live (c_orders c1) !! req_order_id req = Some live ∧
    is_in_terminal_state live = false ∧ lo_account_id live = req_account_id req ∧
    lo_accounting_flags live = OmsCoreV2.order_flags req meta ∧
    lo_qty live = scaled (req_qty req) (rm_qty_precision meta) ∧
    lo_filled_qty live = f64.zero ∧
    os_max_cached_orders (c_orders c1) = os_max_cached_orders (c_orders c) ∧
    os_closed_lru (c_orders c1) = os_closed_lru (c_orders c).
Proof.
  intros Hwf Hv Hp Hm Hsz Hfu Ht Hmsg.
  destruct (process_order_accepted clk req c meta Hv Hp Hm Hsz Hfu) as (sym & md & Hi & Hok & E).
  rewrite E in Hmsg. clear E.
  set (meta1 := meta <| rm_source_sym := sym |>) in *. set (c0 := c <| c_metadata := md |>) in *.
  destruct (pre_trade_holds req meta1 c0 tgt Ht Hok) as (kind & Er & Ep).
  pose proof (fr_orders _ _ (pre_trade_frame req meta1 c0)) as Eo.
  revert Hmsg Er Ep Eo. generalize (OmsCoreV2.pre_trade req meta1 c0).2 as c2.
  intros c2 Hmsg Er Ep Eo. unfold OmsCoreV2.accept_order in Hmsg.
  destruct (OmsCoreV2.build_gw_request _ _ _ _) as [r|] eqn:Er2; [|done].
  destruct (build_gw_request_spec _ _ _ _ _ Er2) as (_ & Hq & _).
  cbn in Hmsg. injection Hmsg as _ <-. exists kind. eexists. cbn. rewrite Eo.
  split_and!; [exact Er|exact Ep|by rewrite lookup_alter_eq, lookup_insert_eq|done..].
Qed.

(** Freezing a quantity and releasing all of it. *)
Lemma freeze_then_release g acct tgt t h f q x st :
  grid_ok g → 0 ≤ h → fits h → holds g acct tgt t h f st → 0 < q → q ≤ h - f → on_grid g q x →
  let st1 := (PositionStoreV2.check_and_freeze acct tgt x false st).2 in
  holds g acct tgt t h (f + q) st1 ∧
  holds g acct tgt t h f
    (if (x - f64.zero >? f64.zero)%f64
     then PositionStoreV2.unfreeze acct tgt (x - f64.zero)%f64 st1 else st1).
Proof.
  intros Hg Hh Hhf Hold Hpos Hqh Hq st1. pose proof (on_grid_fits g q _ Hq) as Hqf.
  assert (on_grid g (q - 0) (x - f64.zero)%f64) as Hrem.
  { apply grid_sub; [done..|by apply grid_zero|]. by rewrite Z.sub_0_r. }
  pose proof (freeze_sim g Hg acct tgt t h Hh Hhf f _ q _ false Hold ltac:(lia) Hq) as Hfr.
  rewrite (proj2 (Z.ltb_ge _ _)) in Hfr by lia. split; [done|].
  rewrite (grid_ltb g 0 (q - 0)), (proj2 (Z.ltb_lt _ _)) by (done || lia || by apply grid_zero).
  pose proof (unfreeze_sim g Hg acct tgt t h Hh Hhf _ _ (q - 0) _ Hfr ltac:(lia) Hrem) as Hun.
  pose proof (proj1 Hold). by replace (f + q - Z.min (q - 0) (f + q)) with f in Hun by lia.
Qed.

(** C5: a failed send undoes the placement.  When an admitted order that takes a
    hold is placed, the reservation ledger gains exactly the hold; when the
    gateway send then fails, the ledger is back to what it was, the order is
    rejected and no longer open, and the positions are back as well: unchanged
    for a buy, and for a sell every holding that had [f] frozen has [f] plus
    the order's quantity frozen in between and [f] again afterwards (quantities
    on a grid, an instrument traded without quantity rounding, and an order id
    that was not closed before). *)
Theorem send_failure_undoes_placement
    `{!Uppercase, !HashIter string, !HashIter Z, !HashIterOk Z}
    g l q clk clk' req meta tgt gw msg (c c1 : OmsCoreV2) acts :
  reachable c → admitted req c → OmsCoreV2.resolve_order_meta req c = Ok meta →
  hold_target req meta = Some tgt → rm_qty_precision meta ≤ 0 →
  let oid := req_order_id req in
  let acct := req_account_id req in
  0 < os_max_cached_orders (c_orders c) → oid ∉ os_closed_lru (c_orders c) →
  grid_ok g → ledger_rel g l (c_reservations c) → l !! oid = None →
  on_grid g q (hold_amount req) → 0 < q → fits (Ledger.total (acct, tgt) l + q) →
  OmsCoreV2.process_message clk (PlaceOrder req) c = Returns (acts, c1) →
  ledger_rel g (Ledger.reserve oid acct tgt q l) (c_reservations c1) ∧
  ∃ c2, OmsCoreV2.process_message clk' (GatewaySendFailed oid gw msg) c1
      = Returns ([PersistOrder oid true true; publish_exec oid], c2) ∧
    ledger_rel g l (c_reservations c2) ∧
    (order_status <$> os_live (c_orders c2) !! oid) = Some Rejected ∧
    oid ∉ os_open_order_ids (c_orders c2) ∧
    (req_buy_sell_type req = BsBuy → c_positions c2 = c_positions c) ∧
    (req_buy_sell_type req ≠ BsBuy → ∀ t h f, 0 ≤ h → fits h →
       holds g acct tgt t h f (c_positions c) → q ≤ h - f →
       holds g acct tgt t h (f + q) (c_positions c1) ∧ holds g acct tgt t h f (c_positions c2)).
Proof.
  intros Hinv%reachable_inv (Hv & Hp & meta' & Hm' & Hsz & Hfu) Hm Htgt Hprec oid acct Hmax Hlru
    Hg Hrel Hfresh Hq Hpos Hfit Hmsg.
  rewrite Hm in Hm'. injection Hm' as <-. pose proof (message_inv clk (PlaceOrder req) c Hinv) as H1.
  rewrite Hmsg in H1. destruct H1 as [Hinv1 _].
  destruct (placement_takes_hold clk req c meta tgt acts c1 (ci_wf c Hinv) Hv Hp Hm Hsz Hfu Htgt
    Hmsg) as (kind & live & Er & Ep & El & Hterm & Hacct & Hfl & Hqty & Hfill & Emax & Elru).
  pose proof (reserve_sim g Hg l _ oid acct kind tgt q _ Hrel Hq ltac:(lia) Hfit) as Hres.
  revert Hres Er. fold oid acct. destruct (ReservationStoreV2.reserve _ _ _ _ _ _) as [r st1].
  cbn. intros [Hres _] Er. rewrite Er. split; [done|].
  destruct (send_failed_effect clk' oid msg c1 live (ci_wf c1 Hinv1) El Hterm)
    as (c2 & E & Er2 & Ep2 & Hrej & Hop); [by rewrite Emax|by rewrite Elru|].
  exists c2. split_and!; [done| |done..| |].
  - rewrite Er2, Er. pose proof (release_sim g Hg _ _ oid Hres) as Hrl.
    unfold Ledger.release, Ledger.reserve in Hrl. by rewrite Hfresh, delete_insert_id in Hrl.
  - intros Hside. rewrite Ep2, Ep, Hfl. unfold frozen_for. cbn. rewrite (proj2 (Z.eqb_eq _ _)) by done.
    by destruct (rm_pos_instrument_id meta).
  - intros Hside%Z.eqb_neq t h f Hh Hhf Hold Hqh. rewrite Ep2, Ep, Hfl, Hacct. cbn.
    unfold hold_target, hold_amount, frozen_for in *. rewrite Hside in *.
    rewrite scaled_id in Hqty by done. destruct (_ && _); [|done]. rewrite Htgt, Hqty, Hfill.
    by apply freeze_then_release.
Qed.

Lemma send_failure_undoes_placement_witness :
  ∃ c2, OmsCoreV2.process_message demo_clk (GatewaySendFailed 11 0 "down") bought_core
      = Returns ([PersistOrder 11 true true; publish_exec 11], c2) ∧
    ledger_rel 0 ∅ (c_reservations c2) ∧ c_positions c2 = c_positions funded_core.
Proof.
  destruct (OmsCoreV2.resolve_order_meta covered_order funded_core) as [meta|] eqn:Hm;
    [|vm_compute in Hm; discriminate].
  destruct (send_failure_undoes_placement 0 ∅ 9000 demo_clk demo_clk covered_order meta 1 0 "down"
    funded_core bought_core [PersistOrder 11 false false; SendOrderToGw 0 11 1000])
    as (_ & c2 & E & Hrel & _ & _ & Hpos & _).
  - exact funded_core_reachable.
  - exact covered_order_admitted.
  - exact Hm.
  - vm_compute in Hm. injection Hm as <-. reflexivity.
  - vm_compute in Hm. injection Hm as <-. vm_compute. discriminate.
  - vm_compute. reflexivity.
  - vm_compute. intros Hin. inversion Hin.
  - done.
  - exact (ledger_rel_new 0).
  - reflexivity.
  - vm_compute. intuition congruence.
  - lia.
  - vm_compute. reflexivity.
  - exact bought_step.
  - exists c2. split_and!; [exact E|exact Hrel|apply Hpos; reflexivity].
Defined.

(** ** Cancels *)

(** Everything but one order's log and counters is as before. *)
Record only_order (oid : Z) (c c' : OmsCoreV2) : Prop := {
  oo_core : c' = c <| c_orders := c_orders c' |>;
  oo_others oid' : oid' ≠ oid →
    OrderStoreV2.get_live_and_detail oid' (c_orders c') =
    OrderStoreV2.get_live_and_detail oid' (c_orders c);
  oo_open : os_open_order_ids (c_orders c') = os_open_order_ids (c_orders c);
}.

(** The OMS error of a cancel only appends an execution message. *)
Lemma oms_error_cancel oid msg ts rej orders l d :
  OrderStoreV2.get_live_and_detail oid orders = Some (l, d) →
  ∃ em, em_exec_type em = ExecType_i32 Cancel ∧ em_exec_success em = false ∧
    em_error_msg em = msg ∧
    OmsCoreV2.oms_error oid msg ts Cancel rej orders =
      Returns (OrderStoreV2.put_live_and_detail oid
                 (l, d <| dl_exec_msgs ::= λ v, v ++ [em] |>) orders).
Proof.
  intros Hb. unfold OmsCoreV2.oms_error. rewrite Hb. cbn. eexists. split_and!; cycle 3.
  - reflexivity.
  - done.
  - done.
  - done.
Qed.

Lemma put_only_order oid both c :
  only_order oid c (c <| c_orders := OrderStoreV2.put_live_and_detail oid both (c_orders c) |>).
Proof.
  split; [done| |done]. intros oid' Hne. unfold OrderStoreV2.get_live_and_detail. cbn.
  by rewrite !lookup_insert_ne.
Qed.


