(* ===== verification/OmsReports.v ===== *)
(** * Order reports ([oms_core_v2.rs])

    What [process_order_report] does beyond the order's own record:

    - a report ends in one of two ways, and the one that closes the order leaves
      no reservation and no open entry behind;
    - how fills move positions. *)

From S2P Require Import Prelude F64 F64Grid Proto Intern Models Reservation Position Balance.
From S2P Require Import Config Metadata MetadataFacts MetadataReload Utils.
From S2P Require Import OrderStore OrderHistory OmsCore OmsSafety Scenario OmsLifecycle.
From S2P Require Import OmsPlacement OmsHolds.

(** ** The entry loop only touches orders *)

Definition orders_only (c c' : OmsCoreV2) : Prop := c' = c <| c_orders := c_orders c' |>.

#[export] Instance orders_only_preorder : PreOrder orders_only.
Proof.
  split; unfold orders_only; [by intros []|]. intros c1 c2 c3 E1 E2. rewrite E2, E1. done.
Qed.

Lemma orders_only_upd c f : orders_only c (c <| c_orders ::= f |>).
Proof. done. Qed.

Lemma apply_entry_orders_only oid gw ts only acc e :
  yields (OmsCoreV2.apply_entry oid gw ts only acc e) (λ r, orders_only acc.2 r.2).
Proof.
  destruct acc as [fl c]. unfold OmsCoreV2.apply_entry.
  assert (orders_only c c) as Hc by done.
  destruct (default _ _); try exact Hc; destruct (ent_report e) as [[]|]; try exact Hc.
  all: unfold OmsCoreV2.apply_linkage_entry, OmsCoreV2.apply_state_entry,
    OmsCoreV2.apply_trade_entry, OmsCoreV2.apply_exec_entry, OmsCoreV2.apply_fee_entry.
  all: try (destruct (OmsCoreV2.oms_exec_type _); try exact Hc).
  all: repeat (apply yields_bind; intros ? _); try done.
  - by case_match.
  - by destruct only.
Qed.

Lemma entries_orders_only oid gw ts only entries fl c :
  yields (for_each (OmsCoreV2.apply_entry oid gw ts only) entries (fl, c))
    (λ r, orders_only c r.2).
Proof.
  apply (yields_for_each (λ r : OmsCoreV2.ReportFlags * OmsCoreV2, orders_only c r.2)); [done|].
  intros acc e Hc. pose proof (apply_entry_orders_only oid gw ts only acc e) as He.
  destruct (OmsCoreV2.apply_entry _ _ _ _ _ _); [|done]. cbn in *. by etrans.
Qed.

(** ** Reservations of other orders *)

Definition same_res_but (oid : Z) (c c' : OmsCoreV2) : Prop :=
  ∀ oid', oid' ≠ oid → reservations (c_reservations c') !! oid' =
                       reservations (c_reservations c) !! oid'.

#[export] Instance same_res_but_preorder oid : PreOrder (same_res_but oid).
Proof. split; unfold same_res_but; [done|]. intros c1 c2 c3 H1 H2 o Ho. by rewrite H2, H1. Qed.

Lemma release_lookup oid oid' st :
  reservations (ReservationStoreV2.release oid st) !! oid' =
  if decide (oid' = oid) then None else reservations st !! oid'.
Proof.
  unfold ReservationStoreV2.release. case_decide as E; subst.
  - destruct (reservations st !! oid) eqn:Er; [apply lookup_delete_eq|done].
  - destruct (reservations st !! oid) eqn:Er; [by apply lookup_delete_ne|done].
Qed.

Lemma release_partial_lookup oid oid' x st :
  oid' ≠ oid →
  reservations (ReservationStoreV2.release_partial oid x st) !! oid' = reservations st !! oid'.
Proof.
  intros Hne. unfold ReservationStoreV2.release_partial.
  destruct (reservations st !! oid) as [r|] eqn:Er; [|done]. cbn.
  destruct (_ <=? _)%f64; cbn; by rewrite ?lookup_delete_ne, lookup_insert_ne by done.
Qed.

Lemma apply_fills_res oid acct ts is_buy flags price fills acc :
  same_res_but oid acc.2 (foldl (OmsCoreV2.apply_fill oid acct ts is_buy flags price) acc fills).2.
Proof.
  revert acc. induction fills as [|q fills IH]; intros [b c]; [done|]. cbn [foldl].
  etrans; [|apply IH]. unfold OmsCoreV2.apply_fill. destruct (_ <=? _)%f64; [done|].
  intros oid' Hne. destruct (af_pos_instrument_id flags); cbn; by apply release_partial_lookup.
Qed.

Lemma apply_fills_balances oid acct ts is_buy flags price fills acc :
  c_balances (foldl (OmsCoreV2.apply_fill oid acct ts is_buy flags price) acc fills).2 =
  c_balances acc.2.
Proof.
  revert acc. induction fills as [|q fills IH]; intros [b c]; [done|]. cbn [foldl].
  rewrite IH. unfold OmsCoreV2.apply_fill. destruct (_ <=? _)%f64; [done|].
  by destruct (af_pos_instrument_id flags).
Qed.

Lemma settle_fills_res oid acct ts side flags tb ib c :
  yields (OmsCoreV2.settle_fills oid acct ts side flags tb ib c)
    (λ r, frame c r.2 ∧ same_res_but oid c r.2 ∧ c_balances r.2 = c_balances c).
Proof.
  unfold OmsCoreV2.settle_fills. do 3 (apply yields_bind; intros ? _). cbv zeta.
  set (price := default _ _). set (fills := _ ++ _).
  pose proof (apply_fills_frame oid acct ts (side =? BsBuy) flags price fills (false, c)) as Hf.
  pose proof (apply_fills_res oid acct ts (side =? BsBuy) flags price fills (false, c)) as Hr.
  pose proof (apply_fills_balances oid acct ts (side =? BsBuy) flags price fills (false, c)) as Hb.
  by destruct (foldl _ _ _) as [b c'].
Qed.

(** ** How a report ends *)

Definition same_accounts (c c' : OmsCoreV2) : Prop :=
  c_reservations c' = c_reservations c ∧ c_positions c' = c_positions c.

(** The three ways: no entry of the report concerned the order; the order stays
    working; the order is closed. *)
Definition report_post (oid : Z) (c : OmsCoreV2) (r : list OmsActionV2 * OmsCoreV2) : Prop :=
  same_res_but oid c r.2 ∧ c_balances r.2 = c_balances c ∧
  ((r.1 = [] ∧ same_accounts c r.2) ∨
   (∃ publish settled l, r.1 = publish :: settled ++ [PersistOrder oid false false] ∧
      os_live (c_orders r.2) !! oid = Some l ∧ is_in_terminal_state l = false) ∨
   (∃ publish settled, r.1 = publish :: settled ++ [PersistOrder oid true true] ∧
      reservations (c_reservations r.2) !! oid = None ∧
      oid ∉ os_open_order_ids (c_orders r.2) ∧
      ∀ l, os_live (c_orders r.2) !! oid = Some l →
        is_in_terminal_state l = true ∧ is_Some (lo_terminal_at l))).

Lemma finalize_live_terminal l :
  is_in_terminal_state (OmsCoreV2.finalize_live l) = true →
  is_Some (lo_terminal_at (OmsCoreV2.finalize_live l)).
Proof.
  unfold OmsCoreV2.finalize_live. set (l1 := if _ && _ && _ then _ else _). clearbody l1.
  destruct (is_in_terminal_state l1) eqn:E; cbn; [|by rewrite E].
  case_bool_decide as Hs; cbn; [done|by eexists].
Qed.

Lemma close_order_post oid acct flags c :
  let c' := OmsCoreV2.close_order oid acct flags c in
  same_res_but oid c c' ∧ c_balances c' = c_balances c ∧
  reservations (c_reservations c') !! oid = None ∧ oid ∉ os_open_order_ids (c_orders c') ∧
  ∀ l, os_live (c_orders c') !! oid = Some l → os_live (c_orders c) !! oid = Some l.
Proof.
  intros c'. subst c'. unfold OmsCoreV2.close_order.
  set (c1 := c <| c_reservations ::= _ |>).
  destruct (unfreeze_remaining_frame oid acct flags c1) as [[_ Eo _] Er]. cbn.
  unfold same_res_but. cbn. rewrite Eo, Er. split_and!.
  - intros oid' Hne. cbn. rewrite release_lookup. by rewrite decide_False.
  - unfold OmsCoreV2.unfreeze_remaining. destruct (af_pos_instrument_id flags); [|done].
    destruct (negb _); [|done]. by destruct (_ >? _)%f64.
  - cbn. rewrite release_lookup. by rewrite decide_True.
  - apply mark_closed_not_open.
  - intros l. apply mark_closed_live.
Qed.

Lemma finish_report_post oid ts tb ib fl c :
  yields (OmsCoreV2.finish_report oid ts tb ib fl c) (report_post oid c).
Proof.
  unfold OmsCoreV2.finish_report. destruct (negb _); [by split_and!; [..|left]|].
  apply yields_bind. intros l0 Hl0.
  set (l := OmsCoreV2.finalize_live l0). set (c1 := c <| c_orders ::= _ |>).
  assert (os_live (c_orders c1) !! oid = Some l) as Hl.
  { cbn. rewrite lookup_alter_eq. unfold OrderStoreV2.get_live in Hl0.
    by destruct (os_live _ !! oid). }
  apply yields_bind. intros [settled c2] Hset.
  assert (frame c1 c2 ∧ same_res_but oid c1 c2 ∧ c_balances c2 = c_balances c1)
    as ([_ Eo _] & Hres & Hbal).
  { destruct (_ || _); [|by injection Hset as <- <-].
    pose proof (settle_fills_res oid (lo_account_id l) ts (lo_buy_sell_type l)
      (lo_accounting_flags l) tb ib c1) as Hs. by rewrite Hset in Hs. }
  destruct (is_in_terminal_state l) eqn:Et.
  - destruct (close_order_post oid (lo_account_id l) (lo_accounting_flags l) c2)
      as (H1 & H2 & H3 & H4 & H5).
    split_and!; cbn -[OmsCoreV2.close_order]; [by etrans|by rewrite H2|right; right].
    eexists _, settled. split_and!; [done..|]. intros l' Hl'. apply H5 in Hl'.
    rewrite Eo, Hl in Hl'. injection Hl' as <-. split; [done|]. by apply finalize_live_terminal.
  - split_and!; cbn; [done|done|right; left]. eexists _, settled, l. by rewrite Eo.
Qed.


(** The cancellation of the covered order. *)
Definition cancel_report : OrderReport :=
  demo_report 11 [state_entry ExchOrderStatusCancelled f64.zero f64.zero].
Definition cancelled_core : OmsCoreV2 :=
  Eval vm_compute in
  match OmsCoreV2.process_message demo_clk (GatewayOrderReport cancel_report) bought_core with
  | Returns (_, c) => c
  | Panics _ => checked_core
  end.

Lemma cancelled_step :
  OmsCoreV2.process_message demo_clk (GatewayOrderReport cancel_report) bought_core =
  Returns ([PublishOrderUpdate 11 false false false false; PersistOrder 11 true true],
           cancelled_core).
Proof. vm_compute. reflexivity. Qed.

Lemma bought_core_reachable : reachable bought_core.
Proof.
  apply (reach_message funded_core demo_clk (PlaceOrder covered_order)
    [PersistOrder 11 false false; SendOrderToGw 0 11 1000]);
    [exact funded_core_reachable|exact bought_step].
Qed.


(** ** Fills *)

(** A long holding of [t], of which [f] is frozen and [a] available. *)
Definition long_pos (g t f a : Z) (p : ManagedPositionV2) : Prop :=
  pos_grid g t f a p ∧ mp_is_short p = false ∧ 0 ≤ f ∧ 0 ≤ a ∧ a + f ≤ t.

(** How a fill of [q] moves total, frozen and available. *)
Definition moved (is_buy : bool) (q t f a : Z) : Z * Z * Z :=
  if is_buy then (t + q, f, a + q) else (t - q, f - q, a).

Section fills.
Context (g : Z) (Hg : grid_ok g).

Lemma fill_delta_long acct pos (is_buy : bool) x q ts t f a p :
  long_pos g t f a p → 0 < q → on_grid g q x →
  (if is_buy then fits (t + q) else q ≤ f) →
  let '(t', f', a') := moved is_buy q t f a in
  long_pos g t' f' a' (PositionStoreV2.apply_delta_pos
    (OmsCoreV2.fill_delta acct pos is_buy (negb is_buy) x) ts p).
Proof using Hg.
  intros ((Ht & Hf & Ha) & Hs & Hf0 & Ha0 & Hle) Hq Hx Hside.
  pose proof (grid_zero g) as Hz. pose proof (on_grid_fits g _ _ Ht) as Hft.
  pose proof (grid_opp g _ _ Hx) as Hnx.
  unfold PositionStoreV2.apply_delta_pos. destruct is_buy; cbn in *.
  - assert (on_grid g (t + q) (mp_qty_total p + x)%f64) as Ht' by (by apply grid_add).
    assert (on_grid g (a + q) (mp_qty_available p + x)%f64) as Ha'
      by (apply grid_add; [done..|unfold fits in *; lia]).
    assert (on_grid g (Z.max (f + 0) 0) (f64.max (mp_qty_frozen p + f64.zero) f64.zero)%f64) as Hf'.
    { apply grid_max; [|done]. apply grid_add; [done..|unfold fits in *; lia]. }
    rewrite (grid_ltb g _ _ _ _ Ht' Ha'), (grid_ltb g _ _ _ _ Ht' (grid_zero g)).
    rewrite !(proj2 (Z.ltb_ge _ _)) by lia. replace (Z.max (f + 0) 0) with f in Hf' by lia.
    split; [by split_and!|]. cbn. split_and!; [done|lia..].
  - assert (on_grid g (t + - q) (mp_qty_total p + f64.neg x)%f64) as Ht'
      by (apply grid_add; [done..|unfold fits in *; lia]).
    assert (on_grid g (a + 0) (mp_qty_available p + f64.zero)%f64) as Ha'
      by (apply grid_add; [done..|unfold fits in *; lia]).
    assert (on_grid g (Z.max (f + - q) 0) (f64.max (mp_qty_frozen p + f64.neg x) f64.zero)%f64)
      as Hf' by (apply grid_max; [|done]; apply grid_add; [done..|unfold fits in *; lia]).
    rewrite (grid_ltb g _ _ _ _ Ht' Ha'), (grid_ltb g _ _ _ _ Ht' (grid_zero g)).
    rewrite !(proj2 (Z.ltb_ge _ _)) by lia.
    replace (Z.max (f + - q) 0) with (f - q) in Hf' by lia. replace (a + 0) with a in Ha' by lia.
    split; [by split_and!|]. cbn. split_and!; [done|lia..].
Qed.

(** All fills of one report. *)
Lemma apply_fills_long oid acct pos ts (is_buy : bool) flags price qs xs b c t f a p :
  af_pos_instrument_id flags = Some pos → (is_buy = false → af_balance_check flags = true) →
  managed (c_positions c) !! (acct, pos) = Some p → long_pos g t f a p →
  Forall2 (on_grid g) qs xs → Forall (λ q, 0 < q) qs →
  (if is_buy then fits (t + Zsum qs) else Zsum qs ≤ f) →
  ∃ p', managed (c_positions (foldl (OmsCoreV2.apply_fill oid acct ts is_buy flags price)
                               (b, c) xs).2) !! (acct, pos) = Some p' ∧
    let '(t', f', a') := moved is_buy (Zsum qs) t f a in long_pos g t' f' a' p'.
Proof using Hg.
  intros Hpos Hbc Hp Hl Hqs. revert b c t f a p Hp Hl.
  induction Hqs as [|q x qs xs Hx Hqs IH]; intros b c t f a p Hp Hl Hall Hside.
  { exists p. split; [done|]. unfold moved. cbn.
    destruct is_buy; by rewrite ?Z.add_0_r, ?Z.sub_0_r. }
  apply Forall_cons in Hall as [Hq Hall]. cbn [Zsum foldr] in Hside.
  assert (0 ≤ Zsum qs) as Hn by (apply Zsum_nonneg; eapply Forall_impl; [done|]; cbn; lia).
  fold (Zsum qs) in Hside. cbn [foldl].
  assert (OmsCoreV2.apply_fill oid acct ts is_buy flags price (b, c) x =
    (true, c <| c_positions ::= PositionStoreV2.apply_delta
       (OmsCoreV2.fill_delta acct pos is_buy (negb is_buy) x) ts |>
       <| c_reservations ::= ReservationStoreV2.release_partial oid
            (if af_is_buy flags then x * price else x)%f64 |>)) as ->.
  { unfold OmsCoreV2.apply_fill.
    rewrite (grid_leb g q 0), (proj2 (Z.leb_gt _ _)) by (done || lia || apply grid_zero).
    rewrite Hpos. by destruct is_buy; [|rewrite Hbc by done]. }
  pose proof (on_grid_fits g _ _ (proj1 (proj1 Hl))) as Hft.
  pose proof (fill_delta_long acct pos is_buy x q ts t f a p Hl Hq Hx) as Hstep.
  destruct (moved is_buy q t f a) as [[t1 f1] a1] eqn:E1.
  specialize (Hstep ltac:(destruct Hl as (_ & _ & ? & ? & ?); unfold fits in *;
                          destruct is_buy; lia)).
  match goal with |- context [foldl _ (true, ?c1) xs] =>
    destruct (IH true c1 t1 f1 a1 (PositionStoreV2.apply_delta_pos
      (OmsCoreV2.fill_delta acct pos is_buy (negb is_buy) x) ts p)) as (p' & Hp' & Hl'); [|exact Hstep|done| |] end.
  - cbn. unfold PositionStoreV2.apply_delta. cbn. rewrite Hp. cbn. apply lookup_insert_eq.
  - unfold moved in E1. destruct is_buy; injection E1 as <- <- <-; [|lia].
    by replace (t + q + Zsum qs) with (t + (q + Zsum qs)) by lia.
  - exists p'. split; [exact Hp'|]. cbn [Zsum foldr]. fold (Zsum qs). revert Hl'.
    unfold moved in *. destruct is_buy; injection E1 as <- <- <-.
    + by rewrite !Z.add_assoc.
    + by rewrite <- !Z.sub_add_distr.
Qed.
End fills.

(** ** State reports and positions *)

Definition state_only (r : OrderStateReport) : OrderReportEntry :=
  mkOrderReportEntry (OrderReportType_i32 OrderRepTypeState) (Some (ROrderStateReport r)).

Lemma trade_entry_effect oid ts t fl c l d acc' :
  OrderStoreV2.get_live_and_detail oid (c_orders c) = Some (l, d) →
  OmsCoreV2.apply_trade_entry oid ts t (fl, c) = Returns acc' →
  ∃ tr orders, tr_filled_qty tr = trr_filled_qty t ∧
    OrderStoreV2.get_live_and_detail oid orders =
      Some (OrderStoreV2.apply_trade_report tr (l, d)) ∧
    OmsCoreV2.rf_new_trade acc'.1 = true ∧
    OmsCoreV2.rf_new_oms_trade acc'.1 = OmsCoreV2.rf_new_oms_trade fl ∧
    acc'.2 = c <| c_orders := orders |>.
Proof.
  intros Hb. destruct (get_both_Some _ _ _ Hb) as [Hl _].
  unfold OmsCoreV2.apply_trade_entry, OmsCoreV2.both_mut, OrderStoreV2.get_live.
  rewrite Hb, Hl. cbn -[OmsCoreV2.resolve_exch_ref OmsCoreV2.instrument_code
    OrderStoreV2.apply_trade_report OmsCoreV2.put_both].
  destruct (OmsCoreV2.resolve_exch_ref _ _) as [ref|]; [|done].
  cbn -[OmsCoreV2.instrument_code OrderStoreV2.apply_trade_report OmsCoreV2.put_both].
  destruct (OmsCoreV2.instrument_code _ _) as [code|]; [|done].
  cbn -[OmsCoreV2.put_both OrderStoreV2.apply_trade_report]. intros <-%returns_inj.
  match goal with |- context [OrderStoreV2.apply_trade_report ?tr _] =>
    exists tr, (OrderStoreV2.put_live_and_detail oid (OrderStoreV2.apply_trade_report tr (l, d))
                  (c_orders c)) end.
  split_and!; try done. unfold OrderStoreV2.get_live_and_detail. cbn. by rewrite !lookup_insert_eq.
Qed.

Lemma state_entry_effect oid ts r fl c l d acc' :
  OrderStoreV2.get_live_and_detail oid (c_orders c) = Some (l, d) →
  (osr_filled_qty r =? f64.zero)%f64 = false →
  OmsCoreV2.apply_state_entry oid ts r (fl, c) = Returns acc' →
  let both := OrderStoreV2.apply_state_report (Some (osr_filled_qty r)) (osr_avg_price r)
    (default ExchOrderStatusUnspecified
       (ExchangeOrderStatus_try_from (osr_exch_order_status r))) ts (l, d) in
  ∃ orders, OrderStoreV2.get_live_and_detail oid orders = Some both ∧
    OmsCoreV2.rf_new_oms_trade acc'.1 = OmsCoreV2.rf_new_oms_trade fl ||
      (length (dl_inferred_trades d) <? length (dl_inferred_trades both.2))%nat ∧
    OmsCoreV2.rf_original_order_updated acc'.1 = true ∧
    OmsCoreV2.rf_new_trade acc'.1 = OmsCoreV2.rf_new_trade fl ∧
    acc'.2 = c <| c_orders := orders |>.
Proof.
  intros Hb Hfq E both. unfold OmsCoreV2.apply_state_entry, OmsCoreV2.both_mut in E.
  rewrite Hb, Hfq in E. cbn -[OrderStoreV2.apply_state_report Nat.ltb OmsCoreV2.put_both] in E.
  apply returns_inj in E as <-.
  exists (OrderStoreV2.put_live_and_detail oid both (c_orders c)). fold both. split_and!.
  - unfold OrderStoreV2.get_live_and_detail. cbn -[both]. rewrite !lookup_insert_eq. cbn -[both].
    by destruct both.
  - cbn -[Nat.ltb both]. destruct (_ <? _)%nat; cbn; by rewrite ?orb_true_r, ?orb_false_r.
  - by destruct (_ <? _)%nat.
  - by destruct (_ <? _)%nat.
  - done.
Qed.

(** What a report does once its entries are applied. *)
Lemma process_report_unfold oid gw report c l d acts c' :
  OrderStoreV2.get_live_and_detail oid (c_orders c) = Some (l, d) →
  OmsCoreV2.process_report_for_order oid gw report c = Returns (acts, c') →
  let ts := rep_update_timestamp report in
  let entries := rep_order_report_entries report in
  let extra := OrderStoreV2.infer_state_from_trades entries l in
  ∃ only orders0 fl c1,
    OrderStoreV2.get_live_and_detail oid orders0 = Some (l <| lo_updated_at := ts |>, d) ∧
    for_each (OmsCoreV2.apply_entry oid gw ts only) (entries ++ option_list extra)
      (OmsCoreV2.no_flags, c <| c_orders := orders0 |>) = Returns (fl, c1) ∧
    OmsCoreV2.finish_report oid ts (length (dl_trades d)) (length (dl_inferred_trades d)) fl c1 =
      Returns (acts, c').
Proof.
  intros Hb E. destruct (get_both_Some _ _ _ Hb) as [Hl Hd]. cbn in Hl, Hd.
  unfold OmsCoreV2.process_report_for_order, OrderStoreV2.get_live, OrderStoreV2.get_detail in E.
  rewrite Hl, Hd in E. cbv zeta in E.
  set (only := (_ =? 1)%nat && _) in E. set (c0 := c <| c_orders ::= _ |>) in E.
  destruct (for_each _ _ _) as [[fl c1]|] eqn:Ef in E; [|done].
  exists only, (c_orders c0), fl, c1. split_and!; [|exact Ef|exact E].
  unfold OrderStoreV2.get_live_and_detail. cbn. by rewrite lookup_alter_eq, Hl, Hd.
Qed.

(** The fields of the applied state that the rest of the report reads. *)
Lemma state_applied_fields fq avg status ts l d :
  is_in_terminal_state l = false → map_order_status status ≠ Unspecified →
  let both := OrderStoreV2.apply_state_report fq avg status ts (l, d) in
  identity both.1 = identity l ∧ dl_trades both.2 = dl_trades d ∧
  lo_order_status both.1 = OrderStatus_i32 (map_order_status status).
Proof.
  intros Ht Hs both. pose proof (apply_state_report_evolves fq avg status ts (l, d)) as Hev.
  split; [exact (ev_identity _ _ Hev)|]. subst both. unfold OrderStoreV2.apply_state_report.
  set (l1 := match _ with Some nf => _ | None => _ end).
  set (l2 := if negb (avg =? f64.zero)%f64 then _ else _).
  assert (order_status l2 = order_status l) as E.
  { subst l2 l1. destruct (negb _), fq as [x|]; try destruct (negb _); done. }
  clearbody l2. clear l1. split; [cbn; by destruct (_ >? _)%f64|].
  assert (can_update_status (order_status l2) (map_order_status status) = true) as ->; [|done].
  rewrite E. unfold can_update_status, is_in_terminal_state, is_terminal_status, order_status in *.
  rewrite bool_decide_false by done. by destruct (OrderStatus_try_from (lo_order_status l)) as [[]|].
Qed.

Lemma finalize_live_fields l :
  identity (OmsCoreV2.finalize_live l) = identity l ∧
  lo_filled_qty (OmsCoreV2.finalize_live l) = lo_filled_qty l ∧
  is_in_terminal_state (OmsCoreV2.finalize_live l) = is_in_terminal_state l.
Proof.
  unfold OmsCoreV2.finalize_live. set (l1 := if _ && _ && _ then _ else _).
  assert (identity l1 = identity l ∧ lo_filled_qty l1 = lo_filled_qty l ∧
    is_in_terminal_state l1 = is_in_terminal_state l) as H1.
  { subst l1. by destruct (_ && _ && _). }
  clearbody l1. destruct (is_in_terminal_state l1 && _); exact H1.
Qed.

(** Closing touches no position when the order is a buy or nothing remains. *)
Lemma close_order_positions oid acct flags c l :
  os_live (c_orders c) !! oid = Some l →
  af_is_buy flags = true ∨ (lo_qty l - lo_filled_qty l >? f64.zero)%f64 = false →
  c_positions (OmsCoreV2.close_order oid acct flags c) = c_positions c.
Proof.
  intros Hl Hor. unfold OmsCoreV2.close_order, OmsCoreV2.unfreeze_remaining, OrderStoreV2.get_live.
  cbn. rewrite Hl. cbn. destruct (af_pos_instrument_id flags); [|done].
  destruct Hor as [->| ->]; [done|]. by destruct (negb _).
Qed.

(** Settling the fills after the marks [tb] and [ib]. *)
Lemma settle_fills_new oid acct ts side flags tb ib c l d :
  os_live (c_orders c) !! oid = Some l → os_detail (c_orders c) !! oid = Some d →
  (tb ≤ length (dl_trades d))%nat → (ib ≤ length (dl_inferred_trades d))%nat →
  ∃ settled, OmsCoreV2.settle_fills oid acct ts side flags tb ib c = Returns (settled,
    (foldl (OmsCoreV2.apply_fill oid acct ts (side =? BsBuy) flags (lo_price l)) (false, c)
       ((tr_filled_qty <$> drop tb (dl_trades d)) ++
        (tr_filled_qty <$> drop ib (dl_inferred_trades d)))).2).
Proof.
  intros Hl Hd Htb Hib. unfold OmsCoreV2.settle_fills, OrderStoreV2.get_live,
    OrderStoreV2.get_detail, OmsCoreV2.slice_from. rewrite Hl, Hd. cbn -[Nat.leb].
  rewrite !(proj2 (Nat.leb_le _ _)) by done. cbn -[OmsCoreV2.apply_fill].
  destruct (foldl _ _ _) as [b c2]. by eexists.
Qed.

(** The positions a finished report leaves are those of the settled fills. *)
Lemma finish_report_positions oid ts tb ib fl c both fills acts c' :
  OrderStoreV2.get_live_and_detail oid (c_orders c) = Some both →
  OmsCoreV2.rf_original_order_updated fl = true →
  (tb ≤ length (dl_trades both.2))%nat → (ib ≤ length (dl_inferred_trades both.2))%nat →
  fills = (tr_filled_qty <$> drop tb (dl_trades both.2)) ++
          (tr_filled_qty <$> drop ib (dl_inferred_trades both.2)) →
  (OmsCoreV2.rf_new_trade fl || OmsCoreV2.rf_new_oms_trade fl = false → fills = []) →
  let l := both.1 in
  is_in_terminal_state l = false ∨ af_is_buy (lo_accounting_flags l) = true ∨
    (lo_qty l - lo_filled_qty l >? f64.zero)%f64 = false →
  OmsCoreV2.finish_report oid ts tb ib fl c = Returns (acts, c') →
  ∃ c1, c_positions c1 = c_positions c ∧
  c_positions c' =
    c_positions (foldl (OmsCoreV2.apply_fill oid (lo_account_id l) ts (lo_buy_sell_type l =? BsBuy)
                   (lo_accounting_flags l) (lo_price l)) (false, c1) fills).2.
Proof.
  intros Hb Hup Htb Hib Hfills Hnone l Hclose. destruct (get_both_Some _ _ _ Hb) as [Hl Hd].
  unfold OmsCoreV2.finish_report, OrderStoreV2.get_live. rewrite Hup, Hl. fold l.
  cbn -[OmsCoreV2.finalize_live OmsCoreV2.settle_fills OmsCoreV2.close_order].
  destruct (finalize_live_fields l) as (Hid & Hfl & Hterm).
  injection Hid as _ Hacct _ _ Hside Hprice Hqty _ Hflags _.
  rewrite Hterm, Hacct, Hside, Hflags.
  set (c1 := c <| c_orders ::= _ |>). intros Hfin. exists c1. split; [done|].
  assert (os_live (c_orders c1) !! oid = Some (OmsCoreV2.finalize_live l)) as Hl1
    by (cbn; by rewrite lookup_alter_eq, Hl).
  set (fold2 := (foldl _ _ _).2).
  set (step := if _ || _ then _ else _) in Hfin.
  assert (∃ settled, step = Returns (settled, fold2)) as (settled & Es).
  { subst step fold2. destruct (_ || _).
    - rewrite <- Hprice, Hfills. by apply settle_fills_new.
    - exists []. by rewrite Hnone. }
  rewrite Es in Hfin. cbn -[OmsCoreV2.close_order] in Hfin. clear step Es.
  destruct (is_in_terminal_state l); [|by injection Hfin as _ <-]. injection Hfin as _ <-.
  apply (close_order_positions _ _ _ _ (OmsCoreV2.finalize_live l));
    [|by rewrite Hqty, Hfl; destruct Hclose].
  subst fold2. by rewrite (fr_orders _ _ (apply_fills_frame _ _ _ _ _ _ _ _)).
Qed.

(** The status of a fill: partial, or complete. *)
Definition fill_status (r : OrderStateReport) (m n : Z) : Prop :=
  osr_exch_order_status r = ExchangeOrderStatus_i32 ExchOrderStatusPartialFilled ∨
  (osr_exch_order_status r = ExchangeOrderStatus_i32 ExchOrderStatusFilled ∧ m = n).

(** The end of a report whose last entry is a fill state [r] of order [(l, d)]:
    the positions are moved by the trades after the mark [tb] and by inferred
    trades whose quantities add up to the increase. *)
Lemma state_finish_positions g r ts oid tb fl c orders l d m0 m n acts c' :
  fill_grid g → is_in_terminal_state l = false →
  on_grid g m0 (lo_filled_qty l) → on_grid g m (osr_filled_qty r) → on_grid g n (lo_qty l) →
  0 ≤ m0 → m0 ≤ m → 0 < m → fill_status r m n →
  let both := OrderStoreV2.apply_state_report (Some (osr_filled_qty r)) (osr_avg_price r)
    (default ExchOrderStatusUnspecified
       (ExchangeOrderStatus_try_from (osr_exch_order_status r))) ts (l, d) in
  OrderStoreV2.get_live_and_detail oid orders = Some both →
  OmsCoreV2.rf_original_order_updated fl = true → (tb ≤ length (dl_trades d))%nat →
  OmsCoreV2.rf_new_trade fl = (tb <? length (dl_trades d))%nat →
  OmsCoreV2.rf_new_oms_trade fl =
    (length (dl_inferred_trades d) <? length (dl_inferred_trades both.2))%nat →
  OmsCoreV2.finish_report oid ts tb (length (dl_inferred_trades d)) fl
    (c <| c_orders := orders |>) = Returns (acts, c') →
  ∃ c1 qs xs price, Forall2 (on_grid g) qs xs ∧ Forall (λ q, 0 < q) qs ∧ Zsum qs = m - m0 ∧
    c_positions c1 = c_positions c ∧
    c_positions c' = c_positions (foldl (OmsCoreV2.apply_fill oid (lo_account_id l) ts
      (lo_buy_sell_type l =? BsBuy) (lo_accounting_flags l) price)
      (false, c1) ((tr_filled_qty <$> drop tb (dl_trades d)) ++ xs)).2.
Proof.
  intros Hg Ht Hm0 Hm Hn H0 Hle Hm1 Hstatus both Hb1 Hup Htb Hnt Homs E.
  set (st := default _ _) in *.
  destruct (state_report_fills g Hg m0 m _ (osr_avg_price r) st ts (l, d) Hm0 H0 ltac:(lia) Hm)
    as [Hfill (qs & (new & Hinf & Hqs & Hqpos) & Hsum)].
  rewrite Z.max_r in Hfill, Hsum by lia.
  assert (st = ExchOrderStatusPartialFilled ∨ st = ExchOrderStatusFilled ∧ m = n) as Hst.
  { subst st. destruct Hstatus as [->|[-> ->]]; auto. }
  destruct (state_applied_fields (Some (osr_filled_qty r)) (osr_avg_price r) st ts l d Ht)
    as (Hid & Htr & Hstat); [by destruct Hst as [->|[-> _]]|].
  fold both in Hfill, Hinf, Hid, Htr, Hstat. clearbody both.
  cbn in Hinf. injection Hid as _ Hacct _ _ Hs Hprice Hq _ Hf _.
  destruct (finish_report_positions oid ts tb (length (dl_inferred_trades d)) fl
    (c <| c_orders := orders |>) both
    ((tr_filled_qty <$> drop tb (dl_trades d)) ++ (tr_filled_qty <$> new)) acts c')
    as (c1 & Ep1 & Ep'); try done.
  - by rewrite Htr.
  - rewrite Hinf, length_app. lia.
  - by rewrite Htr, Hinf, drop_app_length.
  - rewrite Hnt, Homs, Hinf, length_app. intros [Hno1 Hno2]%orb_false_iff.
    apply Nat.ltb_ge in Hno1, Hno2. rewrite drop_ge by done. destruct new; [done|]. cbn in Hno2. lia.
  - destruct Hst as [E1|[E1 ->]]; [left; unfold is_in_terminal_state; by rewrite Hstat, E1|].
    right; right. rewrite (grid_ltb g 0 (n - n)), Z.sub_diag; [done|apply grid_zero|].
    apply grid_sub; [by apply fill_grid_ok|by rewrite Hq|done|]. unfold fits. lia.
  - rewrite Hacct, Hs, Hf in Ep'. by exists c1, qs, (tr_filled_qty <$> new), (lo_price both.1).
Qed.

Lemma grid_nonzero g m x : on_grid g m x → 0 < m → (x =? f64.zero)%f64 = false.
Proof.
  intros Hm H0. unfold f64.eqb, SpecFloat.SFeqb.
  rewrite (grid_compare g m 0 _ _ Hm (grid_zero g)).
  by rewrite (proj2 (Z.compare_gt_iff _ _)) by lia.
Qed.

(** The positions after a state-only report. *)
Lemma state_report_positions g report r c gw oid l d m0 m n acts c' :
  fill_grid g → OrderStoreV2.get_live_and_detail oid (c_orders c) = Some (l, d) →
  rep_order_report_entries report = [state_only r] → is_in_terminal_state l = false →
  on_grid g m0 (lo_filled_qty l) → on_grid g m (osr_filled_qty r) → on_grid g n (lo_qty l) →
  0 ≤ m0 → m0 ≤ m → 0 < m → fill_status r m n →
  OmsCoreV2.process_report_for_order oid gw report c = Returns (acts, c') →
  ∃ c1 qs xs price, Forall2 (on_grid g) qs xs ∧ Forall (λ q, 0 < q) qs ∧ Zsum qs = m - m0 ∧
    c_positions c1 = c_positions c ∧
    c_positions c' = c_positions (foldl (OmsCoreV2.apply_fill oid (lo_account_id l)
      (rep_update_timestamp report) (lo_buy_sell_type l =? BsBuy) (lo_accounting_flags l) price)
      (false, c1) xs).2.
Proof.
  intros Hg Hb Hent Ht Hm0 Hm Hn H0 Hle Hm1 Hstatus E. set (ts := rep_update_timestamp report).
  destruct (process_report_unfold oid gw report c l d acts c' Hb E)
    as (only & orders0 & fl & c1 & Hb0 & Ef & Efin). fold ts in Hb0, Ef, Efin.
  rewrite Hent in Ef. unfold OrderStoreV2.infer_state_from_trades in Ef. rewrite Ht in Ef.
  cbn -[OmsCoreV2.apply_state_entry] in Ef.
  destruct (OmsCoreV2.apply_state_entry _ _ _ _) as [acc|] eqn:Es; [|done]. injection Ef as ->.
  set (c0 := c <| c_orders := orders0 |>) in Es.
  destruct (state_entry_effect oid ts r _ c0 _ _ _ Hb0 (grid_nonzero g m _ Hm Hm1) Es)
    as (orders & Hb1 & Homs & Hup & Hnt & Ec1). cbn in Ec1. subst c1.
  destruct (state_finish_positions g r ts oid (length (dl_trades d)) fl c orders
    (l <| lo_updated_at := ts |>) d m0 m n acts c')
    as (c2 & qs & xs & price & H1 & H2 & H3 & H4 & H5); try done.
  - rewrite Nat.ltb_irrefl. exact Hnt.
  - exists c2, qs, xs, price. by rewrite drop_all in H5.
Qed.


(** The covered order after four of its ten units. *)
Definition partial_report : OrderReport :=
  demo_report 11 [state_entry ExchOrderStatusPartialFilled (f64.of_Z 4) (f64.of_Z 900)].
Definition stocked_core : OmsCoreV2 :=
  Eval vm_compute in
  match OmsCoreV2.process_message demo_clk (GatewayOrderReport partial_report) bought_core with
  | Returns (_, c) => c
  | Panics _ => checked_core
  end.
Definition stocked_order : LiveOrder :=
  Eval vm_compute in default (demo_live 0) (os_live (c_orders stocked_core) !! 11).
Definition stocked_position : ManagedPositionV2 :=
  Eval vm_compute in default (demo_position 0) (managed (c_positions stocked_core) !! (7, 3)).

Lemma stocked_core_reachable : reachable stocked_core.
Proof.
  apply (reach_message bought_core demo_clk (GatewayOrderReport partial_report)
    [PublishOrderUpdate 11 false false false true; PersistPosition 7 3;
     PublishPositionUpdate 7; PersistOrder 11 false false]); [exact bought_core_reachable|].
  vm_compute. reflexivity.
Qed.


(** ** Trade reports and positions *)

Definition trade_only (t : TradeReport) : OrderReportEntry :=
  mkOrderReportEntry (OrderReportType_i32 OrderRepTypeTrade) (Some (RTradeReport t)).

(** A trade of a working order that fits makes the store infer its state. *)
Lemma trade_infers_state g t l m0 q n :
  fill_grid g → is_in_terminal_state l = false →
  on_grid g m0 (lo_acc_trades_filled_qty l) → on_grid g q (trr_filled_qty t) →
  on_grid g n (lo_qty l) → 0 ≤ m0 → 0 < q → m0 + q ≤ n →
  ∃ r, OrderStoreV2.infer_state_from_trades [trade_only t] l = Some (state_only r) ∧
    on_grid g (m0 + q) (osr_filled_qty r) ∧ fill_status r (m0 + q) n.
Proof.
  intros Hg Ht Hm0 Hq Hn H0 Hq0 Hle. pose proof (fill_grid_ok g Hg) as Hgo.
  pose proof (on_grid_fits g _ _ Hn) as Hfn.
  unfold OrderStoreV2.infer_state_from_trades. rewrite Ht. cbn -[f64.abs f64.add].
  set (total := (f64.zero + trr_filled_qty t + lo_acc_trades_filled_qty l)%f64).
  assert (on_grid g (m0 + q) total) as Htot.
  { subst total. replace (m0 + q) with (0 + q + m0) by lia.
    apply grid_add; [done| |done|unfold fits in *; lia].
    apply grid_add; [done|apply grid_zero|done|unfold fits in *; lia]. }
  rewrite (grid_ltb g _ _ _ _ Hn Htot), (proj2 (Z.ltb_ge _ _)) by lia.
  eexists. split; [reflexivity|]. split; [done|]. unfold fill_status. cbn -[f64.abs f64.add].
  assert (on_grid g (m0 + q - n) (total - lo_qty l)%f64) as Hd
    by (apply grid_sub; [done..|unfold fits in *; lia]).
  rewrite (lt_eps8 g _ _ Hg (grid_abs g _ _ Hd)) by lia.
  destruct (Z.eqb_spec (Z.abs (m0 + q - n)) 0); [right; split; [done|lia]|by left].
Qed.

Lemma applied_trade_fields tr l d :
  ∃ l1 d1, OrderStoreV2.apply_trade_report tr (l, d) = (l1, d1) ∧
    identity l1 = identity l ∧ lo_filled_qty l1 = lo_filled_qty l ∧
    is_in_terminal_state l1 = is_in_terminal_state l ∧
    dl_trades d1 = dl_trades d ++ [tr] ∧ dl_inferred_trades d1 = dl_inferred_trades d.
Proof. by eexists _, _. Qed.

(** The positions after a report of one trade: the trade moves them, and so do
    the inferred trades of the state inferred from it. *)
Lemma trade_report_positions g report t c gw oid l d m0 q n acts c' :
  fill_grid g → OrderStoreV2.get_live_and_detail oid (c_orders c) = Some (l, d) →
  rep_order_report_entries report = [trade_only t] → is_in_terminal_state l = false →
  on_grid g m0 (lo_filled_qty l) → on_grid g m0 (lo_acc_trades_filled_qty l) →
  on_grid g q (trr_filled_qty t) → on_grid g n (lo_qty l) → 0 ≤ m0 → 0 < q → m0 + q ≤ n →
  OmsCoreV2.process_report_for_order oid gw report c = Returns (acts, c') →
  ∃ c1 qs xs price, Forall2 (on_grid g) qs xs ∧ Forall (λ q, 0 < q) qs ∧ Zsum qs = 2 * q ∧
    c_positions c1 = c_positions c ∧
    c_positions c' = c_positions (foldl (OmsCoreV2.apply_fill oid (lo_account_id l)
      (rep_update_timestamp report) (lo_buy_sell_type l =? BsBuy) (lo_accounting_flags l) price)
      (false, c1) xs).2.
Proof.
  intros Hg Hb Hent Ht Hm0 Hacc Hq Hn H0 Hq0 Hle E. set (ts := rep_update_timestamp report).
  destruct (trade_infers_state g t l m0 q n Hg Ht Hacc Hq Hn H0 Hq0 Hle) as (r & Hr & Hrq & Hrs).
  destruct (process_report_unfold oid gw report c l d acts c' Hb E)
    as (only & orders0 & fl & c1 & Hb0 & Ef & Efin). fold ts in Hb0, Ef, Efin.
  rewrite Hent, Hr in Ef. cbn -[OmsCoreV2.apply_state_entry OmsCoreV2.apply_trade_entry] in Ef.
  set (c0 := c <| c_orders := orders0 |>) in Ef.
  destruct (OmsCoreV2.apply_trade_entry _ _ _ _) as [[fl1 ca]|] eqn:Etr; [|done].
  destruct (trade_entry_effect oid ts t _ c0 _ _ _ Hb0 Etr)
    as (tr & orders1 & Htq & Hb1 & Hnt1 & Homs1 & Eca). cbn in Eca. subst ca.
  destruct (applied_trade_fields tr (l <| lo_updated_at := ts |>) d)
    as (l1 & d1 & Eat & Hid & Hfl & Ht1 & Htr & Hinf). rewrite Eat in Hb1.
  injection Hid as _ Hacct _ _ Hside _ Hqty _ Hflags _. cbn in Hacct, Hside, Hqty, Hflags, Hfl, Ht1.
  cbn -[OmsCoreV2.apply_state_entry] in Ef. set (c2 := c0 <| c_orders := orders1 |>) in Ef.
  destruct (OmsCoreV2.apply_state_entry _ _ _ _) as [acc|] eqn:Es; [|done]. injection Ef as ->.
  destruct (state_entry_effect oid ts r _ c2 _ _ _ Hb1
    (grid_nonzero g (m0 + q) _ Hrq ltac:(lia)) Es)
    as (orders & Hb2 & Homs & Hup & Hnt & Ec1). cbn in Ec1. subst c1.
  rewrite <- Hinf in Efin.
  destruct (state_finish_positions g r ts oid (length (dl_trades d)) fl c orders
    l1 d1 m0 (m0 + q) n acts c') as (c3 & qs & xs & price & H1 & H2 & H3 & H4 & H5);
    rewrite ?Hfl, ?Hqty, ?Htr, ?length_app; try done; cbn; try lia.
  - by rewrite Ht1.
  - cbn in Hnt, Hnt1. rewrite Hnt, Hnt1. symmetry. apply Nat.ltb_lt. lia.
  - cbn in Homs. rewrite Homs. cbn in Homs1. by rewrite Homs1.
  - exists c3, (q :: qs), (tr_filled_qty tr :: xs), price.
    rewrite Hacct, Hside, Hflags, Htr, drop_app_length, fmap_cons, Htq in H5. rewrite Htq.
    split_and!; [by constructor|by constructor|cbn; fold (Zsum qs); lia|done|exact H5].
Qed.


(** The covered order after one trade of two units, which already moved the
    position by four. *)
Definition trade_report : OrderReport :=
  demo_report 11 [trade_entry (f64.of_Z 2) (f64.of_Z 900)].
Definition traded_core : OmsCoreV2 :=
  Eval vm_compute in
  match OmsCoreV2.process_message demo_clk (GatewayOrderReport trade_report) bought_core with
  | Returns (_, c) => c
  | Panics _ => checked_core
  end.
Definition traded_order : LiveOrder :=
  Eval vm_compute in default (demo_live 0) (os_live (c_orders traded_core) !! 11).
Definition traded_position : ManagedPositionV2 :=
  Eval vm_compute in default (demo_position 0) (managed (c_positions traded_core) !! (7, 3)).

Lemma traded_core_reachable : reachable traded_core.
Proof.
  apply (reach_message bought_core demo_clk (GatewayOrderReport trade_report)
    [PublishOrderUpdate 11 true false false true; PersistPosition 7 3;
     PublishPositionUpdate 7; PersistOrder 11 false false]); [exact bought_core_reachable|].
  vm_compute. reflexivity.
Qed.

