(* ===== verification/OmsSync.v ===== *)
(** * Synchronisation with the exchange ([oms_core_v2.rs], [utils.rs])

    - balance updates: the cash the funds check sees is what the exchange last
      reported;
    - position updates: the managed position is seeded once and afterwards only
      compared with the exchange;
    - warm start: an order persisted in the v1 format and loaded again. *)

From S2P Require Import Prelude F64 F64Grid Proto Intern Models Reservation Position Balance.
From S2P Require Import Config Metadata MetadataFacts MetadataReload Utils.
From S2P Require Import OrderStore OrderHistory OmsCore OmsSafety Scenario OmsLifecycle.
From S2P Require Import OmsPlacement OmsHolds OmsReports.

(** ** Balances *)

(** The spot entries of an update for one known asset. *)
Definition reports_asset (asset_id : Z) (c : OmsCoreV2) (e : PositionReport) : Prop :=
  OmsCoreV2.is_spot_entry e = true ∧
  OmsCoreV2.lookup_asset (pr_instrument_code e) c = Some asset_id.
#[export] Instance reports_asset_dec asset_id c e : Decision (reports_asset asset_id c e).
Proof. unfold reports_asset. apply _. Defined.

(** Nothing but balances and positions changes. *)
Record sync_frame (c c' : OmsCoreV2) : Prop := {
  sf_frame : frame c c';
  sf_reservations : c_reservations c' = c_reservations c;
}.

#[export] Instance sync_frame_preorder : PreOrder sync_frame.
Proof. split; [done|]. intros c1 c2 c3 [? ?] [? ?]. split; [by etrans|congruence]. Qed.

Lemma lookup_asset_frame asset c c' :
  frame c c' → OmsCoreV2.lookup_asset asset c' = OmsCoreV2.lookup_asset asset c.
Proof. intros [Em _ _]. unfold OmsCoreV2.lookup_asset. by rewrite Em. Qed.

Lemma apply_spot_entry_sync acct ts acc e :
  sync_frame acc.2 (OmsCoreV2.apply_spot_entry acct ts acc e).2.
Proof.
  destruct acc as [acts c]. unfold OmsCoreV2.apply_spot_entry. destruct (_ =? _); [|done].
  destruct (OmsCoreV2.lookup_asset _ _); [|done].
  by destruct (BalanceStoreV2.get_or_create_balance _ _ _).
Qed.

(** One spot entry: the stored balance of the asset it reports. *)
Lemma apply_spot_entry_balance acct ts acc e a asset_id :
  exch_balances (c_balances (OmsCoreV2.apply_spot_entry acct ts acc e).2) !! (a, asset_id) =
  if decide (a = acct ∧ reports_asset asset_id acc.2 e) then
    Some (OmsCoreV2.set_snapshot acct ts e
            (default (mkExchBalanceSnapshot acct "" None default_Balance "" 0)
               (exch_balances (c_balances acc.2) !! (acct, asset_id))))
  else exch_balances (c_balances acc.2) !! (a, asset_id).
Proof.
  destruct acc as [acts c]. cbn [snd]. unfold BalanceStoreV2.get_or_create_balance.
  destruct (decide (a = acct ∧ reports_asset asset_id c e)) as [[-> [Hs Ha]]|Hn];
    unfold OmsCoreV2.apply_spot_entry, BalanceStoreV2.get_or_create_balance.
  - unfold OmsCoreV2.is_spot_entry in Hs. rewrite Hs, Ha. cbn.
    destruct (exch_balances (c_balances c) !! (acct, asset_id)); cbn; by rewrite lookup_insert_eq.
  - destruct (pr_instrument_type e =? SPOT_INSTRUMENT_TYPE) eqn:Hs; [|done].
    destruct (OmsCoreV2.lookup_asset (pr_instrument_code e) c) as [id|] eqn:Ha; [|done].
    assert ((acct, id) ≠ (a, asset_id)) as Hne by (intros [= <- <-]; by apply Hn).
    cbn. destruct (exch_balances (c_balances c) !! (acct, id)); cbn; by rewrite !lookup_insert_ne.
Qed.

(** All spot entries: the last report of an asset decides its balance. *)
Lemma apply_spot_entries_last acct ts entries acc a asset_id :
  let c := acc.2 in
  let c' := (foldl (OmsCoreV2.apply_spot_entry acct ts) acc entries).2 in
  sync_frame c c' ∧
  match last (filter (reports_asset asset_id c) entries) with
  | Some e => a = acct → ∃ snap, exch_balances (c_balances c') !! (a, asset_id) =
                                   Some (OmsCoreV2.set_snapshot acct ts e snap)
  | None => exch_balances (c_balances c') !! (a, asset_id) =
            exch_balances (c_balances c) !! (a, asset_id)
  end ∧
  (a ≠ acct → exch_balances (c_balances c') !! (a, asset_id) =
              exch_balances (c_balances c) !! (a, asset_id)).
Proof.
  induction entries as [|e entries IH] using rev_ind; [done|]. cbv zeta in *.
  rewrite foldl_snoc, filter_app, last_app.
  set (acc1 := foldl _ acc entries) in *. destruct IH as (Hf & Hlast & Hother).
  split; [etrans; [exact Hf|apply apply_spot_entry_sync]|].
  assert (reports_asset asset_id acc1.2 e ↔ reports_asset asset_id acc.2 e) as Hiff.
  { unfold reports_asset. by rewrite (lookup_asset_frame _ _ _ (sf_frame _ _ Hf)). }
  rewrite apply_spot_entry_balance. rewrite filter_cons, filter_nil.
  destruct (decide (reports_asset asset_id acc.2 e)) as [Hr|Hr]; cbn [last].
  - split; [intros ->; rewrite decide_True by (split; [done|by apply Hiff]); by eexists|].
    intros Hne. rewrite decide_False by naive_solver. by apply Hother.
  - rewrite decide_False by (intros [_ ?]; by apply Hr, Hiff). done.
Qed.

Lemma apply_position_entry_sync acct ts acc e :
  yields (OmsCoreV2.apply_position_entry acct ts acc e)
    (λ r, sync_frame acc.2 r.2 ∧ c_balances r.2 = c_balances acc.2).
Proof.
  destruct acc as [acts c]. unfold OmsCoreV2.apply_position_entry.
  destruct (negb _); [|done]. case_match; [|done]. apply yields_bind. intros code _.
  split; done.
Qed.

Lemma apply_position_entries_sync acct ts entries acc :
  yields (for_each (OmsCoreV2.apply_position_entry acct ts) entries acc)
    (λ r, sync_frame acc.2 r.2 ∧ c_balances r.2 = c_balances acc.2).
Proof.
  apply (yields_for_each (λ r : list OmsActionV2 * OmsCoreV2,
    sync_frame acc.2 r.2 ∧ c_balances r.2 = c_balances acc.2)); [done|].
  intros acc1 e [H1 H2]. pose proof (apply_position_entry_sync acct ts acc1 e) as H3.
  destruct (OmsCoreV2.apply_position_entry _ _ _ _) as [r|]; [|done]. destruct H3 as [H3 H4].
  split; [by etrans|by rewrite H4].
Qed.

(** A handled update runs the spot entries and then the position entries. *)
Lemma balance_update_run `{!HashIter Z} clk update first acct c acts c' :
  head (bu_balances update) = Some first →
  OmsCoreV2.resolve_account (pr_exch_account_code first) c = Returns (Some acct) →
  OmsCoreV2.process_balance_update clk update c = Returns (acts, c') →
  let ts := clk 0%nat in
  ∃ acts0 acts1, for_each (OmsCoreV2.apply_position_entry acct ts) (bu_balances update)
    (acts0, (foldl (OmsCoreV2.apply_spot_entry acct ts) ([], c) (bu_balances update)).2) =
    Returns (acts1, c').
Proof.
  intros Hfirst Hacct. unfold OmsCoreV2.process_balance_update.
  destruct (bu_balances update) as [|e0 rest]; [done|]. cbn in Hfirst. injection Hfirst as ->.
  generalize (first :: rest). intros entries. rewrite Hacct. unfold mbind at 1, outcome_bind at 1.
  destruct (foldl _ _ _) as [acts0 c0]. cbn [snd]. intros E.
  match type of E with for_each _ _ (?a, _) ≫= _ = _ => exists a end.
  destruct (for_each _ _ _) as [[acts1 c1]|]; [|done]. cbn in E. injection E as _ <-.
  by exists acts1.
Qed.

(** Balance updates.  When a balance update of a resolvable account is
    handled in a reachable core, the funds check sees for every known asset
    the available quantity of the last spot entry that reports it, or what it
    saw before if none does; no other account, no reservation, no order and no
    metadata changes. *)
Theorem balance_update_last_wins `{!Uppercase, !HashIter string, !HashIter Z, !HashIterOk Z}
    clk update first acct (c : OmsCoreV2) :
  reachable c → head (bu_balances update) = Some first →
  OmsCoreV2.resolve_account (pr_exch_account_code first) c = Returns (Some acct) →
  ∃ actions c', OmsCoreV2.process_message clk (BalanceUpdateMsg update) c = Returns (actions, c') ∧
    sync_frame c c' ∧
    (∀ asset_id, cash_available acct asset_id c' =
       match last (filter (reports_asset asset_id c) (bu_balances update)) with
       | Some e => pr_avail_qty e
       | None => cash_available acct asset_id c
       end) ∧
    ∀ a asset_id, a ≠ acct → cash_available a asset_id c' = cash_available a asset_id c.
Proof.
  intros Hinv%reachable_inv Hfirst Hacct.
  destruct (returns_inv _ _ (message_inv clk (BalanceUpdateMsg update) c Hinv))
    as ([acts c'] & E & _). exists acts, c'. split; [done|]. cbn in E.
  destruct (balance_update_run clk update first acct c acts c' Hfirst Hacct E)
    as (acts0 & acts1 & Epos).
  pose proof (apply_spot_entries_last acct (clk 0%nat) (bu_balances update) ([], c)) as Hlast.
  cbv zeta in Hlast. set (c1 := (foldl _ _ _).2) in *.
  pose proof (apply_position_entries_sync acct (clk 0%nat) (bu_balances update) (acts0, c1)) as Hs.
  rewrite Epos in Hs. destruct Hs as [Hs Hb]. cbn in Hs, Hb. unfold cash_available. rewrite Hb.
  split; [|split].
  - etrans; [apply (proj1 (Hlast 0 0))|exact Hs].
  - intros asset_id. destruct (Hlast acct asset_id) as (_ & Hl & _).
    destruct (last _) as [e|]; cbn [snd] in Hl; [|by rewrite Hl].
    destruct (Hl eq_refl) as [snap ->]. done.
  - intros a asset_id Hne. destruct (Hlast a asset_id) as (_ & _ & Ho). by rewrite Ho.
Qed.

(** Two reports of the same asset: the second one counts. *)
Lemma balance_update_last_wins_witness :
  let update := mkBalanceUpdate
    (bu_balances (demo_balance "USDT" (f64.of_Z 500) (f64.of_Z 400)) ++
     bu_balances (demo_balance "USDT" (f64.of_Z 500) (f64.of_Z 300))) in
  ∃ actions c', OmsCoreV2.process_message demo_clk (BalanceUpdateMsg update) checked_core
    = Returns (actions, c') ∧ cash_available 7 1 c' = f64.of_Z 300.
Proof.
  intros update.
  destruct (balance_update_last_wins demo_clk update
    (default default_PositionReport (head (bu_balances update))) 7 checked_core)
    as (actions & c' & E & _ & H & _).
  - apply demo_core_reachable.
  - reflexivity.
  - vm_compute. reflexivity.
  - exists actions, c'. split; [exact E|]. rewrite H. vm_compute. reflexivity.
Defined.

(** ** Positions *)

(** A position with the quantities and the side of an exchange report. *)
Definition seeded (e : PositionReport) (ts : Z) (p : ManagedPositionV2) : Prop :=
  mp_qty_total p = pr_qty e ∧ mp_qty_available p = pr_avail_qty e ∧
  mp_qty_frozen p = (pr_qty e - pr_avail_qty e)%f64 ∧
  mp_is_short p = (pr_long_short_type e =? LsShort) ∧ mp_last_exch_sync_ts p = ts.

Definition same_holding (p p' : ManagedPositionV2) : Prop :=
  mp_qty_total p' = mp_qty_total p ∧ mp_qty_available p' = mp_qty_available p ∧
  mp_qty_frozen p' = mp_qty_frozen p ∧ mp_is_short p' = mp_is_short p ∧
  mp_last_exch_sync_ts p' = mp_last_exch_sync_ts p.

Lemma reconcile_pos_spec q ts p :
  let p' := PositionStoreV2.reconcile_pos q ts p in
  same_holding p p' ∧ mp_last_exch_qty p' = default f64.zero q ∧
  (mp_reconcile_status p' = InSync ↔
   (f64.abs (mp_qty_total p - default f64.zero q) <? eps9)%f64 = true).
Proof.
  unfold PositionStoreV2.reconcile_pos. cbn -[f64.abs f64.sub f64.ltb].
  destruct (_ <? _)%f64; [done|].
  destruct (bool_decide_reflect (mp_reconcile_status p = InSync)); [done|].
  destruct (bool_decide_reflect (mp_reconcile_status p = Unknown)); [done|]. cbn.
  destruct (_ <=? _); cbn; split_and!; done || by split.
Qed.

(** The store after a reported position: snapshot, seeding, reconciliation. *)
Lemma position_entry_store acct inst ts code e st :
  let key := (acct, inst) in
  let st1 := st <| exch ::= λ m,
    <[key := OmsCoreV2.set_exch_position acct ts code e (m !! key)]> m |> in
  let st' := PositionStoreV2.update_reconcile_status acct inst ts
               (OmsCoreV2.seed_position acct inst ts e st1) in
  (∃ p', managed st' !! key = Some p' ∧
     (if default true ((λ p, mp_last_exch_sync_ts p =? 0) <$> managed st !! key)
      then seeded e ts p' else ∃ p, managed st !! key = Some p ∧ same_holding p p') ∧
     mp_last_exch_qty p' = pr_qty e ∧
     (mp_reconcile_status p' = InSync ↔
      (f64.abs (mp_qty_total p' - pr_qty e) <? eps9)%f64 = true)) ∧
  ∀ k, k ≠ key → managed st' !! k = managed st !! k.
Proof.
  intros key st1 st'.
  set (st2 := OmsCoreV2.seed_position acct inst ts e st1) in *.
  assert (exch st2 !! key = Some (OmsCoreV2.set_exch_position acct ts code e (exch st !! key)))
    as Hex.
  { subst st2. unfold OmsCoreV2.seed_position, PositionStoreV2.get_or_create_position.
    destruct (default _ _); [|apply lookup_insert_eq].
    cbn. fold key. destruct (managed st !! key); apply lookup_insert_eq. }
  assert ((∃ p, managed st2 !! key = Some p ∧
     (if default true ((λ p, mp_last_exch_sync_ts p =? 0) <$> managed st !! key)
      then seeded e ts p else managed st !! key = Some p)) ∧
    ∀ k, k ≠ key → managed st2 !! k = managed st !! k) as [(p & Hp & Hseed) Hoth].
  { subst st2. unfold OmsCoreV2.seed_position, PositionStoreV2.get_or_create_position.
    cbn. fold key. destruct (managed st !! key) as [p|] eqn:Ep; cbn.
    - destruct (_ =? 0); cbn; [|by split; [exists p|]]. split.
      + eexists. by rewrite lookup_insert_eq.
      + intros k Hk. by rewrite lookup_insert_ne.
    - split.
      + eexists. by rewrite lookup_insert_eq.
      + intros k Hk. by rewrite !lookup_insert_ne. }
  assert (st' = st2 <| managed ::= <[key := PositionStoreV2.reconcile_pos (Some (pr_qty e)) ts p]> |>)
    as ->.
  { unfold st', PositionStoreV2.update_reconcile_status. fold key. by rewrite Hp, Hex. }
  destruct (reconcile_pos_spec (Some (pr_qty e)) ts p) as (Hsame & Hq & Hst). split.
  - eexists. split; [apply lookup_insert_eq|]. split_and!; [|done|by rewrite (proj1 Hsame)].
    destruct (default _ _); [|by exists p].
    unfold seeded, same_holding in *. intuition congruence.
  - intros k Hk. cbn. rewrite lookup_insert_ne by done. by apply Hoth.
Qed.

(** Positions are seeded once.  A reported position of a resolvable
    instrument is taken over into the managed position only when that one is
    new or has never been synchronised; a position that was synchronised before
    keeps its quantities and side.  In both cases the reported quantity is
    recorded, the position is in sync exactly when its total is within [1e-9]
    of it, the position is persisted, and no other position changes. *)
Theorem position_sync_seeds_once `{!Uppercase, !HashIter string, !HashIter Z, !HashIterOk Z}
    acct ts actions (c : OmsCoreV2) e route inst :
  reachable c → OmsCoreV2.is_spot_entry e = false →
  MetadataTables.route acct (c_metadata c) = Some route →
  MetadataTables.resolve_instrument_by_gw (rtm_gw_id route) (pr_instrument_code e)
    (c_metadata c) = Some inst →
  let key := (acct, im_instrument_id inst) in
  ∃ c', OmsCoreV2.apply_position_entry acct ts (actions, c) e
      = Returns (actions ++ [PersistPosition acct (im_instrument_id inst)], c') ∧
    sync_frame c c' ∧
    (∃ p', managed (c_positions c') !! key = Some p' ∧
       (if default true ((λ p, mp_last_exch_sync_ts p =? 0) <$> managed (c_positions c) !! key)
        then seeded e ts p'
        else ∃ p, managed (c_positions c) !! key = Some p ∧ same_holding p p') ∧
       mp_last_exch_qty p' = pr_qty e ∧
       (mp_reconcile_status p' = InSync ↔
        (f64.abs (mp_qty_total p' - pr_qty e) <? eps9)%f64 = true)) ∧
    ∀ k, k ≠ key → managed (c_positions c') !! k = managed (c_positions c) !! k.
Proof.
  intros Hinv%reachable_inv Hspot Hr Hi key.
  destruct (returns_inv _ _ (apply_position_entry_safe acct ts c (actions, c) e (ci_wf c Hinv)
    (reflexivity c))) as ([acts c'] & E & _).
  pose proof (apply_position_entry_sync acct ts (actions, c) e) as Hs. rewrite E in Hs.
  unfold OmsCoreV2.is_spot_entry in Hspot. pose proof E as E0.
  unfold OmsCoreV2.apply_position_entry in E0. rewrite Hspot, Hr in E0. cbn [negb] in E0.
  unfold mbind, option_bind in E0. rewrite Hi in E0.
  destruct (MetadataTables.str_resolve _ _) as [code|]; [|done].
  cbn -[PositionStoreV2.update_reconcile_status OmsCoreV2.seed_position] in E0.
  injection E0 as <- <-. eexists. split; [exact E|]. split; [apply Hs|].
  apply position_entry_store.
Qed.

Definition demo_holding : PositionReport :=
  default_PositionReport <| pr_instrument_code := "BTCPERP" |>
    <| pr_instrument_type := InstTypePerp |> <| pr_exch_account_code := "EX7" |>
    <| pr_qty := f64.of_Z 5 |> <| pr_avail_qty := f64.of_Z 3 |>.

Lemma position_sync_seeds_once_witness :
  ∃ c' p', OmsCoreV2.apply_position_entry 7 9 ([], checked_core) demo_holding
      = Returns ([PersistPosition 7 1], c') ∧
    managed (c_positions c') !! (7, 1) = Some p' ∧ seeded demo_holding 9 p' ∧
    mp_reconcile_status p' = InSync.
Proof.
  destruct (MetadataTables.route 7 (c_metadata checked_core)) as [route|] eqn:Hr;
    [|vm_compute in Hr; discriminate].
  destruct (MetadataTables.resolve_instrument_by_gw (rtm_gw_id route) "BTCPERP"
    (c_metadata checked_core)) as [inst|] eqn:Hi.
  2: { vm_compute in Hr. injection Hr as <-. vm_compute in Hi. discriminate. }
  assert (im_instrument_id inst = 1) as Eid.
  { vm_compute in Hr. injection Hr as <-. vm_compute in Hi. injection Hi as <-. reflexivity. }
  destruct (position_sync_seeds_once 7 9 [] checked_core demo_holding route inst)
    as (c' & E & _ & (p' & Hp & Hs & _ & Hst) & _).
  - apply demo_core_reachable.
  - reflexivity.
  - exact Hr.
  - exact Hi.
  - rewrite Eid in *. exists c', p'.
    assert (seeded demo_holding 9 p') as Hseed by (vm_compute in Hs; exact Hs).
    split_and!; [exact E|exact Hp|exact Hseed|].
    apply Hst. rewrite (proj1 Hseed). vm_compute. reflexivity.
Defined.

(** ** Warm start *)

(** The fields of an order the v1 record carries over. *)
Definition carried (l : LiveOrder)
    : Z * Z * Z * Z * Z * Z * Z * f64 * f64 * f64 * f64 * f64 * f64 * Z * Z * bool * Z * message :=
  (lo_order_id l, lo_account_id l, lo_instrument_id l, lo_gw_id l, lo_order_status l,
   lo_buy_sell_type l, lo_open_close_type l, lo_price l, lo_qty l, lo_filled_qty l,
   lo_filled_avg_price l, lo_acc_trades_filled_qty l, lo_acc_trades_value l,
   lo_created_at l, lo_updated_at l, lo_is_external l, lo_cancel_attempts l, lo_error_msg l).

(** The restarted core [c0] gives the names of the order the same ids. *)
Definition names_agree (l : LiveOrder) (c c0 : OmsCoreV2) : Prop :=
  (∃ code, OmsCoreV2.instrument_code (lo_instrument_id l) c = Returns code ∧
     im_instrument_id <$> MetadataTables.resolve_instrument code (c_metadata c0) =
       Some (lo_instrument_id l)) ∧
  (∃ key, OmsCoreV2.gw_key (lo_gw_id l) c = Returns (Some key) ∧
     OmsCoreV2.resolve_gw key c0 = Some (lo_gw_id l)).

Lemma wrap_u32_i32 n : 0 ≤ n < 2 ^ 32 → wrap_u32 (wrap_i32 n) = n.
Proof.
  intros Hn. unfold wrap_u32, wrap_i32.
  change (2 ^ 32) with 4294967296 in *. change (2 ^ 31) with 2147483648.
  rewrite Zminus_mod_idemp_l. replace (n + 2147483648 - 2147483648) with n by lia.
  by apply Z.mod_small.
Qed.

(** The persisted form of a stored order. *)
Lemma build_v1_order_spec oid c l d :
  core_wf c → OrderStoreV2.get_live_and_detail oid (c_orders c) = Some (l, d) →
  ∃ v1, OmsCoreV2.build_v1_order oid c = Returns v1 ∧
    oo_order_id v1 = oid ∧
    (∀ code, OmsCoreV2.instrument_code (lo_instrument_id l) c = Returns code →
       ord_instrument (oo_order_state v1) = code) ∧
    (∀ key, OmsCoreV2.gw_key (lo_gw_id l) c = Returns (Some key) →
       ord_gw_key (oo_order_state v1) = key) ∧
    wrap_u32 (ord_snapshot_version (oo_order_state v1)) =
      wrap_u32 (wrap_i32 (lo_snapshot_version l)) ∧
    match lo_exch_order_ref_id l with
    | Some id => ∃ s, DynStringTable.resolve (os_dyn_strings (c_orders c)) id = Returns s ∧
                      oo_exch_order_ref v1 = Some s
    | None => oo_exch_order_ref v1 = None
    end ∧
    (∀ inst gw route src ref,
       carried (OmsCoreV2.v1_live v1 inst gw route src ref) =
       carried (l <| lo_instrument_id := inst |> <| lo_gw_id := gw |>)) ∧
    mkOrderDetailLog oid (oo_oms_req v1) (oo_gw_req v1) (oo_cancel_req v1) (oo_trades v1)
      (oo_order_inferred_trades v1) (oo_exec_msgs v1) (oo_fees v1) = d <| dl_order_id := oid |>.
Proof.
  intros [Hm Ho] Hb. destruct (get_both_Some _ _ _ Hb) as [Hl Hd]. cbn in Hl, Hd.
  assert (∃ r, match lo_exch_order_ref_id l with
    | Some id => s ← DynStringTable.resolve (os_dyn_strings (c_orders c)) id; mret (Some s)
    | None => mret None end = Returns r ∧
    match lo_exch_order_ref_id l with
    | Some id => ∃ s, DynStringTable.resolve (os_dyn_strings (c_orders c)) id = Returns s ∧ r = Some s
    | None => r = None end) as (r & Er & Hr).
  { destruct (lo_exch_order_ref_id l) as [id|] eqn:Eid; [|by exists None].
    destruct (dyn_resolves _ _ (ow_ref _ Ho _ _ _ Hl Eid)) as [s Es]. exists (Some s).
    rewrite Es. split; [done|]. by exists s. }
  unfold OmsCoreV2.build_v1_order, OrderStoreV2.get_live, OrderStoreV2.get_detail.
  rewrite Hl, Hd. cbn -[OmsCoreV2.build_proto_order]. rewrite Er. cbn -[OmsCoreV2.build_proto_order].
  unfold OmsCoreV2.build_proto_order.
  destruct (returns_inv _ _ (instrument_code_returns (lo_instrument_id l) c Hm)) as (code & -> & _).
  cbn -[OmsCoreV2.gw_key OmsCoreV2.resolve_exch_ref].
  assert (∃ x, match MetadataTables.instrument (lo_instrument_id l) (c_metadata c) with
    | Some i => MetadataTables.str_resolve (im_instrument_exch_sym i) (c_metadata c)
    | None => mret "" end = Returns x) as [x ->].
  { unfold MetadataTables.instrument. destruct (md_instruments _ !! _) as [im|] eqn:E; [|by eexists].
    apply list_elem_of_lookup_2 in E. destruct (mb_insts _ _ (ms_bounded _ Hm) im E) as [_ He].
    by destruct (sym_resolves _ _ He) as [s ->]; exists s. }
  destruct (returns_inv _ _ (gw_key_returns (lo_gw_id l) c Hm)) as (gw & -> & _).
  destruct (returns_inv _ _ (resolve_exch_ref_returns _ _ _ Ho Hl)) as (er & -> & _).
  cbn. eexists. split; [reflexivity|]. cbn. pose proof (ow_id _ Ho _ _ Hl) as Hid.
  split_and!; [done|congruence|by intros key [= ->]|done| |done|by destruct d].
  destruct (lo_exch_order_ref_id l); [|done]. destruct Hr as (s & Hs & ->). by exists s.
Qed.

(** Loading one v1 order: what [init_v1_order] stores. *)
Lemma init_v1_order_stores c0 v1 inst gw :
  table_wf (os_dyn_strings (c_orders c0)) →
  Z.of_nat (length (dyn_strs_by_id (os_dyn_strings (c_orders c0)))) < 2 ^ 32 →
  oo_order_id v1 ≠ 0 →
  im_instrument_id <$> MetadataTables.resolve_instrument (ord_instrument (oo_order_state v1))
    (c_metadata c0) = Some inst →
  OmsCoreV2.resolve_gw (ord_gw_key (oo_order_state v1)) c0 = Some gw →
  let c1 := OmsCoreV2.init_v1_order c0 v1 in
  ∃ route src ref l,
    os_live (c_orders c1) !! oo_order_id v1 = Some l ∧
    (l = OmsCoreV2.v1_live v1 inst gw route src ref ∨
     l = (OmsCoreV2.v1_live v1 inst gw route src ref)
           <| lo_terminal_at := Some (ord_updated_at (oo_order_state v1)) |>) ∧
    os_detail (c_orders c1) !! oo_order_id v1 =
      Some (mkOrderDetailLog (oo_order_id v1) (oo_oms_req v1) (oo_gw_req v1) (oo_cancel_req v1)
              (oo_trades v1) (oo_order_inferred_trades v1) (oo_exec_msgs v1) (oo_fees v1)) ∧
    (is_in_terminal_state l = false → oo_order_id v1 ∈ os_open_order_ids (c_orders c1)) ∧
    match oo_exch_order_ref v1 with
    | Some s => ∃ id, ref = Some id ∧
        DynStringTable.resolve (os_dyn_strings (c_orders c1)) id = Returns s ∧
        OrderStoreV2.resolve_order_id 0 gw s (c_orders c1) = Some (oo_order_id v1)
    | None => ref = None
    end.
Proof.
  intros Hdyn Hlen Hne Hinst Hgw. unfold OmsCoreV2.init_v1_order, OmsCoreV2.convert_v1_order.
  rewrite Hinst, Hgw. cbn [from_option]. change (id inst) with inst. change (id gw) with gw.
  set (r1 := if is_empty (ord_source_id (oo_order_state v1)) then _ else _).
  assert (c_orders r1.2 = c_orders c0) as Eo.
  { subst r1. destruct (is_empty _); [done|]. by destruct (MetadataTables.intern _ _). }
  destruct r1 as [src c1]. cbn in Eo. set (route := default 0 _).
  set (r2 := match oo_exch_order_ref v1 with Some r => _ | None => _ end).
  assert (match oo_exch_order_ref v1 with
    | Some s => ∃ id, r2.1 = Some id ∧
        DynStringTable.resolve (os_dyn_strings (c_orders r2.2)) id = Returns s ∧
        DynStringTable.lookup (os_dyn_strings (c_orders r2.2)) s = Some id
    | None => r2.1 = None end) as Hr2.
  { subst r2. destruct (oo_exch_order_ref v1) as [s|]; [|done]. rewrite Eo.
    destruct (intern_lookup s _ Hdyn Hlen) as [Hres Hidx]. unfold st_resolve in Hres. cbn in Hres, Hidx.
    destruct (DynStringTable.intern s (os_dyn_strings (c_orders c0))) as [id dyn]. cbn in *.
    exists id. unfold DynStringTable.resolve, DynStringTable.try_resolve. by rewrite Hres. }
  destruct r2 as [ref c2]. cbn in Hr2.
  set (live := OmsCoreV2.v1_live v1 inst gw route src ref). cbv beta iota zeta.
  set (l := if is_in_terminal_state live && _ then _ else live).
  assert (l = live ∨ l = live <| lo_terminal_at := Some (ord_updated_at (oo_order_state v1)) |>) as Hl
    by (subst l; destruct (_ && _); auto).
  assert (lo_order_id l = oo_order_id v1 ∧ lo_exch_order_ref_id l = ref ∧ lo_gw_id l = gw)
    as (Hid & Href & Hlg) by (by destruct Hl as [->| ->]).
  exists route, src, ref, l. cbn -[is_in_terminal_state live].
  unfold OrderStoreV2.init_order. rewrite Hid, Href, (proj2 (Z.eqb_neq _ _)) by done.
  split_and!; [|done| | |]; cbn -[is_in_terminal_state live].
  - by rewrite lookup_insert_eq.
  - by rewrite lookup_insert_eq.
  - intros ->. cbn. destruct ref; cbn; set_solver.
  - destruct (oo_exch_order_ref v1) as [s|]; [|done]. destruct Hr2 as (id & -> & Hres & Hidx).
    exists id. unfold OrderStoreV2.resolve_order_id, DynStringTable.lookup in *. cbn. rewrite Hlg.
    destruct (is_in_terminal_state l); cbn; rewrite Hidx; cbn; by rewrite lookup_insert_eq.
Qed.

(** Warm start.  Every stored order can be persisted in the v1 format; when
    a core that gives its instrument and gateway names the same ids loads it,
    the order is back with its account, instrument, gateway, status, side,
    price, quantities, averages, timestamps, attempts and error, with its whole
    detail log and its snapshot version; it is open unless terminal, and its
    exchange reference resolves to it.  Its accounting flags are not: the
    restored order has none, so its fills no longer move positions. *)
Theorem warm_start_restores `{!Uppercase, !HashIter string, !HashIter Z, !HashIterOk Z}
    (c c0 : OmsCoreV2) oid l d :
  reachable c → OrderStoreV2.get_live_and_detail oid (c_orders c) = Some (l, d) → oid ≠ 0 →
  0 ≤ lo_snapshot_version l < 2 ^ 32 → names_agree l c c0 →
  table_wf (os_dyn_strings (c_orders c0)) →
  Z.of_nat (length (dyn_strs_by_id (os_dyn_strings (c_orders c0)))) < 2 ^ 32 →
  ∃ v1, OmsCoreV2.build_v1_order oid c = Returns v1 ∧
  let c1 := OmsCoreV2.init_state [v1] [] [] c0 in
  ∃ l', OrderStoreV2.get_live_and_detail oid (c_orders c1) = Some (l', d <| dl_order_id := oid |>) ∧
    carried l' = carried l ∧ lo_snapshot_version l' = lo_snapshot_version l ∧
    (is_in_terminal_state l = false → oid ∈ os_open_order_ids (c_orders c1)) ∧
    (∀ id, lo_exch_order_ref_id l = Some id → ∃ s id',
       DynStringTable.resolve (os_dyn_strings (c_orders c)) id = Returns s ∧
       lo_exch_order_ref_id l' = Some id' ∧
       DynStringTable.resolve (os_dyn_strings (c_orders c1)) id' = Returns s ∧
       OrderStoreV2.resolve_order_id 0 (lo_gw_id l) s (c_orders c1) = Some oid) ∧
    lo_accounting_flags l' = default_OrderAccountingFlags.
Proof.
  intros [Hwf _]%reachable_inv Hb Hne Hsv [(code & Hcode & Hinst) (key & Hkey & Hgw)] Hdyn Hlen.
  destruct (build_v1_order_spec oid c l d Hwf Hb)
    as (v1 & Ev & Hid & Hc & Hk & Hver & Href & Hcar & Hdet).
  exists v1. split; [done|]. rewrite <- (Hc code Hcode) in Hinst. rewrite <- (Hk key Hkey) in Hgw.
  rewrite <- Hid in Hne. destruct (init_v1_order_stores c0 v1 _ _ Hdyn Hlen Hne Hinst Hgw)
    as (route & src & ref & l' & Hl' & Hl & Hd' & Hop & Hr). rewrite Hid in *.
  assert (carried l' = carried l ∧ lo_snapshot_version l' = lo_snapshot_version l ∧
    lo_exch_order_ref_id l' = ref ∧ lo_accounting_flags l' = default_OrderAccountingFlags)
    as (Ec & Es & Er & Ef).
  { specialize (Hcar (lo_instrument_id l) (lo_gw_id l) route src ref).
    rewrite wrap_u32_i32 in Hver by done. destruct Hl as [->| ->]; (split; [exact Hcar|done]). }
  exists l'. cbn -[OmsCoreV2.init_v1_order]. split_and!; try done.
  - unfold OrderStoreV2.get_live_and_detail. rewrite Hl', Hd'. cbn. by rewrite <- Hdet.
  - intros Ht. apply Hop. unfold is_in_terminal_state in *. injection Ec as _ _ _ _ -> _. done.
  - intros id0 Hid0. rewrite Hid0 in Href. destruct Href as (s & Hs & Hv). rewrite Hv in Hr.
    destruct Hr as (id' & -> & H1 & H2). by exists s, id'.
Qed.

(** The covered order, linked to an exchange reference. *)
Definition linked_msg : OmsMessage := GatewayOrderReport (demo_report 11 [linkage_entry "X-1"]).
Definition warm_core : OmsCoreV2 :=
  Eval vm_compute in
  match OmsCoreV2.process_message demo_clk linked_msg bought_core with
  | Returns (_, c) => c
  | Panics _ => checked_core
  end.

Lemma warm_core_reachable : reachable warm_core.
Proof.
  apply (reach_message bought_core demo_clk linked_msg
    [PublishOrderUpdate 11 false false false false; PersistOrder 11 false false]);
    [exact bought_core_reachable|]. vm_compute. reflexivity.
Qed.

Lemma warm_start_restores_witness :
  ∃ v1, OmsCoreV2.build_v1_order 11 warm_core = Returns v1 ∧
    OrderStoreV2.resolve_order_id 0 0 "X-1"
      (c_orders (OmsCoreV2.init_state [v1] [] [] checked_core)) = Some 11.
Proof.
  destruct (OrderStoreV2.get_live_and_detail 11 (c_orders warm_core)) as [[l d]|] eqn:E;
    [|vm_compute in E; discriminate].
  assert (lo_exch_order_ref_id l = Some 0 ∧ lo_snapshot_version l = 2 ∧ lo_gw_id l = 0 ∧
    lo_instrument_id l = 0) as (Eref & Ever & Egw & Einst).
  { vm_compute in E. injection E as <- <-. by vm_compute. }
  destruct (warm_start_restores warm_core checked_core 11 l d warm_core_reachable E)
    as (v1 & Ev & l' & _ & _ & _ & _ & Hr & _).
  - discriminate.
  - rewrite Ever. lia.
  - unfold names_agree. rewrite Einst, Egw. split.
    + exists "BTC-USDT". by vm_compute.
    + exists "GW1". by vm_compute.
  - apply table_wf_empty; reflexivity.
  - vm_compute. reflexivity.
  - exists v1. split; [exact Ev|]. destruct (Hr 0 Eref) as (s & id' & Hs & _ & _ & Hres).
    rewrite Egw in Hres. vm_compute in Hs. injection Hs as <-. exact Hres.
Defined.
