(* ===== verification/OmsTracked.v ===== *)
(** * What the emitted actions say about the orders ([oms_core_v2.rs])

    The core does not hand its order store out: the service learns of a change
    from the actions.  [announced] states that they are enough: after a message,
    the last [PersistOrder] of an order carries whether it is terminal, and an
    order without one is as open or as terminal as before, or was created
    rejected or for an external reference. *)

From S2P Require Import Prelude F64 Proto Intern Models Reservation Position Balance.
From S2P Require Import Config Metadata MetadataFacts Utils OrderStore OrderHistory OmsCore OmsSafety.
From S2P Require Import OmsReports OmsHolds.

(** The [set_closed] of the last [PersistOrder] of an order. *)
Definition persist_flag (oid : Z) (act : OmsActionV2) : option bool :=
  match act with
  | PersistOrder order_id _ set_closed => if decide (order_id = oid) then Some set_closed else None
  | _ => None
  end.
Fixpoint last_persist (oid : Z) (acts : list OmsActionV2) : option bool :=
  match acts with
  | [] => None
  | act :: acts =>
      match last_persist oid acts with Some b => Some b | None => persist_flag oid act end
  end.

Lemma last_persist_app oid l1 l2 :
  last_persist oid (l1 ++ l2) =
  match last_persist oid l2 with Some b => Some b | None => last_persist oid l1 end.
Proof.
  induction l1 as [|act l1 IH]; simpl; [by destruct (last_persist oid l2)|].
  rewrite IH. by destruct (last_persist oid l2).
Qed.

(** Whether an order is terminal, its account, and whether it is external. *)
Definition facet (l : LiveOrder) : bool * Z * bool :=
  (is_in_terminal_state l, lo_account_id l, lo_is_external l).

Notation live_at c oid := (os_live (c_orders c) !! oid).

Record announced (created : Z → Prop) (acts : list OmsActionV2) (c c' : OmsCoreV2) : Prop := {
  an_order oid l' : live_at c' oid = Some l' →
    match last_persist oid acts with
    | Some closed => is_in_terminal_state l' = closed
    | None => (∃ l, live_at c oid = Some l ∧ facet l' = facet l) ∨
              (created oid ∧ (is_in_terminal_state l' = true ∨ lo_is_external l' = true))
    end;
  an_known oid : is_Some (last_persist oid acts) → is_Some (live_at c oid) ∨ created oid;
}.

Section one.
Implicit Types (c : OmsCoreV2).

(** A step that keeps every stored order. *)
Lemma announced_frame_live created acts c c' :
  os_live (c_orders c') = os_live (c_orders c) → (∀ oid, last_persist oid acts = None) →
  announced created acts c c'.
Proof.
  intros Eo Ha. split; intros oid; rewrite Ha.
  - intros l'. rewrite Eo. intros Hl. left. by exists l'.
  - by intros [? ?].
Qed.

Lemma announced_frame created acts c c' :
  c_orders c' = c_orders c → (∀ oid, last_persist oid acts = None) → announced created acts c c'.
Proof. intros Eo. apply announced_frame_live. by rewrite Eo. Qed.

(** All orders but one are as before, or evicted. *)
Definition others_same (oid : Z) (c c' : OmsCoreV2) : Prop :=
  ∀ o l, o ≠ oid → live_at c' o = Some l → live_at c o = Some l.

#[export] Instance others_same_preorder oid : PreOrder (others_same oid).
Proof. split; [by intros c o l|]. intros c1 c2 c3 H1 H2 o l Ho Hl. by apply H1, H2. Qed.

(** A step about one order. *)
Lemma announced_one (created : Z → Prop) oid acts c c' :
  others_same oid c c' → (∀ o, o ≠ oid → last_persist o acts = None) →
  (is_Some (last_persist oid acts) → is_Some (live_at c oid) ∨ created oid) →
  (∀ l', live_at c' oid = Some l' →
     match last_persist oid acts with
     | Some closed => is_in_terminal_state l' = closed
     | None => (∃ l, live_at c oid = Some l ∧ facet l' = facet l) ∨
               (created oid ∧ (is_in_terminal_state l' = true ∨ lo_is_external l' = true))
     end) →
  announced created acts c c'.
Proof.
  intros Ho Ha Hk Hl. split; intros o; destruct (decide (o = oid)) as [->|Hne]; try done.
  - intros l' Hl'. rewrite Ha by done. left. exists l'. split; [by apply Ho|done].
  - rewrite Ha by done. by intros [? ?].
Qed.

Lemma announced_weaken (P Q : Z → Prop) acts c c' :
  (∀ oid, P oid → Q oid) → announced P acts c c' → announced Q acts c c'.
Proof.
  intros HPQ [H1 H2]. split.
  - intros oid l' Hl'. specialize (H1 oid l' Hl'). destruct (last_persist oid acts); [done|].
    destruct H1 as [|[]]; [by left|right; auto].
  - intros oid Hs. destruct (H2 oid Hs); auto.
Qed.

Lemma announced_live created acts c c' oid :
  announced created acts c c' → is_Some (live_at c' oid) → is_Some (live_at c oid) ∨ created oid.
Proof.
  intros [A K] [l' Hl']. specialize (A oid l' Hl'). destruct (last_persist oid acts) eqn:E.
  - apply K. by rewrite E.
  - destruct A as [(l & Hl & _)|[? _]]; [left; by exists l|by right].
Qed.

(** In sequence; what the second creates the first neither had nor created. *)
Lemma announced_seq (P Q : Z → Prop) acts1 acts2 c1 c2 c3 :
  (∀ oid, Q oid → live_at c1 oid = None ∧ ¬ P oid) →
  announced P acts1 c1 c2 → announced Q acts2 c2 c3 →
  announced (λ oid, P oid ∨ Q oid) (acts1 ++ acts2) c1 c3.
Proof.
  intros Hfresh H1 [A2 K2].
  pose proof (λ oid, announced_live _ _ _ _ oid H1) as Hlive. destruct H1 as [A1 K1]. split; intros oid.
  - intros l3 Hl3. specialize (A2 oid l3 Hl3). rewrite last_persist_app.
    destruct (last_persist oid acts2); [done|]. destruct A2 as [(l2 & Hl2 & Ef)|[HQ Ht]].
    + specialize (A1 oid l2 Hl2). injection Ef as Et Eacc Eext.
      destruct (last_persist oid acts1); [by rewrite Et|].
      destruct A1 as [(l1 & Hl1 & Ef)|[HP Ht]].
      * left. exists l1. split; [done|]. rewrite <- Ef. unfold facet. congruence.
      * right. split; [by left|]. by rewrite Et, Eext.
    + destruct (last_persist oid acts1) eqn:E1; [|right; split; [by right|done]].
      destruct (Hfresh oid HQ) as [Hn HnP]. destruct (K1 oid) as [[l Hl]|?]; [by rewrite E1|congruence|done].
  - rewrite last_persist_app. destruct (last_persist oid acts2) eqn:E2; intros Hs.
    + destruct (K2 oid) as [Hl|HQ]; [by rewrite E2| |by right; right].
      destruct (Hlive oid Hl); [by left|by right; left].
    + destruct (K1 oid Hs); [by left|by right; left].
Qed.
End one.

(** ** Handlers about one order *)

Section handlers.
Implicit Types (c : OmsCoreV2).

(** Writing one order. *)
Lemma others_put oid both c : others_same oid c (OmsCoreV2.put_both oid both c).
Proof. intros o l Hne. cbn. by rewrite lookup_insert_ne. Qed.
Lemma others_update f oid c : others_same oid c (c <| c_orders ::= OrderStoreV2.update_live f oid |>).
Proof. intros o l Hne. cbn. by rewrite lookup_alter_ne. Qed.
Lemma others_closed oid c : others_same oid c (c <| c_orders ::= OrderStoreV2.mark_closed oid |>).
Proof. intros o l _. apply mark_closed_live. Qed.
Lemma others_eq oid c c' : c_orders c' = c_orders c → others_same oid c c'.
Proof. intros E o l _. by rewrite E. Qed.

(** The order an OMS error leaves. *)
Lemma oms_error_order oid msg ts ty rej orders :
  yields (OmsCoreV2.oms_error oid msg ts ty rej orders) (λ orders',
    ∃ l, os_live orders !! oid = Some l ∧
    (∀ o, o ≠ oid → os_live orders' !! o = os_live orders !! o) ∧
    ∃ l', os_live orders' !! oid = Some l' ∧
      match ty with PlacingOrder => is_in_terminal_state l' = true | _ => facet l' = facet l end).
Proof.
  unfold OmsCoreV2.oms_error, OrderStoreV2.get_live_and_detail.
  destruct (os_live orders !! oid) as [l|] eqn:El; [|done]. cbn.
  destruct (os_detail orders !! oid) as [d|]; [|done]. cbn.
  exists l. split; [done|]. split; [intros o Hne; by rewrite lookup_insert_ne|].
  rewrite lookup_insert_eq. eexists. split; [done|].
  destruct ty; cbn; try done. by destruct (lo_terminal_at l).
Qed.

Lemma send_failed_announced clk oid msg c :
  yields (OmsCoreV2.process_gateway_send_failed clk oid msg c)
    (λ r, announced none_created r.1 c r.2).
Proof.
  unfold OmsCoreV2.process_gateway_send_failed, OrderStoreV2.get_live.
  destruct (live_at c oid) as [l|] eqn:El; [|by apply announced_frame].
  destruct (is_in_terminal_state l); [by apply announced_frame|].
  apply yields_bind. intros orders E. pose proof (oms_error_order oid (text ("gateway send failed: " +:+ msg))
    (clk 0%nat) PlacingOrder (oms_rejection RejReasonOmsInternalError) (c_orders c)) as H.
  rewrite E in H. destruct H as (l0 & _ & Ho & l' & Hl' & Ht). cbn -[OmsCoreV2.unfreeze_remaining].
  set (c1 := c <| c_orders := _ |> <| c_reservations ::= _ |>).
  destruct (unfreeze_remaining_frame oid (lo_account_id l) (lo_accounting_flags l) c1) as [[_ Eo _] _].
  apply (announced_one _ oid); simpl.
  - intros o x Hne. rewrite Eo. intros Hx%mark_closed_live. by rewrite Ho in Hx.
  - intros o Hne. by rewrite decide_False.
  - rewrite El. by left.
  - intros x. rewrite Eo, decide_True by done. intros Hx%mark_closed_live. congruence.
Qed.

Lemma cancel_failed_announced clk oid msg c :
  yields (OmsCoreV2.process_gateway_cancel_send_failed clk oid msg c)
    (λ r, announced none_created r.1 c r.2).
Proof.
  unfold OmsCoreV2.process_gateway_cancel_send_failed, OrderStoreV2.get_live.
  destruct (live_at c oid) as [l|] eqn:El; [|by apply announced_frame].
  destruct (is_in_terminal_state l) eqn:Et; [by apply announced_frame|].
  apply yields_bind. intros orders E.
  pose proof (oms_error_order oid (text ("gateway cancel send failed: " +:+ msg))
    (clk 0%nat) Cancel (oms_rejection RejReasonOmsInternalError) (c_orders c)) as H.
  rewrite E in H. destruct H as (l0 & Hl0 & Ho & l' & Hl' & Ht).
  apply (announced_one _ oid); simpl.
  - intros o x Hne Hx. by rewrite Ho in Hx.
  - intros o Hne. by rewrite decide_False.
  - rewrite El. by left.
  - intros x Hx. rewrite decide_True by done. injection Ht as Ht _ _. congruence.
Qed.

Lemma cancel_announced clk req c :
  yields (OmsCoreV2.process_cancel clk req c) (λ r, announced none_created r.1 c r.2).
Proof.
  unfold OmsCoreV2.process_cancel, OrderStoreV2.get_live. set (oid := creq_order_id req).
  destruct (validate_cancel_request req); [|by apply announced_frame].
  destruct (live_at c oid) as [l|] eqn:El; [|by apply announced_frame].
  apply yields_bind. intros ref _. destruct (lo_is_external l); [by apply announced_frame|].
  destruct (is_in_terminal_state l) eqn:Et.
  - apply yields_bind. intros orders E. pose proof (oms_error_order oid (text "cannot cancel terminal order")
      (OmsCoreV2.timestamp c (creq_timestamp req) (clk 0%nat)) Cancel
      (oms_rejection RejReasonOmsInternalError) (c_orders c)) as H.
    rewrite E in H. destruct H as (l0 & Hl0 & Ho & l' & Hl' & Ht).
    apply (announced_one _ oid); simpl; [|done|by intros [? ?]|].
    + intros o x Hne Hx. by rewrite Ho in Hx.
    + intros x Hx. left. exists l0. split; [done|]. congruence.
  - apply yields_bind. intros ? _. apply (announced_one _ oid); simpl; [|done|by intros [? ?]|].
    + intros o x Hne. cbn. by rewrite lookup_alter_ne.
    + intros x. cbn. rewrite lookup_alter_eq, El. intros [= <-]. left. by exists l.
Qed.
End handlers.

(** ** Placement *)

Section placement.
Implicit Types (c : OmsCoreV2).

Lemma reject_announced now req meta flags msg ts reason c c0 :
  c_orders c = c_orders c0 →
  yields (OmsCoreV2.reject_order now req meta flags msg ts reason c)
    (λ r, announced (eq (req_order_id req)) r.1 c0 r.2).
Proof.
  intros E0. unfold OmsCoreV2.reject_order. apply yields_bind. intros orders E.
  pose proof (oms_error_order (req_order_id req) msg ts PlacingOrder (oms_rejection reason)
    (OrderStoreV2.create_order now (req_order_id req) req meta flags None (c_orders c))) as H.
  rewrite E in H. destruct H as (_ & _ & Ho & l' & Hl' & Ht).
  apply (announced_one _ (req_order_id req)); simpl; [|done|by intros [? ?]|].
  - intros o x Hne Hx%mark_closed_live. rewrite Ho in Hx by done. cbn in Hx.
    by rewrite lookup_insert_ne, E0 in Hx.
  - intros x Hx%mark_closed_live. right. split; [done|]. left. congruence.
Qed.

Lemma accept_announced clk req meta ts c c0 :
  c_orders c = c_orders c0 →
  yields (OmsCoreV2.accept_order clk req meta ts c)
    (λ r, announced (eq (req_order_id req)) r.1 c0 r.2).
Proof.
  intros E0. unfold OmsCoreV2.accept_order. apply yields_bind. intros gw_req _.
  apply (announced_one _ (req_order_id req)); simpl.
  - intros o x Hne. cbn. by rewrite lookup_alter_ne, lookup_insert_ne, E0.
  - intros o Hne. by rewrite decide_False.
  - by right.
  - intros x. rewrite decide_True, lookup_alter_eq, lookup_insert_eq by done. by intros [= <-].
Qed.

Lemma order_announced clk req c :
  yields (OmsCoreV2.process_order clk req c) (λ r, announced (eq (req_order_id req)) r.1 c r.2).
Proof.
  unfold OmsCoreV2.process_order.
  destruct (validate_order_request req); [|by apply announced_frame].
  destruct (bool_decide _); [by apply announced_frame|].
  destruct (OmsCoreV2.resolve_order_meta req c) as [meta|errs]; [|by apply reject_announced].
  assert (c_orders (OmsCoreV2.intern_source req meta c).2 = c_orders c) as E1.
  { unfold OmsCoreV2.intern_source. destruct (negb _); [|done]. by destruct (MetadataTables.intern _ _). }
  destruct (OmsCoreV2.intern_source req meta c) as [meta1 c1]. simpl in E1.
  destruct (OmsCoreV2.risk_violation req meta1 c1); [by apply reject_announced|].
  pose proof (fr_orders _ _ (pre_trade_frame req meta1 c1)) as E2.
  destruct (OmsCoreV2.pre_trade req meta1 c1) as [[u|e] c2]; simpl in E2.
  - apply accept_announced. congruence.
  - apply reject_announced. congruence.
Qed.
End placement.

(** ** Reports *)

Section reports.
Implicit Types (c : OmsCoreV2).

(** The loop invariant over the entries: an order whose status may have changed
    is flagged. *)
Definition flagged (oid : Z) (c0 : OmsCoreV2) (acc : OmsCoreV2.ReportFlags * OmsCoreV2) : Prop :=
  others_same oid c0 acc.2 ∧
  (OmsCoreV2.rf_original_order_updated acc.1 = false →
   ∀ l', live_at acc.2 oid = Some l' → ∃ l, live_at c0 oid = Some l ∧ facet l' = facet l).

Lemma flagged_put oid c0 fl c fl' both :
  flagged oid c0 (fl, c) → OmsCoreV2.rf_original_order_updated fl' = true →
  flagged oid c0 (fl', OmsCoreV2.put_both oid both c).
Proof. intros [Ho _] Hf. split; [|simpl; by rewrite Hf]. etrans; [done|]. apply others_put. Qed.

Lemma linkage_flagged oid gw only r c0 acc :
  flagged oid c0 acc → flagged oid c0 (OmsCoreV2.apply_linkage_entry oid gw only r acc).
Proof.
  destruct acc as [fl c]. intros [Ho Hf]. unfold OmsCoreV2.apply_linkage_entry.
  set (c1 := c <| c_orders ::= OrderStoreV2.register_exch_ref oid gw (lnk_exch_order_ref r) |>).
  assert (∀ o, o ≠ oid → live_at c1 o = live_at c o) as H1.
  { intros o Hne. unfold c1, OrderStoreV2.register_exch_ref. cbn.
    destruct (DynStringTable.intern _ _). cbn. by rewrite lookup_alter_ne. }
  assert (∀ l', live_at c1 oid = Some l' → ∃ l, live_at c oid = Some l ∧ facet l' = facet l) as H2.
  { intros l'. unfold c1, OrderStoreV2.register_exch_ref. cbn. destruct (DynStringTable.intern _ _). cbn.
    rewrite lookup_alter_eq. intros (l & Hl & ->)%fmap_Some. by exists l. }
  clearbody c1. assert (others_same oid c0 c1) as Ho1 by (intros o x Hne; rewrite H1 by done; by apply Ho).
  destruct only.
  - split; [|done]. cbn. etrans; [done|]. apply others_update.
  - split; [done|]. simpl. intros Hu l' Hl'. destruct (H2 l' Hl') as (l & Hl & ->). by apply Hf.
Qed.

Lemma exec_flagged oid ts r c0 acc :
  flagged oid c0 acc → yields (OmsCoreV2.apply_exec_entry oid ts r acc) (flagged oid c0).
Proof.
  destruct acc as [fl c]. intros Hf. unfold OmsCoreV2.apply_exec_entry.
  set (rej := default default_Rejection (exr_rejection_info r)).
  assert (∀ ty, yields (orders ← OmsCoreV2.oms_error oid (text (OmsCoreV2.exec_error_msg r rej)) ts ty rej
                          (c_orders c);
                        mret (fl <| OmsCoreV2.rf_new_exec_msg := true |>
                                 <| OmsCoreV2.rf_original_order_updated := true |>,
                              c <| c_orders := orders |>)) (flagged oid c0)) as Herr.
  { intros ty. apply yields_bind. intros orders E.
    pose proof (oms_error_order oid (text (OmsCoreV2.exec_error_msg r rej)) ts ty rej (c_orders c)) as H.
    rewrite E in H. destruct H as (_ & _ & Ho & _). split; [|done].
    intros o x Hne Hx. simpl in Hx. rewrite Ho in Hx by done. by apply (proj1 Hf). }
  destruct (OmsCoreV2.oms_exec_type r); try apply Herr. done.
Qed.

Lemma entry_flagged oid gw ts only c0 acc e :
  flagged oid c0 acc → yields (OmsCoreV2.apply_entry oid gw ts only acc e) (flagged oid c0).
Proof.
  intros Hf. unfold OmsCoreV2.apply_entry.
  destruct (default _ _), (ent_report e) as [[]|]; try done;
    first [by apply linkage_flagged|by apply exec_flagged|idtac]; destruct acc as [fl c].
  all: unfold OmsCoreV2.apply_trade_entry, OmsCoreV2.apply_state_entry, OmsCoreV2.apply_fee_entry.
  - repeat (apply yields_bind; intros ? _). by eapply flagged_put.
  - apply yields_bind. intros [l d] _. eapply flagged_put; [done|]. by destruct (_ <? _)%nat.
  - repeat (apply yields_bind; intros ? _). split; [|done]. intros o x Hne. simpl. by apply (proj1 Hf).
Qed.

(** What a report for one order guarantees about it. *)
Record announced_at (oid : Z) (acts : list OmsActionV2) (c c' : OmsCoreV2) : Prop := {
  aa_others : others_same oid c c';
  aa_acts o : o ≠ oid → last_persist o acts = None;
  aa_known : is_Some (last_persist oid acts) → is_Some (live_at c oid);
  aa_order l' : live_at c' oid = Some l' →
    match last_persist oid acts with
    | Some closed => is_in_terminal_state l' = closed
    | None => ∃ l, live_at c oid = Some l ∧ facet l' = facet l
    end;
}.

Lemma settle_no_persist oid acct ts side flags tb ib c :
  yields (OmsCoreV2.settle_fills oid acct ts side flags tb ib c)
    (λ r, c_orders r.2 = c_orders c ∧ ∀ o, last_persist o r.1 = None).
Proof.
  unfold OmsCoreV2.settle_fills. repeat (apply yields_bind; intros ? _).
  set (fills := _ ++ _). set (price := default f64.zero _).
  pose proof (apply_fills_frame oid acct ts (side =? BsBuy) flags price fills (false, c)) as [_ Hf _].
  destruct (foldl _ _ _) as [b c']. split; [done|]. intros o. simpl.
  by destruct b; [destruct (af_pos_instrument_id flags)|].
Qed.

Lemma finish_announced oid ts tb ib fl c0 c :
  is_Some (live_at c0 oid) → flagged oid c0 (fl, c) →
  yields (OmsCoreV2.finish_report oid ts tb ib fl c) (λ r, announced_at oid r.1 c0 r.2).
Proof.
  intros Hk [Ho Hf]. unfold OmsCoreV2.finish_report. simpl in Hf.
  destruct (OmsCoreV2.rf_original_order_updated fl); cbn [negb].
  2: { split; [done|done|by intros [? ?]|]. simpl. by apply Hf. }
  apply yields_bind. intros l0 Hl0. set (l := OmsCoreV2.finalize_live l0).
  set (c1 := c <| c_orders ::= OrderStoreV2.update_live (λ _, l) oid |>).
  assert (live_at c1 oid = Some l) as Hl.
  { cbn. rewrite lookup_alter_eq. unfold OrderStoreV2.get_live in Hl0. by destruct (live_at c oid). }
  assert (others_same oid c0 c1) as Ho1 by (etrans; [exact Ho|apply others_update]).
  apply yields_bind. intros [settled c2] Hset.
  assert (c_orders c2 = c_orders c1 ∧ ∀ o, last_persist o settled = None) as [E2 Hs].
  { destruct (_ || _); [|by injection Hset as <- <-].
    pose proof (settle_no_persist oid (lo_account_id l) ts (lo_buy_sell_type l)
      (lo_accounting_flags l) tb ib c1) as H. by rewrite Hset in H. }
  destruct (is_in_terminal_state l) eqn:Et.
  - destruct (close_order_post oid (lo_account_id l) (lo_accounting_flags l) c2) as (_ & _ & _ & _ & Hc).
    assert (others_same oid c2 (OmsCoreV2.close_order oid (lo_account_id l) (lo_accounting_flags l) c2)) as H3.
    { unfold OmsCoreV2.close_order. etrans; [|apply others_closed]. apply others_eq.
      by destruct (unfreeze_remaining_frame oid (lo_account_id l) (lo_accounting_flags l)
        (c2 <| c_reservations ::= ReservationStoreV2.release oid |>)) as [[_ -> _] _]. }
    split; simpl; [| |done|].
    + etrans; [exact Ho1|]. etrans; [by apply (others_eq oid c1 c2)|exact H3].
    + intros o Hne. rewrite last_persist_app. simpl. rewrite decide_False by done. by rewrite Hs.
    + intros l'. rewrite last_persist_app. simpl. rewrite decide_True by done.
      intros Hl'%Hc. rewrite E2, Hl in Hl'. by injection Hl' as <-.
  - split; simpl; [| |done|].
    + etrans; [exact Ho1|]. by apply (others_eq oid c1 c2).
    + intros o Hne. rewrite last_persist_app. simpl. rewrite decide_False by done. by rewrite Hs.
    + intros l'. rewrite last_persist_app. simpl. rewrite decide_True by done.
      rewrite E2, Hl. by intros [= <-].
Qed.

Lemma report_for_order_announced oid gw report c :
  yields (OmsCoreV2.process_report_for_order oid gw report c) (λ r, announced_at oid r.1 c r.2).
Proof.
  unfold OmsCoreV2.process_report_for_order, OrderStoreV2.get_live.
  destruct (live_at c oid) as [live|] eqn:El.
  2: { split; [done|done|by intros [? ?]|]. simpl. intros l'. by rewrite El. }
  apply yields_bind. intros [fl c2] E. apply (finish_announced oid _ _ _ fl c); [by rewrite El|].
  set (c1 := c <| c_orders ::= _ |>) in E.
  assert (flagged oid c (OmsCoreV2.no_flags, c1)) as H1.
  { split; [apply others_update|]. simpl. intros _ l'. rewrite lookup_alter_eq, El. intros [= <-]. by exists live. }
  pose proof (yields_for_each (flagged oid c) (OmsCoreV2.apply_entry oid gw (rep_update_timestamp report)
    ((length (rep_order_report_entries report) =? 1)%nat &&
     negb (bool_decide (is_Some (OrderStoreV2.infer_state_from_trades (rep_order_report_entries report) live)))))
    (rep_order_report_entries report ++
     option_list (OrderStoreV2.infer_state_from_trades (rep_order_report_entries report) live))
    (OmsCoreV2.no_flags, c1) H1) as H2. rewrite E in H2. apply H2. intros. by apply entry_flagged.
Qed.
End reports.

(** ** All messages *)

Section messages.
Implicit Types (c : OmsCoreV2).

Lemma announced_at_one created oid acts c c' :
  announced_at oid acts c c' → announced created acts c c'.
Proof.
  intros [H1 H2 H3 H4]. apply (announced_one _ oid); [done|done|by left; apply H3|].
  intros l' Hl'. specialize (H4 l' Hl'). destruct (last_persist oid acts); [done|by left].
Qed.

(** A new external order, then its report. *)
Lemma external_announced oid ext acts c c1 c2 :
  others_same oid c c1 → live_at c1 oid = Some ext → lo_is_external ext = true →
  announced_at oid acts c1 c2 → announced (eq oid) acts c c2.
Proof.
  intros Ho Hl Hx [H1 H2 H3 H4]. apply (announced_one _ oid); [by etrans|done|by right|].
  intros l' Hl'. specialize (H4 l' Hl'). destruct (last_persist oid acts); [done|].
  destruct H4 as (l & Hl1 & Ef). rewrite Hl in Hl1. injection Hl1 as <-. injection Ef as _ _ Ef.
  right. split; [done|]. right. by rewrite Ef.
Qed.

Lemma order_report_announced report c :
  yields (OmsCoreV2.process_order_report report c)
    (λ r, announced (eq (os_id_counter (c_orders c))) r.1 c r.2).
Proof.
  unfold OmsCoreV2.process_order_report.
  assert (∀ oid gw, yields (OmsCoreV2.process_report_for_order oid gw report c)
    (λ r, announced (eq (os_id_counter (c_orders c))) r.1 c r.2)) as Hrep.
  { intros oid gw. pose proof (report_for_order_announced oid gw report c) as H.
    destruct (OmsCoreV2.process_report_for_order _ _ _ _); [|done]. by eapply announced_at_one. }
  destruct (OmsCoreV2.resolve_gw _ c) as [gw|]; [|by apply announced_frame].
  destruct (OrderStoreV2.resolve_order_id _ _ _ _) as [oid|]; [apply Hrep|].
  destruct (_ && _).
  - apply yields_bind. intros [oid c1]. unfold OmsCoreV2.external_order. cbv zeta. case_match.
    + destruct (DynStringTable.lookup _ _); [|done]. simpl.
      destruct (os_external_order_ids _ !! _); [|done]. simpl. intros [= -> <-]. apply Hrep.
    + destruct (MetadataTables.intern _ _) as [sym md].
      unfold OrderStoreV2.create_external_order. simpl. destruct (DynStringTable.intern _ _) as [dyn tbl].
      intros [= <- <-].
      set (c1 := c <| c_metadata := md |> <| c_orders := _ |>).
      pose proof (report_for_order_announced (os_id_counter (c_orders c)) gw report c1) as Hr.
      destruct (OmsCoreV2.process_report_for_order _ _ _ _) as [[acts c2]|]; [|done].
      eapply external_announced; [| | |exact Hr]; [|by apply lookup_insert_eq|done].
      intros o x Hne. simpl. by rewrite lookup_insert_ne.
  - apply announced_frame_live; [|done]. unfold OmsCoreV2.buffer_report. simpl. destruct (negb _); [|done].
    by destruct (DynStringTable.intern _ _).
Qed.

(** A balance update touches neither orders nor metadata, and announces none. *)
Lemma balance_quiet `{!HashIter Z} clk update c :
  yields (OmsCoreV2.process_balance_update clk update c) (λ r,
    (c_orders r.2, c_metadata r.2) = (c_orders c, c_metadata c) ∧ ∀ oid, last_persist oid r.1 = None).
Proof.
  set (quiet := λ r : list OmsActionV2 * OmsCoreV2,
    (c_orders r.2, c_metadata r.2) = (c_orders c, c_metadata c) ∧ ∀ oid, last_persist oid r.1 = None).
  assert (∀ acts c' act, quiet (acts, c') → (∀ oid, persist_flag oid act = None) →
    quiet (acts ++ [act], c')) as Hsnoc.
  { intros acts c' act [E H] Ha. split; [done|]. intros oid. simpl. rewrite last_persist_app. simpl.
    by rewrite Ha, H. }
  unfold OmsCoreV2.process_balance_update. destruct (bu_balances update) as [|first rest] eqn:Eb;
    [done|]. rewrite <- Eb.
  apply yields_bind. intros [acct|] _; [|done].
  assert (quiet (foldl (OmsCoreV2.apply_spot_entry acct (clk 0%nat)) ([], c) (bu_balances update))) as H1.
  { apply (foldl_inv quiet); [done|]. intros [acts c1] e _ Hq. unfold OmsCoreV2.apply_spot_entry.
    destruct (_ =? _); [|done]. destruct (OmsCoreV2.lookup_asset _ c1); [|done].
    destruct (BalanceStoreV2.get_or_create_balance _ _ _). by apply (Hsnoc acts). }
  destruct (foldl _ _ _) as [acts1 c1].
  set (acts2 := if existsb _ _ then _ else acts1).
  assert (quiet (acts2, c1)) as H2 by (unfold acts2; destruct (existsb _ _); [by apply Hsnoc|done]).
  apply yields_bind. intros [acts3 c3] E.
  pose proof (yields_for_each quiet (OmsCoreV2.apply_position_entry acct (clk 0%nat)) (bu_balances update)
    (acts2, c1) H2) as H3. rewrite E in H3.
  assert (quiet (acts3, c3)) as Hq.
  { apply H3. intros [acts c4] e Hq. unfold OmsCoreV2.apply_position_entry. destruct (negb _); [|done].
    case_match; [|done]. apply yields_bind. intros code _. by apply (Hsnoc acts). }
  cbn. destruct (existsb (λ e, negb _) _); [by apply (Hsnoc acts3)|done].
Qed.

Lemma balance_announced `{!HashIter Z} clk update c :
  yields (OmsCoreV2.process_balance_update clk update c) (λ r, announced none_created r.1 c r.2).
Proof.
  pose proof (balance_quiet clk update c) as Hq.
  destruct (OmsCoreV2.process_balance_update clk update c) as [r|]; [|done].
  destruct Hq as [[= Eo _] Hq]. by apply announced_frame.
Qed.

(** No two items create the same order. *)
Fixpoint apart {A} (created : A → Z → Prop) (l : list A) : Prop :=
  match l with
  | [] => True
  | x :: l => (∀ y oid, y ∈ l → created x oid → ¬ created y oid) ∧ apart created l
  end.

Lemma batch_announced {A} (f : (nat → Z) → A → OmsCoreV2 → handled) (created : A → Z → Prop) clk l c :
  (∀ clk x c, yields (f clk x c) (λ r, announced (created x) r.1 c r.2)) →
  apart created l → (∀ x oid, x ∈ l → created x oid → live_at c oid = None) →
  yields (OmsCoreV2.batch f clk l c) (λ r, announced (λ oid, ∃ x, x ∈ l ∧ created x oid) r.1 c r.2).
Proof.
  intros Hf. revert clk c. induction l as [|x l IH]; intros clk c Hap Hfresh; [by apply announced_frame|].
  destruct Hap as [Hx Hap]. simpl. apply yields_bind. intros [acts c1] E1.
  pose proof (Hf clk x c) as H1. rewrite E1 in H1. apply yields_bind. intros [rest c2] E2.
  assert (∀ y oid, y ∈ l → created y oid → live_at c1 oid = None) as Hfresh1.
  { intros y oid Hy Hc. destruct (live_at c1 oid) eqn:El; [|done].
    destruct (announced_live _ _ _ _ oid H1) as [[l' Hl']|Hcx]; [simpl; by rewrite El| |by destruct (Hx y oid Hy)].
    rewrite (Hfresh y oid) in Hl'; [done|by right|done]. }
  specialize (IH _ c1 Hap Hfresh1 : yields (OmsCoreV2.batch f (λ k, clk (S (S (S k)))) l c1) _).
  rewrite E2 in IH.
  cbn. eapply announced_weaken; [|eapply announced_seq; [|exact H1|exact IH]].
  - intros oid [?|(y & ? & ?)]; [exists x; split; [by left|done]|exists y; split; [by right|done]].
  - intros oid (y & Hy & Hc). split; [apply (Hfresh y); [by right|done]|].
    intros Hcx. by destruct (Hx y oid Hy).
Qed.

Lemma apart_ids (reqs : list OrderRequest) :
  NoDup (req_order_id <$> reqs) → apart (λ r, eq (req_order_id r)) reqs.
Proof.
  induction reqs as [|r reqs IH]; [done|]. intros [Hr Hn]%NoDup_cons. split; [|by apply IH].
  intros r' oid Hr' <- E. apply Hr. rewrite <- E. by apply list_elem_of_fmap_2.
Qed.

(** A message that creates no order the store has already. *)
Definition fresh_message (msg : OmsMessage) c : Prop :=
  (∀ oid, creates msg c oid → live_at c oid = None) ∧
  match msg with BatchPlaceOrders reqs => NoDup (req_order_id <$> reqs) | _ => True end.

Lemma yields_weaken {A} (m : outcome A) (P Q : A → Prop) : yields m P → (∀ a, P a → Q a) → yields m Q.
Proof. destruct m; simpl; auto. Qed.

Lemma message_announced `{!HashIter Z} clk msg c :
  fresh_message msg c →
  yields (OmsCoreV2.process_message clk msg c) (λ r, announced (creates msg c) r.1 c r.2).
Proof.
  assert (∀ P acts c', announced none_created acts c c' → announced P acts c c') as Hnone
    by (intros P acts c'; by apply announced_weaken).
  intros [Hfresh Hnd]. destruct msg; cbn [OmsCoreV2.process_message creates];
    try (by apply announced_frame).
  - apply order_announced.
  - eapply yields_weaken; [apply (batch_announced _ (λ r, eq (req_order_id r)))|].
    + intros. apply order_announced.
    + by apply apart_ids.
    + intros r oid Hr <-. apply Hfresh. by apply list_elem_of_fmap_2.
    + intros r. apply announced_weaken. intros oid (x & Hx & <-). by apply list_elem_of_fmap_2.
  - eapply yields_weaken; [apply cancel_announced|]. intros; by apply Hnone.
  - eapply yields_weaken; [apply (batch_announced _ (λ _, none_created))|].
    + intros. apply cancel_announced.
    + clear. by induction reqs.
    + done.
    + intros r. apply announced_weaken. by intros oid (x & _ & ?).
  - apply order_report_announced.
  - eapply yields_weaken; [apply balance_announced|]. intros; by apply Hnone.
  - eapply yields_weaken; [apply send_failed_announced|]. intros; by apply Hnone.
  - eapply yields_weaken; [apply cancel_failed_announced|]. intros; by apply Hnone.
Qed.
End messages.
