(* ===== verification/OmsFindings.v ===== *)
(** * Divergences ([oms_core_v2.rs], [order_store_v2.rs], [utils.rs])

    Behaviour of the code that differs from its comments, from the v1 core it
    replaces, or from what its own bookkeeping needs: proved in general where
    the situation is general, and as runs of the demo OMS otherwise. *)

From S2P Require Import Prelude F64 F64Grid Proto Intern Models Reservation Position Balance.
From S2P Require Import Config Metadata MetadataFacts MetadataReload Utils.
From S2P Require Import OrderStore OrderHistory OmsCore OmsSafety Scenario OmsLifecycle.
From S2P Require Import OmsPlacement OmsHolds OmsReports.

(** ** Sides *)

(** A short sale is recorded as a long position.  A sell fill of [q] on an
    account without a position opens the entry on the short side, its total
    goes to [-q], and the flip of [apply_delta] then turns it into a long
    position of [q]. *)
Theorem short_sale_recorded_long g st acct pos frozen x q ts :
  grid_ok g → managed st !! (acct, pos) = None → on_grid g q x → 0 < q →
  ∃ p, managed (PositionStoreV2.apply_delta (OmsCoreV2.fill_delta acct pos false frozen x) ts st)
         !! (acct, pos) = Some p ∧
    mp_is_short p = false ∧ on_grid g q (mp_qty_total p).
Proof.
  intros Hg Hn Hx Hq. unfold PositionStoreV2.apply_delta. cbn. rewrite Hn. cbn.
  eexists. split; [apply lookup_insert_eq|]. pose proof (on_grid_fits g q x Hx) as Hfit.
  assert (on_grid g (0 + - q) (f64.zero + f64.neg x)%f64) as Ht.
  { apply grid_add; [done|apply grid_zero|by apply grid_opp|unfold fits in *; lia]. }
  unfold PositionStoreV2.apply_delta_pos.
  cbn -[f64.add f64.ltb f64.max f64.abs ManagedPositionV2_new].
  change (mp_qty_total (ManagedPositionV2_new acct pos 0 true)) with f64.zero.
  rewrite (grid_ltb g _ _ _ _ Ht (grid_zero g)), (proj2 (Z.ltb_lt _ _)) by lia.
  cbn -[f64.add f64.abs]. split; [done|]. apply grid_abs in Ht.
  by replace (Z.abs (0 + - q)) with q in Ht by lia.
Qed.

Lemma short_sale_recorded_long_witness :
  ∃ p, managed (PositionStoreV2.apply_delta (OmsCoreV2.fill_delta 7 3 false false (of_grid 0 10))
                  5 PositionStoreV2.new) !! (7, 3) = Some p ∧
    mp_is_short p = false ∧ on_grid 0 10 (mp_qty_total p).
Proof.
  apply (short_sale_recorded_long 0 PositionStoreV2.new 7 3 false (of_grid 0 10) 10 5).
  - done.
  - reflexivity.
  - vm_compute. intuition congruence.
  - lia.
Defined.

(** ** Frozen quantities *)

(** A sell fill that does not count as frozen. *)
Lemma unchecked_fill_pos g acct pos x q ts t f a p :
  grid_ok g → pos_grid g t f a p → 0 ≤ f → 0 ≤ a → 0 < q → q ≤ t → a ≤ t → on_grid g q x →
  let p' := PositionStoreV2.apply_delta_pos (OmsCoreV2.fill_delta acct pos false false x) ts p in
  ∃ a', pos_grid g (t - q) f a' p' ∧ 0 ≤ a' ≤ t - q.
Proof.
  intros Hg (Ht & Hf & Ha) Hf0 Ha0 Hq Hqt Hat Hx p'. pose proof (grid_zero g) as Hz.
  pose proof (on_grid_fits g _ _ Ht). pose proof (on_grid_fits g _ _ Hf).
  assert (on_grid g (t - q) (mp_qty_total p + f64.neg x)%f64) as Ht'.
  { replace (t - q) with (t + - q) by lia.
    apply grid_add; [done..|by apply grid_opp|unfold fits in *; lia]. }
  assert (on_grid g (a + 0) (mp_qty_available p + f64.zero)%f64) as Ha'
    by (apply grid_add; [done..|unfold fits in *; lia]).
  assert (on_grid g (Z.max (f + 0) 0) (f64.max (mp_qty_frozen p + f64.zero) f64.zero)%f64) as Hf'
    by (apply grid_max; [|done]; apply grid_add; [done..|unfold fits in *; lia]).
  replace (Z.max (f + 0) 0) with f in Hf' by lia. subst p'. unfold PositionStoreV2.apply_delta_pos.
  cbn -[f64.add f64.ltb f64.max f64.abs].
  rewrite (grid_ltb g _ _ _ _ Ht' Ha'), (grid_ltb g _ _ _ _ Ht' (grid_zero g)).
  rewrite (proj2 (Z.ltb_ge (t - q) 0)) by lia.
  destruct (Z.ltb_spec (t - q) (a + 0)).
  - exists (t - q). split; [by split_and!|lia].
  - exists (a + 0). split; [by split_and!|lia].
Qed.

Lemma unchecked_fills_pos g oid acct pos ts flags price qs xs b c t f a p :
  grid_ok g → af_pos_instrument_id flags = Some pos → af_balance_check flags = false →
  managed (c_positions c) !! (acct, pos) = Some p → pos_grid g t f a p → 0 ≤ f → 0 ≤ a ≤ t →
  Forall2 (on_grid g) qs xs → Forall (λ q, 0 < q) qs → Zsum qs ≤ t →
  ∃ p' a', managed (c_positions (foldl (OmsCoreV2.apply_fill oid acct ts false flags price)
                                   (b, c) xs).2) !! (acct, pos) = Some p' ∧
    pos_grid g (t - Zsum qs) f a' p' ∧ 0 ≤ a' ≤ t - Zsum qs.
Proof.
  intros Hg Hpos Hbc Hp Hgr Hf0 Ha Hqs. revert b c t a p Hp Hgr Ha.
  induction Hqs as [|q x qs xs Hx Hqs IH]; intros b c t a p Hp Hgr Ha Hall Hsum.
  { exists p, a. cbn. by rewrite Z.sub_0_r. }
  apply Forall_cons in Hall as [Hq Hall]. cbn [Zsum foldr] in Hsum. fold (Zsum qs) in Hsum.
  assert (0 ≤ Zsum qs) as Hn by (apply Zsum_nonneg; eapply Forall_impl; [done|]; cbn; lia).
  destruct (unchecked_fill_pos g acct pos x q ts t f a p) as (a1 & Hgr1 & Ha1); try done; try lia.
  cbn [foldl]. unfold OmsCoreV2.apply_fill at 2.
  rewrite (grid_leb g q 0), (proj2 (Z.leb_gt _ _)) by (done || lia || apply grid_zero).
  rewrite Hpos, Hbc. cbn [negb andb].
  match goal with |- context [foldl _ (true, ?c1) xs] =>
    destruct (IH true c1 (t - q) a1 (PositionStoreV2.apply_delta_pos
      (OmsCoreV2.fill_delta acct pos false false x) ts p)) as (p' & a' & Hp' & Hgr' & Ha') end;
    try done; try lia.
  - cbn. rewrite Hp. apply lookup_insert_eq.
  - exists p', a'. cbn [Zsum foldr]. fold (Zsum qs).
    replace (t - (q + Zsum qs)) with (t - q - Zsum qs) by lia. done.
Qed.

(** An unchecked sell leaks its frozen quantity.  Placement freezes the
    quantity of every sell under bookkeeping, with or without the balance
    check; but when the balance check is off, the fills of that sell take
    [m - m0] from the total and nothing from the frozen part, down to the
    complete fill, which releases nothing either. *)
Theorem unchecked_sell_leaks_frozen `{!Uppercase, !HashIter string, !HashIter Z, !HashIterOk Z}
    g clk report r (c : OmsCoreV2) gw oid l m0 m n pos t f a p :
  reachable c → OmsCoreV2.resolve_gw (rep_exchange report) c = Some gw →
  OrderStoreV2.resolve_order_id (rep_order_id report) gw (rep_exch_order_ref report)
    (c_orders c) = Some oid →
  os_live (c_orders c) !! oid = Some l → is_in_terminal_state l = false →
  let flags := lo_accounting_flags l in
  lo_buy_sell_type l ≠ BsBuy → af_pos_instrument_id flags = Some pos →
  af_balance_check flags = false →
  rep_order_report_entries report = [state_only r] → fill_grid g →
  on_grid g m0 (lo_filled_qty l) → on_grid g m (osr_filled_qty r) → on_grid g n (lo_qty l) →
  0 ≤ m0 → m0 ≤ m → 0 < m → fill_status r m n →
  managed (c_positions c) !! (lo_account_id l, pos) = Some p → pos_grid g t f a p →
  0 ≤ f → 0 ≤ a ≤ t → m - m0 ≤ t →
  ∃ actions c' p' a',
    OmsCoreV2.process_message clk (GatewayOrderReport report) c = Returns (actions, c') ∧
    managed (c_positions c') !! (lo_account_id l, pos) = Some p' ∧
    pos_grid g (t - (m - m0)) f a' p'.
Proof.
  intros Hinv%reachable_inv Hgw Hoid Hl Ht flags Hside Hpos Hbc Hent Hg Hm0 Hm Hn H0 Hle Hm1
    Hstatus Hp Hgr Hf0 Ha Hmt.
  destruct (returns_inv _ _ (message_inv clk (GatewayOrderReport report) c Hinv))
    as ([acts c'] & E & _). exists acts, c'.
  destruct (wf_lookup _ _ _ (cw_orders c (ci_wf c Hinv)) Hl) as (d & _ & Hb).
  pose proof E as Erun. cbn in E. unfold OmsCoreV2.process_order_report in E. rewrite Hgw, Hoid in E.
  destruct (state_report_positions g report r c gw oid l d m0 m n acts c')
    as (c1 & qs & xs & price & Hqs & Hqpos & Hsum & Ep1 & Ep'); try done.
  apply Z.eqb_neq in Hside. rewrite Hside in Ep'. fold flags in Ep'. rewrite <- Hsum in *.
  destruct (unchecked_fills_pos g oid (lo_account_id l) pos (rep_update_timestamp report) flags
    price qs xs false c1 t f a p) as (p' & a' & Hp' & Hgr' & _); try done.
  - by apply fill_grid_ok.
  - by rewrite Ep1.
  - exists p', a'. by rewrite Ep'.
Qed.

(** Ten units bought and then offered, on an account without balance check. *)
Definition unchecked_core : OmsCoreV2 := demo_core [demo_trading "BTC-USDT" false None].
Definition filled_report (oid qty : Z) : OmsMessage :=
  GatewayOrderReport (demo_report oid [state_entry ExchOrderStatusFilled (f64.of_Z qty)
                                         (f64.of_Z 100)]).
Definition offer : list OmsMessage :=
  [PlaceOrder (demo_order 11 BsBuy "BTC-USDT" (f64.of_Z 10) (f64.of_Z 100));
   filled_report 11 10;
   PlaceOrder (demo_order 12 demo_sell "BTC-USDT" (f64.of_Z 10) (f64.of_Z 100))].
Definition offered_core : OmsCoreV2 :=
  Eval vm_compute in
  match play offer unchecked_core with Returns (_, c) => c | Panics _ => checked_core end.
Definition offered_order : LiveOrder :=
  Eval vm_compute in default (demo_live 0) (os_live (c_orders offered_core) !! 12).
Definition offered_position : ManagedPositionV2 :=
  Eval vm_compute in default (demo_position 0) (managed (c_positions offered_core) !! (7, 3)).

Lemma offered_core_reachable : reachable offered_core.
Proof.
  apply (play_reachable offer unchecked_core
    [PersistOrder 11 false false; SendOrderToGw 0 11 1000;
     PublishOrderUpdate 11 false false false true; PersistPosition 7 3; PublishPositionUpdate 7;
     PersistOrder 11 true true; PersistOrder 12 false false; SendOrderToGw 0 12 1000]).
  - apply demo_core_reachable.
  - vm_compute. reflexivity.
Qed.

Lemma unchecked_sell_leaks_frozen_witness :
  ∃ actions c' p' a', OmsCoreV2.process_message demo_clk (filled_report 12 10) offered_core
      = Returns (actions, c') ∧
    managed (c_positions c') !! (7, 3) = Some p' ∧ pos_grid 0 0 10 a' p'.
Proof.
  apply (unchecked_sell_leaks_frozen 0 demo_clk
    (demo_report 12 [state_entry ExchOrderStatusFilled (f64.of_Z 10) (f64.of_Z 100)])
    (default_OrderStateReport
       <| osr_exch_order_status := ExchangeOrderStatus_i32 ExchOrderStatusFilled |>
       <| osr_filled_qty := f64.of_Z 10 |> <| osr_avg_price := f64.of_Z 100 |>)
    offered_core 0 12 offered_order 0 10 10 3 10 10 0 offered_position).
  - exact offered_core_reachable.
  - vm_compute. reflexivity.
  - vm_compute. reflexivity.
  - vm_compute. reflexivity.
  - reflexivity.
  - discriminate.
  - reflexivity.
  - reflexivity.
  - reflexivity.
  - unfold fill_grid. lia.
  - vm_compute. intuition congruence.
  - vm_compute. intuition congruence.
  - vm_compute. intuition congruence.
  - lia.
  - lia.
  - lia.
  - by right.
  - vm_compute. reflexivity.
  - vm_compute. intuition congruence.
  - lia.
  - lia.
  - lia.
Defined.

(** ** Runs *)

(** What a run leaves of order [oid]: its status, and whether it is open. *)
Definition order_after (oid : Z) (r : handled) : option (option OrderStatus * bool) :=
  match r with
  | Returns (_, c) => Some (order_status <$> os_live (c_orders c) !! oid,
                            bool_decide (oid ∈ os_open_order_ids (c_orders c)))
  | Panics _ => None
  end.

(** Total, frozen and available of a position, as integers on the unit grid. *)
Definition position_after (key : Z * Z) (r : handled) (t f a : Z) : Prop :=
  match r with
  | Returns (_, c) => ∃ p, managed (c_positions c) !! key = Some p ∧ pos_grid 0 t f a p
  | Panics _ => False
  end.

(** A rejected order comes back to life.  After a failed send the order is
    rejected and closed; a late linkage report of the exchange makes it booked
    again, but it is in no open set and its hold is gone.  A rejection after a
    complete fill, in turn, overwrites the filled status. *)
Theorem rejected_is_not_final :
  let place := PlaceOrder (demo_order 11 BsBuy "BTC-PERP" (f64.of_Z 10) (f64.of_Z 100)) in
  order_after 11 (play [place; GatewaySendFailed 11 0 "timeout"] checked_core)
    = Some (Some Rejected, false) ∧
  order_after 11 (play [place; GatewaySendFailed 11 0 "timeout";
                        GatewayOrderReport (demo_report 11 [linkage_entry "X-1"])] checked_core)
    = Some (Some Booked, false) ∧
  order_after 11 (play [place; filled_report 11 10;
                        GatewayOrderReport (demo_report 11 [exec_entry ExchRejected])] checked_core)
    = Some (Some Rejected, false).
Proof. vm_compute. auto. Qed.

(** A repeated order id freezes twice and releases once.  The second
    request with the id of a working sell is accepted, overwrites the stored
    order and freezes its quantity again; when the send fails, only one of the
    two freezes is given back. *)
Theorem repeated_id_leaks_frozen :
  let sell := PlaceOrder (demo_order 12 demo_sell "BTC-USDT" (f64.of_Z 3) (f64.of_Z 100)) in
  let bought := [PlaceOrder (demo_order 11 BsBuy "BTC-USDT" (f64.of_Z 10) (f64.of_Z 100));
                 filled_report 11 10] in
  position_after (7, 3) (play (bought ++ [sell; sell]) unchecked_core) 10 6 4 ∧
  position_after (7, 3) (play (bought ++ [sell; sell; GatewaySendFailed 12 0 "x"]) unchecked_core)
    10 3 7.
Proof. split; vm_compute; eexists; (split; [reflexivity|]); intuition congruence. Qed.

(** Rounding leaks frozen quantity.  With a quantity precision of two digits
    a sell of 1.5 + 2^-10 freezes the requested quantity, but the order is
    stored, and later released, with 1.5: when its send fails, [2^-10] stays
    frozen. *)
Theorem rounding_leaks_frozen :
  let precise := demo_spot <| rd_qty_precision := 2 |> in
  let core := OmsCoreV2.new 0
    (ConfdataManager.new (default_OmsConfigEntry <| oc_managed_account_ids := [7] |>)
       [demo_route] [demo_gw] [precise] [demo_trading "BTC-USDT" false None]) false true false 100 in
  match play [PlaceOrder (demo_order 11 BsBuy "BTC-USDT" (f64.of_Z 10) (f64.of_Z 100));
              filled_report 11 10;
              PlaceOrder (demo_order 12 demo_sell "BTC-USDT" (of_grid (-10) 1537) (f64.of_Z 100));
              GatewaySendFailed 12 0 "x"] core with
  | Returns (_, c) =>
      option_map (λ p, mp_qty_frozen p) (managed (c_positions c) !! (7, 3)) = Some (of_grid (-10) 1)
  | Panics _ => False
  end.
Proof. vm_compute. reflexivity. Qed.
