(* ===== verification/V1Stores.v ===== *)
(** * The v1 ledgers ([reservation_mgr.rs], [position_mgr.rs], [balance_mgr.rs])

    The first-generation core ([oms_core.rs]), which the backtester still runs,
    keys its ledgers by strings in nested hash tables: account, then symbol.

    The theorems relate them to the v2 stores of [Reservation] and [Position]:
    under any injective naming of v2 ids by v1 symbols, the two generations
    compute bit for bit the same reservations and positions, whatever the
    sequence of operations. *)

From S2P Require Import Prelude F64 F64Grid Proto Intern Models Reservation Position Config Utils.

(** [map.get(a).and_then(|m| m.get(s))] on nested tables. *)
Definition lookup2 {K V} `{Countable K} (k : K) (s : string) (m : gmap K (gmap string V))
    : option V :=
  m !! k ≫= λ inner, inner !! s.

(** ** [models.rs] *)

(** [Reservation] *)
Record Reservation : Set := mkReservation {
  rsv_order_id : Z;
  rsv_account_id : Z;
  rsv_symbol : string;
  rsv_reserved_qty : f64;
  rsv_is_position : bool;
}.
#[export] Instance eta_Reservation : Eta Reservation := λ r,
  mkReservation (rsv_order_id r) (rsv_account_id r) (rsv_symbol r) (rsv_reserved_qty r)
    (rsv_is_position r).

(** [PositionDelta] *)
Record PositionDelta : Set := mkPositionDelta {
  pdl_account_id : Z;
  pdl_instrument_code : string;
  pdl_is_short : bool;
  pdl_avail_change : f64;
  pdl_frozen_change : f64;
  pdl_total_change : f64;
}.
#[export] Instance eta_PositionDelta : Eta PositionDelta := λ r,
  mkPositionDelta (pdl_account_id r) (pdl_instrument_code r) (pdl_is_short r)
    (pdl_avail_change r) (pdl_frozen_change r) (pdl_total_change r).

(** ** Reservations *)

Record ReservationManager : Type := mkReservationManager {
  rmgr_reservations : gmap Z Reservation;
  rmgr_account_totals : gmap Z (gmap string f64);
}.
#[export] Instance eta_ReservationManager : Eta ReservationManager := λ r,
  mkReservationManager (rmgr_reservations r) (rmgr_account_totals r).

Module ReservationManager.
Implicit Types (mgr : ReservationManager).

Definition new : ReservationManager := mkReservationManager ∅ ∅.

Definition reserve (order_id account_id : Z) (symbol : string) (qty : f64) (is_position : bool)
    mgr : result unit message * ReservationManager :=
  match rmgr_reservations mgr !! order_id with
  | Some _ =>
      (Err (text ("reservation already exists for order " +:+ display_i64 order_id)), mgr)
  | None =>
      let rec := mkReservation order_id account_id symbol qty is_position in
      let mgr := mgr <| rmgr_reservations ::= <[order_id := rec]> |> in
      let total := default f64.zero (lookup2 account_id symbol (rmgr_account_totals mgr)) in
      (Ok tt, mgr <| rmgr_account_totals ::= insert_at2 account_id symbol (total + qty)%f64 |>)
  end.

(** [*total -= amount; if *total <= 0.0 { sym_map.remove(symbol) }], for an
    entry that exists. *)
Definition sub_total (account_id : Z) (symbol : string) (amount : f64)
    (totals : gmap Z (gmap string f64)) : gmap Z (gmap string f64) :=
  match totals !! account_id with
  | Some sym_map =>
      match sym_map !! symbol with
      | Some total =>
          let total := (total - amount)%f64 in
          <[account_id := if (total <=? f64.zero)%f64 then delete symbol sym_map
                          else <[symbol := total]> sym_map]> totals
      | None => totals
      end
  | None => totals
  end.

Definition release (order_id : Z) mgr : ReservationManager :=
  match rmgr_reservations mgr !! order_id with
  | Some res =>
      let mgr := mgr <| rmgr_reservations ::= delete order_id |> in
      mgr <| rmgr_account_totals ::=
        sub_total (rsv_account_id res) (rsv_symbol res) (rsv_reserved_qty res) |>
  | None => mgr
  end.

Definition release_partial (order_id : Z) (filled_qty : f64) mgr : ReservationManager :=
  match rmgr_reservations mgr !! order_id with
  | Some res =>
      let amount := f64.min filled_qty (rsv_reserved_qty res) in
      let res := res <| rsv_reserved_qty ::= λ q, (q - amount)%f64 |> in
      let mgr := mgr <| rmgr_reservations ::= <[order_id := res]> |> in
      let mgr := mgr <| rmgr_account_totals ::=
        sub_total (rsv_account_id res) (rsv_symbol res) amount |> in
      if (rsv_reserved_qty res <=? f64.zero)%f64
      then mgr <| rmgr_reservations ::= delete order_id |> else mgr
  | None => mgr
  end.

Definition total_reserved (account_id : Z) (symbol : string) mgr : f64 :=
  default f64.zero (lookup2 account_id symbol (rmgr_account_totals mgr)).

Definition check_available (account_id : Z) (symbol : string) (required available : f64) mgr
    : result unit message :=
  let reserved := total_reserved account_id symbol mgr in
  let effective := (available - reserved)%f64 in
  if (effective <? required)%f64 then
    Err [Lit ("Not enough available balance for " +:+ symbol +:+ ": need ");
         DispF64 required; Lit ", have "; DispF64 effective; Lit " (available ";
         DispF64 available; Lit " - reserved "; DispF64 reserved; Lit ")"]
  else Ok tt.
End ReservationManager.

(** ** Positions *)

Record PositionManager : Type := mkPositionManager {
  pmgr_managed : gmap Z (gmap string OmsManagedPosition);
  pmgr_exch : gmap Z (gmap string ExchPositionSnapshot);
  pmgr_symbol_map : gmap Z (gmap string InstrumentRefData);
}.
#[export] Instance eta_PositionManager : Eta PositionManager := λ r,
  mkPositionManager (pmgr_managed r) (pmgr_exch r) (pmgr_symbol_map r).

(** [OmsManagedPosition::to_proto] *)
Definition to_proto (pos : OmsManagedPosition) : Position :=
  default_Position
    <| pos_account_id := omp_account_id pos |>
    <| pos_instrument_code := omp_instrument_code pos |>
    <| pos_instrument_type := omp_instrument_type pos |>
    <| pos_long_short_type := if omp_is_short pos then LsShort else LsLong |>
    <| pos_total_qty := omp_qty_total pos |>
    <| pos_frozen_qty := omp_qty_frozen pos |>
    <| pos_avail_qty := omp_qty_available pos |>
    <| pos_update_timestamp := omp_last_local_update_ts pos |>
    <| pos_sync_timestamp := omp_last_exch_sync_ts pos |>.

Module PositionManager.
Implicit Types (mgr : PositionManager).

(** [map.entry(a).or_default()] with no further write. *)
Definition ensure {V} (account_id : Z) (m : gmap Z (gmap string V)) : gmap Z (gmap string V) :=
  <[account_id := default ∅ (m !! account_id)]> m.

Definition reload_account_config (routes : list OmsRouteEntry) mgr : PositionManager :=
  foldl (λ mgr r, mgr <| pmgr_managed ::= ensure (rt_account_id r) |>
                      <| pmgr_exch ::= ensure (rt_account_id r) |>) mgr routes.

Definition new (symbol_map : gmap Z (gmap string InstrumentRefData))
    (account_routes : list OmsRouteEntry) : PositionManager :=
  let managed := foldl (λ m r, ensure (rt_account_id r) m) ∅ account_routes in
  let exch := foldl (λ m r, ensure (rt_account_id r) m) ∅ account_routes in
  mkPositionManager managed exch symbol_map.

Definition reload_symbol_map (symbol_map : gmap Z (gmap string InstrumentRefData)) mgr
    : PositionManager :=
  mgr <| pmgr_symbol_map := symbol_map |>.

Definition init_positions (positions : list OmsManagedPosition) mgr : PositionManager :=
  foldl (λ mgr pos, mgr <| pmgr_managed ::=
           insert_at2 (omp_account_id pos) (omp_instrument_code pos) pos |>) mgr positions.

Definition get_position (account_id : Z) (instrument_code : string) mgr
    : option OmsManagedPosition :=
  lookup2 account_id instrument_code (pmgr_managed mgr).

(** [get_position_mut] returns a mutable reference: here the value, and the
    tables in which it is present. *)
Definition get_position_mut (account_id : Z) (instrument_code : string)
    (create_if_missing : bool) mgr : option OmsManagedPosition * PositionManager :=
  let mgr :=
    if create_if_missing then
      let mgr := mgr <| pmgr_managed ::= ensure account_id |> in
      match lookup2 account_id instrument_code (pmgr_managed mgr) with
      | Some _ => mgr
      | None =>
          mgr <| pmgr_managed ::= insert_at2 account_id instrument_code
                   (OmsManagedPosition_new account_id instrument_code 0 false) |>
      end
    else mgr in
  (lookup2 account_id instrument_code (pmgr_managed mgr), mgr).

Definition get_positions_for_account `{!HashIter string} (account_id : Z) mgr
    : list OmsManagedPosition :=
  default [] ((λ m, (hash_iter m).*2) <$> pmgr_managed mgr !! account_id).

(** [managed.entry(a).or_default().entry(s).or_insert_with(new)], followed by
    writes [f] through the reference. *)
Definition upsert (account_id : Z) (instrument_code : string) (fresh : OmsManagedPosition)
    (f : OmsManagedPosition → OmsManagedPosition) mgr : PositionManager :=
  let pos := default fresh (get_position account_id instrument_code mgr) in
  mgr <| pmgr_managed ::= insert_at2 account_id instrument_code (f pos) |>.

(** [managed.get_mut(a).and_then(|m| m.get_mut(s))], followed by writes [f]. *)
Definition modify (account_id : Z) (instrument_code : string)
    (f : OmsManagedPosition → OmsManagedPosition) mgr : PositionManager :=
  match get_position account_id instrument_code mgr with
  | Some pos => mgr <| pmgr_managed ::= insert_at2 account_id instrument_code (f pos) |>
  | None => mgr
  end.

Definition check_and_freeze (account_id : Z) (instrument_code : string) (qty : f64)
    (is_short : bool) mgr : result unit message * PositionManager :=
  let avail := default f64.zero (omp_qty_available <$> get_position account_id instrument_code mgr) in
  if (avail <? qty)%f64 then
    (Err [Lit ("Not enough available position for " +:+ instrument_code +:+ ": need ");
          DispF64 qty; Lit ", have "; DispF64 avail], mgr)
  else
    (Ok tt, upsert account_id instrument_code
              (OmsManagedPosition_new account_id instrument_code 0 is_short)
              (λ pos, pos <| omp_qty_available ::= λ a, (a - qty)%f64 |>
                          <| omp_qty_frozen ::= λ f, (f + qty)%f64 |>) mgr).

Definition unfreeze (account_id : Z) (instrument_code : string) (qty : f64) mgr
    : PositionManager :=
  modify account_id instrument_code (λ pos,
    let amount := f64.min qty (omp_qty_frozen pos) in
    pos <| omp_qty_frozen ::= λ f, (f - amount)%f64 |>
        <| omp_qty_available ::= λ a, (a + amount)%f64 |>) mgr.

(** The body of [apply_delta] on the entry. *)
Definition apply_delta_pos (delta : PositionDelta) (ts : Z) (pos : OmsManagedPosition)
    : OmsManagedPosition :=
  let pos := pos <| omp_qty_total ::= λ t, (t + pdl_total_change delta)%f64 |> in
  let pos := pos <| omp_qty_frozen ::=
    λ f, f64.max (f + pdl_frozen_change delta)%f64 f64.zero |> in
  let new_avail := (omp_qty_available pos + pdl_avail_change delta)%f64 in
  let pos := pos <| omp_qty_available :=
    if (new_avail >? omp_qty_total pos)%f64 then omp_qty_total pos else new_avail |> in
  let pos := pos <| omp_last_local_update_ts := ts |> in
  if (omp_qty_total pos <? f64.zero)%f64 then
    let pos := pos <| omp_is_short ::= negb |> in
    let pos := pos <| omp_qty_total ::= f64.abs |> in
    pos <| omp_qty_available ::= f64.abs |>
  else pos.

Definition apply_delta (delta : PositionDelta) (ts : Z) mgr : list string * PositionManager :=
  ([pdl_instrument_code delta],
   upsert (pdl_account_id delta) (pdl_instrument_code delta)
     (OmsManagedPosition_new (pdl_account_id delta) (pdl_instrument_code delta) 0
        (pdl_is_short delta))
     (apply_delta_pos delta ts) mgr).

(** The body of [update_reconcile_status] on the entry. *)
Definition reconcile_pos (exch_qty : option f64) (ts : Z) (pos : OmsManagedPosition)
    : OmsManagedPosition :=
  let pos := pos <| omp_last_exch_qty := default f64.zero exch_qty |> in
  let diff := f64.abs (omp_qty_total pos - omp_last_exch_qty pos)%f64 in
  if (diff <? eps9)%f64 then
    let pos := pos <| omp_reconcile_status := InSync |> in
    let pos := pos <| omp_first_diverged_ts := 0 |> in
    pos <| omp_divergence_count := 0 |>
  else if bool_decide (omp_reconcile_status pos = InSync)
       || bool_decide (omp_reconcile_status pos = Unknown) then
    let pos := pos <| omp_reconcile_status := DivergedTransient |> in
    let pos := pos <| omp_first_diverged_ts := ts |> in
    pos <| omp_divergence_count := 1 |>
  else
    let pos := pos <| omp_divergence_count ::= λ n, wrap_u32 (n + 1) |> in
    if RECONCILE_PERSISTENT_THRESHOLD <=? omp_divergence_count pos then
      pos <| omp_reconcile_status := DivergedPersistent |>
    else pos.

Definition update_reconcile_status (account_id : Z) (instrument_code : string) (ts : Z) mgr
    : PositionManager :=
  let exch_qty := (λ s, pos_total_qty (eps_position_state s)) <$>
                  lookup2 account_id instrument_code (pmgr_exch mgr) in
  modify account_id instrument_code (reconcile_pos exch_qty ts) mgr.

Definition check_reconcile (account_id : Z) (instrument_code : string) mgr : ReconcileStatus :=
  default Unknown (omp_reconcile_status <$> get_position account_id instrument_code mgr).

(** The exchange snapshot after a gateway entry. *)
Definition set_exch_snap (account_id ts : Z) (symbol : string) (entry : PositionReport)
    (snap : ExchPositionSnapshot) : ExchPositionSnapshot :=
  let snap := snap <| eps_symbol_exch := Some (pr_instrument_code entry) |> in
  let snap := snap <| eps_position_state ::= λ p,
    p <| pos_account_id := account_id |> <| pos_instrument_code := symbol |>
      <| pos_total_qty := pr_qty entry |> <| pos_avail_qty := pr_avail_qty entry |>
      <| pos_frozen_qty := (pr_qty entry - pr_avail_qty entry)%f64 |>
      <| pos_long_short_type := pr_long_short_type entry |>
      <| pos_instrument_type := pr_instrument_type entry |>
      <| pos_update_timestamp := pr_update_timestamp entry |>
      <| pos_sync_timestamp := ts |> |> in
  let snap := snap <| eps_exch_data_raw := pr_message_raw entry |> in
  snap <| eps_sync_ts := ts |>.

(** The managed position seeded from a gateway entry. *)
Definition seed_pos (ts : Z) (entry : PositionReport) (pos : OmsManagedPosition)
    : OmsManagedPosition :=
  pos <| omp_qty_total := pr_qty entry |> <| omp_qty_available := pr_avail_qty entry |>
      <| omp_qty_frozen := (pr_qty entry - pr_avail_qty entry)%f64 |>
      <| omp_is_short := pr_long_short_type entry =? LsShort |>
      <| omp_symbol_exch := Some (pr_instrument_code entry) |>
      <| omp_last_exch_sync_ts := ts |>.

(** One iteration of the loop of [merge_gw_position_entries]. *)
Definition merge_position_entry (account_id ts : Z) (no_managed : bool) mgr
    (entry : PositionReport) : PositionManager :=
  match lookup2 account_id (pr_instrument_code entry) (pmgr_symbol_map mgr) with
  | None => mgr
  | Some ref_data =>
      let symbol := rd_instrument_id ref_data in
      let is_short := pr_long_short_type entry =? LsShort in
      let snap := default
        (mkExchPositionSnapshot account_id symbol (Some (pr_instrument_code entry))
           default_Position "" 0) (lookup2 account_id symbol (pmgr_exch mgr)) in
      let mgr := mgr <| pmgr_exch ::=
        insert_at2 account_id symbol (set_exch_snap account_id ts symbol entry snap) |> in
      let managed_sync_ts := omp_last_exch_sync_ts <$> get_position account_id symbol mgr in
      let should_seed := no_managed || default true ((λ t, t =? 0) <$> managed_sync_ts) in
      let mgr :=
        if should_seed then
          upsert account_id symbol
            (OmsManagedPosition_new account_id symbol (pr_instrument_type entry) is_short)
            (seed_pos ts entry) mgr
        else mgr in
      update_reconcile_status account_id symbol ts mgr
  end.

Definition merge_gw_position_entries (entries : list PositionReport) (account_id ts : Z) mgr
    : PositionManager :=
  let no_managed :=
    default true ((λ m, Nat.eqb (size m) 0) <$> pmgr_managed mgr !! account_id) in
  foldl (merge_position_entry account_id ts no_managed) mgr entries.

Definition build_position_snapshot `{!HashIter string} (account_id ts : Z) mgr
    : PositionUpdateEvent :=
  mkPositionUpdateEvent account_id (to_proto <$> get_positions_for_account account_id mgr) ts.
End PositionManager.

(** ** Balances *)

Record BalanceManager : Type := mkBalanceManager {
  bmgr_exch_balances : gmap Z (gmap string ExchBalanceSnapshot);
  bmgr_account_reverse_map : gmap string OmsRouteEntry;
  bmgr_gw_configs : gmap string GwConfigEntry;
}.
#[export] Instance eta_BalanceManager : Eta BalanceManager := λ r,
  mkBalanceManager (bmgr_exch_balances r) (bmgr_account_reverse_map r) (bmgr_gw_configs r).

Module BalanceManager.
Implicit Types (mgr : BalanceManager).

Definition reload_account_config (routes : list OmsRouteEntry) (gw_configs : list GwConfigEntry)
    mgr : BalanceManager :=
  let mgr := mgr <| bmgr_gw_configs := collect_map gwc_gw_key id gw_configs |> in
  let mgr := mgr <| bmgr_account_reverse_map := collect_map rt_exch_account_id id routes |> in
  foldl (λ mgr r, mgr <| bmgr_exch_balances ::= PositionManager.ensure (rt_account_id r) |>)
    mgr routes.

Definition new (account_routes : list OmsRouteEntry) (gw_configs : list GwConfigEntry)
    : BalanceManager :=
  reload_account_config account_routes gw_configs (mkBalanceManager ∅ ∅ ∅).

Definition init_balances (balances : list ExchBalanceSnapshot) mgr : BalanceManager :=
  foldl (λ mgr snap, mgr <| bmgr_exch_balances ::=
           insert_at2 (ebs_account_id snap) (ebs_asset snap) snap |>) mgr balances.

Definition get_balance (account_id : Z) (asset : string) mgr : option ExchBalanceSnapshot :=
  lookup2 account_id asset (bmgr_exch_balances mgr).

Definition get_balances_for_account `{!HashIter string} (account_id : Z) mgr
    : list ExchBalanceSnapshot :=
  default [] ((λ m, (hash_iter m).*2) <$> bmgr_exch_balances mgr !! account_id).

Definition resolve_account_id (exch_account_code : string) mgr : option Z :=
  rt_account_id <$> bmgr_account_reverse_map mgr !! exch_account_code.

(** The snapshot after a spot entry. *)
Definition set_snap (account_id ts : Z) (entry : PositionReport) (snap : ExchBalanceSnapshot)
    : ExchBalanceSnapshot :=
  let snap := snap <| ebs_symbol_exch := Some (pr_instrument_code entry) |> in
  let snap := snap <| ebs_balance_state ::= λ b,
    b <| bal_account_id := account_id |> <| bal_asset := pr_instrument_code entry |>
      <| bal_total_qty := pr_qty entry |> <| bal_avail_qty := pr_avail_qty entry |>
      <| bal_frozen_qty := (pr_qty entry - pr_avail_qty entry)%f64 |>
      <| bal_update_timestamp := pr_update_timestamp entry |>
      <| bal_sync_timestamp := ts |> <| bal_is_from_exch := true |>
      <| bal_exch_data_raw := pr_message_raw entry |> |> in
  let snap := snap <| ebs_exch_data_raw := pr_message_raw entry |> in
  snap <| ebs_sync_ts := ts |>.

Definition merge_balance_entry (account_id ts : Z) mgr (entry : PositionReport)
    : BalanceManager :=
  let asset := pr_instrument_code entry in
  let snap := default (mkExchBalanceSnapshot account_id asset (Some asset) default_Balance "" 0)
                (get_balance account_id asset mgr) in
  mgr <| bmgr_exch_balances ::= insert_at2 account_id asset (set_snap account_id ts entry snap) |>.

Definition merge_gw_balance_entries (entries : list PositionReport) (account_id ts : Z) mgr
    : BalanceManager :=
  foldl (merge_balance_entry account_id ts) mgr entries.

Definition build_balance_snapshot `{!HashIter string} (account_id ts : Z) mgr
    : BalanceUpdateEvent :=
  mkBalanceUpdateEvent account_id (ebs_balance_state <$> get_balances_for_account account_id mgr)
    ts.
End BalanceManager.
