(* ===== verification/V1Agree.v ===== *)
(** * The v1 and v2 ledgers compute the same values

    The v2 stores ([reservation_v2.rs], [position_v2.rs]) replaced the string
    keys of the v1 managers ([reservation_mgr.rs], [position_mgr.rs]) by integer
    ids.  For any injective naming of the ids, the two generations agree bit for
    bit, on every binary64 input, after every sequence of operations.  What is
    proved of one generation (the ledger refinement of [Reservation], the
    freezing and fill theorems of [Position]) therefore holds of the other. *)

From S2P Require Import Prelude F64 F64Grid Proto Intern Models Reservation Position Balance.
From S2P Require Import Config Metadata Utils OrderStore OmsCore V1Stores.

Section nested.
Context {V : Type}.
Implicit Types (m : gmap Z (gmap string V)) (k : Z) (s : string).

Lemma lookup2_insert_eq k s v m : lookup2 k s (insert_at2 k s v m) = Some v.
Proof. unfold lookup2, insert_at2. rewrite lookup_insert_eq. simpl. apply lookup_insert_eq. Qed.

Lemma lookup2_insert_ne k s v m k' s' :
  (k, s) ≠ (k', s') → lookup2 k' s' (insert_at2 k s v m) = lookup2 k' s' m.
Proof.
  intros Hne. unfold lookup2, insert_at2. destruct (decide (k = k')) as [->|].
  - rewrite lookup_insert_eq. simpl. rewrite lookup_insert_ne by naive_solver.
    destruct (m !! k'); [done|]. apply lookup_empty.
  - by rewrite lookup_insert_ne.
Qed.
End nested.

Section agree.
Context (name : Z → string) `{!Inj (=) (=) name}.

Lemma named_ne (a t a' t' : Z) : (a, t) ≠ (a', t') → (a, name t) ≠ (a', name t').
Proof using Type*. intros Hne [=-> Ht%(inj name)]. by subst. Qed.

(** ** Reservations *)

Definition res_rel (r1 : Reservation) (r2 : ReservationRecordV2) : Prop :=
  rsv_order_id r1 = rr_order_id r2 ∧ rsv_account_id r1 = rr_account_id r2 ∧
  rsv_symbol r1 = name (rr_target_id r2) ∧ rsv_reserved_qty r1 = rr_reserved_qty r2 ∧
  rsv_is_position r1 = bool_decide (rr_kind r2 = InventoryInstrument).

Definition same_option {A B} (R : A → B → Prop) : option A → option B → Prop :=
  option_relation R (λ _, False) (λ _, False).

Record res_agree (mgr : ReservationManager) (st : ReservationStoreV2) : Prop := {
  ra_res oid : same_option res_rel (rmgr_reservations mgr !! oid) (reservations st !! oid);
  ra_totals a t : lookup2 a (name t) (rmgr_account_totals mgr) = account_totals st !! (a, t);
}.

Inductive res_op : Set :=
| OpReserve (oid acct : Z) (kind : ReserveKind) (tgt : Z) (q : f64)
| OpRelease (oid : Z)
| OpReleasePartial (oid : Z) (q : f64).

Definition res_step_v1 (mgr : ReservationManager) (op : res_op) : ReservationManager :=
  match op with
  | OpReserve oid acct kind tgt q =>
      (ReservationManager.reserve oid acct (name tgt) q
         (bool_decide (kind = InventoryInstrument)) mgr).2
  | OpRelease oid => ReservationManager.release oid mgr
  | OpReleasePartial oid q => ReservationManager.release_partial oid q mgr
  end.
Definition res_step_v2 (st : ReservationStoreV2) (op : res_op) : ReservationStoreV2 :=
  match op with
  | OpReserve oid acct kind tgt q =>
      (ReservationStoreV2.reserve oid acct kind tgt q st).2
  | OpRelease oid => ReservationStoreV2.release oid st
  | OpReleasePartial oid q => ReservationStoreV2.release_partial oid q st
  end.

Lemma same_option_inv {A B} (R : A → B → Prop) x y :
  same_option R x y → (x = None ∧ y = None) ∨ ∃ a b, x = Some a ∧ y = Some b ∧ R a b.
Proof. destruct x, y; simpl; naive_solver. Qed.

Lemma same_insert {A B} (R : A → B → Prop) (m1 : gmap Z A) (m2 : gmap Z B) k x y :
  R x y → (∀ i, same_option R (m1 !! i) (m2 !! i)) →
  ∀ i, same_option R (<[k := x]> m1 !! i) (<[k := y]> m2 !! i).
Proof. intros HR Hm i. rewrite !lookup_insert. by case_decide. Qed.

Lemma same_delete {A B} (R : A → B → Prop) (m1 : gmap Z A) (m2 : gmap Z B) k :
  (∀ i, same_option R (m1 !! i) (m2 !! i)) →
  ∀ i, same_option R (delete k m1 !! i) (delete k m2 !! i).
Proof. intros Hm i. rewrite !lookup_delete. by case_decide. Qed.

Lemma sub_total_agree (m1 : gmap Z (gmap string f64)) (m2 : gmap (Z * Z) f64) acct tgt q :
  (∀ a t, lookup2 a (name t) m1 = m2 !! (a, t)) →
  ∀ a t, lookup2 a (name t) (ReservationManager.sub_total acct (name tgt) q m1) =
         ReservationStoreV2.sub_total (acct, tgt) q m2 !! (a, t).
Proof using Type*.
  intros Hm a t. unfold ReservationManager.sub_total, ReservationStoreV2.sub_total.
  pose proof (Hm acct tgt) as E. unfold lookup2 in E. rewrite <- E.
  destruct (m1 !! acct) as [inner|] eqn:Ea; simpl; [|apply Hm].
  destruct (inner !! name tgt) as [total|] eqn:Et; simpl; [|apply Hm].
  destruct (decide ((acct, tgt) = (a, t))) as [[= <- <-]|Hne].
  - unfold lookup2. rewrite lookup_insert_eq. simpl.
    case_match; by rewrite ?lookup_delete_eq, ?lookup_insert_eq.
  - transitivity (m2 !! (a, t));
      [|case_match; by rewrite ?lookup_delete_ne, ?lookup_insert_ne].
    rewrite <- Hm. unfold lookup2. destruct (decide (acct = a)) as [<-|].
    + rewrite lookup_insert_eq, Ea. simpl.
      assert (name tgt ≠ name t) by (intros ?%(inj name); congruence).
      case_match; by rewrite ?lookup_delete_ne, ?lookup_insert_ne.
    + by rewrite lookup_insert_ne.
Qed.

Lemma reserve_agree mgr st oid acct kind tgt q :
  res_agree mgr st →
  let r1 := ReservationManager.reserve oid acct (name tgt) q
              (bool_decide (kind = InventoryInstrument)) mgr in
  let r2 := ReservationStoreV2.reserve oid acct kind tgt q st in
  r1.1 = r2.1 ∧ res_agree r1.2 r2.2.
Proof using Type*.
  intros [Hr Ht]. unfold ReservationManager.reserve, ReservationStoreV2.reserve.
  destruct (same_option_inv _ _ _ (Hr oid)) as [[-> ->]|(r1 & r2 & -> & -> & _)]; simpl;
    [|done].
  split; [done|]. split; simpl.
  - apply same_insert; [done|apply Hr].
  - intros a t. rewrite Ht. destruct (decide ((acct, tgt) = (a, t))) as [[= <- <-]|Hne].
    + by rewrite lookup2_insert_eq, lookup_insert_eq.
    + rewrite lookup2_insert_ne by by apply named_ne. by rewrite lookup_insert_ne.
Qed.

Lemma release_agree mgr st oid :
  res_agree mgr st →
  res_agree (ReservationManager.release oid mgr) (ReservationStoreV2.release oid st).
Proof using Type*.
  intros [Hr Ht]. unfold ReservationManager.release, ReservationStoreV2.release.
  destruct (same_option_inv _ _ _ (Hr oid))
    as [[-> ->]|(r1 & r2 & -> & -> & (_ & -> & -> & -> & _))]; [done|].
  split; simpl; [by apply same_delete|by apply sub_total_agree].
Qed.

Lemma release_partial_agree mgr st oid q :
  res_agree mgr st →
  res_agree (ReservationManager.release_partial oid q mgr)
    (ReservationStoreV2.release_partial oid q st).
Proof using Type*.
  intros [Hr Ht]. unfold ReservationManager.release_partial, ReservationStoreV2.release_partial.
  destruct (same_option_inv _ _ _ (Hr oid)) as [[-> ->]|(r1 & r2 & -> & -> & R)]; [done|].
  destruct R as (E1 & E2 & E3 & E4 & E5).
  assert (res_rel (r1 <| rsv_reserved_qty ::= λ x, (x - f64.min q (rsv_reserved_qty r1))%f64 |>)
            (r2 <| rr_reserved_qty ::= λ x, (x - f64.min q (rr_reserved_qty r2))%f64 |>)) as R'
    by (unfold res_rel; simpl; by rewrite E4).
  simpl. rewrite E4. rewrite E4 in R'. case_match; split; simpl.
  - apply same_delete, same_insert; [exact R'|done].
  - rewrite E2, E3. by apply sub_total_agree.
  - apply same_insert; [exact R'|done].
  - rewrite E2, E3. by apply sub_total_agree.
Qed.

Lemma res_step_agree mgr st op :
  res_agree mgr st → res_agree (res_step_v1 mgr op) (res_step_v2 st op).
Proof using Type*.
  intros Ha. destruct op; simpl.
  - by apply reserve_agree.
  - by apply release_agree.
  - by apply release_partial_agree.
Qed.

Lemma res_run_agree ops mgr st :
  res_agree mgr st → res_agree (foldl res_step_v1 mgr ops) (foldl res_step_v2 st ops).
Proof using Type*.
  revert mgr st. induction ops as [|op ops IH]; intros mgr st Ha; [done|].
  apply IH. by apply res_step_agree.
Qed.

Lemma res_agree_new : res_agree ReservationManager.new ReservationStoreV2.new.
Proof. split; intros; unfold lookup2; simpl; by rewrite !lookup_empty. Qed.

Lemma res_agree_reads mgr st a t :
  res_agree mgr st →
  ReservationManager.total_reserved a (name t) mgr = ReservationStoreV2.total_reserved a t st.
Proof. intros [_ Ht]. unfold ReservationManager.total_reserved. by rewrite Ht. Qed.

(** ** Positions *)

Definition pos_rel (p1 : OmsManagedPosition) (p2 : ManagedPositionV2) : Prop :=
  omp_is_short p1 = mp_is_short p2 ∧ omp_qty_total p1 = mp_qty_total p2 ∧
  omp_qty_frozen p1 = mp_qty_frozen p2 ∧ omp_qty_available p1 = mp_qty_available p2 ∧
  omp_last_local_update_ts p1 = mp_last_local_update_ts p2 ∧
  omp_last_exch_sync_ts p1 = mp_last_exch_sync_ts p2 ∧
  omp_reconcile_status p1 = mp_reconcile_status p2 ∧
  omp_last_exch_qty p1 = mp_last_exch_qty p2 ∧
  omp_first_diverged_ts p1 = mp_first_diverged_ts p2 ∧
  omp_divergence_count p1 = mp_divergence_count p2 ∧
  omp_account_id p1 = mp_account_id p2 ∧ omp_instrument_type p1 = mp_instrument_type p2.

Record pos_agree (mgr : PositionManager) (st : PositionStoreV2) : Prop := {
  pa_managed a i : same_option pos_rel (lookup2 a (name i) (pmgr_managed mgr))
                     (managed st !! (a, i));
  pa_exch a i : lookup2 a (name i) (pmgr_exch mgr) = exch st !! (a, i);
}.

(** What the v2 core does with one position entry of a resolved instrument. *)
Definition sync_v2 (acct inst ts : Z) (entry : PositionReport) (st : PositionStoreV2)
    : PositionStoreV2 :=
  let st := st <| exch ::= λ m,
    <[(acct, inst) := OmsCoreV2.set_exch_position acct ts (name inst) entry (m !! (acct, inst))]> m |> in
  PositionStoreV2.update_reconcile_status acct inst ts
    (OmsCoreV2.seed_position acct inst ts entry st).

(** Gateway entries are resolved to instruments: by the symbol map in v1, by the
    metadata tables in v2.  The two resolve alike. *)
Context (symbol_map : gmap Z (gmap string InstrumentRefData)) (resolve : Z → string → option Z).
Context (Hresolve : ∀ a code,
  rd_instrument_id <$> lookup2 a code symbol_map = (name <$> resolve a code)).

Inductive pos_op : Set :=
| OpCheckFreeze (acct inst : Z) (q : f64) (is_short : bool)
| OpRelieve (acct inst : Z) (q : f64)
| OpDelta (acct inst : Z) (is_short : bool) (avail frozen total : f64) (ts : Z)
| OpSync (acct : Z) (entries : list PositionReport) (ts : Z).

Definition pos_step_v1 (mgr : PositionManager) (op : pos_op) : PositionManager :=
  match op with
  | OpCheckFreeze acct inst q is_short =>
      (PositionManager.check_and_freeze acct (name inst) q is_short mgr).2
  | OpRelieve acct inst q => PositionManager.unfreeze acct (name inst) q mgr
  | OpDelta acct inst is_short avail frozen total ts =>
      (PositionManager.apply_delta
         (mkPositionDelta acct (name inst) is_short avail frozen total) ts mgr).2
  | OpSync acct entries ts => PositionManager.merge_gw_position_entries entries acct ts mgr
  end.
Definition sync_entry_v2 (acct ts : Z) (st : PositionStoreV2) (entry : PositionReport)
    : PositionStoreV2 :=
  match resolve acct (pr_instrument_code entry) with
  | Some inst => sync_v2 acct inst ts entry st
  | None => st
  end.
Definition pos_step_v2 (st : PositionStoreV2) (op : pos_op) : PositionStoreV2 :=
  match op with
  | OpCheckFreeze acct inst q is_short =>
      (PositionStoreV2.check_and_freeze acct inst q is_short st).2
  | OpRelieve acct inst q => PositionStoreV2.unfreeze acct inst q st
  | OpDelta acct inst is_short avail frozen total ts =>
      PositionStoreV2.apply_delta (mkPositionDeltaV2 acct inst is_short avail frozen total) ts st
  | OpSync acct entries ts => foldl (sync_entry_v2 acct ts) st entries
  end.

(** An update names each instrument at most once. *)
Definition op_ok (op : pos_op) : Prop :=
  match op with
  | OpSync acct entries _ => NoDup (omap (λ e, resolve acct (pr_instrument_code e)) entries)
  | _ => True
  end.

Lemma insert_managed_agree mgr st a i p1 p2 :
  pos_agree mgr st → pos_rel p1 p2 →
  pos_agree (mgr <| pmgr_managed ::= insert_at2 a (name i) p1 |>)
    (st <| managed ::= <[(a, i) := p2]> |>).
Proof using Inj0.
  intros [Hm He] R. split; simpl; [|done]. intros a' i'.
  destruct (decide ((a, i) = (a', i'))) as [[= <- <-]|Hne].
  - by rewrite lookup2_insert_eq, lookup_insert_eq.
  - rewrite lookup2_insert_ne by by apply named_ne. by rewrite lookup_insert_ne.
Qed.

Lemma managed_default mgr st a i d1 d2 :
  pos_agree mgr st → pos_rel d1 d2 →
  pos_rel (default d1 (PositionManager.get_position a (name i) mgr))
    (default d2 (managed st !! (a, i))).
Proof.
  intros [Hm _] R. destruct (same_option_inv _ _ _ (Hm a i)) as [[E ->]|(? & ? & E & -> & ?)];
    unfold PositionManager.get_position; by rewrite E.
Qed.

Lemma fresh_rel a s i ty short :
  pos_rel (OmsManagedPosition_new a s ty short) (ManagedPositionV2_new a i ty short).
Proof. by unfold pos_rel. Qed.

(** Both records, field by field. *)
Ltac same_fields R :=
  destruct R as (? & ? & ? & ? & ? & ? & ? & ? & ? & ? & ? & ?);
  repeat match goal with H : ?f ?p1 = ?g ?p2 |- _ => revert H end;
  intros; unfold pos_rel; simpl; split_and!; try congruence.

Lemma freeze_agree mgr st a i q short :
  pos_agree mgr st →
  let r1 := PositionManager.check_and_freeze a (name i) q short mgr in
  let r2 := PositionStoreV2.check_and_freeze a i q short st in
  is_err r1.1 = is_err r2.1 ∧ pos_agree r1.2 r2.2.
Proof using Inj0.
  intros Ha. unfold PositionManager.check_and_freeze, PositionStoreV2.check_and_freeze.
  assert (omp_qty_available <$> PositionManager.get_position a (name i) mgr =
          (mp_qty_available <$> managed st !! (a, i))) as ->.
  { unfold PositionManager.get_position.
    destruct (same_option_inv _ _ _ (pa_managed _ _ Ha a i)) as [[-> ->]|(? & ? & -> & -> & R)];
      [done|]. simpl. f_equal. apply R. }
  case_match; simpl; [done|]. split; [done|].
  apply insert_managed_agree; [done|].
  pose proof (managed_default _ _ a i _ _ Ha (fresh_rel a (name i) i 0 short)) as R.
  same_fields R.
Qed.

Lemma unfreeze_agree mgr st a i q :
  pos_agree mgr st →
  pos_agree (PositionManager.unfreeze a (name i) q mgr) (PositionStoreV2.unfreeze a i q st).
Proof using Inj0.
  intros Ha. unfold PositionManager.unfreeze, PositionManager.modify, PositionStoreV2.unfreeze,
    PositionManager.get_position.
  destruct (same_option_inv _ _ _ (pa_managed _ _ Ha a i)) as [[-> ->]|(p & p2 & -> & -> & R)];
    [done|]. apply insert_managed_agree; [done|]. same_fields R.
Qed.

Lemma delta_pos_rel a i short av fr tot ts p1 p2 :
  pos_rel p1 p2 →
  pos_rel (PositionManager.apply_delta_pos (mkPositionDelta a (name i) short av fr tot) ts p1)
    (PositionStoreV2.apply_delta_pos (mkPositionDeltaV2 a i short av fr tot) ts p2).
Proof.
  intros (E1 & E2 & E3 & E4 & E). unfold PositionManager.apply_delta_pos,
    PositionStoreV2.apply_delta_pos. simpl. rewrite E2, E4.
  case_match; unfold pos_rel; simpl; rewrite E1, ?E2, ?E3, ?E4; naive_solver.
Qed.

Lemma reconcile_pos_rel q ts p1 p2 :
  pos_rel p1 p2 →
  pos_rel (PositionManager.reconcile_pos q ts p1) (PositionStoreV2.reconcile_pos q ts p2).
Proof.
  intros R. pose proof R as (E1 & E2 & E3 & E4 & E5 & E6 & E7 & E8 & E9 & E10 & E11).
  unfold PositionManager.reconcile_pos, PositionStoreV2.reconcile_pos. simpl.
  rewrite E2, E7, E10. case_match; [|case_match; [|case_match]];
    unfold pos_rel; simpl; naive_solver congruence.
Qed.

Lemma delta_agree mgr st a i short av fr tot ts :
  pos_agree mgr st →
  pos_agree (PositionManager.apply_delta (mkPositionDelta a (name i) short av fr tot) ts mgr).2
    (PositionStoreV2.apply_delta (mkPositionDeltaV2 a i short av fr tot) ts st).
Proof using Inj0.
  intros Ha. apply insert_managed_agree; [done|]. apply delta_pos_rel.
  apply managed_default; [done|]. apply fresh_rel.
Qed.

Lemma reconcile_agree mgr st a i ts :
  pos_agree mgr st →
  pos_agree (PositionManager.update_reconcile_status a (name i) ts mgr)
    (PositionStoreV2.update_reconcile_status a i ts st).
Proof using Inj0.
  intros Ha. unfold PositionManager.update_reconcile_status, PositionManager.modify,
    PositionStoreV2.update_reconcile_status, PositionManager.get_position.
  rewrite (pa_exch _ _ Ha).
  destruct (same_option_inv _ _ _ (pa_managed _ _ Ha a i)) as [[-> ->]|(p & p2 & -> & -> & R)];
    [done|]. apply insert_managed_agree; [done|]. by apply reconcile_pos_rel.
Qed.

(** The two decide alike whether to seed, once an account without positions is
    known to have none for the instrument. *)
Lemma seed_agree mgr st a i ts entry no_managed :
  pos_agree mgr st → (no_managed = true → lookup2 a (name i) (pmgr_managed mgr) = None) →
  let should := no_managed || default true ((λ t, t =? 0) <$>
                  (omp_last_exch_sync_ts <$> PositionManager.get_position a (name i) mgr)) in
  let fresh := OmsManagedPosition_new a (name i) (pr_instrument_type entry)
                 (pr_long_short_type entry =? LsShort) in
  pos_agree
    (if should then PositionManager.upsert a (name i) fresh (PositionManager.seed_pos ts entry) mgr
     else mgr)
    (OmsCoreV2.seed_position a i ts entry st).
Proof using Inj0.
  intros Ha Hno. cbv zeta. unfold PositionManager.upsert, OmsCoreV2.seed_position,
    PositionManager.get_position, PositionStoreV2.get_or_create_position.
  destruct (same_option_inv _ _ _ (pa_managed _ _ Ha a i)) as [[E1 E2]|(p & p2 & E1 & E2 & R)];
    rewrite E1, E2; simpl.
  - rewrite orb_true_r. set (p2 := ManagedPositionV2_new _ _ _ _).
    assert (st <| managed ::= <[(a, i) := p2]> |> <| managed ::= <[(a, i) := _]> |> =
            st <| managed ::= <[(a, i) := _]> |>) as ->
      by (unfold set_field; simpl; by rewrite insert_insert_eq).
    apply insert_managed_agree; [done|]. by unfold pos_rel.
  - destruct no_managed; [naive_solver|]. simpl.
    replace (mp_last_exch_sync_ts p2) with (omp_last_exch_sync_ts p) by apply R.
    case_match; [|done]. apply insert_managed_agree; [done|]. same_fields R.
Qed.

Lemma merge_entry_agree mgr st a ts no_managed entry :
  pmgr_symbol_map mgr = symbol_map → pos_agree mgr st →
  (∀ i, no_managed = true → resolve a (pr_instrument_code entry) = Some i →
        lookup2 a (name i) (pmgr_managed mgr) = None) →
  pos_agree (PositionManager.merge_position_entry a ts no_managed mgr entry)
    (sync_entry_v2 a ts st entry).
Proof using Inj0 Hresolve.
  intros Hmap Ha Hno. unfold PositionManager.merge_position_entry, sync_entry_v2.
  rewrite Hmap. pose proof (Hresolve a (pr_instrument_code entry)) as Hr.
  destruct (lookup2 a _ symbol_map) as [rd|], (resolve a _) as [i|]; simplify_eq/=; [|done].
  rewrite Hr. unfold sync_v2. apply reconcile_agree, seed_agree; [|auto].
  split; simpl; [apply Ha|]. intros a' i'.
  destruct (decide ((a, i) = (a', i'))) as [[= <- <-]|Hne].
  - rewrite lookup2_insert_eq, lookup_insert_eq, <- (pa_exch _ _ Ha). done.
  - rewrite lookup2_insert_ne, lookup_insert_ne by auto using named_ne. apply Ha.
Qed.

Lemma modify_map a s f mgr :
  pmgr_symbol_map (PositionManager.modify a s f mgr) = pmgr_symbol_map mgr.
Proof. unfold PositionManager.modify. by destruct (PositionManager.get_position _ _ _). Qed.

Lemma merge_entry_map a ts no_managed mgr entry :
  pmgr_symbol_map (PositionManager.merge_position_entry a ts no_managed mgr entry) =
  pmgr_symbol_map mgr.
Proof.
  unfold PositionManager.merge_position_entry, PositionManager.update_reconcile_status.
  destruct (lookup2 _ _ (pmgr_symbol_map mgr)); [|done]. rewrite modify_map. by case_match.
Qed.

(** An entry touches the managed position of its own instrument only. *)
Lemma merge_entry_frame mgr a ts no_managed entry i :
  pmgr_symbol_map mgr = symbol_map → resolve a (pr_instrument_code entry) ≠ Some i →
  let mgr' := PositionManager.merge_position_entry a ts no_managed mgr entry in
  lookup2 a (name i) (pmgr_managed mgr') = lookup2 a (name i) (pmgr_managed mgr).
Proof using Inj0 Hresolve.
  intros Hmap Hne. unfold PositionManager.merge_position_entry. rewrite Hmap.
  pose proof (Hresolve a (pr_instrument_code entry)) as Hr.
  destruct (lookup2 a _ symbol_map) as [rd|]; [|done].
  destruct (resolve a _) as [j|]; simplify_eq/=. rewrite Hr.
  assert ((a, name j) ≠ (a, name i)) by (apply named_ne; congruence).
  unfold PositionManager.update_reconcile_status, PositionManager.modify,
    PositionManager.upsert.
  case_match; simpl; case_match; simpl; by rewrite ?lookup2_insert_ne.
Qed.

Lemma sync_agree entries mgr st a ts no_managed :
  pmgr_symbol_map mgr = symbol_map → pos_agree mgr st →
  NoDup (omap (λ e, resolve a (pr_instrument_code e)) entries) →
  (∀ i, no_managed = true → i ∈ omap (λ e, resolve a (pr_instrument_code e)) entries →
        lookup2 a (name i) (pmgr_managed mgr) = None) →
  let mgr' := foldl (PositionManager.merge_position_entry a ts no_managed) mgr entries in
  pmgr_symbol_map mgr' = symbol_map ∧ pos_agree mgr' (foldl (sync_entry_v2 a ts) st entries).
Proof using Inj0 Hresolve.
  revert mgr st. induction entries as [|e entries IH]; intros mgr st Hmap Ha Hnd Hno; [done|].
  simpl in *. apply IH.
  - by rewrite merge_entry_map.
  - apply merge_entry_agree; [done..|]. intros i ? E. apply Hno; [done|]. rewrite E. set_solver.
  - by destruct (resolve a _); [apply NoDup_cons in Hnd as [_ ?]|].
  - intros i ? Hi. destruct (resolve a (pr_instrument_code e)) as [j|] eqn:E.
    + apply NoDup_cons in Hnd as [Hj _].
      rewrite (merge_entry_frame mgr a ts no_managed e i Hmap ltac:(set_solver)).
      apply Hno; set_solver.
    + rewrite (merge_entry_frame mgr a ts no_managed e i Hmap ltac:(by rewrite E)).
      by apply Hno.
Qed.

Lemma pos_step_agree mgr st op :
  op_ok op → pmgr_symbol_map mgr = symbol_map → pos_agree mgr st →
  pmgr_symbol_map (pos_step_v1 mgr op) = symbol_map ∧
  pos_agree (pos_step_v1 mgr op) (pos_step_v2 st op).
Proof using Inj0 Hresolve.
  intros Hok Hmap Ha. destruct op as [a i q short|a i q|a i short av fr tot ts|a entries ts];
    cbn [pos_step_v1 pos_step_v2].
  - split; [|by apply freeze_agree].
    unfold PositionManager.check_and_freeze. by case_match.
  - split; [|by apply unfreeze_agree].
    unfold PositionManager.unfreeze. by rewrite modify_map.
  - split; [done|by apply delta_agree].
  - apply sync_agree; [done..|]. intros i Hno _.
    unfold lookup2. destruct (pmgr_managed mgr !! a) as [m|] eqn:E; [|done]. simpl in *.
    apply Nat.eqb_eq, map_size_empty_inv in Hno. subst. apply lookup_empty.
Qed.

Lemma pos_run_agree ops mgr st :
  Forall op_ok ops → pmgr_symbol_map mgr = symbol_map → pos_agree mgr st →
  pos_agree (foldl pos_step_v1 mgr ops) (foldl pos_step_v2 st ops).
Proof using Inj0 Hresolve.
  revert mgr st. induction ops as [|op ops IH]; intros mgr st Hok Hmap Ha; [done|].
  apply Forall_cons in Hok as [Hop Hok]. 
  destruct (pos_step_agree mgr st op Hop Hmap Ha) as [? ?]. by apply IH.
Qed.
End agree.

(** The v1 and the v2 reservations agree.  Whatever sequence of reserves,
    releases and partial releases is run on both generations, on any binary64
    amounts, the reserved totals are the same float, and the two accept or refuse
    the same reservation and the same availability check. *)
Theorem reservations_agree (name : Z → string) `{!Inj (=) (=) name} ops :
  let mgr := foldl (res_step_v1 name) ReservationManager.new ops in
  let st := foldl res_step_v2 ReservationStoreV2.new ops in
  (∀ a t, ReservationManager.total_reserved a (name t) mgr =
          ReservationStoreV2.total_reserved a t st) ∧
  (∀ oid, rsv_reserved_qty <$> rmgr_reservations mgr !! oid =
          (rr_reserved_qty <$> reservations st !! oid)) ∧
  (∀ a t need have,
     is_err (ReservationManager.check_available a (name t) need have mgr) =
     is_err (ReservationStoreV2.check_available a t need have st)) ∧
  (∀ oid a kind t q,
     (ReservationManager.reserve oid a (name t) q
        (bool_decide (kind = InventoryInstrument)) mgr).1 =
     (ReservationStoreV2.reserve oid a kind t q st).1).
Proof.
  intros mgr st.
  pose proof (res_run_agree name ops _ _ (res_agree_new name)) as Ha. fold mgr st in Ha.
  split_and!.
  - intros. by apply res_agree_reads.
  - intros oid. destruct (same_option_inv _ _ _ (ra_res _ _ _ Ha oid))
      as [[-> ->]|(? & ? & -> & -> & R)]; [done|]. simpl. f_equal. apply R.
  - intros. unfold ReservationManager.check_available, ReservationStoreV2.check_available.
    rewrite (res_agree_reads name mgr st) by done. by case_match.
  - intros. by apply reserve_agree.
Qed.

Lemma reservations_agree_witness :
  let ops := [OpReserve 1 7 CashAsset 3 (f64.of_Z 10); OpReleasePartial 1 (f64.of_Z 4)] in
  ReservationManager.total_reserved 7 (pretty 3)
    (foldl (res_step_v1 pretty) ReservationManager.new ops) =
  ReservationStoreV2.total_reserved 7 3 (foldl res_step_v2 ReservationStoreV2.new ops).
Proof. intros ops. apply (proj1 (reservations_agree (pretty : Z → string) ops)). Defined.

Lemma pos_agree_new (name : Z → string) symbol_map routes :
  pos_agree name (PositionManager.new symbol_map routes) PositionStoreV2.new.
Proof.
  assert (∀ V (m : gmap Z (gmap string V)) a s,
    (∀ a s, lookup2 a s m = None) →
    lookup2 a s (foldl (λ m r, PositionManager.ensure (rt_account_id r) m) m routes) = None)
    as Hempty.
  { induction routes as [|r routes IH]; intros V m a s Hm; [apply Hm|]. simpl. apply IH.
    intros a' s'. unfold PositionManager.ensure, lookup2. specialize (Hm a' s').
    rewrite lookup_insert. case_decide as E; [|done]. rewrite E. unfold lookup2 in Hm.
    by destruct (m !! a'). }
  split; intros a i; simpl.
  - rewrite lookup_empty, Hempty; [done|]. intros. unfold lookup2. by rewrite lookup_empty.
  - rewrite lookup_empty, Hempty; [done|]. intros. unfold lookup2. by rewrite lookup_empty.
Qed.

(** The v1 and the v2 positions agree.  Whatever sequence of freezes,
    releases, fills and exchange syncs is run on both generations (each update
    naming an instrument at most once), on any binary64 quantities, every
    position holds the same total, frozen and available quantity, the same side
    and the same reconciliation state, and the same freezes are refused. *)
Theorem positions_agree (name : Z → string) `{!Inj (=) (=) name} symbol_map resolve routes ops :
  (∀ a code, rd_instrument_id <$> lookup2 a code symbol_map = (name <$> resolve a code)) →
  Forall (op_ok resolve) ops →
  let mgr := foldl (pos_step_v1 name) (PositionManager.new symbol_map routes) ops in
  let st := foldl (pos_step_v2 name resolve) PositionStoreV2.new ops in
  (∀ a i, same_option pos_rel (PositionManager.get_position a (name i) mgr)
            (PositionStoreV2.get_position a i st)) ∧
  (∀ a i, PositionManager.check_reconcile a (name i) mgr =
          PositionStoreV2.check_reconcile a i st) ∧
  (∀ a i q short, is_err (PositionManager.check_and_freeze a (name i) q short mgr).1 =
                  is_err (PositionStoreV2.check_and_freeze a i q short st).1).
Proof.
  intros Hr Hok mgr st.
  pose proof (pos_run_agree name symbol_map resolve Hr ops
                (PositionManager.new symbol_map routes) _ Hok eq_refl (pos_agree_new name symbol_map routes)) as Ha. fold mgr st in Ha.
  split_and!.
  - intros a i. apply Ha.
  - intros a i. unfold PositionManager.check_reconcile, PositionStoreV2.check_reconcile,
      PositionManager.get_position.
    destruct (same_option_inv _ _ _ (pa_managed _ _ _ Ha a i)) as [[-> ->]|(? & ? & -> & -> & R)];
      [done|]. simpl. apply R.
  - intros. by apply freeze_agree.
Qed.

Lemma positions_agree_witness :
  let rd := default_InstrumentRefData <| rd_instrument_id := pretty 5 |> in
  let symbol_map := {[ 7 := {[ "X" := rd ]} ]} : gmap Z (gmap string InstrumentRefData) in
  let resolve (a : Z) (code : string) :=
    if decide (a = 7 ∧ code = "X") then Some 5 else None in
  let entry := default_PositionReport <| pr_instrument_code := "X" |>
                 <| pr_qty := f64.of_Z 9 |> <| pr_avail_qty := f64.of_Z 9 |> in
  let ops := [OpSync 7 [entry] 100; OpCheckFreeze 7 5 (f64.of_Z 4) false] in
  same_option pos_rel
    (PositionManager.get_position 7 (pretty 5)
       (foldl (pos_step_v1 pretty) (PositionManager.new symbol_map []) ops))
    (PositionStoreV2.get_position 7 5
       (foldl (pos_step_v2 pretty resolve) PositionStoreV2.new ops)).
Proof.
  intros rd symbol_map resolve entry ops.
  apply (proj1 (positions_agree (pretty : Z → string) symbol_map resolve [] ops
                  ltac:(intros a code; unfold resolve, symbol_map, lookup2;
                        destruct (decide (a = 7)) as [->|];
                        [rewrite lookup_singleton_eq; simpl;
                         destruct (decide (code = "X")) as [->|];
                         [by rewrite lookup_singleton_eq, decide_True
                         |rewrite lookup_singleton_ne, decide_False by naive_solver; done]
                        |rewrite lookup_singleton_ne, decide_False by naive_solver; done])
                  ltac:(repeat constructor; set_solver))).
Defined.
