(* ===== verification/V1Orders.v ===== *)
(** * Orders, v1 ([order_mgr.rs])

    The v1 order book: one [OmsOrder] per id, the open set, the eviction queue,
    the context cache and the exchange-reference indexes.  [clk k] is what the
    [k]-th [gen_timestamp_ms()] call site of the operation reads;
    [omgr_id_counter] is the static counter of [gen_order_id]. *)

From S2P Require Import Prelude F64 Proto Intern Models Config Utils V1Stores.

(** [OrderContext] *)
Record OrderContext : Type := mkOrderContext {
  ctx_account_id : Z;
  ctx_fund_symbol : option string;
  ctx_pos_symbol : option string;
  ctx_route : option OmsRouteEntry;
  ctx_trading_config : option InstrumentTradingConfig;
  ctx_symbol_ref : option InstrumentRefData;
  ctx_gw_config : option GwConfigEntry;
  ctx_order : option OmsOrder;
  ctx_errors : list message;
}.
#[export] Instance eta_OrderContext : Eta OrderContext := λ r,
  mkOrderContext (ctx_account_id r) (ctx_fund_symbol r) (ctx_pos_symbol r) (ctx_route r)
    (ctx_trading_config r) (ctx_symbol_ref r) (ctx_gw_config r) (ctx_order r) (ctx_errors r).

Definition has_error (ctx : OrderContext) : bool := negb (length (ctx_errors ctx) =? 0)%nat.

(** [OmsOrder::is_in_terminal_state] *)
Definition order_is_terminal (order : OmsOrder) : bool :=
  is_terminal_status (ord_order_status (oo_order_state order)).

Record OrderManager : Type := mkOrderManager {
  omgr_refdata_lookup : gmap string (gmap string InstrumentRefData);
  omgr_use_time_emulation : bool;
  omgr_order_dict : gmap Z OmsOrder;
  omgr_open_order_ids : gset Z;
  omgr_order_id_queue : list Z;
  omgr_max_cached_orders : Z;
  omgr_context_cache : gmap Z OrderContext;
  omgr_exch_ref_to_order_id : gmap string (gmap string Z);
  omgr_external_order_dict : gmap string (gmap string Z);
  omgr_id_counter : Z;
}.
#[export] Instance eta_OrderManager : Eta OrderManager := λ r,
  mkOrderManager (omgr_refdata_lookup r) (omgr_use_time_emulation r) (omgr_order_dict r)
    (omgr_open_order_ids r) (omgr_order_id_queue r) (omgr_max_cached_orders r)
    (omgr_context_cache r) (omgr_exch_ref_to_order_id r) (omgr_external_order_dict r)
    (omgr_id_counter r).

Module OrderManager.
Implicit Types (mgr : OrderManager) (order : OmsOrder).

(** ** Pure functions *)

Definition apply_order_error (error_msg : message) (ts exec_type : Z) (rejection : Rejection)
    order : OmsOrder :=
  let exec_msg :=
    default_ExecMessage <| em_order_id := oo_order_id order |> <| em_exec_type := exec_type |>
      <| em_exec_success := false |> <| em_timestamp := ts |> <| em_error_msg := error_msg |>
      <| em_rejection_info := Some rejection |> in
  let order := order <| oo_exec_msgs ::= λ v, v ++ [exec_msg] |> in
  if exec_type =? ExecType_i32 PlacingOrder then
    order <| oo_order_state ::= λ s,
      s <| ord_snapshot_version ::= λ n, wrap_i32 (n + 1) |>
        <| ord_order_status := OrderStatus_i32 Rejected |>
        <| ord_updated_at := ts |>
        <| ord_error_msg := error_msg |> |>
  else order.

Definition build_error_event order : OrderUpdateEvent :=
  default_OrderUpdateEvent
    <| oue_order_id := oo_order_id order |>
    <| oue_account_id := oo_account_id order |>
    <| oue_timestamp := ord_updated_at (oo_order_state order) |>
    <| oue_order_snapshot := Some (oo_order_state order) |>
    <| oue_exec_message := last (oo_exec_msgs order) |>
    <| oue_order_source_id := ord_source_id (oo_order_state order) |>.

Definition map_order_status (gw_status : ExchangeOrderStatus) : OrderStatus :=
  match gw_status with
  | ExchOrderStatusBooked => Booked
  | ExchOrderStatusPartialFilled => PartiallyFilled
  | ExchOrderStatusFilled => Filled
  | ExchOrderStatusCancelled => Cancelled
  | ExchOrderStatusExchRejected => Rejected
  | ExchOrderStatusExpired => Cancelled
  | _ => Unspecified
  end.

Definition can_update_status (old new : OrderStatus) : bool :=
  negb (match old with Cancelled | Filled => true | _ => false end)
  && negb (bool_decide (new = Unspecified)).

Definition infer_trade_price (orig_qty orig_avg new_qty new_avg : f64) : option f64 :=
  if (new_qty =? f64.zero)%f64 then None
  else if (orig_avg =? f64.zero)%f64 then Some new_avg
  else if (new_avg =? f64.zero)%f64 then None
  else
    let increment := (new_qty - orig_qty)%f64 in
    if (increment =? f64.zero)%f64 then None
    else
      let orig_value := (orig_avg * orig_qty)%f64 in
      let new_value := (new_avg * new_qty)%f64 in
      Some ((new_value - orig_value) / increment)%f64.

Definition is_state_entry (e : OrderReportEntry) : bool :=
  match ent_report e with Some (ROrderStateReport _) => true | _ => false end.

(** The loop of [infer_state_entry]. *)
Definition add_trade_entry (acc : f64 * f64 * bool) (e : OrderReportEntry) : f64 * f64 * bool :=
  let '(new_qty, new_value, has_trade) := acc in
  match ent_report e with
  | Some (RTradeReport t) =>
      ((new_qty + trr_filled_qty t)%f64,
       (new_value + trr_filled_qty t * trr_filled_price t)%f64, true)
  | _ => acc
  end.

Definition infer_state_entry (entries : list OrderReportEntry) order : option OrderReportEntry :=
  if order_is_terminal order then None
  else if existsb is_state_entry entries then None
  else
    let '(new_qty, new_value, has_trade) :=
      foldl add_trade_entry (f64.zero, f64.zero, false) entries in
    if negb has_trade then None
    else
      let qty := ord_qty (oo_order_state order) in
      let total_qty := (new_qty + oo_acc_trades_filled_qty order)%f64 in
      if (total_qty >? qty)%f64 then None
      else
        let avg_price :=
          if negb (total_qty =? f64.zero)%f64 then
            ((oo_acc_trades_value order + new_value) / total_qty)%f64
          else f64.zero in
        let exch_status :=
          if (f64.abs (total_qty - qty) <? eps8)%f64 then ExchOrderStatusFilled
          else ExchOrderStatusPartialFilled in
        let report :=
          default_OrderStateReport
            <| osr_exch_order_status := ExchangeOrderStatus_i32 exch_status |>
            <| osr_filled_qty := total_qty |>
            <| osr_unfilled_qty := (qty - total_qty)%f64 |>
            <| osr_avg_price := avg_price |> in
        Some (mkOrderReportEntry (OrderReportType_i32 OrderRepTypeState)
                (Some (ROrderStateReport report))).

Definition finalize_avg_price order : OmsOrder :=
  match oo_trades order with
  | [] => order
  | _ :: _ =>
      if order_is_terminal order
         && (ord_filled_avg_price (oo_order_state order) =? f64.zero)%f64
         && negb (oo_acc_trades_filled_qty order =? f64.zero)%f64 then
        order <| oo_order_state ::= λ s,
          s <| ord_filled_avg_price := (oo_acc_trades_value order /
                                        oo_acc_trades_filled_qty order)%f64 |> |>
      else order
  end.

(** ** Construction *)

Definition new (seed : Z) (refdata_lookup : gmap string (gmap string InstrumentRefData))
    (use_time_emulation : bool) (max_cached_orders : Z) : OrderManager :=
  mkOrderManager refdata_lookup use_time_emulation ∅ ∅ [] max_cached_orders ∅ ∅ ∅
    (init_id_gen seed).

Definition reload_refdata_lookup (refdata_lookup : gmap string (gmap string InstrumentRefData))
    mgr : OrderManager :=
  mgr <| omgr_refdata_lookup := refdata_lookup |>.

(** One iteration of [init_with_orders]. *)
Definition init_order mgr order : OrderManager :=
  let state := oo_order_state order in
  if ord_order_id state =? 0 then mgr
  else
    let oid := oo_order_id order in
    let mgr :=
      if negb (order_is_terminal order)
         && negb (ord_filled_qty state =? ord_qty state)%f64 then
        mgr <| omgr_open_order_ids ::= λ s, {[oid]} ∪ s |>
      else mgr in
    let mgr :=
      if negb (is_empty (ord_exch_order_ref state)) then
        mgr <| omgr_exch_ref_to_order_id ::=
          insert_at2 (ord_gw_key state) (ord_exch_order_ref state) oid |>
      else mgr in
    mgr <| omgr_order_dict ::= <[oid := order]> |>.

Definition init_with_orders (orders : list OmsOrder) mgr : OrderManager :=
  foldl init_order mgr orders.

Definition timestamp mgr (emulated now : Z) : Z :=
  if omgr_use_time_emulation mgr then emulated else now.

Definition build_gw_order_req (now : Z) (req : OrderRequest) (ctx : OrderContext) mgr
    : outcome SendOrderRequest :=
  ref_data ← unwrap "symbol_ref required for gw req" (ctx_symbol_ref ctx);
  route ← unwrap "route required for gw req" (ctx_route ctx);
  let scaled_qty := if rd_qty_precision ref_data >? 0
                    then round_to_precision (req_qty req) (rd_qty_precision ref_data)
                    else req_qty req in
  let scaled_price := if rd_price_precision ref_data >? 0
                      then round_to_precision (req_price req) (rd_price_precision ref_data)
                      else req_price req in
  let gw_req := default_SendOrderRequest in
  let gw_req := gw_req <| gwreq_exch_account_id := rt_exch_account_id route |> in
  let gw_req := gw_req <| gwreq_order_type := req_order_type req |> in
  let gw_req := gw_req <| gwreq_buysell_type := req_buy_sell_type req |> in
  let gw_req := gw_req <| gwreq_openclose_type := req_open_close_type req |> in
  let gw_req := gw_req <| gwreq_correlation_id := req_order_id req |> in
  let gw_req := gw_req <| gwreq_instrument := rd_instrument_id_exchange ref_data |> in
  let gw_req := gw_req <| gwreq_scaled_qty := scaled_qty |> in
  let gw_req := gw_req <| gwreq_scaled_price := scaled_price |> in
  let gw_req := gw_req <| gwreq_timestamp := timestamp mgr (req_timestamp req) now |> in
  let gw_req := gw_req <| gwreq_time_inforce_type := req_time_inforce_type req |> in
  mret (match req_extra_properties req with
        | Some extra => gw_req <| gwreq_exch_specific_params := Some extra |>
        | None => gw_req
        end).

(** The record [create_order] inserts. *)
Definition new_order (req : OrderRequest) (ctx : option OrderContext)
    (gw_req : option SendOrderRequest) (ts : Z) : OmsOrder :=
  let state := default_Order
    <| ord_snapshot_version := 1 |>
    <| ord_order_id := req_order_id req |>
    <| ord_account_id := req_account_id req |>
    <| ord_gw_key := default "" (rt_gw_key <$> (ctx ≫= ctx_route)) |>
    <| ord_order_status := OrderStatus_i32 Pending |>
    <| ord_instrument := req_instrument_code req |>
    <| ord_instrument_exch := default "" (rd_instrument_id_exchange <$> (ctx ≫= ctx_symbol_ref)) |>
    <| ord_price := default (req_price req) (gwreq_scaled_price <$> gw_req) |>
    <| ord_qty := default (req_qty req) (gwreq_scaled_qty <$> gw_req) |>
    <| ord_filled_qty := f64.zero |>
    <| ord_source_id := req_source_id req |>
    <| ord_buy_sell_type := req_buy_sell_type req |>
    <| ord_open_close_type := req_open_close_type req |>
    <| ord_created_at := ts |>
    <| ord_updated_at := ts |> in
  mkOmsOrder false (req_order_id req) (req_account_id req) None (Some req) gw_req None state
    [] f64.zero f64.zero [] [] [] 0.

Definition create_order (clk : nat → Z) (req : OrderRequest) (ctx : option OrderContext) mgr
    : outcome (OmsOrder * OrderManager) :=
  gw_req ← match ctx with
           | Some c => r ← build_gw_order_req (clk 0%nat) req c mgr; mret (Some r)
           | None => mret None
           end;
  let ts := timestamp mgr (req_timestamp req) (clk 1%nat) in
  let order := new_order req ctx gw_req ts in
  mret (order, mgr <| omgr_order_dict ::= <[oo_order_id order := order]> |>
                   <| omgr_open_order_ids ::= λ s, {[oo_order_id order]} ∪ s |>).

(** ** Lookups *)

Definition get_order_by_id (order_id : Z) mgr : option OmsOrder := omgr_order_dict mgr !! order_id.

Definition get_order_by_exch_ref (gw_key exch_order_ref : string) mgr : option OmsOrder :=
  oid ← lookup2 gw_key exch_order_ref (omgr_exch_ref_to_order_id mgr);
  omgr_order_dict mgr !! oid.

Definition get_order (order_id : Z) (gw_key exch_order_ref : string) mgr : option OmsOrder :=
  if negb (order_id =? 0) then omgr_order_dict mgr !! order_id
  else get_order_by_exch_ref gw_key exch_order_ref mgr.

Definition get_open_orders_for_account `{!HashIter Z} (account_id : Z) mgr : list OmsOrder :=
  filter (λ o, oo_account_id o = account_id)
    (omap (λ id, omgr_order_dict mgr !! id) (set_iter (omgr_open_order_ids mgr))).

Definition is_marked_as_external (gw_key exch_order_ref : string) mgr : bool :=
  bool_decide (is_Some (lookup2 gw_key exch_order_ref (omgr_external_order_dict mgr))).

Definition get_external_order (gw_key exch_order_ref : string) mgr : option OmsOrder :=
  oid ← lookup2 gw_key exch_order_ref (omgr_external_order_dict mgr);
  omgr_order_dict mgr !! oid.

(** ** Closing *)

Definition cleanup_order (order_id : Z) mgr : OrderManager :=
  let mgr :=
    match omgr_order_dict mgr !! order_id with
    | Some order =>
        let mgr := mgr <| omgr_order_dict ::= delete order_id |> in
        mgr <| omgr_exch_ref_to_order_id ::=
          alter (delete (ord_exch_order_ref (oo_order_state order)))
            (ord_gw_key (oo_order_state order)) |>
    | None => mgr
    end in
  mgr <| omgr_context_cache ::= delete order_id |>.

Definition remove_open_order (order_id : Z) mgr : OrderManager :=
  let mgr := mgr <| omgr_open_order_ids ::= λ s, s ∖ {[order_id]} |> in
  let mgr := mgr <| omgr_order_id_queue ::= λ q, q ++ [order_id] |> in
  if omgr_max_cached_orders mgr <? Z.of_nat (length (omgr_order_id_queue mgr)) then
    match omgr_order_id_queue mgr with
    | oldest :: q => cleanup_order oldest (mgr <| omgr_order_id_queue := q |>)
    | [] => mgr
    end
  else mgr.

(** ** Errors *)

Definition update_with_oms_error (clk : nat → Z) (oms_order : option OmsOrder)
    (req : OrderRequest) (error_msg : message) (rejection : Rejection) mgr
    : outcome (OrderUpdateEvent * OrderManager) :=
  let ts := timestamp mgr (req_timestamp req) (clk 2%nat) in
  mgr ← match oms_order with
        | Some o => mret (mgr <| omgr_order_dict ::= <[oo_order_id o := o]> |>)
        | None =>
            '(stub, mgr) ← create_order clk req None mgr;
            mret (mgr <| omgr_order_dict ::= <[oo_order_id stub := stub]> |>)
        end;
  order ← unwrap "order_dict.get_mut(&order_req.order_id)"
            (omgr_order_dict mgr !! req_order_id req);
  let order := apply_order_error error_msg ts (ExecType_i32 PlacingOrder) rejection order in
  let mgr := mgr <| omgr_order_dict ::= <[req_order_id req := order]> |> in
  let mgr :=
    if order_is_terminal order then
      mgr <| omgr_open_order_ids ::= λ s, s ∖ {[oo_order_id order]} |>
    else mgr in
  order ← unwrap "order_dict.get(&order_req.order_id)" (omgr_order_dict mgr !! req_order_id req);
  mret (build_error_event order, mgr).

Definition update_with_gw_error (order_id ts : Z) (error_msg : message) (exec_type : Z)
    (rejection : Rejection) mgr : option (OrderUpdateEvent * OrderManager) :=
  order ← omgr_order_dict mgr !! order_id;
  let order := apply_order_error error_msg ts exec_type rejection order in
  Some (build_error_event order, mgr <| omgr_order_dict ::= <[order_id := order]> |>).

(** ** Reports *)

(** The state of the entry loop of [update_with_report]: its five flags, the
    order, and the reference index. *)
Record Progress : Type := mkProgress {
  pg_original_order_updated : bool;
  pg_new_trade : bool;
  pg_new_oms_trade : bool;
  pg_new_fee : bool;
  pg_new_exec_msg : bool;
  pg_order : OmsOrder;
  pg_exch_refs : gmap string (gmap string Z);
}.
#[global] Instance eta_Progress : Eta Progress := λ r,
  mkProgress (pg_original_order_updated r) (pg_new_trade r) (pg_new_oms_trade r)
    (pg_new_fee r) (pg_new_exec_msg r) (pg_order r) (pg_exch_refs r).

Definition apply_linkage (gw_key : string) (order_id : Z) (linkage_only : bool)
    (linkage : OrderIdLinkageReport) (pg : Progress) : Progress :=
  let exch_ref := lnk_exch_order_ref linkage in
  let pg := pg <| pg_order ::= λ o,
    o <| oo_exch_order_ref := Some exch_ref |>
      <| oo_order_state ::= λ s, s <| ord_exch_order_ref := exch_ref |> |> |> in
  let pg := pg <| pg_exch_refs ::= insert_at2 gw_key exch_ref order_id |> in
  if linkage_only then
    match default Unspecified
            (OrderStatus_try_from (ord_order_status (oo_order_state (pg_order pg)))) with
    | Pending | Rejected =>
        pg <| pg_order ::= λ o, o <| oo_order_state ::= λ s,
                s <| ord_order_status := OrderStatus_i32 Booked |> |> |>
           <| pg_original_order_updated := true |>
    | _ => pg
    end
  else pg.

(** The fill part of a state report. *)
Definition apply_state_fill (state_report : OrderStateReport) order : OmsOrder :=
  let s := oo_order_state order in
  let new_filled :=
    if negb (osr_filled_qty state_report =? f64.zero)%f64 then
      Some (osr_filled_qty state_report)
    else if negb (osr_unfilled_qty state_report =? f64.zero)%f64 then
      Some (ord_qty s - osr_unfilled_qty state_report)%f64
    else None in
  let order :=
    match new_filled with
    | Some nf =>
        order <| oo_order_state ::= λ s, s <| ord_filled_qty ::= f64.max nf |> |>
    | None => order
    end in
  if negb (osr_avg_price state_report =? f64.zero)%f64 then
    order <| oo_order_state ::= λ s, s <| ord_filled_avg_price := osr_avg_price state_report |> |>
  else order.

Definition apply_state (order_id ts : Z) (state_report : OrderStateReport) (pg : Progress)
    : Progress :=
  let orig_filled := ord_filled_qty (oo_order_state (pg_order pg)) in
  let orig_avg := ord_filled_avg_price (oo_order_state (pg_order pg)) in
  let pg := pg <| pg_order ::= apply_state_fill state_report |> in
  let s := oo_order_state (pg_order pg) in
  let fill_increment := (ord_filled_qty s - orig_filled)%f64 in
  let pg :=
    if (fill_increment >? eps8)%f64 then
      let pseudo_id :=
        display_i64 order_id +:+ "_" +:+
        display_i64 (Z.of_nat (length (oo_order_inferred_trades (pg_order pg)))) in
      let inferred_price :=
        infer_trade_price orig_filled orig_avg (ord_filled_qty s) (ord_filled_avg_price s) in
      let inferred_trade := default_Trade
        <| tr_order_id := ord_order_id s |> <| tr_ext_order_ref := ord_exch_order_ref s |>
        <| tr_ext_trade_id := pseudo_id |> <| tr_filled_ts := ts |>
        <| tr_filled_qty := fill_increment |>
        <| tr_filled_price := default f64.zero inferred_price |> in
      pg <| pg_order ::= λ o, o <| oo_order_inferred_trades ::= λ v, v ++ [inferred_trade] |> |>
         <| pg_new_oms_trade := true |>
    else pg in
  let new_status := map_order_status (default ExchOrderStatusUnspecified
    (ExchangeOrderStatus_try_from (osr_exch_order_status state_report))) in
  let pg :=
    if can_update_status (default Unspecified (OrderStatus_try_from (ord_order_status s)))
         new_status then
      pg <| pg_order ::= λ o, o <| oo_order_state ::= λ s,
              s <| ord_order_status := OrderStatus_i32 new_status |> |> |>
    else pg in
  pg <| pg_original_order_updated := true |>.

(** The trade a report records. *)
Definition report_trade (ts : Z) (s : Order) (trade_report : TradeReport) : Trade :=
  {| tr_order_id := ord_order_id s;
     tr_ext_order_ref := ord_exch_order_ref s;
     tr_ext_trade_id := trr_exch_trade_id trade_report;
     tr_filled_qty := trr_filled_qty trade_report;
     tr_filled_price := trr_filled_price trade_report;
     tr_filled_ts := ts;
     tr_buy_sell_type := ord_buy_sell_type s;
     tr_instrument := ord_instrument s;
     tr_account_id := ord_account_id s;
     tr_fill_type := trr_fill_type trade_report;
     tr_fees := [];
     tr_exch_pnl := trr_exch_pnl trade_report |}.

Definition apply_trade (ts : Z) (trade_report : TradeReport) (pg : Progress) : Progress :=
  let trade := report_trade ts (oo_order_state (pg_order pg)) trade_report in
  pg <| pg_order ::= λ o,
        o <| oo_acc_trades_filled_qty ::= λ q, (q + tr_filled_qty trade)%f64 |>
          <| oo_acc_trades_value ::= λ v, (v + tr_filled_qty trade * tr_filled_price trade)%f64 |>
          <| oo_trades ::= λ v, v ++ [trade] |> |>
     <| pg_new_trade := true |> <| pg_original_order_updated := true |>.

Definition apply_exec (ts : Z) (exec_report : ExecReport) (pg : Progress) : Progress :=
  let oms_exec_type :=
    match default ExchExecUnspecified (ExchExecType_try_from (exr_exec_type exec_report)) with
    | ExchRejected => PlacingOrder
    | CancelReject => Cancel
    | _ => ExecUnspecified
    end in
  if bool_decide (oms_exec_type = ExecUnspecified) then pg
  else
    match exr_error_info exec_report with
    | Some err_info =>
        let msg := "err from gw: code=" +:+ display_i64 (eei_error_code err_info) +:+
                   ", msg=" +:+ eei_error_message err_info in
        pg <| pg_order ::= apply_order_error (text msg) ts (ExecType_i32 oms_exec_type)
                (default default_Rejection (exr_rejection_info exec_report)) |>
           <| pg_new_exec_msg := true |> <| pg_original_order_updated := true |>
    | None => pg
    end.

Definition apply_fee (ts : Z) (fee_report : FeeReport) (pg : Progress) : Progress :=
  let fee := mkFee (ord_order_id (oo_order_state (pg_order pg))) (fr_fee_symbol fee_report)
               (fr_fee_qty fee_report) (fr_fee_type fee_report) ts in
  pg <| pg_order ::= λ o, o <| oo_fees ::= λ v, v ++ [fee] |> |>
     <| pg_new_fee := true |> <| pg_original_order_updated := true |>.

(** One iteration of the entry loop. *)
Definition apply_entry (gw_key : string) (order_id ts : Z) (linkage_only : bool) (pg : Progress)
    (entry : OrderReportEntry) : Progress :=
  match default OrderRepTypeUnspecified (OrderReportType_try_from (ent_report_type entry)),
        ent_report entry with
  | OrderRepTypeLinkage, Some (ROrderIdLinkageReport r) =>
      apply_linkage gw_key order_id linkage_only r pg
  | OrderRepTypeState, Some (ROrderStateReport r) => apply_state order_id ts r pg
  | OrderRepTypeTrade, Some (RTradeReport r) => apply_trade ts r pg
  | OrderRepTypeExec, Some (RExecReport r) => apply_exec ts r pg
  | OrderRepTypeFee, Some (RFeeReport r) => apply_fee ts r pg
  | _, _ => pg
  end.

Definition resolve_report (report : OrderReport) mgr : option Z :=
  if negb (rep_order_id report =? 0) then
    if bool_decide (is_Some (omgr_order_dict mgr !! rep_order_id report))
    then Some (rep_order_id report) else None
  else lookup2 (rep_exchange report) (rep_exch_order_ref report) (omgr_exch_ref_to_order_id mgr).

(** The event of an updated order. *)
Definition report_event (now order_id : Z) (report : OrderReport) (pg : Progress) mgr
    : OrderUpdateEvent :=
  let order := pg_order pg in
  let event := default_OrderUpdateEvent
    <| oue_order_id := order_id |>
    <| oue_account_id := ord_account_id (oo_order_state order) |>
    <| oue_timestamp := timestamp mgr (rep_update_timestamp report) now |>
    <| oue_order_snapshot := Some (oo_order_state order) |>
    <| oue_order_source_id := ord_source_id (oo_order_state order) |>
    <| oue_gw_report_timestamp_ns := wrap_i64 (rep_update_timestamp report * 1000000) |>
    <| oue_gw_received_at_ns := rep_gw_received_at_ns report |> in
  let event := if pg_new_oms_trade pg
    then event <| oue_order_inferred_trade := last (oo_order_inferred_trades order) |>
    else event in
  let event := if pg_new_trade pg
    then event <| oue_last_trade := last (oo_trades order) |> else event in
  let event := if pg_new_exec_msg pg
    then event <| oue_exec_message := last (oo_exec_msgs order) |> else event in
  if pg_new_fee pg then event <| oue_last_fee := last (oo_fees order) |> else event.

(** The order a report starts from: stamped, and linked if it had no reference. *)
Definition touch_order (report : OrderReport) order : OmsOrder :=
  order <| oo_order_state ::= λ s,
    let s := s <| ord_updated_at := rep_update_timestamp report |> in
    if is_empty (ord_exch_order_ref s)
    then s <| ord_exch_order_ref := rep_exch_order_ref report |> else s |>.

Definition update_with_report (now : Z) (report : OrderReport) mgr
    : list OrderUpdateEvent * OrderManager :=
  let ts := rep_update_timestamp report in
  match resolve_report report mgr with
  | None => ([], mgr)
  | Some order_id =>
      match omgr_order_dict mgr !! order_id with
      | None => ([], mgr)
      | Some order =>
          let entries := rep_order_report_entries report in
          let extra_entry := infer_state_entry entries order in
          let linkage_only :=
            (length entries =? 1)%nat && negb (bool_decide (is_Some extra_entry)) in
          let pg := foldl (apply_entry (rep_exchange report) order_id ts linkage_only)
            (mkProgress false false false false false (touch_order report order)
               (omgr_exch_ref_to_order_id mgr))
            (entries ++ option_list extra_entry) in
          let mgr := mgr <| omgr_exch_ref_to_order_id := pg_exch_refs pg |> in
          if pg_original_order_updated pg then
            let pg := pg <| pg_order ::= finalize_avg_price |>
                         <| pg_order ::= λ o, o <| oo_order_state ::= λ s,
                              s <| ord_snapshot_version ::= λ n, wrap_i32 (n + 1) |> |> |> in
            let mgr := mgr <| omgr_order_dict ::= <[order_id := pg_order pg]> |> in
            let event := report_event now order_id report pg mgr in
            ([event], if order_is_terminal (pg_order pg) then remove_open_order order_id mgr
                      else mgr)
          else ([], mgr <| omgr_order_dict ::= <[order_id := pg_order pg]> |>)
      end
  end.

(** ** External orders *)

Definition external_order (id : Z) (report : OrderReport) : OmsOrder :=
  let gw_key := rep_exchange report in
  let state := default_Order
    <| ord_order_id := id |>
    <| ord_exch_order_ref := rep_exch_order_ref report |>
    <| ord_account_id := rep_account_id report |>
    <| ord_gw_key := gw_key |>
    <| ord_order_status := OrderStatus_i32 Pending |>
    <| ord_created_at := rep_update_timestamp report |>
    <| ord_updated_at := rep_update_timestamp report |>
    <| ord_source_id := "External@" +:+ gw_key |> in
  mkOmsOrder true id (rep_account_id report) (Some (rep_exch_order_ref report)) None None None
    state [] f64.zero f64.zero [] [] [] 0.

Definition register_external (report : OrderReport) mgr : OrderManager :=
  let gw_key := rep_exchange report in
  let exch_ref := rep_exch_order_ref report in
  let '(dummy_id, counter) := gen_order_id (omgr_id_counter mgr) in
  mgr <| omgr_id_counter := counter |>
      <| omgr_external_order_dict ::= insert_at2 gw_key exch_ref dummy_id |>
      <| omgr_exch_ref_to_order_id ::= insert_at2 gw_key exch_ref dummy_id |>
      <| omgr_order_dict ::= <[dummy_id := external_order dummy_id report]> |>
      <| omgr_open_order_ids ::= λ s, {[dummy_id]} ∪ s |>.

Definition handle_external_order_report (now : Z) (report : OrderReport) mgr
    : outcome (option OrderUpdateEvent * OrderManager) :=
  let mgr :=
    if negb (is_marked_as_external (rep_exchange report) (rep_exch_order_ref report) mgr)
    then register_external report mgr else mgr in
  resolved_id ← unwrap "external_order_dict.get"
    (lookup2 (rep_exchange report) (rep_exch_order_ref report) (omgr_external_order_dict mgr));
  let '(events, mgr) :=
    update_with_report now (report <| rep_order_id := resolved_id |>) mgr in
  mret (head events, mgr).

Definition generate_order_snapshot (order_id ts : Z) mgr : option OrderUpdateEvent :=
  order ← omgr_order_dict mgr !! order_id;
  Some (default_OrderUpdateEvent
    <| oue_order_id := order_id |>
    <| oue_account_id := oo_account_id order |>
    <| oue_timestamp := ts |>
    <| oue_order_snapshot := Some (oo_order_state order) |>
    <| oue_order_source_id := ord_source_id (oo_order_state order) |>).
End OrderManager.
