(* ===== verification/V1Core.v ===== *)
(** * The v1 OMS core ([oms_core.rs])

    [OmsCore] composes the v1 managers.  A handler is a function from the core
    to an [outcome] of the emitted actions and the new core, as in [OmsCore];
    [clk k] is what the [k]-th [gen_timestamp_ms()] call site reads, and
    [tick k] shifts the clock by the call sites of earlier steps. *)

From S2P Require Import Prelude F64 Proto Intern Models Config Utils V1Stores V1Orders.

Record OmsCore : Type := mkOmsCore {
  v1_config : ConfdataManager;
  v1_order_mgr : OrderManager;
  v1_position_mgr : PositionManager;
  v1_balance_mgr : BalanceManager;
  v1_reservation_mgr : ReservationManager;
  v1_use_time_emulation : bool;
  v1_risk_check_enabled : bool;
  v1_handle_external_orders : bool;
  v1_panic_accounts : gset Z;
  v1_pending_order_reports : gmap string (gmap string (list OrderReport));
  v1_total_retries_orders : Z;
  v1_total_retries_cancels : Z;
}.
#[export] Instance eta_OmsCore : Eta OmsCore := λ r,
  mkOmsCore (v1_config r) (v1_order_mgr r) (v1_position_mgr r) (v1_balance_mgr r)
    (v1_reservation_mgr r) (v1_use_time_emulation r) (v1_risk_check_enabled r)
    (v1_handle_external_orders r) (v1_panic_accounts r) (v1_pending_order_reports r)
    (v1_total_retries_orders r) (v1_total_retries_cancels r).

(** [errors.join("; ")] *)
Fixpoint join_errors (errors : list message) : message :=
  match errors with
  | [] => []
  | [e] => e
  | e :: errors => e ++ [Lit "; "] ++ join_errors errors
  end.

(** [HashMap::insert] on the string map of an [ExtraData]. *)
Definition data_map_insert (k v : string) (m : list (string * string)) : list (string * string) :=
  filter (λ kv, kv.1 ≠ k) m ++ [(k, v)].

Definition tick (n : nat) (clk : nat → Z) : nat → Z := λ k, clk (n + k)%nat.

Module OmsCore.
Implicit Types (c : OmsCore) (ctx : OrderContext).

Definition handled_v1 : Type := outcome (list OmsAction * OmsCore).

Section core.
Context `{!HashIter string, !HashIter Z}.

(** ** Construction, warm start, reload *)

Definition values {K V} `{HashIter K} (m : gmap K V) : list V := (hash_iter m).*2.

Definition new (seed : Z) (config : ConfdataManager) (use_time_emulation risk_check_enabled
    handle_external_orders : bool) (max_cached_orders : Z) : OmsCore :=
  let routes := values (cf_account_routes config) in
  mkOmsCore config
    (OrderManager.new seed (cf_refdata_by_gw_key config) use_time_emulation max_cached_orders)
    (PositionManager.new (cf_refdata_by_account_id config) routes)
    (BalanceManager.new routes (values (cf_gw_configs config)))
    ReservationManager.new use_time_emulation risk_check_enabled handle_external_orders
    ∅ ∅ 0 0.

Definition init_state (orders : list OmsOrder) (positions : list OmsManagedPosition)
    (balances : list ExchBalanceSnapshot) c : OmsCore :=
  c <| v1_order_mgr ::= OrderManager.init_with_orders orders |>
    <| v1_position_mgr ::= PositionManager.init_positions positions |>
    <| v1_balance_mgr ::= BalanceManager.init_balances balances |>.

Definition reload_config (new_config : ConfdataManager) c : OmsCore :=
  let routes := values (cf_account_routes new_config) in
  let c := c <| v1_config := new_config |> in
  let c := c <| v1_order_mgr ::=
    OrderManager.reload_refdata_lookup (cf_refdata_by_gw_key new_config) |> in
  let c := c <| v1_position_mgr ::=
    PositionManager.reload_symbol_map (cf_refdata_by_account_id new_config) |> in
  let c := c <| v1_position_mgr ::= PositionManager.reload_account_config routes |> in
  c <| v1_balance_mgr ::=
    BalanceManager.reload_account_config routes (values (cf_gw_configs new_config)) |>.

(** ** Context resolution *)

(** The fund and position symbols of an instrument. *)
Definition context_symbols (rd : InstrumentRefData) : string * string :=
  if rd_instrument_type rd =? SPOT_INSTRUMENT_TYPE then (rd_quote_asset rd, rd_base_asset rd)
  else
    (if negb (is_empty (rd_settlement_asset rd)) then rd_settlement_asset rd
     else rd_quote_asset rd, rd_instrument_id rd).

Definition resolve_context (instrument_code : string) (account_id : Z) c : OrderContext :=
  let symbol_ref := cf_refdata (v1_config c) !! instrument_code in
  let route := cf_account_routes (v1_config c) !! account_id in
  let gw_config := r ← route; cf_gw_configs (v1_config c) !! rt_gw_key r in
  let trading_config := cf_trading_configs (v1_config c) !! instrument_code in
  let symbols := context_symbols <$> symbol_ref in
  mkOrderContext account_id (fst <$> symbols) (snd <$> symbols) route trading_config symbol_ref
    gw_config None [].

Definition resolve_context_for_order (order_id : Z) c : option OrderContext :=
  order ← OrderManager.get_order_by_id order_id (v1_order_mgr c);
  let instrument := default (ord_instrument (oo_order_state order))
                      (req_instrument_code <$> oo_oms_req order) in
  Some ((resolve_context instrument (oo_account_id order) c) <| ctx_order := Some order |>).

(** ** Buffered reports *)

Definition add_to_pending_reports (gw_key : string) (report : OrderReport) c : OmsCore :=
  let exch_order_id := rep_exch_order_ref report in
  if is_empty exch_order_id then c
  else c <| v1_pending_order_reports ::= λ m,
         insert_at2 gw_key exch_order_id
           (default [] (lookup2 gw_key exch_order_id m) ++ [report]) m |>.

Definition pop_pending_reports (gw_key exch_order_ref : string) c : list OrderReport * OmsCore :=
  match v1_pending_order_reports c !! gw_key with
  | None => ([], c)
  | Some gw_map =>
      let reports := default [] (gw_map !! exch_order_ref) in
      let gw_map := delete exch_order_ref gw_map in
      (reports,
       c <| v1_pending_order_reports ::=
         if Nat.eqb (size gw_map) 0 then delete gw_key else <[gw_key := gw_map]> |>)
  end.

(** ** Order placement *)

Definition push_error (e : message) ctx : OrderContext := ctx <| ctx_errors ::= λ v, v ++ [e] |>.

(** The context of a request with the resolution and risk errors. *)
Definition checked_context (req : OrderRequest) c : OrderContext :=
  let ctx := resolve_context (req_instrument_code req) (req_account_id req) c in
  let ctx :=
    match ctx_symbol_ref ctx, ctx_gw_config ctx with
    | None, _ => push_error (text "Instrument not found") ctx
    | Some _, None => push_error (text "Exchange gw not found") ctx
    | Some _, Some _ => ctx
    end in
  if v1_risk_check_enabled c then
    match ctx_trading_config ctx ≫= itc_max_order_size with
    | Some max_size =>
        if (req_qty req >? max_size)%f64 then
          push_error [Lit "order qty "; DispF64 (req_qty req); Lit " exceeds max ";
                      DispF64 max_size] ctx
        else ctx
    | None => ctx
    end
  else ctx.

Definition bookkeeping ctx : bool :=
  default false (itc_bookkeeping_balance <$> ctx_trading_config ctx).

(** The pre-trade check of a buy: funds, then the cash reservation. *)
Definition pre_trade_buy (req : OrderRequest) (tc : InstrumentTradingConfig) ctx c
    : OrderContext * OmsCore :=
  let fund_sym := default "" (ctx_fund_symbol ctx) in
  let order_value := (req_qty req * req_price req)%f64 in
  let ctx :=
    if itc_balance_check tc then
      let exch_avail := default f64.zero
        ((λ b, bal_avail_qty (ebs_balance_state b)) <$>
         BalanceManager.get_balance (req_account_id req) fund_sym (v1_balance_mgr c)) in
      match ReservationManager.check_available (req_account_id req) fund_sym order_value
              exch_avail (v1_reservation_mgr c) with
      | Err e => push_error e ctx
      | Ok _ => ctx
      end
    else ctx in
  if has_error ctx then (ctx, c)
  else (ctx, c <| v1_reservation_mgr ::= λ m,
         (ReservationManager.reserve (req_order_id req) (req_account_id req) fund_sym
            order_value false m).2 |>).

(** The pre-trade check of a sell: inventory, then its reservation. *)
Definition pre_trade_sell (req : OrderRequest) (tc : InstrumentTradingConfig) ctx c
    : OrderContext * OmsCore :=
  let pos_sym := default "" (ctx_pos_symbol ctx) in
  let '(ctx, c) :=
    if itc_balance_check tc then
      let '(r, positions) := PositionManager.check_and_freeze (req_account_id req) pos_sym
                               (req_qty req) false (v1_position_mgr c) in
      (match r with Err e => push_error e ctx | Ok _ => ctx end,
       c <| v1_position_mgr := positions |>)
    else (ctx, c) in
  if has_error ctx then (ctx, c)
  else (ctx, c <| v1_reservation_mgr ::= λ m,
         (ReservationManager.reserve (req_order_id req) (req_account_id req) pos_sym
            (req_qty req) true m).2 |>).

(** The pre-trade section; [Err] is its early return. *)
Definition pre_trade (req : OrderRequest) ctx c : result (OrderContext * OmsCore) string :=
  match ctx_trading_config ctx with
  | Some tc =>
      if negb (has_error ctx) && itc_bookkeeping_balance tc && negb (itc_use_margin tc) then
        if req_buy_sell_type req =? BsBuy then Ok (pre_trade_buy req tc ctx c)
        else if req_buy_sell_type req =? BsSell then Ok (pre_trade_sell req tc ctx c)
        else Err "unsupported buy_sell_type"
      else Ok (ctx, c)
  | None => Ok (ctx, c)
  end.

Definition oms_rejection (reason : Z) (recoverable : bool) (error_message : string) : Rejection :=
  default_Rejection <| rej_reason := reason |> <| rej_recoverable := recoverable |>
    <| rej_source := OmsReject |> <| rej_error_message := error_message |>.

Definition is_closed (order_id : Z) c : bool :=
  default false (order_is_terminal <$> OrderManager.get_order_by_id order_id (v1_order_mgr c)).

(** From the creation of the order record on. *)
Definition submit_order (clk : nat → Z) (req : OrderRequest) ctx c : handled_v1 :=
  let order_ctx := if has_error ctx then None else Some ctx in
  '(oms_order, orders) ← OrderManager.create_order clk req order_ctx (v1_order_mgr c);
  let orders := orders <| omgr_context_cache ::= <[req_order_id req := ctx]> |> in
  let c := c <| v1_order_mgr := orders |> in
  '(actions, c) ←
    if has_error ctx then
      let c := c <| v1_reservation_mgr ::= ReservationManager.release (req_order_id req) |> in
      '(event, orders) ← OrderManager.update_with_oms_error clk (Some oms_order) req
        (join_errors (ctx_errors ctx)) (oms_rejection RejReasonOmsInvalidState false "")
        (v1_order_mgr c);
      mret ([V1PublishOrderUpdate event], c <| v1_order_mgr := orders |>)
    else
      gw_req ← unwrap "gw_req always set on non-error order" (oo_gw_req oms_order);
      let gw_key := default "" (gwc_gw_key <$> ctx_gw_config ctx) in
      mret ([V1SendOrderToGw gw_key gw_req (oo_order_id oms_order)
               (ord_created_at (oo_order_state oms_order))], c);
  let terminal := is_closed (req_order_id req) c in
  mret (actions ++ [V1PersistOrder oms_order terminal terminal], c).

Definition process_order_inner (clk : nat → Z) (req : OrderRequest) c
    : result handled_v1 string :=
  if bool_decide (req_account_id req ∈ v1_panic_accounts c) then Ok (mret ([], c))
  else
    match pre_trade req (checked_context req c) c with
    | Err e => Err e
    | Ok (ctx, c) => Ok (submit_order clk req ctx c)
    end.

Definition process_order (clk : nat → Z) (req : OrderRequest) c : handled_v1 :=
  match process_order_inner clk req c with
  | Ok r => r
  | Err e =>
      '(event, orders) ← OrderManager.update_with_oms_error clk None req (text e)
        (oms_rejection RejReasonOmsInternalError false e) (v1_order_mgr c);
      mret ([V1PublishOrderUpdate event], c <| v1_order_mgr := orders |>)
  end.

(** ** Batches *)

(** [gw_orders.entry(gw_key).or_default().push(action)] *)
Definition push_by_gw (gw_key : string) (a : OmsAction) (m : gmap string (list OmsAction))
    : gmap string (list OmsAction) :=
  <[gw_key := default [] (m !! gw_key) ++ [a]]> m.

Definition split_send (acc : gmap string (list OmsAction) * list OmsAction) (a : OmsAction)
    : gmap string (list OmsAction) * list OmsAction :=
  match a with
  | V1SendOrderToGw gw_key _ _ _ => (push_by_gw gw_key a acc.1, acc.2)
  | _ => (acc.1, acc.2 ++ [a])
  end.

Definition split_cancel (acc : gmap string (list OmsAction) * list OmsAction) (a : OmsAction)
    : gmap string (list OmsAction) * list OmsAction :=
  match a with
  | V1SendCancelToGw gw_key _ => (push_by_gw gw_key a acc.1, acc.2)
  | _ => (acc.1, acc.2 ++ [a])
  end.

(** The request loop of a batch: one clock window per request. *)
Fixpoint batch_loop {A} (f : (nat → Z) → A → OmsCore → handled_v1)
    (split : gmap string (list OmsAction) * list OmsAction → OmsAction →
             gmap string (list OmsAction) * list OmsAction)
    (clk : nat → Z) (reqs : list A) (acc : gmap string (list OmsAction) * list OmsAction) c
    : outcome (gmap string (list OmsAction) * list OmsAction * OmsCore) :=
  match reqs with
  | [] => mret (acc, c)
  | req :: reqs =>
      '(actions, c) ← f clk req c;
      batch_loop f split (tick 3 clk) reqs (foldl split acc actions) c
  end.

(** [SendOrderToGw { request, .. } => Some(request)] *)
Definition send_request (a : OmsAction) : option SendOrderRequest :=
  match a with V1SendOrderToGw _ r _ _ => Some r | _ => None end.
Definition cancel_request (a : OmsAction) : option CancelOrderRequest :=
  match a with V1SendCancelToGw _ r => Some r | _ => None end.

Definition group_sends c (other : list OmsAction) (entry : string * list OmsAction)
    : list OmsAction :=
  let '(gw_key, oa_list) := entry in
  let supports_batch := default false
    (gwc_support_batch_order <$> cf_gw_configs (v1_config c) !! gw_key) in
  if (1 <? length oa_list)%nat && supports_batch then
    other ++ [V1BatchSendOrdersToGw gw_key (omap send_request oa_list)]
  else other ++ oa_list.

Definition group_cancels c (other : list OmsAction) (entry : string * list OmsAction)
    : list OmsAction :=
  let '(gw_key, ca_list) := entry in
  let supports_batch := default false
    (gwc_support_batch_cancel <$> cf_gw_configs (v1_config c) !! gw_key) in
  if (1 <? length ca_list)%nat && supports_batch then
    other ++ [V1BatchCancelToGw gw_key (omap cancel_request ca_list)]
  else other ++ ca_list.

Definition batch_process_orders (clk : nat → Z) (reqs : list OrderRequest) c : handled_v1 :=
  '(gw_orders, other_actions, c) ← batch_loop process_order split_send clk reqs (∅, []) c;
  mret (foldl (group_sends c) other_actions (hash_iter gw_orders), c).

(** ** Cancel *)

(** The rejection of a cancel by the state of its order. *)
Definition cancel_rejection (order : OmsOrder) : option Rejection :=
  let rejection :=
    if order_is_terminal order then
      Some (oms_rejection RejReasonOmsInvalidState true "order already in terminal state")
    else None in
  if is_empty (ord_exch_order_ref (oo_order_state order))
  then Some (oms_rejection RejReasonOmsInvalidState true "") else rejection.

(** The value of a field the exchange requires. *)
Definition cancel_field (order : OmsOrder) (field : string) : string :=
  if decide (field = "order_id") then display_i64 (oo_order_id order)
  else if decide (field = "exch_order_ref") then ord_exch_order_ref (oo_order_state order)
  else if decide (field = "instrument") then ord_instrument (oo_order_state order)
  else "".

Definition cancel_extra (order_id : Z) ctx c : outcome ExtraData :=
  match ctx_gw_config ctx with
  | None => mret default_ExtraData
  | Some gw_cfg =>
      for_each (λ extra field,
        order ← unwrap "get_order_by_id(order_id)"
                  (OrderManager.get_order_by_id order_id (v1_order_mgr c));
        mret (extra <| xd_data_map ::= data_map_insert field (cancel_field order field) |>))
        (gwc_cancel_required_fields gw_cfg) default_ExtraData
  end.

(** The cached context of an order, reconstructed if it is missing. *)
Definition cached_context (order_id : Z) c : option (OrderContext * OmsCore) :=
  match omgr_context_cache (v1_order_mgr c) !! order_id with
  | Some ctx => Some (ctx, c)
  | None =>
      order ← OrderManager.get_order_by_id order_id (v1_order_mgr c);
      let ctx := resolve_context (ord_instrument (oo_order_state order)) (oo_account_id order) c in
      Some (ctx, c <| v1_order_mgr ::= λ m, m <| omgr_context_cache ::= <[order_id := ctx]> |> |>)
  end.

Definition process_cancel (req : OrderCancelRequest) c : handled_v1 :=
  let order_id := creq_order_id req in
  match cached_context order_id c with
  | None => mret ([], c)
  | Some (ctx, c) =>
      let c := c <| v1_order_mgr ::= λ m, m <| omgr_order_dict ::=
        alter (λ o, o <| oo_cancel_attempts ::= λ n, wrap_u32 (n + 1) |>) order_id |> |> in
      match OrderManager.get_order_by_id order_id (v1_order_mgr c) with
      | None => mret ([], c)
      | Some order =>
          match cancel_rejection order with
          | Some rej =>
              match OrderManager.update_with_gw_error order_id (creq_timestamp req)
                      (text (rej_error_message rej)) (ExecType_i32 Cancel) rej (v1_order_mgr c)
              with
              | Some (oue, orders) =>
                  mret ([V1PublishOrderUpdate oue], c <| v1_order_mgr := orders |>)
              | None => mret ([], c)
              end
          | None =>
              extra ← cancel_extra order_id ctx c;
              let gw_cancel := default_CancelOrderRequest
                <| gwcan_exch_order_ref := ord_exch_order_ref (oo_order_state order) |>
                <| gwcan_order_id := order_id |>
                <| gwcan_exch_specific_params := Some extra |>
                <| gwcan_timestamp := creq_timestamp req |> in
              let gw_key := default "" (rt_gw_key <$> ctx_route ctx) in
              mret ([V1SendCancelToGw gw_key gw_cancel], c)
          end
      end
  end.

Definition batch_process_cancels (reqs : list OrderCancelRequest) c : handled_v1 :=
  '(cancel_by_gw, other_actions, c) ←
    batch_loop (λ _, process_cancel) split_cancel (λ _, 0) reqs (∅, []) c;
  mret (foldl (group_cancels c) other_actions (hash_iter cancel_by_gw), c).

(** ** Order reports *)

(** Persist and publish one update event. *)
Definition event_actions (event : OrderUpdateEvent) c : list OmsAction :=
  let oid := oue_order_id event in
  let terminal := is_closed oid c in
  (match OrderManager.get_order_by_id oid (v1_order_mgr c) with
   | Some order => [V1PersistOrder order terminal terminal]
   | None => []
   end) ++ [V1PublishOrderUpdate event].

(** The delta of one fill. *)
Definition fill_delta ctx (pos_sym : string) (is_buy sell_was_frozen : bool) (filled_qty : f64)
    : PositionDelta :=
  {| pdl_account_id := ctx_account_id ctx;
     pdl_instrument_code := pos_sym;
     pdl_is_short := false;
     pdl_avail_change := if is_buy then filled_qty
                         else if sell_was_frozen then f64.zero else f64.zero;
     pdl_frozen_change := if sell_was_frozen then f64.neg filled_qty else f64.zero;
     pdl_total_change := if is_buy then filled_qty else f64.neg filled_qty |}.

Definition is_buy ctx : bool :=
  default false ((λ o, ord_buy_sell_type (oo_order_state o) =? BsBuy) <$> ctx_order ctx).

(** One iteration of the trade loop; the flag is [position_changed]. *)
Definition apply_fill ctx (order_id ts : Z) (acc : bool * OmsCore) (entry : OrderReportEntry)
    : bool * OmsCore :=
  let '(_, c) := acc in
  match ent_report entry with
  | Some (RTradeReport trade) =>
      let pos_sym := default "" (ctx_pos_symbol ctx) in
      let sell_was_frozen := negb (is_buy ctx)
        && default false (itc_balance_check <$> ctx_trading_config ctx) in
      let delta := fill_delta ctx pos_sym (is_buy ctx) sell_was_frozen (trr_filled_qty trade) in
      let c := c <| v1_position_mgr ::= λ m, (PositionManager.apply_delta delta ts m).2 |> in
      let order_price := default (trr_filled_price trade)
        ((λ o, ord_price (oo_order_state o)) <$> ctx_order ctx) in
      let release_amount :=
        if is_buy ctx then (trr_filled_qty trade * order_price)%f64 else trr_filled_qty trade in
      (true, c <| v1_reservation_mgr ::=
        ReservationManager.release_partial order_id release_amount |>)
  | _ => acc
  end.

Definition side_label (pos : OmsManagedPosition) : string :=
  if omp_is_short pos then "short" else "long".

Definition process_fill_for_report ctx (report : OrderReport) (ts : Z) c
    : list OmsAction * OmsCore :=
  let pos_sym := default "" (ctx_pos_symbol ctx) in
  let '(position_changed, c) :=
    foldl (apply_fill ctx (rep_order_id report) ts) (false, c) (rep_order_report_entries report) in
  if position_changed then
    ([V1PublishPositionUpdate
        (PositionManager.build_position_snapshot (ctx_account_id ctx) ts (v1_position_mgr c))] ++
     (match PositionManager.get_position (ctx_account_id ctx) pos_sym (v1_position_mgr c) with
      | Some pos => [V1PersistPosition (ctx_account_id ctx) pos_sym (side_label pos) pos]
      | None => []
      end), c)
  else ([], c).

(** The release of a closed order's reservation and of its frozen remainder. *)
Definition close_order (ctx : option OrderContext) c (event : OrderUpdateEvent) : OmsCore :=
  let oid := oue_order_id event in
  match OrderManager.get_order_by_id oid (v1_order_mgr c) with
  | Some order =>
      if order_is_terminal order then
        let c := c <| v1_reservation_mgr ::= ReservationManager.release oid |> in
        match ctx with
        | Some ctx =>
            let s := oo_order_state order in
            let tracked := default false
              ((λ t, itc_bookkeeping_balance t && itc_balance_check t) <$> ctx_trading_config ctx) in
            match ctx_pos_symbol ctx with
            | Some pos_sym =>
                let unfilled := (ord_qty s - ord_filled_qty s)%f64 in
                if tracked && (ord_buy_sell_type s =? BsSell) && (unfilled >? f64.zero)%f64 then
                  c <| v1_position_mgr ::=
                    PositionManager.unfreeze (ctx_account_id ctx) pos_sym unfilled |>
                else c
            | None => c
            end
        | None => c
        end
      else c
  | None => c
  end.

(** Replay of one buffered report of an order of this OMS. *)
Definition replay_pending (now : Z) (acc : list OmsAction * OmsCore) (report : OrderReport)
    : list OmsAction * OmsCore :=
  let '(actions, c) := acc in
  let '(more, orders) := OrderManager.update_with_report now report (v1_order_mgr c) in
  let c := c <| v1_order_mgr := orders |> in
  (actions ++ (more ≫= λ event, event_actions event c), c).

(** A report of an order this OMS placed, with its context. *)
Definition process_own_report (clk : nat → Z) (ctx : option OrderContext) (report : OrderReport) c
    : list OmsAction * OmsCore :=
  let ts := rep_update_timestamp report in
  let '(actions, c) :=
    match ctx with
    | Some ctx => if bookkeeping ctx then process_fill_for_report ctx report ts c else ([], c)
    | None => ([], c)
    end in
  let '(update_events, orders) :=
    OrderManager.update_with_report (clk 0%nat) report (v1_order_mgr c) in
  let c := c <| v1_order_mgr := orders |> in
  let c := foldl (close_order ctx) c update_events in
  let ctx_order_exch_ref := (λ o, ord_exch_order_ref (oo_order_state o)) <$> (ctx ≫= ctx_order) in
  let '(actions, c) :=
    match ctx_order_exch_ref with
    | Some exch_ref =>
        let '(pending, c) := pop_pending_reports (rep_exchange report) exch_ref c in
        foldl (replay_pending (clk 1%nat)) (actions, c) pending
    | None => (actions, c)
    end in
  (actions ++ (update_events ≫= λ event, event_actions event c), c).

(** The account a report is booked on when external orders are handled. *)
Definition report_account (report : OrderReport) c : option Z :=
  if negb (rep_account_id report =? 0) then Some (rep_account_id report)
  else
    match cf_gw_key_to_account_ids (v1_config c) !! rep_exchange report with
    | Some ids => match set_iter ids with [id] => Some id | _ => None end
    | None => None
    end.

(** A report of an external order, with the reports buffered for it. *)
Definition process_external_report (clk : nat → Z) (report : OrderReport) c : handled_v1 :=
  '(oue, orders) ←
    OrderManager.handle_external_order_report (clk 0%nat) report (v1_order_mgr c);
  let c := c <| v1_order_mgr := orders |> in
  let '(pending, c) := pop_pending_reports (rep_exchange report) (rep_exch_order_ref report) c in
  '(events, c) ← for_each (λ acc pending_report,
      let '(events, c) := acc in
      '(e, orders) ←
        OrderManager.handle_external_order_report (clk 1%nat) pending_report (v1_order_mgr c);
      mret (events ++ option_list e, c <| v1_order_mgr := orders |>))
    pending (option_list oue, c);
  mret (events ≫= λ event, event_actions event c, c).

Definition process_order_report (clk : nat → Z) (report : OrderReport) c : handled_v1 :=
  let own_report (report : OrderReport) :=
    if negb (rep_order_id report =? 0) then
      let ctx := match omgr_context_cache (v1_order_mgr c) !! rep_order_id report with
                 | Some ctx => Some ctx
                 | None => resolve_context_for_order (rep_order_id report) c
                 end in
      process_own_report clk ctx report c
    else
      match OrderManager.get_order_by_exch_ref (rep_exchange report)
              (rep_exch_order_ref report) (v1_order_mgr c) with
      | Some o =>
          process_own_report clk (resolve_context_for_order (oo_order_id o) c) report c
      | None => ([], add_to_pending_reports (rep_exchange report) report c)
      end in
  if v1_handle_external_orders c then
    match report_account report c with
    | None => mret ([], c)
    | Some account_id =>
        let report := report <| rep_account_id := account_id |> in
        let is_external := rep_order_source_type report =? OrderSourceNonTq in
        let is_known_external := (rep_order_source_type report =? OrderSourceUnknown)
          && OrderManager.is_marked_as_external (rep_exchange report)
               (rep_exch_order_ref report) (v1_order_mgr c) in
        if is_external || is_known_external then process_external_report clk report c
        else mret (own_report report)
    end
  else mret (own_report report).

(** ** Balance and position updates *)

Definition is_spot_entry (entry : PositionReport) : bool :=
  pr_instrument_type entry =? SPOT_INSTRUMENT_TYPE.

Definition persist_balance (account_id : Z) c (entry : PositionReport) : list OmsAction :=
  let asset := pr_instrument_code entry in
  match BalanceManager.get_balance account_id asset (v1_balance_mgr c) with
  | Some snap => [V1PersistBalance account_id asset snap]
  | None => []
  end.

Definition persist_position (account_id : Z) c (entry : PositionReport) : list OmsAction :=
  let instrument_code := pr_instrument_code entry in
  match PositionManager.get_position account_id instrument_code (v1_position_mgr c) with
  | Some pos => [V1PersistPosition account_id instrument_code (side_label pos) pos]
  | None => []
  end.

Definition process_balance_update (clk : nat → Z) (update : BalanceUpdate) c
    : list OmsAction * OmsCore :=
  match bu_balances update with
  | [] => ([], c)
  | first :: _ =>
      let ts := clk 0%nat in
      match BalanceManager.resolve_account_id (pr_exch_account_code first) (v1_balance_mgr c) with
      | None => ([], c)
      | Some account_id =>
          let balance_entries := filter (λ e, is_spot_entry e = true) (bu_balances update) in
          let position_entries := filter (λ e, is_spot_entry e = false) (bu_balances update) in
          let exch_ts := pr_update_timestamp first in
          let '(actions, c) :=
            match balance_entries with
            | [] => ([], c)
            | _ :: _ =>
                let c := c <| v1_balance_mgr ::=
                  BalanceManager.merge_gw_balance_entries balance_entries account_id ts |> in
                (V1PublishBalanceUpdate
                   (BalanceManager.build_balance_snapshot account_id exch_ts (v1_balance_mgr c))
                 :: (balance_entries ≫= persist_balance account_id c), c)
            end in
          match position_entries with
          | [] => (actions, c)
          | _ :: _ =>
              let c := c <| v1_position_mgr ::=
                PositionManager.merge_gw_position_entries position_entries account_id ts |> in
              (actions ++
               V1PublishPositionUpdate
                 (PositionManager.build_position_snapshot account_id exch_ts (v1_position_mgr c))
               :: (position_entries ≫= persist_position account_id c), c)
          end
      end
  end.

(** ** Rechecks *)

Definition network_rejection (can_retry : bool) : Rejection :=
  default_Rejection <| rej_reason := RejReasonNetworkError |> <| rej_source := ExchReject |>
    <| rej_recoverable := can_retry |>.

Definition process_recheck_order (req : OrderRecheckRequest) c : list OmsAction * OmsCore :=
  let c := c <| v1_total_retries_orders ::= λ n, wrap_u32 (n + 1) |> in
  let ts := wrap_i64 (orr_timestamp req + wrap_i64 (orr_check_delay_secs req * 1000)) in
  let oid := orr_order_id req in
  let is_pending := default false
    ((λ o, bool_decide (OrderStatus_try_from (ord_order_status (oo_order_state o)) = Some Pending))
     <$> OrderManager.get_order_by_id oid (v1_order_mgr c)) in
  if is_pending then
    match OrderManager.update_with_gw_error oid ts (text "Order still pending after recheck")
            (ExecType_i32 PlacingOrder) (network_rejection (v1_total_retries_orders c <? 20))
            (v1_order_mgr c) with
    | Some (oue, orders) =>
        let c := c <| v1_order_mgr := orders |> in
        let terminal := is_closed oid c in
        let c := if terminal then c <| v1_reservation_mgr ::= ReservationManager.release oid |>
                 else c in
        match OrderManager.get_order_by_id oid (v1_order_mgr c) with
        | Some order =>
            ([V1PublishOrderUpdate oue; V1PersistOrder order terminal terminal], c)
        | None => ([], c)
        end
    | None => ([], c)
    end
  else ([], c).

Definition process_recheck_cancel (req : CancelRecheckRequest) c : list OmsAction * OmsCore :=
  let c := c <| v1_total_retries_cancels ::= λ n, wrap_u32 (n + 1) |> in
  let oid := gwcan_order_id (crr_orig_cancel_request req) in
  let ts := wrap_i64 (crr_timestamp req + wrap_i64 (crr_check_delay_secs req * 1000)) in
  let not_terminal := default false
    ((λ o, negb (order_is_terminal o)) <$> OrderManager.get_order_by_id oid (v1_order_mgr c)) in
  if not_terminal then
    match OrderManager.update_with_gw_error oid ts
            (text "cancel did not go through after recheck") (ExecType_i32 Cancel)
            (network_rejection (v1_total_retries_cancels c <? 20)) (v1_order_mgr c) with
    | Some (oue, orders) => ([V1PublishOrderUpdate oue], c <| v1_order_mgr := orders |>)
    | None => ([], c)
    end
  else ([], c).

(** ** Cleanup *)

Definition CLEANUP_TIMEOUT_MS : Z := 10 * 60 * 1000.

(** The buffered groups whose last report is older than the timeout. *)
Definition expired_groups (ts_ms : Z) c : list (string * string * list OrderReport) :=
  hash_iter (v1_pending_order_reports c) ≫= λ '(gw_key, exch_map),
    omap (λ '(exch_order_id, reports),
            match last reports with
            | Some r =>
                if wrap_i64 (ts_ms - rep_update_timestamp r) >? CLEANUP_TIMEOUT_MS
                then Some (gw_key, exch_order_id, reports) else None
            | None => None
            end) (hash_iter exch_map).

(** Replays, one clock window per report. *)
Fixpoint replay_external (clk : nat → Z) (reports : list OrderReport) (acc : list OmsAction) c
    : handled_v1 :=
  match reports with
  | [] => mret (acc, c)
  | r :: reports =>
      '(actions, c) ← process_order_report clk r c;
      replay_external (tick 2 clk) reports (acc ++ actions) c
  end.

Definition process_cleanup (clk : nat → Z) (ts_ms : Z) c : handled_v1 :=
  if negb (v1_handle_external_orders c) then mret ([], c)
  else
    let expired := expired_groups ts_ms c in
    let to_replay := expired ≫= λ '(_, _, reports),
      (λ r, r <| rep_order_source_type := OrderSourceNonTq |>) <$> reports in
    let c := foldl (λ c '(gw_key, exch_order_id, _),
      c <| v1_pending_order_reports ::= alter (delete exch_order_id) gw_key |>) c expired in
    replay_external clk to_replay [] c.

Definition process_position_recheck c : list OmsAction * OmsCore := ([], c).

(** ** Main entry point *)

Definition process_message (clk : nat → Z) (msg : OmsMessage) c : handled_v1 :=
  match msg with
  | PlaceOrder req => process_order clk req c
  | BatchPlaceOrders reqs => batch_process_orders clk reqs c
  | CancelOrder req => process_cancel req c
  | BatchCancelOrders reqs => batch_process_cancels reqs c
  | GatewayOrderReport report => process_order_report clk report c
  | BalanceUpdateMsg update => mret (process_balance_update clk update c)
  | RecheckOrder req => mret (process_recheck_order req c)
  | RecheckCancel req => mret (process_recheck_cancel req c)
  | Panic account_id => mret ([], c <| v1_panic_accounts ::= λ s, {[account_id]} ∪ s |>)
  | DontPanic account_id => mret ([], c <| v1_panic_accounts ::= λ s, s ∖ {[account_id]} |>)
  | Cleanup ts_ms => process_cleanup clk ts_ms c
  | ReloadConfig => mret ([], c)
  | PositionRecheck => mret (process_position_recheck c)
  | GatewaySendFailed _ _ _ | GatewayCancelSendFailed _ _ _ => mret ([], c)
  end.

(** ** Read helpers *)

Definition get_open_orders (account_id : Z) c : list OmsOrder :=
  OrderManager.get_open_orders_for_account account_id (v1_order_mgr c).
Definition get_account_balance (account_id : Z) c : list ExchBalanceSnapshot :=
  BalanceManager.get_balances_for_account account_id (v1_balance_mgr c).
Definition get_account_positions (account_id : Z) c : list OmsManagedPosition :=
  PositionManager.get_positions_for_account account_id (v1_position_mgr c).
End core.
End OmsCore.
