(* ===== verification/V1Safety.v ===== *)
(** * The v1 core never panics ([oms_core.rs], [order_mgr.rs])

    Every [unwrap] and [expect] of the v1 handlers is guarded by what the code
    did just before: no invariant of the core is needed. *)

From S2P Require Import Prelude F64 Proto Intern Models Config Utils V1Stores V1Agree V1Orders V1Core.

Section never_panics.
Context `{!HashIter string, !HashIter Z}.
Implicit Types (c : OmsCore) (mgr : OrderManager) (ctx : OrderContext).

(** A context without errors can be turned into a gateway request. *)
Definition sendable ctx : Prop :=
  has_error ctx = false → is_Some (ctx_symbol_ref ctx) ∧ is_Some (ctx_route ctx).

Lemma push_error_sendable e ctx : sendable (OmsCore.push_error e ctx).
Proof. intros Hno. unfold has_error in Hno. simpl in Hno. rewrite length_app in Hno. by destruct (length _). Qed.

Lemma checked_context_sendable req c : sendable (OmsCore.checked_context req c).
Proof.
  unfold OmsCore.checked_context. cbv zeta.
  set (ctx := match ctx_symbol_ref _ with Some _ => _ | None => _ end).
  assert (sendable ctx) as Hctx.
  { subst ctx. unfold OmsCore.resolve_context. simpl.
    destruct (cf_refdata _ !! _) eqn:Er; [|apply push_error_sendable].
    destruct (cf_account_routes _ !! _) eqn:Ert; simpl; [|apply push_error_sendable].
    case_match; [done|apply push_error_sendable]. }
  case_match; [|done]. case_match; [|done]. case_match; [apply push_error_sendable|done].
Qed.

Lemma pre_trade_sendable req ctx c ctx' c' :
  sendable ctx → OmsCore.pre_trade req ctx c = Ok (ctx', c') → sendable ctx'.
Proof.
  intros Hs. unfold OmsCore.pre_trade. intros Hp.
  destruct (ctx_trading_config ctx) as [tc|]; [|by simplify_eq].
  destruct (_ && _ && _); [|by simplify_eq].
  destruct (req_buy_sell_type req =? BsBuy).
  { unfold OmsCore.pre_trade_buy in Hp. cbv zeta in Hp.
    set (ctx1 := if itc_balance_check tc then _ else ctx) in Hp.
    assert (sendable ctx1) as H1
      by (subst ctx1; destruct (itc_balance_check tc);
          [destruct (ReservationManager.check_available _ _ _ _ _)|]; auto using push_error_sendable).
    destruct (has_error ctx1); by simplify_eq. }
  destruct (req_buy_sell_type req =? BsSell); [|done].
  unfold OmsCore.pre_trade_sell in Hp. destruct (itc_balance_check tc).
  - destruct (PositionManager.check_and_freeze _ _ _ _ _) as [[] ?];
      case_match; simplify_eq; auto using push_error_sendable.
  - case_match; by simplify_eq.
Qed.

(** What [create_order] returns: the record it stored under the request's id. *)
Lemma create_order_returns clk req (ctx : option OrderContext) mgr :
  (∀ x, ctx = Some x → is_Some (ctx_symbol_ref x) ∧ is_Some (ctx_route x)) →
  returns (OrderManager.create_order clk req ctx mgr) (λ '(o, mgr'),
    oo_order_id o = req_order_id req ∧ (is_Some ctx → is_Some (oo_gw_req o)) ∧
    mgr' = mgr <| omgr_order_dict ::= <[req_order_id req := o]> |>
               <| omgr_open_order_ids ::= λ s, {[req_order_id req]} ∪ s |>).
Proof.
  intros Hctx. unfold OrderManager.create_order. destruct ctx as [ctx|].
  - destruct (Hctx ctx eq_refl) as [[rd Hrd] [rt Hrt]].
    unfold OrderManager.build_gw_order_req. rewrite Hrd, Hrt. simpl. split_and!; eauto.
  - simpl. split_and!; [done|by intros []|done].
Qed.

Lemma v1_oms_error_returns clk oms_order req msg rej mgr :
  (∀ o, oms_order = Some o → oo_order_id o = req_order_id req) →
  returns (OrderManager.update_with_oms_error clk oms_order req msg rej mgr) (λ _, True).
Proof.
  intros Ho. unfold OrderManager.update_with_oms_error.
  assert (∀ m : OrderManager, is_Some (omgr_order_dict m !! req_order_id req) →
    returns (order ← unwrap "order_dict.get_mut(&order_req.order_id)"
               (omgr_order_dict m !! req_order_id req);
             let order := OrderManager.apply_order_error msg
               (OrderManager.timestamp mgr (req_timestamp req) (clk 2%nat))
               (ExecType_i32 PlacingOrder) rej order in
             let m := m <| omgr_order_dict ::= <[req_order_id req := order]> |> in
             let m := if order_is_terminal order then
                        m <| omgr_open_order_ids ::= λ s, s ∖ {[oo_order_id order]} |>
                      else m in
             order ← unwrap "order_dict.get(&order_req.order_id)"
                       (omgr_order_dict m !! req_order_id req);
             mret (OrderManager.build_error_event order, m)) (λ _, True)) as Hrest.
  { intros m [o Hm]. rewrite Hm. simpl. by rewrite lookup_insert_eq. }
  destruct oms_order as [o|]; simpl.
  - apply Hrest. simpl. rewrite (Ho o eq_refl), lookup_insert_eq. eauto.
  - apply Hrest. simpl. rewrite lookup_insert_eq. eauto.
Qed.

Lemma process_order_returns clk req c :
  returns (OmsCore.process_order clk req c) (λ _, True).
Proof.
  unfold OmsCore.process_order, OmsCore.process_order_inner. case_bool_decide; [done|].
  destruct (OmsCore.pre_trade _ _ _) as [[ctx c1]|e] eqn:Hp.
  - apply pre_trade_sendable in Hp; [|apply checked_context_sendable].
    unfold OmsCore.submit_order. apply returns_bind. eapply returns_mono.
    { apply create_order_returns. intros x. destruct (has_error ctx) eqn:E; [done|].
      intros [= <-]. by apply Hp. }
    intros [o mgr'] (Hid & Hgw & _). destruct (has_error ctx).
    + apply returns_bind, returns_bind. eapply returns_mono.
      { apply v1_oms_error_returns. by intros ? [= <-]. }
      by intros [].
    + apply returns_bind. destruct Hgw as [r ->]; [eauto|]. done.
  - apply returns_bind. eapply returns_mono; [by apply v1_oms_error_returns|]. by intros [].
Qed.

Lemma cancel_extra_returns oid ctx c :
  is_Some (OrderManager.get_order_by_id oid (v1_order_mgr c)) →
  returns (OmsCore.cancel_extra oid ctx c) (λ _, True).
Proof.
  intros [o Ho]. unfold OmsCore.cancel_extra. case_match; [|done].
  apply (returns_for_each (λ _, True)); [done|]. intros. by rewrite Ho.
Qed.

Lemma process_cancel_returns req c : returns (OmsCore.process_cancel req c) (λ _, True).
Proof.
  unfold OmsCore.process_cancel. destruct (OmsCore.cached_context _ _) as [[ctx c1]|]; [|done].
  set (c2 := c1 <| v1_order_mgr ::= _ |>).
  destruct (OrderManager.get_order_by_id _ _) as [o|] eqn:Ho; [|done].
  destruct (OmsCore.cancel_rejection o).
  { by destruct (OrderManager.update_with_gw_error _ _ _ _ _ _) as [[]|]. }
  apply returns_bind. eapply returns_mono; [apply cancel_extra_returns; by rewrite Ho|]. done.
Qed.

Lemma batch_loop_returns {A} (f : (nat → Z) → A → OmsCore → OmsCore.handled_v1) split reqs :
  (∀ clk req c, returns (f clk req c) (λ _, True)) →
  ∀ clk acc c, returns (OmsCore.batch_loop f split clk reqs acc c) (λ _, True).
Proof.
  intros Hf. induction reqs as [|req reqs IH]; intros clk acc c; [done|].
  apply returns_bind. eapply returns_mono; [apply Hf|]. intros [acts c1] _. apply IH.
Qed.

Lemma external_report_returns now report mgr :
  returns (OrderManager.handle_external_order_report now report mgr) (λ _, True).
Proof.
  unfold OrderManager.handle_external_order_report. cbv zeta.
  set (mgr1 := if negb _ then _ else _).
  assert (is_Some (lookup2 (rep_exchange report) (rep_exch_order_ref report)
                     (omgr_external_order_dict mgr1))) as [id ->].
  { subst mgr1. destruct (OrderManager.is_marked_as_external _ _ _) eqn:E; simpl.
    - by apply bool_decide_eq_true in E.
    - unfold OrderManager.register_external. simpl. unfold insert_at2, lookup2.
      rewrite lookup_insert_eq. simpl. rewrite lookup_insert_eq. eauto. }
  simpl. by destruct (OrderManager.update_with_report _ _ _).
Qed.

Lemma process_external_returns clk report c :
  returns (OmsCore.process_external_report clk report c) (λ _, True).
Proof.
  unfold OmsCore.process_external_report. apply returns_bind.
  eapply returns_mono; [apply external_report_returns|]. intros [oue orders] _.
  destruct (OmsCore.pop_pending_reports _ _ _) as [pending c1].
  apply returns_bind. eapply returns_mono; [|by intros []].
  apply (returns_for_each (λ _, True)); [done|]. intros [events c2] r _ _.
  apply returns_bind. eapply returns_mono; [apply external_report_returns|]. by intros [].
Qed.

Lemma process_report_returns clk report c :
  returns (OmsCore.process_order_report clk report c) (λ _, True).
Proof.
  unfold OmsCore.process_order_report. cbv zeta.
  destruct (v1_handle_external_orders c); [|done].
  destruct (OmsCore.report_account _ _); [|done].
  destruct (_ || _); [apply process_external_returns|done].
Qed.

Lemma replay_external_returns reports clk acts c :
  returns (OmsCore.replay_external clk reports acts c) (λ _, True).
Proof.
  revert clk acts c. induction reports as [|r reports IH]; intros clk acts c; [done|].
  apply returns_bind. eapply returns_mono; [apply process_report_returns|].
  intros [acts1 c1] _. apply IH.
Qed.

Lemma process_cleanup_returns clk ts c :
  returns (OmsCore.process_cleanup clk ts c) (λ _, True).
Proof.
  unfold OmsCore.process_cleanup. destruct (negb _); [done|]. apply replay_external_returns.
Qed.
End never_panics.

Lemma process_message_returns `{!HashIter string, !HashIter Z} clk msg c :
  returns (OmsCore.process_message clk msg c) (λ _, True).
Proof.
  destruct msg; cbn [OmsCore.process_message]; try done.
  - apply process_order_returns.
  - apply returns_bind. eapply returns_mono.
    { apply batch_loop_returns. apply process_order_returns. }
    by intros [[]].
  - apply process_cancel_returns.
  - apply returns_bind. eapply returns_mono.
    { apply batch_loop_returns. intros _. apply process_cancel_returns. }
    by intros [[]].
  - apply process_report_returns.
  - apply process_cleanup_returns.
Qed.

(** C31: the v1 core never panics.  On any message, in any state, every [unwrap]
    and [expect] of the v1 handlers succeeds: [process_message] returns. *)
Theorem v1_never_panics `{!HashIter string, !HashIter Z} clk msg c :
  returns (OmsCore.process_message clk msg c) (λ _, True).
Proof. apply process_message_returns. Qed.
