(* ===== verification/V1Fills.v ===== *)
(** * Fills in the v1 core ([oms_core.rs])

    A trade report moves the position of its order once, by the traded quantity,
    on the side the order context knows.  The context cached at placement does
    not hold the order, so a fill of an order placed by this core is booked as a
    sale, whatever its side; only contexts rebuilt for orders that are not in
    the cache (warm-started ones) know the side. *)

From S2P Require Import Prelude F64 F64Grid Proto Intern Models Reservation Position Balance.
From S2P Require Import Config Metadata Utils OrderStore OmsCore Scenario.
From S2P Require Import V1Stores V1Agree V1Orders V1Core V1Safety.

Section fills.
Context `{!HashIter string, !HashIter Z}.
Implicit Types (c : OmsCore) (ctx : OrderContext) (mgr : PositionManager).

(** Magnitude and side of a position. *)
Definition pos_size (p : OmsManagedPosition) : f64 * bool := (omp_qty_total p, omp_is_short p).

Definition size_at (a : Z) (s : string) c : option (f64 * bool) :=
  pos_size <$> PositionManager.get_position a s (v1_position_mgr c).

Lemma unfreeze_size a s q mgr a' s' :
  pos_size <$> PositionManager.get_position a' s' (PositionManager.unfreeze a s q mgr) =
  (pos_size <$> PositionManager.get_position a' s' mgr).
Proof.
  unfold PositionManager.unfreeze, PositionManager.modify.
  destruct (PositionManager.get_position a s mgr) as [p|] eqn:E; [|done].
  unfold PositionManager.get_position in *. simpl.
  destruct (decide ((a, s) = (a', s'))) as [[= <- <-]|Hne].
  - by rewrite lookup2_insert_eq, E.
  - by rewrite lookup2_insert_ne.
Qed.

Lemma close_order_size (ctx : option OrderContext) c event a s :
  size_at a s (OmsCore.close_order ctx c event) = size_at a s c.
Proof.
  unfold OmsCore.close_order, size_at. repeat (case_match; try done).
  simpl. by rewrite unfreeze_size.
Qed.

Lemma close_orders_size (ctx : option OrderContext) events c a s :
  size_at a s (foldl (OmsCore.close_order ctx) c events) = size_at a s c.
Proof.
  revert c. induction events as [|e events IH]; intros c; [done|].
  simpl. by rewrite IH, close_order_size.
Qed.

Lemma pop_pending_positions gw ref c :
  v1_position_mgr (OmsCore.pop_pending_reports gw ref c).2 = v1_position_mgr c.
Proof. unfold OmsCore.pop_pending_reports. by case_match. Qed.

Lemma replay_positions now reports acc :
  v1_position_mgr (foldl (OmsCore.replay_pending now) acc reports).2 = v1_position_mgr acc.2.
Proof.
  revert acc. induction reports as [|r reports IH]; intros [acts c]; [done|].
  simpl. rewrite IH. unfold OmsCore.replay_pending.
  by destruct (OrderManager.update_with_report _ _ _).
Qed.

(** The trades of a report. *)
Definition trade_of (e : OrderReportEntry) : option TradeReport :=
  match ent_report e with Some (RTradeReport t) => Some t | _ => None end.

Definition pos_symbol ctx : string := default "" (ctx_pos_symbol ctx).

Definition trade_delta ctx (t : TradeReport) : PositionDelta :=
  OmsCore.fill_delta ctx (pos_symbol ctx) (OmsCore.is_buy ctx)
    (negb (OmsCore.is_buy ctx) && default false (itc_balance_check <$> ctx_trading_config ctx))
    (trr_filled_qty t).

Lemma fills_positions ctx oid ts entries acc :
  v1_position_mgr (foldl (OmsCore.apply_fill ctx oid ts) acc entries).2 =
  foldl (λ m t, (PositionManager.apply_delta (trade_delta ctx t) ts m).2)
    (v1_position_mgr acc.2) (omap trade_of entries).
Proof.
  revert acc. induction entries as [|e entries IH]; intros [b c]; [done|].
  simpl. rewrite IH. unfold trade_of, OmsCore.apply_fill.
  by destruct (ent_report e) as [[]|].
Qed.

(** A report of an order of this core moves the position its context names by
    the trades it lists, and nothing else of it resizes the position. *)
Lemma own_report_size clk ctx report c a s :
  OmsCore.bookkeeping ctx = true →
  size_at a s (OmsCore.process_own_report clk (Some ctx) report c).2 =
  (pos_size <$> PositionManager.get_position a s
     (foldl (λ m t, (PositionManager.apply_delta (trade_delta ctx t)
                       (rep_update_timestamp report) m).2)
        (v1_position_mgr c) (omap trade_of (rep_order_report_entries report)))).
Proof.
  intros Hb. unfold OmsCore.process_own_report. rewrite Hb.
  unfold OmsCore.process_fill_for_report.
  pose proof (fills_positions ctx (rep_order_id report) (rep_update_timestamp report)
                (rep_order_report_entries report) (false, c)) as Hf.
  destruct (foldl _ (false, c) _) as [changed c1]. cbn [fst snd] in Hf. rewrite <- Hf.
  assert (∀ acts : list OmsAction,
    size_at a s
      (let '(update_events, orders) := OrderManager.update_with_report (clk 0%nat) report
         (v1_order_mgr c1) in
       let c2 := foldl (OmsCore.close_order (Some ctx)) (c1 <| v1_order_mgr := orders |>)
                   update_events in
       let '(acts, c3) :=
         match (λ o, ord_exch_order_ref (oo_order_state o)) <$> (Some ctx ≫= ctx_order) with
         | Some exch_ref =>
             let '(pending, c3) := OmsCore.pop_pending_reports (rep_exchange report) exch_ref c2 in
             foldl (OmsCore.replay_pending (clk 1%nat)) (acts, c3) pending
         | None => (acts, c2)
         end in
       (acts ++ (update_events ≫= λ event, OmsCore.event_actions event c3), c3)).2 =
    size_at a s c1) as Hrest.
  { intros acts. destruct (OrderManager.update_with_report _ _ _) as [events orders].
    cbv zeta. set (c2 := foldl _ _ events).
    assert (size_at a s c2 = size_at a s c1) as E2 by (subst c2; by rewrite close_orders_size).
    clearbody c2. rewrite <- E2.
    destruct (fmap (M := option) _ (Some ctx ≫= ctx_order)) as [s0|]; [|done].
    pose proof (pop_pending_positions (rep_exchange report) s0 c2) as Hpop.
    destruct (OmsCore.pop_pending_reports (rep_exchange report) s0 c2) as [pending c3].
    simpl in Hpop.
    pose proof (replay_positions (clk 1%nat) pending (acts, c3)) as Hrep.
    destruct (foldl _ (acts, c3) pending) as [acts4 c4]. simpl in Hrep.
    unfold size_at. simpl. by rewrite Hrep, Hpop. }
  destruct changed; apply Hrest.
Qed.

(** One trade, on a grid. *)
Lemma delta_size g delta ts mgr t q :
  grid_ok g →
  let a := pdl_account_id delta in
  let s := pdl_instrument_code delta in
  let pos := default (OmsManagedPosition_new a s 0 (pdl_is_short delta))
               (PositionManager.get_position a s mgr) in
  on_grid g t (omp_qty_total pos) → on_grid g q (pdl_total_change delta) → fits (t + q) →
  ∃ total, on_grid g (Z.abs (t + q)) total ∧
    pos_size <$> PositionManager.get_position a s (PositionManager.apply_delta delta ts mgr).2 =
    Some (total, xorb (omp_is_short pos) (t + q <? 0)).
Proof.
  intros Hg a s pos Ht Hq Hf. unfold PositionManager.apply_delta, PositionManager.upsert. simpl.
  unfold PositionManager.get_position at 1. simpl. rewrite lookup2_insert_eq. simpl.
  fold a s pos. clearbody pos.
  pose proof (grid_add g Hg t q _ _ Ht Hq Hf) as Hs.
  unfold PositionManager.apply_delta_pos. simpl.
  rewrite (grid_ltb g (t + q) 0) by auto using grid_zero.
  destruct (Z.ltb_spec (t + q) 0); unfold pos_size; simpl.
  - rewrite xorb_true_r. eexists. split; [|done]. by apply grid_abs.
  - rewrite xorb_false_r. eexists. split; [|done]. by rewrite Z.abs_eq.
Qed.

(** ** Contexts *)

(** The context a report of order [oid] is processed with. *)
Definition report_context (oid : Z) c : option OrderContext :=
  match omgr_context_cache (v1_order_mgr c) !! oid with
  | Some ctx => Some ctx
  | None => OmsCore.resolve_context_for_order oid c
  end.

Lemma own_report_eq clk report c :
  v1_handle_external_orders c = false → rep_order_id report ≠ 0 →
  OmsCore.process_order_report clk report c =
  Returns (OmsCore.process_own_report clk (report_context (rep_order_id report) c) report c).
Proof.
  intros He Hid. unfold OmsCore.process_order_report. rewrite He.
  by rewrite (proj2 (Z.eqb_neq _ _) Hid).
Qed.

(** The position a context refers to, with the fresh one of the first fill. *)
Definition ctx_position ctx c : OmsManagedPosition :=
  default (OmsManagedPosition_new (ctx_account_id ctx) (pos_symbol ctx) 0 false)
    (PositionManager.get_position (ctx_account_id ctx) (pos_symbol ctx) (v1_position_mgr c)).

Lemma trade_report_size g clk report c ctx trade t q :
  grid_ok g → v1_handle_external_orders c = false → rep_order_id report ≠ 0 →
  report_context (rep_order_id report) c = Some ctx → OmsCore.bookkeeping ctx = true →
  omap trade_of (rep_order_report_entries report) = [trade] →
  on_grid g t (omp_qty_total (ctx_position ctx c)) → on_grid g q (trr_filled_qty trade) →
  let q' := if OmsCore.is_buy ctx then q else - q in
  fits (t + q') →
  ∃ acts c' total, OmsCore.process_order_report clk report c = Returns (acts, c') ∧
    on_grid g (Z.abs (t + q')) total ∧
    size_at (ctx_account_id ctx) (pos_symbol ctx) c' =
    Some (total, xorb (omp_is_short (ctx_position ctx c)) (t + q' <? 0)).
Proof.
  intros Hg He Hid Hctx Hb Htr Ht Hq q' Hf.
  rewrite own_report_eq, Hctx by done.
  pose proof (own_report_size clk ctx report c (ctx_account_id ctx) (pos_symbol ctx) Hb) as Hsz.
  rewrite Htr in Hsz. simpl in Hsz.
  assert (on_grid g q' (pdl_total_change (trade_delta ctx trade))) as Hd.
  { unfold trade_delta, OmsCore.fill_delta, q'. simpl.
    destruct (OmsCore.is_buy ctx); [done|]. by apply grid_opp. }
  destruct (delta_size g (trade_delta ctx trade) (rep_update_timestamp report)
              (v1_position_mgr c) t q' Hg Ht Hd Hf) as (total & Htot & Hsize).
  destruct (OmsCore.process_own_report clk (Some ctx) report c) as [acts c'].
  exists acts, c', total. split_and!; [done..|]. simpl in Hsz. by rewrite Hsz.
Qed.

(** A context that ends without errors is the resolved one, unchanged. *)
Lemma push_error_has e ctx : has_error (OmsCore.push_error e ctx) = true.
Proof. unfold has_error. simpl. rewrite length_app. by destruct (length (ctx_errors ctx)). Qed.

Lemma checked_context_ok req c :
  has_error (OmsCore.checked_context req c) = false →
  OmsCore.checked_context req c =
  OmsCore.resolve_context (req_instrument_code req) (req_account_id req) c.
Proof.
  unfold OmsCore.checked_context. cbv zeta.
  set (ctx0 := OmsCore.resolve_context _ _ c).
  set (ctx := match ctx_symbol_ref ctx0 with Some _ => _ | None => _ end).
  assert (has_error ctx = false → ctx = ctx0) as Hctx.
  { subst ctx. destruct (ctx_symbol_ref ctx0); [|by rewrite push_error_has].
    destruct (ctx_gw_config ctx0); [done|by rewrite push_error_has]. }
  destruct (v1_risk_check_enabled c); [|done].
  destruct (ctx_trading_config ctx ≫= _); [|done].
  destruct (_ >? _)%f64; [by rewrite push_error_has|done].
Qed.

Lemma pre_trade_ok req ctx c ctx' c' :
  OmsCore.pre_trade req ctx c = Ok (ctx', c') →
  (has_error ctx' = false → ctx' = ctx) ∧
  v1_handle_external_orders c' = v1_handle_external_orders c.
Proof.
  unfold OmsCore.pre_trade. destruct (ctx_trading_config ctx) as [tc|]; [|by intros [= -> ->]].
  destruct (_ && _ && _); [|by intros [= -> ->]].
  destruct (req_buy_sell_type req =? BsBuy).
  { unfold OmsCore.pre_trade_buy. cbv zeta.
    set (ctx1 := if itc_balance_check tc then _ else ctx).
    assert (has_error ctx1 = false → ctx1 = ctx) as H1.
    { subst ctx1. destruct (itc_balance_check tc); [|done].
      destruct (ReservationManager.check_available _ _ _ _ _); [done|by rewrite push_error_has]. }
    destruct (has_error ctx1) eqn:E; intros [= <- <-]; rewrite ?E; auto. }
  destruct (req_buy_sell_type req =? BsSell); [|done].
  unfold OmsCore.pre_trade_sell. destruct (itc_balance_check tc).
  - destruct (PositionManager.check_and_freeze _ _ _ _ _) as [[|e] pm].
    + destruct (has_error ctx) eqn:E; by intros [= <- <-].
    + rewrite push_error_has. intros [= <- <-]. by rewrite push_error_has.
  - destruct (has_error ctx) eqn:E; by intros [= <- <-].
Qed.

Definition is_send (a : OmsAction) : bool :=
  match a with V1SendOrderToGw _ _ _ _ => true | _ => false end.

(** Placement caches the resolved context, which does not hold the order. *)
Lemma accepted_context clk req c acts c1 :
  OmsCore.process_order clk req c = Returns (acts, c1) → existsb is_send acts = true →
  omgr_context_cache (v1_order_mgr c1) !! req_order_id req =
    Some (OmsCore.resolve_context (req_instrument_code req) (req_account_id req) c) ∧
  v1_handle_external_orders c1 = v1_handle_external_orders c.
Proof.
  unfold OmsCore.process_order, OmsCore.process_order_inner.
  case_bool_decide; [by intros [= <- <-]|].
  destruct (OmsCore.pre_trade _ _ _) as [[ctx c0]|e] eqn:Hp.
  - apply pre_trade_ok in Hp as [Hctx Hext]. unfold OmsCore.submit_order.
    destruct (OrderManager.create_order _ _ _ _) as [[o mgr]|] eqn:Hc; [|done]. simpl.
    destruct (has_error ctx) eqn:E.
    + destruct (OrderManager.update_with_oms_error _ _ _ _ _ _) as [[ev mgr']|]; [|done].
      simpl. by intros [= <- <-].
    + destruct (oo_gw_req o); [|done]. simpl. intros [= <- <-] _. simpl.
      rewrite lookup_insert_eq, (Hctx eq_refl) in *. split; [|done].
      by rewrite checked_context_ok.
  - destruct (OrderManager.update_with_oms_error _ _ _ _ _ _) as [[ev mgr']|]; [|done].
    simpl. by intros [= <- <-].
Qed.
End fills.

(** In the v1 core a trade of an order whose context is rebuilt moves its
    position once.  When the context of the order is not cached (an order loaded
    at warm start), a report with one trade of [q] adds [q] to the position of a
    buy and subtracts it for any other side, whatever else the report holds; the
    side flips when the sum is negative. *)
Theorem v1_trade_moves_position_once `{!HashIter string, !HashIter Z}
    g clk report c order ctx trade t q :
  grid_ok g → v1_handle_external_orders c = false → rep_order_id report ≠ 0 →
  omgr_context_cache (v1_order_mgr c) !! rep_order_id report = None →
  OrderManager.get_order_by_id (rep_order_id report) (v1_order_mgr c) = Some order →
  OmsCore.resolve_context_for_order (rep_order_id report) c = Some ctx →
  OmsCore.bookkeeping ctx = true →
  omap trade_of (rep_order_report_entries report) = [trade] →
  on_grid g t (omp_qty_total (ctx_position ctx c)) → on_grid g q (trr_filled_qty trade) →
  let q' := if ord_buy_sell_type (oo_order_state order) =? BsBuy then q else - q in
  fits (t + q') →
  ∃ acts c' total, OmsCore.process_order_report clk report c = Returns (acts, c') ∧
    on_grid g (Z.abs (t + q')) total ∧
    size_at (oo_account_id order) (pos_symbol ctx) c' =
    Some (total, xorb (omp_is_short (ctx_position ctx c)) (t + q' <? 0)).
Proof.
  intros Hg He Hid Hno Ho Hctx Hb Htr Ht Hq q' Hf.
  assert (OmsCore.is_buy ctx = (ord_buy_sell_type (oo_order_state order) =? BsBuy) ∧
          ctx_account_id ctx = oo_account_id order) as [Hbuy Hacc].
  { unfold OmsCore.resolve_context_for_order in Hctx. rewrite Ho in Hctx.
    by injection Hctx as <-. }
  unfold q' in *. rewrite <- Hbuy, <- Hacc in *.
  apply (trade_report_size g clk report c ctx trade t q); try done.
  unfold report_context. by rewrite Hno.
Qed.

(** The v1 core books the fills of the orders it placed as sales.  After an
    accepted placement of any side, buys included, a report with one trade of
    [q] subtracts [q] from the position: the context cached at placement does
    not hold the order, and an unknown order counts as not a buy. *)
Theorem v1_placed_order_fills_as_sale `{!HashIter string, !HashIter Z}
    g clk clk' req report c acts c1 trade t q :
  let ctx := OmsCore.resolve_context (req_instrument_code req) (req_account_id req) c in
  OmsCore.process_order clk req c = Returns (acts, c1) → existsb is_send acts = true →
  grid_ok g → v1_handle_external_orders c = false →
  rep_order_id report = req_order_id req → req_order_id req ≠ 0 →
  OmsCore.bookkeeping ctx = true →
  omap trade_of (rep_order_report_entries report) = [trade] →
  on_grid g t (omp_qty_total (ctx_position ctx c1)) → on_grid g q (trr_filled_qty trade) →
  fits (t - q) →
  ∃ acts' c' total, OmsCore.process_order_report clk' report c1 = Returns (acts', c') ∧
    on_grid g (Z.abs (t - q)) total ∧
    size_at (req_account_id req) (pos_symbol ctx) c' =
    Some (total, xorb (omp_is_short (ctx_position ctx c1)) (t - q <? 0)).
Proof.
  intros ctx Hp Hs Hg He Hrid Hid Hb Htr Ht Hq Hf.
  destruct (accepted_context clk req c acts c1 Hp Hs) as [Hcache Hext].
  replace (t - q) with (t + - q) in * by lia.
  apply (trade_report_size g clk' report c1 ctx trade t q); try done.
  - by rewrite Hext.
  - congruence.
  - unfold report_context. by rewrite Hrid, Hcache.
Qed.

(** ** A run of the demo OMS *)

(** Five coins held, bookkeeping on, no balance check. *)
Definition v1_demo_core : OmsCore :=
  OmsCore.init_state []
    [(OmsManagedPosition_new 7 "BTC" SPOT_INSTRUMENT_TYPE false)
       <| omp_qty_total := f64.of_Z 5 |> <| omp_qty_available := f64.of_Z 5 |>] []
    (OmsCore.new 0 (demo_config [demo_trading "BTC-USDT" false None]) false true false 100).

Definition v1_demo_buy : OrderRequest :=
  demo_order 42 BsBuy "BTC-USDT" (f64.of_Z 2) (f64.of_Z 10).
Definition v1_demo_fill : OrderReport := demo_report 42 [trade_entry (f64.of_Z 2) (f64.of_Z 10)].

Definition v1_bought : list OmsAction * OmsCore := Eval vm_compute in
  match OmsCore.process_order demo_clk v1_demo_buy v1_demo_core with
  | Returns r => r
  | Panics _ => ([], v1_demo_core)
  end.

Lemma v1_bought_eq :
  OmsCore.process_order demo_clk v1_demo_buy v1_demo_core = Returns (v1_bought.1, v1_bought.2).
Proof. vm_compute. reflexivity. Qed.

(** The demo buys two coins on top of five, and ends with three. *)
Lemma v1_placed_order_fills_as_sale_witness :
  req_buy_sell_type v1_demo_buy = BsBuy ∧
  ∃ acts' c' total, OmsCore.process_order_report demo_clk v1_demo_fill v1_bought.2 =
      Returns (acts', c') ∧
    on_grid 0 3 total ∧ size_at 7 "BTC" c' = Some (total, false).
Proof.
  split; [reflexivity|].
  apply (v1_placed_order_fills_as_sale 0 demo_clk demo_clk v1_demo_buy v1_demo_fill v1_demo_core
           v1_bought.1 v1_bought.2
           (default_TradeReport <| trr_filled_qty := f64.of_Z 2 |>
              <| trr_filled_price := f64.of_Z 10 |>) 5 2 v1_bought_eq).
  - vm_compute. reflexivity.
  - unfold grid_ok; lia.
  - reflexivity.
  - reflexivity.
  - done.
  - vm_compute. reflexivity.
  - reflexivity.
  - vm_compute. intuition congruence.
  - vm_compute. intuition congruence.
  - unfold fits; lia.
Defined.

(** The same order loaded at warm start, and the same fill. *)
Definition v1_warm_core : OmsCore := Eval vm_compute in
  OmsCore.init_state
    [OrderManager.new_order v1_demo_buy None None 1000] [] [] v1_demo_core.

Definition v1_warm_order : OmsOrder := OrderManager.new_order v1_demo_buy None None 1000.

Definition v1_warm_context : OrderContext := Eval vm_compute in
  (OmsCore.resolve_context "BTC-USDT" 7 v1_warm_core) <| ctx_order := Some v1_warm_order |>.

Lemma v1_trade_moves_position_once_witness :
  ∃ acts' c' total, OmsCore.process_order_report demo_clk v1_demo_fill v1_warm_core =
      Returns (acts', c') ∧
    on_grid 0 7 total ∧ size_at 7 "BTC" c' = Some (total, false).
Proof.
  apply (v1_trade_moves_position_once 0 demo_clk v1_demo_fill v1_warm_core v1_warm_order
           v1_warm_context
           (default_TradeReport <| trr_filled_qty := f64.of_Z 2 |>
              <| trr_filled_price := f64.of_Z 10 |>) 5 2).
  - unfold grid_ok; lia.
  - reflexivity.
  - done.
  - vm_compute. reflexivity.
  - vm_compute. reflexivity.
  - vm_compute. reflexivity.
  - vm_compute. reflexivity.
  - reflexivity.
  - vm_compute. intuition congruence.
  - vm_compute. intuition congruence.
  - unfold fits; simpl; lia.
Defined.
