(* ===== verification/V1Reports.v ===== *)
(** * Order reports in the two generations ([order_mgr.rs], [oms_core_v2.rs])

    The v1 order manager and the v2 order store are two implementations of the
    same report handling: linkage, state, trade, execution and fee entries, the
    state inferred from trades, and the final average price.  [order_rel] says
    that a v1 order and a v2 order are in the same state; a report keeps it. *)

From S2P Require Import Prelude F64 F64Grid Proto Intern Models Reservation Position Balance.
From S2P Require Import Config Metadata MetadataFacts MetadataReload Utils.
From S2P Require Import OrderStore OrderHistory OmsCore OmsSafety Scenario OmsLifecycle.
From S2P Require Import OmsPlacement OmsHolds OmsReports V1Stores V1Orders.
From Stdlib Require Import SpecFloat.

(** A quantity that is [+0] or positive. *)
Definition nonneg (x : f64) : Prop := f64.max f64.zero x = x.

Lemma nonneg_max x y :
  nonneg y → (x =? f64.zero)%f64 = false → nonneg (f64.max x y).
Proof.
  intros Hy Hx. unfold f64.max at 1.
  destruct (f64.is_nan x) eqn:E1; [done|]. destruct (f64.is_nan y) eqn:E2; [by destruct y|].
  destruct (f64.ltb x y) eqn:E; [done|].
  by destruct x as [[]|[]| |[] m e]; try done; destruct y as [[]|[]| |[] m' e'].
Qed.

(** What both generations record of a trade. *)
Definition trade_view (t : Trade) : Z * string * f64 * f64 * Z :=
  (tr_order_id t, tr_ext_trade_id t, tr_filled_qty t, tr_filled_price t, tr_filled_ts t).

Record order_rel (o : OmsOrder) (l : LiveOrder) (d : OrderDetailLog) : Prop := {
  or_id : oo_order_id o = lo_order_id l;
  or_state_id : ord_order_id (oo_order_state o) = lo_order_id l;
  or_status : ord_order_status (oo_order_state o) = lo_order_status l;
  or_qty : ord_qty (oo_order_state o) = lo_qty l;
  or_filled : ord_filled_qty (oo_order_state o) = lo_filled_qty l;
  or_avg : ord_filled_avg_price (oo_order_state o) = lo_filled_avg_price l;
  or_acc_qty : oo_acc_trades_filled_qty o = lo_acc_trades_filled_qty l;
  or_acc_value : oo_acc_trades_value o = lo_acc_trades_value l;
  or_trades : trade_view <$> oo_trades o = (trade_view <$> dl_trades d);
  or_inferred : trade_view <$> oo_order_inferred_trades o =
                (trade_view <$> dl_inferred_trades d);
  or_exec : oo_exec_msgs o = dl_exec_msgs d;
  or_fees : oo_fees o = dl_fees d;
  or_nonneg : nonneg (lo_filled_qty l);
  or_untraded : oo_trades o = [] → oo_acc_trades_filled_qty o = f64.zero;
}.

Lemma order_rel_terminal o l d :
  order_rel o l d → order_is_terminal o = is_in_terminal_state l.
Proof. intros R. unfold order_is_terminal, is_in_terminal_state. by rewrite (or_status _ _ _ R). Qed.

(** The entries on which the two agree: an execution report carries its error,
    and the quantity a state report leaves unfilled does not exceed the order's
    by a negative zero. *)
Definition entry_ok (qty : f64) (e : OrderReportEntry) : Prop :=
  match ent_report e with
  | Some (ROrderStateReport r) => (qty - osr_unfilled_qty r)%f64 ≠ S754_zero true
  | Some (RExecReport r) => is_Some (exr_error_info r)
  | _ => True
  end.

Lemma zero_unsigned x : (x =? f64.zero)%f64 = true → x ≠ S754_zero true → x = f64.zero.
Proof. by destruct x as [[]|[]| |[] ? ?]. Qed.

Lemma zero_eqb : (f64.zero =? f64.zero)%f64 = true.
Proof. done. Qed.

(** ** One entry *)

(** The filled quantity after a state report: v2 ignores a zero, v1 takes the
    maximum with it. *)
Lemma state_filled r qty filled :
  nonneg filled → (qty - osr_unfilled_qty r)%f64 ≠ S754_zero true →
  let new_filled :=
    if negb (osr_filled_qty r =? f64.zero)%f64 then Some (osr_filled_qty r)
    else if negb (osr_unfilled_qty r =? f64.zero)%f64
    then Some (qty - osr_unfilled_qty r)%f64 else None in
  let filled1 := match new_filled with Some nf => f64.max nf filled | None => filled end in
  let filled2 :=
    match (match new_filled with
           | Some fq => if negb (fq =? f64.zero)%f64 then Some fq else None
           | None => None
           end) with
    | Some nf => f64.max nf filled
    | None => filled
    end in
  filled1 = filled2 ∧ nonneg filled2.
Proof.
  intros Hn Hz. cbv zeta. destruct (osr_filled_qty r =? f64.zero)%f64 eqn:E1; simpl.
  - destruct (osr_unfilled_qty r =? f64.zero)%f64; simpl; [done|].
    destruct (qty - osr_unfilled_qty r =? f64.zero)%f64 eqn:E2; simpl; [|auto using nonneg_max].
    by rewrite (zero_unsigned _ E2 Hz).
  - rewrite E1. simpl. auto using nonneg_max.
Qed.

(** The two state-report functions as plain field updates. *)
Definition new_avg (r : OrderStateReport) (old : f64) : f64 :=
  if negb (osr_avg_price r =? f64.zero)%f64 then osr_avg_price r else old.
Definition new_status (r : OrderStateReport) (old : Z) : Z :=
  let st := map_order_status (default ExchOrderStatusUnspecified
    (ExchangeOrderStatus_try_from (osr_exch_order_status r))) in
  if can_update_status (default Unspecified (OrderStatus_try_from old)) st
  then OrderStatus_i32 st else old.
Definition new_filled (r : OrderStateReport) (qty : f64) : option f64 :=
  if negb (osr_filled_qty r =? f64.zero)%f64 then Some (osr_filled_qty r)
  else if negb (osr_unfilled_qty r =? f64.zero)%f64
  then Some (qty - osr_unfilled_qty r)%f64 else None.
Definition inferred_trade (oid ts n : Z) (ref : string) (filled avg filled' avg' : f64)
    : list Trade :=
  if (filled' - filled >? eps8)%f64 then
    [default_Trade <| tr_order_id := oid |> <| tr_ext_order_ref := ref |>
       <| tr_ext_trade_id := display_i64 oid +:+ "_" +:+ display_i64 n |>
       <| tr_filled_ts := ts |> <| tr_filled_qty := (filled' - filled)%f64 |>
       <| tr_filled_price := default f64.zero (infer_trade_price filled avg filled' avg') |>]
  else [].

Lemma v2_state_eq r ts l d :
  let filled := match (match new_filled r (lo_qty l) with
                       | Some fq => if negb (fq =? f64.zero)%f64 then Some fq else None
                       | None => None
                       end) with
                | Some nf => f64.max nf (lo_filled_qty l)
                | None => lo_filled_qty l
                end in
  OrderStoreV2.apply_state_report (new_filled r (lo_qty l)) (osr_avg_price r)
    (default ExchOrderStatusUnspecified
       (ExchangeOrderStatus_try_from (osr_exch_order_status r))) ts (l, d) =
  (l <| lo_filled_qty := filled |>
     <| lo_filled_avg_price := new_avg r (lo_filled_avg_price l) |>
     <| lo_order_status := new_status r (lo_order_status l) |>,
   d <| dl_inferred_trades := dl_inferred_trades d ++
     inferred_trade (lo_order_id l) ts (Z.of_nat (length (dl_inferred_trades d))) ""
       (lo_filled_qty l) (lo_filled_avg_price l) filled (new_avg r (lo_filled_avg_price l)) |>).
Proof.
  intros filled. unfold OrderStoreV2.apply_state_report, inferred_trade, new_status, new_avg,
    order_status. destruct l, d. simpl in *. subst filled.
  destruct (new_filled r _) as [x|]; [destruct (x =? f64.zero)%f64|];
    destruct (osr_avg_price r =? f64.zero)%f64; simpl;
    destruct (_ >? eps8)%f64, (can_update_status _ _); simpl; by rewrite ?app_nil_r.
Qed.

Lemma v1_fill_eq r o :
  let s := oo_order_state o in
  OrderManager.apply_state_fill r o =
  o <| oo_order_state := s
         <| ord_filled_qty := match new_filled r (ord_qty s) with
                              | Some nf => f64.max nf (ord_filled_qty s)
                              | None => ord_filled_qty s
                              end |>
         <| ord_filled_avg_price := new_avg r (ord_filled_avg_price s) |> |>.
Proof.
  unfold OrderManager.apply_state_fill, new_avg. fold (new_filled r (ord_qty (oo_order_state o))).
  destruct o. destruct oo_order_state. simpl.
  destruct (new_filled r _); by destruct (osr_avg_price r =? f64.zero)%f64.
Qed.

Lemma v1_state_eq r oid ts pg :
  let o := OrderManager.pg_order pg in
  let s := oo_order_state o in
  let filled := match new_filled r (ord_qty s) with
                | Some nf => f64.max nf (ord_filled_qty s)
                | None => ord_filled_qty s
                end in
  let inferred := inferred_trade oid ts (Z.of_nat (length (oo_order_inferred_trades o)))
    (ord_exch_order_ref s) (ord_filled_qty s) (ord_filled_avg_price s) filled
    (new_avg r (ord_filled_avg_price s)) in
  ord_order_id s = oid →
  OrderManager.apply_state oid ts r pg =
  pg <| OrderManager.pg_order := o
          <| oo_order_state := s <| ord_filled_qty := filled |>
               <| ord_filled_avg_price := new_avg r (ord_filled_avg_price s) |>
               <| ord_order_status := new_status r (ord_order_status s) |> |>
          <| oo_order_inferred_trades := oo_order_inferred_trades o ++ inferred |> |>
     <| OrderManager.pg_new_oms_trade :=
          OrderManager.pg_new_oms_trade pg || negb (length inferred =? 0)%nat |>
     <| OrderManager.pg_original_order_updated := true |>.
Proof.
  intros o s filled inferred Hid. subst inferred filled.
  unfold OrderManager.apply_state, inferred_trade, new_status. cbv zeta.
  change (pg <| OrderManager.pg_order ::= OrderManager.apply_state_fill r |>) with
    (pg <| OrderManager.pg_order := OrderManager.apply_state_fill r (OrderManager.pg_order pg) |>).
  rewrite v1_fill_eq. fold o s. change OrderManager.can_update_status with can_update_status.
  change OrderManager.map_order_status with map_order_status.
  change OrderManager.infer_trade_price with infer_trade_price. simpl. fold o. fold s.
  rewrite Hid.
  set (filled := match new_filled r _ with Some _ => _ | None => _ end).
  destruct (filled - ord_filled_qty s >? eps8)%f64;
    destruct (can_update_status _ _); simpl; rewrite ?app_nil_r, ?orb_false_r, ?orb_true_r.
  all: subst o s; destruct pg as [? ? ? ? ? o ?]; destruct o as [? ? ? ? ? ? ? st]; destruct st; reflexivity.
Qed.

(** ** The entry loop *)

#[local] Opaque f64.add f64.sub f64.mul f64.div f64.max f64.min f64.ltb f64.eqb f64.leb.

Record flags_rel (pg : OrderManager.Progress) (fl : OmsCoreV2.ReportFlags) : Prop := {
  fr_trade : OrderManager.pg_new_trade pg = OmsCoreV2.rf_new_trade fl;
  fr_oms_trade : OrderManager.pg_new_oms_trade pg = OmsCoreV2.rf_new_oms_trade fl;
  fr_fee : OrderManager.pg_new_fee pg = OmsCoreV2.rf_new_fee fl;
  fr_exec : OrderManager.pg_new_exec_msg pg = OmsCoreV2.rf_new_exec_msg fl;
  fr_updated :
    OrderManager.pg_original_order_updated pg = OmsCoreV2.rf_original_order_updated fl;
}.

Definition is_linkage (e : OrderReportEntry) : bool :=
  match default OrderRepTypeUnspecified (OrderReportType_try_from (ent_report_type e)),
        ent_report e with
  | OrderRepTypeLinkage, Some (ROrderIdLinkageReport _) => true
  | _, _ => false
  end.

(** A lone linkage changes the status of such an order. *)
Definition promotable (l : LiveOrder) : Prop :=
  order_status l = Pending ∨ order_status l = Rejected.

Section entries.
Context (oid : Z) (qty : f64).

Definition stored (c : OmsCoreV2) (both : LiveOrder * OrderDetailLog) : Prop :=
  OrderStoreV2.get_live_and_detail oid (c_orders c) = Some both.

Record sim (pg : OrderManager.Progress)
    (acc : OmsCoreV2.ReportFlags * OmsCoreV2) (both : LiveOrder * OrderDetailLog) : Prop := {
  sim_stored : stored acc.2 both;
  sim_rel : order_rel (OrderManager.pg_order pg) both.1 both.2;
  sim_id : lo_order_id both.1 = oid;
  sim_qty : lo_qty both.1 = qty;
  sim_flags : flags_rel pg acc.1;
}.

Lemma stored_put c both : stored (OmsCoreV2.put_both oid both c) both.
Proof.
  unfold stored, OrderStoreV2.get_live_and_detail. simpl. rewrite !lookup_insert_eq. simpl.
  by destruct both.
Qed.

Lemma register_both gw ref st l d :
  OrderStoreV2.get_live_and_detail oid st = Some (l, d) →
  ∃ dyn, OrderStoreV2.get_live_and_detail oid (OrderStoreV2.register_exch_ref oid gw ref st) =
    Some (l <| lo_exch_order_ref_id := Some dyn |>, d).
Proof.
  intros [Hl Hd]%get_both_Some. unfold OrderStoreV2.register_exch_ref.
  destruct (DynStringTable.intern _ _) as [dyn tbl]. exists dyn.
  unfold OrderStoreV2.get_live_and_detail. simpl in *. by rewrite lookup_alter_eq, Hl, Hd.
Qed.

Lemma linkage_sim gwk gw only r pg acc both :
  sim pg acc both → (only = true → promotable both.1) →
  ∃ both', sim (OrderManager.apply_linkage gwk oid only r pg)
             (OmsCoreV2.apply_linkage_entry oid gw only r acc) both'.
Proof.
  intros [Hs R Hid Hq F] Hpro. destruct acc as [fl c], both as [l d]. simpl in *.
  destruct (register_both gw (lnk_exch_order_ref r) _ l d Hs) as [dyn Hdyn].
  unfold OrderManager.apply_linkage, OmsCoreV2.apply_linkage_entry.
  destruct only; simpl.
  - rewrite (or_status _ _ _ R). fold (order_status l).
    exists (match order_status l with
            | Pending | Rejected => l <| lo_exch_order_ref_id := Some dyn |>
                                      <| lo_order_status := OrderStatus_i32 Booked |>
            | _ => l <| lo_exch_order_ref_id := Some dyn |>
            end, d).
    apply get_both_Some in Hdyn as [Hl Hd]. simpl in Hl, Hd. split; simpl.
    + unfold stored, OrderStoreV2.get_live_and_detail. simpl.
      rewrite lookup_alter_eq, Hl, Hd. done.
    + destruct R. destruct (order_status l); by split.
    + by destruct (order_status l).
    + by destruct (order_status l).
    + destruct F. destruct (Hpro eq_refl) as [-> | ->]; by split.
  - exists (l <| lo_exch_order_ref_id := Some dyn |>, d).
    split; simpl; [done|by destruct R; split|done|done|]. destruct F. by split.
Qed.

Lemma state_entry_eq ts r fl c l d :
  stored c (l, d) →
  OmsCoreV2.apply_state_entry oid ts r (fl, c) =
  let both := OrderStoreV2.apply_state_report (new_filled r (lo_qty l)) (osr_avg_price r)
    (default ExchOrderStatusUnspecified
       (ExchangeOrderStatus_try_from (osr_exch_order_status r))) ts (l, d) in
  let fl := fl <| OmsCoreV2.rf_original_order_updated := true |> in
  Returns (if (length (dl_inferred_trades d) <? length (dl_inferred_trades both.2))%nat
           then fl <| OmsCoreV2.rf_new_oms_trade := true |> else fl,
           OmsCoreV2.put_both oid both c).
Proof.
  intros Hs. unfold OmsCoreV2.apply_state_entry, OmsCoreV2.both_mut. unfold stored in Hs.
  by rewrite Hs.
Qed.

Lemma state_sim ts r pg acc both :
  sim pg acc both → (qty - osr_unfilled_qty r)%f64 ≠ S754_zero true →
  returns (OmsCoreV2.apply_state_entry oid ts r acc)
    (λ acc', ∃ both', sim (OrderManager.apply_state oid ts r pg) acc' both').
Proof.
  intros [Hs R Hid Hq F] Hz. destruct acc as [fl c], both as [l d]. simpl in Hs, R, Hid, Hq, F.
  rewrite (state_entry_eq ts r fl c l d Hs). cbv zeta.
  rewrite <- Hq in Hz.
  destruct (state_filled r (lo_qty l) (lo_filled_qty l) (or_nonneg _ _ _ R) Hz) as [Hf Hn].
  fold (new_filled r (lo_qty l)) in Hf, Hn. cbv zeta in Hf, Hn.
  rewrite v1_state_eq by (rewrite (or_state_id _ _ _ R); done). rewrite v2_state_eq.
  rewrite (or_qty _ _ _ R), (or_filled _ _ _ R), (or_avg _ _ _ R), (or_status _ _ _ R), Hf.
  set (filled := match _ with Some nf => _ | None => lo_filled_qty l end) in *. clearbody filled.
  assert (length (oo_order_inferred_trades (OrderManager.pg_order pg)) =
          length (dl_inferred_trades d)) as Hlen
    by (rewrite <- (length_fmap trade_view), (or_inferred _ _ _ R); apply length_fmap).
  apply returns_ret. eexists. split; [apply stored_put|..]; simpl.
  - destruct R. split; simpl; try done. rewrite !fmap_app, or_inferred0, Hlen, Hid. f_equal.
    unfold inferred_trade. by destruct (_ >? _)%f64.
  - done.
  - done.
  - rewrite length_app. unfold inferred_trade. destruct F.
    destruct (_ >? eps8)%f64; cbn [length].
    + rewrite (proj2 (Nat.ltb_lt _ _)) by lia. split; simpl; try done. by rewrite orb_true_r.
    + rewrite (proj2 (Nat.ltb_ge _ _)) by lia. split; simpl; try done. by rewrite orb_false_r.
Qed.

Lemma trade_entry_eq ts r fl c l d :
  core_wf c → stored c (l, d) →
  ∃ tr, trade_view tr = (lo_order_id l, trr_exch_trade_id r, trr_filled_qty r,
                         trr_filled_price r, ts) ∧
    OmsCoreV2.apply_trade_entry oid ts r (fl, c) =
    Returns (fl <| OmsCoreV2.rf_new_trade := true |>
                <| OmsCoreV2.rf_original_order_updated := true |>,
             OmsCoreV2.put_both oid (OrderStoreV2.apply_trade_report tr (l, d)) c).
Proof.
  intros Hwf Hs. pose proof (get_both_Some _ _ _ Hs) as [Hl Hd]. simpl in Hl, Hd.
  unfold OmsCoreV2.apply_trade_entry, OrderStoreV2.get_live, OmsCoreV2.both_mut.
  unfold stored in Hs. rewrite Hl, Hs.
  destruct (returns_inv _ _ (resolve_exch_ref_returns oid l (c_orders c) (cw_orders _ Hwf) Hl))
    as [ref [Hr _]].
  destruct (returns_inv _ _ (instrument_code_returns (lo_instrument_id l) c (cw_meta _ Hwf)))
    as [code [Hc _]].
  eexists. split; [|cbn [mbind outcome_bind unwrap]; rewrite Hr; cbn [mbind outcome_bind];
    rewrite Hc; reflexivity]. reflexivity.
Qed.

Lemma trade_sim ts r pg acc both :
  core_wf acc.2 → sim pg acc both →
  returns (OmsCoreV2.apply_trade_entry oid ts r acc)
    (λ acc', ∃ both', sim (OrderManager.apply_trade ts r pg) acc' both').
Proof.
  intros Hwf [Hs R Hid Hq F]. destruct acc as [fl c], both as [l d]. simpl in Hs, R, Hid, Hq, F, Hwf.
  destruct (trade_entry_eq ts r fl c l d Hwf Hs) as (tr & Htr & ->).
  injection Htr as E1 E2 E3 E4 E5. unfold OrderManager.apply_trade.
  eexists. split; [apply stored_put|..]; simpl; [|done|done|].
  - destruct R. split; simpl; try assumption.
    + by rewrite or_acc_qty0, E3.
    + by rewrite or_acc_value0, E3, E4.
    + rewrite !fmap_app, or_trades0. f_equal. unfold trade_view. simpl.
      by rewrite or_state_id0, E1, E2, E3, E4, E5.
    + intros Hnil. by apply app_eq_nil in Hnil as [_ ?].
  - destruct F. by split.
Qed.

Lemma exec_sim ts r pg acc both :
  sim pg acc both → is_Some (exr_error_info r) →
  returns (OmsCoreV2.apply_exec_entry oid ts r acc)
    (λ acc', ∃ both', sim (OrderManager.apply_exec ts r pg) acc' both').
Proof.
  intros Hsim [err Herr]. pose proof Hsim as [Hs R Hid Hq F].
  destruct acc as [fl c], both as [l d]. simpl in Hs, R, Hid, Hq, F.
  unfold OmsCoreV2.apply_exec_entry, OrderManager.apply_exec, OmsCoreV2.exec_error_msg.
  fold (OmsCoreV2.oms_exec_type r). rewrite Herr.
  assert (∀ ty msg rej,
    returns (orders ← OmsCoreV2.oms_error oid msg ts ty rej (c_orders c);
             mret (fl <| OmsCoreV2.rf_new_exec_msg := true |>
                      <| OmsCoreV2.rf_original_order_updated := true |>,
                   c <| c_orders := orders |>))
      (λ acc', ∃ both', sim
         (pg <| OrderManager.pg_order ::= OrderManager.apply_order_error msg ts
                  (ExecType_i32 ty) rej |>
             <| OrderManager.pg_new_exec_msg := true |>
             <| OrderManager.pg_original_order_updated := true |>) acc' both')) as H.
  { intros ty msg rej. unfold OmsCoreV2.oms_error. unfold stored in Hs. rewrite Hs.
    eexists. split; [apply stored_put|..].
    - destruct R. unfold OrderManager.apply_order_error, OrderStoreV2.apply_oms_error. simpl.
      destruct (ExecType_i32 ty =? _); [destruct (lo_terminal_at l)|]; split; simpl;
        try done; by rewrite or_id0, or_exec0.
    - unfold OrderStoreV2.apply_oms_error. simpl.
      destruct (ExecType_i32 ty =? _); [destruct (lo_terminal_at l)|]; done.
    - unfold OrderStoreV2.apply_oms_error. simpl.
      destruct (ExecType_i32 ty =? _); [destruct (lo_terminal_at l)|]; done.
    - destruct F. by split. }
  destruct (OmsCoreV2.oms_exec_type r); [|apply H..].
  apply returns_ret. by exists (l, d).
Qed.

Lemma fee_sim ts r pg acc both :
  sim pg acc both →
  returns (OmsCoreV2.apply_fee_entry oid ts r acc)
    (λ acc', ∃ both', sim (OrderManager.apply_fee ts r pg) acc' both').
Proof.
  intros [Hs R Hid Hq F]. destruct acc as [fl c], both as [l d]. simpl in Hs, R, Hid, Hq, F.
  apply get_both_Some in Hs as [Hl Hd]. simpl in Hl, Hd.
  unfold OmsCoreV2.apply_fee_entry, OrderStoreV2.get_live, OrderStoreV2.get_detail.
  rewrite Hl, Hd. apply returns_bind, returns_ret, returns_bind, returns_ret, returns_ret.
  eexists (l, d <| dl_fees ::= λ v, v ++ [_] |>). split; simpl; [| |done|done|].
  - unfold stored, OrderStoreV2.get_live_and_detail. simpl. rewrite Hl, lookup_alter_eq, Hd. done.
  - destruct R. split; simpl; try done. by rewrite or_state_id0, or_fees0.
  - destruct F. by split.
Qed.

Lemma entry_sim gwk gw ts only pg acc both e :
  core_wf acc.2 → sim pg acc both → entry_ok qty e →
  (only = true → is_linkage e = true → promotable both.1) →
  returns (OmsCoreV2.apply_entry oid gw ts only acc e)
    (λ acc', ∃ both', sim (OrderManager.apply_entry gwk oid ts only pg e) acc' both').
Proof.
  intros Hwf Hsim Hok Hpro. unfold OmsCoreV2.apply_entry, OrderManager.apply_entry.
  unfold entry_ok in Hok. unfold is_linkage in Hpro.
  destruct (default _ _), (ent_report e) as [[]|];
    first [apply returns_ret; by eauto|by eapply state_sim|by eapply trade_sim
          |by eapply exec_sim|by eapply fee_sim|apply returns_ret; eapply linkage_sim; by eauto].
Qed.

Lemma entries_sim gwk gw ts only entries c0 pg acc both :
  entry_inv oid c0 acc → sim pg acc both → Forall (entry_ok qty) entries →
  (only = true → (length entries ≤ 1)%nat ∧
     ∀ e, head entries = Some e → is_linkage e = true → promotable both.1) →
  returns (for_each (OmsCoreV2.apply_entry oid gw ts only) entries acc)
    (λ acc', entry_inv oid c0 acc' ∧
       ∃ both', sim (foldl (OrderManager.apply_entry gwk oid ts only) pg entries) acc' both').
Proof.
  revert pg acc both. induction entries as [|e entries IH]; intros pg acc both Hinv Hsim Hok Hon.
  { split; [done|]. by exists both. }
  apply Forall_cons in Hok as [He Hok]. simpl. apply returns_bind.
  pose proof (apply_entry_inv oid gw ts only c0 acc e Hinv) as H1.
  assert (returns (OmsCoreV2.apply_entry oid gw ts only acc e)
    (λ acc', ∃ both', sim (OrderManager.apply_entry gwk oid ts only pg e) acc' both')) as H2.
  { eapply entry_sim; [apply Hinv|done|done|]. intros Ho. by apply (Hon Ho). }
  destruct (OmsCoreV2.apply_entry _ _ _ _ _ _) as [acc1|]; [|done]. simpl in *.
  destruct H2 as [both1 H2]. eapply IH; [done..|].
  intros Ho. destruct (Hon Ho) as [Hlen _]. destruct entries; [|simpl in Hlen; lia].
  split; [simpl; lia|done].
Qed.
End entries.

(** ** Whole reports *)

Lemma infer_state_agree entries o l d :
  order_rel o l d →
  OrderManager.infer_state_entry entries o = OrderStoreV2.infer_state_from_trades entries l.
Proof.
  intros R. unfold OrderManager.infer_state_entry, OrderStoreV2.infer_state_from_trades.
  rewrite (order_rel_terminal _ _ _ R), (or_qty _ _ _ R), (or_acc_qty _ _ _ R),
    (or_acc_value _ _ _ R). done.
Qed.

Lemma touch_rel report o l d :
  order_rel o l d →
  order_rel (OrderManager.touch_order report o)
    (l <| lo_updated_at := rep_update_timestamp report |>) d.
Proof.
  intros []. unfold OrderManager.touch_order. simpl. split; simpl; try done;
    by destruct (is_empty _).
Qed.

Lemma finalize_rel o l d :
  order_rel o l d →
  order_rel ((OrderManager.finalize_avg_price o) <| oo_order_state ::= λ s,
               s <| ord_snapshot_version ::= λ n, wrap_i32 (n + 1) |> |>)
    (OmsCoreV2.finalize_live l) d.
Proof.
  intros R. unfold OrderManager.finalize_avg_price, OmsCoreV2.finalize_live. cbv zeta.
  set (l0 := l <| lo_snapshot_version ::= _ |>).
  assert (order_rel o l0 d) as R0 by (destruct R; by split). clearbody l0. clear R l.
  set (cond := is_in_terminal_state l0 && (lo_filled_avg_price l0 =? f64.zero)%f64
                 && negb (lo_acc_trades_filled_qty l0 =? f64.zero)%f64).
  set (o1 := match oo_trades o with [] => o | _ :: _ => _ end).
  set (l1 := if cond then _ else l0).
  assert (order_rel o1 l1 d) as R1.
  { subst o1 l1. rewrite (order_rel_terminal _ _ _ R0), (or_avg _ _ _ R0), (or_acc_qty _ _ _ R0),
      (or_acc_value _ _ _ R0). fold cond.
    destruct (oo_trades o) as [|t ts] eqn:E.
    - assert (cond = false) as ->; [|done]. subst cond.
      rewrite <- (or_acc_qty _ _ _ R0), (or_untraded _ _ _ R0 E), zero_eqb. apply andb_false_r.
    - destruct cond; [|done]. destruct R0. by split. }
  clearbody o1 l1. clear R0 cond l0 o.
  destruct (is_in_terminal_state l1 && _); destruct R1; by split.
Qed.

(** Closing an order removes entries only. *)
Lemma mark_closed_get oid k st both :
  OrderStoreV2.get_live_and_detail oid (OrderStoreV2.mark_closed k st) = Some both →
  OrderStoreV2.get_live_and_detail oid st = Some both.
Proof.
  intros [Hl Hd]%get_both_Some. unfold OrderStoreV2.get_live_and_detail.
  assert (∀ st2 : OrderStoreV2, os_live st2 = os_live st → os_detail st2 = os_detail st →
    ∀ q, os_live (OrderStoreV2.cleanup_order q st2) !! oid = Some both.1 →
         os_detail (OrderStoreV2.cleanup_order q st2) !! oid = Some both.2 →
         os_live st !! oid = Some both.1 ∧ os_detail st !! oid = Some both.2) as Hclean.
  { intros st2 E1 E2 q. unfold OrderStoreV2.cleanup_order.
    destruct (os_live st2 !! q); [destruct (lo_exch_order_ref_id _)|]; simpl;
      rewrite ?E1, ?E2; rewrite ?lookup_delete_Some; naive_solver. }
  assert (os_live st !! oid = Some both.1 ∧ os_detail st !! oid = Some both.2) as [-> ->];
    [|by destruct both].
  revert Hl Hd. unfold OrderStoreV2.mark_closed. simpl.
  destruct (os_live st !! k); simpl; (case_match; [|done]);
    (destruct (_ ++ _); [done|]); by apply Hclean.
Qed.

Lemma settle_fills_orders oid acct ts side flags tb ib c :
  yields (OmsCoreV2.settle_fills oid acct ts side flags tb ib c) (λ r, c_orders r.2 = c_orders c).
Proof.
  unfold OmsCoreV2.settle_fills. do 3 (apply yields_bind; intros ? _).
  pose proof (apply_fills_frame oid acct ts (side =? BsBuy) flags
    (default f64.zero (lo_price <$> OrderStoreV2.get_live oid (c_orders c)))
    ((tr_filled_qty <$> a0) ++ (tr_filled_qty <$> a1)) (false, c)) as Hfr.
  destruct (foldl _ _ _) as [changed c1]. apply (fr_orders _ _ Hfr).
Qed.

(** What a finished report leaves of the order, unless it is evicted. *)
Lemma finish_report_stored oid ts tb ib fl c l d acts c' :
  stored oid c (l, d) →
  OmsCoreV2.finish_report oid ts tb ib fl c = Returns (acts, c') →
  (acts = [] ↔ OmsCoreV2.rf_original_order_updated fl = false) ∧
  ∀ both, stored oid c' both →
    both = (if OmsCoreV2.rf_original_order_updated fl then OmsCoreV2.finalize_live l else l, d).
Proof.
  unfold stored. intros Hs E. unfold OmsCoreV2.finish_report in E.
  destruct (OmsCoreV2.rf_original_order_updated fl); simpl in E.
  2: { apply returns_inj in E as [= <- <-]. split; [done|]. naive_solver congruence. }
  pose proof (get_both_Some _ _ _ Hs) as [Hl Hd]. simpl in Hl, Hd.
  unfold OrderStoreV2.get_live in E. rewrite Hl in E. cbn [unwrap mbind outcome_bind] in E.
  cbv zeta in E. set (l1 := OmsCoreV2.finalize_live l) in *.
  set (c1 := c <| c_orders ::= _ |>) in E.
  assert (OrderStoreV2.get_live_and_detail oid (c_orders c1) = Some (l1, d)) as H1.
  { unfold OrderStoreV2.get_live_and_detail. simpl. by rewrite lookup_alter_eq, Hl, Hd. }
  clearbody c1.
  match type of E with (?m ≫= _) = _ =>
    assert (yields m (λ r, c_orders r.2 = c_orders c1)) as Hm
      by (destruct (OmsCoreV2.rf_new_trade fl || _); [apply settle_fills_orders|done]);
    destruct m as [[settled c2]|]; [|done] end.
  simpl in Hm. cbn [mbind outcome_bind] in E. rewrite <- Hm in H1.
  destruct (is_in_terminal_state l1); apply returns_inj in E as [= <- <-].
  - split; [done|]. intros both. unfold OmsCoreV2.close_order. simpl.
    rewrite (fr_orders _ _ (proj1 (unfreeze_remaining_frame _ _ _ _))). simpl.
    intros Hb%mark_closed_get. congruence.
  - split; [done|]. intros both. congruence.
Qed.

Lemma cleanup_order_get k mgr oid o :
  omgr_order_dict (OrderManager.cleanup_order k mgr) !! oid = Some o →
  omgr_order_dict mgr !! oid = Some o.
Proof.
  unfold OrderManager.cleanup_order. destruct (omgr_order_dict mgr !! k); simpl; [|done].
  rewrite lookup_delete_Some. naive_solver.
Qed.

Lemma remove_open_get k mgr oid o :
  omgr_order_dict (OrderManager.remove_open_order k mgr) !! oid = Some o →
  omgr_order_dict mgr !! oid = Some o.
Proof.
  unfold OrderManager.remove_open_order. simpl. case_match; [|done].
  destruct (_ ++ _); [done|]. by intros ?%cleanup_order_get.
Qed.

(** The v1 side: the order after a report, unless it is evicted. *)
Lemma v1_report_stored now report mgr o :
  omgr_order_dict mgr !! rep_order_id report = Some o → rep_order_id report ≠ 0 →
  let oid := rep_order_id report in
  let entries := rep_order_report_entries report in
  let extra := OrderManager.infer_state_entry entries o in
  let only := (length entries =? 1)%nat && negb (bool_decide (is_Some extra)) in
  let pg := foldl (OrderManager.apply_entry (rep_exchange report) oid
                     (rep_update_timestamp report) only)
    (OrderManager.mkProgress false false false false false (OrderManager.touch_order report o)
       (omgr_exch_ref_to_order_id mgr)) (entries ++ option_list extra) in
  let r := OrderManager.update_with_report now report mgr in
  (r.1 = [] ↔ OrderManager.pg_original_order_updated pg = false) ∧
  ∀ o', omgr_order_dict r.2 !! oid = Some o' →
    o' = if OrderManager.pg_original_order_updated pg
         then (OrderManager.finalize_avg_price (OrderManager.pg_order pg))
                <| oo_order_state ::= λ s,
                     s <| ord_snapshot_version ::= λ n, wrap_i32 (n + 1) |> |>
         else OrderManager.pg_order pg.
Proof.
  intros Ho Hid oid entries extra only pg. cbv zeta.
  unfold OrderManager.update_with_report.
  assert (OrderManager.resolve_report report mgr = Some oid) as ->.
  { unfold OrderManager.resolve_report. rewrite (proj2 (Z.eqb_neq _ _) Hid). simpl.
    by rewrite bool_decide_true by (rewrite Ho; eauto). }
  fold oid in Ho. rewrite Ho. cbv zeta. fold entries. fold extra. fold oid only. fold pg. clearbody pg.
  destruct (OrderManager.pg_original_order_updated pg); simpl.
  - split; [done|]. intros o'. case_match; [intros E%remove_open_get; revert E|]; simpl;
      rewrite lookup_insert_eq; naive_solver.
  - split; [done|]. intros o'. rewrite lookup_insert_eq. naive_solver.
Qed.

(** C32: the v1 and the v2 cores process order reports alike.  A v1 order and a
    v2 order in the same state (status, quantities, average price, trades,
    inferred trades, fees and execution messages) are in the same state after
    any report, whatever its entries, and the two cores agree on whether the
    report is published.  Left out are the reports the two treat differently by
    design: execution reports without error information, and a lone linkage of
    an order that is past [Pending]. *)
Theorem order_reports_agree gw now report c mgr o l d acts c' :
  let oid := rep_order_id report in
  let entries := rep_order_report_entries report in
  let all := entries ++ option_list (OrderStoreV2.infer_state_from_trades entries l) in
  core_wf c → oid ≠ 0 →
  OrderStoreV2.get_live_and_detail oid (c_orders c) = Some (l, d) →
  omgr_order_dict mgr !! oid = Some o → order_rel o l d →
  Forall (entry_ok (lo_qty l)) all →
  (∀ e, entries = [e] → is_linkage e = true → promotable l) →
  OmsCoreV2.process_report_for_order oid gw report c = Returns (acts, c') →
  let r := OrderManager.update_with_report now report mgr in
  (r.1 = [] ↔ acts = []) ∧
  ∀ o' l' d', omgr_order_dict r.2 !! oid = Some o' →
    OrderStoreV2.get_live_and_detail oid (c_orders c') = Some (l', d') → order_rel o' l' d'.
Proof.
  intros oid entries all Hwf Hid Hs Ho R Hok Hlink E r.
  pose proof (get_both_Some _ _ _ Hs) as [Hl Hd]. simpl in Hl, Hd.
  destruct (v1_report_stored now report mgr o Ho Hid) as [Hev1 Hst1]. fold oid entries in Hev1, Hst1.
  rewrite (infer_state_agree entries o l d R) in Hev1, Hst1. fold all in Hev1, Hst1.
  set (extra := OrderStoreV2.infer_state_from_trades entries l) in *.
  set (only := (length entries =? 1)%nat && _) in *.
  set (pg0 := OrderManager.mkProgress _ _ _ _ _ _ _) in *.
  unfold OmsCoreV2.process_report_for_order, OrderStoreV2.get_live, OrderStoreV2.get_detail in E.
  rewrite Hl, Hd in E. cbv zeta in E. fold entries extra only in E. fold all in E.
  set (c1 := c <| c_orders ::= _ |>) in E.
  assert (entry_inv oid c (OmsCoreV2.no_flags, c1)) as Hinv.
  { split; [apply safe_step_intro; [done..| |]|].
    - eapply update_live_wf; [apply Hwf|done|]. intros l0 id Hl0 ?.
      by eapply (ow_ref _ (cw_orders c Hwf)).
    - intros oid' _. apply kept_update_live. intros. by apply evolves_live.
    - simpl. by rewrite lookup_alter_is_Some, Hl. }
  assert (sim oid (lo_qty l) pg0 (OmsCoreV2.no_flags, c1)
            (l <| lo_updated_at := rep_update_timestamp report |>, d)) as Hsim.
  { split; simpl; [| |by apply (ow_id _ (cw_orders c Hwf))|done|done].
    - unfold stored, OrderStoreV2.get_live_and_detail. simpl. by rewrite lookup_alter_eq, Hl, Hd.
    - by apply touch_rel. }
  pose proof (entries_sim oid (lo_qty l) (rep_exchange report) gw (rep_update_timestamp report)
                only all c pg0 _ _ Hinv Hsim Hok) as Hrun.
  destruct (for_each _ _ _) as [[fl c2]|]; [|done]. cbn [mbind outcome_bind] in E.
  destruct Hrun as [_ [[l2 d2] [Hs2 R2 _ _ F2]]].
  { subst only. intros [Hlen%Nat.eqb_eq Hno%negb_true_iff%bool_decide_eq_false]%andb_true_iff.
    apply eq_None_not_Some in Hno. subst all. rewrite Hno, app_nil_r.
    destruct entries as [|e [|]]; [done| |done]. split; [simpl; lia|].
    intros ? [= <-] ?. unfold promotable, order_status. simpl. by apply (Hlink e). }
  destruct (finish_report_stored _ _ _ _ _ _ _ _ _ _ Hs2 E) as [Hev2 Hst2].
  pose proof (fr_updated _ _ F2) as Hup. simpl in Hup. rewrite <- Hup in Hev2, Hst2. subst r. split; [by rewrite Hev1, Hev2|].
  intros o' l' d' Ho' Hb'. apply Hst1 in Ho' as ->. apply Hst2 in Hb' as [= -> ->].
  destruct (OrderManager.pg_original_order_updated _); [|done]. by apply finalize_rel.
Qed.

(** ** A run of the demo OMS: a trade fills the order of [covered_order] *)

Definition v1_covered : OmsOrder := OrderManager.new_order covered_order None None 1000.
Definition v1_covered_mgr : OrderManager :=
  (OrderManager.new 0 ∅ false 100) <| omgr_order_dict := {[11 := v1_covered]} |>.
Definition covered_fill : OrderReport :=
  demo_report 11 [trade_entry (f64.of_Z 10) (f64.of_Z 900)].

Definition covered_both : LiveOrder * OrderDetailLog := Eval vm_compute in
  match OrderStoreV2.get_live_and_detail 11 (c_orders bought_core) with
  | Some both => both
  | None => (OrderStoreV2.new_live 0 covered_order (OmsCoreV2.stub_meta 0)
               default_OrderAccountingFlags 0, default_OrderDetailLog)
  end.

Definition covered_filled : list OmsActionV2 * OmsCoreV2 := Eval vm_compute in
  match OmsCoreV2.process_report_for_order 11 0 covered_fill bought_core with
  | Returns r => r
  | Panics _ => ([], bought_core)
  end.

Lemma bought_core_wf : core_wf bought_core.
Proof.
  apply (reachable_inv _ (reach_message _ _ _ _ _ funded_core_reachable bought_step)).
Qed.

Definition v1_filled : OmsOrder := Eval vm_compute in
  default v1_covered
    (omgr_order_dict (OrderManager.update_with_report 3000 covered_fill v1_covered_mgr).2 !! 11).
Definition v2_filled : LiveOrder * OrderDetailLog := Eval vm_compute in
  default covered_both (OrderStoreV2.get_live_and_detail 11 (c_orders covered_filled.2)).

Lemma order_reports_agree_witness :
  order_rel v1_filled v2_filled.1 v2_filled.2 ∧ lo_filled_qty v2_filled.1 = f64.of_Z 10.
Proof.
  split; [|vm_compute; reflexivity].
  refine (proj2 (order_reports_agree 0 3000 covered_fill bought_core v1_covered_mgr v1_covered
           covered_both.1 covered_both.2 covered_filled.1 covered_filled.2 bought_core_wf
           _ _ _ _ _ _ _) v1_filled v2_filled.1 v2_filled.2 _ _).
  - done.
  - vm_compute. reflexivity.
  - reflexivity.
  - split; vm_compute; try reflexivity; done.
  - apply Forall_app. split; [by repeat constructor|].
    destruct (OrderStoreV2.infer_state_from_trades _ _) as [e|] eqn:E; [|constructor].
    constructor; [|constructor]. vm_compute in E. injection E as <-. intros Hz.
    vm_compute in Hz. discriminate Hz.
  - by intros e [= <-].
  - vm_compute. reflexivity.
  - vm_compute. reflexivity.
  - vm_compute. reflexivity.
Defined.
