(* ===== verification/Text.v ===== *)
(** * Strings

    The functions of [str] the gateway and market-data crates use: search,
    splitting and the parsing of decimal integers.  Strings are sequences of
    bytes; every separator and digit is an ASCII byte, which in UTF-8 occurs
    only as itself. *)

From S2P Require Import Prelude.

Fixpoint has_prefix (p s : string) : bool :=
  match p, s with
  | EmptyString, _ => true
  | String a p, String b s => Ascii.eqb a b && has_prefix p s
  | _, EmptyString => false
  end.

(** [str::contains] with a string pattern. *)
Fixpoint contains (p s : string) : bool :=
  has_prefix p s || match s with EmptyString => false | String _ s => contains p s end.

(** [s.matches(c).count()] for a character. *)
Fixpoint count_byte (c : Z) (s : string) : nat :=
  match s with
  | EmptyString => 0
  | String a s => ((if (byte_of a =? c)%Z then 1 else 0) + count_byte c s)%nat
  end.

(** The parts before and after the first byte [c], as [splitn(2, c)] and
    [split_once(c)] give them. *)
Fixpoint split_at (c : Z) (s : string) : option (string * string) :=
  match s with
  | EmptyString => None
  | String a s =>
      if byte_of a =? c then Some (EmptyString, s)
      else (λ '(l, r), (String a l, r)) <$> split_at c s
  end.

(** [str::split] with a character: one part more than there are separators. *)
Fixpoint split_on (c : Z) (s : string) : list string :=
  match s with
  | EmptyString => [EmptyString]
  | String a s =>
      if byte_of a =? c then EmptyString :: split_on c s
      else match split_on c s with
           | [] => [String a EmptyString]
           | part :: parts => String a part :: parts
           end
  end.

(** [str::strip_prefix] *)
Fixpoint strip_prefix (p s : string) : option string :=
  match p, s with
  | EmptyString, _ => Some s
  | String a p, String b s => if Ascii.eqb a b then strip_prefix p s else None
  | _, EmptyString => None
  end.

(** [str::eq_ignore_ascii_case] *)
Definition eq_ignore_ascii_case (s t : string) : bool :=
  bool_decide (ascii_uppercase s = ascii_uppercase t).

(** [str::trim_start], [str::trim_end] and [str::trim].  A suffix that is white
    space starts at a character: its first byte is no continuation byte. *)
Fixpoint trim_start (s : string) : string :=
  match s with
  | EmptyString => s
  | String a s1 =>
      if is_ascii_ws (byte_of a) then trim_start s1
      else match s1 with
           | EmptyString => s
           | String b s2 =>
               if is_ws2 (byte_of a) (byte_of b) then trim_start s2
               else match s2 with
                    | EmptyString => s
                    | String c s3 =>
                        if is_ws3 (byte_of a) (byte_of b) (byte_of c) then trim_start s3 else s
                    end
           end
  end.
Fixpoint trim_end (s : string) : string :=
  if trim_is_empty s then EmptyString
  else match s with EmptyString => EmptyString | String a s => String a (trim_end s) end.
Definition trim (s : string) : string := trim_end (trim_start s).

(** [str::to_ascii_lowercase] *)
Definition ascii_lower (a : Ascii.ascii) : Ascii.ascii :=
  let n := Ascii.N_of_ascii a in
  if ((65 <=? n)%N && (n <=? 90)%N) then Ascii.ascii_of_N (n + 32) else a.
Fixpoint to_ascii_lowercase (s : string) : string :=
  match s with
  | EmptyString => EmptyString
  | String a s => String (ascii_lower a) (to_ascii_lowercase s)
  end.

(** ** Decimal integers *)

Definition digit (a : Ascii.ascii) : option Z :=
  let d := byte_of a - 0x30 in
  if (0 <=? d) && (d <=? 9) then Some d else None.

(** Accumulate digits with a sign; [None] for a byte that is no digit. *)
Fixpoint digits (sign acc : Z) (s : string) : option Z :=
  match s with
  | EmptyString => Some acc
  | String a s => d ← digit a; digits sign (10 * acc + sign * d) s
  end.

(** [from_str_radix] in base 10 at the range [lo..hi]: a sign, then at least one
    digit; a value out of range is an error.  The partial values of a number in
    range are in range, so checking the last one is enough. *)
Definition parse_int (lo hi : Z) (s : string) : option Z :=
  let '(sign, body) :=
    match s with
    | String a s' =>
        if byte_of a =? 0x2B then (1, s')
        else if (byte_of a =? 0x2D) && (lo <? 0) then (-1, s')
        else (1, s)
    | EmptyString => (1, s)
    end in
  if is_empty body then None
  else
    z ← digits sign 0 body;
    if (lo <=? z) && (z <=? hi) then Some z else None.

Definition parse_u32 : string → option Z := parse_int 0 (2 ^ 32 - 1).
Definition parse_i32 : string → option Z := parse_int (- 2 ^ 31) (2 ^ 31 - 1).

(** ** Splitting what was joined *)

Lemma count_byte_app c s t : count_byte c (s +:+ t) = (count_byte c s + count_byte c t)%nat.
Proof. induction s as [|a s IH]; simpl; [done|]. rewrite IH. lia. Qed.

Lemma split_at_app c s a t :
  count_byte c s = 0%nat → byte_of a = c → split_at c (s +:+ String a t) = Some (s, t).
Proof.
  intros Hs Ha. induction s as [|b s IH]; simpl in *.
  - by rewrite Ha, Z.eqb_refl.
  - destruct (byte_of b =? c); [lia|]. by rewrite IH.
Qed.

Lemma split_on_fresh c s : count_byte c s = 0%nat → split_on c s = [s].
Proof.
  induction s as [|a s IH]; [done|]. cbn [count_byte split_on]. destruct (byte_of a =? c); [lia|].
  intros Hs. by rewrite IH by lia.
Qed.

Lemma split_on_app c s a t :
  count_byte c s = 0%nat → byte_of a = c → split_on c (s +:+ String a t) = s :: split_on c t.
Proof.
  intros Hs Ha. induction s as [|b s IH]; simpl in *.
  - by rewrite Ha, Z.eqb_refl.
  - destruct (byte_of b =? c); [lia|]. by rewrite IH.
Qed.

(** Two parts are what a single separator joins. *)
Lemma split_on_pair c s l r :
  split_on c s = [l; r] →
  ∃ a, byte_of a = c ∧ s = l +:+ String a r ∧ count_byte c l = 0%nat ∧ count_byte c r = 0%nat.
Proof.
  assert (∀ s p, split_on c s = [p] → s = p ∧ count_byte c p = 0%nat) as Hone.
  { clear. induction s as [|a s IH]; intros p; cbn [split_on]; [by intros [= <-]|].
    destruct (byte_of a =? c) eqn:Ha.
    - destruct s as [|b s]; cbn [split_on]; [done|].
      destruct (byte_of b =? c); [done|]. by destruct (split_on c s).
    - destruct (split_on c s) as [|q qs] eqn:Hs; [|intros [= <- ->]].
      { destruct s as [|b s]; cbn [split_on] in Hs; [done|].
        destruct (byte_of b =? c); [done|]. by destruct (split_on c s). }
      destruct (IH q) as [-> Hq]; [done|]. simpl. by rewrite Ha. }
  revert l. induction s as [|a s IH]; intros l; cbn [split_on]; [done|].
  destruct (byte_of a =? c) eqn:Ha.
  - intros [= <- Hr]. apply Hone in Hr as [-> Hr]. exists a. by apply Z.eqb_eq in Ha.
  - destruct (split_on c s) as [|q qs] eqn:Hs; [done|]. intros [= <- ->].
    destruct (IH q eq_refl) as (a' & Ha' & -> & Hq & Hr). exists a'. simpl. by rewrite Ha.
Qed.

Lemma strip_prefix_Some p s t : strip_prefix p s = Some t ↔ s = p +:+ t.
Proof.
  revert s. induction p as [|a p IH]; intros s; cbn [strip_prefix]; [by split; [intros [= ->]|intros ->]|].
  destruct s as [|b s]; [done|]. destruct (Ascii.eqb_spec a b) as [->|Hne].
  - rewrite IH. split; [by intros ->|by intros [= ->]].
  - split; [done|by intros [= ->]].
Qed.

(** ** Parsing what was displayed *)

Lemma digit_pretty (n : N) : (n < 10)%N → digit (pretty_N_char n) = Some (Z.of_N n).
Proof.
  intros Hn.
  assert (n = 0 ∨ n = 1 ∨ n = 2 ∨ n = 3 ∨ n = 4 ∨ n = 5 ∨ n = 6 ∨ n = 7 ∨ n = 8 ∨ n = 9)%N by lia.
  naive_solver.
Qed.

Lemma digits_pretty_go (n : N) sign s :
  digits sign 0 (pretty_N_go n s) = digits sign (sign * Z.of_N n) s.
Proof.
  revert s. induction (N.lt_wf_0 n) as [n _ IH]; intros s.
  destruct (decide (n = 0)%N) as [->|Hn].
  { rewrite pretty_N_go_0. f_equal. lia. }
  rewrite pretty_N_go_step, IH by (lia || by apply N.div_lt; lia). simpl.
  rewrite digit_pretty by (by apply N.mod_lt). simpl. f_equal.
  pose proof (N.div_mod n 10 ltac:(done)). nia.
Qed.

Lemma pretty_go_head (n : N) s : (0 < n)%N →
  ∃ d t, (d < 10)%N ∧ pretty_N_go n s = String (pretty_N_char d) t.
Proof.
  revert s. induction (N.lt_wf_0 n) as [n _ IH]; intros s Hn.
  rewrite pretty_N_go_step by done.
  destruct (decide (n `div` 10 = 0)%N) as [->|?].
  - rewrite pretty_N_go_0. do 2 eexists. split; [|done]. by apply N.mod_lt.
  - apply IH; [by apply N.div_lt; lia|by apply N.neq_0_lt_0].
Qed.

Lemma sign_free_digit (d : N) : (d < 10)%N →
  (byte_of (pretty_N_char d) =? 0x2B) = false ∧ (byte_of (pretty_N_char d) =? 0x2D) = false.
Proof.
  intros Hd. apply digit_pretty in Hd. unfold digit in Hd. case_match; [|done]. split; lia.
Qed.

Lemma range_check lo hi z :
  lo ≤ z ≤ hi → (if (lo <=? z) && (z <=? hi) then Some z else None) = Some z.
Proof. intros ?. by rewrite (proj2 (Z.leb_le lo z)), (proj2 (Z.leb_le z hi)) by lia. Qed.

(** [str::parse] reads back what an integer in range displays as. *)
Lemma parse_int_display lo hi z :
  lo < 0 → lo ≤ z ≤ hi → parse_int lo hi (display_i64 z) = Some z.
Proof.
  intros Hlo Hz. destruct z as [|p|p].
  - by apply range_check.
  - change (display_i64 (Zpos p)) with (pretty_N_go (Npos p) "").
    destruct (pretty_go_head (Npos p) "" ltac:(lia)) as (d & t & Hd & Heq).
    pose proof (digits_pretty_go (Npos p) 1 "") as Hgo. rewrite Heq in Hgo |- *.
    unfold parse_int. destruct (sign_free_digit d Hd) as [-> ->].
    cbn [andb is_empty]. rewrite Hgo. by apply range_check.
  - change (display_i64 (Zneg p)) with ("-" +:+ pretty_N_go (Npos p) "").
    destruct (pretty_go_head (Npos p) "" ltac:(lia)) as (d & t & Hd & Heq).
    pose proof (digits_pretty_go (Npos p) (-1) "") as Hgo. rewrite Heq in Hgo |- *.
    unfold parse_int. simpl. rewrite (proj2 (Z.ltb_lt _ _) Hlo). simpl in Hgo |- *.
    rewrite Hgo. by apply range_check.
Qed.

Lemma parse_i32_display z : - 2 ^ 31 ≤ z < 2 ^ 31 → parse_i32 (display_i64 z) = Some z.
Proof. intros ?. apply parse_int_display; lia. Qed.
