(* ===== verification/RtmdSub.v ===== *)
(** * Market-data subscriptions

    [zk-rtmd-rs/src/types.rs], [sub_manager.rs], [venue_adapter.rs] and the
    simulator's adapter, with the source of interest changes of the gateway,
    [zk-rtmd-gw-svc/src/nats_sub_source.rs].

    A gateway has one task that reconciles and then applies interest changes
    one at a time, so the operations are sequential.  The key-value store is a
    parameter: its watch is the list of entries it delivers, its end a closed
    channel, and JSON decoding a function of the value. *)

From S2P Require Import Prelude Text.

(** ** [types.rs] *)

Inductive ChannelType : Set :=
| ChTick
| ChKline (interval : string)
| ChOrderBook (depth : option Z)
| ChFunding.
#[export] Instance ChannelType_eq_dec : EqDecision ChannelType.
Proof. solve_decision. Defined.
#[export] Instance ChannelType_countable : Countable ChannelType.
Proof.
  refine (inj_countable'
    (λ c, match c with
          | ChTick => inl (inl tt)
          | ChKline i => inl (inr i)
          | ChOrderBook d => inr (inl d)
          | ChFunding => inr (inr tt)
          end)
    (λ x, match x with
          | inl (inl _) => ChTick
          | inl (inr i) => ChKline i
          | inr (inl d) => ChOrderBook d
          | inr (inr _) => ChFunding
          end) _).
  by intros [].
Defined.

Record StreamKey : Set := mkStreamKey { sk_instrument_code : string; sk_channel : ChannelType }.
#[export] Instance StreamKey_eq_dec : EqDecision StreamKey.
Proof. solve_decision. Defined.
#[export] Instance StreamKey_countable : Countable StreamKey.
Proof.
  refine (inj_countable' (λ k, (sk_instrument_code k, sk_channel k))
            (λ '(i, c), mkStreamKey i c) _).
  by intros [].
Defined.

Record RtmdSubscriptionSpec : Set := mkRtmdSubscriptionSpec {
  rss_stream_key : StreamKey;
  rss_instrument_exch : string;
  rss_venue : string;
}.

Inductive RtmdError : Set :=
| VenueError (msg : string)
| SubscriptionError (msg : string)
| RtmdNotFound (msg : string)
| ChannelClosed
| RtmdInternal (msg : string).

(** ** [venue_adapter.rs]: the subscription calls of an adapter in state [A] *)

Class RtmdVenueAdapter (A : Type) : Type := {
  subscribe : RtmdSubscriptionSpec → A → result unit RtmdError * A;
  unsubscribe : RtmdSubscriptionSpec → A → result unit RtmdError * A;
  snapshot_active : A → result (list RtmdSubscriptionSpec) RtmdError;
}.

(** ** [venue/simulator/mod.rs]: subscriptions of the simulated venue *)

Record SimRtmdAdapter : Type := mkSimRtmdAdapter {
  sra_active : list RtmdSubscriptionSpec;
  sra_exch_map : gmap string (string * Z);
}.

Module SimRtmdAdapter.
Definition new : SimRtmdAdapter := mkSimRtmdAdapter [] ∅.

Definition subscribe (spec : RtmdSubscriptionSpec) (a : SimRtmdAdapter)
    : result unit RtmdError * SimRtmdAdapter :=
  let code := sk_instrument_code (rss_stream_key spec) in
  let entry :=
    match sra_exch_map a !! code with
    | Some (exch, refcount) => (exch, refcount + 1)
    | None => (rss_instrument_exch spec, 1)
    end in
  (Ok tt, mkSimRtmdAdapter (sra_active a ++ [spec]) (<[code := entry]> (sra_exch_map a))).

Definition unsubscribe (spec : RtmdSubscriptionSpec) (a : SimRtmdAdapter)
    : result unit RtmdError * SimRtmdAdapter :=
  let code := sk_instrument_code (rss_stream_key spec) in
  let exch_map :=
    match sra_exch_map a !! code with
    | Some (exch, refcount) =>
        let refcount := if 0 <? refcount then refcount - 1 else refcount in
        if refcount =? 0 then delete code (sra_exch_map a)
        else <[code := (exch, refcount)]> (sra_exch_map a)
    | None => sra_exch_map a
    end in
  (Ok tt, mkSimRtmdAdapter
            (filter (λ s, rss_stream_key s ≠ rss_stream_key spec) (sra_active a)) exch_map).

Definition snapshot_active (a : SimRtmdAdapter) : result (list RtmdSubscriptionSpec) RtmdError :=
  Ok (sra_active a).

Definition instrument_exch_for (code : string) (a : SimRtmdAdapter) : option string :=
  fst <$> sra_exch_map a !! code.
End SimRtmdAdapter.

#[export] Instance SimRtmdAdapter_adapter : RtmdVenueAdapter SimRtmdAdapter := {|
  subscribe := SimRtmdAdapter.subscribe;
  unsubscribe := SimRtmdAdapter.unsubscribe;
  snapshot_active := SimRtmdAdapter.snapshot_active;
|}.

(** ** [sub_manager.rs] *)

Record RtmdLease : Set := mkRtmdLease {
  ls_subscriber_id : string;
  ls_subscription_id : string;
  ls_instrument_code : string;
  ls_channel : ChannelType;
  ls_instrument_exch : string;
  ls_venue : string;
  ls_lease_expiry_ms : Z;
}.

Definition stream_key (l : RtmdLease) : StreamKey :=
  mkStreamKey (ls_instrument_code l) (ls_channel l).
Definition to_spec (l : RtmdLease) : RtmdSubscriptionSpec :=
  mkRtmdSubscriptionSpec (stream_key l) (ls_instrument_exch l) (ls_venue l).

Inductive SubInterestChange : Set :=
| Added (lease : RtmdLease)
| Removed (subscriber_id subscription_id : string) (key : StreamKey).

(** The refcounts, with the adapter they drive. *)
Record SubscriptionManager {A : Type} : Type := mkSubscriptionManager {
  sm_adapter : A;
  sm_state : gmap StreamKey (Z * RtmdSubscriptionSpec);
}.
#[global] Arguments SubscriptionManager : clear implicits.
#[global] Arguments mkSubscriptionManager {_}.
#[export] Instance eta_SubscriptionManager {A} : Eta (SubscriptionManager A) := λ r,
  mkSubscriptionManager (sm_adapter r) (sm_state r).

Module SubscriptionManager.
Section manager.
Context {A : Type} `{!RtmdVenueAdapter A}.
Notation Mgr := (SubscriptionManager A).
Notation Refs := (gmap StreamKey (Z * RtmdSubscriptionSpec)).

Definition new (adapter : A) : Mgr := mkSubscriptionManager adapter ∅.

(** [entry(key).or_insert((0, spec)).0 += 1] and the count. *)
Definition count_lease (key : StreamKey) (spec : RtmdSubscriptionSpec) (state : Refs) : Z * Refs :=
  let '(n, spec) := default (0, spec) (state !! key) in
  (n + 1, <[key := (n + 1, spec)]> state).

(** The refcounts of the leases and the streams to subscribe. *)
Definition count_leases (active_keys : gset StreamKey) (leases : list RtmdLease) (state : Refs)
    : list RtmdSubscriptionSpec * Refs :=
  foldl (λ '(to_subscribe, state) lease,
    let key := stream_key lease in
    let spec := to_spec lease in
    let '(n, state) := count_lease key spec state in
    (if (n =? 1) && negb (bool_decide (key ∈ active_keys)) then to_subscribe ++ [spec]
     else to_subscribe, state)) ([], state) leases.

(** Failures to subscribe are only logged. *)
Definition subscribe_all (specs : list RtmdSubscriptionSpec) (a : A) : A :=
  foldl (λ a spec, (subscribe spec a).2) a specs.

Definition reconcile_on_start (snapshot : result (list RtmdLease) RtmdError) (m : Mgr)
    : result unit RtmdError * Mgr :=
  match snapshot with
  | Err e => (Err e, m)
  | Ok leases =>
      match snapshot_active (sm_adapter m) with
      | Err e => (Err e, m)
      | Ok active =>
          let active_keys := list_to_set (rss_stream_key <$> active) in
          let '(to_subscribe, state) := count_leases active_keys leases (sm_state m) in
          (Ok tt, mkSubscriptionManager (subscribe_all to_subscribe (sm_adapter m)) state)
      end
  end.

(** Undo the count of a lease whose stream could not be subscribed. *)
Definition roll_back (key : StreamKey) (state : Refs) : Refs :=
  match state !! key with
  | Some (n, spec) =>
      let n := if 0 <? n then n - 1 else n in
      if n =? 0 then delete key state else <[key := (n, spec)]> state
  | None => state
  end.

(** Uncount a lease; the spec to unsubscribe when it was the last. *)
Definition uncount_lease (key : StreamKey) (state : Refs) : option RtmdSubscriptionSpec * Refs :=
  match state !! key with
  | Some (n, spec) =>
      if 0 <? n then
        if n - 1 =? 0 then (Some spec, delete key state)
        else (None, <[key := (n - 1, spec)]> state)
      else (None, state)
  | None => (None, state)
  end.

Definition apply_change (change : SubInterestChange) (m : Mgr) : result unit RtmdError * Mgr :=
  match change with
  | Added lease =>
      let key := stream_key lease in
      let spec := to_spec lease in
      let '(refcount, state) := count_lease key spec (sm_state m) in
      if refcount =? 1 then
        match subscribe spec (sm_adapter m) with
        | (Ok _, a) => (Ok tt, mkSubscriptionManager a state)
        | (Err e, a) => (Err e, mkSubscriptionManager a (roll_back key state))
        end
      else (Ok tt, m <| sm_state := state |>)
  | Removed _ _ key =>
      match uncount_lease key (sm_state m) with
      | (Some spec, state) =>
          match unsubscribe spec (sm_adapter m) with
          | (Ok _, a) => (Ok tt, mkSubscriptionManager a state)
          | (Err e, a) =>
              (Err e, mkSubscriptionManager a
                        (<[key := default (1, spec) (state !! key)]> state))
          end
      | (None, state) => (Ok tt, m <| sm_state := state |>)
      end
  end.

Definition refcount (key : StreamKey) (m : Mgr) : Z := default 0 (fst <$> sm_state m !! key).
End manager.
End SubscriptionManager.

(** ** [nats_sub_source.rs] *)

Record WireInterestSpec : Set := mkWireInterestSpec {
  wi_subscriber_id : string;
  wi_scope : string;
  wi_instrument_id : string;
  wi_channel_type : string;
  wi_channel_param : option string;
  wi_venue : string;
  wi_instrument_exch : string;
  wi_lease_expiry_ms : Z;
}.

Definition channel_type_from_wire (channel_type : string) (channel_param : option string)
    : option ChannelType :=
  if bool_decide (channel_type = "tick") then Some ChTick
  else if bool_decide (channel_type = "kline") then Some (ChKline (default "1m" channel_param))
  else if bool_decide (channel_type = "orderbook") then
    Some (ChOrderBook (channel_param ≫= parse_u32))
  else if bool_decide (channel_type = "funding") then Some ChFunding
  else None.

Definition into_lease (kv_key : string) (w : WireInterestSpec) : option RtmdLease :=
  channel ← channel_type_from_wire (wi_channel_type w) (wi_channel_param w);
  Some (mkRtmdLease (wi_subscriber_id w) kv_key (wi_instrument_id w) channel
          (wi_instrument_exch w) (wi_venue w) (wi_lease_expiry_ms w)).

Record CachedLease : Set := mkCachedLease {
  cl_subscriber_id : string;
  cl_stream_key : StreamKey;
  cl_instrument_exch : string;
  cl_venue : string;
}.

Definition cached_of (l : RtmdLease) : CachedLease :=
  mkCachedLease (ls_subscriber_id l) (stream_key l) (ls_instrument_exch l) (ls_venue l).

Inductive PutOutcome : Set :=
| PutNew
| PutRefresh
| PutTransportChange (old_subscriber_id : string) (old_stream_key : StreamKey).

Definition classify_put (cached : option CachedLease) (new_lease : RtmdLease) : PutOutcome :=
  match cached with
  | None => PutNew
  | Some c =>
      if bool_decide (cl_stream_key c = stream_key new_lease) &&
         bool_decide (cl_instrument_exch c = ls_instrument_exch new_lease) &&
         bool_decide (cl_venue c = ls_venue new_lease)
      then PutRefresh
      else PutTransportChange (cl_subscriber_id c) (cl_stream_key c)
  end.

(** What the watch of the store delivers. *)
Inductive WatchItem : Set :=
| KvPut (key value : string)
| KvDelete (key : string)
| KvPurge (key : string)
| KvError.

Record NatsKvSubSource : Type := mkNatsKvSubSource {
  ns_venue : string;
  ns_key_cache : gmap string CachedLease;
  ns_pending : list SubInterestChange;
}.
#[export] Instance eta_NatsKvSubSource : Eta NatsKvSubSource := λ r,
  mkNatsKvSubSource (ns_venue r) (ns_key_cache r) (ns_pending r).

Module NatsKvSubSource.
Section source.
(** [serde_json::from_slice] *)
Context (from_slice : string → option WireInterestSpec).

Definition new (venue : string) : NatsKvSubSource := mkNatsKvSubSource venue ∅ [].

Definition parse_wire (kv_key bytes : string) (src : NatsKvSubSource) : option RtmdLease :=
  wire ← from_slice bytes;
  if negb (eq_ignore_ascii_case (wi_venue wire) (ns_venue src)) then None
  else into_lease kv_key wire.

(** The keys of the store, [None] where the stream of keys had an error, and
    the values it returns. *)
Definition snapshot_key (get : string → option string)
    (acc : list RtmdLease * NatsKvSubSource) (key : option string)
    : list RtmdLease * NatsKvSubSource :=
  let '(leases, src) := acc in
  match key with
  | None => acc
  | Some kv_key =>
      match (bytes ← get kv_key; parse_wire kv_key bytes src) with
      | Some lease =>
          (leases ++ [lease], src <| ns_key_cache ::= <[kv_key := cached_of lease]> |>)
      | None => acc
      end
  end.

Definition snapshot (keys : list (option string)) (get : string → option string)
    (src : NatsKvSubSource) : list RtmdLease * NatsKvSubSource :=
  foldl (snapshot_key get) ([], src) keys.

(** One entry of the watch: the change to return, if any. *)
Definition handle_entry (item : WatchItem) (src : NatsKvSubSource)
    : option SubInterestChange * NatsKvSubSource :=
  match item with
  | KvPut key value =>
      match parse_wire key value src with
      | None => (None, src)
      | Some new_lease =>
          match classify_put (ns_key_cache src !! key) new_lease with
          | PutRefresh => (None, src)
          | PutNew => (Some (Added new_lease),
                       src <| ns_key_cache ::= <[key := cached_of new_lease]> |>)
          | PutTransportChange old_subscriber_id old_stream_key =>
              (Some (Removed old_subscriber_id key old_stream_key),
               src <| ns_key_cache ::= <[key := cached_of new_lease]> |>
                   <| ns_pending := ns_pending src ++ [Added new_lease] |>)
          end
      end
  | KvDelete key | KvPurge key =>
      match ns_key_cache src !! key with
      | Some cached =>
          (Some (Removed (cl_subscriber_id cached) key (cl_stream_key cached)),
           src <| ns_key_cache ::= delete key |>)
      | None => (None, src)
      end
  | KvError => (None, src)
  end.

(** Pull entries until one is a change; the entries left. *)
Fixpoint next_change (watch : list WatchItem) (src : NatsKvSubSource)
    : result SubInterestChange RtmdError * NatsKvSubSource * list WatchItem :=
  match ns_pending src with
  | change :: pending => (Ok change, src <| ns_pending := pending |>, watch)
  | [] =>
      match watch with
      | [] => (Err ChannelClosed, src, [])
      | item :: watch =>
          match handle_entry item src with
          | (Some change, src) => (Ok change, src, watch)
          | (None, src) => next_change watch src
          end
      end
  end.
End source.
End NatsKvSubSource.

(** ** [run_watch_loop] over the store's source

    Failures to apply a change are only logged.  The loop ends with the watch;
    [rounds] bounds the calls of [next_change]. *)
Section watch_loop.
Context {A : Type} `{!RtmdVenueAdapter A} (from_slice : string → option WireInterestSpec).

Fixpoint watch_rounds (rounds : nat) (watch : list WatchItem) (src : NatsKvSubSource)
    (m : SubscriptionManager A) : outcome (NatsKvSubSource * SubscriptionManager A) :=
  match rounds with
  | O => Panics "run_watch_loop: rounds"
  | S rounds =>
      match NatsKvSubSource.next_change from_slice watch src with
      | (Ok change, src, watch) =>
          watch_rounds rounds watch src (SubscriptionManager.apply_change change m).2
      | (Err _, src, _) => Returns (src, m)
      end
  end.

(** Each entry gives at most two changes. *)
Definition run_watch_loop (watch : list WatchItem) (src : NatsKvSubSource)
    (m : SubscriptionManager A) : outcome (NatsKvSubSource * SubscriptionManager A) :=
  watch_rounds (S (length (ns_pending src) + 2 * length watch)) watch src m.
End watch_loop.
