(* ===== verification/RtmdFacts.v ===== *)
(** * Upstream subscriptions follow the leases

    Over a reliable adapter, the store's source and the subscription manager
    together keep, for every stream, as many references as there are keys whose
    latest valid lease asks for it, and exactly those streams subscribed.  With
    an adapter that can fail this does not hold: a concrete run unsubscribes a
    stream somebody still holds a lease on. *)

From S2P Require Import Prelude Text RtmdSub.

(** ** Reliable adapters *)

(** The streams an adapter has active change with each call, and no call fails. *)
Class ReliableAdapter (A : Type) `{!RtmdVenueAdapter A} (active : A → gset StreamKey) : Prop := {
  subscribe_ok spec a : ∃ a', subscribe spec a = (Ok tt, a') ∧
    active a' = {[rss_stream_key spec]} ∪ active a;
  unsubscribe_ok spec a : ∃ a', unsubscribe spec a = (Ok tt, a') ∧
    active a' = active a ∖ {[rss_stream_key spec]};
  snapshot_ok a : ∃ specs, snapshot_active a = Ok specs ∧
    list_to_set (rss_stream_key <$> specs) = active a;
}.

Definition sim_active (a : SimRtmdAdapter) : gset StreamKey :=
  list_to_set (rss_stream_key <$> sra_active a).

#[export] Instance SimRtmdAdapter_reliable : ReliableAdapter SimRtmdAdapter sim_active.
Proof.
  split.
  - intros spec a. eexists. split; [done|]. unfold sim_active. simpl. set_solver.
  - intros spec a. eexists. split; [done|]. unfold sim_active. simpl.
    apply set_eq. intros k. rewrite elem_of_difference, elem_of_singleton, !elem_of_list_to_set,
      !list_elem_of_fmap. split.
    + intros (s & -> & [? ?]%list_elem_of_filter). eauto.
    + intros [(s & -> & ?) ?]. exists s. by rewrite list_elem_of_filter.
  - intros a. by exists (sra_active a).
Qed.

(** ** Counting *)

(** The entries of a map that ask for a stream. *)
Definition asks (key k : StreamKey) : Z := if decide (k = key) then 1 else 0.
Definition interest (key : StreamKey) (m : gmap string StreamKey) : Z := map_sum (λ _, asks key) m.

(** What a sequence of changes adds to the references of a stream. *)
Definition owed1 (key : StreamKey) (c : SubInterestChange) : Z :=
  match c with
  | Added l => asks key (stream_key l)
  | Removed _ _ k => - asks key k
  end.
Definition owed (key : StreamKey) (cs : list SubInterestChange) : Z := Zsum (owed1 key <$> cs).

Lemma owed_cons key c cs : owed key (c :: cs) = owed1 key c + owed key cs.
Proof. done. Qed.

Lemma interest_lookup m id key : m !! id = Some key → 1 ≤ interest key m.
Proof.
  intros Hm. unfold interest. rewrite (map_sum_delete _ m id key Hm).
  pose proof (map_sum_nonneg (λ _, asks key) (delete id m)) as Hn. unfold asks in *.
  rewrite decide_True by done. enough (0 ≤ map_sum (λ (_ : string) k, if decide (k = key) then 1 else 0)
    (delete id m)) by lia. apply Hn. intros. case_decide; lia.
Qed.

(** ** The manager *)

Section manager.
Context {A : Type} `{!RtmdVenueAdapter A} (active : A → gset StreamKey) `{!ReliableAdapter A active}.
Implicit Types (m : SubscriptionManager A).

(** Every reference is of a subscribed stream, under its own key. *)
Record manager_ok m : Prop := {
  mo_refs k n spec : sm_state m !! k = Some (n, spec) → 1 ≤ n ∧ rss_stream_key spec = k;
  mo_active : active (sm_adapter m) = dom (sm_state m);
}.

Lemma refcount_nonneg k m : manager_ok m → 0 ≤ SubscriptionManager.refcount k m.
Proof.
  intros [Hr _]. unfold SubscriptionManager.refcount.
  destruct (sm_state m !! k) as [[n spec]|] eqn:E; simpl; [|lia]. apply Hr in E. lia.
Qed.

Lemma active_refcount k m :
  manager_ok m → k ∈ active (sm_adapter m) ↔ 0 < SubscriptionManager.refcount k m.
Proof.
  intros [Hr ->]. rewrite elem_of_dom. unfold SubscriptionManager.refcount.
  destruct (sm_state m !! k) as [[n spec]|] eqn:E; simpl; [|split; [by intros []|lia]].
  apply Hr in E. split; [lia|eauto].
Qed.

(** The state after counting a lease. *)
Lemma count_lease_ok lease (state : gmap StreamKey (Z * RtmdSubscriptionSpec)) :
  (∀ k n spec, state !! k = Some (n, spec) → 1 ≤ n ∧ rss_stream_key spec = k) →
  let r := SubscriptionManager.count_lease (stream_key lease) (to_spec lease) state in
  (∀ k n spec, r.2 !! k = Some (n, spec) → 1 ≤ n ∧ rss_stream_key spec = k) ∧
  dom r.2 = {[stream_key lease]} ∪ dom state ∧
  (r.1 = 1 ↔ stream_key lease ∉ dom state) ∧
  ∀ k, default 0 (fst <$> r.2 !! k) = default 0 (fst <$> state !! k) + asks k (stream_key lease).
Proof.
  intros Hr. unfold SubscriptionManager.count_lease, asks.
  destruct (default _ _) as [n spec] eqn:E. cbn [fst snd].
  assert (0 ≤ n ∧ rss_stream_key spec = stream_key lease ∧
    n = default 0 (fst <$> state !! stream_key lease) ∧ (n = 0 ↔ state !! stream_key lease = None))
    as (Hn & Hs & Hl & H0).
  { destruct (state !! stream_key lease) as [[n' spec']|] eqn:El; simpl in E; simplify_eq; simpl.
    - apply Hr in El. naive_solver lia.
    - naive_solver. }
  split; [|split; [apply dom_insert_L|split; [rewrite not_elem_of_dom; naive_solver lia|]]].
  - intros k n' spec'. intros [[<- [= <- <-]]|[_ ?]]%lookup_insert_Some; [split; [lia|done]|eauto].
  - intros k. case_decide as Hk.
    + subst k. rewrite lookup_insert_eq. simpl. lia.
    + rewrite lookup_insert_ne by done. lia.
Qed.

Lemma apply_change_ok c m :
  manager_ok m →
  (∀ a b k, c = Removed a b k → 1 ≤ SubscriptionManager.refcount k m) →
  let m' := (SubscriptionManager.apply_change c m).2 in
  manager_ok m' ∧
  ∀ k, SubscriptionManager.refcount k m' = SubscriptionManager.refcount k m + owed1 k c.
Proof.
  intros Hm Hrem. destruct c as [lease|a b key]; cbn [SubscriptionManager.apply_change owed1].
  - destruct (count_lease_ok lease (sm_state m) (mo_refs m Hm)) as (Hr & Hd & H1 & Hc).
    destruct (SubscriptionManager.count_lease _ _ _) as [n state]. cbn [fst snd] in *.
    destruct (Z.eqb_spec n 1) as [E|E].
    + destruct (subscribe_ok (to_spec lease) (sm_adapter m)) as (a' & -> & Ha').
      split; [split; [done|]|done]. cbn [sm_adapter sm_state snd]. by rewrite Ha', Hd, (mo_active m Hm).
    + split; [split; [done|]|done]. simpl. rewrite Hd, (mo_active m Hm).
      rewrite subseteq_union_1_L; [done|]. apply singleton_subseteq_l.
      destruct (decide (stream_key lease ∈ dom (sm_state m))); [done|tauto].
  - specialize (Hrem a b key eq_refl). unfold SubscriptionManager.refcount in *.
    unfold SubscriptionManager.uncount_lease.
    destruct (sm_state m !! key) as [[n spec]|] eqn:E; simpl in Hrem; [|lia].
    destruct (mo_refs m Hm key n spec E) as [_ Hs].
    rewrite (proj2 (Z.ltb_lt 0 n)) by lia. destruct (Z.eqb_spec (n - 1) 0) as [E1|E1].
    + destruct (unsubscribe_ok spec (sm_adapter m)) as (a' & -> & Ha'). split; [split|]; simpl.
      * intros k n' spec' [_ ?]%lookup_delete_Some. by eapply (mo_refs m Hm).
      * by rewrite Ha', (mo_active m Hm), dom_delete_L, Hs.
      * intros k. unfold asks. case_decide as Hk; [subst k|].
        -- rewrite lookup_delete_eq, E. simpl. lia.
        -- rewrite lookup_delete_ne by done. lia.
    + split; [split|]; simpl.
      * intros k n' spec' [[<- [= <- <-]]|[_ ?]]%lookup_insert_Some; [split; [lia|done]|].
        by eapply (mo_refs m Hm).
      * rewrite (mo_active m Hm), dom_insert_L. apply elem_of_dom_2 in E.
        rewrite subseteq_union_1_L; [done|]. by apply singleton_subseteq_l.
      * intros k. unfold asks. case_decide as Hk; [subst k|].
        -- rewrite lookup_insert_eq, E. simpl. lia.
        -- rewrite lookup_insert_ne by done. lia.
Qed.
End manager.

(** ** The source *)

Section source.
Context (from_slice : string → option WireInterestSpec).
Implicit Types (src : NatsKvSubSource).

Definition streams (src : NatsKvSubSource) : gmap string StreamKey :=
  cl_stream_key <$> ns_key_cache src.

(** The streams asked for by the latest valid lease of each key of the store,
    for a gateway of [venue]. *)
Definition lease_of (venue key value : string) : option RtmdLease :=
  NatsKvSubSource.parse_wire from_slice key value (NatsKvSubSource.new venue).
Definition after_item (venue : string) (item : WatchItem) (m : gmap string StreamKey)
    : gmap string StreamKey :=
  match item with
  | KvPut key value =>
      match lease_of venue key value with Some l => <[key := stream_key l]> m | None => m end
  | KvDelete key | KvPurge key => delete key m
  | KvError => m
  end.
Definition after_snapshot (venue : string) (get : string → option string)
    (keys : list (option string)) : gmap string StreamKey :=
  foldl (λ m key,
    match (k ← key; v ← get k; l ← lease_of venue k v; Some (k, stream_key l)) with
    | Some (k, s) => <[k := s]> m
    | None => m
    end) ∅ keys.

Lemma streams_lookup src key : streams src !! key = cl_stream_key <$> ns_key_cache src !! key.
Proof. apply lookup_fmap. Qed.

Lemma streams_insert src key l :
  streams (src <| ns_key_cache ::= <[key := cached_of l]> |>) = <[key := stream_key l]> (streams src).
Proof. exact (fmap_insert cl_stream_key (ns_key_cache src) key (cached_of l)). Qed.

(** Deleting a key removes what it asked for. *)
Lemma delete_entry_spec key src :
  ns_pending src = [] →
  let '(o, src') :=
    match ns_key_cache src !! key with
    | Some cached =>
        (Some (Removed (cl_subscriber_id cached) key (cl_stream_key cached)),
         src <| ns_key_cache ::= delete key |>)
    | None => (None, src)
    end in
  streams src' = delete key (streams src) ∧ ns_venue src' = ns_venue src ∧
  (∀ k, interest k (streams src') =
        interest k (streams src) + owed k (option_list o ++ ns_pending src')) ∧
  (∀ a b k, o = Some (Removed a b k) → 1 ≤ interest k (streams src)) ∧ ns_pending src' = [].
Proof.
  intros Hp. pose proof (streams_lookup src key) as Hs.
  destruct (ns_key_cache src !! key) as [c|]; simpl in Hs.
  - assert (streams (src <| ns_key_cache ::= delete key |>) = delete key (streams src)) as ->
      by apply fmap_delete.
    simpl. rewrite Hp. split_and!; [done|done| |intros a b k [= <- <- <-]; by eapply interest_lookup|done].
    intros k. unfold interest. rewrite (map_sum_delete _ _ _ _ Hs). unfold owed. simpl. lia.
  - rewrite Hp, delete_id by done. unfold owed. simpl. split_and!; [done..|intros; lia|done|done].
Qed.

Lemma handle_entry_spec item src :
  ns_pending src = [] →
  let '(o, src') := NatsKvSubSource.handle_entry from_slice item src in
  streams src' = after_item (ns_venue src) item (streams src) ∧ ns_venue src' = ns_venue src ∧
  (∀ key, interest key (streams src') =
          interest key (streams src) + owed key (option_list o ++ ns_pending src')) ∧
  (∀ a b k, o = Some (Removed a b k) → 1 ≤ interest k (streams src)) ∧
  match o with
  | None => ns_pending src' = []
  | Some _ => ns_pending src' = [] ∨ ∃ l, ns_pending src' = [Added l]
  end.
Proof.
  intros Hp. destruct item as [key value|key|key|]; cbn [NatsKvSubSource.handle_entry after_item].
  - change (lease_of (ns_venue src) key value)
      with (NatsKvSubSource.parse_wire from_slice key value src).
    destruct (NatsKvSubSource.parse_wire from_slice key value src) as [l|]; cycle 1.
    { rewrite Hp. unfold owed. simpl. split_and!; [done..|intros; lia|done|done]. }
    pose proof (streams_insert src key l) as Hins.
    pose proof (streams_lookup src key) as Hs. unfold classify_put, owed.
    destruct (ns_key_cache src !! key) as [c|]; simpl in Hs.
    + destruct (_ && _) eqn:Hsame.
      * apply andb_true_iff in Hsame as [[Hk%bool_decide_eq_true _]%andb_true_iff _].
        rewrite Hp, insert_id by congruence. simpl. split_and!; [done..|intros; lia|done|done].
      * split_and!; [exact Hins|done| | |right; simpl; rewrite Hp; by eexists].
        -- intros k. etransitivity; [exact (f_equal (interest k) Hins)|]. unfold interest.
           rewrite (map_sum_replace _ _ _ _ _ Hs). simpl. rewrite Hp. simpl. lia.
        -- intros a b k [= <- <- <-]. by eapply interest_lookup.
    + split_and!; [exact Hins|done| |done|by left].
      intros k. rewrite Hins. unfold interest. rewrite (map_sum_insert _ _ _ _ Hs). simpl.
      rewrite Hp. simpl. lia.
  - pose proof (delete_entry_spec key src Hp) as H. destruct (ns_key_cache src !! key); naive_solver.
  - pose proof (delete_entry_spec key src Hp) as H. destruct (ns_key_cache src !! key); naive_solver.
  - rewrite Hp. unfold owed. simpl. split_and!; [done..|intros; lia|done|done].
Qed.

(** Keys are listed once. *)
Lemma snapshot_spec venue get keys :
  NoDup (omap id keys) →
  let '(leases, src) := NatsKvSubSource.snapshot from_slice keys get (NatsKvSubSource.new venue) in
  streams src = after_snapshot venue get keys ∧ ns_venue src = venue ∧ ns_pending src = [] ∧
  ∀ k, interest k (streams src) = owed k (Added <$> leases).
Proof.
  unfold NatsKvSubSource.snapshot, after_snapshot.
  assert (∀ keys, NoDup (omap id keys) →
    let '(leases, src) := foldl (NatsKvSubSource.snapshot_key from_slice get) ([], NatsKvSubSource.new venue) keys in
    (∀ k, is_Some (streams src !! k) → k ∈ omap id keys) ∧
    streams src = foldl (λ m key,
      match (k ← key; v ← get k; l ← lease_of venue k v; Some (k, stream_key l)) with
      | Some (k, s) => <[k := s]> m
      | None => m
      end) ∅ keys ∧ ns_venue src = venue ∧ ns_pending src = [] ∧
    ∀ k, interest k (streams src) = owed k (Added <$> leases)) as Hind.
  { clear keys. induction keys as [|key keys IH] using rev_ind; intros Hnd.
    { simpl. split; [|done]. intros k [x Hx]. by rewrite streams_lookup in Hx. }
    rewrite omap_app in Hnd. apply NoDup_app in Hnd as (Hnd & Hdis & _). specialize (IH Hnd).
    rewrite !foldl_snoc.
    destruct (foldl (NatsKvSubSource.snapshot_key from_slice get) _ keys) as [leases src].
    destruct IH as (Hdom & <- & Hv & Hp & Hi). rewrite omap_app.
    assert ((∀ k, is_Some (streams src !! k) → k ∈ omap id keys ++ omap id [key])) as Hdom'.
    { intros k Hk. apply elem_of_app. left. by apply Hdom. }
    destruct key as [k|]; [|done]. simpl. destruct (get k) as [v|]; [|done]. simpl.
    unfold lease_of. change (NatsKvSubSource.parse_wire from_slice k v (NatsKvSubSource.new venue))
      with (NatsKvSubSource.parse_wire from_slice k v (mkNatsKvSubSource venue ∅ [])).
    replace (NatsKvSubSource.parse_wire from_slice k v (mkNatsKvSubSource venue ∅ []))
      with (NatsKvSubSource.parse_wire from_slice k v src)
      by (unfold NatsKvSubSource.parse_wire; by rewrite Hv).
    destruct (NatsKvSubSource.parse_wire from_slice k v src) as [l|]; [|done]. simpl.
    rewrite streams_insert.
    assert (streams src !! k = None) as Hk.
    { apply eq_None_not_Some. intros ?%Hdom. apply (Hdis k); [done|]. simpl. by left. }
    split_and!; [|done|done|done|].
    - intros k' [x [[<- _]|[_ ?]]%lookup_insert_Some]; [|by apply Hdom'; exists x].
      apply elem_of_app. right. by left.
    - intros k'. rewrite fmap_app. unfold owed. rewrite fmap_app, Zsum_app. fold (owed k' (Added <$> leases)).
      rewrite <- Hi. unfold interest. rewrite map_sum_insert by done. simpl. lia. }
  intros Hnd. specialize (Hind keys Hnd).
  destruct (foldl _ _ keys) as [leases src]. naive_solver.
Qed.

Notation after venue := (foldl (λ m item, after_item venue item m)).

(** Pulling from the watch when nothing is pending. *)
Lemma next_change_spec watch src :
  ns_pending src = [] →
  match NatsKvSubSource.next_change from_slice watch src with
  | (Ok c, src', watch') =>
      ∃ item used, watch = (item :: used) ++ watch' ∧ ns_venue src' = ns_venue src ∧
        streams src' = after (ns_venue src) (streams src) (item :: used) ∧
        (∀ k, interest k (streams src') =
              interest k (streams src) + owed k (c :: ns_pending src')) ∧
        (∀ a b k, c = Removed a b k → 1 ≤ interest k (streams src)) ∧
        (ns_pending src' = [] ∨ ∃ l, ns_pending src' = [Added l])
  | (Err _, src', _) =>
      streams src' = after (ns_venue src) (streams src) watch ∧ ns_pending src' = [] ∧
      ∀ k, interest k (streams src') = interest k (streams src)
  end.
Proof.
  revert src. induction watch as [|item watch IH]; intros src Hp;
    cbn [NatsKvSubSource.next_change]; rewrite Hp; [done|].
  pose proof (handle_entry_spec item src Hp) as He.
  destruct (NatsKvSubSource.handle_entry from_slice item src) as [[c|] src1].
  - destruct He as (Hs & Hv & Hi & Hr & Hshape). exists item, []. simpl. naive_solver.
  - destruct He as (Hs & Hv & Hi & _ & Hp1). specialize (IH src1 Hp1).
    assert (∀ k, interest k (streams src1) = interest k (streams src)) as Hi1.
    { intros k. rewrite Hi, Hp1. unfold owed. simpl. lia. }
    destruct (NatsKvSubSource.next_change from_slice watch src1) as [[[c|e] src2] watch2].
    + destruct IH as (item' & used & -> & Hv2 & Hs2 & Hi2 & Hr2 & Hshape).
      exists item, (item' :: used). rewrite Hv in *. split_and!; [done|done| | | |done].
      * rewrite Hs2, Hs. done.
      * intros k. by rewrite Hi2, Hi1.
      * intros a b k E. rewrite <- Hi1. by eapply Hr2.
    + destruct IH as (Hs2 & Hp2 & Hi2). rewrite Hs2, Hs, Hv. split; [done|]. split; [done|].
      intros k. rewrite <- Hi1, <- Hi2, Hs2, Hs, Hv. done.
Qed.

(** ** The watch loop *)

Section loop.
Context {A : Type} `{!RtmdVenueAdapter A} (active : A → gset StreamKey) `{!ReliableAdapter A active}.
Implicit Types (m : SubscriptionManager A).

Lemma watch_rounds_ok rounds watch src m :
  manager_ok active m →
  (ns_pending src = [] ∨ ∃ l, ns_pending src = [Added l]) →
  (∀ k, interest k (streams src) = SubscriptionManager.refcount k m + owed k (ns_pending src)) →
  (length (ns_pending src) + 2 * length watch < rounds)%nat →
  returns (watch_rounds from_slice rounds watch src m) (λ '(src', m'),
    manager_ok active m' ∧ streams src' = after (ns_venue src) (streams src) watch ∧
    ∀ k, SubscriptionManager.refcount k m' = interest k (streams src')).
Proof.
  revert watch src m. induction rounds as [|rounds IH]; intros watch src m Hm Hshape Hi Hr; [lia|].
  cbn [watch_rounds]. destruct Hshape as [Hp|[l Hp]].
  - pose proof (next_change_spec watch src Hp) as Hn. rewrite Hp in Hi, Hr.
    assert (∀ k, interest k (streams src) = SubscriptionManager.refcount k m) as Hi0.
    { intros k. rewrite Hi. unfold owed. simpl. lia. }
    destruct (NatsKvSubSource.next_change from_slice watch src) as [[[c|e] src1] watch1].
    + destruct Hn as (item & used & -> & Hv & Hs & Hi1 & Hrem & Hshape).
      destruct (apply_change_ok active c m Hm) as [Hm1 Hc].
      { intros a b k E. rewrite <- Hi0. by eapply Hrem. }
      eapply returns_mono; [apply (IH watch1 src1); [done|done| |]|].
      * intros k. rewrite Hi1, Hi0, Hc, owed_cons. lia.
      * rewrite length_app in Hr. simpl in Hr.
        destruct Hshape as [->|[? ->]]; simpl; lia.
      * intros [src2 m2] (? & Hs2 & ?). split; [done|]. split; [|done].
        by rewrite Hs2, Hv, Hs, <- foldl_app.
    + destruct Hn as (Hs & _ & Hi1). split; [done|]. split; [done|].
      intros k. by rewrite Hi1, Hi0.
  - assert (NatsKvSubSource.next_change from_slice watch src =
            (Ok (Added l), src <| ns_pending := [] |>, watch)) as ->
      by (destruct watch; simpl; by rewrite Hp).
    destruct (apply_change_ok active (Added l) m Hm) as [Hm1 Hc]; [done|].
    rewrite Hp in Hr. simpl in Hr.
    eapply returns_mono; [apply (IH watch (src <| ns_pending := [] |>)); [done|by left| |simpl; lia]|].
    + intros k. change (streams (src <| ns_pending := [] |>)) with (streams src).
      rewrite Hi, Hc, Hp. unfold owed. simpl. lia.
    + by intros [].
Qed.

(** ** Start *)

Lemma subscribe_all_active specs a :
  active (SubscriptionManager.subscribe_all specs a) = list_to_set (rss_stream_key <$> specs) ∪ active a.
Proof.
  unfold SubscriptionManager.subscribe_all. revert a.
  induction specs as [|spec specs IH]; intros a; [simpl; set_solver|]. simpl.
  destruct (subscribe_ok spec a) as (a' & -> & Ha). rewrite IH. simpl. rewrite Ha. set_solver.
Qed.

Lemma count_leases_ok leases :
  let '(specs, state) := SubscriptionManager.count_leases ∅ leases ∅ in
  (∀ k n spec, state !! k = Some (n, spec) → 1 ≤ n ∧ rss_stream_key spec = k) ∧
  dom state = list_to_set (rss_stream_key <$> specs) ∧
  ∀ k, default 0 (fst <$> state !! k) = owed k (Added <$> leases).
Proof.
  unfold SubscriptionManager.count_leases. induction leases as [|l leases IH] using rev_ind.
  { simpl. split; [intros ? ? ? []%lookup_empty_Some|]. split; [set_solver|].
    intros k. by rewrite lookup_empty. }
  rewrite foldl_snoc. destruct (foldl _ _ leases) as [specs state]. destruct IH as (Hr & Hd & Hc).
  destruct (count_lease_ok l state Hr) as (Hr1 & Hd1 & H1 & Hc1).
  destruct (SubscriptionManager.count_lease _ _ _) as [n state1]. cbn [fst snd] in *.
  split; [done|]. split.
  - rewrite Hd1, Hd. destruct (Z.eqb_spec n 1) as [E|E].
    + rewrite (bool_decide_eq_false_2 (stream_key l ∈ ∅)) by set_solver. simpl. set_solver.
    + simpl. rewrite subseteq_union_1_L; [done|]. apply singleton_subseteq_l. rewrite <- Hd.
      destruct (decide (stream_key l ∈ dom state)); [done|tauto].
  - intros k. rewrite Hc1, Hc, fmap_app. unfold owed. rewrite !fmap_app, Zsum_app. simpl. lia.
Qed.

(** C18: upstream subscriptions follow the leases.  A gateway that starts from
    the leases in its store, with no stream active, and then watches the store
    over a reliable adapter, ends (when the watch closes) with every stream
    referenced as often as there are keys whose latest valid lease asks for it,
    refreshes of a lease included, and with exactly the streams somebody asks
    for subscribed upstream. *)
Theorem subscriptions_track_interest venue keys get watch a :
  active a = ∅ → NoDup (omap id keys) →
  let '(leases, src) := NatsKvSubSource.snapshot from_slice keys get (NatsKvSubSource.new venue) in
  let '(r, m) := SubscriptionManager.reconcile_on_start (Ok leases) (SubscriptionManager.new a) in
  r = Ok tt ∧
  ∃ src' m', run_watch_loop from_slice watch src m = Returns (src', m') ∧
    ∀ k, let asked := interest k (after venue (after_snapshot venue get keys) watch) in
      SubscriptionManager.refcount k m' = asked ∧ (k ∈ active (sm_adapter m') ↔ 0 < asked).
Proof.
  intros Ha Hnd. pose proof (snapshot_spec venue get keys Hnd) as Hsnap.
  destruct (NatsKvSubSource.snapshot from_slice keys get (NatsKvSubSource.new venue)) as [leases src].
  destruct Hsnap as (Hs & Hv & Hp & Hi). unfold SubscriptionManager.reconcile_on_start.
  cbn [SubscriptionManager.new sm_adapter sm_state].
  destruct (snapshot_ok a) as (specs0 & -> & Hact). rewrite Ha in Hact. rewrite Hact.
  pose proof (count_leases_ok leases) as Hc.
  destruct (SubscriptionManager.count_leases ∅ leases ∅) as [specs state].
  destruct Hc as (Hr & Hd & Hc). split; [done|].
  destruct (returns_inv _ _ (watch_rounds_ok (S (length (ns_pending src) + 2 * length watch)) watch src
    (mkSubscriptionManager (SubscriptionManager.subscribe_all specs a) state)
    ltac:(split; [done|]; simpl; rewrite subscribe_all_active, Ha, Hd; set_solver)
    (or_introl Hp)
    ltac:(intros k; rewrite Hp, Hi; unfold SubscriptionManager.refcount; simpl; rewrite Hc; unfold owed; simpl; lia)
    ltac:(lia))) as ([src' m'] & E & Hm & Hs' & Hrc).
  exists src', m'. split; [exact E|]. intros k. cbv zeta.
  rewrite <- Hs, <- Hv, <- Hs', <- Hrc. split; [done|]. by apply active_refcount.
Qed.
End loop.
End source.

(** ** Runs *)

Definition demo_wire (instrument channel venue : string) : WireInterestSpec :=
  mkWireInterestSpec "strat" "logical" instrument channel None venue instrument 9999.

(** A decoder of three values. *)
Definition demo_decode (value : string) : option WireInterestSpec :=
  if bool_decide (value = "tick") then Some (demo_wire "BTC-USDT" "tick" "SIM")
  else if bool_decide (value = "funding") then Some (demo_wire "BTC-USDT" "funding" "SIM")
  else if bool_decide (value = "moved") then Some (demo_wire "BTC-USDT" "tick" "OKX")
  else None.

Definition demo_keys : list (option string) := [Some "a"; None; Some "b"].
Definition demo_get (key : string) : option string :=
  if bool_decide (key = "a") then Some "tick" else Some "garbage".
(** Two more leases, a refresh, a change of stream and a deletion. *)
Definition demo_watch : list WatchItem :=
  [KvPut "c" "tick"; KvPut "a" "tick"; KvError; KvPut "d" "tick"; KvPut "c" "funding"; KvDelete "a"].
Definition btc_tick : StreamKey := mkStreamKey "BTC-USDT" ChTick.
Definition btc_funding : StreamKey := mkStreamKey "BTC-USDT" ChFunding.

Lemma subscriptions_track_interest_witness :
  let '(leases, src) := NatsKvSubSource.snapshot demo_decode demo_keys demo_get (NatsKvSubSource.new "sim") in
  let '(r, m) := SubscriptionManager.reconcile_on_start (Ok leases)
                   (SubscriptionManager.new SimRtmdAdapter.new) in
  r = Ok tt ∧
  ∃ src' m', run_watch_loop demo_decode demo_watch src m = Returns (src', m') ∧
    ∀ k, let asked := interest k (foldl (λ m item, after_item demo_decode "sim" item m)
                        (after_snapshot demo_decode "sim" demo_get demo_keys) demo_watch) in
      SubscriptionManager.refcount k m' = asked ∧ (k ∈ sim_active (sm_adapter m') ↔ 0 < asked).
Proof.
  refine (subscriptions_track_interest demo_decode sim_active "sim" demo_keys demo_get demo_watch
    SimRtmdAdapter.new _ _); [reflexivity|].
  apply (bool_decide_unpack _). vm_compute. exact I.
Defined.

(** An adapter over the simulated one whose first subscription fails. *)
Definition flaky : Type := bool * SimRtmdAdapter.
#[export] Instance flaky_adapter : RtmdVenueAdapter flaky := {|
  subscribe spec (a : flaky) :=
    if a.1 then let '(r, s) := SimRtmdAdapter.subscribe spec a.2 in (r, (true, s))
    else (Err (VenueError "timeout"), (true, a.2));
  unsubscribe spec (a : flaky) := let '(r, s) := SimRtmdAdapter.unsubscribe spec a.2 in (r, (a.1, s));
  snapshot_active (a : flaky) := SimRtmdAdapter.snapshot_active a.2;
|}.

(** The references and the activity of a stream, and the keys that ask for it,
    after a watch that starts from an empty store. *)
Definition watched {A} `{!RtmdVenueAdapter A} (a : A) (active : A → gset StreamKey) (k : StreamKey)
    (watch : list WatchItem) : option (Z * bool * Z) :=
  match run_watch_loop demo_decode watch (NatsKvSubSource.new "sim") (SubscriptionManager.new a) with
  | Returns (src, m) =>
      Some (SubscriptionManager.refcount k m, bool_decide (k ∈ active (sm_adapter m)),
            interest k (streams src))
  | Panics _ => None
  end.

(** The first lease on a stream is not counted because its subscription failed,
    but the source remembers its key.  When that key goes away the manager drops
    the reference of the second lease and unsubscribes a stream that is still
    asked for. *)
Theorem failed_subscribe_drops_other_lease :
  watched (A := flaky) (false, SimRtmdAdapter.new) (sim_active ∘ snd) btc_tick
    [KvPut "a" "tick"; KvPut "b" "tick"; KvDelete "a"] = Some (0, false, 1).
Proof. vm_compute. reflexivity. Qed.

(** A lease that was subscribed and moves to another venue is ignored, so the
    stream stays subscribed here. *)
Theorem moved_lease_keeps_stream :
  watched SimRtmdAdapter.new sim_active btc_tick [KvPut "a" "tick"; KvPut "a" "moved"] =
    Some (1, true, 1).
Proof. vm_compute. reflexivity. Qed.
