(* ===== verification/Snowflake.v ===== *)
(** * The order-id generator ([zk-trading-sdk-rs/src/id_gen.rs])

    [SnowflakeIdGen::next_id] as a machine of atomic steps: reading the clock,
    and each load, compare-exchange, store and fetch-add on the two shared
    cells.  A schedule says which thread steps next and what the clock then
    shows, so both one caller and several callers of a generator are runs of
    the same machine.  The interleavings are among the runs that the acquire
    and release orderings of the code allow. *)

From Stdlib Require Import Sorted.
From S2P Require Import Prelude.

Definition MAX_INSTANCE_ID : Z := 1023.
Definition MAX_SEQUENCE : Z := 4095.
Definition INSTANCE_ID_SHIFT : Z := 12.
Definition TIMESTAMP_SHIFT : Z := 22.

Definition compose (timestamp_ms instance_id sequence : Z) : Z :=
  Z.lor (Z.lor (wrap_i64 (Z.shiftl timestamp_ms TIMESTAMP_SHIFT))
               (Z.shiftl instance_id INSTANCE_ID_SHIFT)) sequence.

(** [instance_id] is constant; the other two are atomic cells. *)
Record SnowflakeIdGen : Set := mkSnowflakeIdGen {
  sf_instance_id : Z;
  sf_sequence : Z;
  sf_last_ms : Z;
}.
#[export] Instance eta_SnowflakeIdGen : Eta SnowflakeIdGen := λ r,
  mkSnowflakeIdGen (sf_instance_id r) (sf_sequence r) (sf_last_ms r).

(** Where a call of [next_id] is, with its local variables. *)
Inductive pc : Set :=
| AtLoop                      (* [loop]: about to read the clock *)
| AtLoad (now_ms : Z)         (* about to load [last_ms] *)
| AtCas (now_ms last : Z)     (* about to claim the new millisecond *)
| AtStore (now_ms : Z)        (* claimed; about to reset the sequence *)
| AtFetch (now_ms : Z)        (* same millisecond: about to increment *)
| AtSpin                      (* exhausted: about to read the clock *)
| AtSpinLoad (now_ms : Z)     (* exhausted: about to compare with [last_ms] *)
| Returned (id : Z).

Module SnowflakeIdGen.
(** [Err] carries the rejected instance id. *)
Definition new (instance_id : Z) : result SnowflakeIdGen Z :=
  if MAX_INSTANCE_ID <? instance_id then Err instance_id
  else Ok (mkSnowflakeIdGen instance_id 0 0).

(** One step of a call, when [current_ms()] is [clock]. *)
Definition step (clock : Z) (g : SnowflakeIdGen) (p : pc) : SnowflakeIdGen * pc :=
  match p with
  | AtLoop => (g, AtLoad clock)
  | AtLoad now_ms =>
      (g, if sf_last_ms g <? now_ms then AtCas now_ms (sf_last_ms g) else AtFetch now_ms)
  | AtCas now_ms last =>
      if sf_last_ms g =? last then (g <| sf_last_ms := now_ms |>, AtStore now_ms)
      else (g, AtLoop)
  | AtStore now_ms =>
      (g <| sf_sequence := 0 |>, Returned (compose now_ms (sf_instance_id g) 0))
  | AtFetch now_ms =>
      let next_seq := (sf_sequence g + 1) mod 2 ^ 16 in
      (g <| sf_sequence := next_seq |>,
       if next_seq <=? MAX_SEQUENCE
       then Returned (compose now_ms (sf_instance_id g) next_seq) else AtSpin)
  | AtSpin => (g, AtSpinLoad clock)
  | AtSpinLoad now_ms => (g, if now_ms <=? sf_last_ms g then AtSpin else AtLoop)
  | Returned id => (g, Returned id)
  end.

(** One caller: the id of a call and the clock step at which it returned; [clk]
    is the clock at each step. *)
Fixpoint call (bound : nat) (clk : nat → Z) (k : nat) (g : SnowflakeIdGen) (p : pc)
    : outcome (Z * SnowflakeIdGen * nat) :=
  match p with
  | Returned id => Returns (id, g, k)
  | _ =>
      match bound with
      | O => Panics "next_id: bound"
      | S bound => let '(g, p) := step (clk k) g p in call bound clk (S k) g p
      end
  end.
Definition next_id (bound : nat) (clk : nat → Z) (k : nat) (g : SnowflakeIdGen)
    : outcome (Z * SnowflakeIdGen * nat) := call bound clk k g AtLoop.

(** [n] calls one after the other. *)
Fixpoint next_ids (n bound : nat) (clk : nat → Z) (k : nat) (g : SnowflakeIdGen)
    : outcome (list Z * SnowflakeIdGen * nat) :=
  match n with
  | O => Returns ([], g, k)
  | S n =>
      r ← next_id bound clk k g;
      let '(id, g, k) := r in
      r ← next_ids n bound clk k g;
      let '(ids, g, k) := r in
      Returns (id :: ids, g, k)
  end.

(** Several callers: each entry of the schedule is a thread and the clock.  A
    thread that has returned starts its next call; the ids come in the order
    they are returned. *)
Definition thread_step (acc : SnowflakeIdGen * gmap nat pc * list Z) (e : nat * Z)
    : SnowflakeIdGen * gmap nat pc * list Z :=
  let '(g, pcs, ids) := acc in
  let '(t, clock) := e in
  let '(g, p) := step clock g (default AtLoop (pcs !! t)) in
  match p with
  | Returned id => (g, delete t pcs, ids ++ [id])
  | _ => (g, <[t := p]> pcs, ids)
  end.
Definition run (schedule : list (nat * Z)) (g : SnowflakeIdGen) : list Z :=
  (foldl thread_step (g, ∅, []) schedule).2.
End SnowflakeIdGen.

(** ** The fields of an id *)

Definition timestamp_of (id : Z) : Z := id / 2 ^ 22.
Definition instance_of (id : Z) : Z := id / 2 ^ 12 mod 2 ^ 10.
Definition sequence_of (id : Z) : Z := id mod 2 ^ 12.

Definition in_range (ts inst seq : Z) : Prop :=
  0 ≤ ts < 2 ^ 41 ∧ 0 ≤ inst ≤ MAX_INSTANCE_ID ∧ 0 ≤ seq ≤ MAX_SEQUENCE.

(** Disjoint fields: or is addition. *)
Lemma lor_add a b n : 0 ≤ n → 0 ≤ b < 2 ^ n → Z.lor (a * 2 ^ n) b = a * 2 ^ n + b.
Proof.
  intros Hn Hb. rewrite Z.add_nocarry_lxor, <- Z.lxor_lor; [done|..];
    apply Z.bits_inj'; intros i Hi; rewrite Z.land_spec, Z.bits_0;
    (destruct (Z.lt_ge_cases i n);
     [by rewrite Z.mul_pow2_bits_low|
      rewrite <- (Z.mod_small b (2 ^ n)) by done; by rewrite Z.mod_pow2_bits_high, andb_false_r by lia]).
Qed.

Lemma compose_eq ts inst seq :
  in_range ts inst seq → compose ts inst seq = (ts * 2 ^ 10 + inst) * 2 ^ 12 + seq.
Proof.
  intros (Ht & Hi & Hs). unfold compose, MAX_INSTANCE_ID, MAX_SEQUENCE in *.
  unfold TIMESTAMP_SHIFT, INSTANCE_ID_SHIFT.
  rewrite !Z.shiftl_mul_pow2, wrap_i64_small by lia.
  replace (ts * 2 ^ 22) with (ts * 2 ^ 10 * 2 ^ 12) by lia.
  assert (Z.lor (ts * 2 ^ 10 * 2 ^ 12) (inst * 2 ^ 12) = (ts * 2 ^ 10 + inst) * 2 ^ 12) as ->.
  { rewrite <- !Z.shiftl_mul_pow2 with (n := 12), <- Z.shiftl_lor by lia. f_equal.
    apply lor_add; lia. }
  apply lor_add; lia.
Qed.

Lemma compose_fields ts inst seq :
  in_range ts inst seq →
  let id := compose ts inst seq in
  0 ≤ id < 2 ^ 63 ∧ timestamp_of id = ts ∧ instance_of id = inst ∧ sequence_of id = seq.
Proof.
  intros Hr. cbv zeta. rewrite (compose_eq ts inst seq Hr).
  destruct Hr as (Ht & Hi & Hs). unfold timestamp_of, instance_of, sequence_of, MAX_INSTANCE_ID, MAX_SEQUENCE in *.
  split; [lia|]. split; [|split].
  - symmetry. apply (Z.div_unique _ _ _ (inst * 2 ^ 12 + seq)); lia.
  - rewrite (Z.div_add_l _ (2 ^ 12) seq), (Z.div_small seq), Z.add_0_r by lia.
    symmetry. apply (Z.mod_unique _ _ ts); lia.
  - symmetry. apply (Z.mod_unique _ _ (ts * 2 ^ 10 + inst)); lia.
Qed.

(** The fields of an id can be read back.  For a timestamp of 41 bits, a
    granted instance id and a sequence number, the composed id fits a positive
    [i64] and splits into exactly these; so ids of generators with different
    instance ids are different. *)
Theorem compose_roundtrip ts inst seq :
  in_range ts inst seq →
  let id := compose ts inst seq in
  0 ≤ id < 2 ^ 63 ∧ timestamp_of id = ts ∧ instance_of id = inst ∧ sequence_of id = seq.
Proof. apply compose_fields. Qed.

(** ** One caller *)

Section sequential.
Context (clk : nat → Z).
Hypothesis clk_mono : ∀ i j, (i ≤ j)%nat → clk i ≤ clk j.
Hypothesis clk_advances : ∀ v, ∃ k, v < clk k.
Hypothesis clk_start : 0 ≤ clk 0.
Implicit Types (g : SnowflakeIdGen).

Definition gen_ok g (k : nat) : Prop :=
  0 ≤ sf_last_ms g ≤ clk k ∧ 0 ≤ sf_sequence g ≤ MAX_SEQUENCE.

(** A later state: a later millisecond, or a later number in the same one. *)
Definition later g g' : Prop :=
  sf_last_ms g < sf_last_ms g' ∨ sf_last_ms g = sf_last_ms g' ∧ sf_sequence g < sf_sequence g'.

(** What a call that started at [g] returns. *)
Record answers g (r : Z * SnowflakeIdGen * nat) : Prop := {
  an_ok : gen_ok r.1.2 r.2;
  an_id : r.1.1 = compose (sf_last_ms r.1.2) (sf_instance_id g) (sf_sequence r.1.2);
  an_instance : sf_instance_id r.1.2 = sf_instance_id g;
  an_later : later g r.1.2;
}.

Definition ends (g0 : SnowflakeIdGen) (k : nat) g (p : pc) : Prop :=
  ∃ bound r, SnowflakeIdGen.call bound clk k g p = Returns r ∧ answers g0 r.

Definition running (p : pc) : Prop := match p with Returned _ => False | _ => True end.

Lemma ends_step g0 k g p : running p →
  ends g0 (S k) (SnowflakeIdGen.step (clk k) g p).1 (SnowflakeIdGen.step (clk k) g p).2 →
  ends g0 k g p.
Proof.
  intros Hp (bound & r & Hr & Ha). exists (S bound), r. split; [|done].
  destruct p; [..|done]; cbn [SnowflakeIdGen.call]; by destruct (SnowflakeIdGen.step _ _ _).
Qed.

(** A call that finds a new millisecond. *)
Lemma fresh_ends g0 g k :
  sf_instance_id g = sf_instance_id g0 → sf_last_ms g = sf_last_ms g0 → 0 ≤ sf_last_ms g →
  sf_last_ms g < clk k → ends g0 k g AtLoop.
Proof.
  intros Hi Hl H0 Hlt. apply ends_step; [done|]. cbn [SnowflakeIdGen.step fst snd].
  apply ends_step; [done|]. cbn [SnowflakeIdGen.step fst snd].
  rewrite (proj2 (Z.ltb_lt _ _) Hlt). apply ends_step; [done|]. cbn [SnowflakeIdGen.step].
  rewrite Z.eqb_refl. cbn [fst snd]. apply ends_step; [done|]. cbn [SnowflakeIdGen.step fst snd].
  eexists 0%nat, _. split; [reflexivity|]. pose proof (clk_mono k (S (S (S (S k))))) as Hm.
  split; simpl; [unfold gen_ok, MAX_SEQUENCE; simpl; lia|by rewrite Hi|done|left; simpl; lia].
Qed.

(** A call that exhausted the sequence waits for the clock. *)
Lemma spin_ends d g0 g k :
  sf_instance_id g = sf_instance_id g0 → sf_last_ms g = sf_last_ms g0 → 0 ≤ sf_last_ms g →
  sf_last_ms g < clk (k + d)%nat → ends g0 k g AtSpin.
Proof.
  revert k. induction d as [d IH] using lt_wf_ind. intros k Hi Hl H0 Hlt.
  apply ends_step; [done|]. cbn [SnowflakeIdGen.step fst snd].
  apply ends_step; [done|]. cbn [SnowflakeIdGen.step fst snd].
  pose proof (clk_mono k (S (S k))) as Hm.
  destruct (Z.leb_spec (clk k) (sf_last_ms g)) as [Hle|Hgt]; [|apply fresh_ends; try done; lia].
  destruct d as [|d]; [rewrite Nat.add_0_r in Hlt; lia|].
  apply (IH (d - 1)%nat); [lia|done..|].
  eapply Z.lt_le_trans; [exact Hlt|]. apply clk_mono. lia.
Qed.

Lemma call_ends g k : gen_ok g k → ends g k g AtLoop.
Proof.
  intros [Hl Hs]. destruct (Z.lt_ge_cases (sf_last_ms g) (clk k)) as [Hlt|Hge];
    [apply fresh_ends; done || lia|].
  apply ends_step; [done|]. cbn [SnowflakeIdGen.step fst snd].
  apply ends_step; [done|]. cbn [SnowflakeIdGen.step fst snd].
  rewrite (proj2 (Z.ltb_ge _ _) Hge). apply ends_step; [done|]. cbn [SnowflakeIdGen.step].
  unfold MAX_SEQUENCE in *. rewrite Z.mod_small by lia.
  destruct (Z.leb_spec (sf_sequence g + 1) 4095) as [Hle|Hgt]; cbn [fst snd].
  - eexists 0%nat, _. split; [reflexivity|]. pose proof (clk_mono k (S (S (S k)))) as Hm.
    split; simpl; [unfold gen_ok, MAX_SEQUENCE; simpl; lia| |done|right; simpl; lia].
    do 2 f_equal. lia.
  - destruct (clk_advances (sf_last_ms g)) as [j Hj]. apply (spin_ends j); [done|done|simpl; lia|].
    simpl. eapply Z.lt_le_trans; [exact Hj|]. apply clk_mono. lia.
Qed.

Lemma call_bound b b' k g p r :
  SnowflakeIdGen.call b clk k g p = Returns r → (b ≤ b')%nat →
  SnowflakeIdGen.call b' clk k g p = Returns r.
Proof.
  revert b' k g p. induction b as [|b IH]; intros b' k g p Hr Hle.
  - destruct p; simpl in Hr; try done. by destruct b'.
  - destruct b' as [|b']; [lia|].
    destruct p; cbn [SnowflakeIdGen.call] in *; try done;
      destruct (SnowflakeIdGen.step _ _ _); (apply IH; [done|lia]).
Qed.

Lemma call_later b k g p id g' k' :
  SnowflakeIdGen.call b clk k g p = Returns (id, g', k') → (k ≤ k')%nat.
Proof.
  revert k g p. induction b as [|b IH]; intros k g p.
  - destruct p; simpl; try done. by intros [= <- <- <-].
  - destruct p; cbn [SnowflakeIdGen.call];
      try (destruct (SnowflakeIdGen.step _ _ _); intros ?%IH; lia). by intros [= <- <- <-].
Qed.

Definition pair_id (inst : Z) (x : Z * Z) : Z := compose x.1 inst x.2.
Definition pair_lt (x y : Z * Z) : Prop := x.1 < y.1 ∨ x.1 = y.1 ∧ x.2 < y.2.

(** Calls return the ids of increasing pairs of time and sequence number. *)
Lemma next_ids_pairs n g k :
  gen_ok g k →
  ∃ bound pairs g' k', (∀ b, (bound ≤ b)%nat →
      SnowflakeIdGen.next_ids n b clk k g = Returns (pair_id (sf_instance_id g) <$> pairs, g', k')) ∧
    length pairs = n ∧ StronglySorted pair_lt pairs ∧
    Forall (λ x, pair_lt (sf_last_ms g, sf_sequence g) x ∧
                 0 ≤ x.1 ≤ clk k' ∧ 0 ≤ x.2 ≤ MAX_SEQUENCE) pairs ∧ clk k ≤ clk k'.
Proof.
  revert g k. induction n as [|n IH]; intros g k Hg.
  { exists 0%nat, [], g, k. split; [done|]. split; [done|]. split; [constructor|]. split; [constructor|lia]. }
  destruct (call_ends g k Hg) as (b1 & [[id g1] k1] & Hr & [Hok Hid Hi Hlt]). cbn [fst snd] in *.
  destruct (IH g1 k1 Hok) as (b2 & pairs & g2 & k2 & Hrest & Hlen & Hs & Hf & Hk).
  exists (b1 + b2)%nat, ((sf_last_ms g1, sf_sequence g1) :: pairs), g2, k2. split.
  { intros b Hb. cbn [SnowflakeIdGen.next_ids]. unfold SnowflakeIdGen.next_id.
    rewrite (call_bound b1 b _ _ _ _ Hr) by lia. cbn [mbind outcome_bind].
    rewrite Hrest by lia. cbn [mbind outcome_bind]. by rewrite Hid, Hi. }
  split; [simpl; lia|]. destruct Hok as [[H0 Hl1] Hs1]. split; [|split].
  - constructor; [done|]. eapply Forall_impl; [exact Hf|]. naive_solver.
  - constructor; [unfold pair_lt; simpl; unfold later in Hlt; naive_solver lia|].
    eapply Forall_impl; [exact Hf|]. intros x (Hx & ? & ?). split; [|done].
    unfold pair_lt, later in *. simpl in *. lia.
  - apply call_later, clk_mono in Hr. lia.
Qed.

(** C38: one caller gets increasing ids.  With a clock that never steps back and
    always advances eventually, any number of calls of [next_id] one after the
    other return (the wait for a new millisecond after 4096 ids ends), and as
    long as the clock is below 2^41 ms the ids increase strictly, are positive
    and carry the instance id. *)
Theorem snowflake_increasing inst n :
  0 ≤ inst ≤ MAX_INSTANCE_ID →
  ∃ g bound ids g' k', SnowflakeIdGen.new inst = Ok g ∧
    (∀ b, (bound ≤ b)%nat → SnowflakeIdGen.next_ids n b clk 0 g = Returns (ids, g', k')) ∧
    length ids = n ∧
    (clk k' < 2 ^ 41 →
       StronglySorted Z.lt ids ∧ Forall (λ id, 0 < id < 2 ^ 63 ∧ instance_of id = inst) ids).
Proof.
  intros Hi. unfold SnowflakeIdGen.new. rewrite (proj2 (Z.ltb_ge _ _) (proj2 Hi)).
  set (g := mkSnowflakeIdGen inst 0 0).
  destruct (next_ids_pairs n g 0) as (bound & pairs & g' & k' & Hr & Hlen & Hs & Hf & _).
  { split; simpl; [lia|unfold MAX_SEQUENCE; lia]. }
  exists g, bound, (pair_id inst <$> pairs), g', k'. split; [done|]. split; [done|].
  split; [by rewrite length_fmap|]. intros Hk.
  assert (∀ x, x ∈ pairs → in_range x.1 inst x.2 ∧ pair_lt (0, 0) x) as Hin.
  { intros x Hx. eapply Forall_forall in Hf; [|exact Hx]. unfold in_range. naive_solver lia. }
  split.
  - clear Hr Hlen Hf. induction Hs as [|x pairs Hs IH Hx]; [constructor|].
    constructor; [apply IH; intros z ?; apply Hin; by right|]. apply Forall_fmap, Forall_forall. intros y Hy. simpl.
    destruct (Hin x) as [Hrx _]; [by left|]. destruct (Hin y) as [Hry _]; [by right|].
    eapply Forall_forall in Hx; [|exact Hy]. unfold pair_id. rewrite !compose_eq by done.
    unfold in_range, pair_lt, MAX_INSTANCE_ID, MAX_SEQUENCE in *. lia.
  - apply Forall_fmap, Forall_forall. intros x Hx. destruct (Hin x Hx) as [Hr0 Hlt]. simpl.
    destruct (compose_fields x.1 inst x.2 Hr0) as (Hp & _ & Hinst & _). split; [|done].
    unfold pair_id in *. split; [|lia]. rewrite compose_eq by done.
    unfold in_range, pair_lt in *. simpl in *. lia.
Qed.
End sequential.

(** ** Witnesses and duplicates *)

Lemma compose_roundtrip_witness :
  let id := compose 1700000000000 5 4095 in
  0 ≤ id < 2 ^ 63 ∧ timestamp_of id = 1700000000000 ∧ instance_of id = 5 ∧ sequence_of id = 4095.
Proof.
  apply (compose_roundtrip 1700000000000 5 4095). unfold in_range, MAX_INSTANCE_ID, MAX_SEQUENCE. lia.
Defined.

(** A clock that advances every fourth step. *)
Lemma snowflake_increasing_witness :
  ∃ g bound ids g' k', SnowflakeIdGen.new 5 = Ok g ∧
    (∀ b, (bound ≤ b)%nat →
       SnowflakeIdGen.next_ids 9 b (λ k, Z.of_nat k / 4) 0 g = Returns (ids, g', k')) ∧
    length ids = 9%nat ∧
    (Z.of_nat k' / 4 < 2 ^ 41 →
       StronglySorted Z.lt ids ∧ Forall (λ id, 0 < id < 2 ^ 63 ∧ instance_of id = 5) ids).
Proof.
  apply (snowflake_increasing (λ k, Z.of_nat k / 4)).
  - intros i j Hij. apply Z.div_le_mono; lia.
  - intros v. exists (Z.to_nat (4 * (Z.max 0 v + 1))). rewrite Z2Nat.id by lia.
    rewrite Z.mul_comm, Z.div_mul; lia.
  - done.
  - unfold MAX_INSTANCE_ID. lia.
Defined.

(** Two callers can get the same id.  Thread 1 has claimed millisecond 2 and not
    yet reset the sequence when thread 2 increments the old one; after the
    reset thread 1 counts up to the number thread 2 was given. *)
Theorem concurrent_calls_repeat_id :
  SnowflakeIdGen.run
    ((replicate 4 (1%nat, 1) ++ replicate 3 (1%nat, 1)) ++
     replicate 3 (1%nat, 2) ++ replicate 3 (2%nat, 2) ++ [(1%nat, 2)] ++ replicate 6 (1%nat, 2))
    (mkSnowflakeIdGen 0 0 0) =
  [compose 1 0 0; compose 1 0 1; compose 2 0 2; compose 2 0 0; compose 2 0 1; compose 2 0 2].
Proof. vm_compute. reflexivity. Qed.

(** So can one caller when the wall clock is set back. *)
Theorem clock_step_back_repeats_id :
  SnowflakeIdGen.run
    (replicate 4 (1%nat, 5) ++ replicate 3 (1%nat, 5) ++ replicate 4 (1%nat, 6) ++ replicate 3 (1%nat, 5))
    (mkSnowflakeIdGen 0 0 0) =
  [compose 5 0 0; compose 5 0 1; compose 6 0 0; compose 5 0 1].
Proof. vm_compute. reflexivity. Qed.
