(* ===== verification/Channels.v ===== *)
(** * Bounded channels and sharded workers

    The bounded [tokio::sync::mpsc] channels the services hand work over with,
    the pool of [zk-oms-svc/src/executor.rs] that opens one per key, and the
    fixed shards that [gw_executor.rs] uses in both the OMS and the gateway.

    A pool runs concurrently with its workers: a run is any sequence of
    dispatches, receives and worker failures. *)

From S2P Require Import Prelude.

(** ** [tokio::sync::mpsc]: a queue, and whether the receiver still exists *)

Record channel (A : Type) : Type := mkChannel { ch_queue : list A; ch_open : bool }.
Arguments mkChannel {A}.
Arguments ch_queue {A}.
Arguments ch_open {A}.

Definition new_channel {A} : channel A := mkChannel [] true.

(** [try_send]: [Err] gives the value back when the queue is full or closed. *)
Definition try_send {A} (capacity : nat) (a : A) (ch : channel A) : result unit A * channel A :=
  if negb (ch_open ch) then (Err a, ch)
  else if (capacity <=? length (ch_queue ch))%nat then (Err a, ch)
  else (Ok tt, mkChannel (ch_queue ch ++ [a]) true).

(** [recv] when a value is there. *)
Definition recv {A} (ch : channel A) : option (A * channel A) :=
  match ch_queue ch with
  | a :: q => Some (a, mkChannel q (ch_open ch))
  | [] => None
  end.

(** The receiver is dropped with what was queued. *)
Definition close {A} (ch : channel A) : channel A := mkChannel [] false.

(** ** [ShardedPool] *)

Record ShardedPool (K A : Type) `{Countable K} : Type := mkShardedPool {
  sp_shards : gmap K (channel A);
  sp_queue_capacity : nat;
}.
Arguments mkShardedPool {K A _ _}.
Arguments sp_shards {K A _ _}.
Arguments sp_queue_capacity {K A _ _}.

Module ShardedPool.
Section pool.
Context {K A : Type} `{Countable K}.
Implicit Types (p : ShardedPool K A).

Definition new (queue_capacity : nat) : ShardedPool K A := mkShardedPool ∅ queue_capacity.

(** The shard of a key, opened on first use; [mpsc::channel(0)] panics. *)
Definition shard (key : K) p : outcome (channel A) :=
  match sp_shards p !! key with
  | Some ch => mret ch
  | None =>
      if (sp_queue_capacity p =? 0)%nat then Panics "mpsc bounded channel requires buffer > 0"
      else mret new_channel
  end.

(** [None] for [DispatchResult::Ok], [Some a] for [QueueFull(a)]. *)
Definition try_dispatch (key : K) (action : A) p : outcome (option A * ShardedPool K A) :=
  ch ← shard key p;
  let '(r, ch) := try_send (sp_queue_capacity p) action ch in
  mret (match r with Ok _ => None | Err a => Some a end,
        mkShardedPool (<[key := ch]> (sp_shards p)) (sp_queue_capacity p)).

Definition shard_count p : nat := size (sp_shards p).

(** The actions waiting under a key. *)
Definition queued (key : K) p : list A := default [] (ch_queue <$> sp_shards p !! key).
End pool.
End ShardedPool.

(** ** Fixed shards, by order id *)

Section shards.
Context {A : Type}.
Implicit Types (shards : list (channel A)).

(** [(order_id as u64 % shard_count as u64) as usize] *)
Definition shard_index (shard_count : nat) (order_id : Z) : nat :=
  Z.to_nat (wrap_u64 order_id mod Z.of_nat shard_count).

(** [dispatch]: the remainder by zero and the index panic. *)
Definition shard_dispatch (shard_count capacity : nat) (order_id : Z) (action : A) shards
    : outcome (result unit A * list (channel A)) :=
  if (shard_count =? 0)%nat then Panics "attempt to calculate the remainder with a divisor of zero"
  else
    let i := shard_index shard_count order_id in
    ch ← unwrap "self.shards[shard]" (shards !! i);
    let '(r, ch) := try_send capacity action ch in
    mret (r, <[i := ch]> shards).

(** The shards a pool is created with. *)
Definition new_shards (shard_count capacity : nat) : outcome (list (channel A)) :=
  if (capacity =? 0)%nat && negb (shard_count =? 0)%nat
  then Panics "mpsc bounded channel requires buffer > 0"
  else mret (replicate shard_count new_channel).

Definition queue_at shards (i : nat) : list A := default [] (ch_queue <$> shards !! i).
Definition open_at shards (i : nat) : bool := default false (ch_open <$> shards !! i).

(** [queue_capacity - tx.capacity()] *)
Definition shard_queue_depths shards : list nat := (λ ch, length (ch_queue ch)) <$> shards.

(** *** Runs *)

(** What can happen to the shards; [Lose i] is the end of worker [i]. *)
Inductive shard_event : Type :=
| Dispatch (order_id : Z) (action : A)
| Recv (i : nat)
| Lose (i : nat).

(** The shards, with what was accepted and what the workers took, in order. *)
Record shard_run : Type := mkShardRun {
  sr_shards : list (channel A);
  sr_accepted : list A;
  sr_taken : list A;
}.

Definition shard_step (shard_count capacity : nat) (s : shard_run) (e : shard_event)
    : outcome shard_run :=
  match e with
  | Dispatch order_id a =>
      '(r, shards) ← shard_dispatch shard_count capacity order_id a (sr_shards s);
      mret (mkShardRun shards
              (match r with Ok _ => sr_accepted s ++ [a] | Err _ => sr_accepted s end)
              (sr_taken s))
  | Recv i =>
      mret match sr_shards s !! i ≫= recv with
           | Some (a, ch) =>
               mkShardRun (<[i := ch]> (sr_shards s)) (sr_accepted s) (sr_taken s ++ [a])
           | None => s
           end
  | Lose i => mret (mkShardRun (alter close i (sr_shards s)) (sr_accepted s) (sr_taken s))
  end.

Definition shard_runs (shard_count capacity : nat) (s : shard_run) (es : list shard_event)
    : outcome shard_run :=
  for_each (shard_step shard_count capacity) es s.
End shards.
Arguments shard_event : clear implicits.
Arguments shard_run : clear implicits.

(** ** Order per id

    [concerns o a]: the action is about order [o].  When every dispatch is routed
    by an order of the shard of each order the action concerns, the workers take
    the actions of one order in the order they were accepted. *)

Section fifo.
Context {A : Type} (concerns : Z → A → bool) (n capacity : nat).
Hypothesis Hn : (0 < n)%nat.

Notation about o := (List.filter (concerns o)).

Definition routed (e : shard_event A) : Prop :=
  match e with
  | Dispatch oid a => ∀ o, concerns o a = true → shard_index n o = shard_index n oid
  | _ => True
  end.

Record fifo_inv (s : shard_run A) : Prop := mkFifoInv {
  fi_length : length (sr_shards s) = n;
  fi_bound : ∀ i, (length (queue_at (sr_shards s) i) ≤ capacity)%nat;
  fi_closed : ∀ i, open_at (sr_shards s) i = false → queue_at (sr_shards s) i = [];
  fi_home : ∀ o j, j ≠ shard_index n o → about o (queue_at (sr_shards s) j) = [];
  fi_order : ∀ o, open_at (sr_shards s) (shard_index n o) = true →
    about o (sr_taken s) ++ about o (queue_at (sr_shards s) (shard_index n o)) = about o (sr_accepted s);
  fi_prefix : ∀ o, about o (sr_taken s) `prefix_of` about o (sr_accepted s);
}.

Lemma shard_index_lt o : (shard_index n o < n)%nat.
Proof. unfold shard_index. pose proof (Z.mod_pos_bound (wrap_u64 o) (Z.of_nat n) ltac:(lia)). lia. Qed.

Lemma queue_at_insert (l : list (channel A)) i ch j :
  (i < length l)%nat → queue_at (<[i := ch]> l) j = if decide (j = i) then ch_queue ch else queue_at l j.
Proof.
  intros Hi. unfold queue_at. destruct (decide (j = i)) as [->|Hne].
  - by rewrite list_lookup_insert_eq.
  - by rewrite list_lookup_insert_ne.
Qed.
Lemma open_at_insert (l : list (channel A)) i ch j :
  (i < length l)%nat → open_at (<[i := ch]> l) j = if decide (j = i) then ch_open ch else open_at l j.
Proof.
  intros Hi. unfold open_at. destruct (decide (j = i)) as [->|Hne].
  - by rewrite list_lookup_insert_eq.
  - by rewrite list_lookup_insert_ne.
Qed.
Lemma queue_at_lookup (l : list (channel A)) i ch : l !! i = Some ch → queue_at l i = ch_queue ch.
Proof. intros Hl. unfold queue_at. by rewrite Hl. Qed.
Lemma open_at_lookup (l : list (channel A)) i ch : l !! i = Some ch → open_at l i = ch_open ch.
Proof. intros Hl. unfold open_at. by rewrite Hl. Qed.

Lemma fifo_dispatch s oid a :
  routed (Dispatch oid a) → fifo_inv s → returns (shard_step n capacity s (Dispatch oid a)) fifo_inv.
Proof.
  intros Hr [Hlen Hbound Hclosed Hhome Horder Hpre]. simpl. unfold shard_dispatch.
  destruct (Nat.eqb_spec n 0) as [|_]; [lia|].
  destruct (lookup_lt_is_Some_2 (sr_shards s) (shard_index n oid)) as [ch Hch].
  { rewrite Hlen. apply shard_index_lt. }
  rewrite Hch. simpl. unfold try_send.
  pose proof (queue_at_lookup _ _ _ Hch) as Hq. pose proof (open_at_lookup _ _ _ Hch) as Ho.
  destruct (ch_open ch) eqn:Hopen; cbn [negb].
  2: { cbn. rewrite list_insert_id by done. by constructor. }
  destruct (Nat.leb_spec capacity (length (ch_queue ch))) as [Hfull|Hfull]; cbn.
  { rewrite list_insert_id by done. by constructor. }
  pose proof (lookup_lt_Some _ _ _ Hch) as Hi.
  constructor; simpl.
  - by rewrite length_insert.
  - intros i. rewrite queue_at_insert by done. case_decide; [|apply Hbound]. simpl.
    rewrite length_app. simpl. lia.
  - intros i. rewrite open_at_insert, queue_at_insert by done. case_decide; [done|apply Hclosed].
  - intros o j Hj. rewrite queue_at_insert by done. case_decide as Hd; [|by apply Hhome]. subst j. simpl.
    rewrite List.filter_app, <- Hq, Hhome by done. simpl.
    destruct (concerns o a) eqn:Hc; [|done]. by rewrite (Hr o Hc) in Hj.
  - intros o. rewrite open_at_insert, queue_at_insert, List.filter_app by done.
    case_decide as Hd; simpl; intros Hop.
    + rewrite List.filter_app, (assoc_L (++)). f_equal. rewrite <- Hq, <- Hd. apply Horder. by rewrite Hd.
    + rewrite Horder by done. destruct (concerns o a) eqn:Hc; [|by rewrite app_nil_r].
      by rewrite (Hr o Hc) in Hd.
  - intros o. rewrite List.filter_app. by apply prefix_app_r.
Qed.

Lemma fifo_recv s i : fifo_inv s → returns (shard_step n capacity s (Recv i)) fifo_inv.
Proof.
  intros Hinv. simpl. destruct (sr_shards s !! i) as [ch|] eqn:Hch; [|done]. simpl.
  unfold recv. destruct (ch_queue ch) as [|a q] eqn:Hq; [done|].
  destruct Hinv as [Hlen Hbound Hclosed Hhome Horder Hpre].
  pose proof (queue_at_lookup _ _ _ Hch) as Hqi. rewrite Hq in Hqi.
  pose proof (open_at_lookup _ _ _ Hch) as Ho. pose proof (lookup_lt_Some _ _ _ Hch) as Hi.
  assert (∀ o, concerns o a = true → i = shard_index n o) as Hmine.
  { intros o Hc. destruct (decide (i = shard_index n o)) as [|Hne]; [done|].
    specialize (Hhome o i Hne). rewrite Hqi in Hhome. simpl in Hhome. by rewrite Hc in Hhome. }
  assert (open_at (sr_shards s) i = true) as Hop.
  { destruct (open_at (sr_shards s) i) eqn:E; [done|]. by rewrite (Hclosed i E) in Hqi. }
  constructor; simpl.
  - by rewrite length_insert.
  - intros j. rewrite queue_at_insert by done. case_decide; [|apply Hbound]. simpl.
    specialize (Hbound i). rewrite Hqi in Hbound. simpl in Hbound. lia.
  - intros j. rewrite open_at_insert, queue_at_insert by done. case_decide; [|apply Hclosed].
    simpl. rewrite <- Ho, Hop. done.
  - intros o j Hj. rewrite queue_at_insert by done. case_decide as Hd; [|by apply Hhome]. subst j. simpl.
    specialize (Hhome o i Hj). rewrite Hqi in Hhome. simpl in Hhome. by destruct (concerns o a).
  - intros o. rewrite open_at_insert, queue_at_insert, List.filter_app by done.
    case_decide as Hd; simpl; intros Hop'.
    + rewrite <- Horder by (by rewrite Hd). rewrite Hd, Hqi. simpl.
      destruct (concerns o a); simpl; [by rewrite <- (assoc_L (++))|by rewrite app_nil_r].
    + rewrite <- Horder by done. destruct (concerns o a) eqn:Hc; [|by rewrite app_nil_r].
      by rewrite (Hmine o Hc) in Hd.
  - intros o. rewrite List.filter_app. simpl. destruct (concerns o a) eqn:Hc; [|by rewrite app_nil_r].
    pose proof (Hmine o Hc) as ->. rewrite <- (Horder o Hop), Hqi. simpl. rewrite Hc.
    apply prefix_app, prefix_cons, prefix_nil.
Qed.

Lemma fifo_lose s i : fifo_inv s → returns (shard_step n capacity s (Lose i)) fifo_inv.
Proof.
  intros [Hlen Hbound Hclosed Hhome Horder Hpre]. simpl.
  assert (∀ j, queue_at (alter close i (sr_shards s)) j =
    if decide (j = i) then [] else queue_at (sr_shards s) j) as Hq.
  { intros j. unfold queue_at. destruct (decide (j = i)) as [->|Hne].
    - rewrite list_lookup_alter_eq. by destruct (_ !! _).
    - by rewrite list_lookup_alter_ne. }
  assert (∀ j, open_at (alter close i (sr_shards s)) j =
    if decide (j = i) then false else open_at (sr_shards s) j) as Ho.
  { intros j. unfold open_at. destruct (decide (j = i)) as [->|Hne].
    - rewrite list_lookup_alter_eq. by destruct (_ !! _).
    - by rewrite list_lookup_alter_ne. }
  constructor; simpl.
  - by rewrite length_alter.
  - intros j. rewrite Hq. case_decide; [simpl; lia|apply Hbound].
  - intros j. rewrite Ho, Hq. case_decide; [done|apply Hclosed].
  - intros o j Hj. rewrite Hq. case_decide; [done|by apply Hhome].
  - intros o. rewrite Ho, Hq. case_decide; [done|apply Horder].
  - done.
Qed.

(** The shards a pool starts with. *)
Lemma fifo_start : fifo_inv (mkShardRun (replicate n new_channel) [] []).
Proof.
  assert (∀ i, queue_at (replicate n (@new_channel A)) i = []) as Hq.
  { intros i. unfold queue_at. by destruct (replicate n _ !! i) as [ch|] eqn:E;
      [apply lookup_replicate in E as [-> _]|]. }
  constructor; simpl; intros; rewrite ?Hq; simpl; try done; [by rewrite length_replicate|lia].
Qed.

(** Every run of well-routed dispatches returns, keeps the queues bounded, and
    hands the actions of an order over in the order they were accepted. *)
Lemma shard_runs_fifo es s :
  Forall routed es → fifo_inv s → returns (shard_runs n capacity s es) fifo_inv.
Proof.
  intros Hes Hinv. apply returns_for_each; [done|]. intros s' e He Hs'.
  rewrite Forall_forall in Hes. specialize (Hes e He).
  destruct e; [by apply fifo_dispatch|by apply fifo_recv|by apply fifo_lose].
Qed.
End fifo.
