(* ===== verification/Reconcile.v ===== *)
(** * Order reconciliation ([zk-oms-svc/src/reconcile.rs])

    The comparison of the OMS's open orders with a gateway's, which turns every
    divergence into a synthetic report for the core, and the [ExchOrder] message
    of [gateway_service.proto] it reads. *)

From S2P Require Import Prelude F64 Proto Intern Models Metadata OrderStore OmsCore V1Orders.

(** [zk.gateway.v1.ExchOrder] *)
Record ExchOrder : Set := mkExchOrder {
  eo_order_ref : string;
  eo_instrument : string;
  eo_buysell_type : Z;
  eo_openclose_type : Z;
  eo_order_type : Z;
  eo_order_report : option OrderReport;
  eo_leverage : f64;
  eo_timestamp : Z;
  eo_exch_order_original : string;
}.
#[export] Instance eta_ExchOrder : Eta ExchOrder := λ r,
  mkExchOrder (eo_order_ref r) (eo_instrument r) (eo_buysell_type r) (eo_openclose_type r)
    (eo_order_type r) (eo_order_report r) (eo_leverage r) (eo_timestamp r)
    (eo_exch_order_original r).
Definition default_ExchOrder : ExchOrder := mkExchOrder "" "" 0 0 0 None f64.zero 0 "".

Definition OrderSourceTq : Z := 1.
Definition RejReasonExchReject : Z := 9.

(** ** Snapshots of the open orders *)

Record OmsOrderSnapshot : Set := mkOmsOrderSnapshot {
  oos_order_id : Z;
  oos_account_id : Z;
  oos_gw_key : string;
  oos_exch_order_ref : option string;
  oos_instrument : string;
  oos_order_status : Z;
  oos_filled_qty : f64;
}.

(** One iteration of the loop; [None] where it [continue]s. *)
Definition order_snapshot (core : OmsCoreV2) (oid : Z) (live : LiveOrder)
    : outcome (option OmsOrderSnapshot) :=
  if is_in_terminal_state live then mret None
  else
    match MetadataTables.gw (lo_gw_id live) (c_metadata core) with
    | None => mret None
    | Some gw_meta =>
        gw_key ← MetadataTables.str_resolve (gm_gw_key_sym gw_meta) (c_metadata core);
        let exch_order_ref :=
          lo_exch_order_ref_id live ≫=
            DynStringTable.try_resolve (os_dyn_strings (c_orders core)) in
        match MetadataTables.instrument (lo_instrument_id live) (c_metadata core) with
        | None => mret None
        | Some inst =>
            instrument ← MetadataTables.str_resolve (im_instrument_code_sym inst) (c_metadata core);
            mret (Some (mkOmsOrderSnapshot oid (lo_account_id live) gw_key exch_order_ref
                          instrument (lo_order_status live) (lo_filled_qty live)))
        end
    end.

Definition extract_open_order_snapshots `{!HashIter Z} (core : OmsCoreV2)
    : outcome (list OmsOrderSnapshot) :=
  for_each (λ snapshots '(oid, live),
      snap ← order_snapshot core oid live; mret (snapshots ++ option_list snap))
    (hash_iter (os_live (c_orders core))) [].

(** ** Synthetic reports *)

Definition make_synthetic_state_report (order_id : Z) (exch_order_ref : string)
    (account_id status : Z) (filled_qty unfilled_qty avg_price : f64) (ts_ms : Z) : OrderReport :=
  let state_report := default_OrderStateReport <| osr_exch_order_status := status |>
    <| osr_filled_qty := filled_qty |> <| osr_unfilled_qty := unfilled_qty |>
    <| osr_avg_price := avg_price |> in
  default_OrderReport <| rep_exch_order_ref := exch_order_ref |> <| rep_order_id := order_id |>
    <| rep_account_id := account_id |> <| rep_update_timestamp := ts_ms |>
    <| rep_order_source_type := OrderSourceTq |>
    <| rep_order_report_entries :=
         [mkOrderReportEntry (OrderReportType_i32 OrderRepTypeState)
            (Some (ROrderStateReport state_report))] |>.

Definition make_synthetic_reject_report (order_id account_id : Z) (reason : string) (ts_ms : Z)
    : OrderReport :=
  let exec_report := default_ExecReport
    <| exr_exec_id := "reconcile-reject-" +:+ display_i64 order_id |>
    <| exr_exec_type := ExchExecType_i32 ExchRejected |>
    <| exr_exec_message := reason |>
    <| exr_rejection_info := Some (default_Rejection <| rej_reason := RejReasonExchReject |>
                                     <| rej_source := ExchReject |>
                                     <| rej_error_message := reason |>) |> in
  default_OrderReport <| rep_order_id := order_id |> <| rep_account_id := account_id |>
    <| rep_update_timestamp := ts_ms |> <| rep_order_source_type := OrderSourceTq |>
    <| rep_order_report_entries :=
         [mkOrderReportEntry (OrderReportType_i32 OrderRepTypeExec)
            (Some (RExecReport exec_report))] |>.

#[global] Arguments make_synthetic_state_report : simpl never.
#[global] Arguments make_synthetic_reject_report : simpl never.

(** The [(filled_qty, unfilled_qty, avg_price, status)] of a gateway order. *)
Definition extract_gw_order_state (order : ExchOrder) : option (f64 * f64 * f64 * Z) :=
  report ← eo_order_report order;
  head (omap (λ entry,
    if ent_report_type entry =? OrderReportType_i32 OrderRepTypeState then
      match ent_report entry with
      | Some (ROrderStateReport s) =>
          Some (osr_filled_qty s, osr_unfilled_qty s, osr_avg_price s, osr_exch_order_status s)
      | _ => None
      end
    else None) (rep_order_report_entries report)).

(** ** Phase 1 *)

Record GwReconcileResult : Set := mkGwReconcileResult {
  grr_gw_key : string;
  grr_orders_matched : nat;
  grr_orders_updated : nat;
  grr_orders_need_detail : nat;
  grr_orders_rejected : nat;
}.
#[export] Instance eta_GwReconcileResult : Eta GwReconcileResult := λ r,
  mkGwReconcileResult (grr_gw_key r) (grr_orders_matched r) (grr_orders_updated r)
    (grr_orders_need_detail r) (grr_orders_rejected r).

Definition reconcile_acc : Type := list OrderReport * list OmsOrderSnapshot * GwReconcileResult.

(** [1e-12] *)
Definition fill_tolerance : f64 := f64.of_decimal 1 12.

Definition fill_diverged (filled_qty : f64) (snap : OmsOrderSnapshot) : bool :=
  (f64.abs (filled_qty - oos_filled_qty snap) >? fill_tolerance)%f64.
Definition status_diverged (gw_exch_status : Z) (snap : OmsOrderSnapshot) : bool :=
  negb (OrderStatus_i32 (OrderManager.map_order_status
          (default ExchOrderStatusUnspecified (ExchangeOrderStatus_try_from gw_exch_status)))
        =? oos_order_status snap).

#[global] Arguments fill_diverged : simpl never.
#[global] Arguments status_diverged : simpl never.

Definition no_ref_reason : string :=
  "reconcile: order never reached exchange (no exch_order_ref after restart)".

Definition reconcile_one (gw_index : gmap string ExchOrder) (gw_key : string) (now_ms : Z)
    (acc : reconcile_acc) (snap : OmsOrderSnapshot) : reconcile_acc :=
  let '(reports, needs_detail, result) := acc in
  if negb (bool_decide (oos_gw_key snap = gw_key)) then acc
  else
    let reject :=
      (reports ++ [make_synthetic_reject_report (oos_order_id snap) (oos_account_id snap)
                     no_ref_reason now_ms],
       needs_detail, result <| grr_orders_rejected ::= S |>) in
    match oos_exch_order_ref snap with
    | Some exch_ref =>
        if is_empty exch_ref then reject
        else
          match gw_index !! exch_ref with
          | Some gw_order =>
              let result := result <| grr_orders_matched ::= S |> in
              match extract_gw_order_state gw_order with
              | Some (filled_qty, unfilled_qty, avg_price, gw_exch_status) =>
                  if fill_diverged filled_qty snap || status_diverged gw_exch_status snap then
                    (reports ++ [make_synthetic_state_report (oos_order_id snap) exch_ref
                                   (oos_account_id snap) gw_exch_status filled_qty unfilled_qty
                                   avg_price now_ms],
                     needs_detail, result <| grr_orders_updated ::= S |>)
                  else (reports, needs_detail, result)
              | None => (reports, needs_detail, result)
              end
          | None =>
              (reports, needs_detail ++ [snap], result <| grr_orders_need_detail ::= S |>)
          end
    | None => reject
    end.

#[global] Arguments reconcile_one : simpl never.

(** The index is collected from the list: the last order of a reference wins. *)
Definition gw_order_index (gw_open_orders : list ExchOrder) : gmap string ExchOrder :=
  foldl (λ m o, <[eo_order_ref o := o]> m) ∅ gw_open_orders.

Definition reconcile_orders_against_gateway (oms_open_orders : list OmsOrderSnapshot)
    (gw_open_orders : list ExchOrder) (gw_key : string) (now_ms : Z) : reconcile_acc :=
  foldl (reconcile_one (gw_order_index gw_open_orders) gw_key now_ms)
    ([], [], mkGwReconcileResult gw_key 0 0 0 0) oms_open_orders.

(** ** Phase 2 *)

Definition resolve_missing_order (snap : OmsOrderSnapshot) (detail_orders : list ExchOrder)
    (now_ms : Z) : OrderReport :=
  let exch_ref := default "" (oos_exch_order_ref snap) in
  match head (omap (λ detail, if bool_decide (eo_order_ref detail = exch_ref)
                              then extract_gw_order_state detail else None) detail_orders) with
  | Some (filled_qty, unfilled_qty, avg_price, status) =>
      make_synthetic_state_report (oos_order_id snap) exch_ref (oos_account_id snap) status
        filled_qty unfilled_qty avg_price now_ms
  | None =>
      make_synthetic_state_report (oos_order_id snap) exch_ref (oos_account_id snap)
        (ExchangeOrderStatus_i32 ExchOrderStatusCancelled) (oos_filled_qty snap)
        f64.zero f64.zero now_ms
  end.

(** ** Phase 1 sorts the gateway's orders into four classes *)

Inductive order_class : Set :=
| Agrees
| Diverged (report : OrderReport)
| Absent
| NeverSent.

(** What one open order of the gateway is, independently of the loop. *)
Definition classify (gw_index : gmap string ExchOrder) (now_ms : Z) (snap : OmsOrderSnapshot)
    : order_class :=
  let ref := default "" (oos_exch_order_ref snap) in
  if is_empty ref then NeverSent
  else
    match gw_index !! ref with
    | None => Absent
    | Some gw_order =>
        match extract_gw_order_state gw_order with
        | Some (filled, unfilled, avg, status) =>
            if fill_diverged filled snap || status_diverged status snap then
              Diverged (make_synthetic_state_report (oos_order_id snap) ref (oos_account_id snap)
                          status filled unfilled avg now_ms)
            else Agrees
        | None => Agrees
        end
    end.

Definition class_report (now_ms : Z) (snap : OmsOrderSnapshot) (c : order_class) : option OrderReport :=
  match c with
  | Diverged r => Some r
  | NeverSent => Some (make_synthetic_reject_report (oos_order_id snap) (oos_account_id snap)
                         no_ref_reason now_ms)
  | _ => None
  end.
Definition is_absent (c : order_class) : bool := match c with Absent => true | _ => false end.
Definition is_never_sent (c : order_class) : bool := match c with NeverSent => true | _ => false end.
Definition is_diverged (c : order_class) : bool := match c with Diverged _ => true | _ => false end.

Definition count_class (p : order_class → bool) (idx : gmap string ExchOrder) (now_ms : Z)
    (l : list OmsOrderSnapshot) : nat :=
  length (List.filter (λ s, p (classify idx now_ms s)) l).

Definition reconcile_spec (idx : gmap string ExchOrder) (gw_key : string) (now_ms : Z)
    (mine : list OmsOrderSnapshot) : reconcile_acc :=
  (omap (λ s, class_report now_ms s (classify idx now_ms s)) mine,
   List.filter (λ s, is_absent (classify idx now_ms s)) mine,
   mkGwReconcileResult gw_key
     (count_class (λ c, negb (is_absent c || is_never_sent c)) idx now_ms mine)
     (count_class is_diverged idx now_ms mine)
     (count_class is_absent idx now_ms mine)
     (count_class is_never_sent idx now_ms mine)).

Definition of_gateway (gw_key : string) : list OmsOrderSnapshot → list OmsOrderSnapshot :=
  List.filter (λ s, bool_decide (oos_gw_key s = gw_key)).

Lemma reconcile_one_classify idx gw_key now_ms reports needs result snap :
  bool_decide (oos_gw_key snap = gw_key) = true →
  reconcile_one idx gw_key now_ms (reports, needs, result) snap =
  match classify idx now_ms snap with
  | Agrees => (reports, needs, result <| grr_orders_matched ::= S |>)
  | Diverged r =>
      (reports ++ [r], needs, result <| grr_orders_matched ::= S |> <| grr_orders_updated ::= S |>)
  | Absent => (reports, needs ++ [snap], result <| grr_orders_need_detail ::= S |>)
  | NeverSent =>
      (reports ++ [make_synthetic_reject_report (oos_order_id snap) (oos_account_id snap)
                     no_ref_reason now_ms], needs, result <| grr_orders_rejected ::= S |>)
  end.
Proof.
  intros Hgw. unfold reconcile_one, classify. rewrite Hgw. cbn [negb].
  destruct (oos_exch_order_ref snap) as [ref|]; cbn [default from_option id]; [|done].
  destruct (is_empty ref); [done|]. destruct (idx !! ref) as [o|]; [|done].
  destruct (extract_gw_order_state o) as [[[[filled unfilled] avg] status]|]; [|done].
  by destruct (_ || _).
Qed.

Lemma reconcile_snoc idx gw_key now_ms mine snap :
  bool_decide (oos_gw_key snap = gw_key) = true →
  reconcile_one idx gw_key now_ms (reconcile_spec idx gw_key now_ms mine) snap =
  reconcile_spec idx gw_key now_ms (mine ++ [snap]).
Proof.
  intros Hgw. unfold reconcile_spec. rewrite reconcile_one_classify by done.
  unfold count_class. rewrite omap_app, !List.filter_app, !length_app. cbn.
  destruct (classify idx now_ms snap); cbn;
    by rewrite ?app_nil_r, ?Nat.add_0_r, ?Nat.add_1_r.
Qed.

Lemma reconcile_meets_spec oms_orders gw_orders gw_key now_ms :
  reconcile_orders_against_gateway oms_orders gw_orders gw_key now_ms =
  reconcile_spec (gw_order_index gw_orders) gw_key now_ms (of_gateway gw_key oms_orders).
Proof.
  unfold reconcile_orders_against_gateway. induction oms_orders as [|s l IH] using rev_ind; [done|].
  rewrite foldl_app, IH. unfold of_gateway. rewrite List.filter_app. simpl.
  destruct (bool_decide _) eqn:Hgw; [by apply reconcile_snoc|].
  rewrite app_nil_r. unfold reconcile_one. by rewrite Hgw.
Qed.


(** ** The reports name no gateway *)

Lemma synthetic_exchange now_ms snap idx gw_key mine details r :
  r = resolve_missing_order snap details now_ms ∨ r ∈ (reconcile_spec idx gw_key now_ms mine).1.1 →
  rep_exchange r = "".
Proof.
  intros [->|Hr].
  - unfold resolve_missing_order. by destruct (head _) as [[[[] ?] ?]|].
  - simpl in Hr. apply list_elem_of_omap in Hr as (s & _ & Hs).
    destruct (classify idx now_ms s) as [|r'| |] eqn:Hc; simpl in Hs; try discriminate Hs;
      injection Hs as <-; [|done].
    unfold classify in Hc. destruct (is_empty _); [done|]. destruct (idx !! _) as [o|]; [|done].
    destruct (extract_gw_order_state o) as [[[[? ?] ?] ?]|]; [|done].
    destruct (_ || _); [by injection Hc as <-|done].
Qed.

(** A report made by the reconciliation names no gateway: a core none of whose
    gateways has the empty key drops it, and stays as it was. *)
Lemma reconcile_reports_ignored `{!HashIter Z} clk core oms_orders gw_orders gw_key now_ms snap details r :
  OmsCoreV2.resolve_gw "" core = None →
  r = resolve_missing_order snap details now_ms ∨
  r ∈ (reconcile_orders_against_gateway oms_orders gw_orders gw_key now_ms).1.1 →
  OmsCoreV2.process_message clk (GatewayOrderReport r) core = mret ([], core).
Proof.
  intros Hnone Hr. rewrite reconcile_meets_spec in Hr.
  simpl. unfold OmsCoreV2.process_order_report. by rewrite (synthetic_exchange _ _ _ _ _ _ _ Hr), Hnone.
Qed.
