(* ===== verification/SnapshotV2.v ===== *)
(** * The read replica ([zk-oms-rs/src/snapshot_v2.rs])

    The snapshot the OMS serves queries from, the writer that maintains it and
    its query indexes.  [Box<str>] and [Arc] are transparent; [im::HashMap] is a
    map.  The order in which an index lists the ids of a key is the hash order of
    the map it is built from. *)

From S2P Require Import Prelude F64 Proto Intern Models Metadata OrderStore OmsCore.

(** ** Name tables *)

Record SnapshotMetadata : Set := mkSnapshotMetadata {
  sm_instrument_names : list string;
  sm_instrument_exch_names : list string;
  sm_asset_names : list string;
  sm_gw_names : list string;
  sm_source_names : list string;
}.

Module SnapshotMetadata.
Implicit Types (m : SnapshotMetadata).
Definition name (names : list string) (id : Z) : string := default "" (names !! Z.to_nat id).
Definition instrument_name m : Z → string := name (sm_instrument_names m).
Definition instrument_exch_name m : Z → string := name (sm_instrument_exch_names m).
Definition asset_name m : Z → string := name (sm_asset_names m).
Definition gw_name m : Z → string := name (sm_gw_names m).
Definition source_name m : Z → string := name (sm_source_names m).
End SnapshotMetadata.

(** [OmsCoreV2::build_snapshot_metadata] *)
Definition resolve_all {A} (f : A → Z) (md : MetadataTables) (l : list A) : outcome (list string) :=
  for_each (λ acc a, s ← MetadataTables.str_resolve (f a) md; mret (acc ++ [s])) l [].

Definition build_snapshot_metadata (c : OmsCoreV2) : outcome SnapshotMetadata :=
  let md := c_metadata c in
  instrument_names ← resolve_all im_instrument_code_sym md (md_instruments md);
  instrument_exch_names ← resolve_all im_instrument_exch_sym md (md_instruments md);
  asset_names ← resolve_all am_asset_sym md (md_assets md);
  gw_names ← resolve_all gm_gw_key_sym md (md_gws md);
  source_names ← resolve_all id md (seqZ 0 (len_u32 (strs_by_id (md_strings md))));
  mret (mkSnapshotMetadata instrument_names instrument_exch_names asset_names gw_names source_names).

(** ** Entries *)

Record SnapshotOrder : Set := mkSnapshotOrder {
  so_order_id : Z;
  so_account_id : Z;
  so_instrument_id : Z;
  so_gw_id : Z;
  so_source_sym : Z;
  so_order_status : Z;
  so_buy_sell_type : Z;
  so_open_close_type : Z;
  so_order_type : Z;
  so_tif_type : Z;
  so_price : f64;
  so_qty : f64;
  so_filled_qty : f64;
  so_filled_avg_price : f64;
  so_exch_order_ref : option string;
  so_created_at : Z;
  so_updated_at : Z;
  so_snapshot_version : Z;
  so_is_external : bool;
}.

Record SnapshotOrderDetail : Set := mkSnapshotOrderDetail {
  sd_order_id : Z;
  sd_source_sym : Z;
  sd_instrument_exch_sym : Z;
  sd_exch_order_ref : option string;
  sd_error_msg : message;
  sd_trades : list Trade;
  sd_inferred_trades : list Trade;
  sd_exec_msgs : list ExecMessage;
  sd_fees : list Fee;
}.

Record SnapshotManagedPosition : Set := mkSnapshotManagedPosition {
  smp_account_id : Z;
  smp_instrument_id : Z;
  smp_instrument_type : Z;
  smp_is_short : bool;
  smp_qty_total : f64;
  smp_qty_frozen : f64;
  smp_qty_available : f64;
  smp_last_local_update_ts : Z;
  smp_last_exch_sync_ts : Z;
  smp_reconcile_status : ReconcileStatus;
}.

Module SnapshotOrder.
Definition to_proto_order (meta : SnapshotMetadata) (detail : option SnapshotOrderDetail)
    (o : SnapshotOrder) : Order :=
  default_Order <| ord_order_id := so_order_id o |> <| ord_account_id := so_account_id o |>
    <| ord_instrument := SnapshotMetadata.instrument_name meta (so_instrument_id o) |>
    <| ord_instrument_exch := SnapshotMetadata.instrument_exch_name meta (so_instrument_id o) |>
    <| ord_gw_key := SnapshotMetadata.gw_name meta (so_gw_id o) |>
    <| ord_order_status := so_order_status o |> <| ord_buy_sell_type := so_buy_sell_type o |>
    <| ord_open_close_type := so_open_close_type o |> <| ord_price := so_price o |>
    <| ord_qty := so_qty o |> <| ord_filled_qty := so_filled_qty o |>
    <| ord_filled_avg_price := so_filled_avg_price o |>
    <| ord_source_id := SnapshotMetadata.source_name meta (so_source_sym o) |>
    <| ord_exch_order_ref := default "" (so_exch_order_ref o) |>
    <| ord_snapshot_version := wrap_i32 (so_snapshot_version o) |>
    <| ord_created_at := so_created_at o |> <| ord_updated_at := so_updated_at o |>
    <| ord_error_msg := default [] (sd_error_msg <$> detail) |>.
End SnapshotOrder.

Module SnapshotManagedPosition.
Definition to_proto (meta : SnapshotMetadata) (p : SnapshotManagedPosition) : Position :=
  default_Position <| pos_account_id := smp_account_id p |>
    <| pos_instrument_code := SnapshotMetadata.instrument_name meta (smp_instrument_id p) |>
    <| pos_instrument_type := smp_instrument_type p |>
    <| pos_long_short_type := if smp_is_short p then LsShort else LsLong |>
    <| pos_total_qty := smp_qty_total p |> <| pos_frozen_qty := smp_qty_frozen p |>
    <| pos_avail_qty := smp_qty_available p |>
    <| pos_update_timestamp := smp_last_local_update_ts p |>
    <| pos_sync_timestamp := smp_last_exch_sync_ts p |>.
End SnapshotManagedPosition.

(** ** The snapshot and its writer *)

Record OmsSnapshotV2 : Type := mkOmsSnapshotV2 {
  sn_metadata : SnapshotMetadata;
  sn_orders : gmap Z SnapshotOrder;
  sn_order_details : gmap Z SnapshotOrderDetail;
  sn_open_order_ids_by_account : gmap Z (gset Z);
  sn_panic_accounts : gset Z;
  sn_managed_positions : gmap (Z * Z) SnapshotManagedPosition;
  sn_exch_positions : gmap (Z * Z) ExchPositionSnapshot;
  sn_exch_balances : gmap (Z * Z) ExchBalanceSnapshot;
  sn_unknown_exch_positions : list ExchPositionSnapshot;
  sn_unknown_exch_balances : list ExchBalanceSnapshot;
  sn_managed_position_ids_by_account : gmap Z (list Z);
  sn_exch_position_ids_by_account : gmap Z (list Z);
  sn_balance_asset_ids_by_account : gmap Z (list Z);
  sn_order_ids_by_exch_ref : gmap string (list Z);
  sn_seq : Z;
  sn_snapshot_ts_ms : Z;
}.

Record OmsSnapshotWriterV2 : Type := mkOmsSnapshotWriterV2 {
  sw_orders : gmap Z SnapshotOrder;
  sw_order_details : gmap Z SnapshotOrderDetail;
  sw_open_by_account : gmap Z (gset Z);
  sw_panic_accounts : gset Z;
  sw_metadata : SnapshotMetadata;
  sw_seq : Z;
}.
#[export] Instance eta_OmsSnapshotWriterV2 : Eta OmsSnapshotWriterV2 := λ r,
  mkOmsSnapshotWriterV2 (sw_orders r) (sw_order_details r) (sw_open_by_account r)
    (sw_panic_accounts r) (sw_metadata r) (sw_seq r).

(** [index.entry(key).or_default().push(id)] *)
Definition push_at {K} `{Countable K} (key : K) (id : Z) (m : gmap K (list Z)) : gmap K (list Z) :=
  <[key := default [] (m !! key) ++ [id]]> m.

Definition build_account_index `{!HashIter (Z * Z)} {V} (m : gmap (Z * Z) V) : gmap Z (list Z) :=
  foldl (λ index '(account_id, sub_id), push_at account_id sub_id index) ∅ (hash_iter m).*1.

Definition build_exch_ref_index `{!HashIter Z} (orders : gmap Z SnapshotOrder)
    : gmap string (list Z) :=
  foldl (λ index '(order_id, order),
      match so_exch_order_ref order with
      | Some exch_ref => push_at exch_ref order_id index
      | None => index
      end) ∅ (hash_iter orders).

Module OmsSnapshotWriterV2.
Section writer.
Context `{!HashIter Z, !HashIter (Z * Z)}.
Implicit Types (w : OmsSnapshotWriterV2).

Definition new (metadata : SnapshotMetadata) : OmsSnapshotWriterV2 :=
  mkOmsSnapshotWriterV2 ∅ ∅ ∅ ∅ metadata 0.

Definition update_metadata (metadata : SnapshotMetadata) w : OmsSnapshotWriterV2 :=
  w <| sw_metadata := metadata |>.

Definition apply_order_update (o : SnapshotOrder) (set_closed : bool) w : OmsSnapshotWriterV2 :=
  let order_id := so_order_id o in
  let account_id := so_account_id o in
  let open_set := default ∅ (sw_open_by_account w !! account_id) in
  w <| sw_orders ::= <[order_id := o]> |>
    <| sw_open_by_account ::=
         <[account_id := if set_closed then open_set ∖ {[order_id]} else {[order_id]} ∪ open_set]> |>.

Definition apply_order_detail (d : SnapshotOrderDetail) w : OmsSnapshotWriterV2 :=
  w <| sw_order_details ::= <[sd_order_id d := d]> |>.

Definition apply_panic (account_id : Z) w : OmsSnapshotWriterV2 :=
  w <| sw_panic_accounts ::= λ s, {[account_id]} ∪ s |>.
Definition apply_clear_panic (account_id : Z) w : OmsSnapshotWriterV2 :=
  w <| sw_panic_accounts ::= λ s, s ∖ {[account_id]} |>.

Definition publish (managed_positions : gmap (Z * Z) SnapshotManagedPosition)
    (exch_positions : gmap (Z * Z) ExchPositionSnapshot)
    (exch_balances : gmap (Z * Z) ExchBalanceSnapshot)
    (unknown_exch_positions : list ExchPositionSnapshot)
    (unknown_exch_balances : list ExchBalanceSnapshot) (ts_ms : Z) w
    : OmsSnapshotV2 * OmsSnapshotWriterV2 :=
  let w := w <| sw_seq ::= λ n, wrap_u64 (n + 1) |> in
  (mkOmsSnapshotV2 (sw_metadata w) (sw_orders w) (sw_order_details w) (sw_open_by_account w)
     (sw_panic_accounts w) managed_positions exch_positions exch_balances
     unknown_exch_positions unknown_exch_balances
     (build_account_index managed_positions) (build_account_index exch_positions)
     (build_account_index exch_balances) (build_exch_ref_index (sw_orders w))
     (sw_seq w) ts_ms, w).
End writer.
End OmsSnapshotWriterV2.

(** ** The indexes list what the maps hold *)

Definition under {K} `{EqDecision K} (k : K) (l : list (K * Z)) : list Z :=
  (filter (λ x, x.1 = k) l).*2.

Lemma push_at_all {K} `{Countable K} (l : list (K * Z)) (m : gmap K (list Z)) (k : K) :
  default [] (foldl (λ m '(k, id), push_at k id m) m l !! k) = default [] (m !! k) ++ under k l.
Proof.
  revert m. induction l as [|[k' id] l IH]; intros m; [by rewrite app_nil_r|]. simpl.
  rewrite IH. unfold push_at, under. rewrite filter_cons. simpl.
  destruct (decide (k' = k)) as [->|Hne].
  - rewrite lookup_insert_eq. simpl. by rewrite <- (assoc_L (++)).
  - by rewrite lookup_insert_ne.
Qed.

Lemma elem_of_under {K} `{EqDecision K} (k : K) (l : list (K * Z)) id : id ∈ under k l ↔ (k, id) ∈ l.
Proof.
  unfold under. rewrite list_elem_of_fmap. setoid_rewrite list_elem_of_filter. split.
  - intros ([k' id'] & -> & Hk & Hin). simpl in *. by subst.
  - intros Hin. by exists (k, id).
Qed.

Lemma NoDup_under {K} `{EqDecision K} (k : K) (l : list (K * Z)) : NoDup l → NoDup (under k l).
Proof.
  intros Hl. unfold under. apply NoDup_fmap_2_strong; [|by apply NoDup_filter].
  intros [k1 i1] [k2 i2] [H1 _]%list_elem_of_filter [H2 _]%list_elem_of_filter. simpl in *. by intros ->; subst.
Qed.

Section indexes.
Context `{!HashIter Z, !HashIterOk Z, !HashIter (Z * Z), !HashIterOk (Z * Z)}.

Lemma account_index_lookup {V} (m : gmap (Z * Z) V) account :
  default [] (build_account_index m !! account) = under account (hash_iter m).*1.
Proof. unfold build_account_index. by rewrite push_at_all. Qed.

(** The pairs the reference index is pushed from. *)
Definition ref_pairs (orders : gmap Z SnapshotOrder) : list (string * Z) :=
  omap (λ '(order_id, order), (λ r, (r, order_id)) <$> so_exch_order_ref order) (hash_iter orders).

Lemma ref_index_lookup (orders : gmap Z SnapshotOrder) ref :
  default [] (build_exch_ref_index orders !! ref) = under ref (ref_pairs orders).
Proof.
  unfold build_exch_ref_index, ref_pairs.
  assert (∀ l (m : gmap string (list Z)),
    foldl (λ index '(order_id, order),
        match so_exch_order_ref order with Some r => push_at r order_id index | None => index end) m l =
    foldl (λ m '(k, id), push_at k id m) m
      (omap (λ '(order_id, order), (λ r, (r, order_id)) <$> so_exch_order_ref order) l)) as ->.
  { induction l as [|[oid o] l IH]; intros m; [done|]. simpl.
    destruct (so_exch_order_ref o); simpl; apply IH. }
  by rewrite push_at_all.
Qed.

Lemma hash_iter_NoDup_keys {K V} `{HashIterOk K} (m : gmap K V) : NoDup (hash_iter m).*1.
Proof. rewrite (hash_iter_perm V m). apply NoDup_fst_map_to_list. Qed.

Lemma ref_pairs_NoDup orders : NoDup (ref_pairs orders).
Proof.
  unfold ref_pairs. pose proof (hash_iter_NoDup_keys orders) as Hnd. revert Hnd.
  generalize (hash_iter orders). induction l as [|[oid o] l IH]; simpl; intros Hnd; [constructor|].
  apply NoDup_cons in Hnd as [Hout Hnd]. simpl in Hout.
  destruct (so_exch_order_ref o) as [r|]; simpl; [|by apply IH].
  constructor; [|by apply IH]. intros ([oid' o'] & Hin & He)%list_elem_of_omap.
  destruct (so_exch_order_ref o'); simpl in He; [|done]. injection He as -> ->.
  apply Hout. by apply (list_elem_of_fmap_2 fst) in Hin.
Qed.

Lemma ref_index_elem orders ref oid :
  oid ∈ default [] (build_exch_ref_index orders !! ref) ↔
  ∃ o, orders !! oid = Some o ∧ so_exch_order_ref o = Some ref.
Proof.
  rewrite ref_index_lookup, elem_of_under. unfold ref_pairs. rewrite list_elem_of_omap. split.
  - intros ([oid' o] & Hin%elem_of_hash_iter & Ho). exists o.
    destruct (so_exch_order_ref o); simpl in Ho; [|done]. by injection Ho as -> ->.
  - intros (o & Ho & Href). exists (oid, o). split; [by apply elem_of_hash_iter|]. by rewrite Href.
Qed.

(** In every published snapshot, an account's index lists exactly the
    instruments and assets the position and balance maps hold for it, and the
    index of an exchange reference lists exactly the orders that carry it, each
    once. *)
Theorem snapshot_indexes_exact managed exch_pos exch_bal unknown_pos unknown_bal ts w :
  let sn := (OmsSnapshotWriterV2.publish managed exch_pos exch_bal unknown_pos unknown_bal ts w).1 in
  let exact {V} (index : gmap Z (list Z)) (m : gmap (Z * Z) V) :=
    ∀ account, NoDup (default [] (index !! account)) ∧
      ∀ id, id ∈ default [] (index !! account) ↔ is_Some (m !! (account, id)) in
  exact (sn_managed_position_ids_by_account sn) (sn_managed_positions sn) ∧
  exact (sn_exch_position_ids_by_account sn) (sn_exch_positions sn) ∧
  exact (sn_balance_asset_ids_by_account sn) (sn_exch_balances sn) ∧
  ∀ ref, NoDup (default [] (sn_order_ids_by_exch_ref sn !! ref)) ∧
    ∀ oid, oid ∈ default [] (sn_order_ids_by_exch_ref sn !! ref) ↔
      ∃ o, sn_orders sn !! oid = Some o ∧ so_exch_order_ref o = Some ref.
Proof.
  cbv zeta. simpl.
  assert (∀ V (m : gmap (Z * Z) V) account,
    NoDup (default [] (build_account_index m !! account)) ∧
    ∀ id, id ∈ default [] (build_account_index m !! account) ↔ is_Some (m !! (account, id))) as Hacc.
  { intros V m account. rewrite account_index_lookup. split.
    - apply NoDup_under, hash_iter_NoDup_keys.
    - intros id. rewrite elem_of_under, list_elem_of_fmap. split.
      + intros ([k v] & -> & Hin%elem_of_hash_iter). by exists v.
      + intros [v Hv]. exists ((account, id), v). split; [done|]. by apply elem_of_hash_iter. }
  split; [apply Hacc|]. split; [apply Hacc|]. split; [apply Hacc|]. intros ref.
  split; [rewrite ref_index_lookup; apply NoDup_under, ref_pairs_NoDup|]. intros oid. apply ref_index_elem.
Qed.
End indexes.

Definition demo_snapshot_order (oid : Z) (ref : option string) : SnapshotOrder :=
  mkSnapshotOrder oid 9 0 0 0 0 0 0 0 0 f64.zero f64.zero f64.zero f64.zero ref 0 0 1 false.
Definition demo_writer : OmsSnapshotWriterV2 :=
  OmsSnapshotWriterV2.apply_order_update (demo_snapshot_order 2 (Some "x")) false
    (OmsSnapshotWriterV2.apply_order_update (demo_snapshot_order 1 (Some "x")) true
       (OmsSnapshotWriterV2.new (mkSnapshotMetadata [] [] [] [] []))).

Lemma snapshot_indexes_exact_witness :
  let sn := (@OmsSnapshotWriterV2.publish canonical_iter canonical_iter ∅ ∅ ∅ [] [] 0 demo_writer).1 in
  NoDup (default [] (sn_order_ids_by_exch_ref sn !! "x")) ∧
  length (default [] (sn_order_ids_by_exch_ref sn !! "x")) = 2%nat.
Proof.
  cbv zeta. split; [|by vm_compute].
  apply (proj2 (proj2 (proj2 (@snapshot_indexes_exact canonical_iter canonical_iter_ok canonical_iter
    canonical_iter_ok ∅ ∅ ∅ [] [] 0 demo_writer)))).
Defined.
