(* ===== verification/Persist.v ===== *)
(** * Persistence ([zk-oms-svc/src/redis_writer.rs], [persist_executor.rs])

    The records the OMS keeps in Redis, the commands a write sends, the loaders
    of a warm start and the persist worker.  Redis and the JSON codec are
    third-party: a payload is kept as the record it serialises, and the loaders
    take what the server answers. *)

From S2P Require Import Prelude F64 Proto Models Channels Metadata OrderStore OmsCore OmsLifecycle.

(** ** Keys ([zk-infra-rs/src/redis.rs]) *)

Module key.
Definition order (oms_id : string) (order_id : Z) : string :=
  "oms:" +:+ oms_id +:+ ":order:" +:+ display_i64 order_id.
Definition open_orders (oms_id : string) (account_id : Z) : string :=
  "oms:" +:+ oms_id +:+ ":open_orders:" +:+ display_i64 account_id.
Definition balance (oms_id : string) (account_id : Z) (asset : string) : string :=
  "oms:" +:+ oms_id +:+ ":balance:" +:+ display_i64 account_id +:+ ":" +:+ asset.
Definition position (oms_id : string) (account_id : Z) (instrument side : string) : string :=
  "oms:" +:+ oms_id +:+ ":position:" +:+ display_i64 account_id +:+ ":" +:+ instrument +:+ ":" +:+ side.
End key.

(** ** Persisted records *)

Record PersistedOrder : Set := mkPersistedOrder {
  po_order_id : Z;
  po_account_id : Z;
  po_is_from_external : bool;
  po_exch_order_ref : option string;
  po_instrument : string;
  po_buy_sell_type : Z;
  po_open_close_type : Z;
  po_price : f64;
  po_qty : f64;
  po_filled_qty : f64;
  po_filled_avg_price : f64;
  po_order_status : Z;
  po_gw_key : string;
  po_source_id : string;
  po_created_at : Z;
  po_updated_at : Z;
  po_error_msg : message;
  po_instrument_exch : string;
}.

Module PersistedOrder.
Definition from_oms_order (o : OmsOrder) : PersistedOrder :=
  let s := oo_order_state o in
  {| po_order_id := oo_order_id o;
     po_account_id := oo_account_id o;
     po_is_from_external := oo_is_from_external o;
     po_exch_order_ref := oo_exch_order_ref o;
     po_instrument := ord_instrument s;
     po_buy_sell_type := ord_buy_sell_type s;
     po_open_close_type := ord_open_close_type s;
     po_price := ord_price s;
     po_qty := ord_qty s;
     po_filled_qty := ord_filled_qty s;
     po_filled_avg_price := ord_filled_avg_price s;
     po_order_status := ord_order_status s;
     po_gw_key := ord_gw_key s;
     po_source_id := ord_source_id s;
     po_created_at := ord_created_at s;
     po_updated_at := ord_updated_at s;
     po_error_msg := ord_error_msg s;
     po_instrument_exch := ord_instrument_exch s |}.

Definition into_oms_order (p : PersistedOrder) : OmsOrder :=
  let order_state := default_Order <| ord_order_id := po_order_id p |>
    <| ord_account_id := po_account_id p |>
    <| ord_exch_order_ref := default "" (po_exch_order_ref p) |>
    <| ord_instrument := po_instrument p |> <| ord_buy_sell_type := po_buy_sell_type p |>
    <| ord_open_close_type := po_open_close_type p |> <| ord_price := po_price p |>
    <| ord_qty := po_qty p |> <| ord_filled_qty := po_filled_qty p |>
    <| ord_filled_avg_price := po_filled_avg_price p |>
    <| ord_order_status := po_order_status p |> <| ord_gw_key := po_gw_key p |>
    <| ord_source_id := po_source_id p |> <| ord_created_at := po_created_at p |>
    <| ord_updated_at := po_updated_at p |> <| ord_error_msg := po_error_msg p |>
    <| ord_instrument_exch := po_instrument_exch p |> in
  {| oo_is_from_external := po_is_from_external p;
     oo_order_id := po_order_id p;
     oo_account_id := po_account_id p;
     oo_exch_order_ref := po_exch_order_ref p;
     oo_oms_req := None;
     oo_gw_req := None;
     oo_cancel_req := None;
     oo_order_state := order_state;
     oo_trades := [];
     oo_acc_trades_filled_qty := f64.zero;
     oo_acc_trades_value := f64.zero;
     oo_order_inferred_trades := [];
     oo_exec_msgs := [];
     oo_fees := [];
     oo_cancel_attempts := 0 |}.
End PersistedOrder.

Record PersistedManagedPosition : Set := mkPersistedManagedPosition {
  pp_account_id : Z;
  pp_instrument_code : string;
  pp_symbol_exch : option string;
  pp_instrument_type : Z;
  pp_is_short : bool;
  pp_total_qty : f64;
  pp_frozen_qty : f64;
  pp_avail_qty : f64;
}.

Module PersistedManagedPosition.
Definition from (p : OmsManagedPosition) : PersistedManagedPosition :=
  mkPersistedManagedPosition (omp_account_id p) (omp_instrument_code p) (omp_symbol_exch p)
    (omp_instrument_type p) (omp_is_short p) (omp_qty_total p) (omp_qty_frozen p)
    (omp_qty_available p).

Definition into_oms_managed_position (p : PersistedManagedPosition) : OmsManagedPosition :=
  let pos := OmsManagedPosition_new (pp_account_id p) (pp_instrument_code p) (pp_instrument_type p)
               (pp_is_short p) in
  pos <| omp_symbol_exch := pp_symbol_exch p |> <| omp_qty_total := pp_total_qty p |>
    <| omp_qty_frozen := pp_frozen_qty p |> <| omp_qty_available := pp_avail_qty p |>.
End PersistedManagedPosition.

Record PersistedBalance : Set := mkPersistedBalance {
  pb_account_id : Z;
  pb_asset : string;
  pb_total_qty : f64;
  pb_frozen_qty : f64;
  pb_avail_qty : f64;
}.

Module PersistedBalance.
Definition from (b : ExchBalanceSnapshot) : PersistedBalance :=
  let s := ebs_balance_state b in
  mkPersistedBalance (ebs_account_id b) (ebs_asset b) (bal_total_qty s) (bal_frozen_qty s)
    (bal_avail_qty s).

Definition into_exch_balance_snapshot (p : PersistedBalance) : ExchBalanceSnapshot :=
  mkExchBalanceSnapshot (pb_account_id p) (pb_asset p) None
    (default_Balance <| bal_account_id := pb_account_id p |> <| bal_asset := pb_asset p |>
       <| bal_total_qty := pb_total_qty p |> <| bal_avail_qty := pb_avail_qty p |>
       <| bal_frozen_qty := pb_frozen_qty p |>) "" 0.
End PersistedBalance.

(** ** Writes: the commands sent *)

Inductive payload : Set :=
| OrderPayload (p : PersistedOrder)
| BalancePayload (p : PersistedBalance)
| PositionPayload (p : PersistedManagedPosition).

Inductive RedisCmd : Set :=
| RSet (key : string) (value : payload)
| RSetEx (key : string) (value : payload) (ttl_secs : Z)
| RExpire (key : string) (ttl_secs : Z)
| RSAdd (key : string) (member : Z)
| RSRem (key : string) (member : Z).

Module RedisWriter.
Section writer.
Context (oms_id : string).

Definition write_order (order : OmsOrder) (set_expire set_closed : bool) : list RedisCmd :=
  let order_key := key.order oms_id (oo_order_id order) in
  let open_key := key.open_orders oms_id (oo_account_id order) in
  [RSet order_key (OrderPayload (PersistedOrder.from_oms_order order));
   RExpire order_key (if set_expire then 3600 else 86400)] ++
  (if set_closed then [RSRem open_key (oo_order_id order)]
   else [RSAdd open_key (oo_order_id order); RExpire open_key 86400]).

Definition write_balance (account_id : Z) (asset : string) (snap : ExchBalanceSnapshot)
    : list RedisCmd :=
  [RSetEx (key.balance oms_id account_id asset) (BalancePayload (PersistedBalance.from snap)) 86400].

Definition write_position (account_id : Z) (instrument side : string) (pos : OmsManagedPosition)
    : list RedisCmd :=
  [RSetEx (key.position oms_id account_id instrument side)
     (PositionPayload (PersistedManagedPosition.from pos)) 86400].

(** ** Loads, over the answers of the server: the keys a SCAN finds, the members
    of a set, and the decoded value of a key ([None] when it is absent, [Some
    None] when it does not decode). *)
Context (scan : string → list string) (smembers : string → list Z).

Definition load_orders (get_order : string → option (option PersistedOrder)) : list PersistedOrder :=
  let order_ids := scan ("oms:" +:+ oms_id +:+ ":open_orders:*") ≫= smembers in
  omap (λ order_id, mjoin (get_order (key.order oms_id order_id))) order_ids.

Definition load_balances (get_balance : string → option (option PersistedBalance))
    : list ExchBalanceSnapshot :=
  omap (λ k, PersistedBalance.into_exch_balance_snapshot <$> mjoin (get_balance k))
    (scan ("oms:" +:+ oms_id +:+ ":balance:*")).

Definition load_positions (get_position : string → option (option PersistedManagedPosition))
    : list OmsManagedPosition :=
  omap (λ k, PersistedManagedPosition.into_oms_managed_position <$> mjoin (get_position k))
    (scan ("oms:" +:+ oms_id +:+ ":position:*")).
End writer.
End RedisWriter.

(** ** [persist_executor.rs] *)

Inductive PersistAction : Set :=
| PersistOrderAction (order : OmsOrder) (set_expire set_closed : bool)
| PersistBalanceAction (account_id : Z) (asset_name : string) (snap : ExchBalanceSnapshot)
| PersistPositionAction (account_id : Z) (inst_code side : string) (pos : OmsManagedPosition).

Module PersistAction.
Definition account_id (a : PersistAction) : Z :=
  match a with
  | PersistOrderAction order _ _ => oo_account_id order
  | PersistBalanceAction account_id _ _ => account_id
  | PersistPositionAction account_id _ _ _ => account_id
  end.

(** What the worker sends for one action. *)
Definition commands (oms_id : string) (a : PersistAction) : list RedisCmd :=
  match a with
  | PersistOrderAction order set_expire set_closed =>
      RedisWriter.write_order oms_id order set_expire set_closed
  | PersistBalanceAction account_id asset_name snap =>
      RedisWriter.write_balance oms_id account_id asset_name snap
  | PersistPositionAction account_id inst_code side pos =>
      RedisWriter.write_position oms_id account_id inst_code side pos
  end.
End PersistAction.

Definition PersistExecutorPool : Type := ShardedPool Z PersistAction.

Module PersistExecutorPool.
(** [try_dispatch]: an action that finds its queue full is dropped. *)
Definition try_dispatch (action : PersistAction) (p : PersistExecutorPool)
    : outcome PersistExecutorPool :=
  '(_, p) ← ShardedPool.try_dispatch (PersistAction.account_id action) action p; mret p.
End PersistExecutorPool.

(** ** What a restart gets back *)

Lemma build_proto_order_ids live c s :
  OmsCoreV2.build_proto_order live c = Returns s →
  ord_order_id s = lo_order_id live ∧ ord_account_id s = lo_account_id live ∧
  OmsCoreV2.resolve_exch_ref live (c_orders c) = Returns (ord_exch_order_ref s).
Proof.
  unfold OmsCoreV2.build_proto_order.
  intros H. destruct (OmsCoreV2.instrument_code (lo_instrument_id live) c) as [code|]; [|done].
  cbn [mbind outcome_bind] in H.
  assert (∃ exch, (gw ← OmsCoreV2.gw_key (lo_gw_id live) c;
    ref ← OmsCoreV2.resolve_exch_ref live (c_orders c);
    mret (exch gw ref)) = Returns s ∧ ∀ gw ref, ord_order_id (exch gw ref) = lo_order_id live ∧
      ord_account_id (exch gw ref) = lo_account_id live ∧ ord_exch_order_ref (exch gw ref) = ref)
    as (build & Hb & Hspec).
  { destruct (MetadataTables.instrument _ _) as [i|];
      [destruct (MetadataTables.str_resolve _ _) as [e|]; [|done]|];
      cbn [mbind outcome_bind mret outcome_ret] in H; by eexists (λ gw ref, _). }
  destruct (OmsCoreV2.gw_key (lo_gw_id live) c) as [gw|]; [|done]. cbn [mbind outcome_bind] in Hb.
  destruct (OmsCoreV2.resolve_exch_ref live _) as [ref|]; [|done]. cbn in Hb.
  apply returns_inj in Hb as <-. destruct (Hspec gw ref) as (-> & -> & ->). done.
Qed.


(** The order the witness writes and reads back: a partly filled one. *)
Definition persisted_demo : OmsOrder :=
  Eval vm_compute in
  match OmsCoreV2.build_v1_order 11 filled_core with
  | Returns order => order
  | Panics _ => PersistedOrder.into_oms_order
      (mkPersistedOrder 0 0 false None "" 0 0 f64.zero f64.zero f64.zero f64.zero 0 "" "" 0 0 [] "")
  end.

