(* ===== verification/Latency.v ===== *)
(** * Latency tracking ([zk-oms-svc/src/latency.rs])

    The tracker of the OMS writer: orders sent and waiting for their first
    report, and a bounded queue of completed records. *)

From S2P Require Import Prelude.

Record TimestampRecord : Set := mkTimestampRecord {
  tsr_order_id : Z;
  tsr_t0_ns : Z;
  tsr_t1_ns : Z;
  tsr_t2_ns : Z;
  tsr_tw_core_ns : Z;
  tsr_t3_ns : Z;
  tsr_t3r_ns : Z;
  tsr_t4_ns : Z;
  tsr_t5_ns : Z;
  tsr_t6_ns : Z;
  tsr_t7_ns : Z;
  tsr_writer_dispatch_ts : Z;
  tsr_gw_exec_dequeue_ns : Z;
}.
#[export] Instance eta_TimestampRecord : Eta TimestampRecord := λ r,
  mkTimestampRecord (tsr_order_id r) (tsr_t0_ns r) (tsr_t1_ns r) (tsr_t2_ns r) (tsr_tw_core_ns r)
    (tsr_t3_ns r) (tsr_t3r_ns r) (tsr_t4_ns r) (tsr_t5_ns r) (tsr_t6_ns r) (tsr_t7_ns r)
    (tsr_writer_dispatch_ts r) (tsr_gw_exec_dequeue_ns r).

Inductive LatencyEvent : Set :=
| OrderSent (order_id order_created_at t1_ns t2_ns tw_core_ns t3_ns t3r_ns writer_dispatch_ts
    gw_exec_dequeue_ns : Z)
| ReportPublished (order_id t4_ns t5_ns t6_ns t7_ns : Z).

Record LatencyTracker : Type := mkLatencyTracker {
  lt_pending : gmap Z TimestampRecord;
  lt_complete : list TimestampRecord;
  lt_max_pending : nat;
  lt_max_complete : nat;
}.
#[export] Instance eta_LatencyTracker : Eta LatencyTracker := λ r,
  mkLatencyTracker (lt_pending r) (lt_complete r) (lt_max_pending r) (lt_max_complete r).

(** [zk.common.v1.LatencyMetric] and [LatencyMetricBatch] *)
Record LatencyMetric : Type := mkLatencyMetric {
  lm_tagged_timestamps : gmap string Z;
  lm_order_id : Z;
  lm_source_id : string;
}.
Record LatencyMetricBatch : Type := mkLatencyMetricBatch {
  lmb_metrics : list LatencyMetric;
  lmb_publisher_id : string;
  lmb_publish_ts_ns : Z;
}.

Module LatencyTracker.
Implicit Types (t : LatencyTracker).

Definition new (max_pending max_complete : nat) : LatencyTracker :=
  mkLatencyTracker ∅ [] max_pending max_complete.

Definition record_order_sent (order_id order_created_at_ms t1_ns t2_ns tw_core_ns t3_ns t3r_ns
    writer_dispatch_ts gw_exec_dequeue_ns : Z) t : LatencyTracker :=
  if (lt_max_pending t <=? size (lt_pending t))%nat then t
  else
    t <| lt_pending ::= <[order_id :=
           mkTimestampRecord order_id (wrap_i64 (order_created_at_ms * 1000000)) t1_ns t2_ns
             tw_core_ns t3_ns t3r_ns 0 0 0 0 writer_dispatch_ts gw_exec_dequeue_ns]> |>.

Definition record_report_published (order_id t4_ns t5_ns t6_ns t7_ns : Z) t : LatencyTracker :=
  match lt_pending t !! order_id with
  | None => t
  | Some rec =>
      let t := t <| lt_pending ::= delete order_id |> in
      let rec := rec <| tsr_t4_ns := t4_ns |> <| tsr_t5_ns := t5_ns |> <| tsr_t6_ns := t6_ns |>
                     <| tsr_t7_ns := t7_ns |> in
      let t := if (lt_max_complete t <=? length (lt_complete t))%nat
               then t <| lt_complete ::= tail |> else t in
      t <| lt_complete ::= λ q, q ++ [rec] |>
  end.

Definition drain_complete t : list TimestampRecord * LatencyTracker :=
  (lt_complete t, t <| lt_complete := [] |>).

(** One event of [drain_latency_events] ([oms_actor.rs]). *)
Definition on_event t (e : LatencyEvent) : LatencyTracker :=
  match e with
  | OrderSent order_id created t1 t2 tw t3 t3r dispatch dequeue =>
      record_order_sent order_id created t1 t2 tw t3 t3r dispatch dequeue t
  | ReportPublished order_id t4 t5 t6 t7 => record_report_published order_id t4 t5 t6 t7 t
  end.
Definition drain_latency_events (events : list LatencyEvent) t : LatencyTracker :=
  foldl on_event t events.
End LatencyTracker.

(** [publish_latency_batch]: the message it publishes. *)
Definition latency_metric (oms_id : string) (r : TimestampRecord) : LatencyMetric :=
  mkLatencyMetric
    (list_to_map [("t0", tsr_t0_ns r); ("t1", tsr_t1_ns r); ("t2", tsr_t2_ns r);
       ("tw_core", tsr_tw_core_ns r); ("t3", tsr_t3_ns r); ("t3r", tsr_t3r_ns r);
       ("t4", tsr_t4_ns r); ("t5", tsr_t5_ns r); ("t6", tsr_t6_ns r); ("t7", tsr_t7_ns r);
       ("tw_dispatch", tsr_writer_dispatch_ts r); ("t_gw_dequeue", tsr_gw_exec_dequeue_ns r)])
    (tsr_order_id r) oms_id.
Definition latency_batch (oms_id : string) (records : list TimestampRecord) (publish_ts_ns : Z)
    : LatencyMetricBatch :=
  mkLatencyMetricBatch (latency_metric oms_id <$> records) oms_id publish_ts_ns.

(** ** Bounds *)

Definition tracker_bounded (t : LatencyTracker) : Prop :=
  (size (lt_pending t) ≤ lt_max_pending t)%nat ∧
  (length (lt_complete t) ≤ 1 `max` lt_max_complete t)%nat.

Lemma on_event_bounded t e : tracker_bounded t → tracker_bounded (LatencyTracker.on_event t e).
Proof.
  intros [Hp Hc]. destruct e as [oid created t1 t2 tw t3 t3r dis deq|oid t4 t5 t6 t7]; simpl.
  - unfold LatencyTracker.record_order_sent. destruct (Nat.leb_spec (lt_max_pending t) (size (lt_pending t))).
    + by split.
    + split; [simpl|done]. rewrite map_size_insert. destruct (lt_pending t !! oid); simpl; lia.
  - unfold LatencyTracker.record_report_published. destruct (lt_pending t !! oid) as [rec|] eqn:Hl; [|by split].
    simpl. split; destruct (Nat.leb_spec (lt_max_complete t) (length (lt_complete t))) as [Hfull|Hroom]; simpl;
      rewrite ?map_size_delete, ?Hl, ?length_app; simpl; try lia.
    destruct (lt_complete t); simpl in *; lia.
Qed.

Lemma on_event_limits t e :
  lt_max_pending (LatencyTracker.on_event t e) = lt_max_pending t ∧
  lt_max_complete (LatencyTracker.on_event t e) = lt_max_complete t.
Proof.
  destruct e; simpl;
    [unfold LatencyTracker.record_order_sent|unfold LatencyTracker.record_report_published];
    by repeat case_match.
Qed.

(** A tracker whose pending map is full with orders that get no report never
    records another order. *)
Lemma full_tracker_stuck t events :
  (lt_max_pending t ≤ size (lt_pending t))%nat →
  (∀ e, e ∈ events → match e with ReportPublished oid _ _ _ _ => lt_pending t !! oid = None | _ => True end) →
  LatencyTracker.drain_latency_events events t = t.
Proof.
  intros Hfull. unfold LatencyTracker.drain_latency_events.
  induction events as [|e events IH]; intros Hev; [done|]. simpl.
  assert (LatencyTracker.on_event t e = t) as ->.
  { specialize (Hev e ltac:(by left)). destruct e; simpl.
    - unfold LatencyTracker.record_order_sent. by rewrite (proj2 (Nat.leb_le _ _) Hfull).
    - unfold LatencyTracker.record_report_published. by rewrite Hev. }
  apply IH. intros e' He'. apply Hev. by right.
Qed.

(** C40: whatever the workers report, the tracker holds at most its maximum of
    pending orders, and at most its maximum (or one) of completed records. *)
Theorem tracker_stays_bounded max_pending max_complete events :
  let t := LatencyTracker.drain_latency_events events (LatencyTracker.new max_pending max_complete) in
  (size (lt_pending t) ≤ max_pending)%nat ∧ (length (lt_complete t) ≤ 1 `max` max_complete)%nat.
Proof.
  cbv zeta.
  destruct (foldl_inv (λ t, lt_max_pending t = max_pending ∧ lt_max_complete t = max_complete ∧
    tracker_bounded t) LatencyTracker.on_event events (LatencyTracker.new max_pending max_complete))
    as (Hp & Hc & Hb).
  - split; [done|]. split; [done|]. split; simpl; [rewrite map_size_empty|]; lia.
  - intros t e _ (Hp & Hc & Hb). destruct (on_event_limits t e) as [-> ->].
    split; [done|]. split; [done|]. by apply on_event_bounded.
  - unfold tracker_bounded in Hb. by rewrite Hp, Hc in Hb.
Qed.
