(* ===== verification/OmsExec.v ===== *)
(** * The executors of the OMS service

    [zk-oms-svc/src/gw_executor.rs], [publish_executor.rs],
    [recorder_executor.rs], the OMS commands and replies, and the recorder
    messages.  A gateway client is third-party code: its type is a parameter and
    what a call answers is given to the worker. *)

From S2P Require Import Prelude F64 Proto Models Config Channels OrderStore OmsCore Latency Persist.

(** ** Messages *)

(** [zk.oms.v1.OMSResponse] *)
Record OmsResponse : Set := mkOmsResponse {
  orsp_timestamp : Z;
  orsp_status : Z;
  orsp_error_type : Z;
  orsp_message : string;
}.
Definition OmsRespStatusSuccess : Z := 1.
Definition OmsRespStatusFail : Z := 2.
Definition OmsErrTypeUnspecified : Z := 0.
Definition OmsErrTypeInternalError : Z := 5.

Definition ok_response (now : Z) (msg : string) : OmsResponse :=
  mkOmsResponse now OmsRespStatusSuccess OmsErrTypeUnspecified msg.
Definition err_response (now error_type : Z) (msg : string) : OmsResponse :=
  mkOmsResponse now OmsRespStatusFail error_type msg.

(** [zk.recorder.v1.RecorderTerminalOrder] *)
Record RecorderTerminalOrder : Set := mkRecorderTerminalOrder {
  rto_order_id : Z;
  rto_account_id : Z;
  rto_oms_id : string;
  rto_gw_key : string;
  rto_source_id : string;
  rto_instrument_code : string;
  rto_instrument_exch : string;
  rto_side : Z;
  rto_open_close : Z;
  rto_order_type : Z;
  rto_order_status : Z;
  rto_price : f64;
  rto_qty : f64;
  rto_filled_qty : f64;
  rto_filled_avg_price : f64;
  rto_ext_order_ref : string;
  rto_error_msg : message;
  rto_terminal_at_ms : Z;
  rto_created_at_ms : Z;
  rto_trades : list Trade;
  rto_inferred_trades : list Trade;
  rto_fees : list Fee;
}.

(** [zk.recorder.v1.RecorderTradeEvent] *)
Record RecorderTradeEvent : Set := mkRecorderTradeEvent {
  rte_order_id : Z;
  rte_account_id : Z;
  rte_oms_id : string;
  rte_gw_key : string;
  rte_source_id : string;
  rte_instrument_code : string;
  rte_instrument_exch : string;
  rte_side : Z;
  rte_open_close : Z;
  rte_ext_order_ref : string;
  rte_ext_trade_id : string;
  rte_filled_qty : f64;
  rte_filled_price : f64;
  rte_filled_ts_ms : Z;
  rte_fill_type : Z;
  rte_fees : list Fee;
  rte_is_inferred : bool;
}.

(** ** Commands of the writer task; a reply channel is known by its identity *)

Inductive OmsCommand : Type :=
| CmdPlaceOrder (req : OrderRequest) (oms_received_ns : Z) (reply : Z)
| CmdBatchPlaceOrders (reqs : list OrderRequest) (reply : Z)
| CmdCancelOrder (req : OrderCancelRequest) (reply : Z)
| CmdBatchCancelOrders (reqs : list OrderCancelRequest) (reply : Z)
| CmdGatewayOrderReport (report : OrderReport)
| CmdGatewayBalanceUpdate (update : BalanceUpdate)
| CmdPanic (account_id : Z) (reply : Z)
| CmdDontPanic (account_id : Z) (reply : Z)
| CmdReloadConfig (new_config : ConfdataManager) (reply : Z)
| CmdCleanup (ts_ms : Z)
| CmdRecheckOrder (req : OrderRecheckRequest)
| CmdRecheckCancel (req : CancelRecheckRequest)
| CmdPositionRecheck
| CmdOrderReconcile
| CmdGatewayDiscovered (gw_key : string) (gw_id : Z) (addr : string)
| CmdGatewayRemoved (gw_key : string) (gw_id : Z)
| CmdGatewaySendFailed (order_id gw_id : Z) (error_msg : string)
| CmdGatewayCancelSendFailed (order_id gw_id : Z) (error_msg : string).

(** ** [gw_executor.rs] *)

Record GwSendLatency : Set := mkGwSendLatency {
  gsl_order_id : Z;
  gsl_order_created_at : Z;
  gsl_t1_ns : Z;
  gsl_t2_ns : Z;
  gsl_tw_core_ns : Z;
  gsl_writer_dispatch_ts : Z;
}.

Inductive GwAction : Set :=
| GwSendOrder (gw_key : string) (request : SendOrderRequest) (order_id gw_id : Z)
    (latency : option GwSendLatency)
| GwBatchSendOrders (gw_key : string) (request : list SendOrderRequest) (order_ids : list Z) (gw_id : Z)
| GwCancelOrder (gw_key : string) (request : CancelOrderRequest) (order_id gw_id : Z)
| GwBatchCancel (gw_key : string) (request : list CancelOrderRequest) (order_ids : list Z) (gw_id : Z).

(** The orders an action is about. *)
Definition gw_action_orders (a : GwAction) : list Z :=
  match a with
  | GwSendOrder _ _ order_id _ _ => [order_id]
  | GwBatchSendOrders _ _ order_ids _ => order_ids
  | GwCancelOrder _ _ order_id _ => [order_id]
  | GwBatchCancel _ _ order_ids _ => order_ids
  end.
Definition gw_action_gw (a : GwAction) : Z :=
  match a with
  | GwSendOrder _ _ _ gw_id _ => gw_id
  | GwBatchSendOrders _ _ _ gw_id => gw_id
  | GwCancelOrder _ _ _ gw_id => gw_id
  | GwBatchCancel _ _ _ gw_id => gw_id
  end.

Section gw_executor.
Context {Client : Type}.

Record GwExecutorPool : Type := mkGwExecutorPool {
  ge_shards : list (channel GwAction);
  ge_shard_count : nat;
  ge_queue_capacity : nat;
  ge_clients : gmap Z (string * Client);
}.
#[global] Instance eta_GwExecutorPool : Eta GwExecutorPool := λ r,
  mkGwExecutorPool (ge_shards r) (ge_shard_count r) (ge_queue_capacity r) (ge_clients r).
End gw_executor.
Arguments GwExecutorPool : clear implicits.

Module GwExecutorPool.
Section pool.
Context {Client : Type}.
Implicit Types (p : GwExecutorPool Client).

(** [get] is the client pool's [get_client]. *)
Definition new (shard_count queue_capacity : nat) (gw_id_to_key : list (Z * string))
    (get : string → option Client) : outcome (GwExecutorPool Client) :=
  let clients := foldl (λ m '(gw_id, gw_key),
    match get gw_key with Some client => <[gw_id := (gw_key, client)]> m | None => m end)
    ∅ gw_id_to_key in
  shards ← new_shards shard_count queue_capacity;
  mret (mkGwExecutorPool shards shard_count queue_capacity clients).

Definition register_gateway (gw_id : Z) (gw_key : string) (client : Client) p
    : GwExecutorPool Client :=
  p <| ge_clients ::= <[gw_id := (gw_key, client)]> |>.
Definition remove_gateway (gw_id : Z) p : GwExecutorPool Client :=
  p <| ge_clients ::= delete gw_id |>.

Definition dispatch (order_id : Z) (action : GwAction) p
    : outcome (result unit GwAction * GwExecutorPool Client) :=
  '(r, shards) ← shard_dispatch (ge_shard_count p) (ge_queue_capacity p) order_id action (ge_shards p);
  mret (r, p <| ge_shards := shards |>).

Definition get_client (gw_id : Z) p : option Client := snd <$> ge_clients p !! gw_id.
End pool.

(** The failure fed back for one order of an action. *)
Definition failed_command (a : GwAction) (error_msg : string) (order_id : Z) : OmsCommand :=
  match a with
  | GwSendOrder _ _ _ gw_id _ => CmdGatewaySendFailed order_id gw_id error_msg
  | GwBatchSendOrders _ _ _ gw_id => CmdGatewaySendFailed order_id gw_id error_msg
  | GwCancelOrder _ _ _ gw_id => CmdGatewayCancelSendFailed order_id gw_id error_msg
  | GwBatchCancel _ _ _ gw_id => CmdGatewayCancelSendFailed order_id gw_id error_msg
  end.

(** [let _ = cmd_tx.try_send(..)]: a full channel loses the command. *)
Definition feed_back {A} (capacity : nat) (tx : channel A) (x : A) : channel A :=
  (try_send capacity x tx).2.

(** A worker handles an action: [client] is the client found, [answer] what the
    call returned, the three times are read around it.  The command and the
    latency channel are fed back to. *)
Definition handle_action (a : GwAction) (client : bool) (answer : result unit string)
    (dequeue_ns t3_ns t3r_ns : Z) (cmd_capacity latency_capacity : nat)
    (cmd_tx : channel OmsCommand) (latency_tx : channel LatencyEvent)
    : channel OmsCommand * channel LatencyEvent :=
  if negb client then
    (foldl (feed_back cmd_capacity) cmd_tx
       (failed_command a ("no gateway client for gw_id=" +:+ display_i64 (gw_action_gw a))
          <$> gw_action_orders a),
     latency_tx)
  else
    let cmd_tx :=
      match answer with
      | Err e => foldl (feed_back cmd_capacity) cmd_tx (failed_command a e <$> gw_action_orders a)
      | Ok _ => cmd_tx
      end in
    let latency_tx :=
      match a with
      | GwSendOrder _ _ _ _ (Some lat) =>
          feed_back latency_capacity latency_tx
            (OrderSent (gsl_order_id lat) (gsl_order_created_at lat) (gsl_t1_ns lat) (gsl_t2_ns lat)
               (gsl_tw_core_ns lat) t3_ns t3r_ns (gsl_writer_dispatch_ts lat) dequeue_ns)
      | _ => latency_tx
      end in
    (cmd_tx, latency_tx).
End GwExecutorPool.

(** ** [publish_executor.rs] *)

Record ReportLatencyCtx : Set := mkReportLatencyCtx {
  rlc_order_id : Z;
  rlc_t4_ns : Z;
  rlc_t5_ns : Z;
  rlc_t6_ns : Z;
}.

Inductive PublishAction : Set :=
| PubOrderUpdate (event : OrderUpdateEvent) (latency_ctx : option ReportLatencyCtx)
| PubBalance (event : BalanceUpdateEvent)
| PubPosition (event : PositionUpdateEvent).

Definition PublishExecutorPool : Type := ShardedPool Z PublishAction.

Module PublishExecutorPool.
(** A full queue drops the action. *)
Definition dispatch (shard_key : Z) (action : PublishAction) (p : PublishExecutorPool)
    : outcome PublishExecutorPool :=
  '(_, p) ← ShardedPool.try_dispatch shard_key action p; mret p.

(** The latency event a worker feeds back after publishing. *)
Definition latency_event (t7_ns : Z) (action : PublishAction) : option LatencyEvent :=
  match action with
  | PubOrderUpdate _ (Some ctx) =>
      Some (ReportPublished (rlc_order_id ctx) (rlc_t4_ns ctx) (rlc_t5_ns ctx) (rlc_t6_ns ctx) t7_ns)
  | _ => None
  end.
End PublishExecutorPool.

(** ** [recorder_executor.rs] *)

Inductive RecorderAction : Set :=
| RecTerminalOrder (event : RecorderTerminalOrder)
| RecTrade (event : RecorderTradeEvent).

Definition RecorderExecutorPool : Type := ShardedPool Z RecorderAction.

Module RecorderExecutorPool.
Definition dispatch (account_id : Z) (action : RecorderAction) (p : RecorderExecutorPool)
    : outcome RecorderExecutorPool :=
  '(_, p) ← ShardedPool.try_dispatch account_id action p; mret p.
End RecorderExecutorPool.
