(* ===== verification/OmsActor.v ===== *)
(** * The OMS writer task ([zk-oms-svc/src/oms_actor.rs])

    The single writer owns the core, the snapshot writer and the executor pools,
    and handles one command at a time: it drives the core, turns the emitted
    actions into dispatches, publishes a snapshot and replies.

    [now t k] is the clock: every read of it and every core message takes the
    next [t] ([a_tick]); [k] is the call site inside a core message.  Gateway
    answers are arguments of the operations that query a gateway. *)

From S2P Require Import Prelude F64 Proto Intern Models Config Metadata Utils Text Position Balance.
From S2P Require Import OrderStore OmsCore Channels Reconcile SnapshotV2 Persist Latency OmsExec.

(** ** Normalisation of gateway answers *)

Definition exch_account_code_for_gw `{!HashIter Z} (confdata : ConfdataManager) (gw_key : string)
    : option string :=
  account_ids ← cf_gw_key_to_account_ids confdata !! gw_key;
  route ← head (omap (λ account_id, cf_account_routes confdata !! account_id) (set_iter account_ids));
  Some (rt_exch_account_id route).

Definition normalize_gw_balance_update_for_oms `{!HashIter Z} (confdata : ConfdataManager)
    (gw_key : string) (update : BalanceUpdate) : BalanceUpdate :=
  let fallback := default "" (exch_account_code_for_gw confdata gw_key) in
  mkBalanceUpdate ((λ balance,
    if trim_is_empty (pr_exch_account_code balance)
    then balance <| pr_exch_account_code := fallback |> else balance) <$> bu_balances update).

(** The same text as the gateway's [infer_instrument_type]. *)
Definition infer_gateway_instrument_type (instrument_code : string) : Z :=
  if contains "SWAP" instrument_code then InstTypePerp
  else if contains "FUTURES" instrument_code || (2 <=? count_byte 0x2D instrument_code)%nat
  then InstTypeFuture
  else if (1 <=? count_byte 0x5F instrument_code)%nat then InstTypeCfd
  else InstTypeSpot.

Definition position_response_to_balance_update_for_oms `{!HashIter Z} (confdata : ConfdataManager)
    (gw_key : string) (positions : list Position) : BalanceUpdate :=
  let fallback := default "" (exch_account_code_for_gw confdata gw_key) in
  mkBalanceUpdate ((λ p,
    default_PositionReport <| pr_instrument_code := pos_instrument_code p |>
      <| pr_instrument_type := if negb (pos_instrument_type p =? 0) then pos_instrument_type p
                               else infer_gateway_instrument_type (pos_instrument_code p) |>
      <| pr_long_short_type := pos_long_short_type p |> <| pr_qty := pos_total_qty p |>
      <| pr_avail_qty := pos_avail_qty p |>
      <| pr_exch_account_code :=
           default fallback (rt_exch_account_id <$> cf_account_routes confdata !! pos_account_id p) |>)
    <$> positions).

(** ** Builders *)

Section builders.
Context `{!HashIter Z, !HashIter string, !HashIter (Z * Z), !HashIter (Z * string)}.
Implicit Types (core : OmsCoreV2) (live : LiveOrder).

Definition exch_ref_string live (dyn : DynStringTable) : outcome (option string) :=
  match lo_exch_order_ref_id live with
  | Some id => s ← DynStringTable.resolve dyn id; mret (Some s)
  | None => mret None
  end.

Definition build_snapshot_order_from_live live (dyn : DynStringTable) : outcome SnapshotOrder :=
  exch_order_ref ← exch_ref_string live dyn;
  mret {| so_order_id := lo_order_id live;
          so_account_id := lo_account_id live;
          so_instrument_id := lo_instrument_id live;
          so_gw_id := lo_gw_id live;
          so_source_sym := lo_source_sym live;
          so_order_status := lo_order_status live;
          so_buy_sell_type := lo_buy_sell_type live;
          so_open_close_type := lo_open_close_type live;
          so_order_type := lo_order_type live;
          so_tif_type := lo_tif_type live;
          so_price := lo_price live;
          so_qty := lo_qty live;
          so_filled_qty := lo_filled_qty live;
          so_filled_avg_price := lo_filled_avg_price live;
          so_exch_order_ref := exch_order_ref;
          so_created_at := lo_created_at live;
          so_updated_at := lo_updated_at live;
          so_snapshot_version := lo_snapshot_version live;
          so_is_external := lo_is_external live |}.

Definition build_snapshot_detail_from_core (order_id : Z) live (detail : OrderDetailLog)
    (md : MetadataTables) (dyn : DynStringTable) : outcome SnapshotOrderDetail :=
  exch_order_ref ← exch_ref_string live dyn;
  mret {| sd_order_id := order_id;
          sd_source_sym := lo_source_sym live;
          sd_instrument_exch_sym :=
            default 0 (im_instrument_exch_sym <$> MetadataTables.instrument (lo_instrument_id live) md);
          sd_exch_order_ref := exch_order_ref;
          sd_error_msg := lo_error_msg live;
          sd_trades := dl_trades detail;
          sd_inferred_trades := dl_inferred_trades detail;
          sd_exec_msgs := dl_exec_msgs detail;
          sd_fees := dl_fees detail |}.

(** The record has the fields of the core's [build_v1_order]. *)
Definition build_persisted_order core (order_id : Z) : outcome (option OmsOrder) :=
  match OrderStoreV2.get_live order_id (c_orders core) with
  | None => mret None
  | Some _ => order ← OmsCoreV2.build_v1_order order_id core; mret (Some order)
  end.

Definition build_persist_balance core (account_id asset_id : Z) : outcome (option PersistAction) :=
  asset_name ← OmsCoreV2.resolve_asset_name asset_id core;
  mret (PersistBalanceAction account_id asset_name <$>
          BalanceStoreV2.get_balance account_id asset_id (c_balances core)).

Definition build_persist_position core (account_id instrument_id : Z) : outcome (option PersistAction) :=
  inst_code ← OmsCoreV2.resolve_instrument_code instrument_id core;
  mret ((λ pos, PersistPositionAction account_id inst_code
           (if mp_is_short pos then "SHORT" else "LONG") (OmsCoreV2.v1_position inst_code pos)) <$>
        PositionStoreV2.get_position account_id instrument_id (c_positions core)).

(** Names the recorder messages share: gateway key, instrument codes. *)
Definition recorder_names core live : outcome (string * string * string * string) :=
  gw_key ← OmsCoreV2.resolve_gw_key (lo_gw_id live) core;
  code ← OmsCoreV2.instrument_code (lo_instrument_id live) core;
  exch ← match MetadataTables.instrument (lo_instrument_id live) (c_metadata core) with
         | Some i => MetadataTables.str_resolve (im_instrument_exch_sym i) (c_metadata core)
         | None => mret ""
         end;
  ref ← exch_ref_string live (os_dyn_strings (c_orders core));
  mret (default "" gw_key, code, exch, default "" ref).

Definition build_recorder_terminal_order core (order_id : Z) (oms_id : string)
    : outcome (option RecorderTerminalOrder) :=
  match OrderStoreV2.get_live order_id (c_orders core) with
  | None => mret None
  | Some live =>
      let detail := OrderStoreV2.get_detail order_id (c_orders core) in
      '(gw_key, code, exch, ref) ← recorder_names core live;
      mret (Some
        {| rto_order_id := lo_order_id live;
           rto_account_id := lo_account_id live;
           rto_oms_id := oms_id;
           rto_gw_key := gw_key;
           rto_source_id := OmsCoreV2.source_id live core;
           rto_instrument_code := code;
           rto_instrument_exch := exch;
           rto_side := lo_buy_sell_type live;
           rto_open_close := lo_open_close_type live;
           rto_order_type := lo_order_type live;
           rto_order_status := lo_order_status live;
           rto_price := lo_price live;
           rto_qty := lo_qty live;
           rto_filled_qty := lo_filled_qty live;
           rto_filled_avg_price := lo_filled_avg_price live;
           rto_ext_order_ref := ref;
           rto_error_msg := lo_error_msg live;
           rto_terminal_at_ms := default (lo_updated_at live) (lo_terminal_at live);
           rto_created_at_ms := lo_created_at live;
           rto_trades := default [] (dl_trades <$> detail);
           rto_inferred_trades := default [] (dl_inferred_trades <$> detail);
           rto_fees := default [] (dl_fees <$> detail) |})
  end.

Definition should_record_trade (is_inferred : bool) : bool := negb is_inferred.

Definition build_recorder_trade_event core (order_id : Z) (oms_id : string) (trade : Trade)
    (is_inferred : bool) : outcome (option RecorderTradeEvent) :=
  match OrderStoreV2.get_live order_id (c_orders core) with
  | None => mret None
  | Some live =>
      '(gw_key, code, exch, ref) ← recorder_names core live;
      mret (Some
        {| rte_order_id := lo_order_id live;
           rte_account_id := lo_account_id live;
           rte_oms_id := oms_id;
           rte_gw_key := gw_key;
           rte_source_id := OmsCoreV2.source_id live core;
           rte_instrument_code := code;
           rte_instrument_exch := exch;
           rte_side := lo_buy_sell_type live;
           rte_open_close := lo_open_close_type live;
           rte_ext_order_ref := ref;
           rte_ext_trade_id := tr_ext_trade_id trade;
           rte_filled_qty := tr_filled_qty trade;
           rte_filled_price := tr_filled_price trade;
           rte_filled_ts_ms := tr_filled_ts trade;
           rte_fill_type := tr_fill_type trade;
           rte_fees := tr_fees trade;
           rte_is_inferred := is_inferred |})
  end.

(** ** Snapshot maps *)

Definition snapshot_position (pos : ManagedPositionV2) : SnapshotManagedPosition :=
  mkSnapshotManagedPosition (mp_account_id pos) (mp_instrument_id pos) (mp_instrument_type pos)
    (mp_is_short pos) (mp_qty_total pos) (mp_qty_frozen pos) (mp_qty_available pos)
    (mp_last_local_update_ts pos) (mp_last_exch_sync_ts pos) (mp_reconcile_status pos).

Definition build_managed_positions core : gmap (Z * Z) SnapshotManagedPosition :=
  foldl (λ m '(_, pos), <[(mp_account_id pos, mp_instrument_id pos) := snapshot_position pos]> m) ∅
    (hash_iter (managed (c_positions core))).

Definition build_exch_positions core
    : gmap (Z * Z) ExchPositionSnapshot * list ExchPositionSnapshot :=
  foldl (λ '(resolved, unknown) '(_, snap),
      match MetadataTables.resolve_instrument (eps_instrument_code snap) (c_metadata core) with
      | Some inst => (<[(eps_account_id snap, im_instrument_id inst) := snap]> resolved, unknown)
      | None => (resolved, unknown ++ [snap])
      end) (∅, []) (hash_iter (exch (c_positions core))).

Definition build_exch_balances core
    : gmap (Z * Z) ExchBalanceSnapshot * list ExchBalanceSnapshot :=
  foldl (λ '(resolved, unknown) '(_, snap),
      match OmsCoreV2.lookup_asset (ebs_asset snap) core with
      | Some id => (<[(ebs_account_id snap, id) := snap]> resolved, unknown)
      | None => (resolved, unknown ++ [snap])
      end)
    (∅, (hash_iter (unknown_exch_balances (c_balances core))).*2)
    (hash_iter (exch_balances (c_balances core))).
End builders.

(** ** The writer's state

    [a_replies], [a_redis] and [a_gw_accepted] are histories: the replies sent,
    the commands sent to Redis, and the actions the gateway executor accepted. *)

Section state.
Context {Client : Type}.

Record OmsActor : Type := mkOmsActor {
  a_core : OmsCoreV2;
  a_writer : OmsSnapshotWriterV2;
  a_replica : OmsSnapshotV2;
  a_gw_pool : gmap string Client;
  a_gw_executor : GwExecutorPool Client;
  a_persist : PersistExecutorPool;
  a_publish : PublishExecutorPool;
  a_recorder : RecorderExecutorPool;
  a_replies : list (Z * OmsResponse);
  a_redis : list RedisCmd;
  a_gw_accepted : list GwAction;
  a_tick : nat;
}.
#[global] Instance eta_OmsActor : Eta OmsActor := λ r,
  mkOmsActor (a_core r) (a_writer r) (a_replica r) (a_gw_pool r) (a_gw_executor r) (a_persist r) (a_publish r)
    (a_recorder r) (a_replies r) (a_redis r) (a_gw_accepted r) (a_tick r).
End state.
Arguments OmsActor : clear implicits.

Module OmsActor.
Section actor.
Context {Client : Type}.
Context `{!Uppercase, !HashIter Z, !HashIter string, !HashIter (Z * Z), !HashIter (Z * string)}.
Context (now : nat → nat → Z) (oms_id : string).
Implicit Types (a : OmsActor Client).

(** A read of the clock. *)
Definition read_clock a : Z * OmsActor Client := (now (a_tick a) 0, a <| a_tick ::= S |>).

(** [core.process_message] *)
Definition core_message (msg : OmsMessage) a : outcome (list OmsActionV2 * OmsActor Client) :=
  '(actions, core) ← OmsCoreV2.process_message (now (a_tick a)) msg (a_core a);
  mret (actions, a <| a_core := core |> <| a_tick ::= S |>).

Definition persist_dispatch (pa : PersistAction) a : outcome (OmsActor Client) :=
  p ← PersistExecutorPool.try_dispatch pa (a_persist a); mret (a <| a_persist := p |>).
Definition publish_dispatch (key : Z) (pa : PublishAction) a : outcome (OmsActor Client) :=
  p ← PublishExecutorPool.dispatch key pa (a_publish a); mret (a <| a_publish := p |>).
Definition recorder_dispatch (account_id : Z) (ra : RecorderAction) a : outcome (OmsActor Client) :=
  p ← RecorderExecutorPool.dispatch account_id ra (a_recorder a); mret (a <| a_recorder := p |>).

(** *** Handling of single actions *)

(** The snapshot part of [PersistOrder]: the order, then its details. *)
Definition snapshot_order (order_id : Z) (set_closed : bool) a : outcome (OmsActor Client) :=
  let core := a_core a in
  match OrderStoreV2.get_live order_id (c_orders core) with
  | None => mret a
  | Some live =>
      snap_order ← build_snapshot_order_from_live live (os_dyn_strings (c_orders core));
      let a := a <| a_writer ::= OmsSnapshotWriterV2.apply_order_update snap_order set_closed |> in
      match OrderStoreV2.get_detail order_id (c_orders core) with
      | None => mret a
      | Some detail =>
          snap_detail ← build_snapshot_detail_from_core order_id live detail (c_metadata core)
                          (os_dyn_strings (c_orders core));
          mret (a <| a_writer ::= OmsSnapshotWriterV2.apply_order_detail snap_detail |>)
      end
  end.

(** [PersistOrder]: the snapshot always; Redis and the recorder where the call
    site does them. *)
Definition on_persist_order (to_redis to_recorder : bool) (order_id : Z)
    (set_expire set_closed : bool) a : outcome (OmsActor Client) :=
  a ← snapshot_order order_id set_closed a;
  a ← (if to_redis then
         persisted ← build_persisted_order (a_core a) order_id;
         match persisted with
         | Some order => persist_dispatch (PersistOrderAction order set_expire set_closed) a
         | None => mret a
         end
       else mret a);
  if to_recorder && set_closed then
    event ← build_recorder_terminal_order (a_core a) order_id oms_id;
    match event with
    | Some event => recorder_dispatch (rto_account_id event) (RecTerminalOrder event) a
    | None => mret a
    end
  else mret a.

Definition record_trade (order_id : Z) (trade : option Trade) (is_inferred : bool) a
    : outcome (OmsActor Client) :=
  match trade with
  | None => mret a
  | Some trade =>
      rec ← build_recorder_trade_event (a_core a) order_id oms_id trade is_inferred;
      match rec with
      | Some rec => recorder_dispatch (rte_account_id rec) (RecTrade rec) a
      | None => mret a
      end
  end.

Definition on_publish_order (to_recorder : bool) (latency_ctx : option ReportLatencyCtx)
    (order_id : Z) (last_trade last_fee exec_message inferred_trade : bool) a
    : outcome (OmsActor Client) :=
  let '(ts, a) := read_clock a in
  event ← OmsCoreV2.build_order_update_event ts order_id last_trade last_fee exec_message
            inferred_trade (a_core a);
  match event with
  | None => mret a
  | Some event =>
      a ← (if to_recorder && last_trade then record_trade order_id (oue_last_trade event) false a
           else mret a);
      a ← (if to_recorder && inferred_trade && should_record_trade true
           then record_trade order_id (oue_order_inferred_trade event) true a else mret a);
      publish_dispatch order_id (PubOrderUpdate event latency_ctx) a
  end.

Definition on_persist_balance (account_id asset_id : Z) a : outcome (OmsActor Client) :=
  pa ← build_persist_balance (a_core a) account_id asset_id;
  match pa with Some pa => persist_dispatch pa a | None => mret a end.
Definition on_persist_position (account_id instrument_id : Z) a : outcome (OmsActor Client) :=
  pa ← build_persist_position (a_core a) account_id instrument_id;
  match pa with Some pa => persist_dispatch pa a | None => mret a end.

Definition on_publish_balance (account_id : Z) a : outcome (OmsActor Client) :=
  let '(ts, a) := read_clock a in
  publish_dispatch account_id (PubBalance (OmsCoreV2.build_balance_update_event ts account_id (a_core a))) a.
Definition on_publish_position (account_id : Z) a : outcome (OmsActor Client) :=
  let '(ts, a) := read_clock a in
  event ← OmsCoreV2.build_position_update_event ts account_id (a_core a);
  publish_dispatch account_id (PubPosition event) a.

(** *** Gateway dispatch *)

(** The loop variables of the action loop. *)
Record dispatch_acc : Type := mkDispatchAcc {
  da_actor : OmsActor Client;
  da_failures : list OmsActionV2;
  da_balances_dirty : bool;
  da_positions_dirty : bool;
}.
#[global] Instance eta_dispatch_acc : Eta dispatch_acc := λ r,
  mkDispatchAcc (da_actor r) (da_failures r) (da_balances_dirty r) (da_positions_dirty r).

Definition with_actor (d : dispatch_acc) (m : outcome (OmsActor Client)) : outcome dispatch_acc :=
  a ← m; mret (d <| da_actor := a |>).

(** Dispatch; when the queue is full, the failure of every order goes through
    the core at once and its actions are kept for later. *)
Definition gw_dispatch (route_id : Z) (action : GwAction) (failed : Z → OmsMessage)
    (order_ids : list Z) (d : dispatch_acc) : outcome dispatch_acc :=
  '(r, p) ← GwExecutorPool.dispatch route_id action (a_gw_executor (da_actor d));
  let d := d <| da_actor ::= λ a, a <| a_gw_executor := p |> |> in
  match r with
  | Ok _ => mret (d <| da_actor ::= λ a, a <| a_gw_accepted ::= λ l, l ++ [action] |> |>)
  | Err _ =>
      for_each (λ d order_id,
          '(actions, a) ← core_message (failed order_id) (da_actor d);
          mret (d <| da_actor := a |> <| da_failures ::= λ l, l ++ actions |>)) order_ids d
  end.

Definition queue_full : string := "dispatch queue full".

(** [by_shard[(oid as u64 % sc as u64) as usize].push(oid)] for every order. *)
Definition by_shard (sc : nat) (order_ids : list Z) : outcome (list (list Z)) :=
  for_each (λ groups oid,
      if (sc =? 0)%nat then Panics "attempt to calculate the remainder with a divisor of zero"
      else mret (alter (λ g, g ++ [oid]) (shard_index sc oid) groups))
    order_ids (replicate sc []).

(** The sub-batches, one per shard that has orders; [mk] reads the requests from
    the core as the sub-batches before left it. *)
Definition dispatch_groups (mk : OmsCoreV2 → list Z → GwAction) (failed : Z → OmsMessage)
    (groups : list (list Z)) (d : dispatch_acc) : outcome dispatch_acc :=
  for_each (λ d group,
      match group with
      | [] => mret d
      | route_id :: _ => gw_dispatch route_id (mk (a_core (da_actor d)) group) failed group d
      end) groups d.

Definition last_gw_req (core : OmsCoreV2) (order_id : Z) : option SendOrderRequest :=
  d ← OrderStoreV2.get_detail order_id (c_orders core); dl_last_gw_req d.
Definition cancel_req (core : OmsCoreV2) (order_id : Z) : option CancelOrderRequest :=
  d ← OrderStoreV2.get_detail order_id (c_orders core); dl_cancel_req d.

Definition send_failed (gw_id order_id : Z) : OmsMessage := GatewaySendFailed order_id gw_id queue_full.
Definition cancel_send_failed (gw_id order_id : Z) : OmsMessage :=
  GatewayCancelSendFailed order_id gw_id queue_full.

Definition send_order (t1 t2 tw_core gw_id order_id order_created_at : Z) (d : dispatch_acc)
    : outcome dispatch_acc :=
  gw_key ← OmsCoreV2.resolve_gw_key gw_id (a_core (da_actor d));
  let request := default default_SendOrderRequest (last_gw_req (a_core (da_actor d)) order_id) in
  let '(dispatch_ts, a) := read_clock (da_actor d) in
  let latency := mkGwSendLatency order_id order_created_at t1 t2 tw_core dispatch_ts in
  gw_dispatch order_id (GwSendOrder (default "" gw_key) request order_id gw_id (Some latency))
    (send_failed gw_id) [order_id] (d <| da_actor := a |>).

Definition batch_send_orders (gw_id : Z) (order_ids : list Z) (d : dispatch_acc) : outcome dispatch_acc :=
  gw_key ← OmsCoreV2.resolve_gw_key gw_id (a_core (da_actor d));
  groups ← by_shard (ge_shard_count (a_gw_executor (da_actor d))) order_ids;
  dispatch_groups (λ core group, GwBatchSendOrders (default "" gw_key) (omap (last_gw_req core) group) group gw_id)
    (send_failed gw_id) groups d.

Definition send_cancel (gw_id order_id : Z) (d : dispatch_acc) : outcome dispatch_acc :=
  gw_key ← OmsCoreV2.resolve_gw_key gw_id (a_core (da_actor d));
  let request := default default_CancelOrderRequest (cancel_req (a_core (da_actor d)) order_id) in
  gw_dispatch order_id (GwCancelOrder (default "" gw_key) request order_id gw_id)
    (cancel_send_failed gw_id) [order_id] d.

Definition batch_cancel (gw_id : Z) (order_ids : list Z) (d : dispatch_acc) : outcome dispatch_acc :=
  gw_key ← OmsCoreV2.resolve_gw_key gw_id (a_core (da_actor d));
  groups ← by_shard (ge_shard_count (a_gw_executor (da_actor d))) order_ids;
  dispatch_groups (λ core group, GwBatchCancel (default "" gw_key) (omap (cancel_req core) group) group gw_id)
    (cancel_send_failed gw_id) groups d.

(** *** One action *)

Definition on_action (t1 t2 tw_core : Z) (is_hot_path : bool) (latency_ctx : option ReportLatencyCtx)
    (d : dispatch_acc) (action : OmsActionV2) : outcome dispatch_acc :=
  let a := da_actor d in
  match action with
  | PersistOrder order_id set_expire set_closed =>
      with_actor d (on_persist_order (negb is_hot_path) true order_id set_expire set_closed a)
  | SendOrderToGw gw_id order_id order_created_at =>
      send_order t1 t2 tw_core gw_id order_id order_created_at d
  | BatchSendOrdersToGw gw_id order_ids => batch_send_orders gw_id order_ids d
  | SendCancelToGw gw_id order_id => send_cancel gw_id order_id d
  | BatchCancelToGw gw_id order_ids => batch_cancel gw_id order_ids d
  | PersistBalance account_id asset_id => with_actor d (on_persist_balance account_id asset_id a)
  | PersistPosition account_id instrument_id =>
      with_actor d (on_persist_position account_id instrument_id a)
  | PublishOrderUpdate order_id last_trade last_fee exec_message inferred_trade =>
      with_actor d (on_publish_order true latency_ctx order_id last_trade last_fee exec_message
                      inferred_trade a)
  | PublishBalanceUpdate account_id =>
      with_actor (d <| da_balances_dirty := true |>) (on_publish_balance account_id a)
  | PublishPositionUpdate account_id =>
      with_actor (d <| da_positions_dirty := true |>) (on_publish_position account_id a)
  end.

(** The actions of the failures met above; the others are skipped. *)
Definition on_failure_action (d : dispatch_acc) (action : OmsActionV2) : outcome dispatch_acc :=
  let a := da_actor d in
  match action with
  | PersistOrder order_id set_expire set_closed =>
      with_actor d (on_persist_order true true order_id set_expire set_closed a)
  | PublishOrderUpdate order_id last_trade last_fee exec_message inferred_trade =>
      with_actor d (on_publish_order true None order_id last_trade last_fee exec_message
                      inferred_trade a)
  | PersistBalance account_id asset_id => with_actor d (on_persist_balance account_id asset_id a)
  | PublishBalanceUpdate account_id =>
      with_actor (d <| da_balances_dirty := true |>) (on_publish_balance account_id a)
  | _ => mret d
  end.

Definition publish_snapshot (balances_dirty positions_dirty : bool) a : OmsActor Client :=
  let core := a_core a in
  let prev := a_replica a in
  let '(managed, exch_pos, unknown_pos) :=
    if positions_dirty then
      let '(resolved, unknown) := build_exch_positions core in
      (build_managed_positions core, resolved, unknown)
    else (sn_managed_positions prev, sn_exch_positions prev, sn_unknown_exch_positions prev) in
  let '(exch_bal, unknown_bal) :=
    if balances_dirty then build_exch_balances core
    else (sn_exch_balances prev, sn_unknown_exch_balances prev) in
  let '(ts, a) := read_clock a in
  let '(snap, writer) := OmsSnapshotWriterV2.publish managed exch_pos exch_bal unknown_pos unknown_bal
                           ts (a_writer a) in
  a <| a_writer := writer |> <| a_replica := snap |>.

Definition send_reply (reply : option Z) (success : bool) (err_msg : string) a : OmsActor Client :=
  match reply with
  | None => a
  | Some tx =>
      let '(ts, a) := read_clock a in
      let resp := if success then ok_response ts "" else err_response ts OmsErrTypeInternalError err_msg in
      a <| a_replies ::= λ l, l ++ [(tx, resp)] |>
  end.

(** *** [process_command] *)

Definition is_hot_path (cmd : OmsCommand) : bool :=
  match cmd with
  | CmdPlaceOrder _ _ _ | CmdBatchPlaceOrders _ _ | CmdCancelOrder _ _ | CmdBatchCancelOrders _ _ => true
  | _ => false
  end.

Definition place_order_t1 (cmd : OmsCommand) : Z :=
  match cmd with CmdPlaceOrder _ oms_received_ns _ => oms_received_ns | _ => 0 end.

Definition report_latency_ctx (cmd : OmsCommand) a : option ReportLatencyCtx * OmsActor Client :=
  match cmd with
  | CmdGatewayOrderReport r =>
      let '(t6, a) := read_clock a in
      (Some (mkReportLatencyCtx (rep_order_id r) (rep_gw_received_at_ns r)
               (wrap_i64 (rep_update_timestamp r * 1000000)) t6), a)
  | _ => (None, a)
  end.

(** The core message of a command and its reply channel; [None] for the commands
    that do not go through the core. *)
Definition command_message (cmd : OmsCommand) : option (OmsMessage * option Z) :=
  match cmd with
  | CmdPlaceOrder req _ reply => Some (PlaceOrder req, Some reply)
  | CmdBatchPlaceOrders reqs reply => Some (BatchPlaceOrders reqs, Some reply)
  | CmdCancelOrder req reply => Some (CancelOrder req, Some reply)
  | CmdBatchCancelOrders reqs reply => Some (BatchCancelOrders reqs, Some reply)
  | CmdGatewayOrderReport r => Some (GatewayOrderReport r, None)
  | CmdGatewayBalanceUpdate u => Some (BalanceUpdateMsg u, None)
  | CmdPanic account_id reply => Some (Panic account_id, Some reply)
  | CmdDontPanic account_id reply => Some (DontPanic account_id, Some reply)
  | CmdCleanup ts_ms => Some (Cleanup ts_ms, None)
  | CmdRecheckOrder r => Some (RecheckOrder r, None)
  | CmdRecheckCancel r => Some (RecheckCancel r, None)
  | CmdPositionRecheck => Some (PositionRecheck, None)
  | CmdGatewaySendFailed order_id gw_id msg => Some (GatewaySendFailed order_id gw_id msg, None)
  | CmdGatewayCancelSendFailed order_id gw_id msg => Some (GatewayCancelSendFailed order_id gw_id msg, None)
  | CmdReloadConfig _ _ | CmdOrderReconcile | CmdGatewayDiscovered _ _ _ | CmdGatewayRemoved _ _ => None
  end.

(** The panic set of the snapshot is set before the core sees the command. *)
Definition apply_panic_command (cmd : OmsCommand) a : OmsActor Client :=
  match cmd with
  | CmdPanic account_id _ => a <| a_writer ::= OmsSnapshotWriterV2.apply_panic account_id |>
  | CmdDontPanic account_id _ => a <| a_writer ::= OmsSnapshotWriterV2.apply_clear_panic account_id |>
  | _ => a
  end.

Definition reload_config (new_config : ConfdataManager) (reply : Z) a : outcome (OmsActor Client) :=
  core ← OmsCoreV2.reload_config new_config (a_core a);
  new_snap_meta ← build_snapshot_metadata core;
  let a := publish_snapshot true true
             (a <| a_core := core |> <| a_writer ::= OmsSnapshotWriterV2.update_metadata new_snap_meta |>) in
  let '(ts, a) := read_clock a in
  mret (a <| a_replies ::= λ l, l ++ [(reply, ok_response ts "Config reloaded")] |>).

(** The core message and everything after it. *)
Definition drive (cmd : OmsCommand) (t2 : Z) (ctx : option ReportLatencyCtx) (msg : OmsMessage)
    (reply : option Z) a : outcome (OmsActor Client) :=
  '(actions, a) ← core_message msg a;
  let '(tw_core, a) := read_clock a in
  d ← for_each (on_action (place_order_t1 cmd) t2 tw_core (is_hot_path cmd) ctx) actions
        (mkDispatchAcc a [] false false);
  d ← for_each on_failure_action (da_failures d) d;
  let a := publish_snapshot (da_balances_dirty d) (da_positions_dirty d) (da_actor d) in
  mret (send_reply reply true "" a).

Definition process_command (cmd : OmsCommand) a : outcome (OmsActor Client) :=
  let '(t2, a) := read_clock a in
  let '(ctx, a) := report_latency_ctx cmd a in
  match cmd, command_message cmd with
  | CmdReloadConfig new_config reply, _ => reload_config new_config reply a
  | _, Some (msg, reply) => drive cmd t2 ctx msg reply (apply_panic_command cmd a)
  | _, None => mret a
  end.

(** *** Direct writes to Redis *)

Definition redis_send (cmds : list RedisCmd) a : OmsActor Client := a <| a_redis ::= λ l, l ++ cmds |>.

Definition persist_order_to_redis (order_id : Z) a : outcome (OmsActor Client) :=
  persisted ← build_persisted_order (a_core a) order_id;
  match persisted with
  | None => mret a
  | Some order =>
      let is_terminal := default false (is_in_terminal_state <$>
                           OrderStoreV2.get_live order_id (c_orders (a_core a))) in
      mret (redis_send (RedisWriter.write_order oms_id order is_terminal is_terminal) a)
  end.

Definition persist_balance_to_redis (account_id asset_id : Z) a : outcome (OmsActor Client) :=
  asset_name ← OmsCoreV2.resolve_asset_name asset_id (a_core a);
  mret match BalanceStoreV2.get_balance account_id asset_id (c_balances (a_core a)) with
       | Some snap => redis_send (RedisWriter.write_balance oms_id account_id asset_name snap) a
       | None => a
       end.

Definition persist_position_to_redis (account_id instrument_id : Z) a : outcome (OmsActor Client) :=
  inst_code ← OmsCoreV2.resolve_instrument_code instrument_id (a_core a);
  mret match PositionStoreV2.get_position account_id instrument_id (c_positions (a_core a)) with
       | Some pos =>
           redis_send (RedisWriter.write_position oms_id account_id inst_code
             (if mp_is_short pos then "SHORT" else "LONG") (OmsCoreV2.v1_position inst_code pos)) a
       | None => a
       end.

Definition persist_balance_position_actions (actions : list OmsActionV2) a : outcome (OmsActor Client) :=
  for_each (λ a action,
      match action with
      | PersistBalance account_id asset_id => persist_balance_to_redis account_id asset_id a
      | PersistPosition account_id instrument_id => persist_position_to_redis account_id instrument_id a
      | _ => mret a
      end) actions a.

(** *** Reconciliation with a gateway *)

(** [SingleOrderQuery] without the account, which is left empty. *)
Record SingleOrderQuery : Set := mkSingleOrderQuery {
  soq_exch_order_ref : string;
  soq_order_id : Z;
  soq_symbol : string;
}.

(** What a gateway answers; [None] for an error or a timeout. *)
Record GwAnswers : Type := mkGwAnswers {
  ga_balance : option (option BalanceUpdate);
  ga_positions : option (list Position);
  ga_open_orders : option (list ExchOrder);
  ga_details : list SingleOrderQuery → option (list ExchOrder);
}.
Context (answers : string → GwAnswers).

(** A query of a gateway that has no client is an error. *)
Definition query {A} (gw_key : string) (f : GwAnswers → option A) a : option A :=
  _ ← a_gw_pool a !! gw_key; f (answers gw_key).

Definition dispatch_reconcile_report (report : OrderReport) a : outcome (OmsActor Client) :=
  '(actions, a) ← core_message (GatewayOrderReport report) a;
  for_each (λ a action,
      match action with
      | PersistOrder order_id set_expire set_closed =>
          on_persist_order true false order_id set_expire set_closed a
      | PersistBalance account_id asset_id => persist_balance_to_redis account_id asset_id a
      | PublishOrderUpdate order_id last_trade last_fee exec_message inferred_trade =>
          on_publish_order false None order_id last_trade last_fee exec_message inferred_trade a
      | _ => mret a
      end) actions a.

Definition detail_query (snap : OmsOrderSnapshot) : SingleOrderQuery :=
  mkSingleOrderQuery (default "" (oos_exch_order_ref snap)) (oos_order_id snap) (oos_instrument snap).

Definition reconcile_gw_orders (gw_key : string) (snapshots : list OmsOrderSnapshot) (now_ms : Z) a
    : outcome (bool * OmsActor Client) :=
  match query gw_key ga_open_orders a with
  | None => mret (false, a)
  | Some gw_open_orders =>
      let '(reports, needs_detail, _) :=
        reconcile_orders_against_gateway snapshots gw_open_orders gw_key now_ms in
      a ← for_each (λ a report, dispatch_reconcile_report report a) reports a;
      match needs_detail with
      | [] => mret (negb (bool_decide (reports = [])), a)
      | _ :: _ =>
          let queries := detail_query <$> needs_detail in
          let detail_orders := default [] (query gw_key (λ g, ga_details g queries) a) in
          a ← for_each (λ a snap,
                 dispatch_reconcile_report (resolve_missing_order snap detail_orders now_ms) a)
                needs_detail a;
          mret (true, a)
      end
  end.

Definition run_order_reconcile a : outcome (OmsActor Client) :=
  snapshots ← extract_open_order_snapshots (a_core a);
  match snapshots with
  | [] => mret a
  | _ :: _ =>
      let '(now_ms, a) := read_clock a in
      let gw_keys := (hash_iter (a_gw_pool a)).*1 in
      '(any_changes, a) ← for_each (λ '(any_changes, a) gw_key,
          '(changed, a) ← reconcile_gw_orders gw_key snapshots now_ms a;
          mret (any_changes || changed, a)) gw_keys (false, a);
      mret (if any_changes : bool then publish_snapshot true false a else a)
  end.

(** One update of a resync: through the core, then to Redis. *)
Definition resync_update (update : BalanceUpdate) a : outcome (OmsActor Client) :=
  '(actions, a) ← core_message (BalanceUpdateMsg update) a;
  persist_balance_position_actions actions a.

Definition resync_gw_balance_position (confdata : ConfdataManager) (gw_key : string) a
    : outcome (OmsActor Client) :=
  a ← match query gw_key ga_balance a with
      | Some (Some update) => resync_update (normalize_gw_balance_update_for_oms confdata gw_key update) a
      | _ => mret a
      end;
  match query gw_key ga_positions a with
  | Some ((_ :: _) as positions) =>
      resync_update (position_response_to_balance_update_for_oms confdata gw_key positions) a
  | _ => mret a
  end.

Definition run_gateway_resync (confdata : ConfdataManager) (gw_key : string) a
    : outcome (OmsActor Client) :=
  a ← resync_gw_balance_position confdata gw_key a;
  snapshots ← extract_open_order_snapshots (a_core a);
  let '(now_ms, a) := read_clock a in
  '(_, a) ← reconcile_gw_orders gw_key snapshots now_ms a;
  mret (publish_snapshot true false a).

(** [connected]: the client the connection attempt gave, [None] when it failed. *)
Definition run_gateway_discovered (connected : option Client) (gw_key : string) (gw_id : Z) a
    : bool * OmsActor Client :=
  match a_gw_pool a !! gw_key, connected with
  | Some _, _ => (false, a)
  | None, None => (false, a)
  | None, Some client =>
      (true, a <| a_gw_pool ::= <[gw_key := client]> |>
               <| a_gw_executor ::= GwExecutorPool.register_gateway gw_id gw_key client |>)
  end.

Definition run_gateway_removed (gw_key : string) (gw_id : Z) a : OmsActor Client :=
  a <| a_gw_pool ::= delete gw_key |> <| a_gw_executor ::= GwExecutorPool.remove_gateway gw_id |>.

(** *** The writer loop: one command received; [confdata] is the configuration
    the task was started with. *)
Definition writer_step (confdata : ConfdataManager) (connected : option Client) (cmd : OmsCommand) a
    : outcome (OmsActor Client) :=
  match cmd with
  | CmdOrderReconcile => run_order_reconcile a
  | CmdGatewayDiscovered gw_key gw_id _ =>
      let '(newly_connected, a) := run_gateway_discovered connected gw_key gw_id a in
      if newly_connected then run_gateway_resync confdata gw_key a else mret a
  | CmdGatewayRemoved gw_key gw_id => mret (run_gateway_removed gw_key gw_id a)
  | _ => process_command cmd a
  end.
End actor.
End OmsActor.
