(* ===== verification/OmsService.v ===== *)
(** * The OMS service: start-up and life of the writer task

    [zk-oms-svc/src/main.rs] from the loaded state on: balance, position and
    order reconciliation with the connected gateways, the initial snapshot, the
    executor pools; then the writer task beside its workers, as a transition
    system. *)

From S2P Require Import Prelude F64 Proto Intern Models Config Metadata MetadataFacts MetadataReload.
From S2P Require Import OrderStore OmsCore Channels Reconcile SnapshotV2 Persist OmsExec OmsActor.

Module OmsStartup.
Section startup.
Context {Client : Type}.
Context `{!Uppercase, !HashIter Z, !HashIter string, !HashIter (Z * Z), !HashIter (Z * string)}.
Context (now : nat → nat → Z) (oms_id : string) (answers : string → OmsActor.GwAnswers).
Implicit Types (a : OmsActor Client).

(** The state before the writer task exists: the core, the connected gateways and
    empty pools; the snapshot and the gateway executor come last. *)
Definition boot (core : OmsCoreV2) (gw_pool : gmap string Client) : OmsActor Client :=
  {| a_core := core;
     a_writer := OmsSnapshotWriterV2.new (mkSnapshotMetadata [] [] [] [] []);
     a_replica := mkOmsSnapshotV2 (mkSnapshotMetadata [] [] [] [] []) ∅ ∅ ∅ ∅ ∅ ∅ ∅ [] [] ∅ ∅ ∅ ∅ 0 0;
     a_gw_pool := gw_pool;
     a_gw_executor := mkGwExecutorPool [] 0 0 ∅;
     a_persist := ShardedPool.new 1024;
     a_publish := ShardedPool.new 256;
     a_recorder := ShardedPool.new 256;
     a_replies := [];
     a_redis := [];
     a_gw_accepted := [];
     a_tick := 0 |}.

(** ** Order reconciliation *)

Definition apply_reconcile_report (report : OrderReport) a : outcome (OmsActor Client) :=
  '(actions, a) ← OmsActor.core_message now (GatewayOrderReport report) a;
  for_each (λ a action,
      match action with
      | PersistOrder order_id _ _ => OmsActor.persist_order_to_redis oms_id order_id a
      | PersistBalance account_id asset_id =>
          OmsActor.persist_balance_to_redis oms_id account_id asset_id a
      | _ => mret a
      end) actions a.

Definition reconcile_gw (snapshots : list OmsOrderSnapshot) (now_ms : Z) a (gw_key : string)
    : outcome (OmsActor Client) :=
  match OmsActor.query answers gw_key OmsActor.ga_open_orders a with
  | None => mret a
  | Some gw_open_orders =>
      let '(reports, needs_detail, _) :=
        reconcile_orders_against_gateway snapshots gw_open_orders gw_key now_ms in
      a ← for_each (λ a report, apply_reconcile_report report a) reports a;
      match needs_detail with
      | [] => mret a
      | _ :: _ =>
          let queries := OmsActor.detail_query <$> needs_detail in
          let detail_orders :=
            default [] (OmsActor.query answers gw_key (λ g, OmsActor.ga_details g queries) a) in
          for_each (λ a snap,
              apply_reconcile_report (resolve_missing_order snap detail_orders now_ms) a) needs_detail a
      end
  end.

Definition reconcile_orders a : outcome (OmsActor Client) :=
  snapshots ← extract_open_order_snapshots (a_core a);
  match snapshots with
  | [] => mret a
  | _ :: _ =>
      let '(now_ms, a) := OmsActor.read_clock now a in
      for_each (reconcile_gw snapshots now_ms) (hash_iter (a_gw_pool a)).*1 a
  end.

(** ** The initial snapshot *)

Definition hydrate_order (core : OmsCoreV2) (w : OmsSnapshotWriterV2) (oid : Z)
    : outcome OmsSnapshotWriterV2 :=
  match os_live (c_orders core) !! oid with
  | None => mret w
  | Some live =>
      snap_order ← build_snapshot_order_from_live live (os_dyn_strings (c_orders core));
      let w := OmsSnapshotWriterV2.apply_order_update snap_order (is_in_terminal_state live) w in
      match OrderStoreV2.get_detail oid (c_orders core) with
      | None => mret w
      | Some detail =>
          snap_detail ← build_snapshot_detail_from_core oid live detail (c_metadata core)
                          (os_dyn_strings (c_orders core));
          mret (OmsSnapshotWriterV2.apply_order_detail snap_detail w)
      end
  end.

Definition initial_snapshot a : outcome (OmsActor Client) :=
  let core := a_core a in
  snap_meta ← build_snapshot_metadata core;
  writer ← for_each (hydrate_order core) (hash_iter (os_live (c_orders core))).*1
             (OmsSnapshotWriterV2.new snap_meta);
  mret (OmsActor.publish_snapshot now true true (a <| a_writer := writer |>)).

(** ** The gateway executor, over the gateways connected so far *)

Definition gw_id_to_key (core : OmsCoreV2) : outcome (list (Z * string)) :=
  for_each (λ acc gw, key ← MetadataTables.str_resolve (gm_gw_key_sym gw) (c_metadata core);
                      mret (acc ++ [(gm_gw_id gw, key)])) (md_gws (c_metadata core)) [].

Definition gw_executor (shard_count queue_capacity : nat) a : outcome (OmsActor Client) :=
  ids ← gw_id_to_key (a_core a);
  pool ← GwExecutorPool.new shard_count queue_capacity ids (λ k, a_gw_pool a !! k);
  mret (a <| a_gw_executor := pool |> <| a_gw_accepted := [] |>).

(** The core: built from the configuration, then filled with what Redis held. *)
Definition warm_core (seed : Z) (confdata : ConfdataManager)
    (risk_check_enabled handle_external_orders : bool) (max_cached_orders : Z)
    (orders : list OmsOrder) (positions : list OmsManagedPosition)
    (balances : list ExchBalanceSnapshot) : OmsCoreV2 :=
  OmsCoreV2.init_state orders positions balances
    (OmsCoreV2.new seed confdata false risk_check_enabled handle_external_orders max_cached_orders).

Definition start (confdata : ConfdataManager) (core : OmsCoreV2) (gw_pool : gmap string Client)
    (shard_count queue_capacity : nat) : outcome (OmsActor Client) :=
  a ← for_each (λ a gw_key, OmsActor.resync_gw_balance_position now oms_id answers confdata gw_key a)
        (hash_iter gw_pool).*1 (boot core gw_pool);
  a ← reconcile_orders a;
  a ← initial_snapshot a;
  gw_executor shard_count queue_capacity a.
End startup.
End OmsStartup.

(** ** The running service

    One writer, any number of workers.  A step is a command handled by the
    writer, a gateway worker taking an action, the end of a gateway worker, or
    other workers emptying queues.  [taken] is what the gateway workers took;
    [allowed] restricts the commands that arrive. *)

(** A reload needs id tables that fit 32 bits. *)
Definition reload_fits {Client} (cmd : OmsCommand) (a : OmsActor Client) : Prop :=
  match cmd with CmdReloadConfig _ _ => u32_sized (c_metadata (a_core a)) | _ => True end.

Section serving.
Context {Client : Type}.
Context `{!Uppercase, !HashIter Z, !HashIter string, !HashIter (Z * Z), !HashIter (Z * string)}.
Context (now : nat → nat → Z) (oms_id : string) (confdata : ConfdataManager) (n capacity : nat).
Context (allowed : OmsCommand → OmsActor Client → Prop).
Implicit Types (a : OmsActor Client) (taken : list GwAction).

Definition worker_recv (i : nat) a taken : OmsActor Client * list GwAction :=
  match ge_shards (a_gw_executor a) !! i ≫= recv with
  | Some (act, ch) =>
      (a <| a_gw_executor ::= λ p, p <| ge_shards ::= <[i := ch]> |> |>, taken ++ [act])
  | None => (a, taken)
  end.

Inductive serving : OmsActor Client → list GwAction → Prop :=
| serving_start seed risk ext max orders positions balances gw_pool answers a :
    0 ≤ max →
    OmsStartup.start now oms_id answers confdata
      (OmsStartup.warm_core seed confdata risk ext max orders positions balances)
      gw_pool n capacity = Returns a →
    serving a []
| serving_command answers connected cmd a a' taken :
    serving a taken → allowed cmd a →
    OmsActor.writer_step now oms_id answers confdata connected cmd a = Returns a' →
    serving a' taken
| serving_recv i a taken :
    serving a taken → serving (worker_recv i a taken).1 (worker_recv i a taken).2
| serving_lose i a taken :
    serving a taken →
    serving (a <| a_gw_executor ::= λ p, p <| ge_shards ::= alter close i |> |>) taken
| serving_others persist publish recorder a taken :
    serving a taken →
    serving (a <| a_persist ::= λ p, mkShardedPool persist (sp_queue_capacity p) |>
               <| a_publish ::= λ p, mkShardedPool publish (sp_queue_capacity p) |>
               <| a_recorder ::= λ p, mkShardedPool recorder (sp_queue_capacity p) |>) taken.
End serving.
