(* ===== verification/ServiceSafety.v ===== *)
(** * The writer task never panics ([zk-oms-svc/src/oms_actor.rs], [main.rs])

    [actor_inv] is the invariant of the writer task beside its workers.  Every
    builder returns on a reachable core, every action handler keeps the
    invariant whatever the action, and so does every command; the panic sets of
    the core, of the snapshot writer and of the replica follow one another; the
    gateway workers take the actions of an order in the order they were
    accepted. *)

From S2P Require Import Prelude F64 Proto Intern Models Config Metadata MetadataFacts MetadataReload.
From S2P Require Import OrderStore OrderHistory OmsCore OmsSafety OmsLifecycle Scenario.
From S2P Require Import Channels Reconcile SnapshotV2 Persist OmsExec OmsActor OmsService.

(** ** Builders *)

Section builders.
Implicit Types (c : OmsCoreV2).

Lemma exch_ref_string_returns oid live c :
  core_wf c → os_live (c_orders c) !! oid = Some live →
  returns (exch_ref_string live (os_dyn_strings (c_orders c))) (λ _, True).
Proof.
  intros [_ Ho] Hl. unfold exch_ref_string.
  destruct (lo_exch_order_ref_id live) as [id|] eqn:E; [|done].
  by destruct (dyn_resolves _ id (ow_ref _ Ho _ _ _ Hl E)) as [s ->].
Qed.

Lemma snapshot_order_returns oid live c :
  core_wf c → os_live (c_orders c) !! oid = Some live →
  returns (build_snapshot_order_from_live live (os_dyn_strings (c_orders c)))
    (λ s, so_order_id s = oid ∧ so_account_id s = lo_account_id live).
Proof.
  intros Hwf Hl. unfold build_snapshot_order_from_live. ostep.
  eapply returns_mono; [by eapply exch_ref_string_returns|]. intros r _. ostep. simpl. split; [|done].
  by apply (ow_id _ (cw_orders _ Hwf)).
Qed.

Lemma snapshot_detail_returns oid oid' live d md c :
  core_wf c → os_live (c_orders c) !! oid = Some live →
  returns (build_snapshot_detail_from_core oid' live d md (os_dyn_strings (c_orders c))) (λ _, True).
Proof.
  intros Hwf Hl. unfold build_snapshot_detail_from_core. ostep.
  eapply returns_mono; [by eapply exch_ref_string_returns|done].
Qed.

Lemma instrument_exch_returns iid c :
  core_wf c →
  returns (match MetadataTables.instrument iid (c_metadata c) with
           | Some i => MetadataTables.str_resolve (im_instrument_exch_sym i) (c_metadata c)
           | None => mret ""
           end) (λ _, True).
Proof.
  intros [Hm _]. unfold MetadataTables.instrument.
  destruct (md_instruments _ !! _) as [im|] eqn:E; [|done]. apply list_elem_of_lookup_2 in E.
  destruct (mb_insts _ _ (ms_bounded _ Hm) im E) as [_ He]. by destruct (sym_resolves _ _ He) as [s ->].
Qed.

Lemma recorder_names_returns oid live c :
  core_wf c → os_live (c_orders c) !! oid = Some live → returns (recorder_names c live) (λ _, True).
Proof.
  intros Hwf Hl. unfold recorder_names.
  ostep. eapply returns_mono; [apply gw_key_returns, Hwf|]. intros ? _.
  ostep. eapply returns_mono; [apply instrument_code_returns, Hwf|]. intros ? _.
  ostep. eapply returns_mono; [by apply instrument_exch_returns|]. intros ? _.
  ostep. eapply returns_mono; [by eapply exch_ref_string_returns|done].
Qed.

Lemma persisted_order_returns c oid :
  core_wf c → returns (build_persisted_order c oid) (λ _, True).
Proof.
  intros Hwf. unfold build_persisted_order, OmsCoreV2.build_v1_order, OrderStoreV2.get_live.
  destruct (os_live (c_orders c) !! oid) as [live|] eqn:E; [|done]. cbn [unwrap].
  ostep. ostep. ostep. ostep. eapply returns_mono; [exact (exch_ref_string_returns oid live c Hwf E)|].
  intros ? _. ostep. eapply returns_mono; [by eapply build_proto_order_returns|done].
Qed.

Lemma terminal_order_returns c oid oms_id :
  core_wf c → returns (build_recorder_terminal_order c oid oms_id) (λ _, True).
Proof.
  intros Hwf. unfold build_recorder_terminal_order, OrderStoreV2.get_live.
  destruct (os_live (c_orders c) !! oid) as [live|] eqn:E; [|done].
  ostep. eapply returns_mono; [by eapply recorder_names_returns|]. by intros [[[??]?]?] _.
Qed.

Lemma trade_event_returns c oid oms_id t b :
  core_wf c → returns (build_recorder_trade_event c oid oms_id t b) (λ _, True).
Proof.
  intros Hwf. unfold build_recorder_trade_event, OrderStoreV2.get_live.
  destruct (os_live (c_orders c) !! oid) as [live|] eqn:E; [|done].
  ostep. eapply returns_mono; [by eapply recorder_names_returns|]. by intros [[[??]?]?] _.
Qed.

Lemma asset_name_returns c asset_id :
  core_wf c → returns (OmsCoreV2.resolve_asset_name asset_id c) (λ _, True).
Proof.
  intros [Hm _]. unfold OmsCoreV2.resolve_asset_name, MetadataTables.asset.
  destruct (md_assets _ !! _) as [am|] eqn:E; [|done]. apply list_elem_of_lookup_2 in E.
  by destruct (sym_resolves _ _ (mb_assets _ _ (ms_bounded _ Hm) am E)) as [s ->].
Qed.

Lemma resolve_all_returns {A} (f : A → Z) md l :
  (∀ x, x ∈ l → sym_ok md (f x)) → returns (resolve_all f md l) (λ _, True).
Proof.
  intros Hl. apply (returns_for_each (λ _, True)); [done|]. intros acc x Hx _.
  by destruct (sym_resolves md (f x) (Hl x Hx)) as [s ->].
Qed.

Lemma snapshot_metadata_returns c : core_wf c → returns (build_snapshot_metadata c) (λ _, True).
Proof.
  intros [Hm _]. pose proof (ms_bounded _ Hm) as Hb. unfold build_snapshot_metadata.
  ostep. eapply returns_mono; [apply resolve_all_returns; intros x Hx; apply (mb_insts _ _ Hb x Hx)|].
  intros ? _.
  ostep. eapply returns_mono; [apply resolve_all_returns; intros x Hx; apply (mb_insts _ _ Hb x Hx)|].
  intros ? _.
  ostep. eapply returns_mono; [apply resolve_all_returns; intros x Hx; apply (mb_assets _ _ Hb x Hx)|].
  intros ? _.
  ostep. eapply returns_mono; [apply resolve_all_returns; intros x Hx; apply (mb_gws _ _ Hb x Hx)|].
  intros ? _.
  ostep. eapply returns_mono; [|done]. apply resolve_all_returns. intros x Hx%elem_of_seqZ.
  unfold sym_ok, sym_count, id. split; [lia|]. eapply Z.lt_le_trans; [apply Hx|].
  unfold len_u32, wrap_u32. rewrite Z.add_0_l. apply Z.mod_le; lia.
Qed.

Lemma open_snapshots_return `{!HashIter Z} c :
  core_wf c → returns (extract_open_order_snapshots c) (λ _, True).
Proof.
  intros [Hm _]. pose proof (ms_bounded _ Hm) as Hb. apply (returns_for_each (λ _, True)); [done|].
  intros acc [oid live] _ _. ostep. eapply (returns_mono _ (λ _, True)); [|by intros; apply returns_ret].
  unfold order_snapshot. destruct (is_in_terminal_state live); [done|].
  unfold MetadataTables.gw, MetadataTables.instrument.
  destruct (md_gws _ !! _) as [g|] eqn:Eg; [|done]. apply list_elem_of_lookup_2 in Eg.
  destruct (sym_resolves _ _ (mb_gws _ _ Hb g Eg)) as [s ->]. simpl.
  destruct (md_instruments _ !! _) as [im|] eqn:E; [|done]. apply list_elem_of_lookup_2 in E.
  destruct (mb_insts _ _ Hb im E) as [Hc _]. by destruct (sym_resolves _ _ Hc) as [s' ->].
Qed.
End builders.

(** ** The invariant of the writer task *)

Definition about_order (oid : Z) (act : GwAction) : bool := bool_decide (oid ∈ gw_action_orders act).

Section inv.
Context {Client : Type}.
Context `{!Uppercase, !HashIter Z, !HashIterOk Z, !HashIter string, !HashIter (Z * Z), !HashIter (Z * string)}.
Context (n capacity : nat) (taken : list GwAction).
Hypothesis Hn : (0 < n)%nat.
Implicit Types (a : OmsActor Client).

(** The panic set of the core, of the snapshot writer and of the replica. *)
Record panic_sets : Type := mkPanicSets { ps_core : gset Z; ps_writer : gset Z; ps_replica : gset Z }.
Implicit Types (ps : panic_sets).

Definition panic_sets_of a : panic_sets :=
  mkPanicSets (c_panic_accounts (a_core a)) (sw_panic_accounts (a_writer a))
    (sn_panic_accounts (a_replica a)).

(** The gateway shards, with what the executor accepted and the workers took. *)
Definition gw_run_of a : shard_run GwAction :=
  mkShardRun (ge_shards (a_gw_executor a)) (a_gw_accepted a) taken.

Record actor_inv ps a : Prop := mkActorInv {
  ai_core : reachable (a_core a);
  ai_panic : panic_sets_of a = ps;
  ai_count : ge_shard_count (a_gw_executor a) = n;
  ai_capacity : ge_queue_capacity (a_gw_executor a) = capacity;
  ai_fifo : fifo_inv about_order n capacity (gw_run_of a);
  ai_persist : (0 < sp_queue_capacity (a_persist a))%nat;
  ai_publish : (0 < sp_queue_capacity (a_publish a))%nat;
  ai_recorder : (0 < sp_queue_capacity (a_recorder a))%nat;
}.

Lemma ai_wf ps a : actor_inv ps a → core_wf (a_core a).
Proof. intros Ha. apply reachable_inv, Ha. Qed.

Lemma try_dispatch_returns {A} key (x : A) (p : ShardedPool Z A) :
  (0 < sp_queue_capacity p)%nat →
  returns (ShardedPool.try_dispatch key x p) (λ r, (0 < sp_queue_capacity r.2)%nat).
Proof.
  intros Hp. unfold ShardedPool.try_dispatch, ShardedPool.shard. ostep.
  destruct (sp_shards p !! key); [|destruct (Nat.eqb_spec (sp_queue_capacity p) 0); [lia|]]; ostep;
    by destruct (try_send _ _ _).
Qed.

Lemma persist_dispatch_inv ps pa a :
  actor_inv ps a → returns (OmsActor.persist_dispatch pa a) (actor_inv ps).
Proof.
  intros [? ? ? ? ? Hp ? ?]. unfold OmsActor.persist_dispatch, PersistExecutorPool.try_dispatch.
  ostep. ostep. eapply returns_mono; [by apply try_dispatch_returns|]. intros [? p] Hp'. by constructor.
Qed.
Lemma publish_dispatch_inv ps key pa a :
  actor_inv ps a → returns (OmsActor.publish_dispatch key pa a) (actor_inv ps).
Proof.
  intros [? ? ? ? ? ? Hp ?]. unfold OmsActor.publish_dispatch, PublishExecutorPool.dispatch.
  ostep. ostep. eapply returns_mono; [by apply try_dispatch_returns|]. intros [? p] Hp'. by constructor.
Qed.
Lemma recorder_dispatch_inv ps acct ra a :
  actor_inv ps a → returns (OmsActor.recorder_dispatch acct ra a) (actor_inv ps).
Proof.
  intros [? ? ? ? ? ? ? Hp]. unfold OmsActor.recorder_dispatch, RecorderExecutorPool.dispatch.
  ostep. ostep. eapply returns_mono; [by apply try_dispatch_returns|]. intros [? p] Hp'. by constructor.
Qed.

(** A change of the orders and details of the snapshot writer only. *)
Lemma writer_inv ps a w :
  sw_panic_accounts w = sw_panic_accounts (a_writer a) → actor_inv ps a →
  actor_inv ps (a <| a_writer := w |>).
Proof.
  intros Hw [? <- ? ? ? ? ? ?]. constructor; try done. unfold panic_sets_of. simpl. by rewrite Hw.
Qed.

Lemma snapshot_order_inv ps oid closed a :
  actor_inv ps a → returns (OmsActor.snapshot_order oid closed a) (actor_inv ps).
Proof.
  intros Ha. pose proof (ai_wf _ _ Ha) as Hwf. unfold OmsActor.snapshot_order, OrderStoreV2.get_live.
  destruct (os_live _ !! oid) as [live|] eqn:E; [|done]. ostep.
  eapply returns_mono; [by eapply snapshot_order_returns|]. intros so _.
  assert (actor_inv ps (a <| a_writer ::= OmsSnapshotWriterV2.apply_order_update so closed |>)) as Ha'
    by by apply writer_inv.
  destruct (OrderStoreV2.get_detail _ _) as [d|]; [|done]. ostep.
  eapply returns_mono; [by eapply snapshot_detail_returns|]. intros sd _. ostep. by apply writer_inv.
Qed.

Context (now : nat → nat → Z) (oms_id : string).

Lemma read_clock_inv ps a : actor_inv ps a → actor_inv ps (OmsActor.read_clock now a).2.
Proof. by intros []. Qed.

Lemma on_persist_order_inv ps redis recorder oid expire closed a :
  actor_inv ps a →
  returns (OmsActor.on_persist_order oms_id redis recorder oid expire closed a) (actor_inv ps).
Proof.
  intros Ha. unfold OmsActor.on_persist_order. ostep.
  eapply returns_mono; [by apply snapshot_order_inv|]. clear a Ha. intros a Ha.
  ostep. eapply (returns_mono _ (actor_inv ps)).
  - destruct redis; [|done]. ostep. eapply returns_mono; [apply persisted_order_returns, (ai_wf _ _ Ha)|].
    intros [o|] _; [by apply persist_dispatch_inv|done].
  - clear a Ha. intros a Ha. destruct (recorder && closed); [|done]. ostep.
    eapply returns_mono; [apply terminal_order_returns, (ai_wf _ _ Ha)|].
    intros [o|] _; [by apply recorder_dispatch_inv|done].
Qed.

Lemma record_trade_inv ps oid t b a :
  actor_inv ps a → returns (OmsActor.record_trade oms_id oid t b a) (actor_inv ps).
Proof.
  intros Ha. destruct t as [t|]; [|done]. simpl. ostep.
  eapply returns_mono; [apply trade_event_returns, (ai_wf _ _ Ha)|].
  intros [o|] _; [by apply recorder_dispatch_inv|done].
Qed.

Lemma on_publish_order_inv ps recorder ctx oid t f e i a :
  actor_inv ps a →
  returns (OmsActor.on_publish_order now oms_id recorder ctx oid t f e i a) (actor_inv ps).
Proof.
  intros Ha%read_clock_inv. unfold OmsActor.on_publish_order.
  destruct (OmsActor.read_clock now a) as [ts a']. simpl in Ha. clear a. rename a' into a.
  ostep. eapply returns_mono; [apply build_order_update_event_returns, (ai_wf _ _ Ha)|].
  intros [ev|] _; [|done]. ostep. eapply (returns_mono _ (actor_inv ps)).
  { destruct (recorder && t); [by apply record_trade_inv|done]. }
  clear a Ha. intros a Ha. ostep. eapply (returns_mono _ (actor_inv ps)).
  { destruct (_ && _ && _); [by apply record_trade_inv|done]. }
  clear a Ha. intros a Ha. by apply publish_dispatch_inv.
Qed.

Lemma on_persist_balance_inv ps acct asset a :
  actor_inv ps a → returns (OmsActor.on_persist_balance acct asset a) (actor_inv ps).
Proof.
  intros Ha. unfold OmsActor.on_persist_balance, build_persist_balance. ostep. ostep.
  eapply returns_mono; [apply asset_name_returns, (ai_wf _ _ Ha)|]. intros s _. ostep.
  destruct (_ <$> _); [by apply persist_dispatch_inv|done].
Qed.
Lemma on_persist_position_inv ps acct inst a :
  actor_inv ps a → returns (OmsActor.on_persist_position acct inst a) (actor_inv ps).
Proof.
  intros Ha. unfold OmsActor.on_persist_position, build_persist_position. ostep. ostep.
  eapply returns_mono; [apply instrument_code_returns, (ai_wf _ _ Ha)|]. intros s _. ostep.
  destruct (_ <$> _); [by apply persist_dispatch_inv|done].
Qed.
Lemma on_publish_balance_inv ps acct a :
  actor_inv ps a → returns (OmsActor.on_publish_balance now acct a) (actor_inv ps).
Proof.
  intros Ha%read_clock_inv. unfold OmsActor.on_publish_balance.
  destruct (OmsActor.read_clock now a). by apply publish_dispatch_inv.
Qed.
Lemma on_publish_position_inv ps acct a :
  actor_inv ps a → returns (OmsActor.on_publish_position now acct a) (actor_inv ps).
Proof.
  intros Ha%read_clock_inv. unfold OmsActor.on_publish_position.
  destruct (OmsActor.read_clock now a) as [ts a']. ostep.
  eapply returns_mono; [apply build_position_update_event_returns, (ai_wf _ _ Ha)|].
  intros ev _. by apply publish_dispatch_inv.
Qed.

(** *** Core messages *)

Definition after_core (msg : OmsMessage) ps : panic_sets :=
  mkPanicSets (panic_after msg (ps_core ps)) (ps_writer ps) (ps_replica ps).

Lemma core_message_inv ps msg a :
  actor_inv ps a →
  returns (OmsActor.core_message now msg a) (λ r, actor_inv (after_core msg ps) r.2).
Proof.
  intros Ha. unfold OmsActor.core_message. ostep.
  destruct (returns_inv _ _ (message_inv (now (a_tick a)) msg _ (reachable_inv _ (ai_core _ _ Ha))))
    as ([acts c'] & E & _ & Hst). rewrite E. ostep.
  destruct Ha as [Hr <- ? ? ? ? ? ?]. constructor; try done; [by eapply reach_message|].
  pose proof (st_env _ _ _ Hst) as Henv. unfold env in Henv. simpl in Henv.
  unfold panic_sets_of, after_core. simpl. f_equal. by injection Henv.
Qed.

(** *** Gateway dispatch *)

Notation acc_inv ps := (λ d, actor_inv ps (OmsActor.da_actor d)).

Lemma with_actor_inv ps d m :
  returns m (actor_inv ps) → returns (OmsActor.with_actor d m) (acc_inv ps).
Proof. intros Hm. unfold OmsActor.with_actor. ostep. by eapply returns_mono. Qed.

Definition shard_of (route : Z) (oids : list Z) : Prop :=
  ∀ oid, oid ∈ oids → shard_index n oid = shard_index n route.

(** A dispatch whose orders all belong to the shard it is routed to. *)
Lemma gw_dispatch_inv ps route act failed oids d :
  shard_of route (gw_action_orders act) → (∀ oid s, panic_after (failed oid) s = s) →
  actor_inv ps (OmsActor.da_actor d) →
  returns (OmsActor.gw_dispatch now route act failed oids d) (acc_inv ps).
Proof.
  intros Hroute Hfailed Ha. unfold OmsActor.gw_dispatch, GwExecutorPool.dispatch.
  rewrite (ai_count _ _ Ha), (ai_capacity _ _ Ha). ostep. ostep.
  assert (routed about_order n (Dispatch route act)) as Hr.
  { intros o Ho. apply Hroute. by apply bool_decide_eq_true in Ho. }
  pose proof (fifo_dispatch _ n capacity Hn _ _ _ Hr (ai_fifo _ _ Ha)) as Hf. simpl in Hf.
  destruct (shard_dispatch n capacity route act _) as [[r shards]|]; [|done]. simpl in *.
  destruct Ha as [? ? ? ? ? ? ? ?]. destruct r as [u|e]; simpl; [by constructor|].
  apply (returns_for_each (acc_inv ps)); [by constructor|]. intros d' oid _ Hd'. ostep.
  eapply returns_mono; [by apply core_message_inv|]. intros [acts a'] Ha'. simpl in *.
  unfold after_core in Ha'. rewrite Hfailed in Ha'. by destruct ps.
Qed.

(** *** The partition of a batch *)

(** Every sub-batch holds orders of its own shard only. *)
Definition groups_ok (groups : list (list Z)) : Prop :=
  length groups = n ∧ ∀ i g oid, groups !! i = Some g → oid ∈ g → shard_index n oid = i.

Lemma by_shard_returns oids : returns (OmsActor.by_shard n oids) groups_ok.
Proof.
  apply (returns_for_each groups_ok).
  - split; [by rewrite length_replicate|]. intros i g oid [-> _]%lookup_replicate. by intros ?%elem_of_nil.
  - intros groups oid _ [Hlen Hg]. destruct (Nat.eqb_spec n 0); [lia|]. ostep.
    split; [by rewrite length_alter|]. intros i g oid' Hi Hin.
    destruct (decide (i = shard_index n oid)) as [->|Hne].
    + rewrite list_lookup_alter_eq in Hi. destruct (groups !! _) as [g0|] eqn:E; [|done].
      simpl in Hi. injection Hi as <-. apply elem_of_app in Hin as [Hin|Hin]; [by eapply Hg|].
      apply list_elem_of_singleton in Hin. by subst.
    + rewrite list_lookup_alter_ne in Hi by done. by eapply Hg.
Qed.

Lemma dispatch_groups_inv ps mk failed groups d :
  groups_ok groups → (∀ core g, gw_action_orders (mk core g) = g) →
  (∀ oid s, panic_after (failed oid) s = s) → actor_inv ps (OmsActor.da_actor d) →
  returns (OmsActor.dispatch_groups now mk failed groups d) (acc_inv ps).
Proof.
  intros [_ Hg] Hmk Hfailed Ha. apply (returns_for_each (acc_inv ps)); [done|].
  intros d' g Hin Hd'. destruct g as [|route g]; [done|].
  apply list_elem_of_lookup_1 in Hin as [i Hi]. apply gw_dispatch_inv; [|done..].
  rewrite Hmk. intros oid Hoid. rewrite (Hg i _ oid Hi Hoid), (Hg i _ route Hi); [done|]. by left.
Qed.

Lemma single_shard oid : shard_of oid [oid].
Proof. intros o Ho. apply list_elem_of_singleton in Ho. by subst. Qed.

Lemma send_order_inv ps t1 t2 tw gw oid ts d :
  actor_inv ps (OmsActor.da_actor d) →
  returns (OmsActor.send_order now t1 t2 tw gw oid ts d) (acc_inv ps).
Proof.
  intros Ha. unfold OmsActor.send_order. ostep.
  eapply returns_mono; [apply gw_key_returns, (ai_wf _ _ Ha)|]. intros k _. simpl.
  apply gw_dispatch_inv; [apply single_shard|done|]. by apply read_clock_inv in Ha.
Qed.
Lemma send_cancel_inv ps gw oid d :
  actor_inv ps (OmsActor.da_actor d) →
  returns (OmsActor.send_cancel now gw oid d) (acc_inv ps).
Proof.
  intros Ha. unfold OmsActor.send_cancel. ostep.
  eapply returns_mono; [apply gw_key_returns, (ai_wf _ _ Ha)|]. intros k _.
  apply gw_dispatch_inv; [apply single_shard|done|done].
Qed.
Lemma batch_send_inv ps gw oids d :
  actor_inv ps (OmsActor.da_actor d) →
  returns (OmsActor.batch_send_orders now gw oids d) (acc_inv ps).
Proof.
  intros Ha. unfold OmsActor.batch_send_orders. ostep.
  eapply returns_mono; [apply gw_key_returns, (ai_wf _ _ Ha)|]. intros k _. ostep.
  rewrite (ai_count _ _ Ha). eapply returns_mono; [apply by_shard_returns|].
  intros groups Hg. by apply dispatch_groups_inv.
Qed.
Lemma batch_cancel_actor_inv ps gw oids d :
  actor_inv ps (OmsActor.da_actor d) →
  returns (OmsActor.batch_cancel now gw oids d) (acc_inv ps).
Proof.
  intros Ha. unfold OmsActor.batch_cancel. ostep.
  eapply returns_mono; [apply gw_key_returns, (ai_wf _ _ Ha)|]. intros k _. ostep.
  rewrite (ai_count _ _ Ha). eapply returns_mono; [apply by_shard_returns|].
  intros groups Hg. by apply dispatch_groups_inv.
Qed.

Lemma on_action_inv ps t1 t2 tw hot ctx act d :
  actor_inv ps (OmsActor.da_actor d) →
  returns (OmsActor.on_action now oms_id t1 t2 tw hot ctx d act) (acc_inv ps).
Proof.
  intros Ha. destruct act; cbn [OmsActor.on_action].
  - by apply send_order_inv.
  - by apply batch_send_inv.
  - by apply send_cancel_inv.
  - by apply batch_cancel_actor_inv.
  - by apply with_actor_inv, on_publish_order_inv.
  - by apply with_actor_inv, on_publish_balance_inv.
  - by apply with_actor_inv, on_publish_position_inv.
  - by apply with_actor_inv, on_persist_order_inv.
  - by apply with_actor_inv, on_persist_balance_inv.
  - by apply with_actor_inv, on_persist_position_inv.
Qed.
Lemma on_failure_action_inv ps act d :
  actor_inv ps (OmsActor.da_actor d) →
  returns (OmsActor.on_failure_action now oms_id d act) (acc_inv ps).
Proof.
  intros Ha. destruct act; simpl; try done; apply with_actor_inv;
    first [ by apply on_persist_order_inv | by apply on_persist_balance_inv
          | by apply on_publish_order_inv | by apply on_publish_balance_inv ].
Qed.

(** *** Commands *)

(** The replica gets the panic set of the writer. *)
Definition published ps : panic_sets := mkPanicSets (ps_core ps) (ps_writer ps) (ps_writer ps).

Lemma publish_snapshot_inv ps b p a :
  actor_inv ps a → actor_inv (published ps) (OmsActor.publish_snapshot now b p a).
Proof.
  intros [? <- ? ? ? ? ? ?]. unfold OmsActor.publish_snapshot.
  destruct (if p then _ else _) as [[? ?] ?]. destruct (if b then _ else _) as [? ?]. by constructor.
Qed.

Lemma send_reply_inv ps reply ok msg a :
  actor_inv ps a → actor_inv ps (OmsActor.send_reply now reply ok msg a).
Proof. intros []. by destruct reply. Qed.

Lemma drive_inv ps cmd t2 ctx msg reply a :
  actor_inv ps a →
  returns (OmsActor.drive now oms_id cmd t2 ctx msg reply a) (actor_inv (published (after_core msg ps))).
Proof.
  intros Ha. unfold OmsActor.drive. ostep. eapply returns_mono; [by apply core_message_inv|].
  intros [acts a1] Ha1. simpl in Ha1. apply read_clock_inv in Ha1.
  destruct (OmsActor.read_clock now a1) as [tw a2]. simpl in Ha1. ostep.
  eapply returns_mono; [apply (returns_for_each (acc_inv (after_core msg ps))); [done|]|].
  { intros d act _ Hd. by apply on_action_inv. }
  intros d1 Hd1. ostep.
  eapply returns_mono; [apply (returns_for_each (acc_inv (after_core msg ps))); [done|]|].
  { intros d act _ Hd. by apply on_failure_action_inv. }
  intros d2 Hd2. ostep. by apply send_reply_inv, publish_snapshot_inv.
Qed.

(** Between commands the three panic sets are the same one. *)
Definition settled (s : gset Z) : panic_sets := mkPanicSets s s s.

(** The panic set a command leads to. *)
Definition panic_command (cmd : OmsCommand) (s : gset Z) : gset Z :=
  match cmd with
  | CmdPanic account_id _ => {[account_id]} ∪ s
  | CmdDontPanic account_id _ => s ∖ {[account_id]}
  | _ => s
  end.

Lemma reload_config_inv s config reply a :
  u32_sized (c_metadata (a_core a)) → actor_inv (settled s) a →
  returns (OmsActor.reload_config now config reply a) (actor_inv (settled s)).
Proof.
  intros Hsz Ha. unfold OmsActor.reload_config. ostep.
  pose proof (reachable_inv _ (ai_core _ _ Ha)) as Hc.
  destruct (returns_inv _ _ (reload_returns config _ Hc Hsz)) as (core & E & Hc' & _ & _). rewrite E.
  simpl. ostep. eapply returns_mono; [apply snapshot_metadata_returns, Hc'|]. intros meta _.
  set (a1 := a <| a_core := core |> <| a_writer ::= OmsSnapshotWriterV2.update_metadata meta |>).
  assert (actor_inv (settled s) a1) as Ha1.
  { assert (c_panic_accounts core = c_panic_accounts (a_core a)) as Hp.
    { unfold OmsCoreV2.reload_config in E.
      destruct (MetadataTables.rebuild_from_config config _); [|done]. by injection E as <-. }
    destruct Ha as [? Hps ? ? ? ? ? ?]. constructor; try done; [by eapply reach_reload|].
    rewrite <- Hps. unfold panic_sets_of, a1. simpl. by rewrite Hp. }
  apply (publish_snapshot_inv _ true true) in Ha1. by destruct Ha1.
Qed.

Lemma process_command_inv s cmd a :
  reload_fits cmd a → actor_inv (settled s) a →
  returns (OmsActor.process_command now oms_id cmd a) (actor_inv (settled (panic_command cmd s))).
Proof.
  intros Hfit Ha. unfold OmsActor.process_command.
  destruct (OmsActor.read_clock now a) as [t2 a1] eqn:E1.
  assert (actor_inv (settled s) a1) as Ha1 by (by apply read_clock_inv in Ha; rewrite E1 in Ha).
  assert (reload_fits cmd a1) as Hfit1 by (injection E1 as _ <-; by destruct cmd). clear a Ha E1 Hfit.
  destruct cmd; cbn [OmsActor.report_latency_ctx OmsActor.command_message OmsActor.apply_panic_command
                     OmsActor.read_clock panic_command];
    lazymatch goal with
    | |- returns (OmsActor.reload_config _ _ _ _) _ => by apply reload_config_inv
    | |- returns (mret _) _ => done
    | |- returns (OmsActor.drive _ _ (CmdPanic _ _) _ _ _ _ _) _ => idtac
    | |- returns (OmsActor.drive _ _ (CmdDontPanic _ _) _ _ _ _ _) _ => idtac
    | |- _ => apply (drive_inv (settled s)); by destruct Ha1
    end.
  - eapply returns_mono; [apply (drive_inv (mkPanicSets s ({[account_id]} ∪ s) s))|done].
    destruct Ha1 as [? Hps ? ? ? ? ? ?]. constructor; try done.
    unfold panic_sets_of in *. simpl in *. injection Hps as -> -> ->. done.
  - eapply returns_mono; [apply (drive_inv (mkPanicSets s (s ∖ {[account_id]}) s))|done].
    destruct Ha1 as [? Hps ? ? ? ? ? ?]. constructor; try done.
    unfold panic_sets_of in *. simpl in *. injection Hps as -> -> ->. done.
Qed.

(** *** Reconciliation and resync *)

Context (answers : string → OmsActor.GwAnswers).

Lemma core_report_inv s msg a :
  (∀ x, panic_after msg x = x) → actor_inv (settled s) a →
  returns (OmsActor.core_message now msg a) (λ r, actor_inv (settled s) r.2).
Proof.
  intros Hmsg Ha. eapply returns_mono; [by apply core_message_inv|].
  intros r. unfold after_core. by rewrite Hmsg.
Qed.

Lemma redis_send_inv ps cmds a : actor_inv ps a → actor_inv ps (OmsActor.redis_send cmds a).
Proof. by intros []. Qed.

Lemma balance_to_redis_inv ps acct asset a :
  actor_inv ps a → returns (OmsActor.persist_balance_to_redis oms_id acct asset a) (actor_inv ps).
Proof.
  intros Ha. unfold OmsActor.persist_balance_to_redis. ostep.
  eapply returns_mono; [apply asset_name_returns, (ai_wf _ _ Ha)|]. intros name _. ostep.
  case_match; [by apply redis_send_inv|done].
Qed.
Lemma position_to_redis_inv ps acct inst a :
  actor_inv ps a → returns (OmsActor.persist_position_to_redis oms_id acct inst a) (actor_inv ps).
Proof.
  intros Ha. unfold OmsActor.persist_position_to_redis. ostep.
  eapply returns_mono; [apply instrument_code_returns, (ai_wf _ _ Ha)|]. intros name _. ostep.
  case_match; [by apply redis_send_inv|done].
Qed.
Lemma order_to_redis_inv ps oid a :
  actor_inv ps a → returns (OmsActor.persist_order_to_redis oms_id oid a) (actor_inv ps).
Proof.
  intros Ha. unfold OmsActor.persist_order_to_redis. ostep.
  eapply returns_mono; [apply persisted_order_returns, (ai_wf _ _ Ha)|].
  intros [o|] _; [by apply redis_send_inv|done].
Qed.

Lemma reconcile_report_inv s report a :
  actor_inv (settled s) a →
  returns (OmsActor.dispatch_reconcile_report now oms_id report a) (actor_inv (settled s)).
Proof.
  intros Ha. unfold OmsActor.dispatch_reconcile_report. ostep.
  eapply returns_mono; [by apply core_report_inv|]. intros [acts a1] Ha1. simpl in Ha1.
  apply (returns_for_each (actor_inv (settled s))); [done|]. intros a2 act _ Ha2.
  destruct act; try done;
    [by apply on_publish_order_inv|by apply on_persist_order_inv|by apply balance_to_redis_inv].
Qed.

Lemma reconcile_gw_orders_inv s gw snapshots ts a :
  actor_inv (settled s) a →
  returns (OmsActor.reconcile_gw_orders now oms_id answers gw snapshots ts a)
    (λ r, actor_inv (settled s) r.2).
Proof.
  intros Ha. unfold OmsActor.reconcile_gw_orders.
  destruct (OmsActor.query answers gw OmsActor.ga_open_orders a) as [gw_open|]; [|done].
  destruct (reconcile_orders_against_gateway _ _ _ _) as [[reports needs] stats]. ostep.
  eapply returns_mono; [apply (returns_for_each (actor_inv (settled s))); [done|]|].
  { intros. by apply reconcile_report_inv. }
  intros a1 Ha1. destruct needs as [|snap needs]; [done|]. ostep.
  eapply returns_mono; [apply (returns_for_each (actor_inv (settled s))); [done|]|by intros; ostep].
  intros. by apply reconcile_report_inv.
Qed.

Lemma run_order_reconcile_inv s a :
  actor_inv (settled s) a →
  returns (OmsActor.run_order_reconcile now oms_id answers a) (actor_inv (settled s)).
Proof.
  intros Ha. unfold OmsActor.run_order_reconcile. ostep.
  eapply returns_mono; [apply open_snapshots_return, (ai_wf _ _ Ha)|]. intros [|snap snapshots] _; [done|].
  apply read_clock_inv in Ha. destruct (OmsActor.read_clock now a) as [ts a1]. simpl in Ha. ostep.
  eapply returns_mono; [apply (returns_for_each (λ r : bool * OmsActor Client, actor_inv (settled s) r.2)); [done|]|].
  { intros [b a2] gw _ Ha2. ostep. eapply returns_mono; [by apply reconcile_gw_orders_inv|]. by intros []. }
  intros [[] a2] Ha2; ostep; [|done]. by apply (publish_snapshot_inv _ true false) in Ha2.
Qed.

Lemma resync_update_inv s update a :
  actor_inv (settled s) a →
  returns (OmsActor.resync_update now oms_id update a) (actor_inv (settled s)).
Proof.
  intros Ha. unfold OmsActor.resync_update, OmsActor.persist_balance_position_actions. ostep.
  eapply returns_mono; [by apply core_report_inv|]. intros [acts a1] Ha1. simpl in Ha1.
  apply (returns_for_each (actor_inv (settled s))); [done|]. intros a2 act _ Ha2.
  destruct act; try done; [by apply balance_to_redis_inv|by apply position_to_redis_inv].
Qed.

Lemma resync_inv s confdata gw a :
  actor_inv (settled s) a →
  returns (OmsActor.resync_gw_balance_position now oms_id answers confdata gw a) (actor_inv (settled s)).
Proof.
  intros Ha. unfold OmsActor.resync_gw_balance_position. ostep.
  eapply (returns_mono _ (actor_inv (settled s))).
  { destruct (OmsActor.query answers gw OmsActor.ga_balance a) as [[u|]|]; [by apply resync_update_inv|done..]. }
  intros a1 Ha1. destruct (OmsActor.query answers gw OmsActor.ga_positions a1) as [[|pos l]|];
    [done|by apply resync_update_inv|done].
Qed.

Lemma run_gateway_resync_inv s confdata gw a :
  actor_inv (settled s) a →
  returns (OmsActor.run_gateway_resync now oms_id answers confdata gw a) (actor_inv (settled s)).
Proof.
  intros Ha. unfold OmsActor.run_gateway_resync. ostep.
  eapply returns_mono; [by apply resync_inv|]. intros a1 Ha1. ostep.
  eapply returns_mono; [apply open_snapshots_return, (ai_wf _ _ Ha1)|]. intros snapshots _.
  apply read_clock_inv in Ha1. destruct (OmsActor.read_clock now a1) as [ts a2]. simpl in Ha1. ostep.
  eapply returns_mono; [by apply reconcile_gw_orders_inv|]. intros [b a3] Ha3. ostep.
  by apply (publish_snapshot_inv _ true false) in Ha3.
Qed.

Lemma writer_step_inv s confdata connected cmd a :
  reload_fits cmd a → actor_inv (settled s) a →
  returns (OmsActor.writer_step now oms_id answers confdata connected cmd a)
    (actor_inv (settled (panic_command cmd s))).
Proof.
  intros Hfit Ha. unfold OmsActor.writer_step.
  destruct cmd; try (by apply process_command_inv); cbn [panic_command].
  - by apply run_order_reconcile_inv.
  - unfold OmsActor.run_gateway_discovered.
    destruct (a_gw_pool a !! gw_key); [done|]. destruct connected as [client|]; [|done].
    apply run_gateway_resync_inv. by destruct Ha.
  - ostep. by destruct Ha.
Qed.
End inv.

(** ** Start-up *)

Section start.
Context {Client : Type}.
Context `{!Uppercase, !HashIter Z, !HashIterOk Z, !HashIter string, !HashIter (Z * Z), !HashIter (Z * string)}.
Context (now : nat → nat → Z) (oms_id : string) (answers : string → OmsActor.GwAnswers).
Implicit Types (a : OmsActor Client).

(** Before the executor exists there are no shards. *)
Notation boot_inv := (actor_inv 0 0 [] (settled ∅)).

Lemma init_state_panic orders positions balances c :
  c_panic_accounts (OmsCoreV2.init_state orders positions balances c) = c_panic_accounts c.
Proof.
  unfold OmsCoreV2.init_state.
  apply (foldl_inv (λ c', c_panic_accounts c' = c_panic_accounts c)).
  2: { intros c1 b _ <-. unfold OmsCoreV2.init_balance. by destruct (OmsCoreV2.lookup_asset _ _). }
  apply (foldl_inv (λ c', c_panic_accounts c' = c_panic_accounts c)).
  2: { intros c1 p _ <-. unfold OmsCoreV2.init_v1_position.
       by destruct (MetadataTables.resolve_instrument _ _). }
  apply (foldl_inv (λ c', c_panic_accounts c' = c_panic_accounts c)); [done|].
  intros c1 v1 _ <-. unfold OmsCoreV2.init_v1_order, OmsCoreV2.convert_v1_order.
  destruct (MetadataTables.intern (ord_source_id (oo_order_state v1)) (c_metadata c1)) as [sym md].
  destruct (is_empty (ord_source_id (oo_order_state v1))), (oo_exch_order_ref v1) as [r|]; try done;
    by destruct (DynStringTable.intern r _).
Qed.

Lemma boot_ok core gw_pool :
  reachable core → c_panic_accounts core = ∅ → boot_inv (OmsStartup.boot core gw_pool : OmsActor Client).
Proof.
  intros Hc Hp. constructor; simpl; try done; [|lia..]. unfold panic_sets_of. simpl. by rewrite Hp.
Qed.

Lemma apply_reconcile_report_inv report a :
  boot_inv a → returns (OmsStartup.apply_reconcile_report now oms_id report a) boot_inv.
Proof.
  intros Ha. unfold OmsStartup.apply_reconcile_report. ostep.
  eapply returns_mono; [by apply core_report_inv|]. intros [acts a1] Ha1. simpl in Ha1.
  apply (returns_for_each boot_inv); [done|]. intros a2 act _ Ha2.
  destruct act; try done; [by apply order_to_redis_inv|by apply balance_to_redis_inv].
Qed.

Lemma startup_reconcile_inv a :
  boot_inv a → returns (OmsStartup.reconcile_orders now oms_id answers a) boot_inv.
Proof.
  intros Ha. unfold OmsStartup.reconcile_orders. ostep.
  eapply returns_mono; [apply open_snapshots_return, (ai_wf _ _ _ _ _ Ha)|].
  intros [|snap snapshots] _; [done|].
  apply (read_clock_inv _ _ _ now) in Ha. destruct (OmsActor.read_clock now a) as [ts a1]. simpl in Ha.
  apply (returns_for_each boot_inv); [done|]. intros a2 gw _ Ha2. unfold OmsStartup.reconcile_gw.
  destruct (OmsActor.query answers gw OmsActor.ga_open_orders a2) as [gw_open|]; [|done].
  destruct (reconcile_orders_against_gateway _ _ _ _) as [[reports needs] stats]. ostep.
  eapply returns_mono; [apply (returns_for_each boot_inv); [done|]|].
  { intros. by apply apply_reconcile_report_inv. }
  intros a3 Ha3. destruct needs; [done|].
  apply (returns_for_each boot_inv); [done|]. intros. by apply apply_reconcile_report_inv.
Qed.

Lemma hydrate_returns core w oid :
  core_wf core → sw_panic_accounts w = ∅ →
  returns (OmsStartup.hydrate_order core w oid) (λ w', sw_panic_accounts w' = ∅).
Proof.
  intros Hwf Hw. unfold OmsStartup.hydrate_order.
  destruct (os_live _ !! oid) as [live|] eqn:E; [|done]. ostep.
  eapply returns_mono; [by eapply snapshot_order_returns|]. intros so _.
  destruct (OrderStoreV2.get_detail _ _) as [d|]; [|done]. ostep.
  eapply returns_mono; [by eapply snapshot_detail_returns|done].
Qed.

Lemma initial_snapshot_inv a :
  boot_inv a → returns (OmsStartup.initial_snapshot now a) boot_inv.
Proof.
  intros Ha. pose proof (ai_wf _ _ _ _ _ Ha) as Hwf. unfold OmsStartup.initial_snapshot. ostep.
  eapply returns_mono; [by apply snapshot_metadata_returns|]. intros meta _. ostep.
  eapply returns_mono; [apply (returns_for_each (λ w, sw_panic_accounts w = ∅)); [done|]|].
  { intros. by apply hydrate_returns. }
  intros w Hw. ostep. apply (publish_snapshot_inv _ _ _ now (settled ∅) true true).
  apply writer_inv; [|done]. pose proof (ai_panic _ _ _ _ _ Ha) as Hp. injection Hp as _ -> _. done.
Qed.

Lemma gw_executor_inv n capacity a :
  (0 < n)%nat → (0 < capacity)%nat → boot_inv a →
  returns (OmsStartup.gw_executor n capacity a) (actor_inv n capacity [] (settled ∅)).
Proof.
  intros Hn Hcap Ha. pose proof (cw_meta _ (ai_wf _ _ _ _ _ Ha)) as Hm. unfold OmsStartup.gw_executor. ostep.
  eapply (returns_mono _ (λ _, True)).
  { apply (returns_for_each (λ _, True)); [done|]. intros acc g Hg _.
    by destruct (sym_resolves _ _ (mb_gws _ _ (ms_bounded _ Hm) g Hg)) as [s ->]. }
  intros ids _. ostep. unfold GwExecutorPool.new, new_shards.
  destruct (Nat.eqb_spec capacity 0) as [|_]; [lia|]. simpl.
  destruct Ha. constructor; try done. by apply fifo_start.
Qed.

Lemma start_inv confdata core gw_pool n capacity :
  (0 < n)%nat → (0 < capacity)%nat → reachable core → c_panic_accounts core = ∅ →
  returns (OmsStartup.start now oms_id answers confdata core gw_pool n capacity
             : outcome (OmsActor Client)) (actor_inv n capacity [] (settled ∅)).
Proof.
  intros Hn Hcap Hc Hp. unfold OmsStartup.start. ostep.
  eapply returns_mono; [apply (returns_for_each boot_inv); [by apply boot_ok|]|].
  { intros. by apply resync_inv. }
  intros a1 Ha1. ostep. eapply returns_mono; [by apply startup_reconcile_inv|]. intros a2 Ha2.
  ostep. eapply returns_mono; [by apply initial_snapshot_inv|]. intros a3 Ha3.
  by apply gw_executor_inv.
Qed.

Lemma warm_core_starts seed confdata risk ext max orders positions balances :
  0 ≤ max →
  let core := OmsStartup.warm_core seed confdata risk ext max orders positions balances in
  reachable core ∧ c_panic_accounts core = ∅.
Proof.
  intros Hm. split; [by apply reach_init, reach_new|]. unfold OmsStartup.warm_core. by rewrite init_state_panic.
Qed.
End start.

(** ** Every state of the running service *)

Section serving.
Context {Client : Type}.
Context `{!Uppercase, !HashIter Z, !HashIterOk Z, !HashIter string, !HashIter (Z * Z), !HashIter (Z * string)}.
Context (now : nat → nat → Z) (oms_id : string) (confdata : ConfdataManager) (n capacity : nat).
Context (allowed : OmsCommand → OmsActor Client → Prop).
Hypothesis (Hn : (0 < n)%nat) (Hcap : (0 < capacity)%nat).
Hypothesis Hallowed : ∀ cmd a, allowed cmd a → reload_fits cmd a.
Implicit Types (a : OmsActor Client).

Lemma serving_inv a taken :
  serving now oms_id confdata n capacity allowed a taken →
  actor_inv n capacity taken (settled (c_panic_accounts (a_core a))) a.
Proof.
  assert (∀ s t a, actor_inv n capacity t (settled s) a →
    actor_inv n capacity t (settled (c_panic_accounts (a_core a))) (a : OmsActor Client)) as Hset.
  { intros s t a' Ha. pose proof (ai_panic _ _ _ _ _ Ha) as Hp. by injection Hp as -> _ _. }
  induction 1 as [seed risk ext max orders positions balances gw_pool answers a Hmax Hs
    |answers connected cmd a a' taken _ IH Hfit Hstep|i a taken _ IH|i a taken _ IH|? ? ? a taken _ IH].
  - destruct (warm_core_starts seed confdata risk ext max orders positions balances Hmax) as [Hr Hp].
    pose proof (start_inv now oms_id answers confdata _ gw_pool n capacity Hn Hcap Hr Hp) as Hi.
    rewrite Hs in Hi. by eapply Hset.
  - pose proof (writer_step_inv n capacity taken Hn now oms_id answers _ confdata connected cmd a
      (Hallowed _ _ Hfit) IH)
      as Hi. rewrite Hstep in Hi. by eapply Hset.
  - unfold worker_recv. pose proof (fifo_recv _ n capacity Hn _ i (ai_fifo _ _ _ _ _ IH)) as Hf. simpl in Hf.
    destruct (ge_shards (a_gw_executor a) !! i ≫= recv) as [[act ch]|] eqn:E; [|done].
    simpl. destruct IH. by constructor.
  - pose proof (fifo_lose _ n capacity Hn _ i (ai_fifo _ _ _ _ _ IH)) as Hf. destruct IH. by constructor.
  - by destruct IH.
Qed.
End serving.

(** C2: the OMS service never panics.  With at least one gateway shard and room
    in its queues, start-up completes from whatever Redis and the gateways
    answered; and in every state the running service can reach, under any
    interleaving of commands and workers, every command is handled to the end
    (a config reload while the id tables fit 32 bits). *)
Theorem oms_service_never_panics {Client : Type}
    `{!Uppercase, !HashIter Z, !HashIterOk Z, !HashIter string, !HashIter (Z * Z), !HashIter (Z * string)}
    now oms_id confdata n capacity :
  (0 < n)%nat → (0 < capacity)%nat →
  (∀ seed risk ext max orders positions balances (gw_pool : gmap string Client) answers, 0 ≤ max →
     ∃ a, OmsStartup.start now oms_id answers confdata
            (OmsStartup.warm_core seed confdata risk ext max orders positions balances)
            gw_pool n capacity = Returns a) ∧
  ∀ (a : OmsActor Client) taken, serving now oms_id confdata n capacity reload_fits a taken →
    ∀ answers connected cmd, reload_fits cmd a →
    ∃ a', OmsActor.writer_step now oms_id answers confdata connected cmd a = Returns a'.
Proof.
  intros Hn Hcap. split.
  - intros seed risk ext max orders positions balances gw_pool answers Hmax.
    destruct (warm_core_starts seed confdata risk ext max orders positions balances Hmax) as [Hr Hp].
    destruct (returns_inv _ _ (start_inv now oms_id answers confdata _ gw_pool n capacity Hn Hcap Hr Hp))
      as (a & E & _). by exists a.
  - intros a taken Ha answers connected cmd Hfit. apply serving_inv in Ha; [|done..].
    destruct (returns_inv _ _ (writer_step_inv n capacity taken Hn now oms_id answers _ confdata
      connected cmd a Hfit Ha)) as (a' & E & _). by exists a'.
Qed.

(** C23: the panic switch is visible at once.  In every state of the running
    service the replica lists exactly the accounts the core refuses orders for,
    and after any command both are what the command made of them. *)
Theorem replica_panic_exact {Client : Type}
    `{!Uppercase, !HashIter Z, !HashIterOk Z, !HashIter string, !HashIter (Z * Z), !HashIter (Z * string)}
    now oms_id confdata n capacity (a : OmsActor Client) taken answers connected cmd :
  (0 < n)%nat → (0 < capacity)%nat → serving now oms_id confdata n capacity reload_fits a taken →
  reload_fits cmd a →
  sn_panic_accounts (a_replica a) = c_panic_accounts (a_core a) ∧
  returns (OmsActor.writer_step now oms_id answers confdata connected cmd a) (λ a',
    c_panic_accounts (a_core a') = panic_command cmd (c_panic_accounts (a_core a)) ∧
    sn_panic_accounts (a_replica a') = c_panic_accounts (a_core a')).
Proof.
  intros Hn Hcap Ha Hfit. apply serving_inv in Ha; [|done..]. split.
  - pose proof (ai_panic _ _ _ _ _ Ha) as Hp. by injection Hp.
  - eapply returns_mono; [by apply (writer_step_inv n capacity taken)|]. intros a' Ha'.
    pose proof (ai_panic _ _ _ _ _ Ha') as Hp. by injection Hp as -> _ ->.
Qed.


(** ** A concrete service: one gateway, two shards with room for one action *)

Definition demo_now : nat → nat → Z := λ t k, 1000 + Z.of_nat t.
Definition silent_gw : string → OmsActor.GwAnswers :=
  λ _, OmsActor.mkGwAnswers None None None (λ _, None).
Definition demo_confdata : ConfdataManager := demo_config [].

Definition demo_start : outcome (OmsActor unit) :=
  OmsStartup.start demo_now "oms1" silent_gw demo_confdata
    (OmsStartup.warm_core 0 demo_confdata false false 100 [] [] []) {[ "GW1" := tt ]} 2 1.
Definition demo_step (cmd : OmsCommand) (a : OmsActor unit) : outcome (OmsActor unit) :=
  OmsActor.writer_step demo_now "oms1" silent_gw demo_confdata None cmd a.

Definition actor_of (m : outcome (OmsActor unit)) : OmsActor unit :=
  match m with Returns a => a | Panics _ => OmsStartup.boot checked_core ∅ end.
Definition demo_actor : OmsActor unit := actor_of demo_start.
Definition demo_place (oid : Z) : OmsCommand :=
  CmdPlaceOrder (demo_order oid BsBuy "BTC-PERP" (f64.of_Z 10) (f64.of_Z 100)) 1 oid.
Definition demo_placed : OmsActor unit := actor_of (demo_step (demo_place 11) demo_actor).

Notation demo_serving := (serving demo_now "oms1" demo_confdata 2 1 reload_fits).

Lemma actor_of_returns m : returns m (λ _, True) → m = Returns (actor_of m).
Proof. by destruct m. Qed.

Lemma demo_actor_serving : demo_serving demo_actor [].
Proof.
  eapply (serving_start _ _ _ _ _ _ 0 false false 100 [] [] [] {[ "GW1" := tt ]} silent_gw); [lia|].
  apply actor_of_returns. by vm_compute.
Qed.
Lemma demo_placed_serving : demo_serving demo_placed [].
Proof.
  apply (serving_command _ _ _ _ _ _ silent_gw None (demo_place 11) demo_actor);
    [apply demo_actor_serving|done|]. apply actor_of_returns. by vm_compute.
Qed.

Lemma oms_service_never_panics_witness :
  (0 < 2)%nat ∧ (0 < 1)%nat ∧ demo_serving demo_placed [] ∧
  ∃ a', demo_step (demo_place 13) demo_placed = Returns a'.
Proof.
  split; [lia|]. split; [lia|]. split; [apply demo_placed_serving|].
  apply (oms_service_never_panics demo_now "oms1" demo_confdata 2 1
    ltac:(lia) ltac:(lia)) with (taken := []); [apply demo_placed_serving|done].
Defined.

Lemma replica_panic_exact_witness :
  demo_serving demo_placed [] ∧ sn_panic_accounts (a_replica demo_placed) = ∅ ∧
  returns (demo_step (CmdPanic 7 1) demo_placed) (λ a', sn_panic_accounts (a_replica a') = {[7]}).
Proof.
  destruct (replica_panic_exact demo_now "oms1" demo_confdata 2 1 demo_placed [] silent_gw None
    (CmdPanic 7 1) ltac:(lia) ltac:(lia) demo_placed_serving I) as [H1 H2].
  assert (c_panic_accounts (a_core demo_placed) = ∅) as H0 by by vm_compute.
  split; [apply demo_placed_serving|]. split; [by rewrite H1|].
  eapply returns_mono; [exact H2|]. intros a' [Hc Hr]. rewrite Hr, Hc, H0. set_solver.
Defined.

