(* ===== verification/ServiceReplica.v ===== *)
(** * The read replica lists the open orders ([zk-oms-svc/src/oms_actor.rs])

    Queries are answered from the replica, which the writer task maintains from
    the actions of the core only.  For every order in the core's store, the
    replica lists it as open under its account exactly while it is not terminal,
    also when gateway dispatches fail in the middle of a command.  Runs of the
    service that go wrong follow. *)

From S2P Require Import Prelude F64 Proto Intern Models Config Metadata MetadataFacts MetadataReload Utils Position.
From S2P Require Import OrderStore OrderHistory OmsCore OmsSafety OmsLifecycle OmsTracked Scenario.
From S2P Require Import Channels Reconcile SnapshotV2 Persist OmsExec OmsActor OmsService ServiceSafety.

Lemma returns_yields {A} (m : outcome A) (P Q : A → Prop) :
  returns m P → yields m Q → returns m (λ a, P a ∧ Q a).
Proof. by destruct m. Qed.

Lemma yields_seq {A B} (m : outcome A) (f : A → outcome B) (P : A → Prop) Q :
  yields m P → (∀ a, P a → yields (f a) Q) → yields (m ≫= f) Q.
Proof. destruct m; simpl; auto. Qed.

(** ** Open in the snapshot *)

Definition open_in (w : OmsSnapshotWriterV2) (account_id oid : Z) : Prop :=
  oid ∈ default ∅ (sw_open_by_account w !! account_id).

(** An order and its entry agree; an external order may not be listed yet. *)
Definition tracked_order (w : OmsSnapshotWriterV2) (oid : Z) (l : LiveOrder) : Prop :=
  (open_in w (lo_account_id l) oid → is_in_terminal_state l = false) ∧
  (lo_is_external l = false → is_in_terminal_state l = false → open_in w (lo_account_id l) oid).

(** Orders are filed under their id, and an id listed as open has its order. *)
Definition writer_ok (w : OmsSnapshotWriterV2) : Prop :=
  (∀ oid o, sw_orders w !! oid = Some o → so_order_id o = oid) ∧
  (∀ account oid, open_in w account oid → is_Some (sw_orders w !! oid)).

(** While the actions [rest] are still to be handled. *)
Definition pending_ok (rest : list OmsActionV2) (c : OmsCoreV2) (w : OmsSnapshotWriterV2) : Prop :=
  writer_ok w ∧ ∀ oid l, live_at c oid = Some l →
    match last_persist oid rest with
    | Some closed => is_in_terminal_state l = closed
    | None => tracked_order w oid l
    end.

Lemma facet_tracked w oid l l' : facet l' = facet l → tracked_order w oid l → tracked_order w oid l'.
Proof. unfold facet, tracked_order. by intros [= -> -> ->]. Qed.

(** A message through the core, when nothing is pending. *)
Lemma pending_message (created : Z → Prop) acts c c' w :
  (∀ oid account, created oid → ¬ open_in w account oid) →
  announced created acts c c' → pending_ok [] c w → pending_ok acts c' w.
Proof.
  intros Hout Han [Hw Hp]. split; [done|]. intros oid l' Hl'. pose proof (an_order _ _ _ _ Han oid l' Hl') as H.
  destruct (last_persist oid acts); [done|]. destruct H as [(l & Hl & Ef)|[Hc Ht]].
  - by eapply facet_tracked; [|apply (Hp oid l Hl)].
  - split; [by intros ?%Hout|]. intros Hx Hn. destruct Ht; congruence.
Qed.

(** One that creates no order, with [rest] pending. *)
Lemma pending_failure rest acts c c' w :
  announced none_created acts c c' → pending_ok rest c w → pending_ok (rest ++ acts) c' w.
Proof.
  intros Han [Hw Hp]. split; [done|]. intros oid l' Hl'. pose proof (an_order _ _ _ _ Han oid l' Hl') as H.
  rewrite last_persist_app. destruct (last_persist oid acts); [done|].
  destruct H as [(l & Hl & Ef)|[[] _]]. specialize (Hp oid l Hl). destruct (last_persist oid rest).
  - injection Ef as -> _ _. done.
  - by eapply facet_tracked.
Qed.

(** The snapshot entry of one order is written. *)
Lemma pending_persist oid e closed rest c w w' :
  (writer_ok w → writer_ok w') →
  (∀ l, live_at c oid = Some l → open_in w' (lo_account_id l) oid ↔ closed = false) →
  (∀ o account, o ≠ oid → open_in w' account o ↔ open_in w account o) →
  pending_ok (PersistOrder oid e closed :: rest) c w → pending_ok rest c w'.
Proof.
  intros Hok Hoid Hothers [Hw Hp]. split; [by apply Hok|]. intros o l Hl. specialize (Hp o l Hl). simpl in Hp.
  destruct (last_persist o rest); [done|]. destruct (decide (o = oid)) as [->|Hne].
  - rewrite decide_True in Hp by done. subst closed. specialize (Hoid l Hl). unfold tracked_order. tauto.
  - rewrite decide_False in Hp by done. unfold tracked_order in *. by rewrite Hothers.
Qed.

(** Any other action. *)
Lemma pending_skip act rest c w :
  (∀ oid, persist_flag oid act = None) → pending_ok (act :: rest) c w → pending_ok rest c w.
Proof.
  intros Ha [Hw Hp]. split; [done|]. intros o l Hl. specialize (Hp o l Hl). simpl in Hp. rewrite Ha in Hp.
  by destruct (last_persist o rest).
Qed.

(** ** What the handlers do to the core and to the snapshot *)

Section frames.
Context {Client : Type}.
Context `{!Uppercase, !HashIter Z, !HashIterOk Z, !HashIter string, !HashIter (Z * Z), !HashIter (Z * string)}.
Context (now : nat → nat → Z) (oms_id : string).
Implicit Types (a : OmsActor Client).

Definition same_state a a' : Prop := a_core a' = a_core a ∧ a_writer a' = a_writer a.

#[local] Instance same_state_preorder : PreOrder same_state.
Proof. split; [by intros a|]. intros a1 a2 a3 [H1 H2] [H3 H4]. by split; etrans. Qed.

Lemma yields_same a m f :
  yields m (same_state a) → (∀ a', yields (f a') (same_state a')) → yields (m ≫= f) (same_state a).
Proof.
  intros Hm Hf. destruct m as [a'|]; [|done]. simpl in *. eapply yields_weaken; [apply Hf|].
  intros a'' Ha. by etrans.
Qed.

Lemma persist_dispatch_same pa a : yields (OmsActor.persist_dispatch pa a) (same_state a).
Proof. unfold OmsActor.persist_dispatch. by apply yields_bind. Qed.
Lemma publish_dispatch_same key pa a : yields (OmsActor.publish_dispatch key pa a) (same_state a).
Proof. unfold OmsActor.publish_dispatch. by apply yields_bind. Qed.
Lemma recorder_dispatch_same acct ra a : yields (OmsActor.recorder_dispatch acct ra a) (same_state a).
Proof. unfold OmsActor.recorder_dispatch. by apply yields_bind. Qed.

Lemma record_trade_same oid t b a : yields (OmsActor.record_trade oms_id oid t b a) (same_state a).
Proof.
  destruct t as [t|]; [|done]. simpl. apply yields_bind. intros [rec|] _; [|done].
  apply recorder_dispatch_same.
Qed.

Lemma on_publish_order_same recorder ctx oid t f e i a :
  yields (OmsActor.on_publish_order now oms_id recorder ctx oid t f e i a) (same_state a).
Proof.
  unfold OmsActor.on_publish_order, OmsActor.read_clock. apply yields_bind. intros [ev|] _; [|done].
  apply yields_same.
  - destruct (recorder && t); [|done]. eapply yields_weaken; [apply record_trade_same|]. done.
  - intros a1. apply yields_same; [|intros; apply publish_dispatch_same].
    destruct (_ && _ && _); [apply record_trade_same|done].
Qed.

Lemma on_persist_balance_same acct asset a :
  yields (OmsActor.on_persist_balance acct asset a) (same_state a).
Proof.
  unfold OmsActor.on_persist_balance. apply yields_bind. intros [pa|] _; [|done]. apply persist_dispatch_same.
Qed.
Lemma on_persist_position_same acct inst a :
  yields (OmsActor.on_persist_position acct inst a) (same_state a).
Proof.
  unfold OmsActor.on_persist_position. apply yields_bind. intros [pa|] _; [|done]. apply persist_dispatch_same.
Qed.
Lemma on_publish_balance_same acct a :
  yields (OmsActor.on_publish_balance now acct a) (same_state a).
Proof.
  unfold OmsActor.on_publish_balance, OmsActor.read_clock.
  eapply yields_weaken; [apply publish_dispatch_same|]. done.
Qed.
Lemma on_publish_position_same acct a :
  yields (OmsActor.on_publish_position now acct a) (same_state a).
Proof.
  unfold OmsActor.on_publish_position, OmsActor.read_clock. apply yields_bind. intros ev _.
  eapply yields_weaken; [apply publish_dispatch_same|]. done.
Qed.

(** *** [PersistOrder] *)

Lemma open_update so closed w account o :
  open_in (OmsSnapshotWriterV2.apply_order_update so closed w) account o ↔
  if decide (o = so_order_id so ∧ account = so_account_id so) then closed = false
  else open_in w account o.
Proof.
  unfold open_in, OmsSnapshotWriterV2.apply_order_update. simpl.
  destruct (decide (account = so_account_id so)) as [->|Hne].
  - rewrite lookup_insert_eq. simpl. destruct (decide (o = so_order_id so)) as [->|Ho].
    + rewrite decide_True by done. destruct closed; set_solver.
    + rewrite decide_False by naive_solver. destruct closed; set_solver.
  - rewrite lookup_insert_ne by done. rewrite decide_False by naive_solver. done.
Qed.

Lemma update_writer_ok so closed w w' :
  sw_open_by_account w' = sw_open_by_account (OmsSnapshotWriterV2.apply_order_update so closed w) →
  sw_orders w' = <[so_order_id so := so]> (sw_orders w) → writer_ok w → writer_ok w'.
Proof.
  intros Eo Es [Hid Hw]. unfold writer_ok. rewrite Es. split.
  - intros oid o. destruct (decide (oid = so_order_id so)) as [->|Hne].
    + rewrite lookup_insert_eq. by intros [= <-].
    + rewrite lookup_insert_ne by done. apply Hid.
  - intros account oid Hin. destruct (decide (oid = so_order_id so)) as [->|Hne];
      [by rewrite lookup_insert_eq|]. rewrite lookup_insert_ne by done. apply (Hw account).
    unfold open_in in Hin. rewrite Eo in Hin. apply open_update in Hin.
    by rewrite decide_False in Hin by naive_solver.
Qed.

Lemma on_persist_order_pending redis recorder oid e closed rest a :
  core_wf (a_core a) → pending_ok (PersistOrder oid e closed :: rest) (a_core a) (a_writer a) →
  yields (OmsActor.on_persist_order oms_id redis recorder oid e closed a)
    (λ a', a_core a' = a_core a ∧ pending_ok rest (a_core a') (a_writer a')).
Proof.
  intros Hwf Hp. unfold OmsActor.on_persist_order. apply yields_bind. intros a1 E1.
  assert (a_core a1 = a_core a ∧ pending_ok rest (a_core a1) (a_writer a1)) as H1.
  { unfold OmsActor.snapshot_order, OrderStoreV2.get_live in E1.
    destruct (live_at (a_core a) oid) as [live|] eqn:El.
    - destruct (returns_inv _ _ (snapshot_order_returns oid live _ Hwf El)) as (so & Eso & <- & Hacc).
      rewrite Eso in E1. simpl in E1.
      assert (a_core a1 = a_core a ∧
        sw_open_by_account (a_writer a1) =
        sw_open_by_account (OmsSnapshotWriterV2.apply_order_update so closed (a_writer a)) ∧
        sw_orders (a_writer a1) = <[so_order_id so := so]> (sw_orders (a_writer a))) as (Ec & Ew & Es).
      { destruct (OrderStoreV2.get_detail _ _); [|by injection E1 as <-].
        destruct (build_snapshot_detail_from_core _ _ _ _ _); [|done]. by injection E1 as <-. }
      split; [done|]. rewrite Ec. eapply pending_persist; [by eapply update_writer_ok| | |exact Hp].
      + intros l Hl. rewrite El in Hl. injection Hl as <-. unfold open_in. rewrite Ew.
        etrans; [apply open_update|]. by rewrite decide_True.
      + intros o account Ho. unfold open_in. rewrite Ew. etrans; [apply open_update|].
        by rewrite decide_False by naive_solver.
    - injection E1 as <-. split; [done|]. eapply pending_persist; [done| |done|exact Hp].
      intros l. by rewrite El. }
  clear E1. assert (∀ a', same_state a1 a' → a_core a' = a_core a ∧ pending_ok rest (a_core a') (a_writer a'))
    as Hsame by (intros a' [-> ->]; done).
  eapply yields_weaken; [|exact Hsame]. apply yields_same.
  - destruct redis; [|done]. apply yields_bind. intros [o|] _; [apply persist_dispatch_same|done].
  - intros a2. destruct (recorder && closed); [|done]. apply yields_bind.
    intros [ev|] _; [apply recorder_dispatch_same|done].
Qed.
End frames.

(** ** Commands *)

Section commands.
Context {Client : Type}.
Context `{!Uppercase, !HashIter Z, !HashIterOk Z, !HashIter string, !HashIter (Z * Z), !HashIter (Z * string)}.
Context (n capacity : nat) (taken : list GwAction).
Hypothesis Hn : (0 < n)%nat.
Context (now : nat → nat → Z) (oms_id : string).
Implicit Types (a : OmsActor Client) (d : @OmsActor.dispatch_acc Client).

Notation inv := (actor_inv n capacity taken).

(** The actions still to be handled, those of failures last. *)
Definition acc_pending (rest : list OmsActionV2) d : Prop :=
  pending_ok (rest ++ OmsActor.da_failures d) (a_core (OmsActor.da_actor d))
    (a_writer (OmsActor.da_actor d)).

(** A failure message: it creates no order. *)
Definition failure_message (msg : OmsMessage) : Prop := ∀ c oid, ¬ creates msg c oid.

Lemma failure_announced clk msg c :
  failure_message msg → match msg with BatchPlaceOrders _ => False | _ => True end →
  yields (OmsCoreV2.process_message clk msg c) (λ r, announced none_created r.1 c r.2).
Proof.
  intros Hf Hm. eapply yields_weaken; [apply message_announced|].
  - split; [by intros oid ?%Hf|by destruct msg].
  - intros r. apply announced_weaken. by intros oid ?%Hf.
Qed.

Lemma core_message_yields msg a P :
  yields (OmsCoreV2.process_message (now (a_tick a)) msg (a_core a)) (λ r, P r.1 r.2 (a_writer a)) →
  yields (OmsActor.core_message now msg a) (λ r, P r.1 (a_core r.2) (a_writer r.2)).
Proof.
  intros Hy. unfold OmsActor.core_message. apply yields_bind. intros [acts c] E. by rewrite E in Hy.
Qed.

(** The failures of a dispatch that found its queue full. *)
Lemma gw_dispatch_pending rest route act failed oids d :
  (∀ oid, failure_message (failed oid)) →
  (∀ oid, match failed oid with BatchPlaceOrders _ => False | _ => True end) →
  acc_pending rest d →
  yields (OmsActor.gw_dispatch now route act failed oids d) (acc_pending rest).
Proof.
  intros Hf Hb Hp. unfold OmsActor.gw_dispatch. apply yields_bind. intros [r p] _. cbv zeta.
  destruct r; [done|]. apply (yields_for_each (acc_pending rest)); [done|]. clear d Hp. intros d oid Hd.
  apply yields_bind. intros [acts a'] E. unfold acc_pending. cbn.
  pose proof (core_message_yields (failed oid) (OmsActor.da_actor d)
    (λ acts c w, pending_ok ((rest ++ OmsActor.da_failures d) ++ acts) c w)) as H1.
  rewrite E in H1. rewrite (assoc_L (++)). apply H1.
  eapply yields_weaken; [apply failure_announced; [apply Hf|apply Hb]|]. intros x Hx. eapply pending_failure; [exact Hx|exact Hd].
Qed.

Lemma dispatch_groups_pending rest mk failed groups d :
  (∀ oid, failure_message (failed oid)) →
  (∀ oid, match failed oid with BatchPlaceOrders _ => False | _ => True end) →
  acc_pending rest d →
  yields (OmsActor.dispatch_groups now mk failed groups d) (acc_pending rest).
Proof.
  intros Hf Hb Hp. apply (yields_for_each (acc_pending rest)); [done|]. intros d' [|route g] Hd'; [done|].
  by apply gw_dispatch_pending.
Qed.

Lemma with_actor_pending rest d m :
  yields m (same_state (OmsActor.da_actor d)) →
  acc_pending rest d →
  yields (OmsActor.with_actor d m) (acc_pending rest).
Proof. intros Hm Hp. destruct m as [a'|]; [|done]. destruct Hm as [Ec Ew]. unfold acc_pending. simpl. by rewrite Ec, Ew. Qed.

Lemma on_action_pending ps t1 t2 tw hot ctx act rest d :
  inv ps (OmsActor.da_actor d) → acc_pending (act :: rest) d →
  yields (OmsActor.on_action now oms_id t1 t2 tw hot ctx d act) (acc_pending rest).
Proof.
  intros Hi Hp. pose proof (ai_wf _ _ _ _ _ Hi) as Hwf.
  assert ((∀ oid, persist_flag oid act = None) →
    acc_pending rest d) as Hskip by (intros; by eapply pending_skip).
  destruct act; cbn [OmsActor.on_action]; try (specialize (Hskip ltac:(done))).
  - unfold OmsActor.send_order. apply yields_bind. intros k _. simpl.
    apply gw_dispatch_pending; [by intros ? ? ? []|done|exact Hskip].
  - unfold OmsActor.batch_send_orders. apply yields_bind. intros k _. apply yields_bind. intros g _.
    apply dispatch_groups_pending; [by intros ? ? ? []|done|exact Hskip].
  - unfold OmsActor.send_cancel. apply yields_bind. intros k _.
    apply gw_dispatch_pending; [by intros ? ? ? []|done|exact Hskip].
  - unfold OmsActor.batch_cancel. apply yields_bind. intros k _. apply yields_bind. intros g _.
    apply dispatch_groups_pending; [by intros ? ? ? []|done|exact Hskip].
  - apply with_actor_pending; [apply on_publish_order_same|exact Hskip].
  - apply (with_actor_pending rest (d <| OmsActor.da_balances_dirty := true |>));
      [apply on_publish_balance_same|exact Hskip].
  - apply (with_actor_pending rest (d <| OmsActor.da_positions_dirty := true |>));
      [apply on_publish_position_same|exact Hskip].
  - unfold OmsActor.with_actor. apply yields_bind. intros a' E. cbn.
    pose proof (on_persist_order_pending oms_id (negb hot) true order_id set_expire set_closed
      (rest ++ OmsActor.da_failures d) (OmsActor.da_actor d) Hwf Hp) as H1. rewrite E in H1. apply H1.
  - apply with_actor_pending; [apply on_persist_balance_same|exact Hskip].
  - apply with_actor_pending; [apply on_persist_position_same|exact Hskip].
Qed.

Lemma actions_pending ps t1 t2 tw hot ctx acts d :
  inv ps (OmsActor.da_actor d) → acc_pending acts d →
  returns (for_each (OmsActor.on_action now oms_id t1 t2 tw hot ctx) acts d)
    (λ d', inv ps (OmsActor.da_actor d') ∧ acc_pending [] d').
Proof.
  revert d. induction acts as [|act acts IH]; intros d Hi Hp; [done|]. simpl. apply returns_bind.
  eapply returns_mono; [apply returns_yields; [by apply on_action_inv|by eapply on_action_pending]|].
  intros d' [Hi' Hp']. by apply IH.
Qed.

Lemma on_failure_pending ps act rest d :
  inv ps (OmsActor.da_actor d) →
  pending_ok (act :: rest) (a_core (OmsActor.da_actor d)) (a_writer (OmsActor.da_actor d)) →
  yields (OmsActor.on_failure_action now oms_id d act) (λ d',
    pending_ok rest (a_core (OmsActor.da_actor d')) (a_writer (OmsActor.da_actor d'))).
Proof.
  intros Hi Hp. pose proof (ai_wf _ _ _ _ _ Hi) as Hwf.
  assert (∀ d0 m, (∀ oid, persist_flag oid act = None) → OmsActor.da_actor d0 = OmsActor.da_actor d →
    yields m (same_state (OmsActor.da_actor d)) →
    yields (OmsActor.with_actor d0 m) (λ d',
      pending_ok rest (a_core (OmsActor.da_actor d')) (a_writer (OmsActor.da_actor d')))) as Hskip.
  { intros d0 m Ha _ Hm. destruct m as [a'|]; [|done]. destruct Hm as [Ec Ew]. simpl. rewrite Ec, Ew.
    by eapply (pending_skip act). }
  destruct act; cbn [OmsActor.on_failure_action];
    try (refine (pending_skip _ _ _ _ _ Hp); done).
  - apply Hskip; [done..|apply on_publish_order_same].
  - apply Hskip; [done..|apply on_publish_balance_same].
  - unfold OmsActor.with_actor. apply yields_bind. intros a' E. cbn.
    pose proof (on_persist_order_pending oms_id true true order_id set_expire set_closed rest
      (OmsActor.da_actor d) Hwf Hp) as H1. rewrite E in H1. apply H1.
  - apply Hskip; [done..|apply on_persist_balance_same].
Qed.

Lemma failures_pending ps acts d :
  inv ps (OmsActor.da_actor d) →
  pending_ok acts (a_core (OmsActor.da_actor d)) (a_writer (OmsActor.da_actor d)) →
  returns (for_each (OmsActor.on_failure_action now oms_id) acts d) (λ d', inv ps (OmsActor.da_actor d') ∧
    pending_ok [] (a_core (OmsActor.da_actor d')) (a_writer (OmsActor.da_actor d'))).
Proof.
  revert d. induction acts as [|act acts IH]; intros d Hi Hp; [done|]. simpl. apply returns_bind.
  eapply returns_mono; [apply returns_yields; [by apply on_failure_action_inv|by eapply on_failure_pending]|].
  intros d' [Hi' Hp']. by apply IH.
Qed.

(** *** The replica is the writer's state *)

Definition synced a : Prop :=
  pending_ok [] (a_core a) (a_writer a) ∧
  sn_open_order_ids_by_account (a_replica a) = sw_open_by_account (a_writer a) ∧
  sn_orders (a_replica a) = sw_orders (a_writer a) ∧
  sn_order_ids_by_exch_ref (a_replica a) = build_exch_ref_index (sw_orders (a_writer a)).

Lemma publish_synced b p a :
  pending_ok [] (a_core a) (a_writer a) → synced (OmsActor.publish_snapshot now b p a).
Proof.
  intros Hp. unfold OmsActor.publish_snapshot.
  destruct (if p then _ else _) as [[? ?] ?]. by destruct (if b then _ else _) as [? ?].
Qed.

(** A message whose orders are new to the core and to the snapshot. *)
Definition new_orders (msg : OmsMessage) a : Prop :=
  fresh_message msg (a_core a) ∧
  ∀ oid account, creates msg (a_core a) oid → ¬ open_in (a_writer a) account oid.

Lemma drive_synced ps cmd t2 ctx msg reply a :
  inv ps a → new_orders msg a → pending_ok [] (a_core a) (a_writer a) →
  returns (OmsActor.drive now oms_id cmd t2 ctx msg reply a) synced.
Proof.
  intros Hi [Hf Hout] Hp. unfold OmsActor.drive. apply returns_bind.
  eapply returns_mono; [apply returns_yields; [by apply core_message_inv|]|].
  { apply (core_message_yields msg a (λ acts c w, pending_ok acts c w)).
    eapply yields_weaken; [by apply message_announced|]. intros r Hr. eapply pending_message; [exact Hout|exact Hr|exact Hp]. }
  intros [acts a1] [Hi1 Hp1]. simpl in Hi1, Hp1. apply (read_clock_inv _ _ _ now) in Hi1.
  apply returns_bind. eapply returns_mono.
  { apply (actions_pending (after_core msg ps)); [exact Hi1|]. unfold acc_pending. simpl. by rewrite app_nil_r. }
  intros d [Hi2 Hp2]. apply returns_bind. eapply returns_mono; [by apply (failures_pending (after_core msg ps))|].
  intros d' [_ Hp3]. apply returns_ret.
  pose proof (publish_synced (OmsActor.da_balances_dirty d') (OmsActor.da_positions_dirty d') _ Hp3) as Hs.
  by destruct reply.
Qed.

(** The commands under which the replica stays exact: new orders have new ids,
    and no gateway is configured under the empty key, which is the one synthetic
    reports carry. *)
Definition fresh_command (cmd : OmsCommand) a : Prop :=
  match cmd, OmsActor.command_message cmd with
  | (CmdOrderReconcile | CmdGatewayDiscovered _ _ _), _ => OmsCoreV2.resolve_gw "" (a_core a) = None
  | _, Some (msg, _) => new_orders msg a
  | _, None => True
  end.

Lemma process_command_synced s cmd a :
  reload_fits cmd a → fresh_command cmd a → inv (settled s) a → synced a →
  match cmd with CmdOrderReconcile | CmdGatewayDiscovered _ _ _ | CmdGatewayRemoved _ _ => False | _ => True end →
  returns (OmsActor.process_command now oms_id cmd a) synced.
Proof.
  intros Hfit Hfresh Hi [Hp Hr] Hcmd.
  pose proof (process_command_inv n capacity taken Hn now oms_id s cmd a Hfit Hi) as Hret.
  unfold OmsActor.process_command in *. apply (read_clock_inv _ _ _ now) in Hi.
  destruct cmd; try done;
    cbn [OmsActor.report_latency_ctx OmsActor.command_message OmsActor.apply_panic_command
         OmsActor.read_clock] in *;
    lazymatch goal with
    | |- returns (OmsActor.reload_config _ _ _ _) _ => idtac
    | |- _ => apply (drive_synced (settled s)); [by destruct Hi|exact Hfresh|exact Hp]
    end.
  unfold OmsActor.reload_config in *. destruct (OmsCoreV2.reload_config new_config _) as [core|] eqn:E; [|done].
  simpl in *. destruct (build_snapshot_metadata core) as [meta|]; [|done]. simpl in *.
  assert (c_orders core = c_orders (a_core a)) as Eo.
  { unfold OmsCoreV2.reload_config in E. simpl in E.
    destruct (MetadataTables.rebuild_from_config new_config _); [|done]. by injection E as <-. }
  apply (publish_synced true true (a <| a_tick ::= S |> <| a_core := core |>
    <| a_writer ::= OmsSnapshotWriterV2.update_metadata meta |>)). simpl.
  split; [apply Hp|]. intros oid l. rewrite Eo. apply Hp.
Qed.
End commands.

(** ** Reconciliation, resync and start-up *)

Section reconcile.
Context {Client : Type}.
Context `{!Uppercase, !HashIter Z, !HashIterOk Z, !HashIter string, !HashIter (Z * Z), !HashIter (Z * string)}.
Context (now : nat → nat → Z) (oms_id : string) (answers : string → OmsActor.GwAnswers).
Implicit Types (a : OmsActor Client).

(** The core, the snapshot writer and the replica. *)
Definition view a : OmsCoreV2 * OmsSnapshotWriterV2 * OmsSnapshotV2 := (a_core a, a_writer a, a_replica a).

(** A report of the reconciliation. *)
Definition synthetic (r : OrderReport) : Prop := rep_exchange r = "".

Lemma synthetic_dropped r a :
  synthetic r → OmsCoreV2.resolve_gw "" (a_core a) = None →
  OmsActor.core_message now (GatewayOrderReport r) a = mret ([], a <| a_tick ::= S |>).
Proof.
  intros Hr Hgw. unfold OmsActor.core_message. simpl. unfold OmsCoreV2.process_order_report.
  rewrite Hr, Hgw. simpl. by destruct a.
Qed.

Lemma dispatch_synthetic r a :
  synthetic r → OmsCoreV2.resolve_gw "" (a_core a) = None →
  OmsActor.dispatch_reconcile_report now oms_id r a = mret (a <| a_tick ::= S |>).
Proof. intros Hr Hgw. unfold OmsActor.dispatch_reconcile_report. by rewrite synthetic_dropped. Qed.

Lemma reconcile_gw_orders_view gw snapshots ts a :
  OmsCoreV2.resolve_gw "" (a_core a) = None →
  yields (OmsActor.reconcile_gw_orders now oms_id answers gw snapshots ts a) (λ r, view r.2 = view a).
Proof.
  intros Hgw. unfold OmsActor.reconcile_gw_orders.
  destruct (OmsActor.query answers gw OmsActor.ga_open_orders a) as [gw_open|]; [|done].
  destruct (reconcile_orders_against_gateway snapshots gw_open gw ts) as [[reports needs] st] eqn:E.
  assert (∀ (l : list OrderReport) a1, Forall synthetic l → view a1 = view a →
    yields (for_each (λ a r, OmsActor.dispatch_reconcile_report now oms_id r a) l a1)
      (λ a2, view a2 = view a)) as Hall.
  { induction l as [|r l IH]; intros a1 Hl Hv; [done|]. apply Forall_cons in Hl as [Hr Hl].
    cbn [for_each]. rewrite dispatch_synthetic; [by apply IH|done|]. by injection Hv as -> _ _. }
  apply yields_bind. intros a1 E1. assert (view a1 = view a) as Hv1.
  { specialize (Hall reports a). rewrite E1 in Hall. apply Hall; [|done].
    rewrite Forall_forall. intros r Hr. rewrite reconcile_meets_spec in E.
    apply (synthetic_exchange ts (mkOmsOrderSnapshot 0 0 "" None "" 0 f64.zero) (gw_order_index gw_open)
      gw (of_gateway gw snapshots) []). right. by rewrite E. }
  destruct needs as [|snap needs]; [done|]. apply yields_bind. intros a2 E2.
  set (details := default [] _) in E2.
  specialize (Hall ((λ s, resolve_missing_order s details ts) <$> (snap :: needs)) a1).
  rewrite for_each_fmap, E2 in Hall. apply Hall; [|done].
  rewrite Forall_fmap, Forall_forall. intros s _.
  apply (synthetic_exchange ts s ∅ "" [] details). by left.
Qed.

Lemma synced_view a a' : view a' = view a → synced a → synced a'.
Proof. unfold view, synced. by intros [= -> -> ->]. Qed.

Lemma run_order_reconcile_synced a :
  OmsCoreV2.resolve_gw "" (a_core a) = None → synced a →
  yields (OmsActor.run_order_reconcile now oms_id answers a) synced.
Proof.
  intros Hgw Hs. unfold OmsActor.run_order_reconcile. apply yields_bind. intros [|snap snapshots] _; [done|].
  eapply (yields_seq _ _ (λ r : bool * OmsActor Client, view r.2 = view a)).
  - apply (yields_for_each (λ r : bool * OmsActor Client, view r.2 = view a)); [done|].
    intros [any a1] gw Hv. simpl in Hv. eapply yields_seq.
    + apply reconcile_gw_orders_view. by injection Hv as -> _ _.
    + intros [b a2] Hv2. simpl in *. by rewrite Hv2.
  - intros [[] a1] Hv; [|by eapply synced_view]. apply publish_synced.
    simpl in Hv. injection Hv as -> -> _. apply Hs.
Qed.

(** What a balance update leaves alone. *)
Definition orders_view a : OrderStoreV2 * MetadataTables * OmsSnapshotWriterV2 * OmsSnapshotV2 :=
  (c_orders (a_core a), c_metadata (a_core a), a_writer a, a_replica a).

Lemma synced_orders a a' : orders_view a' = orders_view a → synced a → synced a'.
Proof.
  unfold orders_view, synced, pending_ok. intros [= Eo _ -> ->]. by rewrite Eo.
Qed.

Lemma balance_to_redis_view acct asset a :
  yields (OmsActor.persist_balance_to_redis oms_id acct asset a) (λ a', orders_view a' = orders_view a).
Proof.
  unfold OmsActor.persist_balance_to_redis. apply yields_bind. intros name _. simpl. by case_match.
Qed.
Lemma position_to_redis_view acct inst a :
  yields (OmsActor.persist_position_to_redis oms_id acct inst a) (λ a', orders_view a' = orders_view a).
Proof.
  unfold OmsActor.persist_position_to_redis. apply yields_bind. intros name _. simpl. by case_match.
Qed.

Lemma resync_update_view update a :
  yields (OmsActor.resync_update now oms_id update a) (λ a', orders_view a' = orders_view a).
Proof.
  unfold OmsActor.resync_update. apply yields_bind. intros [acts a1] E.
  assert (orders_view a1 = orders_view a) as H1.
  { unfold OmsActor.core_message in E.
    pose proof (balance_quiet (now (a_tick a)) update (a_core a)) as Hq.
    change (OmsCoreV2.process_message (now (a_tick a)) (BalanceUpdateMsg update) (a_core a))
      with (OmsCoreV2.process_balance_update (now (a_tick a)) update (a_core a)) in E.
    destruct (OmsCoreV2.process_balance_update _ _ _) as [[acts0 c]|]; [|done].
    destruct Hq as [[= Eo Em] _]. injection E as _ <-. unfold orders_view. simpl. by rewrite Eo, Em. }
  unfold OmsActor.persist_balance_position_actions.
  apply (yields_for_each (λ a', orders_view a' = orders_view a)); [done|]. intros a2 act H2.
  destruct act; try done; eapply yields_weaken;
    [apply balance_to_redis_view|intros a3 ->; done|apply position_to_redis_view|intros a3 ->; done].
Qed.

Lemma resync_view confdata gw a :
  yields (OmsActor.resync_gw_balance_position now oms_id answers confdata gw a)
    (λ a', orders_view a' = orders_view a).
Proof.
  unfold OmsActor.resync_gw_balance_position. apply yields_bind. intros a1 E1.
  assert (orders_view a1 = orders_view a) as H1.
  { destruct (OmsActor.query answers gw OmsActor.ga_balance a) as [[u|]|];
      [|by injection E1 as <-|by injection E1 as <-].
    pose proof (resync_update_view (normalize_gw_balance_update_for_oms confdata gw u) a) as H1.
    by rewrite E1 in H1. }
  destruct (OmsActor.query answers gw OmsActor.ga_positions a1) as [[|p l]|]; [done| |done].
  eapply yields_weaken; [apply resync_update_view|]. by intros a2 ->.
Qed.

Lemma run_gateway_resync_synced confdata gw a :
  OmsCoreV2.resolve_gw "" (a_core a) = None → synced a →
  yields (OmsActor.run_gateway_resync now oms_id answers confdata gw a) synced.
Proof.
  intros Hgw Hs. unfold OmsActor.run_gateway_resync.
  eapply yields_seq; [apply resync_view|]. intros a1 Hv. apply yields_bind. intros snaps _.
  assert (OmsCoreV2.resolve_gw "" (a_core a1) = None) as Hgw1.
  { injection Hv as _ Em _ _. unfold OmsCoreV2.resolve_gw in *. by rewrite Em. }
  apply (synced_orders _ _ Hv) in Hs. simpl.
  eapply yields_seq; [by apply reconcile_gw_orders_view|]. intros [b a2] Hv2.
  apply publish_synced. simpl in Hv2. injection Hv2 as -> -> _. apply Hs.
Qed.

(** *** The initial snapshot *)

(** The orders hydrated so far. *)
Definition hydrated (core : OmsCoreV2) (w : OmsSnapshotWriterV2) (keys : list Z) : Prop :=
  writer_ok w ∧ ∀ oid l, live_at core oid = Some l → oid ∈ keys →
    open_in w (lo_account_id l) oid ↔ is_in_terminal_state l = false.

Lemma hydrate_one core w keys oid :
  core_wf core → hydrated core w keys →
  yields (OmsStartup.hydrate_order core w oid) (λ w', hydrated core w' (keys ++ [oid])).
Proof.
  intros Hwf Hh. unfold OmsStartup.hydrate_order. destruct (live_at core oid) as [live|] eqn:El.
  - destruct (returns_inv _ _ (snapshot_order_returns oid live _ Hwf El)) as (so & -> & Hid & Hacc). simpl.
    assert (∀ w', sw_open_by_account w' =
      sw_open_by_account (OmsSnapshotWriterV2.apply_order_update so (is_in_terminal_state live) w) →
      sw_orders w' = <[so_order_id so := so]> (sw_orders w) → hydrated core w' (keys ++ [oid])) as Hw.
    { intros w' Ew Es. destruct Hh as [Hok Hh]. split; [by eapply update_writer_ok|]. intros o l Hl Hin. unfold open_in. rewrite Ew. etrans; [apply open_update|].
      destruct (decide (o = oid)) as [->|Hne].
      - rewrite El in Hl. injection Hl as <-. by rewrite decide_True.
      - rewrite decide_False by naive_solver. apply Hh; [done|]. set_solver. }
    destruct (OrderStoreV2.get_detail _ _); [|by apply Hw]. apply yields_bind. intros sd _. by apply Hw.
  - destruct Hh as [Hok Hh]. split; [done|]. intros o l Hl Hin. apply Hh; [done|]. apply elem_of_app in Hin as [|Hin]; [done|].
    apply list_elem_of_singleton in Hin. congruence.
Qed.

Lemma hydrate_all core l keys w :
  core_wf core → hydrated core w keys →
  yields (for_each (OmsStartup.hydrate_order core) l w) (λ w', hydrated core w' (keys ++ l)).
Proof.
  intros Hwf. revert keys w. induction l as [|oid l IH]; intros keys w Hh; [by rewrite app_nil_r|]. simpl.
  eapply yields_seq; [by apply hydrate_one|]. intros w' Hh'. rewrite cons_middle, (assoc_L (++)).
  by apply IH.
Qed.

Lemma initial_snapshot_synced a :
  core_wf (a_core a) → yields (OmsStartup.initial_snapshot now a) synced.
Proof.
  intros Hwf. unfold OmsStartup.initial_snapshot. apply yields_bind. intros meta _.
  eapply yields_seq; [apply (hydrate_all _ _ []); [done|]|].
  { split; [split|by intros ? ? ? ?%elem_of_nil].
    - intros oid o. simpl. by rewrite lookup_empty.
    - intros account oid Ho. unfold open_in in Ho. simpl in Ho. by rewrite lookup_empty in Ho. }
  intros w [Hok Hw]. apply publish_synced. split; [done|]. intros oid l Hl. simpl. assert (oid ∈ (hash_iter (os_live (c_orders (a_core a)))).*1) as Hin.
  { apply list_elem_of_fmap. exists (oid, l). split; [done|]. by apply elem_of_hash_iter. }
  specialize (Hw oid l Hl Hin). unfold tracked_order. simpl. tauto.
Qed.

Lemma start_synced confdata core gw_pool n capacity :
  (0 < n)%nat → (0 < capacity)%nat → reachable core → c_panic_accounts core = ∅ →
  returns (OmsStartup.start now oms_id answers confdata core gw_pool n capacity
             : outcome (OmsActor Client)) synced.
Proof.
  intros Hn Hcap Hc Hp. unfold OmsStartup.start. ostep.
  eapply returns_mono; [apply (returns_for_each (actor_inv 0 0 [] (settled ∅))); [by apply boot_ok|]|].
  { intros. by apply resync_inv. }
  intros a1 Ha1. ostep. eapply returns_mono; [by apply startup_reconcile_inv|]. intros a2 Ha2. ostep.
  eapply returns_mono; [apply returns_yields; [by apply initial_snapshot_inv|]|].
  { apply initial_snapshot_synced, (ai_wf _ _ _ _ _ Ha2). }
  intros a3 [Ha3 Hs].
  eapply returns_mono; [eapply (returns_yields _ _ synced); [by apply (gw_executor_inv n capacity)|]|].
  - unfold OmsStartup.gw_executor. apply yields_bind. intros ids _. apply yields_bind. intros pool _.
    exact Hs.
  - by intros a4 [_ Hs4].
Qed.
End reconcile.

(** ** The running service *)

Section serving.
Context {Client : Type}.
Context `{!Uppercase, !HashIter Z, !HashIterOk Z, !HashIter string, !HashIter (Z * Z), !HashIter (Z * string)}.
Context (now : nat → nat → Z) (oms_id : string) (confdata : ConfdataManager) (n capacity : nat).
Hypothesis (Hn : (0 < n)%nat) (Hcap : (0 < capacity)%nat).
Implicit Types (a : OmsActor Client).

Lemma writer_step_synced taken s answers connected cmd a :
  reload_fits cmd a → fresh_command cmd a → actor_inv n capacity taken (settled s) a → synced a →
  returns (OmsActor.writer_step now oms_id answers confdata connected cmd a) synced.
Proof.
  intros Hfit Hfresh Hi Hs.
  pose proof (writer_step_inv n capacity taken Hn now oms_id answers s confdata connected cmd a Hfit Hi) as Hr.
  assert (∀ m : outcome (OmsActor Client),
    returns m (actor_inv n capacity taken (settled (panic_command cmd s))) → yields m synced →
    returns m synced) as Hboth by (intros []; done).
  destruct cmd; unfold OmsActor.writer_step in *; try (by apply (process_command_synced n capacity taken Hn now oms_id s)).
  - apply Hboth; [done|]. by apply run_order_reconcile_synced.
  - apply Hboth; [done|]. unfold OmsActor.run_gateway_discovered.
    destruct (a_gw_pool a !! gw_key); [done|]. destruct connected as [client|]; [|done].
    by apply run_gateway_resync_synced.
  - exact Hs.
Qed.

Lemma serving_synced a taken :
  serving now oms_id confdata n capacity (λ cmd a, reload_fits cmd a ∧ fresh_command cmd a) a taken →
  synced a.
Proof.
  induction 1 as [seed risk ext max orders positions balances gw_pool answers a Hmax Hs
    |answers connected cmd a a' taken Hserv IH [Hfit Hfresh] Hstep|i a taken _ IH|i a taken _ IH|? ? ? a taken _ IH];
    try done.
  - destruct (warm_core_starts seed confdata risk ext max orders positions balances Hmax) as [Hr Hp].
    pose proof (start_synced now oms_id answers confdata _ gw_pool n capacity Hn Hcap Hr Hp) as Hi.
    by rewrite Hs in Hi.
  - apply serving_inv in Hserv; [|done..|by intros ? ? []].
    pose proof (writer_step_synced taken _ answers connected cmd a Hfit Hfresh Hserv IH) as Hi.
    by rewrite Hstep in Hi.
  - unfold worker_recv. by destruct (_ ≫= recv) as [[act ch]|].
Qed.
End serving.

(** ** On the concrete service *)

Notation demo_fresh_serving :=
  (serving demo_now "oms1" demo_confdata 2 1 (λ cmd a, reload_fits cmd a ∧ fresh_command cmd a)).

Lemma demo_placed_fresh : demo_fresh_serving demo_placed [].
Proof.
  apply (serving_command _ _ _ _ _ _ silent_gw None (demo_place 11) demo_actor).
  - eapply (serving_start _ _ _ _ _ _ 0 false false 100 [] [] [] {[ "GW1" := tt ]} silent_gw); [lia|].
    apply actor_of_returns. by vm_compute.
  - split; [done|]. split; [split; [|done]|].
    + intros oid <-. by vm_compute.
    + intros oid account <-. unfold open_in. replace (sw_open_by_account _) with (∅ : gmap Z (gset Z));
        [by rewrite lookup_empty|by vm_compute].
  - apply actor_of_returns. by vm_compute.
Qed.

(** A full gateway queue: the order of the command is rejected in the core, the
    replica lists the first order only, the reply still says success. *)
Lemma queue_full_rejects :
  returns (demo_step (demo_place 13) demo_placed) (λ a,
    (is_in_terminal_state <$> os_live (c_orders (a_core a)) !! 13) = Some true ∧
    sn_open_order_ids_by_account (a_replica a) !! 7 = Some {[11]} ∧
    (λ r, (r.1, orsp_status r.2)) <$> a_replies a = [(11, OmsRespStatusSuccess); (13, OmsRespStatusSuccess)]).
Proof. by vm_compute. Qed.

(** * Runs of the OMS service that go wrong ([zk-oms-svc/src/oms_actor.rs])

    Concrete runs of the writer task, evaluated. *)

(** A service that keeps [max] closed orders and accepts external ones. *)
Definition start_with (ext : bool) (max : Z) : outcome (OmsActor unit) :=
  OmsStartup.start demo_now "oms1" silent_gw demo_confdata
    (OmsStartup.warm_core 0 demo_confdata false ext max [] [] []) {[ "GW1" := tt ]} 2 8.
Definition run_commands (cmds : list OmsCommand) (m : outcome (OmsActor unit)) : outcome (OmsActor unit) :=
  a ← m; for_each (λ a cmd, demo_step cmd a) cmds a.

Definition open_of (a : OmsActor unit) (account_id : Z) : list Z :=
  elements (default ∅ (sn_open_order_ids_by_account (a_replica a) !! account_id)).

(** An external order whose first report has no entry that concerns it is in the
    core's store, working, but in no snapshot. *)
Lemma external_order_unlisted :
  returns (run_commands
      [CmdGatewayOrderReport ((demo_report 0 []) <| rep_exch_order_ref := "X-9" |> <| rep_account_id := 7 |>)]
      (start_with true 100)) (λ a,
    (λ x, is_in_terminal_state x.2) <$> map_to_list (os_live (c_orders (a_core a))) = [false] ∧
    open_of a 7 = [] ∧ sn_orders (a_replica a) = ∅).
Proof. by vm_compute. Qed.

(** With no room for closed orders the store drops a failed order before its
    [PersistOrder] is handled: the replica lists it as open for good. *)
Lemma evicted_order_stays_open :
  returns (run_commands [demo_place 11; CmdGatewaySendFailed 11 0 "down"] (start_with false 0)) (λ a,
    os_live (c_orders (a_core a)) !! 11 = None ∧ open_of a 7 = [11]).
Proof. by vm_compute. Qed.

(** An order for a panicked account is dropped by the core without a trace and
    answered as a success. *)
Lemma panicked_order_acknowledged :
  returns (run_commands [CmdPanic 7 1; demo_place 11] (start_with false 100)) (λ a,
    os_live (c_orders (a_core a)) = ∅ ∧ ShardedPool.queued 11 (a_publish a) = [] ∧
    (λ r, (r.1, orsp_status r.2)) <$> a_replies a = [(1, OmsRespStatusSuccess); (11, OmsRespStatusSuccess)]).
Proof. by vm_compute. Qed.

(** The source of an order is interned after the name table of the snapshot was
    built: a query shows it empty. *)
Lemma order_source_blank :
  returns (run_commands
      [CmdPlaceOrder ((demo_order 11 BsBuy "BTC-PERP" (f64.of_Z 10) (f64.of_Z 100))
         <| req_source_id := "strat-1" |>) 1 1] (start_with false 100)) (λ a,
    (λ o, ord_source_id (SnapshotOrder.to_proto_order (sn_metadata (a_replica a)) None o)) <$>
      sn_orders (a_replica a) !! 11 = Some "" ∧
    (λ l, OmsCoreV2.source_id l (a_core a)) <$> os_live (c_orders (a_core a)) !! 11 = Some "strat-1").
Proof. by vm_compute. Qed.

(** A report with two trades: both are in the order's history, the last one only
    is recorded. *)
Lemma second_trade_only_recorded :
  returns (run_commands
      [demo_place 11;
       CmdGatewayOrderReport (demo_report 11 [trade_entry (f64.of_Z 2) (f64.of_Z 100);
                                              trade_entry (f64.of_Z 3) (f64.of_Z 101)])]
      (start_with false 100)) (λ a,
    length (default [] (dl_trades <$> os_detail (c_orders (a_core a)) !! 11)) = 2%nat ∧
    omap (λ r, match r with RecTrade e => Some (rte_filled_qty e) | _ => None end)
      (ShardedPool.queued 7 (a_recorder a)) = [f64.of_Z 3]).
Proof. by vm_compute. Qed.

(** A gateway found after start-up reports a position: the core takes it over,
    the replica does not show it. *)
Definition holding_gw : string → OmsActor.GwAnswers := λ _,
  OmsActor.mkGwAnswers None
    (Some [default_Position <| pos_account_id := 7 |> <| pos_instrument_code := "BTCPERP" |>
             <| pos_instrument_type := InstTypePerp |> <| pos_total_qty := f64.of_Z 5 |>
             <| pos_avail_qty := f64.of_Z 5 |>]) (Some []) (λ _, None).
Definition lone_start : outcome (OmsActor unit) :=
  OmsStartup.start demo_now "oms1" silent_gw demo_confdata
    (OmsStartup.warm_core 0 demo_confdata false false 100 [] [] []) ∅ 2 8.

Lemma resync_hides_positions :
  returns (a ← lone_start;
           OmsActor.writer_step demo_now "oms1" holding_gw demo_confdata (Some tt)
             (CmdGatewayDiscovered "GW1" 0 "http://gw") a) (λ a,
    (λ p, mp_qty_total p.2) <$> hash_iter (Position.managed (c_positions (a_core a))) = [f64.of_Z 5] ∧
    sn_managed_positions (a_replica a) = ∅).
Proof. by vm_compute. Qed.
