(* ===== verification/OmsGrpc.v ===== *)
(** * The gRPC front of the OMS ([zk-oms-svc/src/grpc_handler.rs])

    Mutations are validated, checked against the read replica and handed to the
    writer task; queries are answered from the replica.  [send_cmd_await] is the
    command it sends: the reply is the writer's. *)

From S2P Require Import Prelude F64 Proto Intern Models Config Metadata MetadataFacts MetadataReload Utils.
From S2P Require Import OrderStore OrderHistory OmsCore OmsSafety OmsLifecycle OmsTracked Scenario Channels.
From S2P Require Import SnapshotV2 Persist OmsExec OmsActor OmsService ServiceSafety ServiceReplica.

Definition OmsErrTypeInvalidReq : Z := 2.

(** How a mutation ends: with a status, with a response of the handler itself,
    or with a command sent on the reply channel. *)
Inductive rpc_outcome : Type :=
| RpcInvalidArgument (msg : string)
| RpcUnimplemented (msg : string)
| RpcResponse (resp : OmsResponse)
| RpcSend (make_cmd : Z → OmsCommand).

Module OmsGrpcHandler.
Section handler.
Context `{!HashIter Z, !HashIter string}.
Implicit Types (snap : OmsSnapshotV2).

(** ** Mutations *)

Definition duplicate_response (now order_id : Z) : OmsResponse :=
  err_response now OmsErrTypeInvalidReq ("duplicate order_id=" +:+ display_i64 order_id).

Definition place_order (now oms_received_ns : Z) (request : option OrderRequest) snap : rpc_outcome :=
  match request with
  | None => RpcInvalidArgument "place_order: missing order_request"
  | Some order_req =>
      match validate_order_request order_req with
      | Err msg => RpcInvalidArgument msg
      | Ok _ =>
          let order_id := req_order_id order_req in
          if bool_decide (is_Some (sn_orders snap !! order_id))
          then RpcResponse (duplicate_response now order_id)
          else RpcSend (CmdPlaceOrder order_req oms_received_ns)
      end
  end.

(** The first loop of [batch_place_orders]: the message it stops with. *)
Fixpoint batch_invalid (seen : gset Z) (reqs : list OrderRequest) : option string :=
  match reqs with
  | [] => None
  | req :: reqs =>
      match validate_order_request req with
      | Err msg => Some msg
      | Ok _ =>
          if bool_decide (req_order_id req ∈ seen)
          then Some ("batch_place_orders: duplicate order_id=" +:+ display_i64 (req_order_id req) +:+
                     " within request")
          else batch_invalid ({[req_order_id req]} ∪ seen) reqs
      end
  end.

Definition batch_place_orders (now : Z) (reqs : list OrderRequest) snap : rpc_outcome :=
  match batch_invalid ∅ reqs with
  | Some msg => RpcInvalidArgument msg
  | None =>
      match List.find (λ req, bool_decide (is_Some (sn_orders snap !! req_order_id req))) reqs with
      | Some req => RpcResponse (duplicate_response now (req_order_id req))
      | None => RpcSend (CmdBatchPlaceOrders reqs)
      end
  end.

Definition cancel_order (request : option OrderCancelRequest) : rpc_outcome :=
  match request with
  | None => RpcInvalidArgument "cancel_order: missing order_cancel_request"
  | Some cancel_req =>
      match validate_cancel_request cancel_req with
      | Err msg => RpcInvalidArgument msg
      | Ok _ => RpcSend (CmdCancelOrder cancel_req)
      end
  end.

Fixpoint batch_cancel_invalid (reqs : list OrderCancelRequest) : option string :=
  match reqs with
  | [] => None
  | req :: reqs =>
      match validate_cancel_request req with Err msg => Some msg | Ok _ => batch_cancel_invalid reqs end
  end.
Definition batch_cancel_orders (reqs : list OrderCancelRequest) : rpc_outcome :=
  match batch_cancel_invalid reqs with
  | Some msg => RpcInvalidArgument msg
  | None => RpcSend (CmdBatchCancelOrders reqs)
  end.

Definition execute_algo_order : rpc_outcome := RpcUnimplemented "AlgoOrder not yet supported".
Definition cancel_algo_order : rpc_outcome := RpcUnimplemented "CancelAlgoOrder not yet supported".
Definition panic (panic_account_id : Z) : rpc_outcome := RpcSend (CmdPanic panic_account_id).
Definition dont_panic (panic_account_id : Z) : rpc_outcome := RpcSend (CmdDontPanic panic_account_id).

(** ** Queries *)

(** What an index lists for an account, looked up. *)
Definition by_account {V} (index : gmap Z (list Z)) (m : gmap (Z * Z) V) (account_id : Z) : list V :=
  omap (λ id, m !! (account_id, id)) (default [] (index !! account_id)).

Definition query_balances (account_id : Z) snap : list Balance :=
  (ebs_balance_state <$> by_account (sn_balance_asset_ids_by_account snap) (sn_exch_balances snap) account_id) ++
  (ebs_balance_state <$> filter (λ b, ebs_account_id b = account_id) (sn_unknown_exch_balances snap)).

Definition query_position (account_id : Z) (query_gw : bool) snap : list Position :=
  if query_gw then
    (eps_position_state <$>
       by_account (sn_exch_position_ids_by_account snap) (sn_exch_positions snap) account_id) ++
    (eps_position_state <$> filter (λ p, eps_account_id p = account_id) (sn_unknown_exch_positions snap))
  else
    SnapshotManagedPosition.to_proto (sn_metadata snap) <$>
      by_account (sn_managed_position_ids_by_account snap) (sn_managed_positions snap) account_id.

(** The proto order of an id, if the snapshot has it. *)
Definition order_of snap (oid : Z) : option Order :=
  o ← sn_orders snap !! oid;
  Some (SnapshotOrder.to_proto_order (sn_metadata snap) (sn_order_details snap !! oid) o).

Definition query_open_orders (account_id : Z) snap : list Order :=
  omap (order_of snap) (default [] (set_iter <$> sn_open_order_ids_by_account snap !! account_id)).

(** [filter(|oid| seen_oids.insert(oid))] *)
Fixpoint unseen (seen : gset Z) (l : list Z) : list Z :=
  match l with
  | [] => []
  | oid :: l =>
      if bool_decide (oid ∈ seen) then unseen seen l else oid :: unseen ({[oid]} ∪ seen) l
  end.

(** The ids filed under the distinct references of a request. *)
Definition ids_of_refs (order_refs : list string) snap : list Z :=
  let unique_refs : gset string := list_to_set order_refs in
  unseen ∅ (set_iter unique_refs ≫= λ r, default [] (sn_order_ids_by_exch_ref snap !! r)).

Definition query_order_details (order_refs : list string) snap : list Order :=
  omap (order_of snap) (ids_of_refs order_refs snap).
Definition query_trade_details (order_refs : list string) snap : list Trade :=
  omap (λ oid, sn_order_details snap !! oid) (ids_of_refs order_refs snap) ≫= sd_trades.

(** [open_orders] of the health check. *)
Definition open_orders_count snap : nat :=
  foldl (λ sum '(_, s), (sum + size s)%nat) 0%nat (hash_iter (sn_open_order_ids_by_account snap)).
End handler.
End OmsGrpcHandler.

(** ** Queries list what the replica holds *)

Section queries.
Context `{!HashIter Z, !HashIterOk Z, !HashIter string, !HashIterOk string}.
Implicit Types (snap : OmsSnapshotV2).

Lemma set_iter_NoDup {K} `{HashIterOk K} (s : gset K) : NoDup (set_iter s).
Proof. unfold set_iter. apply hash_iter_NoDup_keys. Qed.

(** Orders are filed under their id. *)
Definition filed snap : Prop := ∀ oid o, sn_orders snap !! oid = Some o → so_order_id o = oid.

Lemma orders_of_ids snap (ids : list Z) :
  filed snap →
  ord_order_id <$> omap (OmsGrpcHandler.order_of snap) ids =
  filter (λ oid, is_Some (sn_orders snap !! oid)) ids.
Proof.
  intros Hf. induction ids as [|oid ids IH]; [done|].
  rewrite filter_cons. cbn [omap list_omap]. unfold OmsGrpcHandler.order_of at 1.
  destruct (sn_orders snap !! oid) as [o|] eqn:E; cbn.
  - rewrite decide_True by done. f_equal; [by apply Hf|exact IH].
  - rewrite decide_False by (by intros [? ?]). exact IH.
Qed.

Lemma elem_of_unseen seen l oid : oid ∈ OmsGrpcHandler.unseen seen l ↔ oid ∈ l ∧ oid ∉ seen.
Proof.
  revert seen. induction l as [|x l IH]; intros seen; simpl; [by rewrite elem_of_nil; tauto|].
  case_bool_decide as Hx.
  - rewrite IH, elem_of_cons. split; [tauto|]. intros [[->|] ?]; tauto.
  - rewrite !elem_of_cons, IH. destruct (decide (oid = x)) as [->|]; set_solver.
Qed.
Lemma NoDup_unseen seen l : NoDup (OmsGrpcHandler.unseen seen l).
Proof.
  revert seen. induction l as [|x l IH]; intros seen; simpl; [constructor|].
  case_bool_decide; [apply IH|]. constructor; [|apply IH]. rewrite elem_of_unseen. set_solver.
Qed.

(** The ids found under references, when the index is the one built from the orders. *)
Lemma ids_of_refs_spec refs snap :
  sn_order_ids_by_exch_ref snap = build_exch_ref_index (sn_orders snap) →
  NoDup (OmsGrpcHandler.ids_of_refs refs snap) ∧
  ∀ oid, oid ∈ OmsGrpcHandler.ids_of_refs refs snap ↔
    ∃ o ref, sn_orders snap !! oid = Some o ∧ so_exch_order_ref o = Some ref ∧ ref ∈ refs.
Proof.
  intros Hi. unfold OmsGrpcHandler.ids_of_refs. split; [apply NoDup_unseen|]. intros oid.
  rewrite elem_of_unseen, list_elem_of_bind. rewrite Hi. split.
  - intros [(ref & Hin & Href) _]. apply elem_of_set_iter, elem_of_list_to_set in Href.
    apply ref_index_elem in Hin as (o & Ho & Hr). by exists o, ref.
  - intros (o & ref & Ho & Hr & Href). split; [|set_solver]. exists ref. split.
    + apply ref_index_elem. by exists o.
    + by apply elem_of_set_iter, elem_of_list_to_set.
Qed.
End queries.

(** C7: the query of the open orders is right.  Start the service on any warm
    state and let commands and workers interleave in any way, as long as new
    orders carry new ids and no gateway has the empty key.  Then for every order
    in the core's store, the query for its account lists its id at most once,
    lists it only while the order is not terminal, and, unless the order is
    external, always while it is not terminal; gateway queues that overflow in
    the middle of a command make no difference. *)
Theorem open_orders_query_exact {Client : Type}
    `{!Uppercase, !HashIter Z, !HashIterOk Z, !HashIter string, !HashIter (Z * Z), !HashIter (Z * string)}
    now oms_id confdata n capacity (a : OmsActor Client) taken oid l :
  (0 < n)%nat → (0 < capacity)%nat →
  serving now oms_id confdata n capacity (λ cmd a, reload_fits cmd a ∧ fresh_command cmd a) a taken →
  os_live (c_orders (a_core a)) !! oid = Some l →
  let listed := ord_order_id <$> OmsGrpcHandler.query_open_orders (lo_account_id l) (a_replica a) in
  NoDup listed ∧ (oid ∈ listed → is_in_terminal_state l = false) ∧
  (lo_is_external l = false → is_in_terminal_state l = false → oid ∈ listed).
Proof.
  intros Hn Hcap Ha Hl. apply serving_synced in Ha as ([[Hid Hopen] Hp] & Eo & Es & _); [|done..].
  cbv zeta. unfold OmsGrpcHandler.query_open_orders. rewrite orders_of_ids by (unfold filed; by rewrite Es).
  assert (∀ o, o ∈ default [] (set_iter <$> sn_open_order_ids_by_account (a_replica a) !! lo_account_id l) ↔
    open_in (a_writer a) (lo_account_id l) o) as Hin.
  { intros o. rewrite Eo. unfold open_in. destruct (sw_open_by_account _ !! _) as [s|]; simpl;
      [apply elem_of_set_iter|set_solver]. }
  specialize (Hp oid l Hl). destruct Hp as [Hsound Hcomplete]. split_and!.
  - apply NoDup_filter. destruct (sn_open_order_ids_by_account _ !! _); simpl;
      [apply set_iter_NoDup|constructor].
  - rewrite list_elem_of_filter, Hin. intros [_ Ho]. by apply Hsound.
  - intros Hx Ht. rewrite list_elem_of_filter, Hin, Es. split; [|by apply Hcomplete].
    apply (Hopen (lo_account_id l)). by apply Hcomplete.
Qed.

(** The query of orders by exchange reference is right.  In every such state
    it lists each order the replica knows under one of the given references
    exactly once, and no other order. *)
Theorem order_details_query_exact {Client : Type}
    `{!Uppercase, !HashIter Z, !HashIterOk Z, !HashIter string, !HashIterOk string}
    `{!HashIter (Z * Z), !HashIter (Z * string)}
    now oms_id confdata n capacity (a : OmsActor Client) taken refs :
  (0 < n)%nat → (0 < capacity)%nat →
  serving now oms_id confdata n capacity (λ cmd a, reload_fits cmd a ∧ fresh_command cmd a) a taken →
  let listed := ord_order_id <$> OmsGrpcHandler.query_order_details refs (a_replica a) in
  NoDup listed ∧
  ∀ oid, oid ∈ listed ↔
    ∃ o ref, sn_orders (a_replica a) !! oid = Some o ∧ so_exch_order_ref o = Some ref ∧ ref ∈ refs.
Proof.
  intros Hn Hcap Ha. apply serving_synced in Ha as ([[Hid _] _] & _ & Es & Ei); [|done..].
  cbv zeta. unfold OmsGrpcHandler.query_order_details. rewrite orders_of_ids by (unfold filed; by rewrite Es).
  rewrite <- Es in Ei. destruct (ids_of_refs_spec refs (a_replica a) Ei) as [Hnd Hin].
  split; [by apply NoDup_filter|]. intros oid. rewrite list_elem_of_filter, Hin. split; [tauto|].
  intros (o & ref & Ho & Hr). split; [by exists o|by exists o, ref].
Qed.

Lemma demo_order_working :
  ∃ l, os_live (c_orders (a_core demo_placed)) !! 11 = Some l ∧
    is_in_terminal_state l = false ∧ lo_is_external l = false.
Proof.
  assert ((λ l, (is_in_terminal_state l, lo_is_external l)) <$>
    os_live (c_orders (a_core demo_placed)) !! 11 = Some (false, false)) as Hf by by vm_compute.
  apply fmap_Some in Hf as (l & Hl & Hf). exists l. split; [exact Hl|]. clear Hl. by injection Hf.
Qed.

Lemma open_orders_query_exact_witness :
  demo_fresh_serving demo_placed [] ∧
  ∃ l, os_live (c_orders (a_core demo_placed)) !! 11 = Some l ∧
    11 ∈ ord_order_id <$> OmsGrpcHandler.query_open_orders (lo_account_id l) (a_replica demo_placed).
Proof.
  split; [apply demo_placed_fresh|]. destruct demo_order_working as (l & E & Ht & Hx).
  exists l. split; [exact E|].
  destruct (open_orders_query_exact demo_now "oms1" demo_confdata 2 1 demo_placed [] 11 l
    ltac:(lia) ltac:(lia) demo_placed_fresh E) as (_ & _ & H). exact (H Hx Ht).
Defined.

#[local] Instance demo_iter_string_ok : HashIterOk string := canonical_iter_ok.
Lemma order_details_query_exact_witness :
  demo_fresh_serving demo_placed [] ∧
  NoDup (ord_order_id <$> OmsGrpcHandler.query_order_details ["X-1"; "X-1"] (a_replica demo_placed)).
Proof.
  split; [apply demo_placed_fresh|].
  apply (order_details_query_exact demo_now "oms1" demo_confdata 2 1 demo_placed [] ["X-1"; "X-1"]
    ltac:(lia) ltac:(lia) demo_placed_fresh).
Defined.

(** ** Two requests with one id

    The check for duplicates reads the replica: two requests that come before
    the writer has handled the first both pass it, and both orders are sent. *)
Lemma concurrent_duplicates_sent :
  let req := demo_order 11 BsBuy "BTC-PERP" (f64.of_Z 10) (f64.of_Z 100) in
  (∃ f, OmsGrpcHandler.place_order 0 1 (Some req) (a_replica demo_actor) = RpcSend f) ∧
  returns (a ← OmsStartup.start demo_now "oms1" silent_gw demo_confdata
                 (OmsStartup.warm_core 0 demo_confdata false false 100 [] [] []) {[ "GW1" := tt ]} 2 8;
           a ← demo_step (CmdPlaceOrder req 1 1) a; demo_step (CmdPlaceOrder req 1 2) a)
    (λ a, gw_action_orders <$> a_gw_accepted a = [[11]; [11]]).
Proof. split; [eexists; by vm_compute|by vm_compute]. Qed.
