(* ===== verification/Gateway.v ===== *)
(** * The gateway's semantic pipeline

    [zk-gw-svc/src/semantic_pipeline.rs], [nats_publisher.rs], [reconnect.rs] and
    the venue facts of [zk-gw-types/src/lib.rs].  The NATS client is third-party
    code: whether its [n]-th publish succeeds is a parameter.  Messages are kept
    as values, before their protobuf encoding. *)

From S2P Require Import Prelude F64 Proto Utils Text.

(** ** [zk-gw-types]: venue facts *)

Record VenueBalanceFact : Set := mkVenueBalanceFact {
  vb_asset : string;
  vb_total_qty : f64;
  vb_avail_qty : f64;
  vb_frozen_qty : f64;
}.

Record VenuePositionFact : Set := mkVenuePositionFact {
  vp_instrument : string;
  vp_long_short_type : Z;
  vp_qty : f64;
  vp_avail_qty : f64;
  vp_frozen_qty : f64;
  vp_account_id : Z;
  vp_instrument_type : Z;
}.

Inductive VenueSystemEventType : Set :=
| Connected
| Disconnected
| Reconnecting
| VenueErrorEvent.

Record VenueSystemEvent : Set := mkVenueSystemEvent {
  vs_event_type : VenueSystemEventType;
  vs_message : string;
  vs_timestamp : Z;
}.

Inductive VenueEvent : Set :=
| VOrderReport (report : OrderReport)
| VBalance (facts : list VenueBalanceFact)
| VPosition (facts : list VenuePositionFact)
| VSystem (event : VenueSystemEvent).

(** ** [exch_gw.proto] *)

Inductive GatewayEventType : Set :=
| GwEventStarted
| GwEventExchDisconnected.
Definition GatewayEventType_i32 (t : GatewayEventType) : Z :=
  match t with GwEventStarted => 0 | GwEventExchDisconnected => 1 end.

Record GatewaySystemEvent : Set := mkGatewaySystemEvent {
  gse_gw_name : string;
  gse_event_type : Z;
  gse_service_endpoint : string;
  gse_event_timestamp : Z;
}.

(** The messages published. *)
Inductive GwOutput : Set :=
| PubOrderReport (report : OrderReport)
| PubBalanceUpdate (update : BalanceUpdate)
| PubSystemEvent (event : GatewaySystemEvent).

(** ** [nats_publisher.rs] *)

(** [np_calls] publishes were attempted; [np_sent] holds the ones that did not
    fail, with their subjects, oldest first. *)
Record NatsPublisher : Set := mkNatsPublisher {
  np_gw_id : string;
  np_calls : nat;
  np_sent : list (string * GwOutput);
}.

Module NatsPublisher.
Section publisher.
Context (nats_ok : nat → bool).

Definition new (gw_id : string) : NatsPublisher := mkNatsPublisher gw_id 0 [].

(** [nats.publish]; an error is logged and dropped. *)
Definition publish (kind : string) (out : GwOutput) (n : NatsPublisher) : NatsPublisher :=
  mkNatsPublisher (np_gw_id n) (S (np_calls n))
    (if nats_ok (np_calls n)
     then np_sent n ++ [("zk.gw." +:+ np_gw_id n +:+ kind, out)] else np_sent n).

Definition publish_order_report (report : OrderReport) (n : NatsPublisher) : NatsPublisher :=
  publish ".report" (PubOrderReport (report <| rep_exchange := np_gw_id n |>)) n.
Definition publish_balance_update (update : BalanceUpdate) : NatsPublisher → NatsPublisher :=
  publish ".balance" (PubBalanceUpdate update).
Definition publish_system_event (event : GatewaySystemEvent) : NatsPublisher → NatsPublisher :=
  publish ".system" (PubSystemEvent event).
End publisher.
End NatsPublisher.

(** ** [semantic_pipeline.rs] *)

Definition infer_instrument_type (instrument : string) : Z :=
  if contains "SWAP" instrument then InstTypePerp
  else if contains "FUTURES" instrument || (2 <=? count_byte 0x2D instrument)%nat then InstTypeFuture
  else if (1 <=? count_byte 0x5F instrument)%nat then InstTypeCfd
  else InstTypeSpot.

(** [format!("{}:{}", instrument, long_short_type)] *)
Definition position_key (instrument : string) (long_short_type : Z) : string :=
  instrument +:+ ":" +:+ display_i64 long_short_type.

Record SemanticPipeline : Type := mkSemanticPipeline {
  sp_published_trade_ids : gset string;
  sp_published_position_keys : gset string;
  sp_exch_account_code : string;
}.
#[export] Instance eta_SemanticPipeline : Eta SemanticPipeline := λ r,
  mkSemanticPipeline (sp_published_trade_ids r) (sp_published_position_keys r)
    (sp_exch_account_code r).

Module SemanticPipeline.
Section pipeline.
Context `{!HashIter string} (nats_ok : nat → bool).
Implicit Types (p : SemanticPipeline) (n : NatsPublisher).

Definition new (exch_account_code : string) : SemanticPipeline :=
  mkSemanticPipeline ∅ ∅ exch_account_code.

(** The id by which a trade entry is published once: not empty. *)
Definition trade_id (entry : OrderReportEntry) : option string :=
  if ent_report_type entry =? OrderReportType_i32 OrderRepTypeTrade then
    match ent_report entry with
    | Some (RTradeReport trade) =>
        if is_empty (trr_exch_trade_id trade) then None else Some (trr_exch_trade_id trade)
    | _ => None
    end
  else None.

(** The entries whose trade was not published before, and the ids after them. *)
Definition dedup_entry (acc : list OrderReportEntry * gset string) (entry : OrderReportEntry)
    : list OrderReportEntry * gset string :=
  let '(entries, ids) := acc in
  match trade_id entry with
  | Some id => if bool_decide (id ∈ ids) then acc else (entries ++ [entry], {[id]} ∪ ids)
  | None => (entries ++ [entry], ids)
  end.

Definition process_order_report (report : OrderReport) p n : SemanticPipeline * NatsPublisher :=
  let '(entries, ids) :=
    foldl dedup_entry ([], sp_published_trade_ids p) (rep_order_report_entries report) in
  let p := p <| sp_published_trade_ids := ids |> in
  match entries with
  | [] => (p, n)
  | _ => (p, NatsPublisher.publish_order_report nats_ok
               (report <| rep_order_report_entries := entries |>) n)
  end.

Definition balance_report (code : string) (f : VenueBalanceFact) : PositionReport :=
  default_PositionReport <| pr_instrument_code := vb_asset f |>
    <| pr_instrument_type := InstTypeSpot |> <| pr_qty := vb_total_qty f |>
    <| pr_avail_qty := vb_avail_qty f |> <| pr_exch_account_code := code |>.

Definition process_balance (facts : list VenueBalanceFact) p n : NatsPublisher :=
  NatsPublisher.publish_balance_update nats_ok
    (mkBalanceUpdate (balance_report (sp_exch_account_code p) <$> facts)) n.

Definition fact_key (f : VenuePositionFact) : string :=
  position_key (vp_instrument f) (vp_long_short_type f).

Definition fact_report (code : string) (f : VenuePositionFact) : PositionReport :=
  default_PositionReport <| pr_instrument_code := vp_instrument f |>
    <| pr_instrument_type := if vp_instrument_type f =? 0 then infer_instrument_type (vp_instrument f)
                             else vp_instrument_type f |>
    <| pr_long_short_type := vp_long_short_type f |> <| pr_qty := vp_qty f |>
    <| pr_avail_qty := vp_avail_qty f |> <| pr_exch_account_code := code |>.

(** The zero report of a key, which is split at its first colon. *)
Definition zero_report (code key : string) : option PositionReport :=
  (λ '(instrument, side),
     default_PositionReport <| pr_instrument_code := instrument |>
       <| pr_instrument_type := infer_instrument_type instrument |>
       <| pr_long_short_type := default 0 (parse_i32 side) |> <| pr_qty := f64.zero |>
       <| pr_avail_qty := f64.zero |> <| pr_exch_account_code := code |>) <$> split_at 0x3A key.

Definition nonzero_keys (facts : list VenuePositionFact) : gset string :=
  list_to_set (fact_key <$> filter (λ f, f64.eqb (vp_qty f) f64.zero = false) facts).

Definition process_position (facts : list VenuePositionFact) p n
    : SemanticPipeline * NatsPublisher :=
  let code := sp_exch_account_code p in
  let current_keys : gset string := list_to_set (fact_key <$> facts) in
  let published := nonzero_keys facts ∪ sp_published_position_keys p in
  let zero_keys := filter (λ k, k ∉ current_keys) (set_iter published) in
  let reports := (fact_report code <$> facts) ++ omap (zero_report code) zero_keys in
  let p := p <| sp_published_position_keys := published ∖ list_to_set zero_keys |> in
  match reports with
  | [] => (p, n)
  | _ => (p, NatsPublisher.publish_balance_update nats_ok (mkBalanceUpdate reports) n)
  end.

Definition system_event (gw_id : string) (sys : VenueSystemEvent) : GatewaySystemEvent :=
  mkGatewaySystemEvent gw_id
    match vs_event_type sys with
    | Connected => GatewayEventType_i32 GwEventStarted
    | Disconnected => GatewayEventType_i32 GwEventExchDisconnected
    | _ => 0
    end "" (vs_timestamp sys).

Definition process (event : VenueEvent) p n : SemanticPipeline * NatsPublisher :=
  match event with
  | VOrderReport report => process_order_report report p n
  | VBalance facts => (p, process_balance facts p n)
  | VPosition facts => process_position facts p n
  | VSystem sys =>
      (p, NatsPublisher.publish_system_event nats_ok (system_event (np_gw_id n) sys) n)
  end.

Definition reset (p : SemanticPipeline) : SemanticPipeline :=
  p <| sp_published_trade_ids := ∅ |> <| sp_published_position_keys := ∅ |>.

(** The events of a venue, in order. *)
Definition process_all (events : list VenueEvent) p n : SemanticPipeline * NatsPublisher :=
  foldl (λ '(p, n) event, process event p n) (p, n) events.
End pipeline.
End SemanticPipeline.

(** ** [reconnect.rs] *)

Inductive GatewayState : Set :=
| Starting
| Connecting
| Live
| Degraded
| Resyncing
| Stopping.
#[export] Instance GatewayState_eq_dec : EqDecision GatewayState.
Proof. solve_decision. Defined.

Definition is_serving (s : GatewayState) : bool :=
  match s with Live | Degraded => true | _ => false end.

Definition can_transition_to (s next : GatewayState) : bool :=
  match s, next with
  | Starting, Connecting
  | Connecting, Live | Connecting, Stopping
  | Live, Degraded | Live, Stopping
  | Degraded, Resyncing | Degraded, Stopping
  | Resyncing, Live | Resyncing, Degraded | Resyncing, Stopping => true
  | _, _ => false
  end.

Definition state_to_gw_event_type (s : GatewayState) : Z :=
  match s with
  | Starting | Connecting | Live | Resyncing => GatewayEventType_i32 GwEventStarted
  | Degraded | Stopping => GatewayEventType_i32 GwEventExchDisconnected
  end.
