(* ===== verification/GatewayFacts.v ===== *)
(** * What the gateway publishes

    Trades are published at most once, and exactly once when no publish fails;
    a consumer that applies the published position reports holds the positions
    of the venue's last snapshot. *)

From S2P Require Import Prelude F64 Proto Utils Text Gateway.
Import SemanticPipeline.

(** ** Runs, one event at a time *)

Section runs.
Context `{!HashIter string} (nats_ok : nat → bool).

Lemma process_all_snoc events e p n :
  process_all nats_ok (events ++ [e]) p n =
  let '(p, n) := process_all nats_ok events p n in process nats_ok e p n.
Proof. unfold process_all. rewrite foldl_app. simpl. by destruct (foldl _ _ events). Qed.
End runs.

(** ** Trades *)

Definition venue_entries (events : list VenueEvent) : list OrderReportEntry :=
  events ≫= λ e, match e with VOrderReport r => rep_order_report_entries r | _ => [] end.

Definition output_entries (out : GwOutput) : list OrderReportEntry :=
  match out with PubOrderReport r => rep_order_report_entries r | _ => [] end.
Definition sent_entries (n : NatsPublisher) : list OrderReportEntry :=
  np_sent n ≫= λ sent, output_entries sent.2.

(** The reference: an entry is kept unless an earlier one has its trade id. *)
Definition fresh (before : list OrderReportEntry) (e : OrderReportEntry) : bool :=
  match trade_id e with
  | Some id => bool_decide (id ∉ omap trade_id before)
  | None => true
  end.
Fixpoint first_trades (before es : list OrderReportEntry) : list OrderReportEntry :=
  match es with
  | [] => []
  | e :: es => (if fresh before e then [e] else []) ++ first_trades (before ++ [e]) es
  end.

Lemma first_trades_app b es1 es2 :
  first_trades b (es1 ++ es2) = first_trades b es1 ++ first_trades (b ++ es1) es2.
Proof.
  revert b. induction es1 as [|e es1 IH]; intros b; simpl.
  - by rewrite app_nil_r.
  - by rewrite IH, <- !(assoc_L (++)).
Qed.

Lemma first_trades_NoDup b es :
  NoDup (omap trade_id (first_trades b es)) ∧
  ∀ id, id ∈ omap trade_id (first_trades b es) → id ∉ omap trade_id b.
Proof.
  revert b. induction es as [|e es IH]; intros b; simpl.
  { split; [constructor|]. intros id Hid. by apply elem_of_nil in Hid. }
  destruct (IH (b ++ [e])) as [Hnd Hout]. setoid_rewrite omap_app in Hout.
  unfold fresh. simpl in *. destruct (trade_id e) as [id|] eqn:Hid; simpl in *.
  - case_bool_decide as Hb; simpl; rewrite ?Hid; simpl.
    + split.
      * constructor; [|done]. intros Hin. apply (Hout _ Hin), elem_of_app. right. by left.
      * intros id' [->|Hin]%elem_of_cons; [done|].
        intros Hb'. by apply (Hout _ Hin), elem_of_app; left.
    + split; [done|]. intros id' Hin Hb'. by apply (Hout _ Hin), elem_of_app; left.
  - rewrite Hid. split; [done|]. intros id' Hin Hb'. by apply (Hout _ Hin), elem_of_app; left.
Qed.

Lemma dedup_spec before acc es :
  foldl dedup_entry (acc, list_to_set (omap trade_id before)) es =
  (acc ++ first_trades before es, list_to_set (omap trade_id (before ++ es)) : gset string).
Proof.
  revert before acc. induction es as [|e es IH]; intros before acc; simpl.
  { by rewrite !app_nil_r. }
  assert (before ++ e :: es = (before ++ [e]) ++ es) as -> by by rewrite <- (assoc_L (++)).
  unfold fresh. destruct (trade_id e) as [id|] eqn:Hid.
  - rewrite (bool_decide_ext (id ∈ _) (id ∈ omap trade_id before)) by apply elem_of_list_to_set.
    destruct (decide (id ∈ omap trade_id before)) as [Hin|Hin].
    + rewrite bool_decide_true, bool_decide_false by naive_solver.
      simpl. rewrite <- IH. do 2 f_equal. rewrite omap_app. simpl. rewrite Hid. simpl.
      set_solver.
    + rewrite bool_decide_false, bool_decide_true by done.
      rewrite (assoc_L (++)), <- IH. do 2 f_equal. rewrite omap_app. simpl. rewrite Hid. simpl.
      set_solver.
  - rewrite (assoc_L (++)), <- IH. do 2 f_equal. rewrite omap_app. simpl. rewrite Hid.
    by rewrite app_nil_r.
Qed.

Lemma sublist_omap {A B} (f : A → option B) l k : sublist l k → sublist (omap f l) (omap f k).
Proof.
  induction 1 as [|x l k _ IH|x l k _ IH]; simpl; [constructor|..]; destruct (f x); by try constructor.
Qed.

(** What the publisher sent after a message: it, or nothing. *)
Lemma sent_entries_publish nats_ok kind out n :
  sent_entries (NatsPublisher.publish nats_ok kind out n) =
  sent_entries n ++ (if nats_ok (np_calls n) then output_entries out else []).
Proof.
  unfold sent_entries, NatsPublisher.publish. simpl. destruct (nats_ok _).
  - rewrite bind_app. simpl. by rewrite app_nil_r.
  - by rewrite app_nil_r.
Qed.
Lemma sent_entries_other nats_ok kind out n :
  output_entries out = [] → sent_entries (NatsPublisher.publish nats_ok kind out n) = sent_entries n.
Proof. intros Hout. rewrite sent_entries_publish, Hout. destruct (nats_ok _); apply app_nil_r. Qed.

Section trades.
Context `{!HashIter string} (nats_ok : nat → bool).

Definition trades_inv (events : list VenueEvent) (p : SemanticPipeline) (n : NatsPublisher) : Prop :=
  sp_published_trade_ids p = list_to_set (omap trade_id (venue_entries events)) ∧
  sublist (sent_entries n) (first_trades [] (venue_entries events)) ∧
  ((∀ k, nats_ok k = true) → sent_entries n = first_trades [] (venue_entries events)).

Lemma venue_entries_app events e :
  venue_entries (events ++ [e]) =
  venue_entries events ++ match e with VOrderReport r => rep_order_report_entries r | _ => [] end.
Proof. unfold venue_entries. rewrite bind_app. simpl. by rewrite app_nil_r. Qed.

Lemma trades_inv_report events r p n :
  trades_inv events p n →
  let '(p', n') := process_order_report nats_ok r p n in
  trades_inv (events ++ [VOrderReport r]) p' n'.
Proof.
  intros (Hids & Hsub & Heq). unfold process_order_report. rewrite Hids, (dedup_spec _ []).
  unfold trades_inv. rewrite venue_entries_app, first_trades_app. simpl.
  destruct (first_trades (venue_entries events) _) as [|e es] eqn:Hfirst.
  { rewrite app_nil_r. naive_solver. }
  unfold NatsPublisher.publish_order_report. rewrite sent_entries_publish. simpl.
  split; [done|]. split.
  - apply sublist_app; [done|]. destruct (nats_ok _); [done|apply sublist_nil_l].
  - intros Hok. by rewrite Hok, Heq.
Qed.

Lemma trades_inv_process events e p n :
  trades_inv events p n →
  let '(p', n') := process nats_ok e p n in trades_inv (events ++ [e]) p' n'.
Proof.
  destruct e as [r|facts|facts|sys]; [apply trades_inv_report|..]; intros Hinv; simpl;
    unfold process_position, process_balance; try destruct (_ ++ omap _ _);
    unfold trades_inv, NatsPublisher.publish_balance_update, NatsPublisher.publish_system_event;
    rewrite venue_entries_app, app_nil_r, ?sent_entries_other by done; exact Hinv.
Qed.
End trades.

(** C19: for every sequence of venue events and every pattern of failing
    publishes, no trade id is published twice; when no publish fails, what is
    published is exactly the entries the venue sent, in order, without the ones
    that repeat an earlier trade id. *)
Theorem trades_published_once `{!HashIter string} nats_ok code gw_id events :
  let '(_, n) := process_all nats_ok events (new code) (NatsPublisher.new gw_id) in
  NoDup (omap trade_id (sent_entries n)) ∧
  ((∀ k, nats_ok k = true) → sent_entries n = first_trades [] (venue_entries events)).
Proof.
  destruct (process_all _ _ _ _) as [p n] eqn:Hrun.
  assert (trades_inv nats_ok events p n) as (_ & Hsub & Heq).
  { revert p n Hrun. induction events as [|e events IH] using rev_ind; intros p n Hrun.
    { injection Hrun as <- <-. done. }
    rewrite process_all_snoc in Hrun. destruct (process_all _ events _ _) as [p0 n0].
    pose proof (trades_inv_process nats_ok events e p0 n0 (IH _ _ eq_refl)) as H.
    by rewrite Hrun in H. }
  split; [|done]. eapply sublist_NoDup; [apply first_trades_NoDup|by apply sublist_omap].
Qed.

(** ** Positions *)

Notation pos_key := (string * Z)%type.

(** A position's instrument has no colon, its side is an [i32]. *)
Definition good_key (k : pos_key) : Prop :=
  count_byte 0x3A k.1 = 0%nat ∧ - 2 ^ 31 ≤ k.2 < 2 ^ 31.
#[export] Instance good_key_dec k : Decision (good_key k).
Proof. apply _. Defined.

(** A consumer that keeps the last reported quantity per instrument and side. *)
Definition apply_pairs (l : list (pos_key * f64)) (m : gmap pos_key f64) : gmap pos_key f64 :=
  foldl (λ m '(k, q), <[k := q]> m) m l.
Definition report_pair (r : PositionReport) : pos_key * f64 :=
  ((pr_instrument_code r, pr_long_short_type r), pr_qty r).
Definition output_pairs (out : GwOutput) : list (pos_key * f64) :=
  match out with PubBalanceUpdate u => report_pair <$> bu_balances u | _ => [] end.
Definition consumer_view (n : NatsPublisher) : gmap pos_key f64 :=
  apply_pairs (np_sent n ≫= λ sent, output_pairs sent.2) ∅.

(** The venue's positions: its last snapshot. *)
Definition fact_pair (f : VenuePositionFact) : pos_key * f64 :=
  ((vp_instrument f, vp_long_short_type f), vp_qty f).
Definition venue_step (facts : list VenuePositionFact) (e : VenueEvent) : list VenuePositionFact :=
  match e with VPosition facts' => facts' | _ => facts end.
Definition venue_view (events : list VenueEvent) : gmap pos_key f64 :=
  apply_pairs (fact_pair <$> foldl venue_step [] events) ∅.

(** The open position under a key, if its quantity is not zero. *)
Definition held (m : gmap pos_key f64) (k : pos_key) : option f64 :=
  m !! k ≫= λ q, if f64.eqb q f64.zero then None else Some q.

Lemma apply_pairs_app l1 l2 m : apply_pairs (l1 ++ l2) m = apply_pairs l2 (apply_pairs l1 m).
Proof. apply foldl_app. Qed.

Lemma apply_pairs_lookup_ne l m k : k ∉ l.*1 → apply_pairs l m !! k = m !! k.
Proof.
  revert m. induction l as [|[k' q] l IH]; intros m Hk; simpl; [done|].
  rewrite fmap_cons, not_elem_of_cons in Hk. simpl in Hk.
  rewrite IH by naive_solver. apply lookup_insert_ne. naive_solver.
Qed.

(** The pairs decide every key they have, whatever the map was. *)
Lemma apply_pairs_lookup l m m' k : k ∈ l.*1 → apply_pairs l m !! k = apply_pairs l m' !! k.
Proof.
  revert m m'. induction l as [|[k' q] l IH]; intros m m' Hk; simpl; [by apply elem_of_nil in Hk|].
  destruct (decide (k ∈ l.*1)) as [Hl|Hl]; [by apply IH|].
  rewrite fmap_cons in Hk. apply elem_of_cons in Hk as [->|?]; [simpl|done].
  rewrite !apply_pairs_lookup_ne by done. by rewrite !lookup_insert_eq.
Qed.

Lemma apply_pairs_elem l m k q : apply_pairs l m !! k = Some q → k ∈ l.*1 → (k, q) ∈ l.
Proof.
  revert m. induction l as [|[k' q'] l IH]; intros m Hq Hk; simpl in *; [by apply elem_of_nil in Hk|].
  destruct (decide (k ∈ l.*1)) as [Hl|Hl]; [right; by apply (IH _ Hq)|].
  rewrite apply_pairs_lookup_ne in Hq by done.
  apply elem_of_cons in Hk as [->|?]; [|done]. simpl in Hq.
  rewrite lookup_insert_eq in Hq. injection Hq as ->. by left.
Qed.

(** The zero report of a good key has its instrument and side. *)
Lemma zero_report_pair code i s :
  good_key (i, s) →
  report_pair <$> zero_report code (position_key i s) = Some ((i, s), f64.zero).
Proof.
  intros [Hi Hs]. unfold zero_report, position_key.
  change (":" +:+ display_i64 s) with (String (Ascii.ascii_of_nat 58) (display_i64 s)).
  rewrite split_at_app by done. simpl.
  unfold report_pair. simpl. by rewrite parse_i32_display.
Qed.

Lemma position_key_inj k1 k2 :
  good_key k1 → good_key k2 → position_key k1.1 k1.2 = position_key k2.1 k2.2 → k1 = k2.
Proof.
  destruct k1 as [i1 s1], k2 as [i2 s2]. intros H1 H2 Heq. simpl in Heq.
  pose proof (zero_report_pair "" i1 s1 H1) as E1. rewrite Heq, zero_report_pair in E1 by done.
  by injection E1 as -> ->.
Qed.

Definition key_of (k : pos_key) : string := position_key k.1 k.2.
Definition good_strings (keys : list string) : Prop :=
  ∀ s, s ∈ keys → ∃ k, good_key k ∧ s = key_of k.

(** The synthetic reports: a zero for exactly the keys they are made of. *)
Lemma zero_pairs_spec code zs k q :
  good_strings zs →
  (k, q) ∈ report_pair <$> omap (zero_report code) zs ↔ q = f64.zero ∧ good_key k ∧ key_of k ∈ zs.
Proof.
  intros Hgood. rewrite list_elem_of_fmap. setoid_rewrite list_elem_of_omap. split.
  - intros (r & Hr & s & Hs & Hz). destruct (Hgood s Hs) as ([i sd] & Hk & ->).
    pose proof (zero_report_pair code i sd Hk) as E. unfold key_of in Hz. simpl in Hz.
    rewrite Hz in E. simpl in E. rewrite <- Hr in E. by injection E as -> ->.
  - intros (-> & Hk & Hin). destruct k as [i sd].
    pose proof (zero_report_pair code i sd Hk) as E.
    destruct (zero_report code (position_key i sd)) as [r|] eqn:Hr; [|done].
    apply (inj Some) in E. exists r. split; [done|]. by exists (key_of (i, sd)).
Qed.

Lemma zero_pairs_keys code zs k :
  good_strings zs →
  k ∈ (report_pair <$> omap (zero_report code) zs).*1 ↔ good_key k ∧ key_of k ∈ zs.
Proof.
  intros Hgood. rewrite list_elem_of_fmap. split.
  - intros ([k' q] & -> & Hin). by apply zero_pairs_spec in Hin as (_ & ? & ?).
  - intros [Hk Hin]. exists (k, f64.zero). split; [done|]. by apply zero_pairs_spec.
Qed.

(** Publishing the facts [facts] and the zeros of [zs] turns a view whose open
    positions are all in [facts] or [zs] into the view of [facts]. *)
Lemma view_after_reports code facts zs view k :
  good_strings zs →
  (∀ f, f ∈ facts → fact_key f ∉ zs) →
  (is_Some (held view k) → k ∈ (fact_pair <$> facts).*1 ∨ good_key k ∧ key_of k ∈ zs) →
  held (apply_pairs (report_pair <$> (fact_report code <$> facts) ++ omap (zero_report code) zs) view) k =
  held (apply_pairs (fact_pair <$> facts) ∅) k.
Proof.
  intros Hgood Hdisj Hcov.
  rewrite fmap_app, apply_pairs_app, <- list_fmap_compose.
  change (report_pair ∘ fact_report code) with fact_pair. unfold held at 1.
  destruct (decide (k ∈ (report_pair <$> omap (zero_report code) zs).*1)) as [Hz|Hz].
  - pose proof Hz as [Hk Hin]%zero_pairs_keys; [|done].
    assert (k ∉ (fact_pair <$> facts).*1) as Hf.
    { rewrite list_elem_of_fmap. intros (? & -> & (f & -> & Hf)%list_elem_of_fmap).
      by apply (Hdisj f Hf). }
    unfold held. rewrite (apply_pairs_lookup_ne (fact_pair <$> facts) ∅) by done. simpl.
    destruct (apply_pairs _ (apply_pairs _ _) !! k) as [q|] eqn:Hq; [|done]. simpl.
    apply apply_pairs_elem in Hq; [|done]. by apply zero_pairs_spec in Hq as [-> _].
  - rewrite apply_pairs_lookup_ne by done. unfold held in *.
    destruct (decide (k ∈ (fact_pair <$> facts).*1)) as [Hf|Hf].
    + by rewrite (apply_pairs_lookup _ view ∅).
    + rewrite !apply_pairs_lookup_ne by done. rewrite zero_pairs_keys in Hz by done.
      destruct (view !! k ≫= _) eqn:Hv; [|done]. destruct Hcov as [?|?]; naive_solver.
Qed.

Lemma consumer_view_publish nats_ok kind out n :
  nats_ok (np_calls n) = true →
  consumer_view (NatsPublisher.publish nats_ok kind out n) =
  apply_pairs (output_pairs out) (consumer_view n).
Proof.
  intros Hok. unfold consumer_view, NatsPublisher.publish. simpl. rewrite Hok, bind_app. simpl.
  by rewrite app_nil_r, apply_pairs_app.
Qed.

Section positions.
Context `{!HashIter string, !HashIterOk string} (nats_ok : nat → bool).
Hypothesis Hok : ∀ k, nats_ok k = true.

Definition good_fact (f : VenuePositionFact) : Prop := good_key (fact_pair f).1.

(** No spot balances, which the consumer cannot tell from positions, and good
    position keys. *)
Definition tracked (e : VenueEvent) : Prop :=
  match e with VBalance _ => False | VPosition facts => Forall good_fact facts | _ => True end.

Record pos_inv (facts : list VenuePositionFact) (p : SemanticPipeline) (n : NatsPublisher) : Prop :=
  mkPosInv {
    pi_view : ∀ k, held (consumer_view n) k = held (apply_pairs (fact_pair <$> facts) ∅) k;
    pi_open : ∀ k, is_Some (held (consumer_view n) k) →
      good_key k ∧ key_of k ∈ sp_published_position_keys p;
    pi_keys : good_strings (elements (sp_published_position_keys p));
  }.

Lemma fact_key_of f : fact_key f = key_of (fact_pair f).1.
Proof. done. Qed.

Lemma nonzero_keys_spec facts s :
  s ∈ nonzero_keys facts ↔
  ∃ f, f ∈ facts ∧ f64.eqb (vp_qty f) f64.zero = false ∧ s = fact_key f.
Proof.
  unfold nonzero_keys. rewrite elem_of_list_to_set, list_elem_of_fmap.
  setoid_rewrite list_elem_of_filter. naive_solver.
Qed.

Lemma held_fact facts k :
  is_Some (held (apply_pairs (fact_pair <$> facts) ∅) k) →
  ∃ f, f ∈ facts ∧ k = (fact_pair f).1 ∧ f64.eqb (vp_qty f) f64.zero = false.
Proof.
  unfold held. destruct (decide (k ∈ (fact_pair <$> facts).*1)) as [Hk|Hk].
  - destruct (_ !! k) as [q|] eqn:Hq; [|by intros []]. simpl.
    apply apply_pairs_elem in Hq as (f & Hf & Hin)%list_elem_of_fmap; [|done].
    injection Hf as -> ->. intros [? ?]. exists f. by destruct (f64.eqb _ _).
  - rewrite apply_pairs_lookup_ne by done. by intros [].
Qed.

Lemma pos_inv_position facts facts' p n :
  Forall good_fact facts' → pos_inv facts p n →
  let '(p', n') := process_position nats_ok facts' p n in pos_inv facts' p' n'.
Proof.
  intros Hgood [_ Hopen Hkeys]. rewrite Forall_forall in Hgood. unfold process_position.
  set (pub := nonzero_keys facts' ∪ sp_published_position_keys p).
  set (zs := filter _ (set_iter pub)). set (code := sp_exch_account_code p).
  assert (good_strings (elements pub)) as Hpub.
  { intros s [Hs|Hs]%elem_of_elements%elem_of_union; [|by apply Hkeys, elem_of_elements].
    apply nonzero_keys_spec in Hs as (f & Hf & _ & ->). exists (fact_pair f).1. by split; [apply Hgood|]. }
  assert (∀ s, s ∈ zs ↔ s ∉ fact_key <$> facts' ∧ s ∈ pub) as Hzs.
  { intros s. unfold zs. rewrite list_elem_of_filter, elem_of_set_iter, elem_of_list_to_set. done. }
  assert (∀ k, held (apply_pairs (report_pair <$> (fact_report code <$> facts') ++
      omap (zero_report code) zs) (consumer_view n)) k =
    held (apply_pairs (fact_pair <$> facts') ∅) k) as Hview.
  { intros k. apply view_after_reports.
    - intros s [_ Hs]%Hzs. by apply Hpub, elem_of_elements.
    - intros f Hf [Hn _]%Hzs. apply Hn. by apply list_elem_of_fmap_2.
    - intros [Hk Hin]%Hopen. destruct (decide (key_of k ∈ fact_key <$> facts')) as [Hc|Hc].
      + left. apply list_elem_of_fmap in Hc as (f & Heq & Hf).
        apply (position_key_inj k (fact_pair f).1 Hk (Hgood f Hf)) in Heq as ->.
        by do 2 apply list_elem_of_fmap_2.
      + right. split; [done|]. apply Hzs. split; [done|]. unfold pub. set_solver. }
  match goal with |- context [match ?R with [] => _ | _ :: _ => _ end] =>
    assert (∀ p' n', consumer_view n' = apply_pairs (report_pair <$> R) (consumer_view n) →
      sp_published_position_keys p' = pub ∖ list_to_set zs → pos_inv facts' p' n') as Hdone end.
  { intros p' n' Hn' Hp'. constructor.
    - intros k. by rewrite Hn', Hview.
    - intros k. rewrite Hn', Hview. intros (f & Hf & -> & Hq)%held_fact.
      split; [by apply Hgood|]. rewrite Hp'. apply elem_of_difference. split.
      + apply elem_of_union_l, nonzero_keys_spec. by exists f.
      + rewrite elem_of_list_to_set, Hzs. intros [Hn _]. apply Hn. by apply (list_elem_of_fmap_2 fact_key).
    - rewrite Hp'. intros s [Hs _]%elem_of_elements%elem_of_difference. by apply Hpub, elem_of_elements. }
  destruct (_ ++ omap _ _) eqn:HR; apply Hdone; try done.
  by apply consumer_view_publish.
Qed.

Lemma pos_inv_run events code gw_id :
  Forall tracked events →
  let '(p, n) := process_all nats_ok events (new code) (NatsPublisher.new gw_id) in
  pos_inv (foldl venue_step [] events) p n.
Proof.
  induction events as [|e events IH] using rev_ind.
  { intros _. constructor; try done; intros ? H; by inversion H. }
  intros [Hall He]%Forall_app. rewrite Forall_singleton in He. specialize (IH Hall).
  rewrite process_all_snoc, foldl_app. destruct (process_all _ events _ _) as [p n].
  destruct e as [r|facts|facts|sys]; [|destruct He|exact (pos_inv_position _ facts p n He IH)|].
  - destruct IH as [Hview Hopen Hkeys]. simpl. unfold process_order_report.
    destruct (foldl dedup_entry _ _) as [[|e es] ids]; [by constructor|].
    constructor; [..|done]; by setoid_rewrite consumer_view_publish.
  - destruct IH as [Hview Hopen Hkeys].
    constructor; [..|done]; by setoid_rewrite consumer_view_publish.
Qed.
End positions.


(** ** Runs *)

Definition demo_fact (i : string) (side : Z) (q : f64) (ty : Z) : VenuePositionFact :=
  mkVenuePositionFact i side q q f64.zero 7 ty.
Definition demo_events : list VenueEvent :=
  [VPosition [demo_fact "BTC-USDT-SWAP" 1 (f64.of_Z 1) 0; demo_fact "BTC-USDT-SWAP" 2 (f64.of_Z 1) 0];
   VPosition [demo_fact "BTC-USDT-SWAP" 2 (f64.of_Z 1) 0]].


Definition trade_entry (id : string) : OrderReportEntry :=
  default_OrderReportEntry <| ent_report_type := OrderReportType_i32 OrderRepTypeTrade |>
    <| ent_report := Some (RTradeReport (default_TradeReport <| trr_exch_trade_id := id |>)) |>.
Definition trade_event (ids : list string) : VenueEvent :=
  VOrderReport (default_OrderReport <| rep_order_report_entries := trade_entry <$> ids |>).

Lemma trades_published_once_witness :
  let run := @process_all canonical_iter (λ _, true)
    [trade_event ["t1"; "t2"]; trade_event ["t2"; ""; "t3"; "t3"]] (new "acc") (NatsPublisher.new "gw") in
  sent_entries run.2 = trade_entry <$> ["t1"; "t2"; ""; "t3"].
Proof.
  pose proof (@trades_published_once canonical_iter (λ _, true) "acc" "gw"
    [trade_event ["t1"; "t2"]; trade_event ["t2"; ""; "t3"; "t3"]]) as H.
  cbv zeta. destruct (process_all _ _ _ _) as [p n]. destruct H as [_ H]. simpl.
  rewrite (H (λ _, eq_refl)). by vm_compute.
Defined.

(** ** Findings *)

(** A trade whose publish fails is recorded as published: the venue's resend of
    it is dropped, and the consumer never sees it. *)
Lemma failed_publish_loses_trade :
  sent_entries (@process_all canonical_iter (λ k, negb (k =? 0)%nat)
    [trade_event ["t1"]; trade_event ["t1"]] (new "acc") (NatsPublisher.new "gw")).2 = [].
Proof. by vm_compute. Qed.

(** An instrument with a colon is split in the wrong place: the position the
    venue dropped stays open at the consumer. *)
Lemma colon_instrument_stays_open :
  let events := [VPosition [demo_fact "XAU:USD" 1 (f64.of_Z 1) 4]; VPosition []] in
  held (consumer_view (@process_all canonical_iter (λ _, true) events
    (new "acc") (NatsPublisher.new "gw")).2) ("XAU:USD", 1) = Some (f64.of_Z 1) ∧
  held (venue_view events) ("XAU:USD", 1) = None.
Proof. by vm_compute. Qed.

(** The zero report of a dropped position has the type its name suggests, not
    the one the venue gave it. *)
Lemma closing_report_changes_type :
  let sent := np_sent (@process_all canonical_iter (λ _, true)
    [VPosition [demo_fact "BTCUSDT" 1 (f64.of_Z 1) InstTypePerp]; VPosition []]
    (new "acc") (NatsPublisher.new "gw")).2 in
  (λ out, match out with PubBalanceUpdate u => pr_instrument_type <$> bu_balances u | _ => [] end)
    <$> sent.*2 = [[InstTypePerp]; [InstTypeSpot]].
Proof. by vm_compute. Qed.
