(* ===== verification/GwExec.v ===== *)
(** * The gateway's command path

    [zk-gw-svc/src/gw_executor.rs] and the command handlers of
    [grpc_handler.rs]: validation, the sharded execution pool, its workers and
    the synthetic rejection reports.  The venue adapter is called by the workers;
    what it answers, and when, is up to the environment. *)

From S2P Require Import Prelude F64 Proto Models Utils Channels Reconcile Gateway.

(** ** Venue requests ([zk-gw-types]) *)

Record VenuePlaceOrder : Set := mkVenuePlaceOrder {
  vpo_correlation_id : Z;
  vpo_exch_account_id : string;
  vpo_instrument : string;
  vpo_buysell_type : Z;
  vpo_openclose_type : Z;
  vpo_order_type : Z;
  vpo_price : f64;
  vpo_qty : f64;
  vpo_leverage : f64;
  vpo_timestamp : Z;
}.
Record VenueCancelOrder : Set := mkVenueCancelOrder {
  vco_exch_order_ref : string;
  vco_order_id : Z;
  vco_timestamp : Z;
}.
Record VenueCommandAck : Set := mkVenueCommandAck {
  vca_success : bool;
  vca_exch_order_ref : option string;
  vca_error_message : option string;
}.

Inductive VenueOrderStatus : Set :=
| VBooked
| VPartiallyFilled
| VFilled
| VCancelled
| VRejected.

Record VenueOrderFact : Set := mkVenueOrderFact {
  vof_order_id : Z;
  vof_exch_order_ref : string;
  vof_instrument : string;
  vof_status : VenueOrderStatus;
  vof_filled_qty : f64;
  vof_unfilled_qty : f64;
  vof_avg_price : f64;
  vof_timestamp : Z;
}.

Inductive GwExecAction : Set :=
| ExecPlaceOrder (venue_req : VenuePlaceOrder) (correlation_id : Z)
| ExecCancelOrder (venue_req : VenueCancelOrder) (order_id : Z).

(** The order an action is about. *)
Definition action_order (a : GwExecAction) : Z :=
  match a with ExecPlaceOrder _ id => id | ExecCancelOrder _ id => id end.

(** ** Rejection reports *)

Definition RejReasonGwInternalError : Z := 4.

Definition rejection_entry (exec_type : ExchExecType) (error_msg : string) : OrderReportEntry :=
  mkOrderReportEntry (OrderReportType_i32 OrderRepTypeExec)
    (Some (RExecReport (default_ExecReport <| exr_exec_type := ExchExecType_i32 exec_type |>
       <| exr_rejection_info := Some (default_Rejection <| rej_reason := RejReasonGwInternalError |>
                                        <| rej_error_message := error_msg |>) |>))).

Definition build_rejection_report (now_ms order_id : Z) (gw_id : string) (account_id : Z)
    (error_msg : string) : OrderReport :=
  default_OrderReport <| rep_exchange := gw_id |> <| rep_account_id := account_id |>
    <| rep_order_id := order_id |> <| rep_update_timestamp := now_ms |>
    <| rep_gw_received_at_ns := 0 |>
    <| rep_order_report_entries := [rejection_entry ExchRejected error_msg] |>.

Definition build_cancel_rejection_report (now_ms order_id : Z) (gw_id : string) (account_id : Z)
    (error_msg : string) : OrderReport :=
  default_OrderReport <| rep_exchange := gw_id |> <| rep_account_id := account_id |>
    <| rep_order_id := order_id |> <| rep_update_timestamp := now_ms |>
    <| rep_gw_received_at_ns := 0 |>
    <| rep_order_report_entries := [rejection_entry CancelReject error_msg] |>.

(** The report for an action that failed. *)
Definition failure_report (now_ms : Z) (gw_id : string) (account_id : Z) (action : GwExecAction)
    (error_msg : string) : OrderReport :=
  match action with
  | ExecPlaceOrder _ correlation_id =>
      build_rejection_report now_ms correlation_id gw_id account_id error_msg
  | ExecCancelOrder _ order_id =>
      build_cancel_rejection_report now_ms order_id gw_id account_id error_msg
  end.

(** ** The pool and what runs beside it *)

Record GwExecPool : Type := mkGwExecPool {
  gp_shards : list (channel GwExecAction);
  gp_shard_count : nat;
  gp_queue_capacity : nat;
  gp_gw_id : string;
  gp_account_id : Z;
}.
#[export] Instance eta_GwExecPool : Eta GwExecPool := λ r,
  mkGwExecPool (gp_shards r) (gp_shard_count r) (gp_queue_capacity r) (gp_gw_id r)
    (gp_account_id r).

(** The pool, its publisher, the action each worker is executing, and the
    reporting tasks spawned and not yet run.  The last two fields are histories:
    what the queues accepted and what the adapter was called with. *)
Record GwService : Type := mkGwService {
  gs_pool : GwExecPool;
  gs_publisher : NatsPublisher;
  gs_busy : gmap nat GwExecAction;
  gs_spawned : list GwExecAction;
  gs_accepted : list GwExecAction;
  gs_called : list GwExecAction;
}.
#[export] Instance eta_GwService : Eta GwService := λ r,
  mkGwService (gs_pool r) (gs_publisher r) (gs_busy r) (gs_spawned r) (gs_accepted r) (gs_called r).

Module GwExecPool.
Section pool.
Context (nats_ok : nat → bool).
Implicit Types (p : GwExecPool) (s : GwService).

Definition new (shard_count queue_capacity : nat) (gw_id : string) (account_id : Z)
    : outcome GwExecPool :=
  shards ← new_shards shard_count queue_capacity;
  mret (mkGwExecPool shards shard_count queue_capacity gw_id account_id).

Definition dispatch (order_id : Z) (action : GwExecAction) p
    : outcome (result unit GwExecAction * GwExecPool) :=
  '(r, shards) ← shard_dispatch (gp_shard_count p) (gp_queue_capacity p) order_id action (gp_shards p);
  mret (r, p <| gp_shards := shards |>).

Definition dispatch_or_reject (order_id : Z) (action : GwExecAction) s : outcome GwService :=
  '(r, p) ← dispatch order_id action (gs_pool s);
  let s := s <| gs_pool := p |> in
  mret match r with
       | Ok _ => s <| gs_accepted ::= λ l, l ++ [action] |>
       | Err action => s <| gs_spawned ::= λ l, l ++ [action] |>
       end.

(** A spawned task runs. *)
Definition run_spawned (k : nat) (now_ms : Z) s : GwService :=
  match gs_spawned s !! k with
  | Some action =>
      let report := failure_report now_ms (gp_gw_id (gs_pool s)) (gp_account_id (gs_pool s))
                      action "execution queue full" in
      s <| gs_spawned ::= delete k |>
        <| gs_publisher ::= NatsPublisher.publish_order_report nats_ok report |>
  | None => s
  end.

(** A free worker takes an action and calls the adapter. *)
Definition worker_take (i : nat) s : GwService :=
  match gs_busy s !! i with
  | Some _ => s
  | None =>
      match gp_shards (gs_pool s) !! i ≫= recv with
      | Some (action, ch) =>
          s <| gs_pool ::= λ p, p <| gp_shards ::= <[i := ch]> |> |>
            <| gs_busy ::= <[i := action]> |>
            <| gs_called ::= λ l, l ++ [action] |>
      | None => s
      end
  end.

(** The adapter answers: a refusal or an error is reported. *)
Definition worker_done (i : nat) (answer : result VenueCommandAck string) (now_ms : Z) s : GwService :=
  match gs_busy s !! i with
  | None => s
  | Some action =>
      let s := s <| gs_busy ::= delete i |> in
      let report msg :=
        s <| gs_publisher ::= NatsPublisher.publish_order_report nats_ok
               (failure_report now_ms (gp_gw_id (gs_pool s)) (gp_account_id (gs_pool s)) action msg) |> in
      match answer with
      | Ok ack => if vca_success ack then s else report (default "" (vca_error_message ack))
      | Err e => report e
      end
  end.

(** The adapter panics: the worker's task ends and its receiver is dropped. *)
Definition worker_lost (i : nat) s : GwService :=
  s <| gs_pool ::= λ p, p <| gp_shards ::= alter close i |> |> <| gs_busy ::= delete i |>.
End pool.
End GwExecPool.

(** ** The command handlers *)

Inductive Status : Set :=
| InvalidArgument (msg : string)
| Internal (msg : string).

(** [zk.gateway.v1.GatewayResponse] *)
Record GatewayResponse : Set := mkGatewayResponse {
  gwr_timestamp : Z;
  gwr_status : Z;
  gwr_error_code : Z;
  gwr_message : string;
  gwr_rejection_info : option Rejection;
}.
Definition GwRespStatusSuccess : Z := 1.
Definition success_response (ts : Z) : GatewayResponse :=
  mkGatewayResponse ts GwRespStatusSuccess 0 "" None.

Module GrpcHandler.
Section handler.
Implicit Types (s : GwService).

Definition validate_send_order_request (req : SendOrderRequest) : result unit string :=
  if gwreq_correlation_id req <=? 0 then Err "place_order: correlation_id must be > 0"
  else if trim_is_empty (gwreq_exch_account_id req) then Err "place_order: exch_account_id is required"
  else if trim_is_empty (gwreq_instrument req) then Err "place_order: instrument is required"
  else if negb (f64.is_finite (gwreq_scaled_qty req)) || (gwreq_scaled_qty req <=? f64.zero)%f64 then
    Err "place_order: scaled_qty must be finite and > 0"
  else if negb (f64.is_finite (gwreq_scaled_price req)) then
    Err "place_order: scaled_price must be finite"
  else Ok tt.

Definition validate_cancel_order_request (req : CancelOrderRequest) : result unit string :=
  if gwcan_order_id req <=? 0 then Err "cancel_order: order_id must be > 0" else Ok tt.

Definition venue_place (req : SendOrderRequest) : VenuePlaceOrder :=
  mkVenuePlaceOrder (gwreq_correlation_id req) (gwreq_exch_account_id req) (gwreq_instrument req)
    (gwreq_buysell_type req) (gwreq_openclose_type req) (gwreq_order_type req)
    (gwreq_scaled_price req) (gwreq_scaled_qty req) (gwreq_leverage req) (gwreq_timestamp req).
Definition venue_cancel (req : CancelOrderRequest) : VenueCancelOrder :=
  mkVenueCancelOrder (gwcan_exch_order_ref req) (gwcan_order_id req) (gwcan_timestamp req).

Definition dispatch_place (req : SendOrderRequest) s : outcome GwService :=
  GwExecPool.dispatch_or_reject (gwreq_correlation_id req)
    (ExecPlaceOrder (venue_place req) (gwreq_correlation_id req)) s.
Definition dispatch_cancel (req : CancelOrderRequest) s : outcome GwService :=
  GwExecPool.dispatch_or_reject (gwcan_order_id req)
    (ExecCancelOrder (venue_cancel req) (gwcan_order_id req)) s.

Definition place_order (now_ms : Z) (req : SendOrderRequest) s
    : outcome (result GatewayResponse Status * GwService) :=
  match validate_send_order_request req with
  | Err msg => mret (Err (InvalidArgument msg), s)
  | Ok _ => s ← dispatch_place req s; mret (Ok (success_response now_ms), s)
  end.

Definition cancel_order (now_ms : Z) (req : CancelOrderRequest) s
    : outcome (result GatewayResponse Status * GwService) :=
  match validate_cancel_order_request req with
  | Err msg => mret (Err (InvalidArgument msg), s)
  | Ok _ => s ← dispatch_cancel req s; mret (Ok (success_response now_ms), s)
  end.

(** A batch stops at its first invalid request; the ones before it are sent. *)
Fixpoint batch_place_orders (now_ms : Z) (reqs : list SendOrderRequest) s
    : outcome (result GatewayResponse Status * GwService) :=
  match reqs with
  | [] => mret (Ok (success_response now_ms), s)
  | req :: reqs =>
      match validate_send_order_request req with
      | Err msg => mret (Err (InvalidArgument msg), s)
      | Ok _ => s ← dispatch_place req s; batch_place_orders now_ms reqs s
      end
  end.

Fixpoint batch_cancel_orders (now_ms : Z) (reqs : list CancelOrderRequest) s
    : outcome (result GatewayResponse Status * GwService) :=
  match reqs with
  | [] => mret (Ok (success_response now_ms), s)
  | req :: reqs =>
      match validate_cancel_order_request req with
      | Err msg => mret (Err (InvalidArgument msg), s)
      | Ok _ => s ← dispatch_cancel req s; batch_cancel_orders now_ms reqs s
      end
  end.

(** *** Query conversions *)

Definition venue_order_status_to_exch (st : VenueOrderStatus) : Z :=
  ExchangeOrderStatus_i32
    match st with
    | VBooked => ExchOrderStatusBooked
    | VPartiallyFilled => ExchOrderStatusPartialFilled
    | VFilled => ExchOrderStatusFilled
    | VCancelled => ExchOrderStatusCancelled
    | VRejected => ExchOrderStatusExchRejected
    end.

Definition venue_order_fact_to_exch_order (f : VenueOrderFact) : ExchOrder :=
  let state_report := default_OrderStateReport
    <| osr_exch_order_status := venue_order_status_to_exch (vof_status f) |>
    <| osr_filled_qty := vof_filled_qty f |> <| osr_unfilled_qty := vof_unfilled_qty f |>
    <| osr_avg_price := vof_avg_price f |> in
  let entry := mkOrderReportEntry (OrderReportType_i32 OrderRepTypeState)
                 (Some (ROrderStateReport state_report)) in
  default_ExchOrder <| eo_order_ref := vof_exch_order_ref f |> <| eo_instrument := vof_instrument f |>
    <| eo_order_report := Some (default_OrderReport <| rep_exch_order_ref := vof_exch_order_ref f |>
         <| rep_order_id := vof_order_id f |> <| rep_order_report_entries := [entry] |>) |>
    <| eo_timestamp := vof_timestamp f |>.

Definition venue_position_fact_to_proto (f : VenuePositionFact) : Position :=
  default_Position <| pos_account_id := vp_account_id f |>
    <| pos_instrument_code := vp_instrument f |> <| pos_long_short_type := vp_long_short_type f |>
    <| pos_instrument_type := if negb (vp_instrument_type f =? 0) then vp_instrument_type f
                              else infer_instrument_type (vp_instrument f) |>
    <| pos_total_qty := vp_qty f |> <| pos_frozen_qty := vp_frozen_qty f |>
    <| pos_avail_qty := vp_avail_qty f |> <| pos_is_from_exch := true |>.

(** [query_account_balance] on the adapter's answer. *)
Definition query_account_balance (account_id : Z) (answer : result (list VenueBalanceFact) string)
    : result BalanceUpdate Status :=
  match answer with
  | Ok facts =>
      Ok (mkBalanceUpdate ((λ f, default_PositionReport <| pr_instrument_code := vb_asset f |>
           <| pr_instrument_type := InstTypeSpot |> <| pr_qty := vb_total_qty f |>
           <| pr_avail_qty := vb_avail_qty f |> <| pr_account_id := account_id |>) <$> facts))
  | Err e => Err (Internal e)
  end.

Definition query_position (answer : result (list VenuePositionFact) string)
    : result (list Position) Status :=
  match answer with
  | Ok facts => Ok (venue_position_fact_to_proto <$> facts)
  | Err e => Err (Internal e)
  end.

(** One adapter answer per query; the failed ones are skipped. *)
Definition query_order_details (answers : list (result (list VenueOrderFact) string))
    : list ExchOrder :=
  answers ≫= λ answer,
    match answer with Ok facts => venue_order_fact_to_exch_order <$> facts | Err _ => [] end.

Definition query_open_orders (answer : result (list VenueOrderFact) string)
    : result (list ExchOrder) Status :=
  match answer with
  | Ok facts => Ok (venue_order_fact_to_exch_order <$> facts)
  | Err e => Err (Internal e)
  end.
End handler.
End GrpcHandler.

(** ** Runs

    Requests arrive, workers take and finish actions or are lost, and spawned
    reporting tasks run, in any interleaving. *)

Inductive gw_event : Type :=
| RpcPlace (now_ms : Z) (req : SendOrderRequest)
| RpcCancel (now_ms : Z) (req : CancelOrderRequest)
| RpcBatchPlace (now_ms : Z) (reqs : list SendOrderRequest)
| RpcBatchCancel (now_ms : Z) (reqs : list CancelOrderRequest)
| WorkerTake (i : nat)
| WorkerDone (i : nat) (answer : result VenueCommandAck string) (now_ms : Z)
| WorkerLost (i : nat)
| RunSpawned (k : nat) (now_ms : Z).

Definition gw_step (nats_ok : nat → bool) (s : GwService) (e : gw_event) : outcome GwService :=
  match e with
  | RpcPlace ts req => '(_, s) ← GrpcHandler.place_order ts req s; mret s
  | RpcCancel ts req => '(_, s) ← GrpcHandler.cancel_order ts req s; mret s
  | RpcBatchPlace ts reqs => '(_, s) ← GrpcHandler.batch_place_orders ts reqs s; mret s
  | RpcBatchCancel ts reqs => '(_, s) ← GrpcHandler.batch_cancel_orders ts reqs s; mret s
  | WorkerTake i => mret (GwExecPool.worker_take i s)
  | WorkerDone i answer ts => mret (GwExecPool.worker_done nats_ok i answer ts s)
  | WorkerLost i => mret (GwExecPool.worker_lost i s)
  | RunSpawned k ts => mret (GwExecPool.run_spawned nats_ok k ts s)
  end.

Definition gw_start (p : GwExecPool) (n : NatsPublisher) : GwService := mkGwService p n ∅ [] [] [].

Definition gw_run (nats_ok : nat → bool) (p : GwExecPool) (n : NatsPublisher) (es : list gw_event)
    : outcome GwService :=
  for_each (gw_step nats_ok) es (gw_start p n).

(** ** Order per order id *)

Definition concerns_order (o : Z) (a : GwExecAction) : bool := action_order a =? o.

Section order.
Context (nats_ok : nat → bool) (n capacity : nat).
Hypothesis Hn : (0 < n)%nat.

(** The service seen as a run of its shards. *)
Definition shards_of (s : GwService) : shard_run GwExecAction :=
  mkShardRun (gp_shards (gs_pool s)) (gs_accepted s) (gs_called s).
Record gw_inv (s : GwService) : Prop := mkGwInv {
  gi_count : gp_shard_count (gs_pool s) = n;
  gi_capacity : gp_queue_capacity (gs_pool s) = capacity;
  gi_fifo : fifo_inv concerns_order n capacity (shards_of s);
}.

Lemma dispatch_or_reject_inv s a :
  gw_inv s → returns (GwExecPool.dispatch_or_reject (action_order a) a s) gw_inv.
Proof.
  intros [Hcount Hcap Hfifo].
  assert (routed concerns_order n (Dispatch (action_order a) a)) as Hrouted.
  { intros o Ho. unfold concerns_order in Ho. by apply Z.eqb_eq in Ho as ->. }
  pose proof (fifo_dispatch _ n capacity Hn _ _ _ Hrouted Hfifo) as H. simpl in H.
  unfold GwExecPool.dispatch_or_reject, GwExecPool.dispatch. rewrite Hcount, Hcap.
  destruct (shard_dispatch n capacity _ a _) as [[r shards]|]; [|done]. simpl in *.
  by destruct r.
Qed.

Lemma batch_place_inv ts reqs s :
  gw_inv s → returns (GrpcHandler.batch_place_orders ts reqs s) (λ r, gw_inv r.2).
Proof.
  revert s. induction reqs as [|req reqs IH]; intros s Hs; [done|]. simpl.
  destruct (GrpcHandler.validate_send_order_request req); [|done].
  apply returns_bind. eapply returns_mono; [by apply (dispatch_or_reject_inv s (ExecPlaceOrder _ _))|].
  intros s' Hs'. by apply IH.
Qed.

Lemma batch_cancel_inv ts reqs s :
  gw_inv s → returns (GrpcHandler.batch_cancel_orders ts reqs s) (λ r, gw_inv r.2).
Proof.
  revert s. induction reqs as [|req reqs IH]; intros s Hs; [done|]. simpl.
  destruct (GrpcHandler.validate_cancel_order_request req); [|done].
  apply returns_bind. eapply returns_mono; [by apply (dispatch_or_reject_inv s (ExecCancelOrder _ _))|].
  intros s' Hs'. by apply IH.
Qed.

(** A single request is a batch of one. *)
Lemma place_order_batch ts req s :
  GrpcHandler.place_order ts req s = GrpcHandler.batch_place_orders ts [req] s.
Proof. simpl. unfold GrpcHandler.place_order. by destruct (GrpcHandler.validate_send_order_request req). Qed.
Lemma cancel_order_batch ts req s :
  GrpcHandler.cancel_order ts req s = GrpcHandler.batch_cancel_orders ts [req] s.
Proof. simpl. unfold GrpcHandler.cancel_order. by destruct (GrpcHandler.validate_cancel_order_request req). Qed.

Lemma worker_take_inv i s : gw_inv s → gw_inv (GwExecPool.worker_take i s).
Proof.
  intros [Hcount Hcap Hfifo]. unfold GwExecPool.worker_take. destruct (gs_busy s !! i); [by constructor|].
  pose proof (fifo_recv _ n capacity Hn _ i Hfifo) as H. simpl in H.
  destruct (gp_shards (gs_pool s) !! i ≫= recv) as [[a ch]|]; by constructor.
Qed.

(** Publishing changes neither the pool nor the histories. *)
Lemma gw_inv_same s s' :
  gs_pool s' = gs_pool s → gs_accepted s' = gs_accepted s → gs_called s' = gs_called s →
  gw_inv s → gw_inv s'.
Proof. intros Hp Ha Hc [? ? Hf]. constructor; unfold shards_of; rewrite ?Hp, ?Ha, ?Hc; done. Qed.

Lemma gw_inv_step s e : gw_inv s → returns (gw_step nats_ok s e) gw_inv.
Proof.
  intros Hs. destruct e as [ts req|ts req|ts reqs|ts reqs|i|i answer ts|i|k ts]; simpl.
  - rewrite place_order_batch. apply returns_bind. eapply returns_mono; [by apply batch_place_inv|].
    by intros [].
  - rewrite cancel_order_batch. apply returns_bind. eapply returns_mono; [by apply batch_cancel_inv|].
    by intros [].
  - apply returns_bind. eapply returns_mono; [by apply batch_place_inv|]. by intros [].
  - apply returns_bind. eapply returns_mono; [by apply batch_cancel_inv|]. by intros [].
  - by apply worker_take_inv.
  - unfold GwExecPool.worker_done. destruct (gs_busy s !! i); [|done].
    destruct answer as [ack|e]; [destruct (vca_success ack)|]; by apply (gw_inv_same s).
  - destruct Hs as [Hcount Hcap Hfifo]. constructor; [done..|].
    exact (fifo_lose _ n capacity Hn _ i Hfifo).
  - unfold GwExecPool.run_spawned. destruct (gs_spawned s !! k); [|done]. by apply (gw_inv_same s).
Qed.
End order.

(** C21: whatever the interleaving of requests, workers, failures and reporting
    tasks, a pool with at least one shard and room in its queues never panics;
    the adapter is called with the commands of one order in the order they were
    accepted, and a queued command of a living worker is the only thing that can
    still be missing. *)
Theorem gateway_commands_in_order nats_ok n capacity gw_id account_id es :
  (0 < n)%nat → (0 < capacity)%nat →
  returns (p ← GwExecPool.new n capacity gw_id account_id;
           gw_run nats_ok p (NatsPublisher.new gw_id) es) (λ s,
    ∀ o, let i := shard_index n o in
    let about := List.filter (concerns_order o) in
    about (gs_called s) `prefix_of` about (gs_accepted s) ∧
    (open_at (gp_shards (gs_pool s)) i = true →
     about (gs_called s) ++ about (queue_at (gp_shards (gs_pool s)) i) = about (gs_accepted s))).
Proof.
  intros Hn Hcap. unfold GwExecPool.new, new_shards.
  destruct (Nat.eqb_spec capacity 0) as [|_]; [lia|]. simpl.
  eapply returns_mono.
  - apply (returns_for_each (gw_inv n capacity)); [|intros; by apply gw_inv_step].
    constructor; [done..|]. by apply fifo_start.
  - intros s [_ _ Hfifo] o. split; [apply (fi_prefix _ _ _ _ Hfifo)|apply (fi_order _ _ _ _ Hfifo)].
Qed.

(** ** Runs on concrete requests *)

Definition demo_send (id : Z) (qty : Z) : SendOrderRequest :=
  default_SendOrderRequest <| gwreq_correlation_id := id |> <| gwreq_exch_account_id := "acc" |>
    <| gwreq_instrument := "BTC-USDT" |> <| gwreq_scaled_qty := f64.of_Z qty |>
    <| gwreq_scaled_price := f64.of_Z 100 |>.
Definition demo_cancel (id : Z) : CancelOrderRequest :=
  default_CancelOrderRequest <| gwcan_order_id := id |>.

Definition demo_gw_run (es : list gw_event) : outcome GwService :=
  p ← GwExecPool.new 2 1 "gw" 7; gw_run (λ _, true) p (NatsPublisher.new "gw") es.

Lemma gateway_commands_in_order_witness :
  (0 < 2)%nat ∧ (0 < 1)%nat ∧
  returns (demo_gw_run [RpcPlace 0 (demo_send 5 1); WorkerTake 1; RpcPlace 0 (demo_send 6 1);
                        RpcCancel 0 (demo_cancel 5); WorkerDone 1 (Err "timeout") 1; WorkerTake 1])
    (λ s, List.filter (concerns_order 5) (gs_called s) `prefix_of`
          List.filter (concerns_order 5) (gs_accepted s)).
Proof.
  split; [lia|]. split; [lia|].
  eapply returns_mono; [apply (gateway_commands_in_order (λ _, true) 2 1 "gw" 7); lia|].
  intros s Hs. apply (Hs 5).
Defined.

(** A batch with an invalid request after a valid one is answered as invalid,
    although the valid one was queued for the venue. *)
Lemma invalid_batch_partly_sent :
  returns (p ← GwExecPool.new 2 1 "gw" 7;
           GrpcHandler.batch_place_orders 0 [demo_send 5 1; demo_send 6 0]
             (gw_start p (NatsPublisher.new "gw")))
    (λ '(r, s), r = Err (InvalidArgument "place_order: scaled_qty must be finite and > 0") ∧
                action_order <$> gs_accepted s = [5]).
Proof. by vm_compute. Qed.

(** The end of a worker loses what was queued for it: nothing is reported. *)
Lemma lost_worker_drops_queue :
  returns (demo_gw_run [RpcPlace 0 (demo_send 5 1); WorkerTake 1; RpcCancel 0 (demo_cancel 5);
                        WorkerLost 1; WorkerTake 1])
    (λ s, action_order <$> gs_accepted s = [5; 5] ∧ action_order <$> gs_called s = [5] ∧
          gs_spawned s = [] ∧ np_sent (gs_publisher s) = []).
Proof. by vm_compute. Qed.
