(* ===== verification/Collections.v ===== *)
(** * Standard-library collections: [BinaryHeap], stable and unstable sorts

    The documented interface of [std::collections::BinaryHeap] and of the slice
    sorts, used by the scheduler, the timer manager and the replay queue.  A
    [BinaryHeap] leaves the choice among equal elements open, and so does
    [sort_unstable_by_key]; the components take both as parameters and rely on
    the laws below only.  [sorted_heap] and [sort_by] are one implementation of
    each, used to run the definitions. *)

From Stdlib Require Import Sorted.
From S2P Require Import Prelude.

(** ** [BinaryHeap] *)

(** A heap for elements that are popped in the order [before]: [before a b]
    holds when [a] may be popped while [b] is in the heap ([Ord] gives a total
    preorder, a [BinaryHeap] pops a greatest element of it). *)
Class BinaryHeap (A : Type) : Type := {
  heap : Type;
  heap_new : heap;
  heap_push : A → heap → heap;
  heap_pop : heap → option (A * heap);
  heap_iter : heap → list A;
}.

Section heap_ops.
Context `{BinaryHeap A}.

Definition heap_peek (h : heap) : option A := fst <$> heap_pop h.
Definition heap_len (h : heap) : nat := length (heap_iter h).
Definition heap_is_empty (h : heap) : bool := (heap_len h =? 0)%nat.
End heap_ops.

Class BinaryHeapOk {A} `{BinaryHeap A} (before : A → A → bool) : Prop := {
  heap_iter_new : heap_iter heap_new = [];
  heap_iter_push a h : heap_iter (heap_push a h) ≡ₚ a :: heap_iter h;
  heap_pop_None h : heap_pop h = None → heap_iter h = [];
  heap_pop_Some h a h' : heap_pop h = Some (a, h') →
    heap_iter h ≡ₚ a :: heap_iter h' ∧ Forall (λ b, before a b = true) (heap_iter h);
}.

Section heap_facts.
Context `{BinaryHeapOk A before}.

Lemma heap_pop_nil h : heap_iter h = [] → heap_pop h = None.
Proof.
  intros Hh. destruct (heap_pop h) as [[a h']|] eqn:E; [|done].
  apply heap_pop_Some in E as [Hp _]. rewrite Hh in Hp. by apply Permutation_nil_cons in Hp.
Qed.

Lemma heap_pop_Some_len h a h' : heap_pop h = Some (a, h') → heap_len h = S (heap_len h').
Proof. intros [Hp _]%heap_pop_Some. unfold heap_len. by rewrite Hp. Qed.

Lemma heap_push_len a h : heap_len (heap_push a h) = S (heap_len h).
Proof. unfold heap_len. by rewrite heap_iter_push. Qed.
End heap_facts.

(** ** Sorting *)

Section sort.
Context {A : Type} (le : A → A → bool).

Fixpoint insert_by (a : A) (l : list A) : list A :=
  match l with
  | [] => [a]
  | b :: l => if le a b then a :: b :: l else b :: insert_by a l
  end.

(** [slice::sort_by]: a stable sort. *)
Definition sort_by (l : list A) : list A := foldr insert_by [] l.

Lemma insert_by_perm a l : insert_by a l ≡ₚ a :: l.
Proof.
  induction l as [|b l IH]; simpl; [done|]. destruct (le a b); [done|].
  rewrite IH. apply perm_swap.
Qed.

Lemma sort_by_perm l : sort_by l ≡ₚ l.
Proof. induction l as [|a l IH]; simpl; [done|]. by rewrite insert_by_perm, IH. Qed.

Hypothesis le_total : ∀ a b, le a b = true ∨ le b a = true.
Hypothesis le_trans : ∀ a b c, le a b = true → le b c = true → le a c = true.

Lemma insert_by_sorted a l :
  StronglySorted (λ x y, le x y = true) l → StronglySorted (λ x y, le x y = true) (insert_by a l).
Proof.
  induction 1 as [|b l Hs IH Hb]; simpl; [repeat constructor|].
  destruct (le a b) eqn:E.
  - constructor; [by constructor|]. constructor; [done|].
    eapply Forall_impl; [exact Hb|]. simpl. eauto.
  - constructor; [done|]. rewrite insert_by_perm. constructor; [|done].
    destruct (le_total a b); congruence.
Qed.

Lemma sort_by_sorted l : StronglySorted (λ x y, le x y = true) (sort_by l).
Proof. induction l as [|a l IH]; simpl; [constructor|]. by apply insert_by_sorted. Qed.

(** A heap kept as an unordered list, sorted when it is popped. *)
Definition sorted_heap : BinaryHeap A := {|
  heap := list A;
  heap_new := [];
  heap_push := cons;
  heap_pop l := match sort_by l with [] => None | a :: l => Some (a, l) end;
  heap_iter l := l;
|}.

Lemma sorted_heap_ok : @BinaryHeapOk A sorted_heap le.
Proof.
  split; simpl; [done|done| |].
  - intros h E. destruct (sort_by h) eqn:Es; [|done]. pose proof (sort_by_perm h) as Hp.
    rewrite Es in Hp. by apply Permutation_nil in Hp.
  - intros h a h' E. pose proof (sort_by_perm h) as Hp. pose proof (sort_by_sorted h) as Hs.
    destruct (sort_by h) as [|b l]; [done|]. injection E as -> ->.
    split; [by rewrite <- Hp|]. rewrite <- Hp. apply StronglySorted_inv in Hs as [_ Hs].
    constructor; [|done]. by destruct (le_total a a).
Qed.
End sort.

(** [slice::sort_unstable_by_key]: sorted by the key, the order of elements
    with equal keys unspecified. *)
Class UnstableSort (A : Type) : Type := sort_unstable_by_key : (A → Z) → list A → list A.
Class UnstableSortOk {A} (S : UnstableSort A) : Prop := {
  sort_unstable_perm (key : A → Z) l : sort_unstable_by_key key l ≡ₚ l;
  sort_unstable_sorted (key : A → Z) l :
    StronglySorted (λ a b, key a ≤ key b) (sort_unstable_by_key key l);
}.

Definition stable_sort {A} : UnstableSort A := λ key, sort_by (λ a b, key a <=? key b).

Lemma StronglySorted_impl {A} (P Q : A → A → Prop) l :
  (∀ a b, P a b → Q a b) → StronglySorted P l → StronglySorted Q l.
Proof.
  intros HPQ. induction 1; constructor; [done|]. eapply Forall_impl; [done|]. simpl. auto.
Qed.

Lemma stable_sort_ok {A} : UnstableSortOk (@stable_sort A).
Proof.
  split; intros key l; [apply sort_by_perm|].
  eapply StronglySorted_impl; [|apply (sort_by_sorted (λ a b, key a <=? key b)); intros; lia].
  simpl. lia.
Qed.

(** ** The order of strings: byte-wise lexicographic *)

Lemma str_lt_trans (a b c : string) :
  String.compare a b = Lt → String.compare b c = Lt → String.compare a c = Lt.
Proof.
  revert b c. induction a as [|x a IH]; intros [|y b] [|z c]; simpl; try done.
  unfold Ascii.compare.
  destruct (N.compare_spec (Ascii.N_of_ascii x) (Ascii.N_of_ascii y)); try done;
  destruct (N.compare_spec (Ascii.N_of_ascii y) (Ascii.N_of_ascii z)); try done;
  destruct (N.compare_spec (Ascii.N_of_ascii x) (Ascii.N_of_ascii z)); try done; try lia.
  apply IH.
Qed.

Lemma str_compare_refl (a : string) : String.compare a a = Eq.
Proof. pose proof (String.compare_antisym a a). by destruct (String.compare a a). Qed.

(** Case analysis on a comparison of strings. *)
Lemma str_compare_spec (a b : string) :
  CompareSpec (a = b) (String.compare a b = Lt) (String.compare b a = Lt) (String.compare a b).
Proof.
  destruct (String.compare a b) eqn:E; constructor; [|done|].
  - by apply String.compare_eq_iff.
  - by rewrite String.compare_antisym, E.
Qed.
