(* ===== verification/Scheduler.v ===== *)
(** * The timer scheduler and the logical clocks ([zk-core-rs])

    [Scheduler] keeps the registered timers, a heap of [(fire_ms, key,
    generation)] entries and the cancelled keys.  Replacing a timer leaves its
    old heap entry in place; an entry is valid only while its generation is the
    one of the registered timer.  [SimClock] and [TestClock] wrap it behind the
    [Clock] trait.

    Cron expressions are those of the [cron] crate and dates those of [chrono];
    both are parameters ([CronLib]).  Integers are [i64] and wrap as in a
    release build. *)

From S2P Require Import Prelude Collections.

(** ** [types.rs] *)

Module TimerSchedule.
Inductive t : Type :=
| OnceAt (fire_at_ms : Z)
| Interval (every_ms : Z) (start_ms end_ms : option Z)
| Cron (expr : string) (start_ms end_ms : option Z).
End TimerSchedule.

Inductive TimerCoalescePolicy : Type := FireAll | FireOnce | SkipMissed.

Record TimerRequest : Type := mkTimerRequest {
  tr_timer_key : string;
  tr_schedule : TimerSchedule.t;
  tr_coalesce : TimerCoalescePolicy;
}.

Record TimerFire : Type := mkTimerFire {
  tf_timer_key : string;
  tf_scheduled_ts_ms : Z;
  tf_dispatch_ts_ms : Z;
  tf_lag_ms : Z;
}.

Inductive ClockError : Type :=
| InvalidCronExpression (msg : string)
| InvalidInterval (msg : string)
| TimeMovedBackward (current_ms requested_ms : Z).

(** ** Third-party parameters: [cron] and [chrono] *)

Class CronLib : Type := {
  CronSchedule : Type;
  (** [Schedule::from_str]; the error is its [Display] text *)
  cron_from_str : string → result CronSchedule string;
  (** [schedule.after(&dt).next()], both dates in milliseconds *)
  cron_next : CronSchedule → Z → option Z;
  (** [Utc.timestamp_millis_opt(ms)] has a value *)
  timestamp_ok : Z → bool;
}.

Section cron.
Context `{!CronLib}.

(** [schedule.after(&Utc.timestamp_millis_opt(ms).unwrap()).next()] *)
Definition cron_after (schedule : CronSchedule) (ms : Z) : outcome (option Z) :=
  if timestamp_ok ms then Returns (cron_next schedule ms)
  else Panics "timestamp_millis_opt: out of range".
End cron.

(** ** [scheduler.rs]: interval arithmetic

    [every_ms] is positive ([register] rejects the others), so the divisions
    do not panic. *)

Definition next_interval_fire (start_ms every_ms current_ms : Z) : Z :=
  if current_ms <? start_ms then start_ms
  else
    let elapsed := wrap_i64 (current_ms - start_ms) in
    let periods := Z.quot elapsed every_ms in
    wrap_i64 (start_ms + wrap_i64 (wrap_i64 (periods + 1) * every_ms)).

Definition next_interval_fire_at_or_after (start_ms every_ms target_ms : Z) : Z :=
  if target_ms <=? start_ms then start_ms
  else
    let elapsed := wrap_i64 (target_ms - start_ms) in
    let periods := Z.quot elapsed every_ms in
    let candidate := wrap_i64 (start_ms + wrap_i64 (periods * every_ms)) in
    if target_ms <=? candidate then candidate else wrap_i64 (candidate + every_ms).

Definition latest_interval_fire_at_or_before (start_ms every_ms target_ms : Z) : Z :=
  if target_ms <? start_ms then start_ms
  else
    let elapsed := wrap_i64 (target_ms - start_ms) in
    let periods := Z.quot elapsed every_ms in
    wrap_i64 (start_ms + wrap_i64 (periods * every_ms)).

(** The first fire of an interval timer registered at [now_ms]. *)
Definition first_interval_fire (start every_ms now_ms : Z) : Z :=
  if now_ms <=? start then start
  else
    let elapsed := wrap_i64 (now_ms - start) in
    let periods := Z.quot elapsed every_ms in
    let candidate := wrap_i64 (start + wrap_i64 (periods * every_ms)) in
    if candidate <? now_ms then wrap_i64 (candidate + every_ms) else candidate.

(** [end.is_none_or(|e| t <= e)] *)
Definition end_allows (end_ms : option Z) (t : Z) : bool :=
  match end_ms with None => true | Some e => t <=? e end.

Definition MAX_CRON_FIRES_PER_DRAIN : Z := 10000.

Module InternalSchedule.
Inductive t `{!CronLib} : Type :=
| OnceAt
| Interval (every_ms start_ms : Z) (end_ms : option Z)
| Cron (schedule : CronSchedule) (end_ms : option Z).
End InternalSchedule.

Record TimerState `{!CronLib} : Type := mkTimerState {
  ts_schedule : InternalSchedule.t;
  ts_coalesce : TimerCoalescePolicy;
  ts_generation : Z;
}.

(** Heap entries [(fire_ms, key, generation)], popped in lexicographic order. *)
Record HeapEntry : Type := mkHeapEntry { he_fire : Z; he_key : string; he_gen : Z }.

Definition entry_before (a b : HeapEntry) : bool :=
  match he_fire a ?= he_fire b with
  | Lt => true
  | Gt => false
  | Eq =>
      match String.compare (he_key a) (he_key b) with
      | Lt => true
      | Gt => false
      | Eq => he_gen a <=? he_gen b
      end
  end.

Record Scheduler `{!CronLib, !BinaryHeap HeapEntry} : Type := mkScheduler {
  sd_heap : heap;
  sd_timers : gmap string TimerState;
  sd_cancelled : gset string;
  sd_next_generation : Z;
}.
#[export] Instance eta_Scheduler `{!CronLib, !BinaryHeap HeapEntry} : Eta Scheduler := λ r,
  mkScheduler _ _ (sd_heap r) (sd_timers r) (sd_cancelled r) (sd_next_generation r).

Definition fire_of (key : string) (t now_ms : Z) : TimerFire :=
  mkTimerFire key t now_ms (wrap_i64 (now_ms - t)).

(** The order of the returned fires: [(scheduled_ts_ms, timer_key)]. *)
Definition fire_le (a b : TimerFire) : bool :=
  match tf_scheduled_ts_ms a ?= tf_scheduled_ts_ms b with
  | Lt => true
  | Gt => false
  | Eq =>
      match String.compare (tf_timer_key a) (tf_timer_key b) with
      | Gt => false
      | _ => true
      end
  end.

Module Scheduler.
Section scheduler.
Context `{!CronLib, !BinaryHeap HeapEntry}.
Implicit Types (s : Scheduler) (key : string) (fires : list TimerFire).

Definition new : Scheduler := mkScheduler _ _ heap_new ∅ ∅ 0.

(** ** Registration *)

(** The schedule and first fire of a request: an error, nothing to schedule
    (the early [return Ok(())]), or a timer. *)
Definition plan (sched : TimerSchedule.t) (now_ms : Z)
    : outcome (result (option (InternalSchedule.t * Z)) ClockError) :=
  match sched with
  | TimerSchedule.OnceAt fire_at_ms => Returns (Ok (Some (InternalSchedule.OnceAt, fire_at_ms)))
  | TimerSchedule.Interval every_ms start_ms end_ms =>
      if every_ms <=? 0 then
        Returns (Err (InvalidInterval
          ("every_ms must be positive, got " +:+ display_i64 every_ms)))
      else
        let start := default now_ms start_ms in
        let first := first_interval_fire start every_ms now_ms in
        Returns (Ok (if end_allows end_ms first
                     then Some (InternalSchedule.Interval every_ms start end_ms, first)
                     else None))
  | TimerSchedule.Cron expr start_ms end_ms =>
      match cron_from_str expr with
      | Err e => Returns (Err (InvalidCronExpression ("'" +:+ expr +:+ "': " +:+ e)))
      | Ok schedule =>
          let start := default now_ms start_ms in
          next ← cron_after schedule start;
          Returns (Ok (match next with
                       | None => None
                       | Some first =>
                           if end_allows end_ms first
                           then Some (InternalSchedule.Cron schedule end_ms, first)
                           else None
                       end))
      end
  end.

Definition register (req : TimerRequest) (now_ms : Z) (s : Scheduler)
    : outcome (result unit ClockError * Scheduler) :=
  let generation := sd_next_generation s in
  let s := s <| sd_next_generation := wrap_u64 (generation + 1) |>
             <| sd_cancelled := sd_cancelled s ∖ {[tr_timer_key req]} |> in
  p ← plan (tr_schedule req) now_ms;
  Returns
    match p with
    | Err e => (Err e, s)
    | Ok None => (Ok tt, s)
    | Ok (Some (internal_schedule, first_fire_ms)) =>
        (Ok tt,
         s <| sd_timers := <[tr_timer_key req :=
                mkTimerState _ internal_schedule (tr_coalesce req) generation]> (sd_timers s) |>
           <| sd_heap := heap_push (mkHeapEntry first_fire_ms (tr_timer_key req) generation)
                (sd_heap s) |>)
    end.

Definition cancel (key : string) (s : Scheduler) : bool * Scheduler :=
  match sd_timers s !! key with
  | Some _ => (true, s <| sd_timers := delete key (sd_timers s) |>
                       <| sd_cancelled := {[key]} ∪ sd_cancelled s |>)
  | None => (false, s)
  end.

(** ** Draining *)

Definition remove_timer (key : string) (s : Scheduler) : Scheduler :=
  s <| sd_timers := delete key (sd_timers s) |>.

(** Push the next occurrence, or drop the timer when it is past its end. *)
Definition reschedule (key : string) (end_ms : option Z) (next : Z) (s : Scheduler)
    : outcome Scheduler :=
  if end_allows end_ms next then
    st ← unwrap "timers.get(key)" (sd_timers s !! key);
    Returns (s <| sd_heap := heap_push (mkHeapEntry next key (ts_generation st)) (sd_heap s) |>)
  else Returns (remove_timer key s).

(** Push a fire when the end of the schedule allows it. *)
Definition push_fire (key : string) (end_ms : option Z) (t now_ms : Z) (fires : list TimerFire)
    : list TimerFire :=
  if end_allows end_ms t then fires ++ [fire_of key t now_ms] else fires.

(** The [while t <= now_ms] loop of [FireAll]; the bound on the number of
    rounds is never reached ([SchedulerFacts]). *)
Fixpoint fire_all_loop (rounds : nat) (key : string) (start every : Z) (end_ms : option Z)
    (now_ms fire_ms t : Z) (fires : list TimerFire) : outcome (list TimerFire) :=
  match rounds with
  | O => Panics "fire_all_loop: rounds"
  | S rounds =>
      if t <=? now_ms then
        let fires := push_fire key end_ms t now_ms fires in
        let t' := next_interval_fire start every t in
        if t' =? fire_ms then Returns fires
        else fire_all_loop rounds key start every end_ms now_ms fire_ms t' fires
      else Returns fires
  end.

Definition interval_rounds (every fire_ms now_ms : Z) : nat :=
  Z.to_nat ((now_ms - fire_ms) / every + 2).

Definition fire_interval (key : string) (coalesce : TimerCoalescePolicy) (every start : Z)
    (end_ms : option Z) (fire_ms now_ms : Z) (s : Scheduler) (fires : list TimerFire)
    : outcome (list TimerFire * Scheduler) :=
  match coalesce with
  | FireAll =>
      fires ← fire_all_loop (interval_rounds every fire_ms now_ms) key start every end_ms now_ms
                fire_ms fire_ms fires;
      let next := next_interval_fire_at_or_after start every (wrap_i64 (now_ms + 1)) in
      s ← reschedule key end_ms next s;
      Returns (fires, s)
  | FireOnce =>
      let latest := Z.max (latest_interval_fire_at_or_before start every now_ms) fire_ms in
      let fires := push_fire key end_ms latest now_ms fires in
      let next := next_interval_fire start every latest in
      s ← reschedule key end_ms next s;
      Returns (fires, s)
  | SkipMissed =>
      let fires := if fire_ms =? now_ms then push_fire key end_ms fire_ms now_ms fires else fires in
      let next := next_interval_fire_at_or_after start every (wrap_i64 (now_ms + 1)) in
      s ← reschedule key end_ms next s;
      Returns (fires, s)
  end.

(** The [loop] of a cron [FireAll]: the fires, and whether the schedule has no
    further occurrence. *)
Fixpoint cron_all_loop (rounds : nat) (schedule : CronSchedule) (key : string)
    (end_ms : option Z) (now_ms t_ms count : Z) (fires : list TimerFire)
    : outcome (list TimerFire * bool) :=
  match rounds with
  | O => Panics "cron_all_loop: rounds"
  | S rounds =>
      if (now_ms <? t_ms) || (MAX_CRON_FIRES_PER_DRAIN <=? count) then Returns (fires, false)
      else
        let fires := push_fire key end_ms t_ms now_ms fires in
        let count := if end_allows end_ms t_ms then count + 1 else count in
        next ← cron_after schedule t_ms;
        match next with
        | Some next_ms => cron_all_loop rounds schedule key end_ms now_ms next_ms count fires
        | None => Returns (fires, true)
        end
  end.

(** The [loop] of a cron [FireOnce]: the last occurrence at or before
    [now_ms] ([last_ms] and [t_ms] are assigned together). *)
Fixpoint cron_last_loop (rounds : nat) (schedule : CronSchedule) (now_ms t_ms : Z) : outcome Z :=
  match rounds with
  | O => Panics "cron_last_loop: rounds"
  | S rounds =>
      next ← cron_after schedule t_ms;
      match next with
      | Some next_ms =>
          if now_ms <? next_ms then Returns t_ms
          else cron_last_loop rounds schedule now_ms next_ms
      | None => Returns t_ms
      end
  end.

Definition cron_rounds (fire_ms now_ms : Z) : nat := Z.to_nat (now_ms - fire_ms + 2).

(** [match cron_schedule.after(&dt).next()]: reschedule or drop the timer. *)
Definition reschedule_cron (key : string) (end_ms : option Z) (next : option Z) (s : Scheduler)
    : outcome Scheduler :=
  match next with
  | Some next_ms => reschedule key end_ms next_ms s
  | None => Returns (remove_timer key s)
  end.

Definition fire_cron (key : string) (coalesce : TimerCoalescePolicy) (schedule : CronSchedule)
    (end_ms : option Z) (fire_ms now_ms : Z) (s : Scheduler) (fires : list TimerFire)
    : outcome (list TimerFire * Scheduler) :=
  match coalesce with
  | FireAll =>
      r ← cron_all_loop (cron_rounds fire_ms now_ms) schedule key end_ms now_ms fire_ms 0 fires;
      let '(fires, exhausted) := r in
      let s := if exhausted : bool then remove_timer key s else s in
      s ← (match sd_timers s !! key with
           | Some _ => next ← cron_after schedule now_ms; reschedule_cron key end_ms next s
           | None => Returns s
           end);
      Returns (fires, s)
  | FireOnce =>
      last_ms ← cron_last_loop (cron_rounds fire_ms now_ms) schedule now_ms fire_ms;
      let fires := push_fire key end_ms last_ms now_ms fires in
      next ← cron_after schedule last_ms;
      next ← (match next with
              | Some next_ms =>
                  if next_ms <=? now_ms then cron_after schedule now_ms else Returns (Some next_ms)
              | None => Returns None
              end);
      s ← reschedule_cron key end_ms next s;
      Returns (fires, s)
  | SkipMissed =>
      let fires := if fire_ms =? now_ms then push_fire key end_ms fire_ms now_ms fires else fires in
      next ← cron_after schedule now_ms;
      s ← reschedule_cron key end_ms next s;
      Returns (fires, s)
  end.

(** One round of the [while let] loop, after the pop of entry [e]. *)
Definition drain_entry (now_ms : Z) (e : HeapEntry) (s : Scheduler) (fires : list TimerFire)
    : outcome (list TimerFire * Scheduler) :=
  if bool_decide (he_key e ∈ sd_cancelled s) then
    Returns (fires, s <| sd_cancelled := sd_cancelled s ∖ {[he_key e]} |>)
  else
    match sd_timers s !! he_key e with
    | None => Returns (fires, s)
    | Some st =>
        if negb (ts_generation st =? he_gen e) then Returns (fires, s)
        else
          match ts_schedule st with
          | InternalSchedule.OnceAt =>
              Returns (fires ++ [fire_of (he_key e) (he_fire e) now_ms], remove_timer (he_key e) s)
          | InternalSchedule.Interval every start end_ms =>
              fire_interval (he_key e) (ts_coalesce st) every start end_ms (he_fire e) now_ms s fires
          | InternalSchedule.Cron schedule end_ms =>
              fire_cron (he_key e) (ts_coalesce st) schedule end_ms (he_fire e) now_ms s fires
          end
    end.

Fixpoint drain_loop (rounds : nat) (now_ms : Z) (s : Scheduler) (fires : list TimerFire)
    : outcome (list TimerFire * Scheduler) :=
  match rounds with
  | O => Panics "drain_loop: rounds"
  | S rounds =>
      match heap_pop (sd_heap s) with
      | None => Returns (fires, s)
      | Some (e, h) =>
          if now_ms <? he_fire e then Returns (fires, s)
          else
            r ← drain_entry now_ms e (s <| sd_heap := h |>) fires;
            drain_loop rounds now_ms r.2 r.1
      end
  end.

Definition drain_due (now_ms : Z) (s : Scheduler) : outcome (list TimerFire * Scheduler) :=
  r ← drain_loop (S (heap_len (sd_heap s))) now_ms s [];
  Returns (sort_by fire_le r.1, r.2).

(** ** Queries *)

Definition entry_valid (s : Scheduler) (e : HeapEntry) : bool :=
  negb (bool_decide (he_key e ∈ sd_cancelled s)) &&
  match sd_timers s !! he_key e with
  | Some st => ts_generation st =? he_gen e
  | None => false
  end.

Definition peek_next_fire_ms (s : Scheduler) : option Z :=
  foldl (λ best e,
    if entry_valid s e then
      match best with
      | None => Some (he_fire e)
      | Some b => if he_fire e <? b then Some (he_fire e) else best
      end
    else best) None (heap_iter (sd_heap s)).

Definition is_empty (s : Scheduler) : bool := Nat.eqb (size (sd_timers s)) 0.
End scheduler.
End Scheduler.

(** ** [clock.rs], [sim_clock.rs], [test_clock.rs] *)

(** The [Clock] trait. *)
Class Clock (C : Type) : Type := {
  now_ms : C → Z;
  set_timer : TimerRequest → C → outcome (result unit ClockError * C);
  cancel_timer : string → C → bool * C;
  advance_to : Z → C → outcome (result (list TimerFire) ClockError * C);
}.

Record SimClock `{!CronLib, !BinaryHeap HeapEntry} : Type := mkSimClock {
  sc_current_ms : Z;
  sc_scheduler : Scheduler;
}.

Module SimClock.
Section sim_clock.
Context `{!CronLib, !BinaryHeap HeapEntry}.

Definition new (start_ms : Z) : SimClock := mkSimClock _ _ start_ms Scheduler.new.

Definition set_timer (req : TimerRequest) (c : SimClock)
    : outcome (result unit ClockError * SimClock) :=
  r ← Scheduler.register req (sc_current_ms c) (sc_scheduler c);
  Returns (r.1, mkSimClock _ _ (sc_current_ms c) r.2).

Definition cancel_timer (timer_key : string) (c : SimClock) : bool * SimClock :=
  let r := Scheduler.cancel timer_key (sc_scheduler c) in
  (r.1, mkSimClock _ _ (sc_current_ms c) r.2).

Definition advance_to (now : Z) (c : SimClock)
    : outcome (result (list TimerFire) ClockError * SimClock) :=
  if now <? sc_current_ms c then Returns (Err (TimeMovedBackward (sc_current_ms c) now), c)
  else
    r ← Scheduler.drain_due now (sc_scheduler c);
    Returns (Ok r.1, mkSimClock _ _ now r.2).
End sim_clock.
End SimClock.

#[export] Instance SimClock_Clock `{!CronLib, !BinaryHeap HeapEntry} : Clock SimClock := {|
  now_ms := sc_current_ms;
  set_timer := SimClock.set_timer;
  cancel_timer := SimClock.cancel_timer;
  advance_to := SimClock.advance_to;
|}.

(** [TestClock] is a [SimClock] with [tick] and inspection. *)
Module TestClock.
Section test_clock.
Context `{!CronLib, !BinaryHeap HeapEntry}.

Definition new (start_ms : Z) : SimClock := SimClock.new start_ms.
Definition tick (delta_ms : Z) (c : SimClock)
    : outcome (result (list TimerFire) ClockError * SimClock) :=
  advance_to (wrap_i64 (now_ms c + delta_ms)) c.
Definition peek_next_fire_ms (c : SimClock) : option Z :=
  Scheduler.peek_next_fire_ms (sc_scheduler c).
Definition is_empty (c : SimClock) : bool := Scheduler.is_empty (sc_scheduler c).
End test_clock.
End TestClock.
