(* ===== verification/SchedulerFacts.v ===== *)
(** * The scheduler's contract

    Laws of the [cron] and [chrono] parameters, the arithmetic of interval
    timers within the range of dates [chrono] represents, the scheduler
    invariant, and what one drain does to each timer. *)

From Stdlib Require Import Sorted.
From stdpp Require Import sorting.
From S2P Require Import Prelude Collections Scheduler.

(** Milliseconds of the dates [chrono] represents (years -262143 to 262142),
    rounded to a symmetric bound; it also bounds the interval lengths. *)
Definition MAX_TIME : Z := 8 * 10 ^ 15.
Definition time_ok (t : Z) : Prop := - MAX_TIME ≤ t ≤ MAX_TIME.

(** Documented behaviour of [cron::Schedule::after] (occurrences strictly after
    the given date) and of [chrono::TimeZone::timestamp_millis_opt]. *)
Class CronLibOk `{!CronLib} : Prop := {
  cron_next_later sch t t' : cron_next sch t = Some t' → t < t';
  cron_next_range sch t t' : cron_next sch t = Some t' → timestamp_ok t' = true;
  timestamp_range t : time_ok t → timestamp_ok t = true;
}.

(** ** Interval arithmetic *)

Section interval.
Context (start every : Z) (Hstart : time_ok start) (Hevery : 0 < every ≤ MAX_TIME).

(** Removes the innermost wraps, whose arguments are in range. *)
Ltac unwrap_i64 :=
  unfold time_ok, MAX_TIME in *;
  repeat (match goal with
          | |- context [wrap_i64 ?x] =>
              lazymatch x with
              | context [wrap_i64 _] => fail
              | _ => rewrite (wrap_i64_small x) by nia
              end
          end; rewrite ?Z.quot_div_nonneg by lia).

Lemma div_bounds t : start ≤ t →
  let q := (t - start) / every in 0 ≤ q ∧ q * every ≤ t - start < (q + 1) * every.
Proof.
  intros Ht q. pose proof (Z.mul_div_le (t - start) every ltac:(lia)).
  pose proof (Z.mul_succ_div_gt (t - start) every ltac:(lia)).
  split; [apply Z.div_pos; lia|]. lia.
Qed.

(** The occurrence after [now], the last one at or before it. *)
Definition interval_next (now : Z) : Z := start + ((now - start) / every + 1) * every.
Definition interval_latest (now : Z) : Z := start + (now - start) / every * every.

Lemma latest_spec now : start ≤ now → time_ok now →
  latest_interval_fire_at_or_before start every now = interval_latest now.
Proof.
  intros Hn Hok. destruct (div_bounds now Hn) as [? ?].
  unfold latest_interval_fire_at_or_before, interval_latest.
  destruct (Z.ltb_spec now start); [lia|]. simpl. by unwrap_i64.
Qed.

Lemma next_fire_spec t : start ≤ t → time_ok t →
  next_interval_fire start every t = interval_next t.
Proof.
  intros Hn Hok. destruct (div_bounds t Hn) as [? ?].
  unfold next_interval_fire, interval_next.
  destruct (Z.ltb_spec t start); [lia|]. simpl. by unwrap_i64.
Qed.

Lemma next_fire_after_spec now : start ≤ now → time_ok now →
  next_interval_fire_at_or_after start every (wrap_i64 (now + 1)) = interval_next now.
Proof.
  intros Hn Hok. destruct (div_bounds now Hn) as [Hq Hr].
  rewrite (wrap_i64_small (now + 1)) by (unfold time_ok, MAX_TIME in *; lia).
  unfold next_interval_fire_at_or_after, interval_next.
  destruct (Z.leb_spec (now + 1) start); [lia|]. simpl.
  destruct (div_bounds (now + 1) ltac:(lia)) as [Hq' Hr'].
  assert ((now + 1 - start) / every ≤ (now - start) / every + 1) as Hle by nia.
  assert ((now - start) / every ≤ (now + 1 - start) / every) as Hge by nia.
  unwrap_i64. destruct (Z.leb_spec (now + 1) (start + (now + 1 - start) / every * every)).
  - assert ((now - start) / every < (now + 1 - start) / every) by nia. nia.
  - unwrap_i64. assert ((now + 1 - start) / every < (now - start) / every + 1) by nia. nia.
Qed.

Lemma first_fire_spec now : time_ok now →
  let f := first_interval_fire start every now in
  now ≤ f ∧ f ≤ 2 * MAX_TIME ∧ (∃ k, 0 ≤ k ∧ f = start + k * every) ∧ (start ≤ now → f < now + every).
Proof.
  intros Hok. unfold first_interval_fire.
  destruct (Z.leb_spec now start); [unfold time_ok, MAX_TIME in *; repeat split; [lia..| |lia]; exists 0; lia|].
  destruct (div_bounds now ltac:(lia)) as [Hq Hr]. simpl.
  unwrap_i64. case_match; unwrap_i64; (repeat split; [nia..| |nia]).
  - exists ((now - start) / every + 1). nia.
  - exists ((now - start) / every). nia.
Qed.

(** Successive occurrences are [every] apart. *)
Lemma interval_next_step k : interval_next (start + k * every) = start + (k + 1) * every.
Proof.
  unfold interval_next. replace (start + k * every - start) with (k * every) by lia.
  by rewrite Z.div_mul by lia.
Qed.

Lemma interval_latest_spec now : start ≤ now →
  interval_latest now ≤ now < interval_next now ∧ interval_next now = interval_latest now + every.
Proof. intros Hn. destruct (div_bounds now Hn). unfold interval_latest, interval_next. lia. Qed.
End interval.

(** [n] occurrences of an interval, the first at [t]. *)
Definition occurrences (every t : Z) (n : nat) : list Z :=
  (λ i, t + Z.of_nat i * every) <$> seq 0 n.

Lemma occurrences_S every t n :
  occurrences every t (S n) = t :: occurrences every (t + every) n.
Proof.
  unfold occurrences. simpl. f_equal; [lia|]. rewrite <- fmap_S_seq, <- list_fmap_compose.
  apply list_fmap_ext. intros i x _. simpl. lia.
Qed.

Lemma elem_of_occurrences every t n x :
  x ∈ occurrences every t n ↔ ∃ i, 0 ≤ i < Z.of_nat n ∧ x = t + i * every.
Proof.
  unfold occurrences. rewrite list_elem_of_fmap. split.
  - intros (i & -> & Hi%elem_of_seq). exists (Z.of_nat i). lia.
  - intros (i & Hi & ->). exists (Z.to_nat i). rewrite elem_of_seq, Z2Nat.id by lia. split; [done|lia].
Qed.

Lemma occurrences_sorted every t n : 0 < every → StronglySorted Z.lt (occurrences every t n).
Proof.
  intros He. revert t. induction n as [|n IH]; intros t; [constructor|].
  rewrite occurrences_S. constructor; [apply IH|]. apply Forall_forall.
  intros x (i & ? & ->)%elem_of_occurrences. nia.
Qed.

Lemma StronglySorted_filter' {A} (R : A → A → Prop) (P : A → Prop) `{∀ x, Decision (P x)} l :
  StronglySorted R l → StronglySorted R (filter P l).
Proof.
  induction 1 as [|a l Hs IH Hf]; [constructor|]. rewrite filter_cons. case_decide; [|done].
  constructor; [done|]. apply Forall_forall. intros b [_ Hb]%list_elem_of_filter.
  by eapply Forall_forall in Hf.
Qed.

Section contract.
Context `{!CronLib, !CronLibOk, !BinaryHeap HeapEntry, !BinaryHeapOk entry_before}.
Implicit Types (s : Scheduler) (st : TimerState) (fires : list TimerFire).

(** ** What a timer does when it is due *)

Definition sched_ok (sch : InternalSchedule.t) : Prop :=
  match sch with
  | InternalSchedule.Interval every start _ => 0 < every ≤ MAX_TIME ∧ time_ok start
  | _ => True
  end.

Definition on_schedule (sch : InternalSchedule.t) (fire : Z) : Prop :=
  match sch with
  | InternalSchedule.OnceAt => True
  | InternalSchedule.Interval every start end_ms =>
      (∃ k, 0 ≤ k ∧ fire = start + k * every) ∧ end_allows end_ms fire = true
  | InternalSchedule.Cron _ end_ms => timestamp_ok fire = true ∧ end_allows end_ms fire = true
  end.

(** The scheduled times at which an interval timer with next fire [fire] is
    reported when time advances to [now]: every occurrence, the latest one, or
    only an occurrence that falls on [now]. *)
Definition interval_due (policy : TimerCoalescePolicy) (every start : Z) (end_ms : option Z)
    (fire now : Z) : list Z :=
  match policy with
  | FireAll =>
      filter (λ t, end_allows end_ms t = true)
        (occurrences every fire (Z.to_nat ((now - fire) / every + 1)))
  | FireOnce =>
      let latest := interval_latest start every now in
      if end_allows end_ms latest then [latest] else []
  | SkipMissed => if fire =? now then [fire] else []
  end.

Record fires_as (st : TimerState) (fire now : Z) (ts : list Z) (next : option Z) : Prop := {
  fa_sorted : StronglySorted Z.lt ts;
  fa_range : Forall (λ t, fire ≤ t ≤ now) ts;
  fa_next n : next = Some n → now < n ∧ on_schedule (ts_schedule st) n;
  fa_once : ts_schedule st = InternalSchedule.OnceAt → ts = [fire] ∧ next = None;
  fa_interval every start end_ms :
    ts_schedule st = InternalSchedule.Interval every start end_ms →
    ts = interval_due (ts_coalesce st) every start end_ms fire now ∧
    next = (if end_allows end_ms (interval_next start every now)
            then Some (interval_next start every now) else None);
}.

(** The fires of [key] at the scheduled times [ts]. *)
Definition report (key : string) (now : Z) (ts : list Z) : list TimerFire :=
  (λ t, fire_of key t now) <$> ts.

(** The timer after it fired: its next entry pushed, or the timer dropped. *)
Definition settle (key : string) (gen : Z) (next : option Z) (s : Scheduler) : Scheduler :=
  match next with
  | Some n => s <| sd_heap := heap_push (mkHeapEntry n key gen) (sd_heap s) |>
  | None => Scheduler.remove_timer key s
  end.

Lemma reschedule_settle key st end_ms next s :
  sd_timers s !! key = Some st →
  Scheduler.reschedule key end_ms next s =
  Returns (settle key (ts_generation st) (if end_allows end_ms next then Some next else None) s).
Proof.
  intros Hst. unfold Scheduler.reschedule. destruct (end_allows end_ms next); [|done].
  by rewrite Hst.
Qed.

Lemma fire_all_loop_spec key every start end_ms now fire :
  0 < every ≤ MAX_TIME → time_ok start → time_ok now →
  ∀ n rounds k fires,
    let t := start + k * every in
    (n < rounds)%nat → 0 ≤ k → fire ≤ t → t + Z.of_nat n * every - every ≤ now →
    now < t + Z.of_nat n * every →
    Scheduler.fire_all_loop rounds key start every end_ms now fire t fires =
    Returns (fires ++ report key now
               (filter (λ t, end_allows end_ms t = true) (occurrences every t n))).
Proof.
  intros He Hs Hnow. induction n as [|n IH]; intros rounds k fires t Hr Hk Hf Hlo Hhi;
    destruct rounds as [|rounds]; [lia| |lia|]; cbn [Scheduler.fire_all_loop].
  - destruct (Z.leb_spec t now); [lia|]. by rewrite app_nil_r.
  - destruct (Z.leb_spec t now); [|nia].
    assert (next_interval_fire start every t = start + (k + 1) * every) as ->.
    { subst t. rewrite next_fire_spec, interval_next_step; auto; unfold time_ok, MAX_TIME in *; nia. }
    destruct (Z.eqb_spec (start + (k + 1) * every) fire); [nia|].
    rewrite IH by (subst t; nia || lia). rewrite occurrences_S, filter_cons.
    replace (t + every) with (start + (k + 1) * every) by (subst t; lia).
    unfold Scheduler.push_fire. destruct (end_allows end_ms t); [|done].
    rewrite decide_True by done. by rewrite <- app_assoc.
Qed.

(** The end of an interval timer is past every later occurrence once it is past one. *)
Lemma push_fire_report key end_ms t now fires :
  Scheduler.push_fire key end_ms t now fires =
  fires ++ report key now (if end_allows end_ms t then [t] else []).
Proof. unfold Scheduler.push_fire. destruct (end_allows end_ms t); [done|by rewrite app_nil_r]. Qed.

Lemma fire_interval_spec key policy every start end_ms fire now st s fires :
  0 < every ≤ MAX_TIME → time_ok start → time_ok now → fire ≤ now →
  (∃ k, 0 ≤ k ∧ fire = start + k * every) → end_allows end_ms fire = true →
  sd_timers s !! key = Some st →
  Scheduler.fire_interval key policy every start end_ms fire now s fires =
  Returns (fires ++ report key now (interval_due policy every start end_ms fire now),
    settle key (ts_generation st) (if end_allows end_ms (interval_next start every now)
                                   then Some (interval_next start every now) else None) s).
Proof.
  intros He Hs Hnow Hle (k & Hk & Hfire) Hend Hst.
  assert (start ≤ now) as Hsn by (unfold time_ok, MAX_TIME in *; nia).
  destruct (div_bounds fire every He now Hle) as [Hq Hr].
  destruct (interval_latest_spec start every He now Hsn) as [Hl Hn].
  destruct policy; simpl.
  - pose proof (fire_all_loop_spec key every start end_ms now fire He Hs Hnow
      (Z.to_nat ((now - fire) / every + 1)) (Scheduler.interval_rounds every fire now) k fires) as Hloop.
    cbv zeta in Hloop. rewrite <- Hfire in Hloop.
    rewrite Hloop; [|unfold Scheduler.interval_rounds; lia|done|lia|nia|nia].
    simpl. rewrite next_fire_after_spec by done.
    by rewrite (reschedule_settle key st).
  - rewrite latest_spec by done.
    assert (Z.max (interval_latest start every now) fire = interval_latest start every now) as ->.
    { apply Z.max_l. destruct (div_bounds start every He now Hsn) as [? ?].
      assert (k < (now - start) / every + 1) by nia. unfold interval_latest. nia. }
    assert (next_interval_fire start every (interval_latest start every now)
              = interval_next start every now) as ->.
    { destruct (div_bounds start every He now Hsn) as [? ?].
      rewrite next_fire_spec; [|done|done|unfold interval_latest; nia|
        unfold time_ok, MAX_TIME, interval_latest in *; nia].
      unfold interval_latest. rewrite interval_next_step by done. done. }
    rewrite (reschedule_settle key st) by done. by rewrite push_fire_report.
  - rewrite next_fire_after_spec, (reschedule_settle key st) by done. simpl.
    destruct (Z.eqb_spec fire now); [|by rewrite app_nil_r].
    by rewrite push_fire_report, Hend.
Qed.

Lemma interval_fires_as st every start end_ms fire now :
  ts_schedule st = InternalSchedule.Interval every start end_ms →
  sched_ok (ts_schedule st) → on_schedule (ts_schedule st) fire → time_ok now → fire ≤ now →
  fires_as st fire now (interval_due (ts_coalesce st) every start end_ms fire now)
    (if end_allows end_ms (interval_next start every now)
     then Some (interval_next start every now) else None).
Proof.
  intros Hi. rewrite Hi. intros [He Hs] [(k & Hk & Hfire) Hend] Hnow Hle.
  assert (start ≤ now) as Hsn by (unfold time_ok, MAX_TIME in *; nia).
  destruct (div_bounds fire every He now Hle) as [Hq Hr].
  destruct (div_bounds start every He now Hsn) as [Hq' Hr'].
  destruct (interval_latest_spec start every He now Hsn) as [Hl Hn].
  assert (k < (now - start) / every + 1) as Hkq by nia.
  split.
  - unfold interval_due. destruct (ts_coalesce st);
      [apply StronglySorted_filter', occurrences_sorted; lia|case_match; repeat constructor..].
  - unfold interval_due. destruct (ts_coalesce st).
    + apply Forall_forall. intros t [_ (i & Hi' & ->)%elem_of_occurrences]%list_elem_of_filter. nia.
    + simpl. case_match; repeat constructor; [unfold interval_latest; nia|lia].
    + destruct (Z.eqb_spec fire now); repeat constructor; lia.
  - intros n. destruct (end_allows end_ms (interval_next start every now)) eqn:E; [|done].
    intros [= <-]. split; [lia|]. rewrite Hi. split; [|done].
    exists ((now - start) / every + 1). unfold interval_next. split; [lia|done].
  - congruence.
  - intros ??? E. rewrite Hi in E. by simplify_eq.
Qed.

(** ** Cron timers *)

Lemma cron_after_returns sch t : timestamp_ok t = true → cron_after sch t = Returns (cron_next sch t).
Proof. unfold cron_after. by intros ->. Qed.

Lemma cron_all_loop_spec sch key end_ms now rounds t count fires :
  timestamp_ok t = true → (Z.to_nat (now - t + 1) < rounds)%nat →
  ∃ ts exhausted,
    Scheduler.cron_all_loop rounds sch key end_ms now t count fires =
      Returns (fires ++ report key now ts, exhausted) ∧
    StronglySorted Z.lt ts ∧ Forall (λ x, t ≤ x ≤ now) ts.
Proof.
  revert t count fires. induction rounds as [|rounds IH]; intros t count fires Ht Hr; [lia|].
  cbn [Scheduler.cron_all_loop].
  destruct (Z.ltb_spec now t); [exists [], false; rewrite app_nil_r; repeat constructor|].
  destruct (_ <=? count); [exists [], false; rewrite app_nil_r; repeat constructor|].
  cbn [orb]. rewrite cron_after_returns, push_fire_report by done. cbn [mbind outcome_bind].
  set (first := if end_allows end_ms t then [t] else []).
  assert (StronglySorted Z.lt first ∧ Forall (λ x, x = t) first) as [Hfs Hft].
  { subst first. destruct (end_allows end_ms t); repeat constructor. }
  destruct (cron_next sch t) as [t'|] eqn:Hnext.
  - pose proof (cron_next_later _ _ _ Hnext).
    destruct (IH t' (if end_allows end_ms t then count + 1 else count)
                (fires ++ report key now first)) as (ts & ex & -> & Hs & Hf);
      [by eapply cron_next_range|lia|].
    exists (first ++ ts), ex. unfold report. rewrite fmap_app, app_assoc. split; [done|]. split.
    + subst first. destruct (end_allows end_ms t); [|done]. constructor; [done|].
      eapply Forall_impl; [exact Hf|]. simpl. lia.
    + apply Forall_app. split; [eapply Forall_impl; [exact Hft|]; simpl; lia|].
      eapply Forall_impl; [exact Hf|]. simpl. lia.
  - exists first, true. split; [done|]. split; [done|].
    eapply Forall_impl; [exact Hft|]. simpl. lia.
Qed.

Lemma cron_last_loop_spec sch now rounds t :
  timestamp_ok t = true → t ≤ now → (Z.to_nat (now - t + 1) < rounds)%nat →
  ∃ last, Scheduler.cron_last_loop rounds sch now t = Returns last ∧ t ≤ last ≤ now ∧
    timestamp_ok last = true ∧ ∀ n, cron_next sch last = Some n → now < n.
Proof.
  revert t. induction rounds as [|rounds IH]; intros t Ht Hle Hr; [lia|].
  cbn [Scheduler.cron_last_loop]. rewrite cron_after_returns by done. cbn [mbind outcome_bind].
  destruct (cron_next sch t) as [t'|] eqn:Hnext; [|exists t; naive_solver lia].
  destruct (Z.ltb_spec now t'); [exists t; naive_solver lia|].
  pose proof (cron_next_later _ _ _ Hnext).
  destruct (IH t') as (last & -> & ? & ? & ?); [by eapply cron_next_range|lia..|].
  exists last. split; [done|]. split; [lia|done].
Qed.

Definition within (end_ms : option Z) (next : option Z) : option Z :=
  n ← next; if end_allows end_ms n then Some n else None.

Lemma reschedule_cron_settle key st end_ms next s :
  sd_timers s !! key = Some st →
  Scheduler.reschedule_cron key end_ms next s =
  Returns (settle key (ts_generation st) (within end_ms next) s).
Proof.
  intros Hst. destruct next as [n|]; [|done]. simpl. by rewrite (reschedule_settle key st).
Qed.

Lemma within_next sch end_ms now t n :
  within end_ms (cron_next sch t) = Some n → (∀ m, cron_next sch t = Some m → now < m) →
  now < n ∧ on_schedule (InternalSchedule.Cron sch end_ms) n.
Proof.
  intros Hn Hm. destruct (cron_next sch t) as [m|] eqn:Hnext; [|done]. simpl in Hn.
  destruct (end_allows end_ms m) eqn:E; [|done]. injection Hn as ->.
  split; [by apply Hm|]. split; [by eapply cron_next_range|done].
Qed.

Lemma fire_cron_spec key policy sch end_ms fire now st s fires :
  ts_schedule st = InternalSchedule.Cron sch end_ms → timestamp_ok fire = true →
  time_ok now → fire ≤ now → sd_timers s !! key = Some st →
  ∃ ts next,
    Scheduler.fire_cron key policy sch end_ms fire now s fires =
      Returns (fires ++ report key now ts, settle key (ts_generation st) next s) ∧
    fires_as st fire now ts next.
Proof.
  intros Hsch Hfire Hnow%timestamp_range Hle Hst.
  assert (∀ ts next, StronglySorted Z.lt ts → Forall (λ t, fire ≤ t ≤ now) ts →
            (∀ n, next = Some n → now < n ∧ on_schedule (InternalSchedule.Cron sch end_ms) n) →
            fires_as st fire now ts next) as Hfa.
  { intros ts next ? ? Hn. split; [done|done| |congruence|congruence]. by rewrite Hsch. }
  assert (∀ n, within end_ms (cron_next sch now) = Some n →
            now < n ∧ on_schedule (InternalSchedule.Cron sch end_ms) n) as Hwn.
  { intros n Hn. eapply within_next; [exact Hn|]. apply cron_next_later. }
  destruct policy; simpl.
  - destruct (cron_all_loop_spec sch key end_ms now (Scheduler.cron_rounds fire now) fire 0 fires)
      as (ts & ex & -> & Hs & Hf); [done|unfold Scheduler.cron_rounds; lia|]. simpl.
    destruct ex; simpl.
    + rewrite lookup_delete_eq. simpl. exists ts, None. split; [done|]. by apply Hfa.
    + rewrite Hst, cron_after_returns by done. simpl. rewrite (reschedule_cron_settle key st) by done.
      simpl. eauto.
  - destruct (cron_last_loop_spec sch now (Scheduler.cron_rounds fire now) fire)
      as (last & -> & Hl & Hlok & Hln); [done|done|unfold Scheduler.cron_rounds; lia|]. simpl.
    rewrite (cron_after_returns sch last), push_fire_report by done. simpl.
    exists (if end_allows end_ms last then [last] else []), (within end_ms (cron_next sch last)).
    split.
    + destruct (cron_next sch last) as [n|]; [|done].
      rewrite (proj2 (Z.leb_gt n now)) by (by apply Hln). simpl.
      by rewrite (reschedule_settle key st).
    + apply Hfa; [| |intros n Hn; by eapply within_next];
        destruct (end_allows end_ms last); repeat constructor; lia.
  - rewrite cron_after_returns by done. simpl. rewrite (reschedule_cron_settle key st) by done.
    simpl. rewrite push_fire_report.
    assert ((if fire =? now then fires ++ report key now (if end_allows end_ms fire then [fire] else [])
             else fires) = fires ++ report key now
               (if (fire =? now) && end_allows end_ms fire then [fire] else [])) as ->.
    { destruct (fire =? now); [done|by rewrite app_nil_r]. }
    do 2 eexists. split; [done|]. apply Hfa; [| |done].
    + destruct (_ && _); repeat constructor.
    + destruct (Z.eqb_spec fire now); simpl; [destruct (end_allows _ _)|]; repeat constructor; lia.
Qed.

(** A due entry of a registered timer. *)
Lemma drain_entry_valid now e st s fires :
  time_ok now → he_fire e ≤ now → he_key e ∉ sd_cancelled s →
  sd_timers s !! he_key e = Some st → ts_generation st = he_gen e →
  sched_ok (ts_schedule st) → on_schedule (ts_schedule st) (he_fire e) →
  ∃ ts next,
    Scheduler.drain_entry now e s fires =
      Returns (fires ++ report (he_key e) now ts, settle (he_key e) (he_gen e) next s) ∧
    fires_as st (he_fire e) now ts next.
Proof.
  intros Hnow Hle Hc Hst Hg Hok Hon. unfold Scheduler.drain_entry.
  rewrite bool_decide_eq_false_2, Hst by done. rewrite (proj2 (Z.eqb_eq _ _) Hg). simpl.
  rewrite <- Hg. destruct (ts_schedule st) as [|every start end_ms|sch end_ms] eqn:Hsch.
  - exists [he_fire e], None. split; [done|].
    split; [repeat constructor|repeat constructor; lia|done|done|congruence].
  - do 2 eexists. split; [apply fire_interval_spec; try done; try apply Hok; apply Hon|].
    by apply interval_fires_as; rewrite ?Hsch.
  - destruct Hon as [Ht _]. by apply fire_cron_spec.
Qed.

(** ** The scheduler invariant *)

(** Every registered timer has one heap entry with its generation, on its
    schedule; generations are never reused; a cancelled key has no timer. *)
Record sched_inv (s : Scheduler) : Prop := {
  si_gens : NoDup (he_gen <$> heap_iter (sd_heap s));
  si_gen_range e : e ∈ heap_iter (sd_heap s) → 0 ≤ he_gen e < sd_next_generation s;
  si_timer key st : sd_timers s !! key = Some st →
    sched_ok (ts_schedule st) ∧
    ∃ fire, mkHeapEntry fire key (ts_generation st) ∈ heap_iter (sd_heap s) ∧
      - MAX_TIME ≤ fire ∧ on_schedule (ts_schedule st) fire;
  si_next : 0 ≤ sd_next_generation s;
  si_cancelled key : key ∈ sd_cancelled s → sd_timers s !! key = None;
}.

(** Timer [k] is registered with state [st] and next fires at [fire]. *)
Definition active (s : Scheduler) (k : string) (st : TimerState) (fire : Z) : Prop :=
  sd_timers s !! k = Some st ∧ mkHeapEntry fire k (ts_generation st) ∈ heap_iter (sd_heap s).

Definition settled (s : Scheduler) (k : string) (st : TimerState) (next : option Z) : Prop :=
  match next with
  | Some n => active s k st n
  | None => sd_timers s !! k = None
  end.

Lemma same_gen_eq s e1 e2 : sched_inv s → e1 ∈ heap_iter (sd_heap s) →
  e2 ∈ heap_iter (sd_heap s) → he_gen e1 = he_gen e2 → e1 = e2.
Proof.
  intros Hinv H1 H2 Hg. apply list_elem_of_lookup in H1 as [i Hi], H2 as [j Hj].
  assert (i = j) as ->; [|congruence].
  eapply NoDup_lookup; [apply (si_gens s Hinv)|by apply list_lookup_fmap_Some; eauto|].
  rewrite Hg. by apply list_lookup_fmap_Some; eauto.
Qed.

Lemma active_unique s k st f1 f2 : sched_inv s → active s k st f1 → active s k st f2 → f1 = f2.
Proof.
  intros Hinv [_ H1] [_ H2]. by pose proof (same_gen_eq s _ _ Hinv H1 H2 eq_refl) as [= ->].
Qed.

(** One round of the drain loop, seen from timer [k]: untouched, or fired. *)
Definition key_round (now : Z) (k : string) (s s' : Scheduler) (ts : list Z) : Prop :=
  (ts = [] ∧ sd_timers s' !! k = sd_timers s !! k ∧
   ∀ st fire, active s k st fire → active s' k st fire) ∨
  (∃ st fire next, active s k st fire ∧ fire ≤ now ∧ fires_as st fire now ts next ∧
     settled s' k st next).

(** A whole drain, seen from timer [k]. *)
Definition key_drained (now : Z) (k : string) (s s' : Scheduler) (ts : list Z) : Prop :=
  (ts = [] ∧ sd_timers s !! k = None ∧ sd_timers s' !! k = None) ∨
  (∃ st fire, ts = [] ∧ active s k st fire ∧ now < fire ∧ active s' k st fire) ∨
  (∃ st fire next, active s k st fire ∧ fire ≤ now ∧ fires_as st fire now ts next ∧
     settled s' k st next).

Lemma key_drained_step now k s s1 s' ts ts' :
  sched_inv s → sched_inv s1 → key_round now k s s1 ts → key_drained now k s1 s' ts' →
  key_drained now k s s' (ts ++ ts').
Proof.
  intros Hinv Hinv1 [(-> & Ht & Hact)|(st & fire & next & Ha & Hle & Hfa & Hset)] Hd; simpl.
  - destruct Hd as [(-> & ? & ?)|Hd]; [left; by rewrite <- Ht|right].
    assert (∀ st fire, active s1 k st fire → active s k st fire) as Hback.
    { intros st fire Hst1. pose proof (proj1 Hst1) as Hk. rewrite Ht in Hk.
      destruct (si_timer s Hinv k st Hk) as (_ & f & Hf & _).
      assert (active s k st f) as Haf by done. pose proof (Hact st f Haf) as Haf1.
      by rewrite (active_unique s1 k st fire f Hinv1 Hst1 Haf1). }
    destruct Hd as [(st & fire & -> & Ha1 & Hlt & Ha')|(st & fire & next & Ha1 & Hle & Hfa & Hset)];
      [left|right].
    + exists st, fire. auto.
    + exists st, fire, next. auto.
  - right. right. exists st, fire, next. split; [done|]. split; [done|].
    destruct next as [n|]; simpl in Hset.
    + destruct (fa_next _ _ _ _ _ Hfa n eq_refl) as [Hlt _].
      destruct Hd as [(-> & Hk & ?)|[(st' & f & -> & Ha1 & ? & Ha')|(st' & f & ? & Ha1 & Hle' & _)]].
      * destruct Hset. congruence.
      * assert (st' = st) as -> by (destruct Ha1, Hset; congruence).
        rewrite app_nil_r. split; [done|]. by rewrite (active_unique s1 k st n f Hinv1 Hset Ha1).
      * assert (st' = st) as -> by (destruct Ha1, Hset; congruence).
        pose proof (active_unique s1 k st n f Hinv1 Hset Ha1). lia.
    + destruct Hd as [(-> & Hk & ?)|[(st' & f & -> & [? _] & _)|(st' & f & ? & [? _] & _)]];
        [|congruence..]. by rewrite app_nil_r.
Qed.

(** The scheduled times of timer [k] among some fires. *)
Definition times_of (k : string) (fires : list TimerFire) : list Z :=
  tf_scheduled_ts_ms <$> filter (λ f, tf_timer_key f = k) fires.

Lemma times_of_app k l l' : times_of k (l ++ l') = times_of k l ++ times_of k l'.
Proof. unfold times_of. by rewrite filter_app, fmap_app. Qed.

Lemma times_of_report k key now ts :
  times_of k (report key now ts) = if decide (key = k) then ts else [].
Proof.
  unfold times_of, report. induction ts as [|t ts IH]; cbn; [by case_decide|].
  case_decide; cbn; [by f_equal|done].
Qed.

Definition due (now : Z) (e : HeapEntry) : Prop := he_fire e ≤ now.
#[global] Instance due_dec now e : Decision (due now e) := Z_le_dec _ _.

Lemma settle_inv now e h next st s :
  sched_inv s → time_ok now → heap_iter (sd_heap s) ≡ₚ e :: heap_iter h →
  sd_timers s !! he_key e = Some st → ts_generation st = he_gen e →
  (∀ n, next = Some n → now < n ∧ on_schedule (ts_schedule st) n) →
  let s' := settle (he_key e) (he_gen e) next (s <| sd_heap := h |>) in
  sched_inv s' ∧ settled s' (he_key e) st next ∧
  length (filter (due now) (heap_iter (sd_heap s'))) = length (filter (due now) (heap_iter h)) ∧
  ∀ k st' fire, k ≠ he_key e → active s k st' fire → active s' k st' fire.
Proof.
  intros Hinv [Hnow _] Hp Hst Hg Hnext s'.
  assert (NoDup (he_gen e :: (he_gen <$> heap_iter h))) as Hnd.
  { pose proof (si_gens s Hinv) as Hnd. by rewrite Hp in Hnd. }
  assert (∀ e', e' ∈ heap_iter (sd_heap s) ↔ e' = e ∨ e' ∈ heap_iter h) as Hin.
  { intros e'. by rewrite Hp, elem_of_cons. }
  assert (∀ k st' fire, k ≠ he_key e → sd_timers s !! k = Some st' →
    mkHeapEntry fire k (ts_generation st') ∈ heap_iter (sd_heap s) →
    mkHeapEntry fire k (ts_generation st') ∈ heap_iter h) as Hother.
  { intros k st' fire Hk _ [He|?]%Hin; [|done]. by subst e. }
  subst s'. destruct next as [n|]; simpl.
  - destruct (Hnext n eq_refl) as [Hlt Hon]. rewrite <- Hg.
    assert (∀ e', e' ∈ heap_iter (heap_push (mkHeapEntry n (he_key e) (ts_generation st)) h) ↔
      e' = mkHeapEntry n (he_key e) (ts_generation st) ∨ e' ∈ heap_iter h) as Hin'.
    { intros e'. by rewrite heap_iter_push, elem_of_cons. }
    split; [split|split; [split|split]]; simpl.
    + rewrite heap_iter_push. simpl. by rewrite Hg.
    + intros e' [->|?]%Hin'; simpl; [rewrite Hg|]; apply (si_gen_range s Hinv), Hin; auto.
    + intros k st' Hk. destruct (si_timer s Hinv k st' Hk) as [Hok (fire & Hf & Hon')].
      split; [done|]. destruct (decide (k = he_key e)) as [->|Hne].
      * simplify_eq. exists n. split; [by apply Hin'; left|]. split; [lia|done].
      * exists fire. split; [apply Hin'; right; by eapply Hother|done].
    + apply (si_next s Hinv).
    + apply (si_cancelled s Hinv).
    + done.
    + apply Hin'. by left.
    + rewrite heap_iter_push, filter_cons, decide_False; [done|]. unfold due. simpl. lia.
    + intros k st' fire Hk [? Hf]. split; [done|]. apply Hin'. right. by eapply Hother.
  - split; [split|split; [|split]]; simpl.
    + by apply NoDup_cons in Hnd as [_ ?].
    + intros e' ?. apply (si_gen_range s Hinv). by apply Hin; right.
    + intros k st' [Hne Hk]%lookup_delete_Some.
      destruct (si_timer s Hinv k st' Hk) as [Hok (fire & Hf & Hon')].
      split; [done|]. exists fire. split; [by eapply Hother|done].
    + apply (si_next s Hinv).
    + intros k Hk. apply lookup_delete_None. right. by apply (si_cancelled s Hinv).
    + apply lookup_delete_eq.
    + done.
    + intros k st' fire Hk [? Hf]. split; simpl; [by rewrite lookup_delete_ne|by eapply Hother].
Qed.

(** A popped entry that is not the valid one of a timer changes no timer. *)
Lemma skip_inv s e h cancelled :
  sched_inv s → heap_iter (sd_heap s) ≡ₚ e :: heap_iter h → cancelled ⊆ sd_cancelled s →
  (∀ st, sd_timers s !! he_key e = Some st → ts_generation st ≠ he_gen e) →
  let s' := s <| sd_heap := h |> <| sd_cancelled := cancelled |> in
  sched_inv s' ∧ ∀ k st fire, active s k st fire → active s' k st fire.
Proof.
  intros Hinv Hp Hc Hstale s'.
  assert (∀ e', e' ∈ heap_iter (sd_heap s) ↔ e' = e ∨ e' ∈ heap_iter h) as Hin.
  { intros e'. by rewrite Hp, elem_of_cons. }
  assert (∀ k st fire, active s k st fire → active s' k st fire) as Hact.
  { intros k st fire [Hk [He|?]%Hin]; [|done]. subst e. by destruct (Hstale st Hk). }
  split; [split|done]; simpl.
  - pose proof (si_gens s Hinv) as Hnd. rewrite Hp in Hnd. by apply NoDup_cons in Hnd as [_ ?].
  - intros e' ?. apply (si_gen_range s Hinv). by apply Hin; right.
  - intros k st Hk. destruct (si_timer s Hinv k st Hk) as [Hok (fire & Hf & Hon)].
    split; [done|]. exists fire. split; [|done]. by apply (Hact k st fire).
  - apply (si_next s Hinv).
  - intros k Hk. apply (si_cancelled s Hinv). set_solver.
Qed.

(** The round of such an entry. *)
Lemma drain_stale now e h s fires :
  sched_inv s → heap_iter (sd_heap s) ≡ₚ e :: heap_iter h →
  (∀ st, sd_timers s !! he_key e = Some st → ts_generation st ≠ he_gen e) →
  ∃ s', Scheduler.drain_entry now e (s <| sd_heap := h |>) fires = Returns (fires, s') ∧
    sched_inv s' ∧ sd_heap s' = h ∧ sd_timers s' = sd_timers s ∧
    sd_next_generation s' = sd_next_generation s ∧
    ∀ k st fire, active s k st fire → active s' k st fire.
Proof.
  intros Hinv Hp Hstale.
  set (c := if bool_decide (he_key e ∈ sd_cancelled s)
            then sd_cancelled s ∖ {[he_key e]} else sd_cancelled s).
  destruct (skip_inv s e h c Hinv Hp) as [Hinv' Hact]; [subst c; case_match; set_solver|done|].
  exists (s <| sd_heap := h |> <| sd_cancelled := c |>). split; [|done].
  unfold Scheduler.drain_entry. cbn. subst c. destruct (bool_decide _); [done|].
  destruct (sd_timers s !! he_key e) as [st|]; [|by destruct s].
  rewrite (proj2 (Z.eqb_neq _ _)) by auto. by destruct s.
Qed.

Lemma drain_round now e h s fires :
  sched_inv s → time_ok now → heap_pop (sd_heap s) = Some (e, h) → he_fire e ≤ now →
  ∃ ts s', Scheduler.drain_entry now e (s <| sd_heap := h |>) fires =
      Returns (fires ++ report (he_key e) now ts, s') ∧
    sched_inv s' ∧ sd_next_generation s' = sd_next_generation s ∧
    length (filter (due now) (heap_iter (sd_heap s'))) = length (filter (due now) (heap_iter h)) ∧
    ∀ k, key_round now k s s' (if decide (he_key e = k) then ts else []).
Proof.
  intros Hinv Hnow [Hp _]%heap_pop_Some Hle.
  assert ((∃ st, sd_timers s !! he_key e = Some st ∧ ts_generation st = he_gen e) ∨
          (∀ st, sd_timers s !! he_key e = Some st → ts_generation st ≠ he_gen e))
    as [(st & Hst & Hg)|Hstale].
  { destruct (sd_timers s !! he_key e) as [st|]; [|by right].
    destruct (decide (ts_generation st = he_gen e)); [left|right]; naive_solver. }
  - assert (he_key e ∉ sd_cancelled s) as Hc.
    { intros Hc%(si_cancelled s Hinv). congruence. }
    destruct (si_timer s Hinv _ _ Hst) as [Hok (fire & Hf & _ & Hon)].
    assert (mkHeapEntry fire (he_key e) (ts_generation st) = e) as He.
    { apply (same_gen_eq s _ _ Hinv Hf); [by rewrite Hp; left|done]. }
    assert (fire = he_fire e) as -> by (by rewrite <- He).
    destruct (drain_entry_valid now e st (s <| sd_heap := h |>) fires) as (ts & next & -> & Hfa);
      [done..|].
    destruct (settle_inv now e h next st s Hinv Hnow Hp Hst Hg (fa_next _ _ _ _ _ Hfa))
      as (Hinv' & Hset & Hlen & Hact).
    eexists ts, _. split; [done|]. split; [done|]. split; [by destruct next|]. split; [done|].
    intros k. case_decide as Hk; [right|left].
    + subst k. exists st, (he_fire e), next. split; [split; [done|by rewrite He, Hp; left]|]. done.
    + split; [done|]. split; [|intros; by apply Hact].
      destruct next; simpl; [done|by rewrite lookup_delete_ne].
  - destruct (drain_stale now e h s fires Hinv Hp) as (s' & -> & Hinv' & Hh & Ht & Hgen & Hact);
      [done|].
    exists [], s'. rewrite app_nil_r, Hh. split; [done|]. split; [done|]. split; [done|].
    split; [done|]. intros k. left. split; [by case_decide|]. rewrite Ht. auto.
Qed.

Lemma drain_loop_spec now rounds s fires :
  sched_inv s → time_ok now →
  (length (filter (due now) (heap_iter (sd_heap s))) < rounds)%nat →
  ∃ new s', Scheduler.drain_loop rounds now s fires = Returns (fires ++ new, s') ∧
    sched_inv s' ∧ sd_next_generation s' = sd_next_generation s ∧
    Forall (λ e, now < he_fire e) (heap_iter (sd_heap s')) ∧
    Forall (λ f, f = fire_of (tf_timer_key f) (tf_scheduled_ts_ms f) now) new ∧
    ∀ k, key_drained now k s s' (times_of k new).
Proof.
  intros Hinv Hnow. revert s fires Hinv.
  induction rounds as [|rounds IH]; intros s fires Hinv Hr; [lia|]. cbn [Scheduler.drain_loop].
  assert (Forall (λ e, now < he_fire e) (heap_iter (sd_heap s)) →
    ∃ new s', Returns (fires, s) = Returns (fires ++ new, s') ∧
      sched_inv s' ∧ sd_next_generation s' = sd_next_generation s ∧
      Forall (λ e, now < he_fire e) (heap_iter (sd_heap s')) ∧
      Forall (λ f, f = fire_of (tf_timer_key f) (tf_scheduled_ts_ms f) now) new ∧
      ∀ k, key_drained now k s s' (times_of k new)) as Hexit.
  { intros Hlate. exists [], s. rewrite app_nil_r. split; [done|]. split; [done|].
    split; [done|]. split; [done|]. split; [constructor|]. intros k.
    destruct (sd_timers s !! k) as [st|] eqn:Hk; [right; left|by left].
    destruct (si_timer s Hinv k st Hk) as (_ & fire & Hf & _). exists st, fire.
    split; [done|]. split; [done|]. split; [|done]. by eapply Forall_forall in Hlate; [|exact Hf]. }
  destruct (heap_pop (sd_heap s)) as [[e h]|] eqn:Hpop; cycle 1.
  { apply Hexit. by rewrite (heap_pop_None _ Hpop). }
  destruct (heap_pop_Some _ _ _ Hpop) as [Hp Hmin].
  destruct (Z.ltb_spec now (he_fire e)) as [Hlt|Hle].
  { apply Hexit. eapply Forall_impl; [exact Hmin|]. intros b. unfold entry_before. simpl.
    destruct (Z.compare_spec (he_fire e) (he_fire b)); [lia|lia|done]. }
  destruct (drain_round now e h s fires Hinv Hnow Hpop Hle) as (ts & s1 & -> & Hinv1 & Hgen & Hlen & Hround).
  cbn [mbind outcome_bind fst snd].
  destruct (IH s1 (fires ++ report (he_key e) now ts) Hinv1) as (new & s' & -> & Hinv' & Hgen' & Hlate & Hf & Hd).
  { rewrite Hlen. rewrite Hp, filter_cons, decide_True in Hr by done. simpl in Hr. lia. }
  exists (report (he_key e) now ts ++ new), s'. rewrite app_assoc.
  split; [done|]. split; [done|]. split; [congruence|]. split; [done|]. split.
  - apply Forall_app. split; [|done]. apply Forall_fmap, Forall_true. done.
  - intros k. rewrite times_of_app, times_of_report. exact (key_drained_step now k s s1 s' _ _ Hinv Hinv1 (Hround k) (Hd k)).
Qed.
End contract.
