(* ===== verification/ClockContract.v ===== *)
(** * The clock's contract

    [advance_to] on a reachable clock: it returns, reports exactly the due
    occurrences of every timer in order, and leaves nothing due.  Over a
    sequence of advances an interval timer reports each of its occurrences
    once; a cancelled timer reports nothing. *)

From Stdlib Require Import Sorted.
From stdpp Require Import sorting.
From S2P Require Import Prelude Collections Scheduler SchedulerFacts.

(** ** The orders of heap entries and fires *)

Lemma fire_le_total a b : fire_le a b = true ∨ fire_le b a = true.
Proof.
  unfold fire_le. destruct (Z.compare_spec (tf_scheduled_ts_ms a) (tf_scheduled_ts_ms b)) as [E|?|?].
  - rewrite E, Z.compare_refl, (String.compare_antisym (tf_timer_key b)).
    destruct (String.compare _ _); auto.
  - by left.
  - right. by rewrite (proj2 (Z.compare_lt_iff _ _)).
Qed.

Lemma fire_le_trans a b c : fire_le a b = true → fire_le b c = true → fire_le a c = true.
Proof.
  unfold fire_le.
  destruct (Z.compare_spec (tf_scheduled_ts_ms a) (tf_scheduled_ts_ms b)); try done;
  destruct (Z.compare_spec (tf_scheduled_ts_ms b) (tf_scheduled_ts_ms c)); try done;
  destruct (Z.compare_spec (tf_scheduled_ts_ms a) (tf_scheduled_ts_ms c)); try done; try lia.
  destruct (str_compare_spec (tf_timer_key a) (tf_timer_key b)) as [Hab|Hab|]; try done;
  destruct (str_compare_spec (tf_timer_key b) (tf_timer_key c)) as [Hbc|Hbc|]; try done.
  - by rewrite Hab, Hbc, str_compare_refl.
  - by rewrite Hab, Hbc.
  - by rewrite <- Hbc, Hab.
  - by rewrite (str_lt_trans _ _ _ Hab Hbc).
Qed.

Lemma entry_before_total a b : entry_before a b = true ∨ entry_before b a = true.
Proof.
  unfold entry_before. destruct (Z.compare_spec (he_fire a) (he_fire b)) as [E|?|?].
  - rewrite E, Z.compare_refl, (String.compare_antisym (he_key b)).
    destruct (String.compare _ _); simpl; auto. lia.
  - by left.
  - right. by rewrite (proj2 (Z.compare_lt_iff _ _)).
Qed.

Lemma entry_before_trans a b c :
  entry_before a b = true → entry_before b c = true → entry_before a c = true.
Proof.
  unfold entry_before.
  destruct (Z.compare_spec (he_fire a) (he_fire b)); try done;
  destruct (Z.compare_spec (he_fire b) (he_fire c)); try done;
  destruct (Z.compare_spec (he_fire a) (he_fire c)); try done; try lia.
  destruct (str_compare_spec (he_key a) (he_key b)) as [Hab|Hab|]; try done;
  destruct (str_compare_spec (he_key b) (he_key c)) as [Hbc|Hbc|]; try done.
  - rewrite Hab, Hbc, str_compare_refl. lia.
  - by rewrite Hab, Hbc.
  - by rewrite <- Hbc, Hab.
  - by rewrite (str_lt_trans _ _ _ Hab Hbc).
Qed.

Section clock.
Context `{!CronLib, !CronLibOk, !BinaryHeap HeapEntry, !BinaryHeapOk entry_before}.
Implicit Types (s : Scheduler) (c : SimClock) (fires : list TimerFire).

(** ** One drain *)

Lemma times_of_sorted k fires :
  StronglySorted (λ a b, fire_le a b = true) fires → StronglySorted Z.le (times_of k fires).
Proof.
  unfold times_of. induction 1 as [|f fires Hs IH Hf]; [constructor|]. rewrite filter_cons.
  case_decide; [|done]. simpl. constructor; [done|]. apply Forall_fmap, Forall_forall.
  intros g [_ Hg]%list_elem_of_filter. eapply Forall_forall in Hf; [|exact Hg].
  unfold fire_le in Hf. simpl in *.
  by destruct (Z.compare_spec (tf_scheduled_ts_ms f) (tf_scheduled_ts_ms g)); [lia..|].
Qed.

Lemma sorted_lt_le l : StronglySorted Z.lt l → StronglySorted Z.le l.
Proof. apply StronglySorted_impl. lia. Qed.

(** Sorting the fires keeps the order of each timer's. *)
Lemma times_of_sort k fires :
  StronglySorted Z.lt (times_of k fires) → times_of k (sort_by fire_le fires) = times_of k fires.
Proof.
  intros Hs. apply (StronglySorted_unique Z.le).
  - apply times_of_sorted, sort_by_sorted; [apply fire_le_total|apply fire_le_trans].
  - by apply sorted_lt_le.
  - unfold times_of. by rewrite sort_by_perm.
Qed.

Lemma key_drained_sorted now k s s' ts : key_drained now k s s' ts → StronglySorted Z.lt ts.
Proof.
  intros [(-> & _)|[(? & ? & -> & _)|(st & fire & next & _ & _ & Hfa & _)]]; [constructor..|].
  apply (fa_sorted _ _ _ _ _ Hfa).
Qed.

Lemma drain_due_spec now s : sched_inv s → time_ok now →
  ∃ fires s', Scheduler.drain_due now s = Returns (fires, s') ∧ sched_inv s' ∧
    sd_next_generation s' = sd_next_generation s ∧
    Forall (λ e, now < he_fire e) (heap_iter (sd_heap s')) ∧
    StronglySorted (λ a b, fire_le a b = true) fires ∧
    Forall (λ f, f = fire_of (tf_timer_key f) (tf_scheduled_ts_ms f) now) fires ∧
    ∀ k, key_drained now k s s' (times_of k fires).
Proof.
  intros Hinv Hnow. unfold Scheduler.drain_due.
  destruct (drain_loop_spec now (S (heap_len (sd_heap s))) s [] Hinv Hnow)
    as (new & s' & -> & Hinv' & Hgen & Hlate & Hf & Hd).
  { unfold heap_len. pose proof (length_filter (due now) (heap_iter (sd_heap s))). lia. }
  simpl. eexists _, s'. split; [done|]. split; [done|]. split; [done|]. split; [done|].
  split; [|split].
  - apply sort_by_sorted; [apply fire_le_total|apply fire_le_trans].
  - by rewrite sort_by_perm.
  - intros k. rewrite times_of_sort; [apply Hd|]. by eapply key_drained_sorted.
Qed.

(** ** The other operations keep the invariant *)

(** Requests whose dates and interval are in range. *)
Definition req_ok (req : TimerRequest) : Prop :=
  match tr_schedule req with
  | TimerSchedule.OnceAt t => time_ok t
  | TimerSchedule.Interval every start _ => every ≤ MAX_TIME ∧ from_option time_ok True start
  | TimerSchedule.Cron _ start _ => from_option time_ok True start
  end.

(** A plan in range: the schedule is well formed and its first fire is on it. *)
Lemma plan_ok req now : req_ok req → time_ok now →
  returns (Scheduler.plan (tr_schedule req) now) (λ p,
    ∀ sch first, p = Ok (Some (sch, first)) →
      sched_ok sch ∧ - MAX_TIME ≤ first ∧ on_schedule sch first).
Proof.
  unfold req_ok. intros Hreq Hnow. destruct (tr_schedule req) as [t|every start end_ms|expr start end_ms]; simpl.
  - intros ?? [= <- <-]. simpl. unfold time_ok in Hreq. naive_solver.
  - destruct (Z.leb_spec every 0) as [|He]; [done|]. destruct Hreq as [Hmax Hst]. intros sch first.
    assert (time_ok (default now start)) as Hs by (by destruct start).
    destruct (first_fire_spec (default now start) every Hs ltac:(lia) now Hnow)
      as (Hge & _ & Hk & _).
    destruct (end_allows _ _) eqn:E; [|done]. intros [= <- <-].
    split; [done|]. split; [unfold time_ok in *; lia|done].
  - destruct (cron_from_str expr) as [sch|]; [|done].
    assert (time_ok (default now start)) as Hs by (by destruct start).
    unfold cron_after. rewrite (timestamp_range _ Hs). simpl. intros sch' first.
    destruct (cron_next sch (default now start)) as [n|] eqn:Hn; [|done].
    destruct (end_allows _ _) eqn:E; [|done]. intros [= <- <-].
    pose proof (cron_next_later _ _ _ Hn). split; [done|].
    split; [unfold time_ok in *; lia|]. split; [by eapply cron_next_range|done].
Qed.

Lemma register_inv req now s :
  sched_inv s → req_ok req → time_ok now → sd_next_generation s < 2 ^ 64 - 1 →
  returns (Scheduler.register req now s) (λ r, sched_inv r.2 ∧
    sd_next_generation r.2 = sd_next_generation s + 1 ∧
    ∀ k st fire, k ≠ tr_timer_key req → active s k st fire → active r.2 k st fire).
Proof.
  intros Hinv Hreq Hnow Hg. pose proof (si_next s Hinv) as Hnext. unfold Scheduler.register.
  pose proof (plan_ok req now Hreq Hnow) as Hp.
  destruct (Scheduler.plan _ _) as [p|]; [|done]. simpl in *.
  rewrite wrap_u64_small by lia.
  assert (∀ cancelled, cancelled ⊆ sd_cancelled s →
    sched_inv (s <| sd_next_generation := sd_next_generation s + 1 |>
                 <| sd_cancelled := cancelled |>)) as Hkeep.
  { intros cs Hc. split; simpl.
    - apply (si_gens s Hinv).
    - intros e He. pose proof (si_gen_range s Hinv e He). lia.
    - apply (si_timer s Hinv).
    - lia.
    - intros k Hk. apply (si_cancelled s Hinv). set_solver. }
  destruct p as [[[sch first]|]|e]; simpl; [|split; [apply Hkeep; set_solver|by split]..].
  destruct (Hp sch first eq_refl) as (Hok & Hlo & Hon).
  set (gen := sd_next_generation s) in *. set (key := tr_timer_key req) in *.
  assert (∀ e', e' ∈ heap_iter (heap_push (mkHeapEntry first key gen) (sd_heap s)) ↔
      e' = mkHeapEntry first key gen ∨ e' ∈ heap_iter (sd_heap s)) as Hin.
  { intros e'. by rewrite heap_iter_push, elem_of_cons. }
  split; [split|split; [done|]]; simpl.
  - rewrite heap_iter_push. simpl. apply NoDup_cons. split; [|apply (si_gens s Hinv)].
    intros (e & Hge & He)%list_elem_of_fmap. pose proof (si_gen_range s Hinv e He). simpl in Hge. lia.
  - intros e' [->|He]%Hin; simpl; [lia|]. pose proof (si_gen_range s Hinv e' He). lia.
  - intros k st [[<- <-]|[Hne Hk]]%lookup_insert_Some; simpl.
    + split; [done|]. exists first. split; [by apply Hin; left|done].
    + destruct (si_timer s Hinv k st Hk) as [? (fire & Hf & ? & ?)].
      split; [done|]. exists fire. split; [by apply Hin; right|done].
  - lia.
  - intros k Hk. rewrite lookup_insert_ne by (subst key; set_solver).
    apply (si_cancelled s Hinv). set_solver.
  - intros k st fire Hne [Hk Hf]. split; simpl; [by rewrite lookup_insert_ne|by apply Hin; right].
Qed.

Lemma cancel_inv key s : sched_inv s → sched_inv (Scheduler.cancel key s).2 ∧
  sd_timers (Scheduler.cancel key s).2 !! key = None ∧
  ∀ k st fire, k ≠ key → active s k st fire → active (Scheduler.cancel key s).2 k st fire.
Proof.
  intros Hinv. unfold Scheduler.cancel.
  destruct (sd_timers s !! key) as [st0|] eqn:Hkey; [|done]. simpl.
  split; [split|split]; simpl; try apply Hinv.
  - intros k st [? Hk]%lookup_delete_Some. by apply (si_timer s Hinv).
  - intros k [->%elem_of_singleton|Hk]%elem_of_union; [apply lookup_delete_eq|].
    apply lookup_delete_None. right. by apply (si_cancelled s Hinv).
  - apply lookup_delete_eq.
  - intros k st fire Hne [Hk Hf]. split; simpl; [by rewrite lookup_delete_ne|done].
Qed.

Lemma sched_new_inv : sched_inv Scheduler.new.
Proof.
  split; simpl; [rewrite heap_iter_new; constructor| |done|done|done].
  intros e. rewrite heap_iter_new. by intros ?%elem_of_nil.
Qed.

(** ** Reachable clocks *)

(** Clocks built by the operations of the trait on dates in range, before the
    generation counter of [2^64] registrations is exhausted. *)
Inductive clock_reachable : SimClock → Prop :=
| reach_new start : time_ok start → clock_reachable (SimClock.new start)
| reach_set req c r c' :
    clock_reachable c → req_ok req → sd_next_generation (sc_scheduler c) < 2 ^ 64 - 1 →
    set_timer req c = Returns (r, c') → clock_reachable c'
| reach_cancel key c : clock_reachable c → clock_reachable (cancel_timer key c).2
| reach_advance now c r c' :
    clock_reachable c → time_ok now → advance_to now c = Returns (r, c') → clock_reachable c'.

Lemma set_timer_spec req c :
  sched_inv (sc_scheduler c) → req_ok req → time_ok (sc_current_ms c) →
  sd_next_generation (sc_scheduler c) < 2 ^ 64 - 1 →
  ∃ r c', set_timer req c = Returns (r, c') ∧ sched_inv (sc_scheduler c') ∧
    sc_current_ms c' = sc_current_ms c ∧
    sd_next_generation (sc_scheduler c') = sd_next_generation (sc_scheduler c) + 1 ∧
    Scheduler.register req (sc_current_ms c) (sc_scheduler c) = Returns (r, sc_scheduler c') ∧
    ∀ k st fire, k ≠ tr_timer_key req →
      active (sc_scheduler c) k st fire → active (sc_scheduler c') k st fire.
Proof.
  intros Hinv Hreq Hnow Hg.
  destruct (returns_inv _ _ (register_inv req _ _ Hinv Hreq Hnow Hg)) as ([r s'] & E & Hinv' & Hgen & Hact).
  exists r, (mkSimClock _ _ (sc_current_ms c) s'). simpl. unfold SimClock.set_timer.
  by rewrite E.
Qed.

Lemma advance_spec now c :
  sched_inv (sc_scheduler c) → time_ok now → sc_current_ms c ≤ now →
  ∃ fires c', advance_to now c = Returns (Ok fires, c') ∧ sc_current_ms c' = now ∧
    sched_inv (sc_scheduler c') ∧
    sd_next_generation (sc_scheduler c') = sd_next_generation (sc_scheduler c) ∧
    Forall (λ e, now < he_fire e) (heap_iter (sd_heap (sc_scheduler c'))) ∧
    StronglySorted (λ a b, fire_le a b = true) fires ∧
    Forall (λ f, f = fire_of (tf_timer_key f) (tf_scheduled_ts_ms f) now) fires ∧
    ∀ k, key_drained now k (sc_scheduler c) (sc_scheduler c') (times_of k fires).
Proof.
  intros Hinv Hnow Hle.
  destruct (drain_due_spec now _ Hinv Hnow) as (fires & s' & E & Hspec).
  exists fires, (mkSimClock _ _ now s'). simpl. unfold SimClock.advance_to.
  rewrite (proj2 (Z.ltb_ge _ _) Hle), E. split; [done|]. split; [done|]. exact Hspec.
Qed.

Lemma advance_backward now c :
  now < sc_current_ms c → advance_to now c = Returns (Err (TimeMovedBackward (sc_current_ms c) now), c).
Proof. intros Hlt. simpl. unfold SimClock.advance_to. by rewrite (proj2 (Z.ltb_lt _ _) Hlt). Qed.

Lemma reachable_clock c : clock_reachable c →
  sched_inv (sc_scheduler c) ∧ time_ok (sc_current_ms c).
Proof.
  induction 1 as [start Hs|req c r c' _ [Hinv Hnow] Hreq Hg E|key c _ [Hinv Hnow]
                 |now c r c' _ [Hinv Hnow] Hok E].
  - split; [apply sched_new_inv|done].
  - destruct (set_timer_spec req c Hinv Hreq Hnow Hg) as (r' & c'' & E' & Hinv' & Hc & _).
    rewrite E' in E. simplify_eq. by rewrite Hc.
  - split; [apply cancel_inv, Hinv|done].
  - destruct (Z.lt_ge_cases now (sc_current_ms c)) as [Hlt|Hge].
    + rewrite advance_backward in E by done. by simplify_eq.
    + destruct (advance_spec now c Hinv Hok Hge) as (fires & c'' & E' & Hc & Hinv' & _).
      rewrite E' in E. by simplify_eq.
Qed.

(** ** Sequences of clock operations *)

Inductive clock_op : Type :=
| OpSet (req : TimerRequest)
| OpCancel (key : string)
| OpAdvance (now : Z).

(** Fires collected by a sequence of operations (rejected operations collect none). *)
Fixpoint run_ops (ops : list clock_op) (c : SimClock) : outcome (list TimerFire * SimClock) :=
  match ops with
  | [] => Returns ([], c)
  | OpSet req :: ops => r ← set_timer req c; run_ops ops r.2
  | OpCancel key :: ops => run_ops ops (cancel_timer key c).2
  | OpAdvance now :: ops =>
      r ← advance_to now c;
      r' ← run_ops ops r.2;
      Returns (match r.1 with Ok fires => fires | Err _ => [] end ++ r'.1, r'.2)
  end.

(** In-range operations that leave timer [k] alone. *)
Definition op_ok (k : string) (op : clock_op) : Prop :=
  match op with
  | OpSet req => req_ok req ∧ tr_timer_key req ≠ k
  | OpCancel key => key ≠ k
  | OpAdvance now => time_ok now
  end.

(** The latest time the operations advance to, [t] if they do not advance. *)
Definition latest_advance (t : Z) (ops : list clock_op) : Z :=
  foldr (λ op t, match op with OpAdvance now => Z.max now t | _ => t end) t ops.

(** Registration room for a number of operations. *)
Definition room (c : SimClock) (ops : list clock_op) : Prop :=
  sd_next_generation (sc_scheduler c) + Z.of_nat (length ops) < 2 ^ 64.

(** One operation from an invariant clock: it returns a clock with the
    invariant and the room for the rest, and does to timer [k] what
    [key_drained] says when it advances, nothing otherwise. *)
Lemma run_op k op ops c :
  sched_inv (sc_scheduler c) → time_ok (sc_current_ms c) → op_ok k op → room c (op :: ops) →
  ∃ fires c1, sched_inv (sc_scheduler c1) ∧ time_ok (sc_current_ms c1) ∧ room c1 ops ∧
    (∀ r, run_ops ops c1 = Returns r → run_ops (op :: ops) c = Returns (fires ++ r.1, r.2)) ∧
    ((∃ now, op = OpAdvance now ∧ sc_current_ms c ≤ now ∧ sc_current_ms c1 = now ∧
        key_drained now k (sc_scheduler c) (sc_scheduler c1) (times_of k fires)) ∨
     (fires = [] ∧ sc_current_ms c1 = sc_current_ms c ∧
      (∀ now, op = OpAdvance now → now < sc_current_ms c) ∧
      (sd_timers (sc_scheduler c) !! k = None → sd_timers (sc_scheduler c1) !! k = None) ∧
      ∀ st fire, active (sc_scheduler c) k st fire → active (sc_scheduler c1) k st fire)).
Proof.
  intros Hinv Hnow Hop Hroom. unfold room in *. simpl in Hroom. destruct op as [req|key|now]; simpl in Hop.
  - destruct Hop as [Hreq Hne].
    destruct (set_timer_spec req c Hinv Hreq Hnow ltac:(lia)) as (r & c1 & E & Hinv1 & Hc & Hg & Er & Hact).
    exists [], c1. rewrite Hc, Hg. split; [done|]. split; [done|]. split; [lia|]. split.
    { intros [? ?] Hr. cbn [run_ops]. by rewrite E. }
    right. split; [done|]. split; [done|]. split; [done|]. split; [|intros; apply Hact; congruence].
    intros Hk. unfold Scheduler.register in Er. destruct (Scheduler.plan _ _) as [p|]; [|done].
    simpl in Er. destruct p as [[[sch first]|]|e]; injection Er as <- <-; [simpl|done|done].
    by rewrite lookup_insert_ne.
  - destruct (cancel_inv key _ Hinv) as (Hinv1 & _ & Hact).
    exists [], (cancel_timer key c).2. split; [done|]. split; [done|].
    assert (sd_next_generation (sc_scheduler (cancel_timer key c).2) =
      sd_next_generation (sc_scheduler c) ∧
      (sd_timers (sc_scheduler c) !! k = None →
       sd_timers (sc_scheduler (cancel_timer key c).2) !! k = None)) as [Hg Hn].
    { simpl. unfold Scheduler.cancel. destruct (sd_timers (sc_scheduler c) !! key); simpl; [|done].
      split; [done|]. intros. by rewrite lookup_delete_ne. }
    split; [lia|]. split; [by intros [? ?]|]. right. split; [done|]. split; [done|]. split; [done|].
    split; [done|]. intros. by apply Hact.
  - destruct (Z.lt_ge_cases now (sc_current_ms c)) as [Hlt|Hge].
    + exists [], c. split; [done|]. split; [done|]. split; [lia|]. split.
      { intros [? ?] Hr. cbn [run_ops]. rewrite advance_backward by done. cbn. by rewrite Hr. }
      right. split; [done|]. split; [done|]. split; [|done]. by intros ? [= ->].
    + destruct (advance_spec now c Hinv Hop Hge) as (fires & c1 & E & Hc & Hinv1 & Hg & _ & _ & _ & Hd).
      exists fires, c1. rewrite Hc, Hg. split; [done|]. split; [done|]. split; [lia|]. split.
      { intros [? ?] Hr. cbn [run_ops]. rewrite E. cbn. by rewrite Hr. }
      left. exists now. auto.
Qed.

Lemma run_ops_silent k ops c :
  sched_inv (sc_scheduler c) → time_ok (sc_current_ms c) → Forall (op_ok k) ops → room c ops →
  sd_timers (sc_scheduler c) !! k = None →
  ∃ fires c', run_ops ops c = Returns (fires, c') ∧ times_of k fires = [].
Proof.
  intros Hinv Hnow Hops. revert c Hinv Hnow.
  induction Hops as [|op ops Hop Hops IH]; intros c Hinv Hnow Hroom Hk; [by eexists [], c|].
  destruct (run_op k op ops c Hinv Hnow Hop Hroom)
    as (fires & c1 & Hinv1 & Hnow1 & Hroom1 & Hrun & Hstep).
  assert (times_of k fires = [] ∧ sd_timers (sc_scheduler c1) !! k = None) as [Ht Hk1].
  { destruct Hstep as [(now & _ & _ & _ & Hd)|(-> & _ & _ & Hn & _)]; [|by auto].
    destruct Hd as [(? & _ & ?)|[(? & ? & _ & [? _] & _)|(? & ? & ? & [? _] & _)]]; [done|congruence..]. }
  destruct (IH c1 Hinv1 Hnow1 Hroom1 Hk1) as (fires' & c' & E & Ht').
  eexists _, c'. split; [by apply Hrun in E|]. simpl. by rewrite times_of_app, Ht, Ht'.
Qed.

(** The occurrences of an interval timer from [fire] to [t], within its end. *)
Definition expected (every : Z) (end_ms : option Z) (fire t : Z) : list Z :=
  filter (λ x, end_allows end_ms x = true)
    (occurrences every fire (Z.to_nat ((t - fire) / every + 1))).

Lemma expected_nil every end_ms fire t : 0 < every → t < fire → expected every end_ms fire t = [].
Proof.
  intros He Ht. unfold expected. assert ((t - fire) / every < 0) by (apply Z.div_lt_upper_bound; lia).
  by replace (Z.to_nat ((t - fire) / every + 1)) with 0%nat by lia.
Qed.

Lemma elem_of_expected every end_ms fire t x : 0 < every →
  x ∈ expected every end_ms fire t ↔
  (∃ i, 0 ≤ i ∧ x = fire + i * every) ∧ x ≤ t ∧ end_allows end_ms x = true.
Proof.
  intros He. unfold expected. rewrite list_elem_of_filter, elem_of_occurrences.
  pose proof (Z.mul_div_le (t - fire) every ltac:(lia)).
  pose proof (Z.mul_succ_div_gt (t - fire) every ltac:(lia)).
  split.
  - intros (Hend & i & Hi & ->). split; [exists i; lia|]. split; [nia|done].
  - intros ((i & Hi & ->) & Ht & Hend). split; [done|]. exists i. split; [|done]. nia.
Qed.

Lemma expected_sorted every end_ms fire t :
  0 < every → StronglySorted Z.lt (expected every end_ms fire t).
Proof. intros. by apply StronglySorted_filter', occurrences_sorted. Qed.

(** Two strictly sorted lists with the same members are equal. *)
Lemma sorted_lt_ext l l' : StronglySorted Z.lt l → StronglySorted Z.lt l' →
  (∀ x, x ∈ l ↔ x ∈ l') → l = l'.
Proof.
  intros Hl Hl' Hx. apply (StronglySorted_unique Z.le); [by apply sorted_lt_le..|].
  assert (∀ l, StronglySorted Z.lt l → NoDup l) as Hnd.
  { clear. induction 1 as [|a l Hs IH Hf]; constructor; [|done]. intros Ha.
    eapply Forall_forall in Hf; [|exact Ha]. simpl in Hf. lia. }
  apply NoDup_Permutation; auto.
Qed.

Lemma expected_split every end_ms fire now a t :
  0 < every → 0 ≤ a → let n := fire + a * every in now < n ≤ now + every →
  expected every end_ms fire now ++ expected every end_ms n t =
  expected every end_ms fire (Z.max now t).
Proof.
  intros He Ha n Hn. apply sorted_lt_ext; [|by apply expected_sorted|].
  - apply StronglySorted_app_2; [|by apply expected_sorted..].
    intros x y (_ & ? & _)%elem_of_expected ((i & ? & ->) & _ & _)%elem_of_expected; [nia|done..].
  - intros x. rewrite elem_of_app, !elem_of_expected by done. split.
    + intros [((i & ? & ->) & ? & ?)|((i & ? & ->) & ? & ?)].
      * split; [by exists i|]. split; [lia|done].
      * split; [exists (a + i); subst n; nia|]. split; [lia|done].
    + intros ((i & ? & ->) & ? & ?). destruct (decide (fire + i * every ≤ now)).
      * left. split; [by exists i|done].
      * right. assert (a ≤ i) by (subst n; nia).
        split; [exists (i - a); subst n; split; [lia|nia]|]. split; [lia|done].
Qed.

Lemma expected_ended every end_ms fire now a t :
  0 < every → 0 ≤ a → let n := fire + a * every in now < n ≤ now + every →
  end_allows end_ms n = false →
  expected every end_ms fire now = expected every end_ms fire (Z.max now t).
Proof.
  intros He Ha n Hn Hend. rewrite <- (expected_split _ _ _ _ a) by done. fold n.
  assert (expected every end_ms n t = []) as ->; [|by rewrite app_nil_r].
  apply elem_of_nil_inv. intros x ((i & ? & ->) & _ & Hx)%elem_of_expected; [|done].
  destruct end_ms as [e|]; simpl in *; [nia|done].
Qed.

Lemma expected_before every end_ms n t :
  0 < every → expected every end_ms n (Z.max (n - 1) t) = expected every end_ms n t.
Proof.
  intros He. destruct (Z.le_gt_cases n t).
  - by replace (Z.max (n - 1) t) with t by lia.
  - by rewrite !expected_nil by lia.
Qed.

Lemma latest_advance_max t t' ops :
  latest_advance (Z.max t t') ops = Z.max t (latest_advance t' ops).
Proof. induction ops as [|[]]; simpl; lia. Qed.

(** The next occurrence after [now] of a timer on the grid of [fire]. *)
Lemma next_on_grid every start fire now :
  0 < every ≤ MAX_TIME → (∃ j, 0 ≤ j ∧ fire = start + j * every) → fire ≤ now →
  ∃ a, 0 ≤ a ∧ interval_next start every now = fire + a * every ∧
    now < fire + a * every ≤ now + every.
Proof.
  intros He (j & Hj & Hfire) Hle. assert (start ≤ now) as Hsn by nia.
  destruct (interval_latest_spec start every He now Hsn) as [Hl Hn].
  destruct (div_bounds start every He now Hsn).
  exists ((now - start) / every + 1 - j). unfold interval_latest, interval_next in *. nia.
Qed.

Lemma run_ops_interval k st every start end_ms ops : ts_coalesce st = FireAll →
  ts_schedule st = InternalSchedule.Interval every start end_ms →
  ∀ c fire, sched_inv (sc_scheduler c) → time_ok (sc_current_ms c) → Forall (op_ok k) ops →
  room c ops → active (sc_scheduler c) k st fire → sc_current_ms c ≤ fire →
  ∃ fires c', run_ops ops c = Returns (fires, c') ∧
    times_of k fires = expected every end_ms fire (latest_advance (fire - 1) ops).
Proof.
  intros Hpol Hsch c fire Hinv Hnow Hops. revert c fire Hinv Hnow.
  induction Hops as [|op ops Hop Hops IH]; intros c fire Hinv Hnow Hroom Hact Hcur;
    destruct (si_timer _ Hinv k st (proj1 Hact)) as [Hok (f & Hf & _ & Hon)];
    pose proof (active_unique _ k st fire f Hinv Hact (conj (proj1 Hact) Hf)) as <-;
    rewrite Hsch in Hok, Hon; destruct Hok as [He _], Hon as [Hgrid _].
  { eexists [], c. split; [done|]. rewrite expected_nil; [done|lia|simpl; lia]. }
  destruct (run_op k op ops c Hinv Hnow Hop Hroom)
    as (fires & c1 & Hinv1 & Hnow1 & Hroom1 & Hrun & Hstep).
  destruct Hstep as [(now & -> & Hge & Hc1 & Hd)|(-> & Hc1 & Hback & _ & Hkeep)]; cycle 1.
  { destruct (IH c1 fire Hinv1 Hnow1 Hroom1 (Hkeep _ _ Hact)) as (fires' & c' & E & Ht'); [lia|].
    eexists _, c'. split; [by apply Hrun in E|]. simpl. rewrite Ht'. f_equal.
    destruct op as [| |now]; cbn [latest_advance foldr]; [done..|].
    specialize (Hback now eq_refl). fold (latest_advance (fire - 1) ops).
    rewrite <- latest_advance_max. f_equal. lia. }
  cbn [latest_advance foldr]. fold (latest_advance (fire - 1) ops). rewrite <- latest_advance_max.
  destruct Hd as [(_ & Hk & _)|[(st' & f' & Ht & Ha & Hlt & Ha')|(st' & f' & next & Ha & Hle & Hfa & Hset)]];
    [destruct Hact; congruence| |];
    (assert (st' = st) as -> by (destruct Ha, Hact; congruence));
    pose proof (active_unique _ k st fire f' Hinv Hact Ha) as <-.
  - destruct (IH c1 fire Hinv1 Hnow1 Hroom1 Ha') as (fires' & c' & E & Ht'); [lia|].
    eexists _, c'. split; [by apply Hrun in E|]. simpl. rewrite times_of_app, Ht, Ht'. simpl.
    do 2 f_equal. lia.
  - destruct (fa_interval _ _ _ _ _ Hfa _ _ _ Hsch) as [Hts ->]. rewrite Hpol in Hts. simpl in Hts.
    fold (expected every end_ms fire now) in Hts.
    destruct (next_on_grid every start fire now He Hgrid Hle) as (a & Ha0 & Hna & Hn).
    rewrite Hna in Hset. replace (Z.max now (fire - 1)) with (Z.max now now) by lia.
    rewrite latest_advance_max. destruct (end_allows end_ms (fire + a * every)) eqn:Hend; simpl in Hset.
    + destruct (IH c1 _ Hinv1 Hnow1 Hroom1 Hset) as (fires' & c' & E & Ht'); [lia|].
      eexists _, c'. split; [by apply Hrun in E|]. simpl. rewrite times_of_app, Hts, Ht'.
      replace (fire + a * every - 1) with (Z.max (fire + a * every - 1) now) by lia.
      by rewrite latest_advance_max, expected_before, expected_split by lia.
    + destruct (run_ops_silent k ops c1 Hinv1 Hnow1 Hops Hroom1 Hset) as (fires' & c' & E & Ht').
      eexists _, c'. split; [by apply Hrun in E|]. simpl. rewrite times_of_app, Hts, Ht', app_nil_r.
      by apply (expected_ended _ _ _ _ a); [lia..|].
Qed.

Lemma peek_is_entry s t : Scheduler.peek_next_fire_ms s = Some t →
  ∃ e, e ∈ heap_iter (sd_heap s) ∧ he_fire e = t.
Proof.
  unfold Scheduler.peek_next_fire_ms. revert t.
  apply (foldl_inv (λ best, ∀ t, best = Some t → ∃ e, e ∈ heap_iter (sd_heap s) ∧ he_fire e = t));
    [done|].
  intros best e He IH t. destruct (Scheduler.entry_valid s e); [|apply IH].
  destruct best as [b|]; [destruct (_ <? b)|]; intros [= <-]; eauto.
Qed.

(** The occurrences from the first fire on are those at or after the time of
    registration. *)
Lemma first_occurrences start every now :
  time_ok start → 0 < every ≤ MAX_TIME → time_ok now →
  let first := first_interval_fire start every now in
  now ≤ first ∧ ∀ t, (∃ i, 0 ≤ i ∧ t = first + i * every) ↔
    (∃ i, 0 ≤ i ∧ t = start + i * every) ∧ now ≤ t.
Proof.
  intros Hstart He Hnow first.
  destruct (first_fire_spec start every Hstart He now Hnow) as (Hge & _ & (j & Hj & Hf) & Hlt).
  fold first in Hge, Hf, Hlt. split; [done|]. intros t. split.
  - intros (i & Hi & ->). split; [exists (j + i)|]; nia.
  - intros [(i & Hi & ->) Ht]. assert (first ≤ start + i * every) as Hle.
    { destruct (Z.le_gt_cases start now) as [Hsc|Hsc].
      - specialize (Hlt Hsc). assert (j - 1 < i) by nia. nia.
      - subst first. unfold first_interval_fire in *.
        destruct (Z.leb_spec now start); [nia|lia]. }
    exists (i - j). rewrite Hf in *. nia.
Qed.

(** ** Properties *)


(** A [FireAll] interval timer set on a clock that has no timer of that
    key reports each of its occurrences exactly once, in order, over any
    sequence of further operations that do not set or cancel it: those from
    the time it was set to the latest time advanced to, within its end. *)
Theorem interval_exactly_once k every start_ms end_ms ops c :
  let req := mkTimerRequest k (TimerSchedule.Interval every start_ms end_ms) FireAll in
  let start := default (sc_current_ms c) start_ms in
  clock_reachable c → sd_timers (sc_scheduler c) !! k = None →
  0 < every → req_ok req → Forall (op_ok k) ops → room c (OpSet req :: ops) →
  ∃ fires c', run_ops (OpSet req :: ops) c = Returns (fires, c') ∧
    StronglySorted Z.lt (times_of k fires) ∧
    ∀ t, t ∈ times_of k fires ↔
      (∃ i, 0 ≤ i ∧ t = start + i * every) ∧ sc_current_ms c ≤ t ∧ end_allows end_ms t = true ∧
      t ≤ latest_advance (sc_current_ms c - 1) ops.
Proof.
  intros req start [Hinv Hcur]%reachable_clock Hk He Hreq Hops Hroom.
  assert (time_ok start) as Hstart by (subst start; destruct Hreq; by destruct start_ms).
  unfold room in Hroom. cbn [length] in Hroom.
  destruct (set_timer_spec req c Hinv Hreq Hcur ltac:(lia)) as (r & c1 & E & Hinv1 & Hc1 & Hg1 & Er & _).
  assert (room c1 ops) as Hroom1 by (unfold room; lia).
  assert (time_ok (sc_current_ms c1)) as Hcur1 by (by rewrite Hc1).
  cbn [run_ops]. rewrite E. cbn [mbind outcome_bind snd].
  assert (0 < every ≤ MAX_TIME) as Hemax by (destruct Hreq; done).
  pose proof (first_occurrences start every (sc_current_ms c) Hstart Hemax Hcur) as [Hge Hocc].
  unfold Scheduler.register in Er. simpl in Er. rewrite (proj2 (Z.leb_gt _ _) He) in Er.
  fold start in Er. set (first := first_interval_fire start every (sc_current_ms c)) in *.
  destruct (end_allows end_ms first) eqn:Hend; simpl in Er; injection Er as _ Hs1.
  - set (st := mkTimerState _ (InternalSchedule.Interval every start end_ms) FireAll
                 (sd_next_generation (sc_scheduler c))) in Hs1.
    assert (active (sc_scheduler c1) k st first) as Hact.
    { rewrite <- Hs1. split; simpl; [by rewrite lookup_insert_eq|]. rewrite heap_iter_push. by left. }
    destruct (run_ops_interval k st every start end_ms ops eq_refl eq_refl c1 first Hinv1 Hcur1 Hops
                Hroom1 Hact ltac:(lia)) as (fires & c' & Er & Ht).
    exists fires, c'. split; [done|]. rewrite Ht. split; [by apply expected_sorted|].
    intros t. rewrite elem_of_expected by done.
    replace (first - 1) with (Z.max (first - 1) (sc_current_ms c - 1)) by lia.
    rewrite latest_advance_max. split; cycle 1.
    { intros (Ho & Hlo & He' & Hle). rewrite Hocc. split; [done|]. split; [lia|done]. }
    intros (Hof & Hle & He'). pose proof (proj1 (Hocc t) Hof) as [? ?]. 
    destruct Hof as (i & ? & ->). split; [done|]. split; [done|]. split; [done|]. nia.
  - destruct (run_ops_silent k ops c1 Hinv1 Hcur1 Hops Hroom1) as (fires & c' & Er & Ht);
      [by rewrite <- Hs1|].
    exists fires, c'. split; [done|]. rewrite Ht. split; [constructor|].
    intros t. split; [by intros ?%elem_of_nil|]. intros (Ho & Hlo & He' & _).
    destruct (proj2 (Hocc t) (conj Ho Hlo)) as (i & ? & ->).
    destruct end_ms; simpl in *; [nia|done].
Qed.

(** After [cancel_timer] a timer reports nothing, whatever operations
    follow, until a timer of that key is set again: the entries it left in the
    heap are skipped. *)
Theorem cancelled_timer_silent k ops c :
  clock_reachable c → Forall (op_ok k) ops → room c ops →
  ∃ fires c', run_ops ops (cancel_timer k c).2 = Returns (fires, c') ∧ times_of k fires = [].
Proof.
  intros [Hinv Hcur]%reachable_clock Hops Hroom.
  destruct (cancel_inv k _ Hinv) as (Hinv' & Hk & _).
  apply run_ops_silent; [done|done|done| |done].
  unfold room in *. simpl. unfold Scheduler.cancel.
  by destruct (sd_timers (sc_scheduler c) !! k).
Qed.

(** Setting a timer whose schedule has no occurrence left before its end
    succeeds and leaves the earlier timer of that key in place, although a
    set timer replaces the old one. *)
Theorem expired_replacement_keeps_timer k every start_ms end_ms policy st fire c :
  0 < every → active (sc_scheduler c) k st fire →
  end_allows end_ms
    (first_interval_fire (default (sc_current_ms c) start_ms) every (sc_current_ms c)) = false →
  ∃ c', set_timer (mkTimerRequest k (TimerSchedule.Interval every start_ms end_ms) policy) c =
      Returns (Ok tt, c') ∧ active (sc_scheduler c') k st fire.
Proof.
  intros He Hact Hend. simpl. unfold SimClock.set_timer, Scheduler.register. simpl.
  rewrite (proj2 (Z.leb_gt _ _) He), Hend. simpl. eexists. split; [done|]. exact Hact.
Qed.
End clock.

(** ** A clock with two timers *)

(** A cron library whose expressions all mean a fixed period of a second. *)
Definition demo_cron : CronLib := {|
  CronSchedule := unit;
  cron_from_str _ := Ok tt;
  cron_next _ t :=
    let n := (t / 1000 + 1) * 1000 in
    if (- MAX_TIME <=? n) && (n <=? MAX_TIME) then Some n else None;
  timestamp_ok t := (- MAX_TIME <=? t) && (t <=? MAX_TIME);
|}.

Lemma demo_cron_ok : @CronLibOk demo_cron.
Proof.
  split; simpl.
  - intros _ t t'. case_match; [|done]. intros [= <-].
    pose proof (Z.mul_succ_div_gt t 1000). lia.
  - intros _ t t'. case_match; [|done]. by intros [= <-].
  - intros t [? ?]. lia.
Qed.

Definition demo_heap : BinaryHeap HeapEntry := sorted_heap entry_before.
Lemma demo_heap_ok : @BinaryHeapOk _ demo_heap entry_before.
Proof. apply sorted_heap_ok; [apply entry_before_total|apply entry_before_trans]. Qed.

Section demo.
#[local] Existing Instances demo_cron demo_heap.

Definition heartbeat : TimerRequest :=
  mkTimerRequest "hb" (TimerSchedule.Interval 50 (Some 100) (Some 260)) FireAll.
Definition report_timer : TimerRequest :=
  mkTimerRequest "rep" (TimerSchedule.Cron "* * * * * *" None None) FireOnce.

Definition demo_clock : SimClock :=
  match SimClock.set_timer report_timer (SimClock.new 120) with
  | Returns (_, c) => c
  | Panics _ => SimClock.new 0
  end.

Lemma demo_clock_reachable : clock_reachable demo_clock.
Proof.
  apply (reach_set report_timer (SimClock.new 120) (Ok tt)).
  - apply reach_new. unfold time_ok, MAX_TIME. lia.
  - done.
  - done.
  - reflexivity.
Qed.

(** The times a timer reports in one advance. *)
Definition advance_times (k : string) (now : Z) (c : SimClock) : list Z :=
  match advance_to now c with Returns (Ok fires, _) => times_of k fires | _ => [] end.


Lemma interval_exactly_once_witness :
  ∃ fires c', run_ops [OpSet heartbeat; OpAdvance 170; OpAdvance 400] demo_clock
      = Returns (fires, c') ∧ 200 ∈ times_of "hb" fires ∧ StronglySorted Z.lt (times_of "hb" fires).
Proof.
  destruct (@interval_exactly_once _ demo_cron_ok _ demo_heap_ok "hb" 50 (Some 100) (Some 260)
              [OpAdvance 170; OpAdvance 400] demo_clock demo_clock_reachable)
    as (fires & c' & E & Hs & Ht).
  - reflexivity.
  - lia.
  - unfold req_ok, time_ok, MAX_TIME. simpl. lia.
  - unfold op_ok, time_ok, MAX_TIME. repeat constructor; lia.
  - vm_compute. reflexivity.
  - exists fires, c'. split; [exact E|]. split; [|exact Hs]. apply Ht.
    split; [exists 2; split; [lia|reflexivity]|]. split; [vm_compute; discriminate|]. split; [reflexivity|].
    vm_compute. discriminate.
Defined.

Lemma cancelled_timer_silent_witness :
  ∃ fires c', run_ops [OpAdvance 5000] (cancel_timer "rep" demo_clock).2 = Returns (fires, c') ∧
    times_of "rep" fires = [].
Proof.
  apply (@cancelled_timer_silent _ demo_cron_ok _ demo_heap_ok "rep" [OpAdvance 5000] demo_clock
           demo_clock_reachable).
  - unfold op_ok, time_ok, MAX_TIME. repeat constructor; lia.
  - vm_compute. reflexivity.
Defined.
End demo.
