(* ===== verification/Rtmd.v ===== *)
(** * Market-data messages ([zk/rtmd/v1/rtmd.proto])

    The messages replayed by the backtester and read by the simulator, field by
    field.  Protobuf maps are finite maps. *)

From S2P Require Import Prelude F64.

(** [zk.rtmd.v1.PriceLevel] *)
Record PriceLevel : Set := mkPriceLevel {
  pl_price : f64;
  pl_qty : f64;
  pl_numOfOrders : Z;
  pl_numOfPos : Z;
}.

(** [zk.rtmd.v1.TickData] *)
Record TickData : Set := mkTickData {
  td_tick_type : Z;
  td_instrument_code : string;
  td_exchange : string;
  td_original_timestamp : Z;
  td_received_timestamp : Z;
  td_volume : f64;
  td_latest_trade_price : f64;
  td_latest_trade_qty : f64;
  td_latest_trade_side : string;
  td_buy_price_levels : list PriceLevel;
  td_sell_price_levels : list PriceLevel;
}.
Definition default_TickData : TickData :=
  mkTickData 0 "" "" 0 0 f64.zero f64.zero f64.zero "" [] [].

(** [zk.rtmd.v1.Kline] *)
Record Kline : Set := mkKline {
  kl_timestamp : Z;
  kl_kline_end_timestamp : Z;
  kl_open : f64;
  kl_high : f64;
  kl_close : f64;
  kl_low : f64;
  kl_volume : f64;
  kl_amount : f64;
  kl_kline_type : Z;
  kl_symbol : string;
  kl_source : string;
}.
Definition default_Kline : Kline :=
  mkKline 0 0 f64.zero f64.zero f64.zero f64.zero f64.zero f64.zero 0 "" "".

(** [zk.rtmd.v1.RealtimeSignal] *)
Record RealtimeSignal : Set := mkRealtimeSignal {
  rs_namespace : string;
  rs_instrument : string;
  rs_timestamp : Z;
  rs_data : gmap string f64;
  rs_message : string;
  rs_data_int : gmap string Z;
  rs_data_str : gmap string string;
}.
