(* ===== verification/Strategy.v ===== *)
(** * Strategies: actions, timers, context and runner ([zk-strategy-sdk-rs])

    [TimerManager] schedules one-shot and cron timers, [StrategyContext] is the
    state a strategy sees, [StrategyRunner] updates both and calls the
    strategy.  A strategy is an implementation of the [Strategy] trait, here a
    class: a callback maps its event, the context and the strategy's own state
    to the requested actions, the new state and the number of ids it drew from
    the context's allocator (the only part of the context a callback can
    change). *)

From S2P Require Import Prelude F64 Proto Models Collections Scheduler Rtmd.

(** ** [models.rs] *)

Record StrategyOrder : Set := mkStrategyOrder {
  so_order_id : Z;
  so_symbol : string;
  so_price : f64;
  so_qty : f64;
  so_side : Z;
  so_open_close_type : Z;
  so_account_id : Z;
}.

Record StrategyCancel : Set := mkStrategyCancel { sca_order_id : Z; sca_account_id : Z }.

Record TimerEvent : Set := mkTimerEvent { te_timer_key : string; te_ts_ms : Z }.

Record StrategyLog : Set := mkStrategyLog { sl_ts_ms : Z; sl_message : message }.

Module StrategyTimer.
Inductive schedule : Set :=
| Cron (expr : string) (start_ms end_ms : option Z)
| OnceAt (fire_ts : Z).
End StrategyTimer.

Record TimerSubscription : Set := mkTimerSubscription {
  tsub_timer_key : string;
  tsub_schedule : StrategyTimer.schedule;
}.

Module SAction.
Inductive t : Set :=
| PlaceOrder (order : StrategyOrder)
| Cancel (cancel : StrategyCancel)
| Log (log : StrategyLog)
| SubscribeTimer (sub : TimerSubscription).
End SAction.

(** ** [timer_manager.rs] *)

Inductive TimerKind : Set := ClockTimer | CronTimer.

Record TimerEntry : Set := mkTimerEntry {
  ten_fire_ms : Z;
  ten_key : string;
  ten_kind : TimerKind;
}.

(** The derived order, smallest first. *)
Definition timer_before (a b : TimerEntry) : bool :=
  match ten_fire_ms a ?= ten_fire_ms b with
  | Lt => true
  | Gt => false
  | Eq =>
      match String.compare (ten_key a) (ten_key b) with
      | Lt => true
      | Gt => false
      | Eq => match ten_kind a, ten_kind b with CronTimer, ClockTimer => false | _, _ => true end
      end
  end.

Record CronEntry `{!CronLib} : Type := mkCronEntry {
  ce_schedule : CronSchedule;
  ce_end_ms : option Z;
}.

Record TimerManager `{!CronLib, !BinaryHeap TimerEntry} : Type := mkTimerManager {
  tm_crons : gmap string CronEntry;
  tm_heap : heap;
}.
#[export] Instance eta_TimerManager `{!CronLib, !BinaryHeap TimerEntry} : Eta TimerManager := λ r,
  mkTimerManager _ _ (tm_crons r) (tm_heap r).

Module TimerManager.
Section timer_manager.
Context `{!CronLib, !BinaryHeap TimerEntry}.
Implicit Types (m : TimerManager).

Definition new : TimerManager := mkTimerManager _ _ ∅ heap_new.

Definition subscribe_cron (key expr : string) (start_ms : Z) (end_ms : option Z) (m : TimerManager)
    : outcome TimerManager :=
  match cron_from_str expr with
  | Err e => Panics "invalid cron expression"
  | Ok schedule =>
      next ← cron_after schedule start_ms;
      Returns
        match next with
        | None => m
        | Some first =>
            if match end_ms with Some e => e <? first | None => false end then m
            else m <| tm_crons := <[key := mkCronEntry _ schedule end_ms]> (tm_crons m) |>
                   <| tm_heap := heap_push (mkTimerEntry first key CronTimer) (tm_heap m) |>
        end
  end.

Definition subscribe_once_at (key : string) (fire_ts_ms : Z) (m : TimerManager) : TimerManager :=
  m <| tm_heap := heap_push (mkTimerEntry fire_ts_ms key ClockTimer) (tm_heap m) |>.

(** Reschedule a fired cron timer, or drop it. *)
Definition after_fire (e : TimerEntry) (m : TimerManager) : outcome TimerManager :=
  match ten_kind e with
  | ClockTimer => Returns m
  | CronTimer =>
      match tm_crons m !! ten_key e with
      | None => Returns m
      | Some cron_entry =>
          next ← cron_after (ce_schedule cron_entry) (ten_fire_ms e);
          Returns
            match next with
            | Some next_ms =>
                if end_allows (ce_end_ms cron_entry) next_ms
                then m <| tm_heap := heap_push (mkTimerEntry next_ms (ten_key e) CronTimer) (tm_heap m) |>
                else m <| tm_crons := delete (ten_key e) (tm_crons m) |>
            | None => m <| tm_crons := delete (ten_key e) (tm_crons m) |>
            end
      end
  end.

(** The [while let] loop; the bound on its rounds is never reached
    ([TimerFacts]). *)
Fixpoint drain_loop (rounds : nat) (now_ms : Z) (m : TimerManager) (events : list TimerEvent)
    : outcome (list TimerEvent * TimerManager) :=
  match rounds with
  | O => Panics "drain_due: rounds"
  | S rounds =>
      match heap_pop (tm_heap m) with
      | None => Returns (events, m)
      | Some (e, h) =>
          if now_ms <? ten_fire_ms e then Returns (events, m)
          else
            m ← after_fire e (m <| tm_heap := h |>);
            drain_loop rounds now_ms m (events ++ [mkTimerEvent (ten_key e) (ten_fire_ms e)])
      end
  end.

(** A timer fires at most once per millisecond. *)
Definition drain_rounds (now_ms : Z) (m : TimerManager) : nat :=
  S (sum_list_with (λ e, Z.to_nat (now_ms - ten_fire_ms e + 1)) (heap_iter (tm_heap m))).

Definition drain_due (now_ms : Z) (m : TimerManager) : outcome (list TimerEvent * TimerManager) :=
  drain_loop (drain_rounds now_ms m) now_ms m [].

Definition is_empty (m : TimerManager) : bool := heap_is_empty (tm_heap m).
End timer_manager.
End TimerManager.

(** ** [context.rs] *)

Record AccountState : Type := mkAccountState {
  as_account_id : Z;
  as_pending_orders : gmap Z StrategyOrder;
  as_open_orders : gmap Z Order;
  as_terminal_orders : gmap Z Order;
  as_pending_cancels : gset Z;
  as_balances : gmap string Balance;
  as_positions : gmap string Position;
}.
#[export] Instance eta_AccountState : Eta AccountState := λ r,
  mkAccountState (as_account_id r) (as_pending_orders r) (as_open_orders r)
    (as_terminal_orders r) (as_pending_cancels r) (as_balances r) (as_positions r).
Definition AccountState_new (account_id : Z) : AccountState :=
  mkAccountState account_id ∅ ∅ ∅ ∅ ∅ ∅.

Inductive OrderView : Type :=
| ViewPending (order : StrategyOrder)
| ViewOpen (order : Order)
| ViewTerminal (order : Order).

(** [init_data] is an opaque value of the runtime, of some type [D]; the
    allocator is the [SequentialIdAllocator], an [i64] counter. *)
Record StrategyContext {D : Type} : Type := mkStrategyContext {
  ctx_account_states : gmap Z AccountState;
  ctx_order_id_to_account : gmap Z Z;
  ctx_symbol_refs : gmap string InstrumentRefData;
  ctx_current_ts_ms : Z;
  ctx_balance_generation : Z;
  ctx_position_generation : Z;
  ctx_init_data : option D;
  ctx_next_id : Z;
}.
#[global] Arguments StrategyContext : clear implicits.
#[export] Instance eta_StrategyContext {D} : Eta (StrategyContext D) := λ r,
  mkStrategyContext D (ctx_account_states r) (ctx_order_id_to_account r) (ctx_symbol_refs r)
    (ctx_current_ts_ms r) (ctx_balance_generation r) (ctx_position_generation r)
    (ctx_init_data r) (ctx_next_id r).

Module SequentialIdAllocator.
Definition default_start : Z := 1.
(** [fetch_add(1)]: the id and the new counter. *)
Definition next_id (next : Z) : Z * Z := (next, wrap_i64 (next + 1)).
(** The counter after [n] calls. *)
Definition after_calls (n : nat) (next : Z) : Z := Nat.iter n (λ z, (next_id z).2) next.
End SequentialIdAllocator.

(** [is_terminal] of [context.rs]. *)
Definition is_terminal (status : Z) : bool :=
  match OrderStatus_try_from status with
  | Some (Filled | Cancelled | Rejected) => true
  | _ => false
  end.

Module StrategyContext.
Section context.
Context {D : Type} `{!HashIter Z}.
Notation Ctx := (StrategyContext D).
Implicit Types (c : Ctx).

Definition new (account_ids : list Z) (refdata : list InstrumentRefData) : Ctx :=
  mkStrategyContext D (collect_map id AccountState_new account_ids) ∅
    (collect_map rd_instrument_id id refdata) 0 0 0 None SequentialIdAllocator.default_start.

Definition book_order (order : StrategyOrder) (c : Ctx) : Ctx :=
  let acc := default (AccountState_new (so_account_id order))
               (ctx_account_states c !! so_account_id order) in
  let acc := acc <| as_pending_orders ::= <[so_order_id order := order]> |> in
  c <| ctx_account_states ::= <[so_account_id order := acc]> |>
    <| ctx_order_id_to_account ::= <[so_order_id order := so_account_id order]> |>.

Definition book_cancel (cancel : StrategyCancel) (c : Ctx) : Ctx :=
  match ctx_order_id_to_account c !! sca_order_id cancel with
  | Some acc_id =>
      match ctx_account_states c !! acc_id with
      | Some acc =>
          c <| ctx_account_states ::= <[acc_id :=
                 acc <| as_pending_cancels ::= λ s, {[sca_order_id cancel]} ∪ s |>]> |>
      | None => c
      end
  | None => c
  end.

(** What an order snapshot does to the maps of its account. *)
Definition track_order (order_id : Z) (snapshot : Order) (acc : AccountState) : AccountState :=
  if is_terminal (ord_order_status snapshot) then
    acc <| as_terminal_orders ::= <[order_id := snapshot]> |>
        <| as_open_orders ::= delete order_id |>
        <| as_pending_orders ::= delete order_id |>
        <| as_pending_cancels ::= λ s, s ∖ {[order_id]} |>
  else
    acc <| as_open_orders ::= <[order_id := snapshot]> |>
        <| as_pending_orders ::= delete order_id |>.

Definition on_order_update (oue : OrderUpdateEvent) (c : Ctx) : Ctx :=
  let order_id := oue_order_id oue in
  match oue_order_snapshot oue with
  | None => c
  | Some snapshot =>
      let c := if ctx_current_ts_ms c <? oue_timestamp oue
               then c <| ctx_current_ts_ms := oue_timestamp oue |> else c in
      let '(acc_id, c) :=
        match ctx_order_id_to_account c !! order_id with
        | Some id => (id, c)
        | None => (oue_account_id oue,
                   c <| ctx_order_id_to_account ::= <[order_id := oue_account_id oue]> |>)
        end in
      match ctx_account_states c !! acc_id with
      | None => c
      | Some acc => c <| ctx_account_states ::= <[acc_id := track_order order_id snapshot acc]> |>
      end
  end.

Definition on_balance_update (bue : BalanceUpdateEvent) (c : Ctx) : Ctx :=
  let c :=
    match ctx_account_states c !! bue_account_id bue with
    | Some acc =>
        let acc := foldl (λ acc bal, acc <| as_balances ::= <[bal_asset bal := bal]> |>)
                     acc (bue_balance_snapshots bue) in
        c <| ctx_account_states ::= <[bue_account_id bue := acc]> |>
    | None => c
    end in
  c <| ctx_balance_generation ::= λ g, wrap_u64 (g + 1) |>.

Definition on_position_update (pue : PositionUpdateEvent) (c : Ctx) : Ctx :=
  let c := foldl (λ c pos,
    match ctx_account_states c !! pos_account_id pos with
    | Some acc =>
        c <| ctx_account_states ::= <[pos_account_id pos :=
               acc <| as_positions ::= <[pos_instrument_code pos := pos]> |>]> |>
    | None => c
    end) c (pue_position_snapshots pue) in
  c <| ctx_position_generation ::= λ g, wrap_u64 (g + 1) |>.

(** ** Queries *)

Definition get_order (order_id : Z) (c : Ctx) : option OrderView :=
  acc_id ← ctx_order_id_to_account c !! order_id;
  acc ← ctx_account_states c !! acc_id;
  match as_open_orders acc !! order_id with
  | Some o => Some (ViewOpen o)
  | None =>
      match as_terminal_orders acc !! order_id with
      | Some o => Some (ViewTerminal o)
      | None => ViewPending <$> as_pending_orders acc !! order_id
      end
  end.

Definition get_open_orders (account_id : Z) (c : Ctx) : list Order :=
  match ctx_account_states c !! account_id with
  | Some acc => (hash_iter (as_open_orders acc)).*2
  | None => []
  end.

Definition get_pending_orders (account_id : Z) (c : Ctx) : list StrategyOrder :=
  match ctx_account_states c !! account_id with
  | Some acc => (hash_iter (as_pending_orders acc)).*2
  | None => []
  end.

Definition get_pending_cancels (account_id : Z) (c : Ctx) : list Z :=
  match ctx_account_states c !! account_id with
  | Some acc => set_iter (as_pending_cancels acc)
  | None => []
  end.

Definition get_position (account_id : Z) (symbol : string) (c : Ctx) : option Position :=
  acc ← ctx_account_states c !! account_id; as_positions acc !! symbol.

Definition get_balance (account_id : Z) (asset : string) (c : Ctx) : option Balance :=
  acc ← ctx_account_states c !! account_id; as_balances acc !! asset.

Definition get_spot_inventory (account_id : Z) (asset : string) (c : Ctx) : option f64 :=
  bal_total_qty <$> get_balance account_id asset c.

Definition get_symbol_info (symbol : string) (c : Ctx) : option InstrumentRefData :=
  ctx_symbol_refs c !! symbol.

Definition next_id (c : Ctx) : Z * Ctx :=
  let '(id, next) := SequentialIdAllocator.next_id (ctx_next_id c) in
  (id, c <| ctx_next_id := next |>).

Definition set_init_data (data : D) (c : Ctx) : Ctx := c <| ctx_init_data := Some data |>.
Definition get_init_data (c : Ctx) : option D := ctx_init_data c.
End context.
End StrategyContext.

(** ** [strategy.rs]: the [Strategy] trait *)

(** What a callback returns: the actions, the new strategy state, and how many
    ids it drew from the allocator. *)
Definition reply (S : Type) : Type := list SAction.t * S * nat.

Class Strategy (D S : Type) : Type := {
  strategy_on_create : StrategyContext D → S → reply S;
  strategy_on_init : StrategyContext D → S → reply S;
  strategy_on_reinit : StrategyContext D → S → reply S;
  strategy_on_tick : TickData → StrategyContext D → S → reply S;
  strategy_on_bar : Kline → StrategyContext D → S → reply S;
  strategy_on_signal : RealtimeSignal → StrategyContext D → S → reply S;
  strategy_on_order_update : OrderUpdateEvent → StrategyContext D → S → reply S;
  strategy_on_balance_update : BalanceUpdateEvent → StrategyContext D → S → reply S;
  strategy_on_position_update : PositionUpdateEvent → StrategyContext D → S → reply S;
  strategy_on_timer : TimerEvent → StrategyContext D → S → reply S;
  strategy_on_pause : string → StrategyContext D → S → reply S;
  strategy_on_resume : string → StrategyContext D → S → reply S;
}.

(** The default body of every callback. *)
Definition no_op {S} (s : S) : reply S := ([], s, 0%nat).

(** ** [runner.rs] *)

Record StrategyRunner {D : Type} `{!CronLib, !BinaryHeap TimerEntry} : Type := mkStrategyRunner {
  run_ctx : StrategyContext D;
  run_timer : TimerManager;
}.
#[global] Arguments StrategyRunner D {_ _}.
#[export] Instance eta_StrategyRunner {D} `{!CronLib, !BinaryHeap TimerEntry} :
    Eta (StrategyRunner D) := λ r, mkStrategyRunner D _ _ (run_ctx r) (run_timer r).

Module StrategyRunner.
Section runner.
Context {D S : Type} `{!Strategy D S, !CronLib, !BinaryHeap TimerEntry}.
Notation Runner := (StrategyRunner D).
Implicit Types (r : Runner) (s : S).

Definition new_with_id_allocator (account_ids : list Z) (refdata : list InstrumentRefData) : Runner :=
  mkStrategyRunner D _ _ (StrategyContext.new account_ids refdata) TimerManager.new.

(** Call a callback: the ids it drew advance the allocator. *)
Definition invoke (callback : StrategyContext D → S → reply S) (s : S) (r : Runner)
    : list SAction.t * S * Runner :=
  let '(actions, s, ids) := callback (run_ctx r) s in
  (actions, s,
   r <| run_ctx ::= λ c, c <| ctx_next_id ::= SequentialIdAllocator.after_calls ids |> |>).

Definition on_create : S → Runner → list SAction.t * S * Runner := invoke strategy_on_create.
Definition on_init : S → Runner → list SAction.t * S * Runner := invoke strategy_on_init.
Definition on_reinit : S → Runner → list SAction.t * S * Runner := invoke strategy_on_reinit.

Definition on_tick (s : S) (tick : TickData) (r : Runner) : list SAction.t * S * Runner :=
  let r := r <| run_ctx ::= λ c, c <| ctx_current_ts_ms := td_original_timestamp tick |> |> in
  invoke (strategy_on_tick tick) s r.

Definition on_bar (s : S) (bar : Kline) : Runner → list SAction.t * S * Runner :=
  invoke (strategy_on_bar bar) s.
Definition on_signal (s : S) (sig : RealtimeSignal) : Runner → list SAction.t * S * Runner :=
  invoke (strategy_on_signal sig) s.

Definition on_order_update (s : S) (oue : OrderUpdateEvent) (r : Runner)
    : list SAction.t * S * Runner :=
  let r := r <| run_ctx ::= StrategyContext.on_order_update oue |> in
  invoke (strategy_on_order_update oue) s r.

Definition on_order_update_preserve_ts (s : S) (oue : OrderUpdateEvent) (r : Runner)
    : list SAction.t * S * Runner :=
  let saved_ts := ctx_current_ts_ms (run_ctx r) in
  let r := r <| run_ctx ::= StrategyContext.on_order_update oue |> in
  let r := r <| run_ctx ::= λ c, c <| ctx_current_ts_ms := saved_ts |> |> in
  invoke (strategy_on_order_update oue) s r.

Definition on_balance_update (s : S) (bue : BalanceUpdateEvent) (r : Runner)
    : list SAction.t * S * Runner :=
  let r := r <| run_ctx ::= StrategyContext.on_balance_update bue |> in
  invoke (strategy_on_balance_update bue) s r.

Definition on_position_update (s : S) (pue : PositionUpdateEvent) (r : Runner)
    : list SAction.t * S * Runner :=
  let r := r <| run_ctx ::= StrategyContext.on_position_update pue |> in
  invoke (strategy_on_position_update pue) s r.

(** Call [on_timer] for each event, in order. *)
Definition fire_timers (events : list TimerEvent) (s : S) (r : Runner)
    : list SAction.t * S * Runner :=
  foldl (λ '(actions, s, r) te,
    let '(more, s, r) := invoke (strategy_on_timer te) s r in
    (actions ++ more, s, r)) ([], s, r) events.

Definition drain_timers_at (s : S) (now_ms : Z) (r : Runner)
    : outcome (list SAction.t * S * Runner) :=
  d ← TimerManager.drain_due now_ms (run_timer r);
  Returns (fire_timers d.1 s (r <| run_timer := d.2 |>)).

Definition advance_time (s : S) (now_ms : Z) (r : Runner)
    : outcome (list SAction.t * S * Runner) :=
  drain_timers_at s now_ms (r <| run_ctx ::= λ c, c <| ctx_current_ts_ms := now_ms |> |>).

Definition book_order (order : StrategyOrder) (r : Runner) : Runner :=
  r <| run_ctx ::= StrategyContext.book_order order |>.
Definition book_cancel (cancel : StrategyCancel) (r : Runner) : Runner :=
  r <| run_ctx ::= StrategyContext.book_cancel cancel |>.
End runner.
End StrategyRunner.
