(* ===== verification/TimerFacts.v ===== *)
(** * Strategy timers fire exactly once

    [TimerManager::drain_due] returns, fires every due one-shot timer once and
    every due occurrence of each cron timer once, in time order, and leaves
    nothing due. *)

From Stdlib Require Import Sorted.
From stdpp Require Import sorting.
From S2P Require Import Prelude F64 Proto Collections Scheduler SchedulerFacts ClockContract.
From S2P Require Import Rtmd Strategy.

(** ** Callbacks and the timers they subscribe *)

Section strategy.
Context {D S : Type} `{!Strategy D S, !CronLib}.

(** The callbacks that events invoke. *)
Inductive callback_of : (StrategyContext D → S → reply S) → Prop :=
| cb_create : callback_of strategy_on_create
| cb_init : callback_of strategy_on_init
| cb_reinit : callback_of strategy_on_reinit
| cb_tick tick : callback_of (strategy_on_tick tick)
| cb_bar bar : callback_of (strategy_on_bar bar)
| cb_signal sig : callback_of (strategy_on_signal sig)
| cb_order oue : callback_of (strategy_on_order_update oue)
| cb_balance bue : callback_of (strategy_on_balance_update bue)
| cb_position pue : callback_of (strategy_on_position_update pue)
| cb_timer te : callback_of (strategy_on_timer te).

(** A cron subscription has an expression that parses and a start in range. *)
Definition action_ok (a : SAction.t) : Prop :=
  match a with
  | SAction.SubscribeTimer sub =>
      match tsub_schedule sub with
      | StrategyTimer.Cron expr start _ =>
          (∃ sch, cron_from_str expr = Ok sch) ∧ timestamp_ok (default 0 start) = true
      | StrategyTimer.OnceAt _ => True
      end
  | _ => True
  end.
End strategy.

Section timers.
Context `{!CronLib, !CronLibOk, !BinaryHeap TimerEntry, !BinaryHeapOk timer_before}.
Implicit Types (m : TimerManager) (e : TimerEntry) (ce : CronEntry).

(** ** The occurrences a due entry stands for *)

(** A cron timer from its pending occurrence [fire] up to [now]. *)
Fixpoint chain (n : nat) (now : Z) (ce : CronEntry) (fire : Z) : list Z :=
  match n with
  | O => []
  | S n =>
      if fire <=? now then
        fire :: match cron_next (ce_schedule ce) fire with
                | Some next => if end_allows (ce_end_ms ce) next then chain n now ce next else []
                | None => []
                end
      else []
  end.
Definition cron_upto (now : Z) (ce : CronEntry) (fire : Z) : list Z :=
  chain (Z.to_nat (now - fire + 1)) now ce fire.

Lemma chain_enough n now ce fire :
  (Z.to_nat (now - fire + 1) ≤ n)%nat → chain n now ce fire = cron_upto now ce fire.
Proof.
  unfold cron_upto. clear BinaryHeapOk0. revert n fire.
  assert (∀ n k fire, (Z.to_nat (now - fire + 1) ≤ n)%nat → (Z.to_nat (now - fire + 1) ≤ k)%nat →
            chain n now ce fire = chain k now ce fire) as Hind; [|intros; by apply Hind].
  induction n as [|n IH]; intros [|k] fire Hn Hk; simpl; [done|..];
    destruct (Z.leb_spec fire now); try lia; try done.
  f_equal. destruct (cron_next _ fire) as [next|] eqn:E; [|done].
  destruct (end_allows _ _); [|done]. apply cron_next_later in E. apply IH; lia.
Qed.

Lemma cron_upto_unfold now ce fire : fire ≤ now →
  cron_upto now ce fire =
  fire :: match cron_next (ce_schedule ce) fire with
          | Some next => if end_allows (ce_end_ms ce) next then cron_upto now ce next else []
          | None => []
          end.
Proof.
  intros Hle. rewrite <- (chain_enough (S (Z.to_nat (now - fire + 1)))) by lia. simpl.
  rewrite (proj2 (Z.leb_le _ _) Hle). f_equal.
  destruct (cron_next _ fire) as [next|] eqn:E; [|done]. destruct (end_allows _ _); [|done].
  apply cron_next_later in E. apply chain_enough. lia.
Qed.

Lemma cron_upto_late now ce fire : now < fire → cron_upto now ce fire = [].
Proof. intros. unfold cron_upto. by replace (Z.to_nat (now - fire + 1)) with 0%nat by lia. Qed.

Lemma chain_ge n now ce fire : Forall (λ t, fire ≤ t ≤ now) (chain n now ce fire).
Proof.
  revert fire. induction n as [|n IH]; intros fire; simpl; [done|].
  destruct (Z.leb_spec fire now); [|done]. constructor; [lia|].
  destruct (cron_next _ fire) as [next|] eqn:E; [|done]. destruct (end_allows _ _); [|done].
  apply cron_next_later in E. eapply Forall_impl; [apply IH|]. simpl. lia.
Qed.

Definition entry_times (now : Z) (crons : gmap string CronEntry) (e : TimerEntry) : list Z :=
  match ten_kind e, crons !! ten_key e with
  | CronTimer, Some ce => cron_upto now ce (ten_fire_ms e)
  | _, _ => if ten_fire_ms e <=? now then [ten_fire_ms e] else []
  end.
Definition entry_events (now : Z) (crons : gmap string CronEntry) (e : TimerEntry)
    : list TimerEvent :=
  mkTimerEvent (ten_key e) <$> entry_times now crons e.

Lemma entry_times_range now crons e :
  Forall (λ t, ten_fire_ms e ≤ t ≤ now) (entry_times now crons e).
Proof.
  unfold entry_times. destruct (ten_kind e), (crons !! ten_key e); try apply chain_ge;
    destruct (Z.leb_spec (ten_fire_ms e) now); repeat constructor; lia.
Qed.

(** ** The invariant *)

Definition is_cron (e : TimerEntry) : Prop := ten_kind e = CronTimer.
#[global] Instance is_cron_dec e : Decision (is_cron e).
Proof. unfold is_cron. destruct (ten_kind e); [right|left]; done. Defined.

Definition cron_keys (m : TimerManager) : list string :=
  ten_key <$> filter is_cron (heap_iter (tm_heap m)).

(** Cron entries are at dates [chrono] represents... *)
Definition timers_dated (m : TimerManager) : Prop :=
  ∀ e, e ∈ heap_iter (tm_heap m) → is_cron e → timestamp_ok (ten_fire_ms e) = true.

(** ... and there is one per key. *)
Record timers_ok (m : TimerManager) : Prop := {
  tok_dates : timers_dated m;
  tok_keys : NoDup (cron_keys m);
}.

Definition weight (now : Z) (e : TimerEntry) : nat := Z.to_nat (now - ten_fire_ms e + 1).
Notation total now m := (sum_list_with (weight now) (heap_iter (tm_heap m))).
Notation due_events now m := (heap_iter (tm_heap m) ≫= entry_events now (tm_crons m)).

Lemma sum_list_with_perm {A} (f : A → nat) l k :
  l ≡ₚ k → sum_list_with f l = sum_list_with f k.
Proof. induction 1; simpl; lia. Qed.

Lemma drop_cron_events now (crons : gmap string CronEntry) key l :
  key ∉ ten_key <$> filter is_cron l →
  l ≫= entry_events now (delete key crons) = l ≫= entry_events now crons.
Proof.
  intros Hni. induction l as [|e l IH]; [done|]. rewrite !bind_cons. f_equal.
  - unfold entry_events, entry_times. destruct (ten_kind e) eqn:Hk; [done|].
    rewrite lookup_delete_ne; [done|]. intros ->. apply Hni.
    rewrite filter_cons, decide_True by done. by left.
  - apply IH. intros Hx. apply Hni. rewrite filter_cons. case_decide; [by right|done].
Qed.

(** What one round leaves behind: the heap without the fired entry [e], with
    its next occurrence if it has one, and possibly its cron entry dropped. *)
Record round_change (e : TimerEntry) (next : option Z) (m m' : TimerManager) (h : heap) : Prop := {
  rc_heap : heap_iter (tm_heap m') ≡ₚ
    option_list ((λ n, mkTimerEntry n (ten_key e) CronTimer) <$> next) ++ heap_iter h;
  rc_crons : tm_crons m' = tm_crons m ∨ is_cron e ∧ tm_crons m' = delete (ten_key e) (tm_crons m);
  rc_next n : next = Some n → is_cron e ∧ timestamp_ok n = true ∧ ten_fire_ms e < n;
}.

Lemma round_change_dated e next m m' h :
  timers_dated m → heap_iter (tm_heap m) ≡ₚ e :: heap_iter h → round_change e next m m' h →
  timers_dated m'.
Proof.
  intros Hdates Hp [Hh _ Hnext] e'. rewrite Hh. destruct next as [n|]; simpl.
  - destruct (Hnext n eq_refl) as (_ & ? & _). intros [->|?]%elem_of_cons; [done|].
    apply Hdates. rewrite Hp. by right.
  - intros ?. apply Hdates. rewrite Hp. by right.
Qed.

Lemma round_change_weight now e next m m' h :
  heap_iter (tm_heap m) ≡ₚ e :: heap_iter h → round_change e next m m' h → ten_fire_ms e ≤ now →
  (total now m' < total now m)%nat.
Proof.
  intros Hp [Hh _ Hnext] Hle.
  rewrite (sum_list_with_perm _ _ _ Hp), (sum_list_with_perm _ _ _ Hh). unfold weight.
  destruct next as [n|]; simpl; [destruct (Hnext n eq_refl) as (_ & _ & ?)|]; lia.
Qed.

Lemma round_change_ok e next m m' h :
  timers_ok m → heap_iter (tm_heap m) ≡ₚ e :: heap_iter h → round_change e next m m' h →
  timers_ok m' ∧
  ∀ b, Forall (λ e, b ≤ ten_fire_ms e) (heap_iter (tm_heap m)) →
       Forall (λ e, b ≤ ten_fire_ms e) (heap_iter (tm_heap m')).
Proof.
  intros [Hdates Hkeys] Hp Hrc. pose proof (round_change_dated _ _ _ _ _ Hdates Hp Hrc) as Hd'.
  destruct Hrc as [Hh _ Hnext]. unfold cron_keys in Hkeys. rewrite Hp, filter_cons in Hkeys.
  split; [split; [done|]|].
  - unfold cron_keys. rewrite Hh. destruct next as [n|]; simpl.
    + destruct (Hnext n eq_refl) as (Hc & _). rewrite decide_True in Hkeys by done.
      by simpl in *.
    + case_decide; [|done]. by apply NoDup_cons in Hkeys as [_ ?].
  - intros b. rewrite Hp, Hh. intros [Hb Hrest]%Forall_cons. destruct next as [n|]; simpl; [|done].
    constructor; [|done]. simpl. destruct (Hnext n eq_refl) as (_ & _ & ?). lia.
Qed.

Lemma round_change_events now e next m m' h :
  timers_ok m → heap_iter (tm_heap m) ≡ₚ e :: heap_iter h → round_change e next m m' h →
  entry_times now (tm_crons m) e =
    ten_fire_ms e :: (option_list ((λ n, mkTimerEntry n (ten_key e) CronTimer) <$> next)
                        ≫= entry_times now (tm_crons m')) →
  due_events now m ≡ₚ mkTimerEvent (ten_key e) (ten_fire_ms e) :: due_events now m'.
Proof.
  intros [_ Hkeys] Hp [Hh Hcrons Hnext] Ht. unfold cron_keys in Hkeys.
  rewrite Hp, filter_cons in Hkeys.
  assert (heap_iter h ≫= entry_events now (tm_crons m') =
          heap_iter h ≫= entry_events now (tm_crons m)) as Hrest.
  { destruct Hcrons as [->|[Hc ->]]; [done|]. rewrite decide_True in Hkeys by done.
    apply NoDup_cons in Hkeys as [Hni _]. by apply drop_cron_events. }
  rewrite Hp, Hh, bind_app, Hrest. simpl. unfold entry_events at 1. rewrite Ht. simpl.
  destruct next as [n|]; simpl; [|done]. by rewrite !app_nil_r.
Qed.

(** One round of the loop. *)
Lemma after_fire_spec now e h m :
  timers_dated m → heap_iter (tm_heap m) ≡ₚ e :: heap_iter h → ten_fire_ms e ≤ now →
  ∃ m' next, TimerManager.after_fire e (m <| tm_heap := h |>) = Returns m' ∧
    round_change e next m m' h ∧
    entry_times now (tm_crons m) e =
      ten_fire_ms e :: (option_list ((λ n, mkTimerEntry n (ten_key e) CronTimer) <$> next)
                          ≫= entry_times now (tm_crons m')).
Proof.
  intros Hok Hp Hle. unfold TimerManager.after_fire, entry_times at 1. cbn [tm_crons set_field].
  assert (∀ m', tm_crons m' = tm_crons m → tm_heap m' = h → round_change e None m m' h) as Hskip.
  { intros m' ? Hh. split; [by rewrite Hh|by left|done]. }
  destruct (ten_kind e) eqn:Hk; [|destruct (tm_crons m !! ten_key e) as [ce|] eqn:Hce].
  - exists (m <| tm_heap := h |>), None. rewrite (proj2 (Z.leb_le _ _) Hle). auto.
  - assert (timestamp_ok (ten_fire_ms e) = true) as Hd.
    { apply Hok; [|done]. rewrite Hp. by left. }
    rewrite cron_after_returns, cron_upto_unfold by done. simpl.
    destruct (cron_next (ce_schedule ce) (ten_fire_ms e)) as [n|] eqn:Hn; cycle 1.
    { exists (m <| tm_heap := h |> <| tm_crons := delete (ten_key e) (tm_crons m) |>), None.
      split; [done|]. split; [split; [done|by right|done]|done]. }
    destruct (end_allows (ce_end_ms ce) n); cycle 1.
    { exists (m <| tm_heap := h |> <| tm_crons := delete (ten_key e) (tm_crons m) |>), None.
      split; [done|]. split; [split; [done|by right|done]|done]. }
    exists (m <| tm_heap := heap_push (mkTimerEntry n (ten_key e) CronTimer) h |>), (Some n).
    split; [done|]. split; [split|].
    + simpl. by rewrite heap_iter_push.
    + by left.
    + intros ? [= <-]. split; [done|]. split; [by eapply cron_next_range|by eapply cron_next_later].
    + simpl. unfold entry_times. simpl. by rewrite Hce, app_nil_r.
  - exists (m <| tm_heap := h |>), None. rewrite (proj2 (Z.leb_le _ _) Hle). auto.
Qed.

Lemma drain_loop_exact now rounds m events :
  timers_ok m → (total now m < rounds)%nat →
  ∃ new m', TimerManager.drain_loop rounds now m events = Returns (events ++ new, m') ∧
    timers_ok m' ∧ Forall (λ e, now < ten_fire_ms e) (heap_iter (tm_heap m')) ∧
    new ≡ₚ due_events now m ∧ StronglySorted (λ a b, te_ts_ms a ≤ te_ts_ms b) new.
Proof.
  revert m events. induction rounds as [|rounds IH]; intros m events Hok Hw; [lia|].
  cbn [TimerManager.drain_loop].
  assert (Forall (λ e, now < ten_fire_ms e) (heap_iter (tm_heap m)) →
    ∃ new m', Returns (events, m) = Returns (events ++ new, m') ∧
      timers_ok m' ∧ Forall (λ e, now < ten_fire_ms e) (heap_iter (tm_heap m')) ∧
      new ≡ₚ due_events now m ∧ StronglySorted (λ a b, te_ts_ms a ≤ te_ts_ms b) new) as Hexit.
  { intros Hlate. exists [], m. rewrite app_nil_r. split; [done|]. split; [done|]. split; [done|].
    split; [|constructor]. clear Hw IH. induction Hlate as [|e l He _ IHl]; [done|].
    rewrite bind_cons, <- IHl, app_nil_r. unfold entry_events, entry_times.
    destruct (ten_kind e), (tm_crons m !! ten_key e);
      rewrite ?cron_upto_late, ?(proj2 (Z.leb_gt _ _) He) by done; done. }
  destruct (heap_pop (tm_heap m)) as [[e h]|] eqn:Hpop; cycle 1.
  { apply Hexit. by rewrite (heap_pop_None _ Hpop). }
  destruct (heap_pop_Some _ _ _ Hpop) as [Hp Hmin].
  assert (Forall (λ b, ten_fire_ms e ≤ ten_fire_ms b) (heap_iter (tm_heap m))) as Hge.
  { eapply Forall_impl; [exact Hmin|]. intros b. unfold timer_before. simpl.
    destruct (Z.compare_spec (ten_fire_ms e) (ten_fire_ms b)); [lia|lia|done]. }
  destruct (Z.ltb_spec now (ten_fire_ms e)) as [Hlt|Hle].
  { apply Hexit. eapply Forall_impl; [exact Hge|]. simpl. lia. }
  destruct (after_fire_spec now e h m (tok_dates m Hok) Hp Hle) as (m1 & next & -> & Hrc & Ht).
  destruct (round_change_ok e next m m1 h Hok Hp Hrc) as [Hok1 Hb].
  pose proof (round_change_weight now e next m m1 h Hp Hrc Hle) as Hw1.
  pose proof (round_change_events now e next m m1 h Hok Hp Hrc Ht) as Hev.
  cbn [mbind outcome_bind].
  destruct (IH m1 (events ++ [mkTimerEvent (ten_key e) (ten_fire_ms e)]) Hok1)
    as (new & m' & -> & Hok' & Hlate & Hnew & Hs); [lia|].
  eexists (_ :: new), m'. rewrite <- app_assoc. split; [done|]. split; [done|]. split; [done|].
  split; [by rewrite Hev, Hnew|]. constructor; [done|]. rewrite Hnew. apply Forall_forall.
  intros ev (e' & Hev' & He')%list_elem_of_bind. unfold entry_events in Hev'.
  apply list_elem_of_fmap in Hev' as (t & -> & Ht'). simpl.
  pose proof (entry_times_range now (tm_crons m1) e') as Hr.
  eapply Forall_forall in Hr; [|exact Ht']. specialize (Hb _ Hge).
  eapply Forall_forall in Hb; [|exact He']. simpl in *. lia.
Qed.

(** Dates suffice for the loop to end, whatever the keys. *)
Lemma drain_due_returns now m : timers_dated m →
  returns (TimerManager.drain_due now m) (λ r, timers_dated r.2).
Proof.
  unfold TimerManager.drain_due, TimerManager.drain_rounds.
  fold (weight now). generalize (@nil TimerEvent) as events.
  assert (total now m < S (total now m))%nat as Hw by lia. revert Hw.
  generalize (S (total now m)) as rounds. intros rounds. revert m.
  induction rounds as [|rounds IH]; intros m Hw events Hd; [lia|]. cbn [TimerManager.drain_loop].
  destruct (heap_pop (tm_heap m)) as [[e h]|] eqn:Hpop; [|done].
  destruct (heap_pop_Some _ _ _ Hpop) as [Hp _].
  destruct (Z.ltb_spec now (ten_fire_ms e)) as [_|Hle]; [done|].
  destruct (after_fire_spec now e h m Hd Hp Hle) as (m1 & next & -> & Hrc & _).
  pose proof (round_change_weight now e next m m1 h Hp Hrc Hle).
  cbn [mbind outcome_bind]. apply IH; [lia|]. by eapply round_change_dated.
Qed.

(** ** Reachable managers *)

(** Managers built by subscriptions and drains in which a cron key is not
    subscribed again while it is pending. *)
Inductive timers_reachable : TimerManager → Prop :=
| timers_new : timers_reachable TimerManager.new
| timers_once key fire m :
    timers_reachable m → timers_reachable (TimerManager.subscribe_once_at key fire m)
| timers_cron key expr start end_ms m m' :
    timers_reachable m → key ∉ cron_keys m →
    TimerManager.subscribe_cron key expr start end_ms m = Returns m' → timers_reachable m'
| timers_drain now m events m' :
    timers_reachable m → TimerManager.drain_due now m = Returns (events, m') → timers_reachable m'.

Lemma new_dated : timers_dated TimerManager.new.
Proof. intros e. simpl. rewrite heap_iter_new. by intros ?%elem_of_nil. Qed.

Lemma push_dated e m :
  timers_dated m → (is_cron e → timestamp_ok (ten_fire_ms e) = true) →
  ∀ crons, timers_dated (mkTimerManager _ _ crons (heap_push e (tm_heap m))).
Proof.
  intros Hd He crons e'. simpl. rewrite heap_iter_push. intros [->|?]%elem_of_cons; naive_solver.
Qed.

(** A subscription with an expression that parses, from a date [chrono] represents. *)
Lemma subscribe_cron_returns key expr start end_ms m :
  (∃ sch, cron_from_str expr = Ok sch) → timestamp_ok start = true → timers_dated m →
  returns (TimerManager.subscribe_cron key expr start end_ms m) timers_dated.
Proof.
  intros [sch Hs] Ht Hd. unfold TimerManager.subscribe_cron.
  rewrite Hs, cron_after_returns by done. simpl.
  destruct (cron_next sch start) as [n|] eqn:Hn; [|done]. case_match; [done|].
  apply push_dated; [done|]. intros _. by eapply cron_next_range.
Qed.

Lemma push_ok e m :
  timers_ok m → (is_cron e → timestamp_ok (ten_fire_ms e) = true ∧ ten_key e ∉ cron_keys m) →
  ∀ crons, timers_ok (mkTimerManager _ _ crons (heap_push e (tm_heap m))).
Proof.
  intros [Hd Hk] He crons. split; [apply push_dated; naive_solver|].
  unfold cron_keys in *. simpl. rewrite heap_iter_push, filter_cons. case_decide; [|done].
  apply NoDup_cons. naive_solver.
Qed.

Lemma drain_due_exact now m : timers_ok m →
  ∃ new m', TimerManager.drain_due now m = Returns (new, m') ∧
    timers_ok m' ∧ Forall (λ e, now < ten_fire_ms e) (heap_iter (tm_heap m')) ∧
    new ≡ₚ due_events now m ∧ StronglySorted (λ a b, te_ts_ms a ≤ te_ts_ms b) new.
Proof.
  intros Hok. unfold TimerManager.drain_due.
  destruct (drain_loop_exact now (TimerManager.drain_rounds now m) m [] Hok) as (new & m' & E & Hs);
    [unfold TimerManager.drain_rounds, weight; lia|].
  by exists new, m'.
Qed.

Lemma reachable_timers m : timers_reachable m → timers_ok m.
Proof.
  induction 1 as [|key fire m _ IH|key expr start end_ms m m' _ IH Hni E|now m events m' _ IH E].
  - split; [apply new_dated|]. unfold cron_keys. simpl. rewrite heap_iter_new. constructor.
  - by apply push_ok.
  - unfold TimerManager.subscribe_cron in E. destruct (cron_from_str expr) as [sch|]; [|done].
    unfold cron_after in E. destruct (timestamp_ok start); [|done]. simpl in E.
    apply returns_inj in E as <-. destruct (cron_next sch start) as [n|] eqn:Hn; [|done].
    destruct (match end_ms with Some _ => _ | None => _ end); [done|].
    apply push_ok; [done|]. intros _. split; [by eapply cron_next_range|done].
  - destruct (drain_due_exact now m IH) as (new & m'' & E' & Hok & _). rewrite E' in E.
    by simplify_eq.
Qed.

(** Draining a reachable timer manager returns, and the events are, in
    time order, exactly the due ones: each due one-shot timer once, and each
    occurrence of a cron timer from its pending one up to the drain time and
    its end once ([cron_upto]); no timer that is due is left. *)
Theorem timer_drain_exact now m : timers_reachable m →
  ∃ events m', TimerManager.drain_due now m = Returns (events, m') ∧
    events ≡ₚ heap_iter (tm_heap m) ≫= entry_events now (tm_crons m) ∧
    StronglySorted (λ a b, te_ts_ms a ≤ te_ts_ms b) events ∧
    Forall (λ e, now < ten_fire_ms e) (heap_iter (tm_heap m')).
Proof.
  intros Hok%reachable_timers.
  destruct (drain_due_exact now m Hok) as (events & m' & E & _ & Hlate & Hev & Hs).
  by exists events, m'.
Qed.
End timers.

(** ** A manager with a one-shot and a cron timer *)

Lemma timer_before_total a b : timer_before a b = true ∨ timer_before b a = true.
Proof.
  unfold timer_before. destruct (Z.compare_spec (ten_fire_ms a) (ten_fire_ms b)) as [E|?|?].
  - rewrite E, Z.compare_refl, (String.compare_antisym (ten_key b)).
    destruct (String.compare _ _); simpl; auto. destruct (ten_kind a), (ten_kind b); auto.
  - by left.
  - right. by rewrite (proj2 (Z.compare_lt_iff _ _)).
Qed.

Lemma timer_before_trans a b c :
  timer_before a b = true → timer_before b c = true → timer_before a c = true.
Proof.
  unfold timer_before.
  destruct (Z.compare_spec (ten_fire_ms a) (ten_fire_ms b)); try done;
  destruct (Z.compare_spec (ten_fire_ms b) (ten_fire_ms c)); try done;
  destruct (Z.compare_spec (ten_fire_ms a) (ten_fire_ms c)); try done; try lia.
  destruct (str_compare_spec (ten_key a) (ten_key b)) as [Hab|Hab|]; try done;
  destruct (str_compare_spec (ten_key b) (ten_key c)) as [Hbc|Hbc|]; try done.
  - rewrite Hab, Hbc, str_compare_refl. by destruct (ten_kind a), (ten_kind b), (ten_kind c).
  - by rewrite Hab, Hbc.
  - by rewrite <- Hbc, Hab.
  - by rewrite (str_lt_trans _ _ _ Hab Hbc).
Qed.

Definition demo_timer_heap : BinaryHeap TimerEntry := sorted_heap timer_before.
Lemma demo_timer_heap_ok : @BinaryHeapOk _ demo_timer_heap timer_before.
Proof. apply sorted_heap_ok; [apply timer_before_total|apply timer_before_trans]. Qed.

Section demo.
#[local] Existing Instances demo_cron demo_timer_heap.

(** A cron timer of one-second period, subscribed [n] times under one key. *)
Fixpoint subscribed (n : nat) : TimerManager :=
  match n with
  | O => TimerManager.subscribe_once_at "wake" 1500 TimerManager.new
  | S n =>
      match TimerManager.subscribe_cron "bar" "* * * * * *" 0 None (subscribed n) with
      | Returns m => m
      | Panics _ => TimerManager.new
      end
  end.

Definition drain_times (key : string) (now : Z) (m : TimerManager) : list Z :=
  match TimerManager.drain_due now m with
  | Returns (events, _) => te_ts_ms <$> filter (λ ev, te_timer_key ev = key) events
  | Panics _ => []
  end.

Lemma timer_drain_exact_witness :
  ∃ events m', TimerManager.drain_due 2500 (subscribed 1) = Returns (events, m') ∧
    te_ts_ms <$> events = [1000; 1500; 2000].
Proof.
  destruct (@timer_drain_exact _ demo_cron_ok _ demo_timer_heap_ok 2500 (subscribed 1))
    as (events & m' & E & _).
  - apply (timers_cron "bar" "* * * * * *" 0 None (subscribed 0)).
    + apply timers_once, timers_new.
    + vm_compute. by intros ?%elem_of_nil.
    + reflexivity.
  - exists events, m'. split; [exact E|].
    assert ((match TimerManager.drain_due 2500 (subscribed 1) with
             | Returns (events, _) => te_ts_ms <$> events
             | Panics _ => []
             end) = [1000; 1500; 2000]) as Ht by (vm_compute; reflexivity).
    by rewrite E in Ht.
Defined.

(** Subscribing a pending cron key again leaves both heap entries, so every
    occurrence fires twice. *)
Theorem resubscribed_cron_fires_twice :
  drain_times "bar" 2500 (subscribed 1) = [1000; 2000] ∧
  drain_times "bar" 2500 (subscribed 2) = [1000; 1000; 2000; 2000].
Proof. split; vm_compute; reflexivity. Qed.
End demo.
