(* ===== verification/Simulator.v ===== *)
(** * The exchange simulator ([zk-sim-core])

    [SimulatorCore] keeps the orders in flight and the latest tick of each
    instrument, matches orders through a [MatchPolicy] and answers with order
    reports.  Exchange references and trade ids are random UUIDs of the [uuid]
    crate: [uuid k] is the [k]-th one drawn, and the simulator state counts the
    draws.  Timestamps are [i64] and wrap as in a release build. *)

From S2P Require Import Prelude F64 Proto Rtmd.

(** ** [models.rs] *)

Record SimOrder : Type := mkSimOrder {
  sim_req : SendOrderRequest;
  sim_exch_order_id : string;
  sim_filled_qty : f64;
  sim_remaining_qty : f64;
  sim_update_ts : Z;
}.
#[export] Instance eta_SimOrder : Eta SimOrder := λ r,
  mkSimOrder (sim_req r) (sim_exch_order_id r) (sim_filled_qty r) (sim_remaining_qty r)
    (sim_update_ts r).

Record MatchResult : Set := mkMatchResult {
  mr_trigger_ts : Z;
  mr_qty : f64;
  mr_price : f64;
  mr_delay_ms : Z;
  mr_ioc_cancel : bool;
}.

Record SimResult : Set := mkSimResult {
  sr_ts_ms : Z;
  sr_order_report : OrderReport;
}.

(** ** [match_policy.rs] *)

(** The [MatchPolicy] trait. *)
Record MatchPolicy : Type := mkMatchPolicy {
  match_order : SimOrder → option TickData → list MatchResult;
  need_tick : bool;
}.

Definition ImmediateMatchPolicy : MatchPolicy := {|
  match_order order _ :=
    [mkMatchResult (wrap_i64 (gwreq_timestamp (sim_req order) + 1)) (sim_remaining_qty order)
       (gwreq_scaled_price (sim_req order)) 0 false];
  need_tick := false;
|}.

(** Walk the levels of the opposite side, taking from each level whose price
    the limit [accepts]. *)
Fixpoint walk_levels (accepts : f64 → bool) (ts : Z) (levels : list PriceLevel) (remaining : f64)
    (delay : Z) : list MatchResult :=
  match levels with
  | [] => []
  | level :: levels =>
      if f64.leb remaining f64.zero then []
      else if accepts (pl_price level) then
        let fill_qty := f64.min remaining (pl_qty level) in
        mkMatchResult ts fill_qty (pl_price level) delay false ::
          walk_levels accepts ts levels (f64.sub remaining fill_qty) (wrap_i64 (delay + 10))
      else walk_levels accepts ts levels remaining delay
  end.

Definition FirstComeFirstServedMatchPolicy : MatchPolicy := {|
  match_order order tick :=
    match tick with
    | None => []
    | Some tick =>
        let limit_price := gwreq_scaled_price (sim_req order) in
        if gwreq_buysell_type (sim_req order) =? BsBuy then
          walk_levels (λ p, f64.leb p limit_price) (td_original_timestamp tick)
            (td_sell_price_levels tick) (sim_remaining_qty order) 10
        else
          walk_levels (λ p, f64.leb limit_price p) (td_original_timestamp tick)
            (td_buy_price_levels tick) (sim_remaining_qty order) 10
    end;
  need_tick := true;
|}.

(** ** [simulator.rs] *)

Record SimulatorCore : Type := mkSimulatorCore {
  sim_match_policy : MatchPolicy;
  sim_order_cache : gmap Z SimOrder;
  sim_orderbook_cache : gmap string TickData;
  sim_exch_name : string;
  sim_drawn : nat;
}.
#[export] Instance eta_SimulatorCore : Eta SimulatorCore := λ r,
  mkSimulatorCore (sim_match_policy r) (sim_order_cache r) (sim_orderbook_cache r)
    (sim_exch_name r) (sim_drawn r).

(** Report builders. *)
Definition make_state_entry_with_status (order : SimOrder) (status : ExchangeOrderStatus)
    : OrderReportEntry :=
  mkOrderReportEntry (OrderReportType_i32 OrderRepTypeState)
    (Some (ROrderStateReport
      (default_OrderStateReport
         <| osr_exch_order_status := ExchangeOrderStatus_i32 status |>
         <| osr_filled_qty := sim_filled_qty order |>
         <| osr_unfilled_qty := sim_remaining_qty order |>))).

Definition make_state_entry (order : SimOrder) : OrderReportEntry :=
  make_state_entry_with_status order
    (if f64.leb (sim_remaining_qty order) f64.zero then ExchOrderStatusFilled
     else ExchOrderStatusBooked).

Definition make_state_entry_cancelled (order : SimOrder) : OrderReportEntry :=
  make_state_entry_with_status order ExchOrderStatusCancelled.

Definition sim_linkage_entry (order : SimOrder) : OrderReportEntry :=
  mkOrderReportEntry (OrderReportType_i32 OrderRepTypeLinkage)
    (Some (ROrderIdLinkageReport
      (mkOrderIdLinkageReport (sim_exch_order_id order) (gwreq_correlation_id (sim_req order))))).

Definition report_of (order_id : Z) (exch_ref : string) (ts : Z) (entries : list OrderReportEntry)
    : OrderReport :=
  default_OrderReport <| rep_order_id := order_id |> <| rep_exch_order_ref := exch_ref |>
    <| rep_update_timestamp := ts |> <| rep_order_report_entries := entries |>.

Definition make_rejected_report (order_id : Z) (exch_id : string) (ts : Z) : OrderReport :=
  report_of order_id exch_id ts
    [mkOrderReportEntry (OrderReportType_i32 OrderRepTypeExec)
       (Some (RExecReport (default_ExecReport <| exr_exec_type := ExchExecType_i32 ExchRejected |>)))].

Definition make_booked_report (order : SimOrder) (ts : Z) : SimResult :=
  mkSimResult ts
    (report_of (gwreq_correlation_id (sim_req order)) (sim_exch_order_id order) ts
       [sim_linkage_entry order; make_state_entry order]).

Definition make_cancelled_report (order : SimOrder) (ts : Z) : OrderReport :=
  report_of (gwreq_correlation_id (sim_req order)) (sim_exch_order_id order) ts
    [make_state_entry_cancelled order].

Definition sim_trade_entry (order : SimOrder) (m : MatchResult) (trade_id : string) (ts : Z)
    : OrderReportEntry :=
  mkOrderReportEntry (OrderReportType_i32 OrderRepTypeTrade)
    (Some (RTradeReport
      (default_TradeReport <| trr_exch_trade_id := trade_id |> <| trr_filled_qty := mr_qty m |>
         <| trr_filled_price := mr_price m |> <| trr_filled_ts := ts |>
         <| trr_order_info := Some
              (default_OrderInfo <| oi_instrument := gwreq_instrument (sim_req order) |>
                 <| oi_buy_sell_type := gwreq_buysell_type (sim_req order) |>) |>))).

(** A match applied to an order: the order after it and the report. *)
Definition apply_match (trade_id : string) (m : MatchResult) (add_linkage : bool)
    (order : SimOrder) : SimResult * SimOrder :=
  let ts := Z.max (wrap_i64 (mr_trigger_ts m + mr_delay_ms m)) (wrap_i64 (sim_update_ts order + 1)) in
  let order := mkSimOrder (sim_req order) (sim_exch_order_id order)
                 (f64.add (sim_filled_qty order) (mr_qty m))
                 (f64.sub (sim_remaining_qty order) (mr_qty m)) ts in
  let entries := (if add_linkage then [sim_linkage_entry order] else []) ++
                 [sim_trade_entry order m trade_id ts; make_state_entry order] in
  (mkSimResult ts
     (report_of (gwreq_correlation_id (sim_req order)) (sim_exch_order_id order) ts entries), order).

Module SimulatorCore.
Section simulator.
Context (uuid : nat → string) `{!HashIter Z}.
Implicit Types (s : SimulatorCore) (order : SimOrder).

Definition new (policy : MatchPolicy) (exch_name : string) : SimulatorCore :=
  mkSimulatorCore policy ∅ ∅ exch_name 0.

Definition validate (req : SendOrderRequest) : bool :=
  f64.ltb f64.zero (gwreq_scaled_qty req) && f64.leb f64.zero (gwreq_scaled_price req).

(** Apply matches in order, until nothing remains; [drawn] UUIDs so far. *)
Fixpoint apply_matches (matches : list MatchResult) (add_linkage : bool) (drawn : nat)
    (order : SimOrder) : list SimResult * SimOrder * nat :=
  match matches with
  | [] => ([], order, drawn)
  | m :: matches =>
      let '(res, order) := apply_match (uuid drawn) m add_linkage order in
      if f64.leb (sim_remaining_qty order) f64.zero then ([res], order, S drawn)
      else
        let '(results, order, drawn) := apply_matches matches add_linkage (S drawn) order in
        (res :: results, order, drawn)
  end.

Definition on_new_order_inner (req : SendOrderRequest) (ts : Z) (book_only : bool)
    (s : SimulatorCore) : list SimResult * SimulatorCore :=
  if negb (validate req) then
    ([mkSimResult ts (make_rejected_report (gwreq_correlation_id req) (uuid (sim_drawn s)) ts)],
     s <| sim_drawn ::= S |>)
  else
    let sim_order := mkSimOrder req (uuid (sim_drawn s)) f64.zero (gwreq_scaled_qty req) ts in
    let matches :=
      if book_only then []
      else match_order (sim_match_policy s) sim_order
             (sim_orderbook_cache s !! gwreq_instrument req) in
    let booked := make_booked_report sim_order ts in
    let '(results, sim_order, drawn) := apply_matches matches true (S (sim_drawn s)) sim_order in
    (booked :: results,
     s <| sim_order_cache := <[gwreq_correlation_id req := sim_order]> (sim_order_cache s) |>
       <| sim_drawn := drawn |>).

Definition on_new_order (req : SendOrderRequest) (ts : Z) (s : SimulatorCore)
    : list SimResult * SimulatorCore :=
  on_new_order_inner req ts false s.
Definition on_new_order_book_only (req : SendOrderRequest) (ts : Z) (s : SimulatorCore)
    : list SimResult * SimulatorCore :=
  on_new_order_inner req ts true s.

Definition update_orderbook (tick : TickData) (s : SimulatorCore) : SimulatorCore :=
  s <| sim_orderbook_cache := <[td_instrument_code tick := tick]> (sim_orderbook_cache s) |>.

(** The ids of the open orders on an instrument. *)
Definition active_ids (sym : string) (s : SimulatorCore) : list Z :=
  gwreq_correlation_id ∘ sim_req <$>
    filter (λ o, gwreq_instrument (sim_req o) = sym ∧
                 f64.ltb f64.zero (sim_remaining_qty o) = true)
      (hash_iter (sim_order_cache s)).*2.

(** Match one open order against the tick. *)
Definition match_active (tick : TickData) (acc : list SimResult * SimulatorCore) (id : Z)
    : outcome (list SimResult * SimulatorCore) :=
  let '(results, s) := acc in
  order ← unwrap "order_cache.get_mut(id)" (sim_order_cache s !! id);
  let matches := match_order (sim_match_policy s) order (Some tick) in
  let '(new, order, drawn) := apply_matches matches false (sim_drawn s) order in
  Returns (results ++ new,
           s <| sim_order_cache := <[id := order]> (sim_order_cache s) |> <| sim_drawn := drawn |>).

Definition on_tick (tick : TickData) (s : SimulatorCore)
    : outcome (list SimResult * SimulatorCore) :=
  let s := update_orderbook tick s in
  let ids := active_ids (td_instrument_code tick) s in
  tick ← unwrap "orderbook_cache.get(&sym)" (sim_orderbook_cache s !! td_instrument_code tick);
  for_each (match_active tick) ids ([], s).

Definition on_cancel (req : CancelOrderRequest) (ts : Z) (s : SimulatorCore)
    : list SimResult * SimulatorCore :=
  match sim_order_cache s !! gwcan_order_id req with
  | Some order =>
      if f64.ltb f64.zero (sim_remaining_qty order) then
        let order := mkSimOrder (sim_req order) (sim_exch_order_id order) (sim_filled_qty order)
                       f64.zero (wrap_i64 (ts + 1)) in
        ([mkSimResult (wrap_i64 (ts + 1)) (make_cancelled_report order (wrap_i64 (ts + 1)))],
         s <| sim_order_cache := <[gwcan_order_id req := order]> (sim_order_cache s) |>)
      else ([], s)
  | None => ([], s)
  end.

Definition force_match_order (order_id : Z) (fill_qty fill_price : option f64) (ts : Z)
    (s : SimulatorCore) : result (list SimResult) message * SimulatorCore :=
  match sim_order_cache s !! order_id with
  | None => (Err [Lit ("order " +:+ display_i64 order_id +:+ " not found")], s)
  | Some order =>
      if f64.leb (sim_remaining_qty order) f64.zero then
        (Err [Lit ("order " +:+ display_i64 order_id +:+ " has no remaining quantity")], s)
      else
        let qty := default (sim_remaining_qty order) fill_qty in
        if f64.leb qty f64.zero || f64.ltb (sim_remaining_qty order) qty then
          (Err [Lit "invalid fill_qty "; DispF64 qty; Lit ": remaining is ";
                DispF64 (sim_remaining_qty order)], s)
        else
          let price := default (gwreq_scaled_price (sim_req order)) fill_price in
          let is_first := f64.eqb (sim_filled_qty order) f64.zero in
          let '(res, order) :=
            apply_match (uuid (sim_drawn s)) (mkMatchResult ts qty price 0 false) is_first order in
          (Ok [res],
           s <| sim_order_cache := <[order_id := order]> (sim_order_cache s) |>
             <| sim_drawn ::= S |>)
  end.

Definition clear_orders (s : SimulatorCore) : SimulatorCore :=
  s <| sim_order_cache := ∅ |> <| sim_orderbook_cache := ∅ |>.
End simulator.
End SimulatorCore.
