(* ===== verification/SimFacts.v ===== *)
(** * What the simulated exchange guarantees

    Quantities are on a grid [g] (see [F64Grid]).  A match policy promises not
    to match more than an order's remaining quantity ([MatchPolicyOk]); both
    policies of the crate keep the promise.  The simulator then never overfills
    an order, and what it reports is what it holds. *)

From S2P Require Import Prelude F64 F64Grid Proto Rtmd Simulator.

(** ** The simulator does not panic *)

(** Orders are stored under their own ids. *)
Definition sim_keyed (s : SimulatorCore) : Prop :=
  ∀ id o, sim_order_cache s !! id = Some o → gwreq_correlation_id (sim_req o) = id.

Section simulator.
Context (uuid : nat → string) `{!HashIter Z, !HashIterOk Z}.

Lemma apply_matches_req matches link drawn o :
  sim_req (SimulatorCore.apply_matches uuid matches link drawn o).1.2 = sim_req o.
Proof.
  revert drawn o. induction matches as [|m matches IH]; intros drawn o; [done|].
  cbn [SimulatorCore.apply_matches]. destruct (apply_match _ _ _ _) as [res o'] eqn:E.
  assert (sim_req o' = sim_req o) as Ho.
  { unfold apply_match in E. by injection E as _ <-. }
  case_match; [done|]. specialize (IH (S drawn) o').
  destruct (SimulatorCore.apply_matches uuid matches link (S drawn) o') as [[? ?] ?].
  simpl in *. congruence.
Qed.

Lemma keyed_insert s id o f :
  sim_keyed s → gwreq_correlation_id (sim_req o) = id →
  sim_keyed (s <| sim_order_cache := <[id := o]> (sim_order_cache s) |> <| sim_drawn := f |>).
Proof. intros Hk Ho id' o'. simpl. intros [[<- <-]|[_ ?]]%lookup_insert_Some; auto. Qed.

Lemma match_active_keyed tick results s id :
  sim_keyed s → is_Some (sim_order_cache s !! id) →
  returns (SimulatorCore.match_active uuid tick (results, s) id) (λ r,
    sim_keyed r.2 ∧ ∀ id', is_Some (sim_order_cache s !! id') → is_Some (sim_order_cache r.2 !! id')).
Proof.
  intros Hk [o Ho]. unfold SimulatorCore.match_active. rewrite Ho. simpl.
  pose proof (apply_matches_req (match_order (sim_match_policy s) o (Some tick)) false
                (sim_drawn s) o) as Hreq.
  destruct (SimulatorCore.apply_matches uuid _ false (sim_drawn s) o) as [[new o'] drawn].
  simpl in *. split; [apply keyed_insert; [done|]; rewrite Hreq; by apply Hk|].
  intros id' ?. simpl. destruct (decide (id = id')) as [->|]; [by rewrite lookup_insert_eq|].
  by rewrite lookup_insert_ne.
Qed.

Lemma on_tick_keyed tick s :
  sim_keyed s → returns (SimulatorCore.on_tick uuid tick s) (λ r, sim_keyed r.2).
Proof.
  intros Hk. unfold SimulatorCore.on_tick. set (s1 := SimulatorCore.update_orderbook tick s).
  replace (sim_orderbook_cache s1 !! td_instrument_code tick) with (Some tick)
    by (simpl; by rewrite lookup_insert_eq). simpl.
  assert (Forall (λ id, is_Some (sim_order_cache s1 !! id))
            (SimulatorCore.active_ids (td_instrument_code tick) s1)) as Hids.
  { apply Forall_fmap, Forall_forall. intros o [_ Ho]%list_elem_of_filter.
    apply list_elem_of_fmap in Ho as ([id o'] & -> & Hio). apply elem_of_hash_iter in Hio.
    simpl. rewrite (Hk id o' Hio). by exists o'. }
  assert (∀ ids results s', Forall (λ id, is_Some (sim_order_cache s' !! id)) ids → sim_keyed s' →
    returns (for_each (SimulatorCore.match_active uuid tick) ids (results, s'))
      (λ r, sim_keyed r.2)) as Hloop; [|by apply Hloop].
  induction ids as [|id ids IH]; intros results s' Hall Hi; cbn [for_each]; [done|].
  apply Forall_cons in Hall as [Hid Hall]. apply returns_bind.
  eapply returns_mono; [by apply match_active_keyed|]. intros [results' s2] [Hk2 Hdom].
  apply IH; [|done]. eapply Forall_impl; [exact Hall|]. auto.
Qed.

Lemma on_new_order_inner_keyed req ts book_only s :
  sim_keyed s → sim_keyed (SimulatorCore.on_new_order_inner uuid req ts book_only s).2.
Proof.
  intros Hk. unfold SimulatorCore.on_new_order_inner.
  destruct (negb _); [done|]. set (o := mkSimOrder _ _ _ _ _).
  set (ms := if book_only then _ else _).
  pose proof (apply_matches_req ms true (S (sim_drawn s)) o) as Hreq.
  destruct (SimulatorCore.apply_matches uuid ms true (S (sim_drawn s)) o) as [[new o'] drawn].
  apply keyed_insert; [done|]. simpl in Hreq. by rewrite Hreq.
Qed.
Lemma on_new_order_keyed req ts s :
  sim_keyed s → sim_keyed (SimulatorCore.on_new_order uuid req ts s).2.
Proof. apply on_new_order_inner_keyed. Qed.

Lemma force_match_order_keyed id qty price ts s :
  sim_keyed s → sim_keyed (SimulatorCore.force_match_order uuid id qty price ts s).2.
Proof.
  intros Hk. unfold SimulatorCore.force_match_order.
  destruct (sim_order_cache s !! id) as [o|] eqn:Ho; [|done].
  destruct (f64.leb _ _); [done|]. cbv zeta. destruct (f64.leb _ _ || _); [done|].
  apply (keyed_insert s id); [done|]. exact (Hk id o Ho).
Qed.

Lemma on_cancel_keyed req ts s : sim_keyed s → sim_keyed (SimulatorCore.on_cancel req ts s).2.
Proof.
  intros Hk. unfold SimulatorCore.on_cancel.
  destruct (sim_order_cache s !! _) as [o|] eqn:Ho; [|done]. case_match; [|done].
  intros id' o'. simpl. intros [[<- <-]|[_ ?]]%lookup_insert_Some; [by apply (Hk _ o)|auto].
Qed.
End simulator.

Section sim.
Context (g : Z) (Hg : grid_ok g).

(** ** Market data and match policies *)

Definition level_ok (l : PriceLevel) : Prop := ∃ q, on_grid g q (pl_qty l) ∧ 0 ≤ q.
Definition tick_ok (t : TickData) : Prop :=
  Forall level_ok (td_buy_price_levels t) ∧ Forall level_ok (td_sell_price_levels t).

(** The matched quantities of a policy, in grid units. *)
Definition matches_as (qs : list Z) (matches : list MatchResult) : Prop :=
  Forall2 (on_grid g) qs (mr_qty <$> matches) ∧ Forall (λ q, 0 ≤ q) qs.

Class MatchPolicyOk (p : MatchPolicy) : Prop :=
  policy_fills order tick r :
    on_grid g r (sim_remaining_qty order) → 0 ≤ r → from_option tick_ok True tick →
    ∃ qs, matches_as qs (match_order p order tick) ∧ Zsum qs ≤ r.

#[global] Instance ImmediateMatchPolicy_ok : MatchPolicyOk ImmediateMatchPolicy.
Proof.
  intros order tick r Hr Hpos _. exists [r]. split; [|simpl; lia].
  split; repeat constructor; done.
Qed.

(** The liquidity the limit accepts. *)
Definition eligible (accepts : f64 → bool) (levels : list PriceLevel) : list PriceLevel :=
  filter (λ l, accepts (pl_price l) = true) levels.

(** Walking the levels fills as much as the limit and the book allow, at
    accepted prices. *)
Lemma walk_levels_spec accepts ts levels remaining delay r ls :
  on_grid g r remaining → 0 ≤ r →
  Forall2 (λ q l, on_grid g q (pl_qty l) ∧ 0 ≤ q) ls (eligible accepts levels) →
  let matches := walk_levels accepts ts levels remaining delay in
  ∃ qs, matches_as qs matches ∧ Zsum qs = Z.min r (Zsum ls) ∧
    Forall (λ m, accepts (mr_price m) = true ∧ mr_trigger_ts m = ts) matches.
Proof.
  revert remaining delay r ls. induction levels as [|l levels IH]; intros remaining delay r ls Hr Hpos Hls.
  { exists []. apply Forall2_nil_inv_r in Hls as ->. repeat constructor. simpl. lia. }
  assert (Forall (λ q, 0 ≤ q) ls) as Hlsn.
  { clear -Hls. induction Hls; constructor; naive_solver. }
  cbn [walk_levels]. rewrite (grid_leb g r 0) by done.
  destruct (Z.leb_spec r 0).
  { exists []. pose proof (Zsum_nonneg ls Hlsn). repeat constructor. simpl. lia. }
  unfold eligible in Hls. rewrite filter_cons in Hls.
  destruct (accepts (pl_price l)) eqn:Ha; cycle 1.
  { rewrite decide_False in Hls by done. by apply IH. }
  rewrite decide_True in Hls by done. apply Forall2_cons_inv_r in Hls as (q & ls' & [Hq Hq0] & Hls & ->).
  apply Forall_cons in Hlsn as [_ Hlsn]. pose proof (Zsum_nonneg ls' Hlsn).
  pose proof (grid_min g r q _ _ Hr Hq) as Hmin.
  assert (on_grid g (r - Z.min r q) (remaining - f64.min remaining (pl_qty l))%f64) as Hrest.
  { apply grid_sub; [done..|]. apply (on_grid_fits g) in Hr. unfold fits in *. lia. }
  destruct (IH _ (wrap_i64 (delay + 10)) _ ls' Hrest ltac:(lia) Hls) as (qs & [Hqs Hqn] & Hsum & Hacc).
  exists (Z.min r q :: qs). split; [split|split].
  - by constructor.
  - constructor; [lia|done].
  - cbn [Zsum foldr]. fold (Zsum qs) (Zsum ls'). lia.
  - by constructor.
Qed.

Lemma eligible_grid accepts levels : Forall level_ok levels →
  ∃ ls, Forall2 (λ q l, on_grid g q (pl_qty l) ∧ 0 ≤ q) ls (eligible accepts levels).
Proof.
  induction 1 as [|l levels (q & Hq & Hq0) _ [ls IH]]; [by exists []|].
  unfold eligible in *. rewrite filter_cons. case_decide; [exists (q :: ls); by constructor|by exists ls].
Qed.

#[global] Instance FirstComeFirstServedMatchPolicy_ok : MatchPolicyOk FirstComeFirstServedMatchPolicy.
Proof.
  intros order [tick|] r Hr Hpos Htick; [|by exists []]. destruct Htick as [Hbuy Hsell]. simpl.
  destruct (_ =? BsBuy).
  - destruct (eligible_grid (λ p, f64.leb p (gwreq_scaled_price (sim_req order))) _ Hsell) as [ls Hls].
    destruct (walk_levels_spec _ (td_original_timestamp tick) _ _ 10 r ls Hr Hpos Hls)
      as (qs & Hqs & Hsum & _). exists qs. split; [done|lia].
  - destruct (eligible_grid (λ p, f64.leb (gwreq_scaled_price (sim_req order)) p) _ Hbuy) as [ls Hls].
    destruct (walk_levels_spec _ (td_original_timestamp tick) _ _ 10 r ls Hr Hpos Hls)
      as (qs & Hqs & Hsum & _). exists qs. split; [done|lia].
Qed.

(** ** What reports say *)

Definition entry_trade (e : OrderReportEntry) : option f64 :=
  match ent_report e with Some (RTradeReport t) => Some (trr_filled_qty t) | _ => None end.
Definition entry_state (e : OrderReportEntry) : option (f64 * f64) :=
  match ent_report e with
  | Some (ROrderStateReport r) => Some (osr_filled_qty r, osr_unfilled_qty r)
  | _ => None
  end.

Definition trades (rs : list SimResult) : list f64 :=
  rs ≫= λ r, omap entry_trade (rep_order_report_entries (sr_order_report r)).
Definition states (rs : list SimResult) : list (f64 * f64) :=
  rs ≫= λ r, omap entry_state (rep_order_report_entries (sr_order_report r)).

(** The results that report on order [id]. *)
Definition about (id : Z) (rs : list SimResult) : list SimResult :=
  filter (λ r, rep_order_id (sr_order_report r) = id) rs.

Definition traded (rs : list SimResult) (n : Z) : Prop :=
  ∃ ps, Forall2 (on_grid g) ps (trades rs) ∧ Zsum ps = n.

Lemma traded_app rs rs' n n' : traded rs n → traded rs' n' → traded (rs ++ rs') (n + n').
Proof.
  intros (ps & Hp & Hn) (ps' & Hp' & Hn'). exists (ps ++ ps'). unfold trades in *.
  rewrite bind_app, Zsum_app. split; [by apply Forall2_app|lia].
Qed.

Lemma traded_nil : traded [] 0.
Proof. by exists []. Qed.

(** ** An order in the book *)

(** [f] units filled and [r] remaining. *)
Definition order_holds (f r : Z) (o : SimOrder) : Prop :=
  on_grid g f (sim_filled_qty o) ∧ on_grid g r (sim_remaining_qty o) ∧
  0 ≤ f ∧ 0 ≤ r ∧ fits (f + r).

Lemma apply_match_spec id m q link o f r :
  order_holds f r o → on_grid g q (mr_qty m) → 0 ≤ q ≤ r →
  let res := apply_match id m link o in
  order_holds (f + q) (r - q) res.2 ∧ sim_req res.2 = sim_req o ∧
  traded [res.1] q ∧ states [res.1] = [(sim_filled_qty res.2, sim_remaining_qty res.2)] ∧
  rep_order_id (sr_order_report res.1) = gwreq_correlation_id (sim_req o).
Proof.
  intros (Hf & Hr & Hf0 & Hr0 & Hfit) Hq Hqr. simpl.
  split; [|split; [done|split; [|split; [by destruct link|done]]]].
  - unfold order_holds. cbn [sim_filled_qty sim_remaining_qty].
    split; [|split; [|split; [lia|split; [lia|]]]].
    + apply grid_add; [done..|]. unfold fits in *. lia.
    + apply grid_sub; [done..|]. unfold fits in *. lia.
    + by replace (f + q + (r - q)) with (f + r) by lia.
  - exists [q]. split; [|simpl; lia]. unfold trades. destruct link; by repeat constructor.
Qed.

(** A sequence of matches: what they fill, report and leave. *)
Lemma apply_matches_spec uuid matches qs link drawn o f r :
  order_holds f r o → matches_as qs matches → Zsum qs ≤ r →
  let '(results, o', drawn') := SimulatorCore.apply_matches uuid matches link drawn o in
  order_holds (f + Zsum qs) (r - Zsum qs) o' ∧ sim_req o' = sim_req o ∧
  traded results (Zsum qs) ∧
  default (sim_filled_qty o, sim_remaining_qty o) (last (states results)) =
    (sim_filled_qty o', sim_remaining_qty o') ∧
  Forall (λ res, rep_order_id (sr_order_report res) = gwreq_correlation_id (sim_req o)) results.
Proof.
  revert qs drawn o f r. induction matches as [|m matches IH]; intros qs drawn o f r Ho [Hqs Hqn] Hsum.
  { apply Forall2_nil_inv_r in Hqs as ->. simpl. rewrite Z.add_0_r, Z.sub_0_r.
    split; [done|]. split; [done|]. split; [apply traded_nil|]. done. }
  apply Forall2_cons_inv_r in Hqs as (q & qs' & Hq & Hqs & ->).
  apply Forall_cons in Hqn as [Hq0 Hqn]. pose proof (Zsum_nonneg qs' Hqn) as Hn.
  cbn [Zsum foldr] in *. fold (Zsum qs') in *.
  destruct (apply_match_spec (uuid drawn) m q link o f r Ho Hq ltac:(lia)) as (Ho1 & Hreq1 & Ht1 & Hs1 & Hid1).
  cbn [SimulatorCore.apply_matches].
  destruct (apply_match (uuid drawn) m link o) as [res o1]. cbn [fst snd] in Ho1, Hreq1, Ht1, Hs1, Hid1.
  rewrite (grid_leb g (r - q) 0) by (done || apply Ho1).
  destruct (Z.leb_spec (r - q) 0) as [Hz|Hz].
  - assert (Zsum qs' = 0) as -> by lia. rewrite Z.add_0_r.
    split; [done|]. split; [done|]. split; [done|]. split; [by rewrite Hs1|by constructor].
  - specialize (IH qs' (S drawn) o1 (f + q) (r - q) Ho1 (conj Hqs Hqn) ltac:(lia)).
    destruct (SimulatorCore.apply_matches uuid matches link (S drawn) o1) as [[results o2] drawn'].
    destruct IH as (Ho2 & Hreq2 & Ht2 & Hs2 & Hid2).
    replace (f + (q + Zsum qs')) with (f + q + Zsum qs') by lia.
    replace (r - (q + Zsum qs')) with (r - q - Zsum qs') by lia.
    split; [done|]. split; [congruence|]. split; [by apply (traded_app [res])|]. split.
    + change (res :: results) with ([res] ++ results). unfold states in *.
      rewrite bind_app, last_app, Hs1. simpl.
      destruct (last (results ≫= _)); simpl in *; done.
    + constructor; [done|]. by rewrite <- Hreq1.
Qed.

(** ** The simulator invariant *)

(** An order of [q] units of which [f] are filled and [r] remain, with the
    results [rs] reported so far. *)
Definition order_ok (rs : list SimResult) (o : SimOrder) : Prop :=
  ∃ q f r, on_grid g q (gwreq_scaled_qty (sim_req o)) ∧ order_holds f r o ∧ (f + r = q ∨ r = 0 ∧ f ≤ q) ∧
    traded rs f ∧ last (states rs) = Some (sim_filled_qty o, sim_remaining_qty o).

Record sim_inv (s : SimulatorCore) (hist : list SimResult) : Prop := {
  sv_policy : MatchPolicyOk (sim_match_policy s);
  sv_ticks sym t : sim_orderbook_cache s !! sym = Some t → tick_ok t;
  sv_id id o : sim_order_cache s !! id = Some o → gwreq_correlation_id (sim_req o) = id;
  sv_order id o : sim_order_cache s !! id = Some o → order_ok (about id hist) o;
  sv_fresh id : sim_order_cache s !! id = None → trades (about id hist) = [];
}.

Lemma about_app id rs rs' : about id (rs ++ rs') = about id rs ++ about id rs'.
Proof. apply filter_app. Qed.

Lemma about_all id rs :
  Forall (λ r, rep_order_id (sr_order_report r) = id) rs → about id rs = rs.
Proof.
  intros H. unfold about. induction H as [|r rs Hr _ IH]; [done|].
  by rewrite filter_cons, decide_True, IH.
Qed.

Lemma about_other id id' rs :
  Forall (λ r, rep_order_id (sr_order_report r) = id) rs → id' ≠ id → about id' rs = [].
Proof.
  intros H Hne. unfold about. induction H as [|r rs Hr _ IH]; [done|].
  rewrite filter_cons, decide_False; [done|congruence].
Qed.

(** Storing an order with results about it only. *)
Lemma inv_insert s hist id o rs drawn :
  sim_inv s hist → gwreq_correlation_id (sim_req o) = id →
  Forall (λ r, rep_order_id (sr_order_report r) = id) rs → order_ok (about id hist ++ rs) o →
  sim_inv (s <| sim_order_cache := <[id := o]> (sim_order_cache s) |> <| sim_drawn := drawn |>)
    (hist ++ rs).
Proof.
  intros [Hp Ht Hid Hord Hfr] Ho Hrs Hok. split; simpl; [done|done|..].
  - intros id' o' [[<- <-]|[_ ?]]%lookup_insert_Some; auto.
  - intros id' o' [[<- <-]|[? ?]]%lookup_insert_Some; rewrite about_app.
    + by rewrite (about_all id rs).
    + rewrite (about_other id id' rs), app_nil_r by done. auto.
  - intros id' [? ?]%lookup_insert_None. rewrite about_app, (about_other id id' rs), app_nil_r by done. auto.
Qed.

Section ops.
Context (uuid : nat → string) `{!HashIter Z, !HashIterOk Z}.

(** Matching an order of the book. *)
Lemma match_order_ok matches qs link drawn o f r q rs0 :
  on_grid g q (gwreq_scaled_qty (sim_req o)) → order_holds f r o → f + r = q ∨ r = 0 ∧ f ≤ q →
  matches_as qs matches → Zsum qs ≤ r → traded rs0 f →
  last (states rs0) = Some (sim_filled_qty o, sim_remaining_qty o) →
  let '(results, o', drawn') := SimulatorCore.apply_matches uuid matches link drawn o in
  order_ok (rs0 ++ results) o' ∧ sim_req o' = sim_req o ∧
  Forall (λ res, rep_order_id (sr_order_report res) = gwreq_correlation_id (sim_req o)) results.
Proof.
  intros Hq Ho Hfr Hqs Hsum Ht Hlast.
  pose proof (apply_matches_spec uuid matches qs link drawn o f r Ho Hqs Hsum) as Hspec.
  destruct (SimulatorCore.apply_matches uuid matches link drawn o) as [[results o'] drawn'].
  destruct Hspec as (Ho' & Hreq & Ht' & Hs' & Hid). split; [|done].
  exists q, (f + Zsum qs), (r - Zsum qs). rewrite Hreq. destruct Hqs as [_ Hqn].
  pose proof (Zsum_nonneg qs Hqn). split; [done|]. split; [done|]. split; [lia|].
  split; [by apply traded_app|]. unfold states in *. rewrite bind_app, last_app, Hlast.
  destruct (last (results ≫= _)); by rewrite <- Hs'.
Qed.

Lemma match_active_inv tick s hist results id :
  sim_inv s (hist ++ results) → tick_ok tick → is_Some (sim_order_cache s !! id) →
  ∃ results' s', SimulatorCore.match_active uuid tick (results, s) id = Returns (results', s') ∧
    sim_inv s' (hist ++ results') ∧
    ∀ id', is_Some (sim_order_cache s !! id') → is_Some (sim_order_cache s' !! id').
Proof.
  intros Hinv Htick [o Ho]. unfold SimulatorCore.match_active. rewrite Ho. simpl.
  destruct (sv_order _ _ Hinv id o Ho) as (q & f & r & Hq & Hh & Hfr & Ht & Hlast).
  destruct (policy_fills (MatchPolicyOk := sv_policy _ _ Hinv) o (Some tick) r)
    as (qs & Hqs & Hsum); [apply Hh|apply Hh|done|].
  pose proof (match_order_ok _ qs false (sim_drawn s) o f r q _ Hq Hh Hfr Hqs Hsum Ht Hlast) as Hm.
  destruct (SimulatorCore.apply_matches uuid _ false (sim_drawn s) o) as [[new o'] drawn'].
  destruct Hm as (Hok & Hreq & Hid). rewrite (sv_id _ _ Hinv id o Ho) in Hid.
  eexists _, _. split; [done|]. split.
  - rewrite app_assoc. apply inv_insert; [done| |done|done].
    rewrite Hreq. by apply (sv_id _ _ Hinv).
  - intros id' ?. simpl. destruct (decide (id = id')) as [->|]; [by rewrite lookup_insert_eq|].
    by rewrite lookup_insert_ne.
Qed.

Lemma on_tick_inv tick s hist :
  sim_inv s hist → tick_ok tick →
  returns (SimulatorCore.on_tick uuid tick s) (λ r, sim_inv r.2 (hist ++ r.1)).
Proof.
  intros Hinv Htick. unfold SimulatorCore.on_tick.
  set (s1 := SimulatorCore.update_orderbook tick s).
  assert (sim_inv s1 (hist ++ [])) as Hinv1.
  { rewrite app_nil_r. split; try apply Hinv. intros sym t. simpl.
    intros [[_ <-]|[_ ?]]%lookup_insert_Some; [done|]. by eapply (sv_ticks _ _ Hinv). }
  replace (sim_orderbook_cache s1 !! td_instrument_code tick) with (Some tick)
    by (simpl; by rewrite lookup_insert_eq). simpl.
  assert (Forall (λ id, is_Some (sim_order_cache s1 !! id))
            (SimulatorCore.active_ids (td_instrument_code tick) s1)) as Hids.
  { apply Forall_fmap, Forall_forall. intros o [_ Ho]%list_elem_of_filter.
    apply list_elem_of_fmap in Ho as ([id o'] & -> & Hio). apply elem_of_hash_iter in Hio.
    simpl. rewrite (sv_id _ _ Hinv1 id o' Hio). by exists o'. }
  assert (∀ ids results s', Forall (λ id, is_Some (sim_order_cache s' !! id)) ids →
    sim_inv s' (hist ++ results) →
    returns (for_each (SimulatorCore.match_active uuid tick) ids (results, s'))
      (λ r, sim_inv r.2 (hist ++ r.1))) as Hloop; [|by apply Hloop].
  induction ids as [|id ids IH]; intros results s' Hall Hi; cbn [for_each]; [done|].
  apply Forall_cons in Hall as [Hid Hall].
  destruct (match_active_inv tick s' hist results id Hi Htick Hid) as (results' & s2 & -> & Hi2 & Hdom).
  cbn [mbind outcome_bind]. apply IH; [|done]. eapply Forall_impl; [exact Hall|]. auto.
Qed.

Lemma on_new_order_inv req ts book_only s hist :
  sim_inv s hist → sim_order_cache s !! gwreq_correlation_id req = None →
  (∃ q, on_grid g q (gwreq_scaled_qty req)) →
  let r := SimulatorCore.on_new_order_inner uuid req ts book_only s in sim_inv r.2 (hist ++ r.1).
Proof.
  intros Hinv Hnew [q Hq]. unfold SimulatorCore.on_new_order_inner.
  destruct (SimulatorCore.validate req) eqn:Hval; simpl; cycle 1.
  { split; simpl; try apply Hinv.
    - intros id o Ho. rewrite about_app, (about_other (gwreq_correlation_id req) id [_]), app_nil_r;
        [by apply (sv_order _ _ Hinv)|by repeat constructor|]. intros ->. congruence.
    - intros id Hid. rewrite about_app. unfold trades. rewrite bind_app.
      pose proof (sv_fresh _ _ Hinv id Hid) as Hf. unfold trades in Hf. rewrite Hf.
      unfold about. rewrite filter_cons. by case_decide. }
  unfold SimulatorCore.validate in Hval. apply andb_true_iff in Hval as [Hpos _].
  rewrite (grid_ltb g 0 q) in Hpos by done. apply Z.ltb_lt in Hpos.
  set (o := mkSimOrder req (uuid (sim_drawn s)) f64.zero (gwreq_scaled_qty req) ts).
  set (matches := if book_only then [] else _).
  assert (∃ qs, matches_as qs matches ∧ Zsum qs ≤ q) as (qs & Hqs & Hsum).
  { subst matches. destruct book_only; [exists []; split; [by split|simpl; lia]|].
    apply (policy_fills (MatchPolicyOk := sv_policy _ _ Hinv)); [done|lia|].
    destruct (sim_orderbook_cache s !! _) eqn:E; [|done]. by eapply (sv_ticks _ _ Hinv). }
  set (booked := make_booked_report o ts).
  pose proof (sv_fresh _ _ Hinv _ Hnew) as Hfresh.
  pose proof (match_order_ok matches qs true (S (sim_drawn s)) o 0 q q
                (about (gwreq_correlation_id req) hist ++ [booked])) as Hm.
  destruct (SimulatorCore.apply_matches uuid matches true (S (sim_drawn s)) o) as [[results o'] drawn'].
  destruct Hm as (Hok & Hreq & Hid); [done| |by left|done|done| | |].
  - split; [done|]. split; [done|]. split; [lia|]. split; [lia|]. by apply (on_grid_fits g) in Hq.
  - apply (traded_app _ [booked] 0 0); [exists []; by rewrite Hfresh|]. by exists [].
  - unfold states. by rewrite bind_app, last_app.
  - cbn [fst snd]. rewrite <- app_assoc in Hok. apply inv_insert; [done|by rewrite Hreq|by constructor|done].
Qed.

Lemma on_cancel_inv req ts s hist :
  sim_inv s hist →
  let r := SimulatorCore.on_cancel req ts s in sim_inv r.2 (hist ++ r.1).
Proof.
  intros Hinv. unfold SimulatorCore.on_cancel.
  destruct (sim_order_cache s !! gwcan_order_id req) as [o|] eqn:Ho; [|by rewrite app_nil_r].
  destruct (f64.ltb f64.zero (sim_remaining_qty o)); [|by rewrite app_nil_r]. simpl.
  destruct (sv_order _ _ Hinv _ o Ho) as (q & f & r & Hq & (Hf & _ & Hf0 & Hr0 & Hfit) & Hfr & Ht & _).
  pose proof (sv_id _ _ Hinv _ o Ho) as Hid.
  set (o' := mkSimOrder _ _ _ _ _). set (rs := [mkSimResult _ _]).
  replace (s <| sim_order_cache := _ |>) with
    (s <| sim_order_cache := <[gwcan_order_id req := o']> (sim_order_cache s) |>
       <| sim_drawn := sim_drawn s |>) by (by destruct s).
  apply inv_insert; [done|done|by repeat constructor|].
  exists q, f, 0. split; [done|]. split; [|split; [lia|split]].
  - split; [done|]. split; [done|]. unfold fits in *. lia.
  - rewrite <- (Z.add_0_r f). apply traded_app; [done|]. by exists [].
  - unfold states. by rewrite bind_app, last_app.
Qed.

(** The cases of [force_match_order] on an order of the book. *)
Lemma force_match_case id fill_qty fill_price ts s o f r n :
  sim_order_cache s !! id = Some o → order_holds f r o →
  on_grid g n (default (sim_remaining_qty o) fill_qty) →
  let res := SimulatorCore.force_match_order uuid id fill_qty fill_price ts s in
  if (0 <? n) && (n <=? r) then
    ∃ o' sr, res = (Ok [sr], s <| sim_order_cache := <[id := o']> (sim_order_cache s) |>
                       <| sim_drawn := S (sim_drawn s) |>) ∧
      order_holds (f + n) (r - n) o' ∧ sim_req o' = sim_req o ∧ traded [sr] n ∧
      states [sr] = [(sim_filled_qty o', sim_remaining_qty o')] ∧
      rep_order_id (sr_order_report sr) = gwreq_correlation_id (sim_req o)
  else ∃ e, res = (Err e, s).
Proof.
  intros Ho Hh Hn. unfold SimulatorCore.force_match_order. rewrite Ho.
  destruct Hh as (Hf & Hr & Hf0 & Hr0 & Hfit) eqn:E. clear E. rewrite (grid_leb g r 0) by done.
  destruct (Z.leb_spec r 0).
  { destruct (Z.ltb_spec 0 n), (Z.leb_spec n r); try lia; by eexists. }
  rewrite (grid_leb g n 0), (grid_ltb g r n) by done.
  destruct (Z.leb_spec n 0), (Z.ltb_spec 0 n); try lia; [by eexists|].
  destruct (Z.ltb_spec r n), (Z.leb_spec n r); try lia; [by eexists|]. cbn [orb andb].
  set (m := mkMatchResult _ _ _ _ _).
  destruct (apply_match_spec (uuid (sim_drawn s)) m n (f64.eqb (sim_filled_qty o) f64.zero) o f r)
    as (Ho' & Hreq & Ht & Hs & Hid); [done|done|lia|].
  destruct (apply_match _ m _ o) as [sr o']. exists o', sr. split; [by destruct s|]. done.
Qed.

Lemma force_match_inv id fill_qty fill_price ts s hist :
  sim_inv s hist → (∀ x, fill_qty = Some x → ∃ n, on_grid g n x) →
  let r := SimulatorCore.force_match_order uuid id fill_qty fill_price ts s in
  sim_inv r.2 (hist ++ match r.1 with Ok rs => rs | Err _ => [] end).
Proof.
  intros Hinv Hqty. destruct (sim_order_cache s !! id) as [o|] eqn:Ho; cycle 1.
  { unfold SimulatorCore.force_match_order. rewrite Ho. simpl. by rewrite app_nil_r. }
  destruct (sv_order _ _ Hinv _ o Ho) as (q & f & r & Hq & Hh & Hfr & Ht & Hlast).
  assert (∃ n, on_grid g n (default (sim_remaining_qty o) fill_qty)) as [n Hn].
  { destruct fill_qty; simpl; [by apply Hqty|]. exists r. apply Hh. }
  pose proof (force_match_case id fill_qty fill_price ts s o f r n Ho Hh Hn) as Hc. cbv zeta in Hc.
  destruct (_ && _) eqn:Hb; [|destruct Hc as [e ->]; simpl; by rewrite app_nil_r].
  destruct Hc as (o' & sr & -> & Hh' & Hreq & Htr & Hst & Hid). simpl.
  pose proof (sv_id _ _ Hinv _ o Ho) as Hi.
  apply inv_insert; [done|congruence|constructor; [congruence|done]|].
  exists q, (f + n), (r - n). rewrite Hreq. split; [done|]. split; [done|]. split; [lia|].
  split; [by apply traded_app|]. unfold states in *. by rewrite bind_app, last_app, Hst.
Qed.

(** ** Reachable simulators *)

(** A run of the simulator and the results it produced: orders have new ids
    and grid quantities, ticks have non-negative grid quantities. *)
Inductive sim_run : SimulatorCore → list SimResult → Prop :=
| run_new policy name : MatchPolicyOk policy → sim_run (SimulatorCore.new policy name) []
| run_order req ts book_only s hist :
    sim_run s hist → sim_order_cache s !! gwreq_correlation_id req = None →
    (∃ q, on_grid g q (gwreq_scaled_qty req)) →
    let r := SimulatorCore.on_new_order_inner uuid req ts book_only s in sim_run r.2 (hist ++ r.1)
| run_book tick s hist :
    sim_run s hist → tick_ok tick → sim_run (SimulatorCore.update_orderbook tick s) hist
| run_tick tick s hist r :
    sim_run s hist → tick_ok tick → SimulatorCore.on_tick uuid tick s = Returns r →
    sim_run r.2 (hist ++ r.1)
| run_cancel req ts s hist :
    sim_run s hist →
    let r := SimulatorCore.on_cancel req ts s in sim_run r.2 (hist ++ r.1)
| run_force id fill_qty fill_price ts s hist :
    sim_run s hist → (∀ x, fill_qty = Some x → ∃ n, on_grid g n x) →
    let r := SimulatorCore.force_match_order uuid id fill_qty fill_price ts s in
    sim_run r.2 (hist ++ match r.1 with Ok rs => rs | Err _ => [] end).

Lemma sim_run_inv s hist : sim_run s hist → sim_inv s hist.
Proof.
  induction 1 as [policy name Hp|req ts bo s hist _ IH Hn Hq r|tick s hist _ IH Ht
    |tick s hist r _ IH Ht E|req ts s hist _ IH r|id q p ts s hist _ IH Hq r].
  - split; [done|..]; intros *; rewrite ?lookup_empty; done.
  - by apply on_new_order_inv.
  - split; try apply IH. intros sym t. simpl.
    intros [[_ <-]|[_ ?]]%lookup_insert_Some; [done|]. by eapply (sv_ticks _ _ IH).
  - pose proof (on_tick_inv tick s hist IH Ht) as Hr. by rewrite E in Hr.
  - by apply on_cancel_inv.
  - by apply force_match_inv.
Qed.

(** ** Properties *)


(** A forced match of an order with [r] units remaining fills exactly the
    requested [n] units when [0 < n <= r] (all that remains when no quantity is
    given), and reports one trade of them; for an unknown order or any other
    quantity it returns an error and changes nothing. *)
Theorem force_match_cases s hist id fill_qty fill_price ts :
  sim_run s hist → (∀ x, fill_qty = Some x → ∃ n, on_grid g n x) →
  let res := SimulatorCore.force_match_order uuid id fill_qty fill_price ts s in
  match sim_order_cache s !! id with
  | None => ∃ e, res = (Err e, s)
  | Some o =>
      ∃ f r n, order_holds f r o ∧ on_grid g n (default (sim_remaining_qty o) fill_qty) ∧
        if (0 <? n) && (n <=? r) then
          ∃ o' sr, res.1 = Ok [sr] ∧ sim_order_cache res.2 = <[id := o']> (sim_order_cache s) ∧
            order_holds (f + n) (r - n) o' ∧ traded [sr] n
        else ∃ e, res = (Err e, s)
  end.
Proof.
  intros Hinv%sim_run_inv Hqty. destruct (sim_order_cache s !! id) as [o|] eqn:Ho; cycle 1.
  { unfold SimulatorCore.force_match_order. rewrite Ho. by eexists. }
  destruct (sv_order _ _ Hinv _ o Ho) as (q & f & r & Hq & Hh & _).
  assert (∃ n, on_grid g n (default (sim_remaining_qty o) fill_qty)) as [n Hn].
  { destruct fill_qty; simpl; [by apply Hqty|]. exists r. apply Hh. }
  exists f, r, n. split; [done|]. split; [done|].
  pose proof (force_match_case id fill_qty fill_price ts s o f r n Ho Hh Hn) as Hc. cbv zeta in Hc.
  destruct (_ && _); [|done]. destruct Hc as (o' & sr & -> & Hh' & _ & Ht & _). by exists o', sr.
Qed.
End ops.

(** First come, first served fills an order against a tick as far as its
    limit and the book allow: the matched quantity is the smaller of the
    remaining quantity and of the quantity on the levels of the opposite side
    within the limit, every match is at a price within the limit, and a tick
    that is missing matches nothing. *)
Theorem fcfs_fills_greedily order tick r :
  on_grid g r (sim_remaining_qty order) → 0 ≤ r → tick_ok tick →
  let limit := gwreq_scaled_price (sim_req order) in
  let buy := gwreq_buysell_type (sim_req order) =? BsBuy in
  let within p := if buy then f64.leb p limit else f64.leb limit p in
  let book := eligible within (if buy then td_sell_price_levels tick else td_buy_price_levels tick) in
  let matches := match_order FirstComeFirstServedMatchPolicy order (Some tick) in
  match_order FirstComeFirstServedMatchPolicy order None = [] ∧
  ∃ qs ls, matches_as qs matches ∧ Forall2 (λ q l, on_grid g q (pl_qty l)) ls book ∧
    Zsum qs = Z.min r (Zsum ls) ∧ Forall (λ m, within (mr_price m) = true) matches.
Proof.
  intros Hr Hr0 [Hbuy Hsell] limit buy within book matches. split; [done|].
  assert (Forall level_ok (if buy then td_sell_price_levels tick else td_buy_price_levels tick)) as Hl
    by (by destruct buy).
  destruct (eligible_grid within _ Hl) as [ls Hls].
  destruct (walk_levels_spec within (td_original_timestamp tick) _ _ 10 r ls Hr Hr0 Hls)
    as (qs & Hqs & Hsum & Hacc).
  assert (matches = walk_levels within (td_original_timestamp tick)
    (if buy then td_sell_price_levels tick else td_buy_price_levels tick) (sim_remaining_qty order) 10) as ->.
  { subst matches within buy. simpl. by destruct (_ =? BsBuy). }
  exists qs, ls. split; [done|]. split; [|split; [done|]].
  - eapply Forall2_impl; [exact Hls|]. naive_solver.
  - eapply Forall_impl; [exact Hacc|]. naive_solver.
Qed.
End sim.

(** ** Times *)

(** A cancel is dated one millisecond after the request, whatever the date of
    the order's last fill: the cancellation of an order whose last fill is
    dated later is reported before that fill. *)
Theorem cancel_dated_before_fill req ts s o :
  sim_order_cache s !! gwcan_order_id req = Some o →
  f64.ltb f64.zero (sim_remaining_qty o) = true →
  0 ≤ ts → ts + 1 < sim_update_ts o < 2 ^ 63 →
  ∃ r s', SimulatorCore.on_cancel req ts s = ([r], s') ∧ sr_ts_ms r < sim_update_ts o.
Proof.
  intros Ho Hr Hts Hu. unfold SimulatorCore.on_cancel. rewrite Ho, Hr.
  eexists _, _. split; [done|]. simpl. rewrite wrap_i64_small by lia. lia.
Qed.

(** ** A run: an order of 10 partly filled by a tick *)

Section demo.
#[local] Instance demo_iter : HashIter Z := canonical_iter.

Definition demo_uuid (n : nat) : string := "exch-" +:+ pretty n.
Definition demo_order : SendOrderRequest :=
  default_SendOrderRequest <| gwreq_correlation_id := 7 |> <| gwreq_instrument := "BTC-USDT" |>
    <| gwreq_buysell_type := BsBuy |> <| gwreq_scaled_price := f64.of_Z 100 |>
    <| gwreq_scaled_qty := f64.of_Z 10 |>.
Definition demo_tick : TickData :=
  mkTickData 0 "BTC-USDT" "" 1000 1000 f64.zero f64.zero f64.zero "" []
    [mkPriceLevel (f64.of_Z 99) (f64.of_Z 4) 1 1; mkPriceLevel (f64.of_Z 101) (f64.of_Z 9) 1 1].

Definition sim_placed : list SimResult * SimulatorCore :=
  SimulatorCore.on_new_order_inner demo_uuid demo_order 900 false
    (SimulatorCore.new FirstComeFirstServedMatchPolicy "SIM1").
Definition sim_ticked : list SimResult * SimulatorCore :=
  match SimulatorCore.on_tick demo_uuid demo_tick sim_placed.2 with
  | Returns r => r
  | Panics _ => ([], sim_placed.2)
  end.
Definition sim_booked : SimOrder := Eval vm_compute in
  default (mkSimOrder demo_order "" f64.zero f64.zero 0) (sim_order_cache sim_ticked.2 !! 7).

Lemma demo_grid : grid_ok 0.
Proof. unfold grid_ok. lia. Qed.

Lemma grid_of_Z n : fits n → on_grid 0 n (f64.of_Z n).
Proof. apply of_grid_on_grid, demo_grid. Qed.

Lemma demo_tick_ok : tick_ok 0 demo_tick.
Proof.
  split; [constructor|].
  constructor; [exists 4|constructor; [exists 9|constructor]];
    (split; [apply grid_of_Z; unfold fits; lia|lia]).
Qed.

Lemma sim_ticked_run : sim_run 0 demo_uuid sim_ticked.2 (sim_placed.1 ++ sim_ticked.1).
Proof.
  apply (run_tick 0 demo_uuid demo_tick sim_placed.2 sim_placed.1 sim_ticked).
  - apply (run_order 0 demo_uuid demo_order 900 false _ []).
    + apply run_new, FirstComeFirstServedMatchPolicy_ok, demo_grid.
    + reflexivity.
    + exists 10. apply grid_of_Z. unfold fits. lia.
  - exact demo_tick_ok.
  - reflexivity.
Qed.


Lemma force_match_cases_witness :
  ∃ f r n, order_holds 0 f r sim_booked ∧ on_grid 0 n (f64.of_Z 2) ∧
    if (0 <? n) && (n <=? r) then
      ∃ o' sr, (SimulatorCore.force_match_order demo_uuid 7 (Some (f64.of_Z 2)) None 1100
                  sim_ticked.2).1 = Ok [sr] ∧
        sim_order_cache (SimulatorCore.force_match_order demo_uuid 7 (Some (f64.of_Z 2)) None 1100
                  sim_ticked.2).2 = <[7 := o']> (sim_order_cache sim_ticked.2) ∧
        order_holds 0 (f + n) (r - n) o' ∧ traded 0 [sr] n
    else ∃ e, SimulatorCore.force_match_order demo_uuid 7 (Some (f64.of_Z 2)) None 1100
                sim_ticked.2 = (Err e, sim_ticked.2).
Proof.
  refine (force_match_cases 0 demo_grid demo_uuid sim_ticked.2 _ 7 (Some (f64.of_Z 2)) None 1100
    sim_ticked_run _); [intros V m; reflexivity|].
  intros x [= <-]. exists 2. apply grid_of_Z. unfold fits. lia.
Defined.

Lemma fcfs_fills_greedily_witness :
  ∃ qs ls, matches_as 0 qs (match_order FirstComeFirstServedMatchPolicy sim_booked (Some demo_tick)) ∧
    Zsum qs = Z.min 6 (Zsum ls).
Proof.
  destruct (fcfs_fills_greedily 0 demo_grid sim_booked demo_tick 6) as [_ (qs & ls & Hqs & _ & Hs & _)].
  - exact (grid_of_Z 6 ltac:(unfold fits; lia)).
  - lia.
  - exact demo_tick_ok.
  - exists qs, ls. split; [exact Hqs|exact Hs].
Defined.
End demo.
