(* ===== verification/EventQueue.v ===== *)
(** * The replay queue of the backtester ([zk-backtest-rs/src/event_queue.rs])

    A k-way merge of pre-sorted streams of market data and a heap of the events
    produced during the replay.  The queue pops the earliest event. *)

From Stdlib Require Import Sorted.
From S2P Require Import Prelude F64 Proto Collections Rtmd Strategy.

Inductive BtEventKind : Type :=
| BtTick (tick : TickData)
| BtSignal (sig : RealtimeSignal)
| BtBar (bar : Kline)
| BtBalanceUpdate (bue : BalanceUpdateEvent)
| BtPositionUpdate (pue : PositionUpdateEvent)
| BtOrderUpdate (oue : OrderUpdateEvent)
| BtTimer (te : TimerEvent).

Definition priority (k : BtEventKind) : Z :=
  match k with
  | BtTick _ => 10
  | BtSignal _ => 9
  | BtBar _ => 8
  | BtBalanceUpdate _ => 7
  | BtPositionUpdate _ => 7
  | BtOrderUpdate _ => 6
  | BtTimer _ => 5
  end.

Record BtEvent : Type := mkBtEvent { ev_ts_ms : Z; ev_kind : BtEventKind }.

(** The order of [OrdEvent]: the heap pops the lowest timestamp, then the
    highest priority. *)
Definition event_before (a b : BtEvent) : bool :=
  match ev_ts_ms a ?= ev_ts_ms b with
  | Lt => true
  | Gt => false
  | Eq => priority (ev_kind b) <=? priority (ev_kind a)
  end.

(** ** [SortedStream] *)

Record SortedStream : Type := mkSortedStream {
  ss_events : list (Z * BtEventKind);
  ss_idx : nat;
}.

Module SortedStream.
Section stream.
Context `{!UnstableSort (Z * BtEventKind)}.

Definition new (events : list (Z * BtEventKind)) : SortedStream :=
  mkSortedStream (sort_unstable_by_key fst events) 0.

Definition peek (s : SortedStream) : option (Z * Z) :=
  (λ '(ts, kind), (ts, priority kind)) <$> ss_events s !! ss_idx s.

(** The slot of the returned event is overwritten with a default bar. *)
Definition advance (s : SortedStream) : option (Z * BtEventKind * SortedStream) :=
  match ss_events s !! ss_idx s with
  | Some (ts, kind) =>
      Some (ts, kind,
            mkSortedStream (<[ss_idx s := (ts, BtBar default_Kline)]> (ss_events s)) (S (ss_idx s)))
  | None => None
  end.

Definition is_empty (s : SortedStream) : bool := (length (ss_events s) <=? ss_idx s)%nat.
Definition remaining (s : SortedStream) : nat := (length (ss_events s) - ss_idx s)%nat.
End stream.
End SortedStream.

(** ** [EventQueue] *)

Record EventQueue `{!BinaryHeap BtEvent} : Type := mkEventQueue {
  eq_streams : list SortedStream;
  eq_dynamic : heap;
}.
#[export] Instance eta_EventQueue `{!BinaryHeap BtEvent} : Eta EventQueue := λ r,
  mkEventQueue _ (eq_streams r) (eq_dynamic r).

(** [Iterator::min_by]: the first of the least elements. *)
Definition min_by {A} (gt : A → A → bool) (l : list A) : option A :=
  foldl (λ best x,
    match best with
    | None => Some x
    | Some b => if gt b x then Some x else Some b
    end) None l.

Module EventQueue.
Section queue.
Context `{!UnstableSort (Z * BtEventKind), !BinaryHeap BtEvent}.
Implicit Types (q : EventQueue).

Definition new : EventQueue := mkEventQueue _ [] heap_new.

Definition add_stream (events : list (Z * BtEventKind)) (q : EventQueue) : EventQueue :=
  match events with
  | [] => q
  | _ => q <| eq_streams := eq_streams q ++ [SortedStream.new events] |>
  end.

Definition push (ts_ms : Z) (kind : BtEventKind) (q : EventQueue) : EventQueue :=
  q <| eq_dynamic := heap_push (mkBtEvent ts_ms kind) (eq_dynamic q) |>.

(** [a.1.cmp(&b.1).then(b.2.cmp(&a.2))] is [Greater]. *)
Definition head_gt (a b : nat * Z * Z) : bool :=
  let '(_, ats, apri) := a in
  let '(_, bts, bpri) := b in
  (bts <? ats) || (bts =? ats) && (apri <? bpri).

(** The stream with the earliest head: [(index, ts, priority)]. *)
Definition stream_best (q : EventQueue) : option (nat * Z * Z) :=
  min_by head_gt
    (omap (λ '(i, s), (λ '(ts, pri), (i, ts, pri)) <$> SortedStream.peek s)
       (imap pair (eq_streams q))).

Definition pop_dynamic (q : EventQueue) : option BtEvent * EventQueue :=
  match heap_pop (eq_dynamic q) with
  | Some (e, h) => (Some e, q <| eq_dynamic := h |>)
  | None => (None, q)
  end.

Definition pop_stream (si : nat) (q : EventQueue) : outcome (option BtEvent * EventQueue) :=
  s ← unwrap "streams[si]" (eq_streams q !! si);
  a ← unwrap "advance()" (SortedStream.advance s);
  let '(ts, kind, s') := a in
  Returns (Some (mkBtEvent ts kind), q <| eq_streams := <[si := s']> (eq_streams q) |>).

Definition pop (q : EventQueue) : outcome (option BtEvent * EventQueue) :=
  match heap_peek (eq_dynamic q), stream_best q with
  | None, None => Returns (None, q)
  | Some _, None => Returns (pop_dynamic q)
  | None, Some (si, _, _) => pop_stream si q
  | Some e, Some (si, sts, spri) =>
      let dyn_wins :=
        match ev_ts_ms e ?= sts with
        | Lt => true
        | Gt => false
        | Eq => spri <=? priority (ev_kind e)
        end in
      if dyn_wins then Returns (pop_dynamic q) else pop_stream si q
  end.

Definition peek_ts (q : EventQueue) : option Z :=
  let dyn_ts := ev_ts_ms <$> heap_peek (eq_dynamic q) in
  let stream_ts := min_by (λ a b, b <? a) (omap (λ s, fst <$> SortedStream.peek s) (eq_streams q)) in
  match dyn_ts, stream_ts with
  | None, None => None
  | Some d, None => Some d
  | None, Some s => Some s
  | Some d, Some s => Some (Z.min d s)
  end.

Definition is_empty (q : EventQueue) : bool :=
  heap_is_empty (eq_dynamic q) && forallb SortedStream.is_empty (eq_streams q).

Definition len (q : EventQueue) : nat :=
  (heap_len (eq_dynamic q) + sum_list_with SortedStream.remaining (eq_streams q))%nat.
End queue.
End EventQueue.
