(* ===== verification/QueueFacts.v ===== *)
(** * The replay queue pops events in order

    The queue is a bag of events: adding and pushing insert, popping removes an
    earliest one, of the highest priority when every stream holds one kind of
    event.  Draining it returns its events sorted by time. *)

From Stdlib Require Import Sorted.
From S2P Require Import Prelude F64 Proto Collections Rtmd Strategy EventQueue.

(** ** [min_by] *)

Section min_by.
Context {A : Type} (gt : A → A → bool).
Hypothesis gt_asym : ∀ a b, gt a b = true → gt b a = false.
Hypothesis le_trans : ∀ a b c, gt a b = false → gt b c = false → gt a c = false.

Lemma min_by_spec l :
  match min_by gt l with
  | None => l = []
  | Some m => m ∈ l ∧ Forall (λ x, gt m x = false) l
  end.
Proof.
  unfold min_by. induction l as [|x l IH] using rev_ind; [done|]. rewrite foldl_snoc.
  destruct (foldl _ None l) as [b|]; cycle 1.
  { subst l. simpl. split; [by left|]. repeat constructor. destruct (gt x x) eqn:E; [|done].
    pose proof (gt_asym _ _ E). congruence. }
  destruct IH as [Hb Hall]. destruct (gt b x) eqn:E.
  - split; [set_solver|]. apply Forall_app. split.
    + eapply Forall_impl; [exact Hall|]. intros y Hy. simpl in Hy. eapply le_trans; [|exact Hy]. auto.
    + repeat constructor. destruct (gt x x) eqn:E'; [|done]. pose proof (gt_asym _ _ E'). congruence.
  - split; [set_solver|]. apply Forall_app. split; [done|]. by repeat constructor.
Qed.
End min_by.

Section queue.
Context `{!UnstableSort (Z * BtEventKind), !UnstableSortOk UnstableSort0}.
Context `{!BinaryHeap BtEvent, !BinaryHeapOk event_before}.
Implicit Types (q : EventQueue) (s : SortedStream).

(** ** Streams *)

Definition event_of (e : Z * BtEventKind) : BtEvent := mkBtEvent e.1 e.2.
Definition rest (s : SortedStream) : list BtEvent := event_of <$> drop (ss_idx s) (ss_events s).

Definition by_time (a b : BtEvent) : Prop := ev_ts_ms a ≤ ev_ts_ms b.

Lemma peek_rest s :
  SortedStream.peek s = (λ e, (ev_ts_ms e, priority (ev_kind e))) <$> head (rest s).
Proof.
  unfold SortedStream.peek, rest. rewrite <- (Nat.add_0_r (ss_idx s)) at 1.
  rewrite <- lookup_drop. by destruct (drop _ _) as [|[]].
Qed.

Lemma advance_rest s :
  match SortedStream.advance s with
  | Some (ts, kind, s') => rest s = mkBtEvent ts kind :: rest s'
  | None => rest s = []
  end.
Proof.
  unfold SortedStream.advance, rest. destruct (ss_events s !! ss_idx s) as [[ts kind]|] eqn:E.
  - simpl. rewrite (drop_S _ (ts, kind)) by done. by rewrite drop_insert_lt by lia.
  - apply lookup_ge_None in E. by rewrite drop_ge.
Qed.

Lemma remaining_rest s : SortedStream.remaining s = length (rest s).
Proof. unfold SortedStream.remaining, rest. by rewrite length_fmap, length_drop. Qed.

Lemma empty_rest s : SortedStream.is_empty s = true ↔ rest s = [].
Proof.
  unfold SortedStream.is_empty. split.
  - intros H%Nat.leb_le. unfold rest. by rewrite drop_ge.
  - intros H. apply Nat.leb_le. apply (f_equal length) in H. rewrite <- remaining_rest in H.
    unfold SortedStream.remaining in H. simpl in H. lia.
Qed.

(** ** The contents of a queue *)

Definition contents (q : EventQueue) : list BtEvent :=
  heap_iter (eq_dynamic q) ++ (eq_streams q ≫= rest).

(** Every stream is sorted by time; a uniform queue has one priority per stream. *)
Definition queue_wf (q : EventQueue) : Prop :=
  Forall (λ s, StronglySorted by_time (rest s)) (eq_streams q).
Definition uniform (events : list BtEvent) : Prop :=
  ∀ a b, a ∈ events → b ∈ events → priority (ev_kind a) = priority (ev_kind b).
Definition queue_uniform (q : EventQueue) : Prop := Forall (λ s, uniform (rest s)) (eq_streams q).

(** ** Popping *)

(** Not after another candidate: earlier, or as early with at least its priority. *)
Definition no_later (ts pri ts' pri' : Z) : Prop := ts < ts' ∨ ts = ts' ∧ pri' ≤ pri.

Lemma stream_best_spec q :
  match EventQueue.stream_best q with
  | None => Forall (λ s, rest s = []) (eq_streams q)
  | Some (si, ts, pri) =>
      ∃ s kind s', eq_streams q !! si = Some s ∧ SortedStream.advance s = Some (ts, kind, s') ∧
        pri = priority kind ∧
        Forall (λ s, ∀ e, head (rest s) = Some e →
          no_later ts pri (ev_ts_ms e) (priority (ev_kind e))) (eq_streams q)
  end.
Proof.
  unfold EventQueue.stream_best.
  set (l := omap _ _). pose proof (min_by_spec EventQueue.head_gt) as Hmin.
  assert (∀ i s e, eq_streams q !! i = Some s → head (rest s) = Some e →
            (i, ev_ts_ms e, priority (ev_kind e)) ∈ l) as Hin.
  { intros i s e Hs He. apply list_elem_of_omap. exists (i, s).
    split; [by apply (elem_of_lookup_imap_2 pair)|]. by rewrite peek_rest, He. }
  specialize (Hmin ltac:(intros [[? ?] ?] [[? ?] ?]; unfold EventQueue.head_gt; lia)
                   ltac:(intros [[? ?] ?] [[? ?] ?] [[? ?] ?]; unfold EventQueue.head_gt; lia) l).
  destruct (min_by EventQueue.head_gt l) as [[[si ts] pri]|].
  - destruct Hmin as [Hl Hall].
    apply list_elem_of_omap in Hl as ([i s] & Hs & Hp).
    apply elem_of_lookup_imap in Hs as (i' & s' & [= <- <-] & Hs).
    rewrite peek_rest in Hp. pose proof (advance_rest s) as Ha.
    destruct (SortedStream.advance s) as [[[ts' kind] s']|] eqn:E; rewrite Ha in Hp; [|done].
    simpl in Hp. injection Hp as -> -> <-. exists s, kind, s'. split; [done|]. split; [done|].
    split; [done|]. apply Forall_lookup. intros j s2 Hj e He.
    specialize (Hin j s2 e Hj He). eapply Forall_forall in Hall; [|exact Hin].
    unfold EventQueue.head_gt in Hall. simpl in Hall. unfold no_later. lia.
  - apply Forall_lookup. intros i s Hs. destruct (rest s) as [|e l'] eqn:E; [done|].
    specialize (Hin i s e Hs). rewrite E, Hmin in Hin. by apply elem_of_nil in Hin; [|done].
Qed.

(** The heads bound the whole streams. *)
Lemma heads_first q ts pri :
  queue_wf q →
  Forall (λ s, ∀ e, head (rest s) = Some e → no_later ts pri (ev_ts_ms e) (priority (ev_kind e)))
    (eq_streams q) →
  Forall (λ e, ts ≤ ev_ts_ms e ∧
    (queue_uniform q → ev_ts_ms e = ts → priority (ev_kind e) ≤ pri)) (eq_streams q ≫= rest).
Proof.
  intros Hwf Hh. apply Forall_forall. intros e (s & He & Hs)%list_elem_of_bind.
  eapply Forall_forall in Hwf; [|exact Hs]. eapply Forall_forall in Hh; [|exact Hs].
  destruct (rest s) as [|e0 l] eqn:E; [by apply elem_of_nil in He|]. simpl in Hh.
  specialize (Hh e0 eq_refl). apply StronglySorted_inv in Hwf as [_ Hl].
  assert (ev_ts_ms e0 ≤ ev_ts_ms e) as Hle.
  { apply elem_of_cons in He as [->|He]; [done|]. by eapply Forall_forall in Hl. }
  unfold no_later in Hh. split; [lia|]. intros Hu Heq.
  eapply Forall_forall in Hu; [|exact Hs]. rewrite (Hu e e0) by (rewrite E; set_solver). lia.
Qed.

(** A popped event comes no later than any event of the queue. *)
Definition first_of (q : EventQueue) (e : BtEvent) : Prop :=
  Forall (λ x, ev_ts_ms e ≤ ev_ts_ms x ∧
    (queue_uniform q → ev_ts_ms x = ev_ts_ms e → priority (ev_kind x) ≤ priority (ev_kind e)))
    (contents q).

(** What [pop] returns and leaves. *)
Record popped (q : EventQueue) (r : option BtEvent) (q' : EventQueue) : Prop := {
  po_wf : queue_wf q';
  po_uniform : queue_uniform q → queue_uniform q';
  po_event : match r with
             | None => contents q = [] ∧ q' = q
             | Some e => contents q ≡ₚ e :: contents q' ∧ first_of q e
             end;
}.

(** [ts] and [pri] come no later than anything in the heap and at the heads. *)
Definition candidate_first (q : EventQueue) (ts pri : Z) : Prop :=
  Forall (λ x, no_later ts pri (ev_ts_ms x) (priority (ev_kind x))) (heap_iter (eq_dynamic q)) ∧
  Forall (λ s, ∀ e, head (rest s) = Some e → no_later ts pri (ev_ts_ms e) (priority (ev_kind e)))
    (eq_streams q).

Lemma candidate_first_of q e :
  queue_wf q → candidate_first q (ev_ts_ms e) (priority (ev_kind e)) → first_of q e.
Proof.
  intros Hwf [Hd Hs]. apply Forall_app. split; [|by apply heads_first].
  eapply Forall_impl; [exact Hd|]. unfold no_later. simpl. lia.
Qed.

Lemma pop_stream_popped si q s ts kind s' :
  queue_wf q → eq_streams q !! si = Some s → SortedStream.advance s = Some (ts, kind, s') →
  candidate_first q ts (priority kind) →
  returns (EventQueue.pop_stream si q) (λ r, popped q r.1 r.2).
Proof.
  intros Hwf Hs Ha Hfirst. pose proof (advance_rest s) as Hr. rewrite Ha in Hr.
  unfold EventQueue.pop_stream. rewrite Hs. simpl. rewrite Ha. simpl. split; simpl.
  - apply Forall_insert; [done|]. eapply Forall_lookup_1 in Hwf; [|exact Hs]. rewrite Hr in Hwf.
    by apply StronglySorted_inv in Hwf as [? _].
  - intros Hu. apply Forall_insert; [done|]. eapply Forall_lookup_1 in Hu; [|exact Hs].
    intros a b ? ?. apply Hu; rewrite Hr; by right.
  - split; [|by apply candidate_first_of].
    unfold contents. simpl. rewrite <- (take_drop_middle _ _ _ Hs) at 1.
    rewrite (insert_take_drop _ _ _ (lookup_lt_Some _ _ _ Hs)).
    rewrite !bind_app, !bind_cons, Hr. simpl. solve_Permutation.
Qed.

Lemma pop_dynamic_popped q e h :
  queue_wf q → heap_pop (eq_dynamic q) = Some (e, h) →
  candidate_first q (ev_ts_ms e) (priority (ev_kind e)) →
  popped q (EventQueue.pop_dynamic q).1 (EventQueue.pop_dynamic q).2.
Proof.
  intros Hwf E Hfirst. unfold EventQueue.pop_dynamic. rewrite E. split; simpl; [done|done|].
  split; [|by apply candidate_first_of]. unfold contents. simpl.
  apply heap_pop_Some in E as [Hp _]. by rewrite Hp.
Qed.

Lemma pop_popped q : queue_wf q → returns (EventQueue.pop q) (λ r, popped q r.1 r.2).
Proof.
  intros Hwf. unfold EventQueue.pop, heap_peek. pose proof (stream_best_spec q) as Hb.
  destruct (heap_pop (eq_dynamic q)) as [[e h]|] eqn:Ed; simpl.
  - assert (Forall (λ x, no_later (ev_ts_ms e) (priority (ev_kind e)) (ev_ts_ms x) (priority (ev_kind x)))
              (heap_iter (eq_dynamic q))) as Hmin.
    { destruct (heap_pop_Some _ _ _ Ed) as [_ Hm]. eapply Forall_impl; [exact Hm|]. intros x.
      unfold event_before, no_later. simpl.
      destruct (Z.compare_spec (ev_ts_ms e) (ev_ts_ms x)); [lia|lia|done]. }
    destruct (EventQueue.stream_best q) as [[[si ts] pri]|].
    + destruct Hb as (s & kind & s' & Hs & Ha & -> & Hheads).
      destruct (match ev_ts_ms e ?= ts with Lt => _ | _ => _ end) eqn:Ewin.
      * apply (pop_dynamic_popped q e h Hwf Ed). split; [done|]. eapply Forall_impl; [exact Hheads|].
        intros s0 H0 e0 He0. specialize (H0 e0 He0). unfold no_later in *.
        destruct (Z.compare_spec (ev_ts_ms e) ts); [lia|lia|done].
      * apply (pop_stream_popped si q s ts kind s' Hwf Hs Ha). split; [|done].
        eapply Forall_impl; [exact Hmin|]. unfold no_later. simpl. intros x Hx.
        destruct (Z.compare_spec (ev_ts_ms e) ts); [|done|]; lia.
    + apply (pop_dynamic_popped q e h Hwf Ed). split; [done|]. eapply Forall_impl; [exact Hb|].
      intros s0 H0 e0. simpl in H0. by rewrite H0.
  - apply heap_pop_None in Ed. destruct (EventQueue.stream_best q) as [[[si ts] pri]|].
    + destruct Hb as (s & kind & s' & Hs & Ha & -> & Hheads).
      apply (pop_stream_popped si q s ts kind s' Hwf Hs Ha). split; [by rewrite Ed|done].
    + split; simpl; [done|done|]. split; [|done]. unfold contents. rewrite Ed. simpl.
      clear -Hb. induction Hb as [|s l Hs _ IH]; [done|]. by rewrite bind_cons, Hs.
Qed.

(** A popped event is the first of the heap or comes from a stream. *)
Definition stream_len (q : EventQueue) : nat := length (eq_streams q ≫= rest).

Lemma pop_stream_source si q e q' : EventQueue.pop_stream si q = Returns (Some e, q') →
  eq_dynamic q' = eq_dynamic q ∧ (stream_len q' < stream_len q)%nat.
Proof.
  unfold EventQueue.pop_stream. destruct (eq_streams q !! si) as [s|] eqn:Hs; [|done]. simpl.
  pose proof (advance_rest s) as Hr. destruct (SortedStream.advance s) as [[[ts kind] s']|]; [|done].
  intros [= <- <-]. split; [done|]. unfold stream_len. simpl.
  rewrite <- (take_drop_middle _ _ _ Hs) at 2.
  rewrite (insert_take_drop _ _ _ (lookup_lt_Some _ _ _ Hs)).
  rewrite !bind_app, !bind_cons, Hr, !length_app. simpl. lia.
Qed.

Lemma pop_source q e q' : EventQueue.pop q = Returns (Some e, q') →
  eq_streams q' = eq_streams q ∧ heap_iter (eq_dynamic q) ≡ₚ e :: heap_iter (eq_dynamic q') ∨
  eq_dynamic q' = eq_dynamic q ∧ (stream_len q' < stream_len q)%nat.
Proof.
  unfold EventQueue.pop.
  assert (Returns (EventQueue.pop_dynamic q) = Returns (Some e, q') →
    eq_streams q' = eq_streams q ∧ heap_iter (eq_dynamic q) ≡ₚ e :: heap_iter (eq_dynamic q')) as Hdyn.
  { unfold EventQueue.pop_dynamic. destruct (heap_pop (eq_dynamic q)) as [[e' h]|] eqn:E; [|done].
    intros [= <- <-]. split; [done|]. by apply heap_pop_Some in E as [? _]. }
  destruct (heap_peek (eq_dynamic q)) as [d|], (EventQueue.stream_best q) as [[[si ts] pri]|];
    [case_match| | |done]; intros E; (left; by apply Hdyn) || (right; by eapply pop_stream_source).
Qed.

Lemma contents_len q : EventQueue.len q = length (contents q).
Proof.
  unfold EventQueue.len, heap_len, contents. rewrite length_app. f_equal.
  induction (eq_streams q) as [|s l IH]; [done|]. simpl. by rewrite length_app, remaining_rest, IH.
Qed.

Lemma is_empty_contents q : EventQueue.is_empty q = true ↔ contents q = [].
Proof.
  unfold EventQueue.is_empty, heap_is_empty, heap_len, contents.
  rewrite andb_true_iff, Nat.eqb_eq, app_nil, length_zero_iff_nil, forallb_forall. f_equiv.
  split.
  - intros H. induction (eq_streams q) as [|s l IH]; [done|]. simpl. apply app_nil.
    split; [apply empty_rest, H; by left|]. apply IH. intros. apply H. by right.
  - intros H s Hs%list_elem_of_In. apply empty_rest.
    destruct (rest s) as [|e l] eqn:E; [done|]. exfalso. apply (elem_of_nil e). rewrite <- H.
    apply list_elem_of_bind. exists s. rewrite E. split; [by left|done].
Qed.

(** [peek_ts] is the least time of the queue. *)
Lemma peek_ts_spec q : queue_wf q →
  match EventQueue.peek_ts q with
  | None => contents q = []
  | Some t => Forall (λ e, t ≤ ev_ts_ms e) (contents q) ∧ ∃ e, e ∈ contents q ∧ ev_ts_ms e = t
  end.
Proof.
  intros Hwf. unfold EventQueue.peek_ts, heap_peek, contents.
  pose proof (min_by_spec (λ a b, b <? a) ltac:(cbv beta; intros; lia) ltac:(cbv beta; intros; lia)
                (omap (λ s, fst <$> SortedStream.peek s) (eq_streams q))) as Hmin.
  assert (∀ t, t ∈ omap (λ s, fst <$> SortedStream.peek s) (eq_streams q) ↔
            ∃ s e, s ∈ eq_streams q ∧ head (rest s) = Some e ∧ ev_ts_ms e = t) as Hin.
  { intros t. rewrite list_elem_of_omap. setoid_rewrite peek_rest. split.
    - intros (s & Hs & Ht). destruct (head (rest s)) as [e|] eqn:E; [|done]. simplify_eq/=. eauto.
    - intros (s & e & Hs & He & <-). exists s. by rewrite He. }
  set (m := min_by _ _) in *.
  assert (match m with
          | None => eq_streams q ≫= rest = []
          | Some t => Forall (λ e, t ≤ ev_ts_ms e) (eq_streams q ≫= rest) ∧
                      ∃ e, e ∈ eq_streams q ≫= rest ∧ ev_ts_ms e = t
          end) as Hs.
  { destruct m as [t|]; simpl in Hmin.
    - destruct Hmin as [Ht Hall]. split.
      + eapply Forall_impl; [apply (heads_first q t 10 Hwf)|by intros ? [? _]].
        apply Forall_forall. intros s Hs e He.
        assert (ev_ts_ms e ∈ omap (λ s, fst <$> SortedStream.peek s) (eq_streams q)) as Hi
          by (apply Hin; eauto).
        eapply Forall_forall in Hall; [|exact Hi]. unfold no_later. simpl in Hall.
        assert (priority (ev_kind e) ≤ 10) by (destruct (ev_kind e); simpl; lia). lia.
      + apply Hin in Ht as (s & e & Hs & He & <-). exists e. split; [|done].
        apply list_elem_of_bind. exists s. split; [|done]. destruct (rest s); [done|].
        injection He as ->. by left.
    - apply elem_of_nil_inv. intros e (s & He & Hs)%list_elem_of_bind.
      destruct (rest s) as [|e0 l] eqn:E; [by apply elem_of_nil in He|].
      apply (elem_of_nil (ev_ts_ms e0)). rewrite <- Hmin. apply Hin. exists s, e0. by rewrite E. }
  destruct (heap_pop (eq_dynamic q)) as [[e h]|] eqn:Ed; simpl.
  - destruct (heap_pop_Some _ _ _ Ed) as [Hp Hm].
    assert (Forall (λ x, ev_ts_ms e ≤ ev_ts_ms x) (heap_iter (eq_dynamic q))) as Hd.
    { eapply Forall_impl; [exact Hm|]. intros x. unfold event_before. simpl.
      destruct (Z.compare_spec (ev_ts_ms e) (ev_ts_ms x)); [lia|lia|done]. }
    assert (e ∈ heap_iter (eq_dynamic q)) as He by (rewrite Hp; by left).
    destruct m as [t|]; [destruct Hs as [Hs (e' & He' & <-)]|rewrite Hs, app_nil_r; split; [done|eauto]].
    split.
    + apply Forall_app. split; (eapply Forall_impl; [eassumption|]); simpl; lia.
    + destruct (Z.min_spec (ev_ts_ms e) (ev_ts_ms e')) as [[_ ->]|[_ ->]];
        [exists e|exists e']; (split; [apply elem_of_app; auto|done]).
  - apply heap_pop_None in Ed. rewrite Ed. by destruct m.
Qed.

(** ** Reachable queues *)

Inductive queue_reachable : EventQueue → Prop :=
| queue_new : queue_reachable EventQueue.new
| queue_add events q : queue_reachable q → queue_reachable (EventQueue.add_stream events q)
| queue_push ts kind q : queue_reachable q → queue_reachable (EventQueue.push ts kind q)
| queue_pop q r q' :
    queue_reachable q → EventQueue.pop q = Returns (r, q') → queue_reachable q'.

Lemma add_stream_wf events q : queue_wf q → queue_wf (EventQueue.add_stream events q).
Proof.
  intros Hwf. unfold EventQueue.add_stream. destruct events as [|e events]; [done|].
  apply Forall_app. split; [done|]. repeat constructor. unfold rest. simpl. rewrite drop_0.
  pose proof (sort_unstable_sorted fst (e :: events)) as Hs.
  induction Hs as [|a l Hs IHs Ha]; [constructor|]. simpl. constructor; [done|].
  apply Forall_fmap. exact Ha.
Qed.

Lemma reachable_queue q : queue_reachable q → queue_wf q.
Proof.
  induction 1 as [|events q _ IH|ts kind q _ IH|q r q' _ IH E]; [constructor| |done|].
  - by apply add_stream_wf.
  - pose proof (pop_popped q IH) as Hp. rewrite E in Hp. by destruct Hp.
Qed.

(** Pop until the queue is empty, at most [n] times. *)
Fixpoint drain (n : nat) (q : EventQueue) : outcome (list BtEvent) :=
  match n with
  | O => Panics "drain: bound"
  | S n =>
      r ← EventQueue.pop q;
      match r.1 with
      | None => Returns []
      | Some e => events ← drain n r.2; Returns (e :: events)
      end
  end.

Lemma drain_sorted n q : queue_wf q → (length (contents q) < n)%nat →
  ∃ events, drain n q = Returns events ∧ events ≡ₚ contents q ∧ StronglySorted by_time events.
Proof.
  revert q. induction n as [|n IH]; intros q Hwf Hn; [lia|]. cbn [drain].
  destruct (returns_inv _ _ (pop_popped q Hwf)) as ([r q'] & E & Hp). rewrite E. cbn [mbind outcome_bind fst snd].
  destruct Hp as [Hwf' _ Hev]. destruct r as [e|]; simpl in Hev.
  - destruct Hev as [Hc Hf]. destruct (IH q' Hwf') as (events & -> & Hperm & Hs).
    { rewrite Hc in Hn. simpl in Hn. lia. }
    exists (e :: events). split; [done|]. split; [by rewrite Hc, Hperm|]. constructor; [done|].
    rewrite Hperm. unfold first_of in Hf. rewrite Hc in Hf. apply Forall_cons in Hf as [_ Hf].
    eapply Forall_impl; [exact Hf|]. intros x. simpl. unfold by_time. tauto.
  - destruct Hev as [Hc _]. exists []. rewrite Hc. repeat constructor.
Qed.

(** C17: popping a reachable queue never panics; it returns nothing exactly when
    the queue is empty, and otherwise removes one event that is as early as any
    other and, when each stream holds events of one priority, has the highest
    priority among those of its time; [peek_ts] is the time of that event.
    [len] and [is_empty] agree with the contents, and popping until empty returns all the events sorted by time. *)
Theorem event_queue_order q : queue_reachable q →
  (∃ r q', EventQueue.pop q = Returns (r, q') ∧
     match r with
     | None => contents q = [] ∧ q' = q
     | Some e => contents q ≡ₚ e :: contents q' ∧ first_of q e
     end ∧ EventQueue.peek_ts q = ev_ts_ms <$> r) ∧
  EventQueue.len q = length (contents q) ∧ (EventQueue.is_empty q = true ↔ contents q = []) ∧
  ∃ events, drain (S (EventQueue.len q)) q = Returns events ∧ events ≡ₚ contents q ∧
    StronglySorted by_time events.
Proof.
  intros Hwf%reachable_queue. split; [|split; [apply contents_len|split; [apply is_empty_contents|]]].
  - destruct (returns_inv _ _ (pop_popped q Hwf)) as ([r q'] & E & Hp). exists r, q'.
    split; [done|]. destruct Hp as [_ _ Hev]. simpl in Hev. split; [done|].
    pose proof (peek_ts_spec q Hwf) as Ht. destruct r as [e|], (EventQueue.peek_ts q) as [t|]; simpl.
    + destruct Hev as [Hc Hf], Ht as [Hall (e' & He' & <-)]. f_equal.
      unfold first_of in Hf. eapply Forall_forall in Hf; [|exact He'].
      eapply Forall_forall in Hall; [|rewrite Hc; by left]. simpl in *. lia.
    + destruct Hev as [Hc _]. rewrite Ht in Hc. by apply Permutation_nil_cons in Hc.
    + destruct Hev as [Hc _], Ht as [_ (e' & He' & _)]. rewrite Hc in He'. by apply elem_of_nil in He'.
    + done.
  - apply drain_sorted; [done|]. rewrite contents_len. lia.
Qed.
End queue.

(** ** A queue with a stream of bars and a pushed order update *)

Lemma event_before_total a b : event_before a b = true ∨ event_before b a = true.
Proof.
  unfold event_before.
  destruct (Z.compare_spec (ev_ts_ms a) (ev_ts_ms b)), (Z.compare_spec (ev_ts_ms b) (ev_ts_ms a)); lia || auto.
Qed.
Lemma event_before_trans a b c :
  event_before a b = true → event_before b c = true → event_before a c = true.
Proof.
  unfold event_before.
  destruct (Z.compare_spec (ev_ts_ms a) (ev_ts_ms b)), (Z.compare_spec (ev_ts_ms b) (ev_ts_ms c)),
    (Z.compare_spec (ev_ts_ms a) (ev_ts_ms c)); lia || done.
Qed.

Definition demo_event_heap : BinaryHeap BtEvent := sorted_heap event_before.
Lemma demo_event_heap_ok : @BinaryHeapOk _ demo_event_heap event_before.
Proof. apply sorted_heap_ok; [apply event_before_total|apply event_before_trans]. Qed.

Section demo.
#[local] Existing Instances demo_event_heap stable_sort.

Definition demo_queue : EventQueue :=
  EventQueue.push 20 (BtOrderUpdate default_OrderUpdateEvent)
    (EventQueue.add_stream [(30, BtBar default_Kline); (10, BtBar default_Kline)] EventQueue.new).

Lemma event_queue_order_witness :
  ∃ events, drain (S (EventQueue.len demo_queue)) demo_queue = Returns events ∧
    ev_ts_ms <$> events = [10; 20; 30].
Proof.
  destruct (@event_queue_order stable_sort stable_sort_ok demo_event_heap demo_event_heap_ok demo_queue)
    as (_ & _ & _ & events & E & _).
  - apply queue_push, queue_add, queue_new.
  - exists events. split; [exact E|].
    assert ((match drain (S (EventQueue.len demo_queue)) demo_queue with
             | Returns events => ev_ts_ms <$> events
             | Panics _ => []
             end) = [10; 20; 30]) as Ht by (vm_compute; reflexivity).
    by rewrite E in Ht.
Defined.
End demo.
