(* ===== verification/BacktestOms.v ===== *)
(** * The OMS of the backtester ([zk-backtest-rs/src/backtest_oms.rs])

    [BacktestOms] runs strategy orders through the v1 OMS core, answers its
    gateway requests with the simulator, and feeds the simulator's reports and
    synthesised balance updates back into the core.  The events the core
    publishes are returned with the time at which they are to be replayed.

    The core reads the wall clock; [clk n] are the readings during its [n]-th
    message, and the state counts the messages. *)

From S2P Require Import Prelude F64 Proto Intern Models Config Utils V1Stores V1Orders V1Core.
From S2P Require Import Collections Rtmd Scheduler Strategy Simulator.

(** [models.rs]: one OMS event to re-queue. *)
Record BtOmsOutput : Type := mkBtOmsOutput {
  bo_ts_ms : Z;
  bo_order_update : option OrderUpdateEvent;
  bo_balance_update : option BalanceUpdateEvent;
  bo_position_update : option PositionUpdateEvent;
}.

Definition SIM_GW_KEY : string := "SIM1".
Definition OrdertypeLimit : Z := 1.
Definition TimeinforceGtc : Z := 3.

Record BacktestOms : Type := mkBacktestOms {
  bt_oms : OmsCore;
  bt_simulator : SimulatorCore;
  bt_sim_balances : gmap Z (gmap string f64);
  bt_messages : nat;
}.
#[export] Instance eta_BacktestOms : Eta BacktestOms := λ r,
  mkBacktestOms (bt_oms r) (bt_simulator r) (bt_sim_balances r) (bt_messages r).

Record FillInfo : Set := mkFillInfo {
  fi_account_id : Z;
  fi_instrument : string;
  fi_side : Z;
  fi_qty : f64;
  fi_price : f64;
}.

(** Fills of the trade entries of a report. *)
Definition extract_fills (report : OrderReport) : list FillInfo :=
  omap (λ entry,
    if ent_report_type entry =? OrderReportType_i32 OrderRepTypeTrade then
      match ent_report entry with
      | Some (RTradeReport trade) =>
          let '(instrument, side) :=
            match trr_order_info trade with
            | Some info => (oi_instrument info, oi_buy_sell_type info)
            | None => ("", 0)
            end in
          if f64.ltb f64.zero (trr_filled_qty trade)
          then Some (mkFillInfo (rep_account_id report) instrument side (trr_filled_qty trade)
                       (trr_filled_price trade))
          else None
      | _ => None
      end
    else None) (rep_order_report_entries report).

Definition to_order_request (order : StrategyOrder) (ts_ms : Z) : OrderRequest :=
  default_OrderRequest <| req_order_id := so_order_id order |>
    <| req_account_id := so_account_id order |> <| req_instrument_code := so_symbol order |>
    <| req_buy_sell_type := so_side order |> <| req_open_close_type := so_open_close_type order |>
    <| req_order_type := OrdertypeLimit |> <| req_time_inforce_type := TimeinforceGtc |>
    <| req_price := so_price order |> <| req_qty := so_qty order |> <| req_timestamp := ts_ms |>.

(** [str::split_once('-')] *)
Fixpoint split_dash (s : string) : option (string * string) :=
  match s with
  | EmptyString => None
  | String a s' =>
      if byte_of a =? 0x2D then Some (EmptyString, s')
      else (λ '(b, q), (String a b, q)) <$> split_dash s'
  end.

(** [*map.entry(k).or_insert(0.0) += x] *)
Definition add_at (k : string) (x : f64) (m : gmap string f64) : gmap string f64 :=
  <[k := f64.add (default f64.zero (m !! k)) x]> m.
Definition sub_at (k : string) (x : f64) (m : gmap string f64) : gmap string f64 :=
  <[k := f64.sub (default f64.zero (m !! k)) x]> m.

Module BacktestOms.
Section oms.
Context `{!HashIter string, !HashIter Z, !HashIter (Z * string), !Uppercase}.
Context (clk : nat → nat → Z) (uuid : nat → string) (seed : Z).
Implicit Types (b : BacktestOms).

(** ** Construction *)

Definition build_init_exch_balances (balances : gmap Z (gmap string f64))
    : list ExchBalanceSnapshot :=
  hash_iter balances ≫= λ '(acc_id, sym_map),
    (λ '(sym, qty),
       mkExchBalanceSnapshot acc_id sym None
         (default_Balance <| bal_account_id := acc_id |> <| bal_asset := sym |>
            <| bal_total_qty := qty |> <| bal_avail_qty := qty |> <| bal_frozen_qty := f64.zero |>)
         "" 0) <$> hash_iter sym_map.

Definition build_init_managed_positions (positions : gmap Z (gmap string f64))
    (refdata : list InstrumentRefData) : list OmsManagedPosition :=
  hash_iter positions ≫= λ '(acc_id, sym_map),
    (λ '(instrument_code, qty),
       let inst_type :=
         match list_find (λ r, rd_instrument_id r = instrument_code) refdata with
         | Some (_, r) => rd_instrument_type r
         | None => InstTypePerp
         end in
       let is_short := f64.ltb qty f64.zero in
       (OmsManagedPosition_new acc_id instrument_code inst_type is_short)
         <| omp_qty_total := f64.abs qty |> <| omp_qty_available := f64.abs qty |>)
    <$> hash_iter sym_map.

Definition new (refdata : list InstrumentRefData) (account_ids : list Z)
    (match_policy : MatchPolicy) (init_balances init_positions : option (gmap Z (gmap string f64)))
    : BacktestOms :=
  let gw_configs :=
    [default_GwConfigEntry <| gwc_gw_key := SIM_GW_KEY |> <| gwc_exch_name := SIM_GW_KEY |>
       <| gwc_cancel_required_fields := ["order_id"] |>] in
  let account_routes :=
    (λ acc_id, default_OmsRouteEntry <| rt_account_id := acc_id |> <| rt_gw_key := SIM_GW_KEY |>
                 <| rt_exch_account_id := display_i64 acc_id |>) <$> account_ids in
  let trading_configs :=
    (λ r, (default_for (rd_instrument_id r)) <| itc_bookkeeping_balance := true |>) <$> refdata in
  let oms_config :=
    default_OmsConfigEntry <| oc_oms_id := "bt_oms" |> <| oc_managed_account_ids := account_ids |> in
  let init_exch_balances := from_option build_init_exch_balances [] init_balances in
  let spot_assets := collect_spot_position_assets refdata in
  let derived_positions :=
    from_option (λ bals, hash_iter bals ≫= λ '(acc_id, sym_map),
      derive_spot_positions_from_balances acc_id sym_map spot_assets) [] init_balances in
  let explicit_positions :=
    from_option (λ p, build_init_managed_positions p refdata) [] init_positions in
  let merged_positions := merge_positions_with_override derived_positions explicit_positions in
  let confdata := ConfdataManager.new oms_config account_routes gw_configs refdata trading_configs in
  let oms := OmsCore.new seed confdata true false false 10000 in
  let oms := OmsCore.init_state [] merged_positions init_exch_balances oms in
  mkBacktestOms oms (SimulatorCore.new match_policy SIM_GW_KEY)
    match init_balances with Some bals => bals | None => ∅ end 0.

(** ** The simulated exchange ledger *)

Definition apply_sim_fill (fill : FillInfo) (b : BacktestOms) : BacktestOms :=
  let '(base, quote) :=
    match split_dash (fi_instrument fill) with
    | Some (base, q) => (base, Some q)
    | None => (fi_instrument fill, None)
    end in
  let is_buy := fi_side fill =? 1 in
  let value := f64.mul (fi_price fill) (fi_qty fill) in
  let acct := default ∅ (bt_sim_balances b !! fi_account_id fill) in
  let acct :=
    if is_buy then
      let acct := add_at base (fi_qty fill) acct in
      match quote with Some q => sub_at q value acct | None => acct end
    else
      let acct := sub_at base (fi_qty fill) acct in
      match quote with Some q => add_at q value acct | None => acct end in
  b <| bt_sim_balances := <[fi_account_id fill := acct]> (bt_sim_balances b) |>.

Definition build_sim_balance_update (account_id : Z) (b : BacktestOms) : BalanceUpdate :=
  mkBalanceUpdate
    match bt_sim_balances b !! account_id with
    | Some m =>
        (λ '(asset, qty),
           default_PositionReport <| pr_instrument_code := asset |>
             <| pr_instrument_type := InstTypeSpot |> <| pr_qty := qty |> <| pr_avail_qty := qty |>
             <| pr_account_id := account_id |> <| pr_exch_account_code := display_i64 account_id |>)
        <$> hash_iter m
    | None => []
    end.

(** ** Messages to the core and its published events *)

Definition process_message (msg : OmsMessage) (b : BacktestOms)
    : outcome (list OmsAction * BacktestOms) :=
  r ← OmsCore.process_message (clk (bt_messages b)) msg (bt_oms b);
  Returns (r.1, b <| bt_oms := r.2 |> <| bt_messages := S (bt_messages b) |>).

(** The re-queued event of a publish action. *)
Definition published (ts : Z) (action : OmsAction) : option BtOmsOutput :=
  match action with
  | V1PublishOrderUpdate oue => Some (mkBtOmsOutput ts (Some oue) None None)
  | V1PublishBalanceUpdate bue => Some (mkBtOmsOutput ts None (Some bue) None)
  | V1PublishPositionUpdate pue => Some (mkBtOmsOutput ts None None (Some pue))
  | _ => None
  end.

(** The balance and position updates that answer a synthesised balance update. *)
Definition published_balance (ts : Z) (action : OmsAction) : option BtOmsOutput :=
  match action with
  | V1PublishOrderUpdate _ => None
  | _ => published ts action
  end.

(** [accounts.sort_unstable(); accounts.dedup()] *)
Fixpoint dedup (l : list Z) : list Z :=
  match l with
  | a :: (b :: _) as l' => if a =? b then dedup l' else a :: dedup l'
  | _ => l
  end.

(** One simulator result: the report goes through the core, its fills into the
    ledger, and the ledger of the accounts concerned back into the core. *)
Definition process_sim_result (acc : list BtOmsOutput * BacktestOms) (sr : SimResult)
    : outcome (list BtOmsOutput * BacktestOms) :=
  let '(outputs, b) := acc in
  let ts := wrap_i64 (sr_ts_ms sr + 2) in
  let fills := extract_fills (sr_order_report sr) in
  r ← process_message (GatewayOrderReport (sr_order_report sr)) b;
  let outputs := outputs ++ omap (published ts) r.1 in
  let b := foldl (λ b fill, apply_sim_fill fill b) r.2 fills in
  let accounts := dedup (sort_by Z.leb (fi_account_id <$> fills)) in
  for_each (λ '(outputs, b) acc_id,
      r ← process_message (BalanceUpdateMsg (build_sim_balance_update acc_id b)) b;
      Returns (outputs ++ omap (published_balance ts) r.1, r.2)) accounts (outputs, b).

Definition process_sim_results (sim_results : list SimResult) (b : BacktestOms)
    : outcome (list BtOmsOutput * BacktestOms) :=
  for_each process_sim_result sim_results ([], b).

Definition handle_oms_action (ts_ms : Z) (acc : list BtOmsOutput * BacktestOms) (action : OmsAction)
    : outcome (list BtOmsOutput * BacktestOms) :=
  let '(results, b) := acc in
  match action with
  | V1SendOrderToGw _ request _ _ =>
      let '(sim_results, sim) := SimulatorCore.on_new_order uuid request ts_ms (bt_simulator b) in
      r ← process_sim_results sim_results (b <| bt_simulator := sim |>);
      Returns (results ++ r.1, r.2)
  | V1SendCancelToGw _ request =>
      let '(sim_results, sim) := SimulatorCore.on_cancel request ts_ms (bt_simulator b) in
      r ← process_sim_results sim_results (b <| bt_simulator := sim |>);
      Returns (results ++ r.1, r.2)
  | _ => Returns (results ++ option_list (published (wrap_i64 (ts_ms + 1)) action), b)
  end.

Definition handle_oms_actions (actions : list OmsAction) (ts_ms : Z) (b : BacktestOms)
    : outcome (list BtOmsOutput * BacktestOms) :=
  for_each (handle_oms_action ts_ms) actions ([], b).

(** ** Entry points *)

Definition on_new_order (order : StrategyOrder) (ts_ms : Z) (b : BacktestOms)
    : outcome (list BtOmsOutput * BacktestOms) :=
  r ← process_message (PlaceOrder (to_order_request order ts_ms)) b;
  handle_oms_actions r.1 ts_ms r.2.

Definition on_tick (tick : TickData) (b : BacktestOms) : outcome (list BtOmsOutput * BacktestOms) :=
  r ← SimulatorCore.on_tick uuid tick (bt_simulator b);
  process_sim_results r.1 (b <| bt_simulator := r.2 |>).

Definition on_cancel (cancel : StrategyCancel) (ts_ms : Z) (b : BacktestOms)
    : outcome (list BtOmsOutput * BacktestOms) :=
  r ← process_message (CancelOrder
        (default_OrderCancelRequest <| creq_order_id := sca_order_id cancel |>
           <| creq_timestamp := ts_ms |>)) b;
  handle_oms_actions r.1 ts_ms r.2.
End oms.
End BacktestOms.
