(* ===== verification/Backtester.v ===== *)
(** * The backtester ([zk-backtest-rs/src/backtester.rs])

    [Backtester::run] replays the event queue: every event first fires the
    timers that are due, then goes to the strategy; the actions the strategy
    requests go to the simulated OMS, whose events are pushed back into the
    queue.  The loop ends when the queue is empty, which depends on the
    strategy; [run] takes a bound on the number of events, and a run that
    reaches it panics in the model ([BacktestFacts] gives strategies for which
    some bound is never reached). *)

From S2P Require Import Prelude F64 Proto Intern Models Config Utils V1Stores V1Orders V1Core.
From S2P Require Import Collections Rtmd Scheduler Strategy Simulator EventQueue BacktestOms.

(** ** Progress reporting *)

Record ProgressTracker : Type := mkProgressTracker {
  pt_checkpoints : list Z;
  pt_next : nat;
}.

Module ProgressTracker.
(** [i64::saturating_sub] *)
Definition saturating_sub (a b : Z) : Z := Z.max (- 2 ^ 63) (Z.min (2 ^ 63 - 1) (a - b)).

Definition new (start_ms end_ms : Z) : ProgressTracker :=
  let total := saturating_sub end_ms start_ms in
  mkProgressTracker
    ((λ i, wrap_i64 (start_ms + Z.quot (wrap_i64 (total * Z.of_nat i)) 100)) <$> seq 0 101) 0.

(** The checkpoints reached by [now_ms], from the next one on. *)
Fixpoint reached (now_ms : Z) (pending : list Z) : nat :=
  match pending with
  | c :: pending => if c <=? now_ms then S (reached now_ms pending) else O
  | [] => O
  end.

(** The percentages passed to the callback, and the tracker after them. *)
Definition update (now_ms : Z) (p : ProgressTracker) : list Z * ProgressTracker :=
  let n := reached now_ms (drop (pt_next p) (pt_checkpoints p)) in
  (Z.of_nat <$> seq (pt_next p) n, mkProgressTracker (pt_checkpoints p) (pt_next p + n)).
End ProgressTracker.

(** ** State *)

Record BacktestResult : Type := mkBacktestResult {
  br_order_placements : list (Z * StrategyOrder);
  br_order_updates : list OrderUpdateEvent;
  br_balance_updates : list BalanceUpdateEvent;
  br_position_updates : list PositionUpdateEvent;
  br_logs : list StrategyLog;
  br_trades : list Trade;
}.
#[export] Instance eta_BacktestResult : Eta BacktestResult := λ r,
  mkBacktestResult (br_order_placements r) (br_order_updates r) (br_balance_updates r)
    (br_position_updates r) (br_logs r) (br_trades r).

(** [BacktestConfig]; of the progress callback only its presence matters, and
    the calls it receives are collected by [run]. *)
Record BacktestConfig {D : Type} : Type := mkBacktestConfig {
  bc_account_ids : list Z;
  bc_refdata : list InstrumentRefData;
  bc_init_balances : option (gmap Z (gmap string f64));
  bc_init_positions : option (gmap Z (gmap string f64));
  bc_match_policy : MatchPolicy;
  bc_init_data_fetcher : option (StrategyContext D → D);
  bc_progress_callback : bool;
}.
#[global] Arguments BacktestConfig : clear implicits.

Record Backtester {D : Type} `{!CronLib, !BinaryHeap TimerEntry, !BinaryHeap BtEvent} : Type :=
mkBacktester {
  bt_runner : StrategyRunner D;
  bt_boms : BacktestOms;
  bt_queue : EventQueue;
  bt_result : BacktestResult;
  bt_init_data_fetcher : option (StrategyContext D → D);
  bt_progress_callback : bool;
  bt_data_start_ms : option Z;
  bt_data_end_ms : option Z;
}.
#[global] Arguments Backtester D {_ _ _}.
#[export] Instance eta_Backtester {D} `{!CronLib, !BinaryHeap TimerEntry, !BinaryHeap BtEvent} :
    Eta (Backtester D) := λ r,
  mkBacktester D _ _ _ (bt_runner r) (bt_boms r) (bt_queue r) (bt_result r) (bt_init_data_fetcher r)
    (bt_progress_callback r) (bt_data_start_ms r) (bt_data_end_ms r).

Module Backtester.
Section backtester.
Context {D S : Type} `{!Strategy D S, !CronLib, !BinaryHeap TimerEntry, !BinaryHeap BtEvent}.
Context `{!UnstableSort (Z * BtEventKind)}.
Context `{!HashIter string, !HashIter Z, !HashIter (Z * string), !Uppercase}.
Context (clk : nat → nat → Z) (uuid : nat → string) (seed : Z).
Notation Bt := (Backtester D).
Implicit Types (s : S) (bt : Bt).

Definition new (config : BacktestConfig D) : Bt :=
  mkBacktester D _ _ _
    (StrategyRunner.new_with_id_allocator (bc_account_ids config) (bc_refdata config))
    (BacktestOms.new seed (bc_refdata config) (bc_account_ids config) (bc_match_policy config)
       (bc_init_balances config) (bc_init_positions config))
    EventQueue.new (mkBacktestResult [] [] [] [] [] []) (bc_init_data_fetcher config)
    (bc_progress_callback config) None None.

Definition set_init_data_fetcher (fetcher : StrategyContext D → D) (bt : Bt) : Bt :=
  bt <| bt_init_data_fetcher := Some fetcher |>.
Definition set_progress_callback (bt : Bt) : Bt := bt <| bt_progress_callback := true |>.

Definition add_sorted_stream (events : list (Z * BtEventKind)) (bt : Bt) : Bt :=
  let bt :=
    match head events, last events with
    | Some first, Some final =>
        bt <| bt_data_start_ms := Some (from_option (λ from, Z.min from first.1) first.1 (bt_data_start_ms bt)) |>
           <| bt_data_end_ms := Some (from_option (λ upto, Z.max upto final.1) final.1 (bt_data_end_ms bt)) |>
    | _, _ => bt
    end in
  bt <| bt_queue := EventQueue.add_stream events (bt_queue bt) |>.

(** ** Actions *)

Definition requeue_output (q : EventQueue) (out : BtOmsOutput) : EventQueue :=
  let q := from_option (λ oue, EventQueue.push (bo_ts_ms out) (BtOrderUpdate oue) q) q
             (bo_order_update out) in
  let q := from_option (λ bue, EventQueue.push (bo_ts_ms out) (BtBalanceUpdate bue) q) q
             (bo_balance_update out) in
  from_option (λ pue, EventQueue.push (bo_ts_ms out) (BtPositionUpdate pue) q) q
    (bo_position_update out).

Definition requeue_bt_oms_output (outputs : list BtOmsOutput) (bt : Bt) : Bt :=
  bt <| bt_queue := foldl requeue_output (bt_queue bt) outputs |>.

Definition dispatch_action (ts : Z) (bt : Bt) (action : SAction.t) : outcome Bt :=
  match action with
  | SAction.PlaceOrder order =>
      let bt := bt <| bt_result ::= λ r,
                  r <| br_order_placements := br_order_placements r ++ [(ts, order)] |> |>
                   <| bt_runner ::= StrategyRunner.book_order order |> in
      r ← BacktestOms.on_new_order clk uuid order ts (bt_boms bt);
      Returns (requeue_bt_oms_output r.1 (bt <| bt_boms := r.2 |>))
  | SAction.Cancel cancel =>
      let bt := bt <| bt_runner ::= StrategyRunner.book_cancel cancel |> in
      r ← BacktestOms.on_cancel clk uuid cancel ts (bt_boms bt);
      Returns (requeue_bt_oms_output r.1 (bt <| bt_boms := r.2 |>))
  | SAction.Log log =>
      Returns (bt <| bt_result ::= λ r, r <| br_logs := br_logs r ++ [log] |> |>)
  | SAction.SubscribeTimer sub =>
      match tsub_schedule sub with
      | StrategyTimer.OnceAt fire_ts =>
          Returns (bt <| bt_runner ::= λ r, r <| run_timer :=
            TimerManager.subscribe_once_at (tsub_timer_key sub) fire_ts (run_timer r) |> |>)
      | StrategyTimer.Cron expr start_ms end_ms =>
          timer ← TimerManager.subscribe_cron (tsub_timer_key sub) expr (default 0 start_ms) end_ms
                    (run_timer (bt_runner bt));
          Returns (bt <| bt_runner ::= λ r, r <| run_timer := timer |> |>)
      end
  end.

Definition dispatch_actions (actions : list SAction.t) (ts : Z) (bt : Bt) : outcome Bt :=
  for_each (dispatch_action ts) actions bt.

(** Run a callback of the runner and dispatch what it requests. *)
Definition callback (f : S → StrategyRunner D → list SAction.t * S * StrategyRunner D) (ts : Z)
    (s : S) (bt : Bt) : outcome (S * Bt) :=
  let '(actions, s, runner) := f s (bt_runner bt) in
  bt ← dispatch_actions actions ts (bt <| bt_runner := runner |>);
  Returns (s, bt).

(** ** The event loop *)

(** Fire the timers due at the event, updating the logical time or not. *)
Definition fire_due (advance : bool) (ts : Z) (s : S) (bt : Bt) : outcome (S * Bt) :=
  t ← (if advance then StrategyRunner.advance_time s ts (bt_runner bt)
       else StrategyRunner.drain_timers_at s ts (bt_runner bt));
  let '(timer_actions, s, runner) := t in
  bt ← dispatch_actions timer_actions ts (bt <| bt_runner := runner |>);
  Returns (s, bt).

Definition is_update (kind : BtEventKind) : bool :=
  match kind with
  | BtOrderUpdate _ | BtBalanceUpdate _ | BtPositionUpdate _ => true
  | _ => false
  end.

Definition process_event (e : BtEvent) (s : S) (bt : Bt) : outcome (S * Bt) :=
  let ts := ev_ts_ms e in
  r ← fire_due (negb (is_update (ev_kind e))) ts s bt;
  let '(s, bt) := r in
  match ev_kind e with
  | BtOrderUpdate oue =>
      let bt := bt <| bt_result ::= λ r,
                  r <| br_trades := br_trades r ++ option_list (oue_last_trade oue) |>
                    <| br_order_updates := br_order_updates r ++ [oue] |> |> in
      callback (λ s, StrategyRunner.on_order_update_preserve_ts s oue) ts s bt
  | BtBalanceUpdate bue =>
      let bt := bt <| bt_result ::= λ r,
                  r <| br_balance_updates := br_balance_updates r ++ [bue] |> |> in
      callback (λ s, StrategyRunner.on_balance_update s bue) ts s bt
  | BtPositionUpdate pue =>
      let bt := bt <| bt_result ::= λ r,
                  r <| br_position_updates := br_position_updates r ++ [pue] |> |> in
      callback (λ s, StrategyRunner.on_position_update s pue) ts s bt
  | BtTick tick =>
      r ← BacktestOms.on_tick clk uuid tick (bt_boms bt);
      let bt := requeue_bt_oms_output r.1 (bt <| bt_boms := r.2 |>) in
      callback (λ s, StrategyRunner.on_tick s tick) ts s bt
  | BtBar bar => callback (λ s, StrategyRunner.on_bar s bar) ts s bt
  | BtSignal sig => callback (λ s, StrategyRunner.on_signal s sig) ts s bt
  | BtTimer te => callback (λ s, StrategyRunner.invoke (strategy_on_timer te) s) ts s bt
  end.

(** Progress made by an event, and the percentages reported so far. *)
Definition report_progress (now_ms : Z) (p : option ProgressTracker * list Z)
    : option ProgressTracker * list Z :=
  match p.1 with
  | Some tracker =>
      let '(calls, tracker) := ProgressTracker.update now_ms tracker in
      (Some tracker, p.2 ++ calls)
  | None => p
  end.

Fixpoint event_loop (bound : nat) (p : option ProgressTracker * list Z) (s : S) (bt : Bt)
    : outcome (S * Bt * list Z) :=
  match bound with
  | O => Panics "event_loop: bound"
  | Datatypes.S bound =>
      r ← EventQueue.pop (bt_queue bt);
      let bt := bt <| bt_queue := r.2 |> in
      match r.1 with
      | None => Returns (s, bt, (report_progress (2 ^ 63 - 1) p).2)
      | Some e =>
          let p := report_progress (ev_ts_ms e) p in
          r ← process_event e s bt;
          event_loop bound p r.1 r.2
      end
  end.

(** [on_create], the init data, [on_init] and [on_reinit]. *)
Definition start (s : S) (bt : Bt) : outcome (S * Bt) :=
  r ← callback StrategyRunner.on_create 0 s bt;
  let '(s, bt) := r in
  let bt :=
    match bt_init_data_fetcher bt with
    | Some fetcher =>
        bt <| bt_init_data_fetcher := None |>
           <| bt_runner ::= λ r, r <| run_ctx :=
                StrategyContext.set_init_data (fetcher (run_ctx r)) (run_ctx r) |> |>
    | None => bt
    end in
  r ← callback StrategyRunner.on_init 0 s bt;
  callback StrategyRunner.on_reinit 0 r.1 r.2.

(** The progress tracker, if a callback is set; it is consumed. *)
Definition progress_tracker (bt : Bt) : option ProgressTracker :=
  if bt_progress_callback bt then
    let start := default 0 (bt_data_start_ms bt) in
    let end_ms := default start (bt_data_end_ms bt) in
    Some (ProgressTracker.new start end_ms)
  else None.

Definition run (bound : nat) (s : S) (bt : Bt) : outcome (S * Bt * list Z) :=
  let p := progress_tracker bt in
  let bt := bt <| bt_progress_callback := false |> in
  r ← start s bt;
  event_loop bound (p, []) r.1 r.2.
End backtester.
End Backtester.
