(* ===== verification/BacktestFacts.v ===== *)
(** * A backtest runs to the end

    A strategy that requests finitely many orders and cancels, and subscribes
    valid timers, is replayed to the end: the loop of [Backtester::run] empties
    the queue and nothing on the way panics, neither in the OMS core nor in the
    simulator, the timers or the queue.  Progress is then reported for each
    percentage once, and the trades collected are those of the order updates.
    The second half shows what the composition does against expectation. *)

From S2P Require Import Prelude F64 Proto Intern Models Config Utils V1Stores V1Orders V1Core.
From S2P Require Import V1Safety Collections Rtmd Scheduler SchedulerFacts ClockContract.
From S2P Require Import Strategy TimerFacts Simulator SimFacts EventQueue QueueFacts BacktestOms.
From S2P Require Import Backtester.

(** ** The OMS of the backtester does not panic *)

Section oms.
Context `{!HashIter string, !HashIter Z, !HashIterOk Z, !HashIter (Z * string), !Uppercase}.
Context (clk : nat → nat → Z) (uuid : nat → string).
Implicit Types (b : BacktestOms).

Definition oms_keyed (b : BacktestOms) : Prop := sim_keyed (bt_simulator b).

Lemma bt_message_returns msg b :
  returns (BacktestOms.process_message clk msg b) (λ r, bt_simulator r.2 = bt_simulator b).
Proof.
  unfold BacktestOms.process_message. apply returns_bind.
  eapply returns_mono; [apply process_message_returns|]. done.
Qed.

Lemma sim_fills_simulator fills b :
  bt_simulator (foldl (λ b fill, BacktestOms.apply_sim_fill fill b) b fills) = bt_simulator b.
Proof.
  revert b. induction fills as [|f fills IH]; intros b; [done|]. simpl. rewrite IH.
  unfold BacktestOms.apply_sim_fill. by destruct (split_dash _) as [[]|].
Qed.

Lemma process_sim_results_returns srs b :
  oms_keyed b → returns (BacktestOms.process_sim_results clk srs b) (λ r, oms_keyed r.2).
Proof.
  intros Hk. apply (returns_for_each (λ r : list BtOmsOutput * BacktestOms, oms_keyed r.2)); [done|].
  clear b Hk. intros [outs b] sr _ Hk. unfold BacktestOms.process_sim_result. cbv zeta.
  apply returns_bind. eapply returns_mono; [apply bt_message_returns|]. intros [acts b1] Hb1.
  apply (returns_for_each (λ r : list BtOmsOutput * BacktestOms, oms_keyed r.2)).
  { unfold oms_keyed in *. cbn [snd] in *. by rewrite sim_fills_simulator, Hb1. }
  intros [outs' b2] acc _ Hk2. apply returns_bind.
  eapply returns_mono; [apply bt_message_returns|]. intros [acts2 b3] Hr. unfold oms_keyed in *. simpl in *. by rewrite Hr.
Qed.

Lemma handle_oms_actions_returns acts ts b :
  oms_keyed b → returns (BacktestOms.handle_oms_actions clk uuid acts ts b) (λ r, oms_keyed r.2).
Proof.
  intros Hk. apply (returns_for_each (λ r : list BtOmsOutput * BacktestOms, oms_keyed r.2)); [done|].
  clear b Hk. intros [outs b] a _ Hk. cbn [snd] in Hk.
  destruct a; cbn [BacktestOms.handle_oms_action]; try exact Hk.
  - pose proof (on_new_order_keyed uuid request ts _ Hk) as Hk'.
    destruct (SimulatorCore.on_new_order uuid _ _ _) as [srs sim].
    apply returns_bind. by eapply returns_mono; [by apply process_sim_results_returns|].
  - pose proof (on_cancel_keyed request ts _ Hk) as Hk'.
    destruct (SimulatorCore.on_cancel _ _ _) as [srs sim].
    apply returns_bind. by eapply returns_mono; [by apply process_sim_results_returns|].
Qed.

Lemma bt_new_order_returns order ts b :
  oms_keyed b → returns (BacktestOms.on_new_order clk uuid order ts b) (λ r, oms_keyed r.2).
Proof.
  intros Hk. apply returns_bind. eapply returns_mono; [apply bt_message_returns|]. intros r Hr.
  apply handle_oms_actions_returns. unfold oms_keyed. by rewrite Hr.
Qed.

Lemma bt_cancel_returns cancel ts b :
  oms_keyed b → returns (BacktestOms.on_cancel clk uuid cancel ts b) (λ r, oms_keyed r.2).
Proof.
  intros Hk. apply returns_bind. eapply returns_mono; [apply bt_message_returns|]. intros r Hr.
  apply handle_oms_actions_returns. unfold oms_keyed. by rewrite Hr.
Qed.

Lemma bt_tick_returns tick b :
  oms_keyed b → returns (BacktestOms.on_tick clk uuid tick b) (λ r, oms_keyed r.2).
Proof.
  intros Hk. apply returns_bind. eapply returns_mono; [by apply on_tick_keyed|]. intros r Hr.
  by apply process_sim_results_returns.
Qed.
End oms.

(** ** Strategies with a budget *)

Section strategy.
Context {D S : Type} `{!Strategy D S, !CronLib}.

Definition is_request (a : SAction.t) : bool :=
  match a with SAction.PlaceOrder _ | SAction.Cancel _ => true | _ => false end.
Definition requests (actions : list SAction.t) : nat := length (filter is_request actions).

(** Each order or cancel a callback requests is paid for out of [budget]. *)
Class Budgeted (budget : S → nat) : Prop :=
  budgeted cb ctx s : callback_of cb →
    let '(actions, s', _) := cb ctx s in
    (budget s' + requests actions ≤ budget s)%nat ∧ Forall action_ok actions.
End strategy.

(** ** Each step of the loop *)

(** The events produced by the replay are updates of the OMS. *)
Definition updates_only `{!BinaryHeap BtEvent} (q : EventQueue) : Prop :=
  Forall (λ e, Backtester.is_update (ev_kind e) = true) (heap_iter (eq_dynamic q)).

Record bt_inv {D} `{!CronLib, !BinaryHeap TimerEntry, !BinaryHeap BtEvent} (bt : Backtester D) : Prop := {
  bi_queue : queue_wf (bt_queue bt);
  bi_updates : updates_only (bt_queue bt);
  bi_keyed : oms_keyed (bt_boms bt);
  bi_timers : timers_dated (run_timer (bt_runner bt));
  bi_trades : br_trades (bt_result bt) = omap oue_last_trade (br_order_updates (bt_result bt));
}.

Section loop.
Context {D S : Type} `{!Strategy D S, !CronLib, !CronLibOk}.
Context `{!BinaryHeap TimerEntry, Hth : !BinaryHeapOk timer_before}.
Context `{!BinaryHeap BtEvent, Heh : !BinaryHeapOk event_before}.
Context `{!UnstableSort (Z * BtEventKind), !UnstableSortOk UnstableSort0}.
Context `{!HashIter string, !HashIter Z, !HashIterOk Z, !HashIter (Z * string), !Uppercase}.
Context (clk : nat → nat → Z) (uuid : nat → string).
Context (budget : S → nat) `{!Budgeted budget}.
Implicit Types (s : S) (bt : Backtester D).

(** What dispatching leaves of the queue: the streams, and the replay's own
    events too unless something was requested. *)
Record queue_kept (quiet : Prop) (bt bt' : Backtester D) : Prop := {
  qk_streams : eq_streams (bt_queue bt') = eq_streams (bt_queue bt);
  qk_dynamic : quiet → eq_dynamic (bt_queue bt') = eq_dynamic (bt_queue bt);
}.

Lemma requeue_kept outs bt :
  bt_inv bt → bt_inv (Backtester.requeue_bt_oms_output outs bt) ∧
  queue_kept False bt (Backtester.requeue_bt_oms_output outs bt).
Proof.
  intros Hinv. unfold Backtester.requeue_bt_oms_output.
  assert (∀ q, queue_wf q ∧ updates_only q → 
    let q' := foldl Backtester.requeue_output q outs in
    (queue_wf q' ∧ updates_only q') ∧ eq_streams q' = eq_streams q) as Hq.
  { induction outs as [|o outs IH]; intros q [Hwf Hup]; [done|]. simpl.
    assert (∀ q ts kind, Backtester.is_update kind = true → queue_wf q ∧ updates_only q →
      queue_wf (EventQueue.push ts kind q) ∧ updates_only (EventQueue.push ts kind q)) as Hpush.
    { intros q1 ts kind Hk [? ?]. split; [done|]. unfold updates_only. simpl.
      rewrite heap_iter_push. by constructor. }
    destruct (IH (Backtester.requeue_output q o)) as [Hout ->].
    - unfold Backtester.requeue_output.
      destruct (bo_order_update o), (bo_balance_update o), (bo_position_update o); simpl;
        repeat apply Hpush; done.
    - split; [done|]. unfold Backtester.requeue_output.
      by destruct (bo_order_update o), (bo_balance_update o), (bo_position_update o). }
  destruct (Hq (bt_queue bt)) as [[Hwf Hup] Hs]; [split; apply Hinv|].
  split; split; try apply Hinv; done.
Qed.

Lemma dispatch_action_kept ts a bt :
  bt_inv bt → action_ok a →
  returns (Backtester.dispatch_action clk uuid ts bt a)
    (λ bt', bt_inv bt' ∧ queue_kept (is_request a = false) bt bt').
Proof.
  intros Hinv Ha. destruct a as [order|cancel|log|sub]; cbn [Backtester.dispatch_action].
  - apply returns_bind. eapply returns_mono; [apply bt_new_order_returns, Hinv|].
    intros [outs b] Hb. edestruct (requeue_kept outs) as [Hi Hk]; cycle 1.
    { split; [exact Hi|]. split; [apply Hk|done]. }
    split; try apply Hinv; done.
  - apply returns_bind. eapply returns_mono; [apply bt_cancel_returns, Hinv|].
    intros [outs b] Hb. edestruct (requeue_kept outs) as [Hi Hk]; cycle 1.
    { split; [exact Hi|]. split; [apply Hk|done]. }
    split; try apply Hinv; done.
  - split; split; try apply Hinv; done.
  - cbn [action_ok] in Ha. destruct (tsub_schedule sub) as [expr start end_ms|fire].
    + destruct Ha as [Hsch Hstart]. apply returns_bind.
      eapply returns_mono; [apply subscribe_cron_returns; [done|done|apply Hinv]|].
      intros timer Ht. split; split; try apply Hinv; done.
    + split; split; try apply Hinv; try done. by apply push_dated; [apply Hinv|].
Qed.

Lemma dispatch_actions_kept actions ts bt :
  bt_inv bt → Forall action_ok actions →
  returns (Backtester.dispatch_actions clk uuid actions ts bt)
    (λ bt', bt_inv bt' ∧ queue_kept (requests actions = 0%nat) bt bt').
Proof.
  intros Hinv Hok. unfold Backtester.dispatch_actions.
  revert bt Hinv. induction Hok as [|a actions Ha _ IH]; intros bt Hinv; cbn [for_each].
  { split; [done|by split]. }
  apply returns_bind. eapply returns_mono; [by apply dispatch_action_kept|].
  intros bt1 [Hi1 [Hs1 Hd1]]. eapply returns_mono; [by apply IH|].
  intros bt2 [Hi2 [Hs2 Hd2]]. split; [done|]. split; [congruence|].
  unfold requests. rewrite filter_cons. case_decide as Hr; [done|]. intros Hq.
  rewrite Hd2, Hd1; [done| |done]. by destruct (is_request a).
Qed.

(** Callbacks spend budget when they change the replay's own events. *)
Record spends (s : S) (bt : Backtester D) (s' : S) (bt' : Backtester D) : Prop := {
  sp_budget : (budget s' ≤ budget s)%nat;
  sp_kept : queue_kept (budget s' = budget s) bt bt';
}.

Lemma spends_trans s1 bt1 s2 bt2 s3 bt3 :
  spends s1 bt1 s2 bt2 → spends s2 bt2 s3 bt3 → spends s1 bt1 s3 bt3.
Proof.
  intros [Hb1 [Hs1 Hd1]] [Hb2 [Hs2 Hd2]]. split; [lia|]. split; [congruence|].
  intros ?. rewrite Hd2, Hd1 by lia. done.
Qed.

(** What a function of the runner that invokes callbacks guarantees. *)
Definition frugal (s : S) (r : list SAction.t * S * StrategyRunner D) : Prop :=
  let '(actions, s', runner) := r in
  (budget s' + requests actions ≤ budget s)%nat ∧ Forall action_ok actions ∧
  timers_dated (run_timer runner).

Lemma invoke_frugal cb s (r : StrategyRunner D) :
  callback_of cb → timers_dated (run_timer r) → frugal s (StrategyRunner.invoke cb s r).
Proof.
  intros Hcb Hd. unfold StrategyRunner.invoke. pose proof (budgeted cb (run_ctx r) s Hcb) as Hb.
  destruct (cb (run_ctx r) s) as [[actions s'] ids]. simpl. naive_solver.
Qed.

Lemma fire_timers_frugal events s (r : StrategyRunner D) :
  timers_dated (run_timer r) → frugal s (StrategyRunner.fire_timers events s r).
Proof.
  intros Hd. unfold StrategyRunner.fire_timers. induction events as [|te events IH] using rev_ind.
  { simpl. split; [unfold requests; simpl; lia|]. by split. }
  rewrite foldl_snoc. destruct (foldl _ _ events) as [[actions s1] r1].
  destruct IH as (Hb & Ha & Hd1). pose proof (invoke_frugal _ s1 r1 (cb_timer te) Hd1) as Hi.
  destruct (StrategyRunner.invoke _ s1 r1) as [[more s2] r2]. destruct Hi as (Hb2 & Ha2 & Hd2).
  split; [|split; [by apply Forall_app|done]].
  unfold requests in *. rewrite filter_app, length_app. lia.
Qed.

Lemma dispatch_frugal res s ts bt :
  bt_inv bt → frugal s res →
  returns (let '(actions, s, runner) := res in
           bt ← Backtester.dispatch_actions clk uuid actions ts (bt <| bt_runner := runner |>);
           Returns (s, bt)) (λ r, bt_inv r.2 ∧ spends s bt r.1 r.2).
Proof.
  intros Hinv Hf. destruct res as [[actions s'] runner]. destruct Hf as (Hb & Ha & Hd).
  apply returns_bind. eapply returns_mono.
  { apply dispatch_actions_kept; [|exact Ha]. split; try apply Hinv. done. }
  intros bt' [Hi [Hs Hk]]. split; [done|]. split; [simpl; lia|]. split; [done|].
  intros Heq. apply Hk. simpl in Heq. lia.
Qed.

Lemma callback_spends f ts s bt :
  bt_inv bt → frugal s (f s (bt_runner bt)) →
  returns (Backtester.callback clk uuid f ts s bt) (λ r, bt_inv r.2 ∧ spends s bt r.1 r.2).
Proof. intros. by apply dispatch_frugal. Qed.

Lemma fire_due_spends advance ts s bt :
  bt_inv bt →
  returns (Backtester.fire_due clk uuid advance ts s bt) (λ r, bt_inv r.2 ∧ spends s bt r.1 r.2).
Proof.
  intros Hinv. unfold Backtester.fire_due. apply returns_bind.
  eapply (returns_mono _ (frugal s)); [|intros res Hf; by apply dispatch_frugal].
  destruct advance; apply returns_bind; (eapply returns_mono; [apply drain_due_returns, Hinv|]);
    intros [events m] Hm; by apply fire_timers_frugal.
Qed.

Lemma process_event_spends e s bt :
  bt_inv bt →
  returns (Backtester.process_event clk uuid e s bt) (λ r, bt_inv r.2 ∧
    (budget r.1 ≤ budget s)%nat ∧ eq_streams (bt_queue r.2) = eq_streams (bt_queue bt) ∧
    (Backtester.is_update (ev_kind e) = true → spends s bt r.1 r.2)).
Proof.
  intros Hinv. unfold Backtester.process_event. apply returns_bind.
  eapply returns_mono; [by apply fire_due_spends|]. intros [s1 bt1] [Hi1 Hsp1]. cbn [fst snd] in *.
  assert (∀ f bt2, bt_inv bt2 → queue_kept (Backtester.is_update (ev_kind e) = true) bt1 bt2 →
    frugal s1 (f s1 (bt_runner bt2)) →
    returns (Backtester.callback clk uuid f (ev_ts_ms e) s1 bt2) (λ r, bt_inv r.2 ∧
      (budget r.1 ≤ budget s)%nat ∧ eq_streams (bt_queue r.2) = eq_streams (bt_queue bt) ∧
      (Backtester.is_update (ev_kind e) = true → spends s bt r.1 r.2))) as Hcb.
  { intros f bt2 Hi2 [Hs2 Hd2] Hf. eapply returns_mono; [by apply callback_spends|].
    intros [s3 bt3] [Hi3 Hsp3]. cbn [fst snd] in *. pose proof Hsp1 as [Hb1 [Hst1 _]].
    pose proof Hsp3 as [Hb3 [Hst3 _]]. split; [done|]. split; [lia|]. split; [congruence|].
    intros Hu. apply (spends_trans s bt s1 bt1); [done|].
    apply (spends_trans s1 bt1 s1 bt2); [|done]. split; [done|]. split; auto. }
  pose proof Hi1 as [Hq Hup Hk Hd Htr].
  destruct (ev_kind e) as [tick|sig|bar|bue|pue|oue|te] eqn:Ek.
  - apply returns_bind. eapply returns_mono; [apply bt_tick_returns, Hk|]. intros [outs b] Hb.
    edestruct (requeue_kept outs (bt1 <| bt_boms := b |>)) as [Hi2 [Hs2 _]]; [by split|].
    apply Hcb; [exact Hi2|by split|]. apply invoke_frugal; [constructor|apply Hi2].
  - apply Hcb; [done|by split|]. apply invoke_frugal; [constructor|done].
  - apply Hcb; [done|by split|]. apply invoke_frugal; [constructor|done].
  - apply Hcb; [by split|by split|]. apply invoke_frugal; [constructor|done].
  - apply Hcb; [by split|by split|]. apply invoke_frugal; [constructor|done].
  - apply Hcb; [|by split|apply invoke_frugal; [constructor|done]].
    split; [done..|]. simpl. rewrite Htr, omap_app. done.
  - apply Hcb; [done|by split|]. apply invoke_frugal; [constructor|done].
Qed.

(** ** The loop *)

Notation progress := (option ProgressTracker * list Z)%type.

(** 0 to 100 *)
Definition percentages : list Z := Z.of_nat <$> seq 0 101.

(** The percentages reported so far are those of the checkpoints passed. *)
Definition progress_ok (p : progress) : Prop :=
  match p.1 with
  | Some t => length (pt_checkpoints t) = 101%nat ∧ (pt_next t ≤ 101)%nat ∧
      Forall (λ c, c < 2 ^ 63) (pt_checkpoints t) ∧ p.2 = Z.of_nat <$> seq 0 (pt_next t)
  | None => p.2 = []
  end.

Lemma reached_length now cs : (ProgressTracker.reached now cs ≤ length cs)%nat.
Proof. induction cs as [|c cs IH]; simpl; [lia|]. case_match; lia. Qed.

Lemma reached_all cs :
  Forall (λ c, c < 2 ^ 63) cs → ProgressTracker.reached (2 ^ 63 - 1) cs = length cs.
Proof.
  induction 1 as [|c cs Hc _ IH]; simpl; [done|].
  destruct (Z.leb_spec c (2 ^ 63 - 1)); [by rewrite IH|lia].
Qed.

Lemma report_progress_ok now (p : progress) :
  progress_ok p → progress_ok (Backtester.report_progress now p) ∧
  (is_Some (Backtester.report_progress now p).1 ↔ is_Some p.1).
Proof.
  destruct p as [[t|] calls]; [|done]. intros (Hl & Hn & Hc & Hcalls). simpl in *.
  pose proof (reached_length now (drop (pt_next t) (pt_checkpoints t))) as Hr.
  rewrite length_drop, Hl in Hr. split; [|split; eauto].
  unfold progress_ok. simpl. split; [done|]. split; [lia|]. split; [done|].
  by rewrite Hcalls, seq_app, fmap_app.
Qed.

(** After the last event, every percentage has been reported once, in order. *)
Lemma final_progress (p : progress) :
  progress_ok p →
  (Backtester.report_progress (2 ^ 63 - 1) p).2 =
    if decide (is_Some p.1) then percentages else [].
Proof.
  destruct p as [[t|] calls]; simpl; [|done]. intros (Hl & Hn & Hc & Hcalls). simpl in *. subst calls.
  rewrite reached_all, length_drop, Hl, <- fmap_app by (by apply Forall_drop).
  unfold percentages. pose proof (seq_app (pt_next t) (101 - pt_next t) 0) as Hs.
  rewrite Nat.add_comm, Nat.sub_add in Hs by done. rewrite Hs. simpl. done.
Qed.

(** A larger bound changes nothing. *)
Lemma event_loop_bound n k p s bt r :
  Backtester.event_loop clk uuid n p s bt = Returns r → (n ≤ k)%nat →
  Backtester.event_loop clk uuid k p s bt = Returns r.
Proof.
  revert k p s bt. induction n as [|n IH]; intros [|k] p s bt Hr Hle; [done..|lia|].
  cbn [Backtester.event_loop] in *. destruct (EventQueue.pop _) as [[[e|] q]|]; [|done..].
  cbn [mbind outcome_bind fst snd] in *.
  destruct (Backtester.process_event _ _ _ _ _) as [r1|]; [|done].
  cbn [mbind outcome_bind] in *. apply IH; [done|lia].
Qed.

Definition finished (s : S) (p : progress) (r : S * Backtester D * list Z) : Prop :=
  let '(s', bt', calls) := r in
  bt_inv bt' ∧ contents (bt_queue bt') = [] ∧ (budget s' ≤ budget s)%nat ∧
  calls = if decide (is_Some p.1) then percentages else [].

Lemma event_loop_finishes p s bt :
  bt_inv bt → progress_ok p →
  ∃ n, returns (Backtester.event_loop clk uuid n p s bt) (finished s p).
Proof.
  remember (budget s + stream_len (bt_queue bt))%nat as m eqn:Hm.
  remember (heap_len (eq_dynamic (bt_queue bt))) as h eqn:Hh. revert h p s bt Hm Hh.
  induction m as [m IHm] using lt_wf_ind. intros h. induction h as [h IHh] using lt_wf_ind.
  intros p s bt -> -> Hinv Hp.
  destruct (returns_inv _ _ (pop_popped _ (bi_queue _ Hinv))) as ([r q] & Epop & [Hwf _ Hev]).
  cbn [fst snd] in *. destruct r as [e|].
  2: { exists 1%nat. cbn [Backtester.event_loop]. rewrite Epop. cbn [mbind outcome_bind fst snd returns].
       destruct Hev as [Hc ->]. unfold finished. split; [by split; try apply Hinv|]. split; [done|].
       split; [done|]. by apply final_progress. }
  destruct (report_progress_ok (ev_ts_ms e) p Hp) as [Hp1 Hpi].
  pose proof (pop_source _ _ _ Epop) as Hsrc. pose proof (bi_updates _ Hinv) as Hup.
  destruct (returns_inv _ _ (process_event_spends e s (bt <| bt_queue := q |>)
    ltac:(split; try apply Hinv; [done|]; destruct Hsrc as [[_ Hperm]|[Heq _]]; unfold updates_only in *;
          simpl; [rewrite Hperm in Hup; by apply Forall_cons in Hup as [_ ?]|by rewrite Heq])))
    as ([s1 bt1] & Eproc & Hi1 & Hb1 & Hs1 & Hsp).
  cbn [fst snd bt_queue set_field] in Hs1, Hb1, Hi1, Hsp.
  assert (∃ n, returns (Backtester.event_loop clk uuid n (Backtester.report_progress (ev_ts_ms e) p) s1 bt1)
            (finished s1 (Backtester.report_progress (ev_ts_ms e) p))) as [n Hn].
  { destruct Hsrc as [[Hst Hperm]|[_ Hlt]].
    - assert (Backtester.is_update (ev_kind e) = true) as Hu.
      { unfold updates_only in Hup. rewrite Hperm in Hup. by apply Forall_cons in Hup as [? _]. }
      destruct (Hsp Hu) as [_ [_ Hd]]. cbn [bt_queue set_field] in Hd.
      assert (stream_len (bt_queue bt1) = stream_len (bt_queue bt)) as Hsl.
      { unfold stream_len. by rewrite Hs1, Hst. }
      destruct (decide (budget s1 = budget s)) as [Heq|Hne].
      + eapply (IHh (heap_len (eq_dynamic (bt_queue bt1)))); [|lia|done..].
        rewrite (Hd Heq). unfold heap_len. rewrite Hperm. simpl. lia.
      + eapply (IHm (budget s1 + stream_len (bt_queue bt1))%nat); [lia|done..].
    - eapply (IHm (budget s1 + stream_len (bt_queue bt1))%nat); [|done..].
      unfold stream_len in *. rewrite Hs1. simpl. lia. }
  exists (Datatypes.S n). cbn [Backtester.event_loop]. rewrite Epop. cbn [mbind outcome_bind fst snd].
  rewrite Eproc. cbn [mbind outcome_bind fst snd]. eapply returns_mono; [exact Hn|].
  intros [[s2 bt2] calls] (? & ? & ? & ->). split; [done|]. split; [done|]. split; [lia|].
  by apply decide_ext.
Qed.

(** ** Whole runs *)

Lemma start_spends s bt :
  bt_inv bt → returns (Backtester.start clk uuid s bt) (λ r, bt_inv r.2 ∧ (budget r.1 ≤ budget s)%nat).
Proof.
  intros Hinv. unfold Backtester.start. apply returns_bind.
  eapply returns_mono; [apply callback_spends; [done|]|].
  { apply invoke_frugal; [constructor|apply Hinv]. }
  intros [s1 bt1] [Hi1 [Hb1 _]]. cbn [fst snd] in *. set (bt2 := match _ with Some _ => _ | None => _ end).
  assert (bt_inv bt2) as Hi2.
  { subst bt2. destruct (bt_init_data_fetcher bt1); [|done]. split; apply Hi1. }
  apply returns_bind. eapply returns_mono; [apply callback_spends; [done|]|].
  { apply invoke_frugal; [constructor|apply Hi2]. }
  intros [s3 bt3] [Hi3 [Hb3 _]]. cbn [fst snd] in *.
  eapply returns_mono; [apply callback_spends; [done|]|].
  { apply invoke_frugal; [constructor|apply Hi3]. }
  intros [s4 bt4] [Hi4 [Hb4 _]]. cbn [fst snd] in *. split; [done|lia].
Qed.

Context (seed : Z).

(** A new backtester with market data. *)
Definition prepared (config : BacktestConfig D) (streams : list (list (Z * BtEventKind))) : Backtester D :=
  foldl (λ bt events, Backtester.add_sorted_stream events bt) (Backtester.new seed config) streams.

Lemma add_sorted_stream_inv events bt :
  bt_inv bt → bt_inv (Backtester.add_sorted_stream events bt) ∧
  bt_progress_callback (Backtester.add_sorted_stream events bt) = bt_progress_callback bt.
Proof.
  intros [Hq Hup Hk Hd Htr]. unfold Backtester.add_sorted_stream.
  set (bt1 := match head events with Some _ => _ | None => _ end).
  assert (bt_queue bt1 = bt_queue bt ∧ bt_boms bt1 = bt_boms bt ∧ bt_runner bt1 = bt_runner bt ∧
    bt_result bt1 = bt_result bt ∧ bt_progress_callback bt1 = bt_progress_callback bt)
    as (Eq & Eb & Er & Es & Ep).
  { subst bt1. by destruct (head events), (last events). }
  clearbody bt1. split; [|done]. split; cbn [bt_queue bt_boms bt_runner bt_result set_field].
  - rewrite <- Eq in Hq. by apply add_stream_wf.
  - rewrite <- Eq in Hup. unfold EventQueue.add_stream. by destruct events.
  - by rewrite <- Eb in Hk.
  - by rewrite <- Er in Hd.
  - by rewrite <- Es in Htr.
Qed.

Lemma prepared_spec config streams :
  bt_inv (prepared config streams) ∧
  bt_progress_callback (prepared config streams) = bc_progress_callback config.
Proof.
  unfold prepared. induction streams as [|events streams [IH IHp]] using rev_ind.
  - split; [|done]. split; simpl; [constructor|unfold updates_only; simpl; by rewrite heap_iter_new| | |done].
    + intros id o. simpl. by rewrite lookup_empty.
    + apply new_dated.
  - rewrite foldl_snoc. destruct (add_sorted_stream_inv events _ IH) as [? ->]. done.
Qed.

Lemma new_tracker_ok start end_ms : progress_ok (Some (ProgressTracker.new start end_ms), []).
Proof.
  unfold progress_ok, ProgressTracker.new. cbn [fst snd pt_checkpoints pt_next].
  split; [by rewrite length_fmap, length_seq|]. split; [lia|]. split; [|done].
  apply Forall_fmap, Forall_forall. intros i _.
  apply wrap_i64_range.
Qed.

(** C12: a backtest runs to the end.  For a strategy whose callbacks request
    finitely many orders and cancels in all and subscribe only to valid cron
    expressions, over any market data, [run] returns, with the same result for
    every sufficiently large bound on the number of events: no [unwrap] of the
    OMS core, the simulator, the queue or the timers panics on the way, and the
    queue is empty at the end.  The progress callback, if any, has then been
    given 0 to 100 in order, each once, and the trades collected are those of
    the order updates delivered. *)
Theorem backtest_completes config streams s :
  ∃ n s' bt' calls,
    (∀ k, (n ≤ k)%nat →
       Backtester.run clk uuid k s (prepared config streams) = Returns (s', bt', calls)) ∧
    EventQueue.is_empty (bt_queue bt') = true ∧
    calls = (if bc_progress_callback config then percentages else []) ∧
    br_trades (bt_result bt') = omap oue_last_trade (br_order_updates (bt_result bt')).
Proof.
  destruct (prepared_spec config streams) as [Hinv Hcb]. unfold Backtester.run.
  set (bt := prepared config streams) in *.
  destruct (returns_inv _ _ (start_spends s (bt <| bt_progress_callback := false |>)
    ltac:(split; apply Hinv))) as ([s1 bt1] & -> & Hi1 & _). cbn [mbind outcome_bind fst snd] in *.
  destruct (event_loop_finishes (Backtester.progress_tracker bt, []) s1 bt1 Hi1) as [n Hn].
  { unfold Backtester.progress_tracker. destruct (bt_progress_callback bt); [|done].
    apply new_tracker_ok. }
  apply returns_inv in Hn as ([[s2 bt2] calls] & Hrun & Hi2 & Hempty & _ & ->).
  exists n, s2, bt2, (if bc_progress_callback config then percentages else []).
  split; [|split; [by apply is_empty_contents|split; [done|apply Hi2]]].
  intros k Hk. rewrite (event_loop_bound n k _ _ _ _ Hrun Hk), <- Hcb.
  unfold Backtester.progress_tracker. by destruct (bt_progress_callback bt).
Qed.
End loop.

(** ** A run: an order placed on a bar, partly filled by a tick and cancelled *)

Section demo.
#[local] Existing Instances demo_cron demo_timer_heap demo_event_heap.
#[local] Instance demo_sort : UnstableSort (Z * BtEventKind) := stable_sort.
#[local] Instance bt_iter_string : HashIter string := canonical_iter.
#[local] Instance bt_iter_Z : HashIter Z := canonical_iter.
#[local] Instance bt_iter_Zs : HashIter (Z * string) := canonical_iter.
#[local] Instance bt_uppercase : Uppercase := ascii_uppercase.

(** Two requests: an order on the first bar, its cancellation on the first tick. *)
#[export] Instance place_and_cancel : Strategy unit nat := {|
  strategy_on_create _ := no_op;
  strategy_on_init _ := no_op;
  strategy_on_reinit _ := no_op;
  strategy_on_tick _ _ s :=
    match s with
    | 1%nat => ([SAction.Cancel (mkStrategyCancel 1 7)], 0%nat, 0%nat)
    | _ => no_op s
    end;
  strategy_on_bar _ _ s :=
    match s with
    | 2%nat => ([SAction.PlaceOrder
                   (mkStrategyOrder 1 "BTC-USDT" (f64.of_Z 100) (f64.of_Z 10) BsBuy 1 7)],
                1%nat, 0%nat)
    | _ => no_op s
    end;
  strategy_on_signal _ _ := no_op;
  strategy_on_order_update _ _ := no_op;
  strategy_on_balance_update _ _ := no_op;
  strategy_on_position_update _ _ := no_op;
  strategy_on_timer _ _ := no_op;
  strategy_on_pause _ _ := no_op;
  strategy_on_resume _ _ := no_op;
|}.

Lemma place_and_cancel_budgeted : Budgeted (D := unit) (λ s : nat, s).
Proof.
  intros cb ctx s Hcb. destruct Hcb; try destruct s as [|[|[|s]]]; simpl; unfold requests; simpl;
    (split; [lia|repeat (constructor; try done)]).
Qed.

Definition demo_run_config : BacktestConfig unit :=
  mkBacktestConfig unit [7]
    [default_InstrumentRefData <| rd_instrument_id := "BTC-USDT" |>
       <| rd_instrument_id_exchange := "BTC-USDT" |> <| rd_exchange_name := "SIM1" |>
       <| rd_instrument_type := InstTypeSpot |> <| rd_base_asset := "BTC" |>
       <| rd_quote_asset := "USDT" |>]
    (Some {[7 := {["USDT" := f64.of_Z 5000]}]}) None FirstComeFirstServedMatchPolicy None true.
Definition demo_run_streams : list (list (Z * BtEventKind)) :=
  [[(1000, BtBar default_Kline)];
   [(2000, BtTick (mkTickData 0 "BTC-USDT" "" 2000 2000 f64.zero f64.zero f64.zero "" []
                     [mkPriceLevel (f64.of_Z 99) (f64.of_Z 4) 1 1]))]].
Definition demo_clocks (_ k : nat) : Z := 3000 + Z.of_nat k.
Definition demo_ids (n : nat) : string := "exch-" +:+ pretty n.

Definition demo_run : outcome (nat * Backtester unit * list Z) :=
  Backtester.run demo_clocks demo_ids 100 2%nat (prepared 0 demo_run_config demo_run_streams).

(** The plain data of a result. *)
Definition summary (r : outcome (nat * Backtester unit * list Z)) : option (nat * nat * list Z) :=
  match r with
  | Returns (s, bt, _) =>
      Some (s, length (br_order_placements (bt_result bt)),
            oue_timestamp <$> br_order_updates (bt_result bt))
  | Panics _ => None
  end.

Lemma backtest_completes_witness :
  summary demo_run = Some (0%nat, 1%nat, [1000; 2001; 2010]) ∧
  ∃ n s' bt' calls,
    (∀ k, (n ≤ k)%nat →
       Backtester.run demo_clocks demo_ids k 2%nat (prepared 0 demo_run_config demo_run_streams)
         = Returns (s', bt', calls)) ∧
    EventQueue.is_empty (bt_queue bt') = true ∧ calls = percentages ∧
    br_trades (bt_result bt') = omap oue_last_trade (br_order_updates (bt_result bt')).
Proof.
  split; [vm_compute; reflexivity|].
  exact (@backtest_completes _ _ _ _ demo_cron_ok _ demo_timer_heap_ok _ demo_event_heap_ok _
    stable_sort_ok _ _ canonical_iter_ok _ _ demo_clocks demo_ids _ place_and_cancel_budgeted 0
    demo_run_config demo_run_streams 2%nat).
Defined.
End demo.

(** * What the composition of the backtester shows

    The simulator leaves the account of its reports at its default, so the
    simulated exchange ledger of the configured accounts never moves; and a
    cancellation dated before a fill makes an order the strategy saw cancelled
    look open again. *)

(** ** Simulated fills are booked to account 0 *)

Definition account_zero (srs : list SimResult) : Prop :=
  Forall (λ sr, rep_account_id (sr_order_report sr) = 0) srs.

Section ledger.
Context `{!HashIter string, !HashIter Z, !HashIter (Z * string), !Uppercase}.
Context (clk : nat → nat → Z) (uuid : nat → string).
Implicit Types (b : BacktestOms).

Lemma apply_matches_account matches link drawn o :
  account_zero (SimulatorCore.apply_matches uuid matches link drawn o).1.1.
Proof.
  revert drawn o. induction matches as [|m matches IH]; intros drawn o; [constructor|].
  cbn [SimulatorCore.apply_matches]. destruct (apply_match _ _ _ _) as [res o'] eqn:E.
  assert (rep_account_id (sr_order_report res) = 0) as Hres.
  { unfold apply_match in E. by injection E as <- _. }
  case_match; [by repeat constructor|]. specialize (IH (S drawn) o').
  destruct (SimulatorCore.apply_matches uuid matches link (S drawn) o') as [[? ?] ?].
  by constructor.
Qed.

Lemma on_new_order_account req ts s : account_zero (SimulatorCore.on_new_order uuid req ts s).1.
Proof.
  unfold SimulatorCore.on_new_order, SimulatorCore.on_new_order_inner.
  destruct (negb _); [by repeat constructor|]. set (o := mkSimOrder _ _ _ _ _).
  set (ms := match_order _ _ _). pose proof (apply_matches_account ms true (S (sim_drawn s)) o).
  destruct (SimulatorCore.apply_matches uuid ms true (S (sim_drawn s)) o) as [[? ?] ?].
  by constructor.
Qed.

Lemma on_cancel_account req ts s : account_zero (SimulatorCore.on_cancel req ts s).1.
Proof.
  unfold SimulatorCore.on_cancel. destruct (sim_order_cache s !! _); [|constructor].
  case_match; by repeat constructor.
Qed.

Lemma on_tick_account tick s : yields (SimulatorCore.on_tick uuid tick s) (λ r, account_zero r.1).
Proof.
  apply yields_bind. intros t _.
  apply (yields_for_each (λ r : list SimResult * SimulatorCore, account_zero r.1)); [constructor|].
  intros [results s'] id Hr. apply yields_bind. intros o _. cbv zeta.
  pose proof (apply_matches_account (match_order (sim_match_policy s') o (Some t)) false
                (sim_drawn s') o).
  destruct (SimulatorCore.apply_matches uuid _ false _ o) as [[? ?] ?]. by apply Forall_app.
Qed.

(** The ledger of every other account is unchanged. *)
Definition ledger_kept (b b' : BacktestOms) : Prop :=
  ∀ acc, acc ≠ 0 → bt_sim_balances b' !! acc = bt_sim_balances b !! acc.

Lemma ledger_kept_trans b1 b2 b3 : ledger_kept b1 b2 → ledger_kept b2 b3 → ledger_kept b1 b3.
Proof. intros H1 H2 acc Hne. by rewrite H2, H1. Qed.

Lemma message_ledger msg b :
  yields (BacktestOms.process_message clk msg b) (λ r, ledger_kept b r.2).
Proof. apply yields_bind. by intros [acts c] _. Qed.

Lemma fills_ledger report b :
  rep_account_id report = 0 →
  ledger_kept b (foldl (λ b fill, BacktestOms.apply_sim_fill fill b) b (extract_fills report)).
Proof.
  intros Hrep. assert (Forall (λ f, fi_account_id f = 0) (extract_fills report)) as Hf.
  { apply Forall_forall. intros f (e & _ & He)%list_elem_of_omap.
    repeat (case_match; try done); simplify_eq; done. }
  revert b. induction Hf as [|f fills Hf _ IH]; intros b; [done|]. simpl.
  eapply ledger_kept_trans; [|apply IH]. intros acc Hne. unfold BacktestOms.apply_sim_fill.
  destruct (split_dash _) as [[]|]; simpl; by rewrite lookup_insert_ne by congruence.
Qed.

Lemma sim_results_ledger srs b :
  account_zero srs → yields (BacktestOms.process_sim_results clk srs b) (λ r, ledger_kept b r.2).
Proof.
  intros Hz. unfold BacktestOms.process_sim_results.
  assert (∀ outs b', ledger_kept b b' →
    yields (for_each (BacktestOms.process_sim_result clk) srs (outs, b')) (λ r, ledger_kept b r.2))
    as Hloop; [|by apply Hloop].
  induction Hz as [|sr srs Hsr _ IH]; intros outs b' Hb'; cbn [for_each]; [done|].
  apply yields_bind. intros [outs1 b1] E. apply IH. revert E.
  enough (yields (BacktestOms.process_sim_result clk (outs, b') sr) (λ r, ledger_kept b r.2)) as Hy.
  { intros E. by rewrite E in Hy. }
  unfold BacktestOms.process_sim_result. cbv zeta. apply yields_bind. intros [acts b2] E2.
  pose proof (message_ledger (GatewayOrderReport (sr_order_report sr)) b') as Hm. rewrite E2 in Hm.
  apply (yields_for_each (λ r : list BtOmsOutput * BacktestOms, ledger_kept b r.2)).
  { eapply ledger_kept_trans; [exact Hb'|]. eapply ledger_kept_trans; [exact Hm|].
    by apply fills_ledger. }
  intros [outs3 b3] acc Hb3. apply yields_bind. intros [acts4 b4] E4. simpl.
  pose proof (message_ledger (BalanceUpdateMsg (BacktestOms.build_sim_balance_update acc b3)) b3) as Hm4.
  rewrite E4 in Hm4. by eapply ledger_kept_trans.
Qed.

Lemma oms_actions_ledger acts ts b :
  yields (BacktestOms.handle_oms_actions clk uuid acts ts b) (λ r, ledger_kept b r.2).
Proof.
  apply (yields_for_each (λ r : list BtOmsOutput * BacktestOms, ledger_kept b r.2)); [done|].
  intros [outs b1] a Hb. destruct a; cbn [BacktestOms.handle_oms_action]; try exact Hb.
  - pose proof (on_new_order_account request ts (bt_simulator b1)) as Hz.
    destruct (SimulatorCore.on_new_order uuid _ _ _) as [srs sim]. apply yields_bind.
    intros [o2 b2] E. pose proof (sim_results_ledger srs (b1 <| bt_simulator := sim |>) Hz) as Hs.
    rewrite E in Hs. eapply ledger_kept_trans; [exact Hb|exact Hs].
  - pose proof (on_cancel_account request ts (bt_simulator b1)) as Hz.
    destruct (SimulatorCore.on_cancel _ _ _) as [srs sim]. apply yields_bind.
    intros [o2 b2] E. pose proof (sim_results_ledger srs (b1 <| bt_simulator := sim |>) Hz) as Hs.
    rewrite E in Hs. eapply ledger_kept_trans; [exact Hb|exact Hs].
Qed.

(** No operation of the backtest OMS changes the simulated balances of an
    account other than 0, whatever it fills. *)
Theorem sim_ledger_never_moves b acc :
  acc ≠ 0 →
  (∀ order ts, yields (BacktestOms.on_new_order clk uuid order ts b)
     (λ r, bt_sim_balances r.2 !! acc = bt_sim_balances b !! acc)) ∧
  (∀ cancel ts, yields (BacktestOms.on_cancel clk uuid cancel ts b)
     (λ r, bt_sim_balances r.2 !! acc = bt_sim_balances b !! acc)) ∧
  (∀ tick, yields (BacktestOms.on_tick clk uuid tick b)
     (λ r, bt_sim_balances r.2 !! acc = bt_sim_balances b !! acc)).
Proof.
  intros Hne.
  assert (∀ msg ts, yields (r ← BacktestOms.process_message clk msg b;
            BacktestOms.handle_oms_actions clk uuid r.1 ts r.2)
            (λ r, bt_sim_balances r.2 !! acc = bt_sim_balances b !! acc)) as Hmsg.
  { intros msg ts. apply yields_bind. intros [acts b1] E.
    pose proof (message_ledger msg b) as Hm. rewrite E in Hm. simpl in *.
    pose proof (oms_actions_ledger acts ts b1) as Ha.
    destruct (BacktestOms.handle_oms_actions _ _ _ _ _) as [[o2 b2]|]; [|done].
    simpl in *. by rewrite Ha, Hm. }
  split; [intros; apply Hmsg|]. split; [intros; apply Hmsg|].
  intros tick. apply yields_bind. intros [srs sim] E.
  pose proof (on_tick_account tick (bt_simulator b)) as Hz. rewrite E in Hz. simpl in *.
  pose proof (sim_results_ledger srs (b <| bt_simulator := sim |>) Hz) as Hs.
  destruct (BacktestOms.process_sim_results _ _ _) as [[o2 b2]|]; [|done]. by apply Hs.
Qed.
End ledger.

(** ** A cancelled order reopens *)

Section demo.
#[local] Existing Instances demo_cron demo_timer_heap demo_event_heap.

(** The orders an account of the strategy context holds as open and as
    terminal, with their statuses. *)
Definition tracked (acc : Z) (r : outcome (nat * Backtester unit * list Z))
    : list (Z * Z) * list (Z * Z) :=
  let statuses (m : gmap Z Order) := (λ '(id, o), (id, ord_order_status o)) <$> map_to_list m in
  match r with
  | Returns (_, bt, _) =>
      match ctx_account_states (run_ctx (bt_runner bt)) !! acc with
      | Some st => (statuses (as_open_orders st), statuses (as_terminal_orders st))
      | None => ([], [])
      end
  | Panics _ => ([], [])
  end.

(** In [demo_run] an order is partly filled by a tick, with the fill dated
    10 ms later, and cancelled on that tick.  The cancellation is delivered
    first and the fill, whose snapshot is not terminal, puts the order back
    among the open orders: at the end the strategy sees it both open and
    cancelled. *)
Theorem cancelled_order_reopens :
  tracked 7 demo_run = ([(1, OrderStatus_i32 Booked)], [(1, OrderStatus_i32 Cancelled)]).
Proof. vm_compute. reflexivity. Qed.
End demo.
