(* ===== verification/Engine.v ===== *)
(** * The live strategy engine ([zk-engine-rs])

    [engine_event.rs], [latency.rs], [snapshot.rs], [action_dispatcher.rs] and
    [live_engine.rs]: one task takes batches of events from its channel, keeps
    the latest tick of each instrument, calls the strategy and hands the
    requested actions to the dispatcher.

    The dispatcher is told things and answers nothing, so it is the list of calls
    made to it.  [clock k] is what the [k]-th reading of the wall clock and of the
    monotonic clock shows, in nanoseconds; the engine counts its readings.  The
    strategy draws ids from the default allocator of its context. *)

From S2P Require Import Prelude F64 Proto Models Collections Scheduler Rtmd Strategy.

(** ** [engine_event.rs] *)

Inductive ControlCommand : Set :=
| CtlPause (reason : string)
| CtlResume (reason : string)
| CtlStop (reason : string).

Module EngineEvent.
Inductive t : Set :=
| Tick (tick : TickData)
| Bar (bar : Kline)
| OrderUpdate (oue : OrderUpdateEvent)
| BalanceUpdate (bue : BalanceUpdateEvent)
| PositionUpdate (pue : PositionUpdateEvent)
| Signal (sig : RealtimeSignal)
| Timer (now_ms : Z)
| Control (cmd : ControlCommand).
End EngineEvent.

Record EventEnvelope : Set := mkEventEnvelope {
  env_event : EngineEvent.t;
  env_recv_ts_ns : Z;
  env_source_ts_ns : option Z;
  env_enqueue_ts_ns : Z;
}.

(** [EventEnvelope::now] at wall-clock time [ts]. *)
Definition envelope_now (ts : Z) (event : EngineEvent.t) : EventEnvelope :=
  mkEventEnvelope event ts None ts.

(** [TriggerContext] of the engine; an [Instant] is a reading of the monotonic clock. *)
Record EngineTrigger : Set := mkEngineTrigger {
  etr_trigger_event_type : string;
  etr_instrument_code : string;
  etr_source_ts_ns : Z;
  etr_recv_ts_ns : Z;
  etr_enqueue_ts_ns : Z;
  etr_dispatch_ts_ns : Z;
  etr_decision_ts_ns : Z;
  etr_execution_id : string;
  etr_strategy_key : string;
  etr_decision_seq : Z;
  etr_dispatch_instant : option Z;
  etr_decision_instant : option Z;
}.
#[export] Instance eta_EngineTrigger : Eta EngineTrigger := λ r,
  mkEngineTrigger (etr_trigger_event_type r) (etr_instrument_code r) (etr_source_ts_ns r)
    (etr_recv_ts_ns r) (etr_enqueue_ts_ns r) (etr_dispatch_ts_ns r) (etr_decision_ts_ns r)
    (etr_execution_id r) (etr_strategy_key r) (etr_decision_seq r) (etr_dispatch_instant r)
    (etr_decision_instant r).

Definition event_label (event : EngineEvent.t) : string * string :=
  match event with
  | EngineEvent.Tick t => ("tick", td_instrument_code t)
  | EngineEvent.Bar b => ("bar", kl_symbol b)
  | EngineEvent.Signal s => ("signal", rs_instrument s)
  | EngineEvent.Timer _ => ("timer", "")
  | EngineEvent.OrderUpdate _ => ("order_update", "")
  | EngineEvent.BalanceUpdate _ => ("balance_update", "")
  | EngineEvent.PositionUpdate _ => ("position_update", "")
  | EngineEvent.Control _ => ("control", "")
  end.

(** [TriggerContext::from_envelope], at wall-clock time [ts]. *)
Definition from_envelope (ts : Z) (envelope : EventEnvelope) (execution_id strategy_key : string)
    : EngineTrigger :=
  let '(event_type, instrument_code) := event_label (env_event envelope) in
  mkEngineTrigger event_type instrument_code (default 0 (env_source_ts_ns envelope))
    (env_recv_ts_ns envelope) (env_enqueue_ts_ns envelope) ts 0 execution_id strategy_key 0 None None.

(** [TriggerContext::to_proto] *)
Definition trigger_to_proto (oms_submit_ts_ns : Z) (client_order_id : string) (ctx : EngineTrigger)
    : TriggerContext :=
  mkTriggerContext (etr_execution_id ctx) (etr_strategy_key ctx) (etr_trigger_event_type ctx)
    (etr_instrument_code ctx) (etr_source_ts_ns ctx) (etr_recv_ts_ns ctx) (etr_enqueue_ts_ns ctx)
    (etr_dispatch_ts_ns ctx) (etr_decision_ts_ns ctx) (etr_decision_seq ctx) oms_submit_ts_ns
    client_order_id.

(** The instrument and exchange of a tick. *)
Definition tick_key (env : EventEnvelope) : option (string * string) :=
  match env_event env with
  | EngineEvent.Tick t => Some (td_instrument_code t, td_exchange t)
  | _ => None
  end.

(** Pass 1: the last index of each key. *)
Definition last_seen (events : list EventEnvelope) : gmap (string * string) nat :=
  foldl (λ m '(i, env), match tick_key env with Some k => <[k := i]> m | None => m end) ∅
    (imap pair events).

Definition coalesce_ticks (events : list EventEnvelope) : list EventEnvelope :=
  let keep : gset nat := list_to_set (map_to_list (last_seen events)).*2 in
  (filter (λ '(i, env), tick_key env = None ∨ i ∈ keep) (imap pair events)).*2.

(** [usize::saturating_sub] *)
Definition count_coalesced (before_len after_len : nat) : nat := before_len - after_len.

(** ** [latency.rs] *)

(** [i64::saturating_sub] *)
Definition saturating_sub_i64 (a b : Z) : Z := Z.max (- 2 ^ 63) (Z.min (2 ^ 63 - 1) (a - b)).

Record LatencySample : Set := mkLatencySample {
  ls_queue_wait_ns : Z;
  ls_decision_ns : Z;
  ls_recv_to_decision_ns : Z;
  ls_trigger_event_type : string;
  ls_instrument_code : string;
  ls_sample_ts_ns : Z;
}.

Definition monotonic_decision_ns (ctx : EngineTrigger) : Z :=
  match etr_dispatch_instant ctx, etr_decision_instant ctx with
  | Some d, Some dec => wrap_i64 (Z.max 0 (dec - d))
  | _, _ => saturating_sub_i64 (etr_decision_ts_ns ctx) (etr_dispatch_ts_ns ctx)
  end.

Definition from_trigger_context (ctx : EngineTrigger) : LatencySample :=
  mkLatencySample (saturating_sub_i64 (etr_dispatch_ts_ns ctx) (etr_enqueue_ts_ns ctx))
    (monotonic_decision_ns ctx)
    (saturating_sub_i64 (etr_decision_ts_ns ctx) (etr_recv_ts_ns ctx))
    (etr_trigger_event_type ctx) (etr_instrument_code ctx) (etr_decision_ts_ns ctx).

Record EngineLatencyTracker : Set := mkEngineLatencyTracker {
  elt_events_processed : Z;
  elt_ticks_coalesced : Z;
  elt_orders_dispatched : Z;
  elt_sum_queue_wait_ns : Z;
  elt_sum_decision_ns : Z;
  elt_action_event_count : Z;
  elt_max_queue_wait_ns : Z;
  elt_max_decision_ns : Z;
  elt_samples : list LatencySample;
  elt_max_samples : nat;
}.
#[export] Instance eta_EngineLatencyTracker : Eta EngineLatencyTracker := λ r,
  mkEngineLatencyTracker (elt_events_processed r) (elt_ticks_coalesced r) (elt_orders_dispatched r)
    (elt_sum_queue_wait_ns r) (elt_sum_decision_ns r) (elt_action_event_count r)
    (elt_max_queue_wait_ns r) (elt_max_decision_ns r) (elt_samples r) (elt_max_samples r).

Module EngineLatencyTracker.
Implicit Types (t : EngineLatencyTracker).

Definition new (max_samples : nat) : EngineLatencyTracker :=
  mkEngineLatencyTracker 0 0 0 0 0 0 0 0 [] max_samples.

Definition record_batch (batch_size coalesced_count : nat) t : EngineLatencyTracker :=
  t <| elt_events_processed ::= λ n, wrap_u64 (n + Z.of_nat batch_size) |>
    <| elt_ticks_coalesced ::= λ n, wrap_u64 (n + Z.of_nat coalesced_count) |>.

Definition record_action_event (ctx : EngineTrigger) (order_count : nat) t : EngineLatencyTracker :=
  let queue_wait := saturating_sub_i64 (etr_dispatch_ts_ns ctx) (etr_enqueue_ts_ns ctx) in
  let decision := monotonic_decision_ns ctx in
  let samples :=
    if (elt_max_samples t <=? length (elt_samples t))%nat then tail (elt_samples t)
    else elt_samples t in
  t <| elt_orders_dispatched ::= λ n, wrap_u64 (n + Z.of_nat order_count) |>
    <| elt_sum_queue_wait_ns ::= λ n, wrap_i64 (n + queue_wait) |>
    <| elt_sum_decision_ns ::= λ n, wrap_i64 (n + decision) |>
    <| elt_action_event_count ::= λ n, wrap_u64 (n + 1) |>
    <| elt_max_queue_wait_ns ::= λ n, if n <? queue_wait then queue_wait else n |>
    <| elt_max_decision_ns ::= λ n, if n <? decision then decision else n |>
    <| elt_samples := samples ++ [from_trigger_context ctx] |>.

(** Integer division truncates. *)
Definition avg_queue_wait_ns t : Z :=
  if elt_action_event_count t =? 0 then 0
  else Z.quot (elt_sum_queue_wait_ns t) (wrap_i64 (elt_action_event_count t)).
Definition avg_decision_ns t : Z :=
  if elt_action_event_count t =? 0 then 0
  else Z.quot (elt_sum_decision_ns t) (wrap_i64 (elt_action_event_count t)).
End EngineLatencyTracker.

(** ** [snapshot.rs] *)

Module LifecycleState.
Inductive t : Set :=
| Starting | Running | Pausing | Paused | Resuming | Degraded | Stopping | Stopped | Fenced | Failed.

Definition as_str (s : t) : string :=
  match s with
  | Starting => "STARTING"
  | Running => "RUNNING"
  | Pausing => "PAUSING"
  | Paused => "PAUSED"
  | Resuming => "RESUMING"
  | Degraded => "DEGRADED"
  | Stopping => "STOPPING"
  | Stopped => "STOPPED"
  | Fenced => "FENCED"
  | Failed => "FAILED"
  end.
End LifecycleState.

Record EngineSnapshot : Set := mkEngineSnapshot {
  es_execution_id : string;
  es_strategy_key : string;
  es_lifecycle_state : LifecycleState.t;
  es_paused : bool;
  es_degraded_reason : option string;
  es_events_processed : Z;
  es_ticks_coalesced : Z;
  es_orders_dispatched : Z;
  es_decision_seq : Z;
  es_uptime_ms : Z;
  es_last_event_ts_ns : Z;
  es_avg_queue_wait_ns : Z;
  es_avg_decision_ns : Z;
  es_max_queue_wait_ns : Z;
  es_max_decision_ns : Z;
  es_action_event_count : Z;
  es_recent_latency_samples : list LatencySample;
}.

(** [EngineSnapshot::initial] *)
Definition initial_snapshot (execution_id strategy_key : string) : EngineSnapshot :=
  mkEngineSnapshot execution_id strategy_key LifecycleState.Starting false None
    0 0 0 0 0 0 0 0 0 0 0 [].

(** [uptime_ms_since], at monotonic time [now]. *)
Definition uptime_ms_since (start now : Z) : Z := wrap_i64 (Z.max 0 (now - start) / 1000000).

(** ** [action_dispatcher.rs] *)

Inductive DispatchCall : Set :=
| CallPlaceOrder (order : StrategyOrder) (ctx : EngineTrigger)
| CallCancelOrder (cancel : StrategyCancel) (ctx : EngineTrigger)
| CallLog (log : StrategyLog).

(** ** [live_engine.rs] *)

Record LiveEngine (D S : Type) `{!CronLib, !BinaryHeap TimerEntry} : Type := mkLiveEngine {
  le_runner : StrategyRunner D;
  le_strategy : S;
  le_calls : list DispatchCall;
  le_execution_id : string;
  le_strategy_key : string;
  le_decision_seq : Z;
  le_latency : EngineLatencyTracker;
  le_replica : EngineSnapshot;
  le_start_time : Z;
  le_lifecycle_state : LifecycleState.t;
  le_paused : bool;
  le_reads : nat;
}.
Arguments mkLiveEngine {D S _ _}.
Arguments le_runner {D S _ _}.
Arguments le_strategy {D S _ _}.
Arguments le_calls {D S _ _}.
Arguments le_execution_id {D S _ _}.
Arguments le_strategy_key {D S _ _}.
Arguments le_decision_seq {D S _ _}.
Arguments le_latency {D S _ _}.
Arguments le_replica {D S _ _}.
Arguments le_start_time {D S _ _}.
Arguments le_lifecycle_state {D S _ _}.
Arguments le_paused {D S _ _}.
Arguments le_reads {D S _ _}.
#[export] Instance eta_LiveEngine {D S} `{!CronLib, !BinaryHeap TimerEntry} : Eta (LiveEngine D S) := λ r,
  mkLiveEngine (le_runner r) (le_strategy r) (le_calls r) (le_execution_id r) (le_strategy_key r)
    (le_decision_seq r) (le_latency r) (le_replica r) (le_start_time r) (le_lifecycle_state r)
    (le_paused r) (le_reads r).

Module LiveEngine.
Section engine.
Context {D S : Type} `{!Strategy D S, !CronLib, !BinaryHeap TimerEntry}.
Context (clock : nat → Z * Z).
Notation Engine := (LiveEngine D S).
Implicit Types (e : Engine).

(** [system_time_ns()] *)
Definition system_time_ns e : Z * Engine := ((clock (le_reads e)).1, e <| le_reads ::= Datatypes.S |>).
(** [Instant::now()] *)
Definition instant_now e : Z * Engine := ((clock (le_reads e)).2, e <| le_reads ::= Datatypes.S |>).

Definition new (account_ids : list Z) (refdata : list InstrumentRefData) (strategy : S)
    (execution_id strategy_key : string) : Engine :=
  mkLiveEngine (StrategyRunner.new_with_id_allocator account_ids refdata) strategy []
    execution_id strategy_key 0 (EngineLatencyTracker.new 64)
    (initial_snapshot execution_id strategy_key) (clock 0%nat).2 LifecycleState.Starting false 1.

Definition subscribe_timer (sub : TimerSubscription) (timer : TimerManager) : outcome TimerManager :=
  match tsub_schedule sub with
  | StrategyTimer.Cron expr start_ms end_ms =>
      TimerManager.subscribe_cron (tsub_timer_key sub) expr (default 0 start_ms) end_ms timer
  | StrategyTimer.OnceAt fire_ms =>
      mret (TimerManager.subscribe_once_at (tsub_timer_key sub) fire_ms timer)
  end.

Definition dispatch_action (ctx : EngineTrigger) e (action : SAction.t) : outcome Engine :=
  match action with
  | SAction.PlaceOrder order =>
      mret (e <| le_runner ::= StrategyRunner.book_order order |>
              <| le_calls ::= λ l, l ++ [CallPlaceOrder order ctx] |>)
  | SAction.Cancel cancel =>
      mret (e <| le_runner ::= StrategyRunner.book_cancel cancel |>
              <| le_calls ::= λ l, l ++ [CallCancelOrder cancel ctx] |>)
  | SAction.Log log => mret (e <| le_calls ::= λ l, l ++ [CallLog log] |>)
  | SAction.SubscribeTimer sub =>
      timer ← subscribe_timer sub (run_timer (le_runner e));
      mret (e <| le_runner ::= λ r, r <| run_timer := timer |> |>)
  end.

Definition dispatch_actions (actions : list SAction.t) (ctx : EngineTrigger) e : outcome Engine :=
  for_each (dispatch_action ctx) actions e.

Definition lifecycle_context (now : Z) e : EngineTrigger :=
  mkEngineTrigger "lifecycle" "" 0 now now now now (le_execution_id e) (le_strategy_key e) 0 None None.

Definition dispatch_actions_lifecycle (actions : list SAction.t) e : outcome Engine :=
  match actions with
  | [] => mret e
  | _ :: _ =>
      let '(now, e) := system_time_ns e in
      dispatch_actions actions (lifecycle_context now e) e
  end.

(** A callback of the runner, on the engine's strategy. *)
Definition with_runner (f : S → StrategyRunner D → list SAction.t * S * StrategyRunner D) e
    : list SAction.t * Engine :=
  let '(actions, s, r) := f (le_strategy e) (le_runner e) in
  (actions, e <| le_strategy := s |> <| le_runner := r |>).

Definition lifecycle (f : S → StrategyRunner D → list SAction.t * S * StrategyRunner D) e
    : outcome Engine :=
  let '(actions, e) := with_runner f e in dispatch_actions_lifecycle actions e.

Definition startup e : outcome Engine :=
  e ← lifecycle StrategyRunner.on_create e;
  e ← lifecycle StrategyRunner.on_init e;
  lifecycle StrategyRunner.on_reinit e.

Definition set_init_data (data : D) e : Engine :=
  e <| le_runner ::= λ r, r <| run_ctx ::= StrategyContext.set_init_data data |> |>.

Definition process_event (event : EngineEvent.t) e : outcome (list SAction.t * Engine) :=
  match event with
  | EngineEvent.Tick t => mret (with_runner (λ s, StrategyRunner.on_tick s t) e)
  | EngineEvent.Bar b => mret (with_runner (λ s, StrategyRunner.on_bar s b) e)
  | EngineEvent.OrderUpdate oue => mret (with_runner (λ s, StrategyRunner.on_order_update s oue) e)
  | EngineEvent.BalanceUpdate bue =>
      mret (with_runner (λ s, StrategyRunner.on_balance_update s bue) e)
  | EngineEvent.PositionUpdate pue =>
      mret (with_runner (λ s, StrategyRunner.on_position_update s pue) e)
  | EngineEvent.Signal s0 => mret (with_runner (λ s, StrategyRunner.on_signal s s0) e)
  | EngineEvent.Timer now_ms =>
      '(actions, s, r) ← StrategyRunner.advance_time (le_strategy e) now_ms (le_runner e);
      mret (actions, e <| le_strategy := s |> <| le_runner := r |>)
  | EngineEvent.Control _ => mret ([], e)
  end.

Definition handle_pause (reason : string) e : outcome Engine :=
  if le_paused e then mret e
  else
    e ← lifecycle (StrategyRunner.invoke (strategy_on_pause reason))
          (e <| le_lifecycle_state := LifecycleState.Pausing |>);
    mret (e <| le_paused := true |> <| le_lifecycle_state := LifecycleState.Paused |>).

Definition handle_resume (reason : string) e : outcome Engine :=
  if negb (le_paused e) then mret e
  else
    e ← lifecycle (StrategyRunner.invoke (strategy_on_resume reason))
          (e <| le_lifecycle_state := LifecycleState.Resuming |>);
    mret (e <| le_paused := false |> <| le_lifecycle_state := LifecycleState.Running |>).

Definition publish_snapshot e : Engine :=
  let '(now, e) := instant_now e in
  let '(ts, e) := system_time_ns e in
  let t := le_latency e in
  e <| le_replica :=
    {| es_execution_id := le_execution_id e;
       es_strategy_key := le_strategy_key e;
       es_lifecycle_state := le_lifecycle_state e;
       es_paused := le_paused e;
       es_degraded_reason := None;
       es_events_processed := elt_events_processed t;
       es_ticks_coalesced := elt_ticks_coalesced t;
       es_orders_dispatched := elt_orders_dispatched t;
       es_decision_seq := le_decision_seq e;
       es_uptime_ms := uptime_ms_since (le_start_time e) now;
       es_last_event_ts_ns := ts;
       es_avg_queue_wait_ns := EngineLatencyTracker.avg_queue_wait_ns t;
       es_avg_decision_ns := EngineLatencyTracker.avg_decision_ns t;
       es_max_queue_wait_ns := elt_max_queue_wait_ns t;
       es_max_decision_ns := elt_max_decision_ns t;
       es_action_event_count := elt_action_event_count t;
       es_recent_latency_samples := elt_samples t |} |>.

(** The updates of the OMS, which also reach a paused strategy. *)
Definition is_oms_update (event : EngineEvent.t) : bool :=
  match event with
  | EngineEvent.OrderUpdate _ | EngineEvent.BalanceUpdate _ | EngineEvent.PositionUpdate _ => true
  | _ => false
  end.

Definition is_place (action : SAction.t) : bool :=
  match action with SAction.PlaceOrder _ => true | _ => false end.

(** One event that is not a control command and not dropped. *)
Definition dispatch_event (envelope : EventEnvelope) e : outcome Engine :=
  let '(dispatch_instant, e) := instant_now e in
  let '(ts, e) := system_time_ns e in
  let ctx := (from_envelope ts envelope (le_execution_id e) (le_strategy_key e))
               <| etr_dispatch_instant := Some dispatch_instant |> in
  '(actions, e) ← process_event (env_event envelope) e;
  let '(decision_ts, e) := system_time_ns e in
  let '(decision_instant, e) := instant_now e in
  let ctx := ctx <| etr_decision_ts_ns := decision_ts |>
                 <| etr_decision_instant := Some decision_instant |> in
  let '(ctx, e) :=
    match actions with
    | [] => (ctx, e)
    | _ :: _ =>
        let seq := wrap_u64 (le_decision_seq e + 1) in
        let ctx := ctx <| etr_decision_seq := seq |> in
        (ctx, e <| le_decision_seq := seq |>
                <| le_latency ::= EngineLatencyTracker.record_action_event ctx
                                    (length (List.filter is_place actions)) |>)
    end in
  dispatch_actions actions ctx e.

(** The loop over a batch: the events dispatched, and whether it was stopped. *)
Fixpoint batch_loop (batch : list EventEnvelope) (dispatched : nat) e : outcome (nat * bool * Engine) :=
  match batch with
  | [] => mret (dispatched, false, e)
  | envelope :: batch =>
      match env_event envelope with
      | EngineEvent.Control (CtlPause reason) => e ← handle_pause reason e; batch_loop batch dispatched e
      | EngineEvent.Control (CtlResume reason) =>
          e ← handle_resume reason e; batch_loop batch dispatched e
      | EngineEvent.Control (CtlStop _) => mret (dispatched, true, e)
      | event =>
          if le_paused e && negb (is_oms_update event) then batch_loop batch dispatched e
          else e ← dispatch_event envelope e; batch_loop batch (Datatypes.S dispatched) e
      end
  end.

(** One round of the loop of [run]: a received event and what was buffered. *)
Definition run_batch (batch : EventEnvelope * list EventEnvelope) e : outcome (bool * Engine) :=
  let events := batch.1 :: batch.2 in
  let kept := coalesce_ticks events in
  let coalesced := count_coalesced (length events) (length kept) in
  '(dispatched, should_stop, e) ← batch_loop kept 0 e;
  let e := publish_snapshot (e <| le_latency ::= EngineLatencyTracker.record_batch dispatched coalesced |>) in
  mret (should_stop,
        if (should_stop : bool) then publish_snapshot (e <| le_lifecycle_state := LifecycleState.Stopping |>) else e).

(** The batches the channel yields until it is closed. *)
Fixpoint run_loop (batches : list (EventEnvelope * list EventEnvelope)) e : outcome Engine :=
  match batches with
  | [] => mret e
  | batch :: batches =>
      '(should_stop, e) ← run_batch batch e;
      if (should_stop : bool) then mret e else run_loop batches e
  end.

Definition run (batches : list (EventEnvelope * list EventEnvelope)) e : outcome Engine :=
  e ← run_loop batches (e <| le_lifecycle_state := LifecycleState.Running |>);
  mret (publish_snapshot (e <| le_lifecycle_state := LifecycleState.Stopped |>)).
End engine.
End LiveEngine.
