(* ===== verification/EngineFacts.v ===== *)
(** * What the live engine delivers and executes ([zk-engine-rs])

    - coalescing keeps the latest tick of each instrument and every other event;
    - a run delivers to the strategy what its pause state allows, in order, until
      it is stopped, and executes every action the strategy requests once. *)

From S2P Require Import Prelude F64 Proto Models Collections Scheduler SchedulerFacts Rtmd Strategy.
From S2P Require Import ClockContract TimerFacts Engine.

(** ** Coalescing *)

Lemma last_seen_snoc l env :
  last_seen (l ++ [env]) =
  match tick_key env with Some k => <[k := length l]> (last_seen l) | None => last_seen l end.
Proof.
  unfold last_seen. rewrite imap_app, foldl_app. simpl. by rewrite Nat.add_0_r.
Qed.

(** Index [i] holds the last tick of [k]. *)
Definition last_tick (l : list EventEnvelope) (k : string * string) (i : nat) : Prop :=
  (∃ env, l !! i = Some env ∧ tick_key env = Some k) ∧
  ∀ j env, (i < j)%nat → l !! j = Some env → tick_key env ≠ Some k.

Lemma last_seen_spec l k i : last_seen l !! k = Some i ↔ last_tick l k i.
Proof.
  revert i. induction l as [|env l IH] using rev_ind; intros i.
  { split; [done|]. intros [(env & [=] & _) _]. }
  assert (∀ k', last_tick (l ++ [env]) k' i ↔
    (tick_key env = Some k' ∧ i = length l) ∨ (tick_key env ≠ Some k' ∧ last_tick l k' i)) as Hst.
  { intros k'. unfold last_tick. split.
    - intros [(env' & Hi & Hk) Hj]. apply lookup_snoc_Some in Hi as [[Hlt Hi]|[-> ->]]; [|by left].
      right. split.
      + apply (Hj (length l)); [done|]. by apply lookup_snoc_Some; right.
      + split; [by exists env'|]. intros j env'' Hlt' Hj'. apply (Hj j); [done|].
        apply lookup_snoc_Some. left. split; [by eapply lookup_lt_Some|done].
    - intros [[Hk ->]|[Hk [(env' & Hi & Hk') Hj]]].
      + split; [exists env; split; [by apply lookup_snoc_Some; right|done]|].
        intros j env' Hlt [[? _]|[-> _]]%lookup_snoc_Some; lia.
      + pose proof (lookup_lt_Some _ _ _ Hi). split.
        * exists env'. split; [by apply lookup_snoc_Some; left|done].
        * intros j env'' Hlt [[_ Hj']|[-> ->]]%lookup_snoc_Some; [by eapply Hj|done]. }
  rewrite last_seen_snoc, Hst. destruct (tick_key env) as [k'|] eqn:Ek.
  - rewrite lookup_insert_Some, IH. naive_solver.
  - rewrite IH. naive_solver.
Qed.

(** The same, by recursion: a tick is dropped when a later one has its key. *)
Fixpoint coalesced (l : list EventEnvelope) : list EventEnvelope :=
  match l with
  | [] => []
  | env :: l =>
      if bool_decide (is_Some (tick_key env) ∧ tick_key env ∈ tick_key <$> l) then coalesced l
      else env :: coalesced l
  end.

Lemma filter_coalesced (P : nat * EventEnvelope → Prop) `{!∀ x, Decision (P x)} n l :
  (∀ i env, l !! i = Some env → P ((n + i)%nat, env) ↔
     (tick_key env = None ∨ tick_key env ∉ tick_key <$> drop (S i) l)) →
  (filter P (imap (λ i, pair (n + i)%nat) l)).*2 = coalesced l.
Proof.
  revert n. induction l as [|env l IH]; intros n HP; [done|].
  cbn [imap]. rewrite Nat.add_0_r. change (imap (_ ∘ S) l) with (imap (λ i, pair (n + S i)%nat) l).
  rewrite (imap_ext _ (λ i, pair (S n + i)%nat)) by (intros; by rewrite Nat.add_succ_r).
  specialize (HP 0%nat env eq_refl) as H0. rewrite Nat.add_0_r in H0. cbn [drop] in H0.
  assert (∀ i env', l !! i = Some env' → P ((S n + i)%nat, env') ↔
    (tick_key env' = None ∨ tick_key env' ∉ tick_key <$> drop (S i) l)) as HPl.
  { intros i env' Hi. specialize (HP (S i) env' Hi). by rewrite Nat.add_succ_r in HP. }
  rewrite filter_cons. cbn [coalesced]. case_decide as Hd.
  - rewrite bool_decide_false; [rewrite fmap_cons; f_equal; by apply (IH (S n))|].
    intros [[k Hk] Hin]. apply H0 in Hd as [?|?]; [congruence|done].
  - rewrite bool_decide_true; [by apply (IH (S n))|].
    rewrite H0 in Hd. split; [destruct (tick_key env); [by eexists|by destruct Hd; left]|].
    destruct (decide (tick_key env ∈ tick_key <$> l)); [done|by destruct Hd; right].
Qed.

Lemma coalesce_rec l : coalesce_ticks l = coalesced l.
Proof.
  unfold coalesce_ticks. apply (filter_coalesced _ 0). intros i env Hi. cbn [plus].
  rewrite elem_of_list_to_set, list_elem_of_fmap.
  assert ((∃ y : string * string * nat, i = y.2 ∧ y ∈ map_to_list (last_seen l)) ↔
    ∃ k, last_tick l k i) as ->.
  { split.
    - intros ([k i'] & -> & Hk). exists k. by apply last_seen_spec, elem_of_map_to_list.
    - intros [k Hk]. exists (k, i). split; [done|]. by apply elem_of_map_to_list, last_seen_spec. }
  destruct (tick_key env) as [k|] eqn:Ek; [|by split; left].
  assert ((∃ k', last_tick l k' i) ↔ Some k ∉ tick_key <$> drop (S i) l) as ->; [|naive_solver].
  split.
  - intros (k' & (env' & Hi' & Hk') & Hj) (env2 & Hk2 & Hin)%list_elem_of_fmap. simplify_eq.
    apply list_elem_of_lookup in Hin as [j Hin]. rewrite lookup_drop in Hin.
    apply (Hj (S i + j)%nat env2); [lia|done|congruence].
  - intros Hn. exists k. split; [by exists env|]. intros j env' Hlt Hj Hk'. apply Hn.
    apply list_elem_of_fmap. exists env'. split; [done|]. apply list_elem_of_lookup.
    exists (j - S i)%nat. rewrite lookup_drop. by replace (S i + (j - S i))%nat with j by lia.
Qed.

Lemma coalesced_other l :
  filter (λ env, tick_key env = None) (coalesced l) = filter (λ env, tick_key env = None) l.
Proof.
  induction l as [|env l IH]; [done|]. cbn [coalesced]. rewrite filter_cons.
  case_bool_decide as Hb.
  - destruct Hb as [[k Hk] _]. rewrite decide_False by (by rewrite Hk). done.
  - rewrite filter_cons, IH. done.
Qed.

(** Coalescing keeps what matters.  What is left of a batch is a sublist of
    it with every event that is not a tick, and, of the ticks of each
    instrument and exchange, exactly the last one. *)
Theorem coalesce_keeps_latest (l : list EventEnvelope) :
  coalesce_ticks l `sublist_of` l ∧
  filter (λ env, tick_key env = None) (coalesce_ticks l) = filter (λ env, tick_key env = None) l ∧
  ∀ k, filter (λ env, tick_key env = Some k) (coalesce_ticks l) =
       option_list (last (filter (λ env, tick_key env = Some k) l)).
Proof.
  rewrite coalesce_rec. split_and!; [|apply coalesced_other|].
  - induction l as [|env l IH]; cbn [coalesced]; [done|].
    case_bool_decide; [by apply sublist_cons|by apply sublist_skip].
  - intros k. induction l as [|env l IH]; [done|]. cbn [coalesced]. rewrite filter_cons.
    case_bool_decide as Hb; [|rewrite filter_cons]; case_decide as Hk; try done.
    + destruct Hb as [_ (env' & Hk' & Hin)%list_elem_of_fmap]. rewrite IH.
      destruct (filter _ l) as [|x l'] eqn:El; [|done].
      assert (env' ∈ filter (λ env, tick_key env = Some k) l) as Hf
        by (apply list_elem_of_filter; split; [congruence|done]).
      rewrite El in Hf. by apply elem_of_nil in Hf.
    + rewrite IH. assert (filter (λ env, tick_key env = Some k) l = []) as ->; [|done].
      destruct (filter _ l) as [|x l'] eqn:El; [done|]. exfalso. apply Hb. rewrite Hk.
      assert (x ∈ filter (λ env, tick_key env = Some k) l) as [Hx Hin]%list_elem_of_filter
        by (rewrite El; left).
      split; [by eexists|]. apply list_elem_of_fmap. by exists x.
Qed.

(** ** What a run delivers *)

(** The events delivered, whether the engine is paused at the end, and whether it
    was stopped. *)
Fixpoint deliver (paused : bool) (l : list EngineEvent.t) : list EngineEvent.t * bool * bool :=
  match l with
  | [] => ([], paused, false)
  | event :: l =>
      match event with
      | EngineEvent.Control (CtlStop _) => ([], paused, true)
      | EngineEvent.Control (CtlPause _) =>
          let '(d, p, s) := deliver true l in ((if paused then [] else [event]) ++ d, p, s)
      | EngineEvent.Control (CtlResume _) =>
          let '(d, p, s) := deliver false l in ((if paused then [event] else []) ++ d, p, s)
      | EngineEvent.Timer _ => deliver paused l
      | _ =>
          let '(d, p, s) := deliver paused l in
          ((if paused && negb (LiveEngine.is_oms_update event) then [] else [event]) ++ d, p, s)
      end
  end.

(** The events before the first stop command. *)
Fixpoint until_stop (l : list EngineEvent.t) : list EngineEvent.t :=
  match l with
  | [] | EngineEvent.Control (CtlStop _) :: _ => []
  | event :: l => event :: until_stop l
  end.

Definition oms_updates : list EngineEvent.t → list EngineEvent.t :=
  filter (λ event, LiveEngine.is_oms_update event = true).

Lemma deliver_app p l1 l2 :
  deliver p (l1 ++ l2) =
  let '(d, p, s) := deliver p l1 in
  if s then (d, p, s) else let '(d', p, s) := deliver p l2 in (d ++ d', p, s).
Proof.
  revert p. induction l1 as [|event l1 IH]; intros p; [simpl; by destruct (deliver p l2) as [[]]|].
  destruct event as [t|b|o|b|po|sg|n|[r|r|r]]; cbn [deliver app]; rewrite ?IH; try done;
    (destruct (deliver _ l1) as [[d q] []]; [done|]); destruct (deliver q l2) as [[d' q'] s'];
    by rewrite ?(assoc_L (++)).
Qed.

Lemma deliver_oms p l : oms_updates (deliver p l).1.1 = oms_updates (until_stop l).
Proof.
  unfold oms_updates. revert p. induction l as [|event l IH]; intros p; [done|].
  destruct event as [t|b|o|b|po|sg|n|[r|r|r]]; cbn [deliver until_stop]; try done;
    match goal with |- context [deliver ?q l] => specialize (IH q) end;
    destruct (deliver _ l) as [[d q] s]; simpl in IH |- *; destruct p; simpl;
    rewrite ?filter_cons; simpl; by rewrite ?IH.
Qed.

(** ** Strategies that keep a trace *)

(** The events a strategy was called with (timers apart) and the actions it asked
    for. *)
Record trace : Set := mkTrace { tr_events : list EngineEvent.t; tr_actions : list SAction.t }.

Section traced.
Context {D S : Type} `{!Strategy D S}.

(** The cron subscriptions of every callback parse and start in range. *)
Class TimersValid `{!CronLib} : Prop := {
  tv_event (cb : StrategyContext D → S → reply S) ctx s : callback_of cb → Forall action_ok (cb ctx s).1.1;
  tv_pause r ctx (s : S) : Forall action_ok (strategy_on_pause r ctx s).1.1;
  tv_resume r ctx (s : S) : Forall action_ok (strategy_on_resume r ctx s).1.1;
}.
Definition note (events : list EngineEvent.t) (cb : StrategyContext D → S → reply S)
    : StrategyContext D → S * trace → reply (S * trace) := λ ctx '(s, t),
  let '(actions, s', ids) := cb ctx s in
  (actions, (s', mkTrace (tr_events t ++ events) (tr_actions t ++ actions)), ids).

(** Any strategy, with the trace of its calls beside its state. *)
#[export] Instance traced : Strategy D (S * trace) := {
  strategy_on_create := note [] strategy_on_create;
  strategy_on_init := note [] strategy_on_init;
  strategy_on_reinit := note [] strategy_on_reinit;
  strategy_on_tick t := note [EngineEvent.Tick t] (strategy_on_tick t);
  strategy_on_bar b := note [EngineEvent.Bar b] (strategy_on_bar b);
  strategy_on_signal s := note [EngineEvent.Signal s] (strategy_on_signal s);
  strategy_on_order_update o := note [EngineEvent.OrderUpdate o] (strategy_on_order_update o);
  strategy_on_balance_update b := note [EngineEvent.BalanceUpdate b] (strategy_on_balance_update b);
  strategy_on_position_update p := note [EngineEvent.PositionUpdate p] (strategy_on_position_update p);
  strategy_on_timer te := note [] (strategy_on_timer te);
  strategy_on_pause r := note [EngineEvent.Control (CtlPause r)] (strategy_on_pause r);
  strategy_on_resume r := note [EngineEvent.Control (CtlResume r)] (strategy_on_resume r);
}.

End traced.
Arguments TimersValid D S {_ _}.

(** What the dispatcher is asked to do. *)
Definition executed (call : DispatchCall) : SAction.t :=
  match call with
  | CallPlaceOrder order _ => SAction.PlaceOrder order
  | CallCancelOrder cancel _ => SAction.Cancel cancel
  | CallLog log => SAction.Log log
  end.
Definition for_dispatcher (a : SAction.t) : option SAction.t :=
  match a with SAction.SubscribeTimer _ => None | _ => Some a end.

Section delivery.
Context {D S : Type} `{!Strategy D S, !CronLib, !CronLibOk, !TimersValid D S}.
Context `{!BinaryHeap TimerEntry, Hth : !BinaryHeapOk timer_before}.
Context (clock : nat → Z * Z).
Notation Engine := (LiveEngine D (S * trace)).
Notation Runner := (StrategyRunner D).
Implicit Types (e : Engine).

(** The actions [owed] were asked for and not yet executed. *)
Record engine_inv (owed : list SAction.t) e : Prop := {
  ei_timers : timers_dated (run_timer (le_runner e));
  ei_calls : (executed <$> le_calls e) ++ omap for_dispatcher owed =
             omap for_dispatcher (tr_actions (le_strategy e).2);
}.

Definition seen e : list EngineEvent.t := tr_events (le_strategy e).2.

(** A call of the strategy: what it adds to the trace, and that its timers are valid. *)
Definition callback_step (events : list EngineEvent.t) (s : S * trace) (timer : TimerManager)
    (res : list SAction.t * (S * trace) * Runner) : Prop :=
  let '(actions, s', r') := res in
  tr_events s'.2 = tr_events s.2 ++ events ∧ tr_actions s'.2 = tr_actions s.2 ++ actions ∧
  Forall action_ok actions ∧ run_timer r' = timer.

Lemma event_ok cb : callback_of cb → ∀ ctx s, Forall action_ok (cb ctx s).1.1.
Proof. intros Hcb ctx s. exact (tv_event cb ctx s Hcb). Qed.

Lemma invoke_step events cb s r timer :
  run_timer r = timer → (∀ ctx s, Forall action_ok (cb ctx s).1.1) →
  callback_step events s timer (StrategyRunner.invoke (note events cb) s r).
Proof.
  intros Ht Hcb. destruct s as [s t]. unfold StrategyRunner.invoke, note.
  specialize (Hcb (run_ctx r) s). by destruct (cb (run_ctx r) s) as [[acts s'] ids].
Qed.

Lemma fire_timers_step tes s r :
  callback_step [] s (run_timer r) (StrategyRunner.fire_timers tes s r).
Proof.
  unfold StrategyRunner.fire_timers. induction tes as [|te tes IH] using rev_ind.
  { simpl. by rewrite !app_nil_r. }
  rewrite foldl_snoc. destruct (foldl _ _ tes) as [[acts s1] r1].
  destruct IH as (He & Ha & Hok & Ht).
  change (StrategyRunner.invoke (strategy_on_timer te) s1 r1)
    with (StrategyRunner.invoke (note [] (strategy_on_timer te)) s1 r1).
  pose proof (invoke_step [] (strategy_on_timer te) s1 r1 _ eq_refl) as Hi.
  destruct (StrategyRunner.invoke _ s1 r1) as [[more s2] r2].
  destruct Hi as (He2 & Ha2 & Hok2 & Ht2); [by apply event_ok, cb_timer|].
  unfold callback_step. rewrite He2, Ha2, He, Ha, Ht2, Ht, !app_nil_r, (assoc_L (++)). split_and!; try done.
  by apply Forall_app.
Qed.

Lemma with_runner_inv f events e :
  callback_step events (le_strategy e) (run_timer (le_runner e)) (f (le_strategy e) (le_runner e)) →
  engine_inv [] e →
  let '(actions, e') := LiveEngine.with_runner f e in
  engine_inv actions e' ∧ Forall action_ok actions ∧ seen e' = seen e ++ events ∧
  le_paused e' = le_paused e ∧ le_lifecycle_state e' = le_lifecycle_state e.
Proof.
  intros Hs [Ht Hc]. unfold LiveEngine.with_runner.
  destruct (f _ _) as [[actions s'] r']. destruct Hs as (He & Ha & Hok & Hr).
  split_and!; try done. split; simpl; [by rewrite Hr|].
  rewrite Ha, omap_app. simpl in Hc. rewrite app_nil_r in Hc. by rewrite Hc.
Qed.

(** What dispatching leaves alone. *)
Definition kept e e' : Prop :=
  le_strategy e' = le_strategy e ∧ le_paused e' = le_paused e ∧
  le_lifecycle_state e' = le_lifecycle_state e.

Lemma subscribe_timer_returns sub timer :
  action_ok (SAction.SubscribeTimer sub) → timers_dated timer →
  returns (LiveEngine.subscribe_timer sub timer) timers_dated.
Proof.
  unfold action_ok, LiveEngine.subscribe_timer. destruct (tsub_schedule sub) as [expr start end_ms|fire].
  - intros [Hp Hs] Hd. by apply subscribe_cron_returns.
  - intros _ Hd. simpl. by apply push_dated.
Qed.

Lemma dispatch_actions_inv actions ctx e :
  engine_inv actions e → Forall action_ok actions →
  returns (LiveEngine.dispatch_actions actions ctx e) (λ e', engine_inv [] e' ∧ kept e e').
Proof.
  unfold LiveEngine.dispatch_actions. revert e.
  induction actions as [|a actions IH]; intros e Hi Hok; [done|].
  apply Forall_cons in Hok as [Ha Hok]. cbn [for_each]. apply returns_bind.
  eapply (returns_mono _ (λ e', engine_inv actions e' ∧ kept e e')).
  - destruct Hi as [Ht Hc]. destruct a as [o|c|l|sub]; simpl in Hc |- *.
    1-3: split; [|done]; split; [exact Ht|]; simpl;
         rewrite fmap_app, <- (assoc_L (++)); exact Hc.
    apply returns_bind. eapply returns_mono; [by apply subscribe_timer_returns|].
    intros timer Hd. split; [by split|done].
  - intros e1 [Hi1 (Hk1 & Hk2 & Hk3)]. eapply returns_mono; [by apply IH|].
    intros e2 [Hi2 (? & ? & ?)]. split; [done|]. unfold kept. by split_and!; congruence.
Qed.

Lemma lifecycle_inv f events e :
  callback_step events (le_strategy e) (run_timer (le_runner e)) (f (le_strategy e) (le_runner e)) →
  engine_inv [] e →
  returns (LiveEngine.lifecycle clock f e) (λ e',
    engine_inv [] e' ∧ seen e' = seen e ++ events ∧ le_paused e' = le_paused e).
Proof.
  intros Hs Hi. pose proof (with_runner_inv f events e Hs Hi) as Hw.
  unfold LiveEngine.lifecycle. destruct (LiveEngine.with_runner f e) as [actions e1].
  destruct Hw as (Hi1 & Hok & He & Hp & _).
  destruct actions as [|a actions]; [by simpl|]. cbn [LiveEngine.dispatch_actions_lifecycle].
  eapply returns_mono; [apply dispatch_actions_inv; [|done]|].
  - destruct Hi1 as [Ht Hc]. split; [exact Ht|exact Hc].
  - intros e2 [Hi2 (Hk1 & Hk2 & _)]. unfold seen in *. rewrite Hk1, Hk2. simpl. done.
Qed.

Lemma process_event_inv event e :
  engine_inv [] e → (∀ cmd, event ≠ EngineEvent.Control cmd) →
  returns (LiveEngine.process_event event e) (λ r,
    engine_inv r.1 r.2 ∧ Forall action_ok r.1 ∧
    seen r.2 = seen e ++ (deliver false [event]).1.1 ∧
    le_paused r.2 = le_paused e ∧ le_lifecycle_state r.2 = le_lifecycle_state e).
Proof.
  intros Hi Hn. assert (∀ f, callback_step (deliver false [event]).1.1 (le_strategy e) (run_timer (le_runner e))
      (f (le_strategy e) (le_runner e)) →
    returns (mret (LiveEngine.with_runner f e) : outcome _) (λ r,
      engine_inv r.1 r.2 ∧ Forall action_ok r.1 ∧
      seen r.2 = seen e ++ (deliver false [event]).1.1 ∧
      le_paused r.2 = le_paused e ∧ le_lifecycle_state r.2 = le_lifecycle_state e)) as Hw.
  { intros f Hf. pose proof (with_runner_inv f _ e Hf Hi) as Hw.
    by destruct (LiveEngine.with_runner f e). }
  destruct event as [t|b|o|b|po|sg|n|cmd]; cbn [LiveEngine.process_event];
    [apply Hw, (invoke_step _ (strategy_on_tick t)); [done|apply event_ok, cb_tick]
    |apply Hw, (invoke_step _ (strategy_on_bar b)); [done|apply event_ok, cb_bar]
    |apply Hw, (invoke_step _ (strategy_on_order_update o)); [done|apply event_ok, cb_order]
    |apply Hw, (invoke_step _ (strategy_on_balance_update b)); [done|apply event_ok, cb_balance]
    |apply Hw, (invoke_step _ (strategy_on_position_update po)); [done|apply event_ok, cb_position]
    |apply Hw, (invoke_step _ (strategy_on_signal sg)); [done|apply event_ok, cb_signal]
    | |by destruct (Hn cmd)].
  unfold StrategyRunner.advance_time, StrategyRunner.drain_timers_at.
  apply returns_bind, returns_bind. eapply returns_mono; [apply drain_due_returns, Hi|].
  intros [tes timer] Hd. simpl.
  set (r := _ <| run_timer := timer |>).
  pose proof (fire_timers_step tes (le_strategy e) r) as Hf.
  destruct (StrategyRunner.fire_timers tes (le_strategy e) r) as [[acts s'] r'].
  destruct Hf as (He & Ha & Hok & Hr). destruct Hi as [_ Hc]. split_and!; try done.
  split; simpl; [by rewrite Hr|]. rewrite Ha, omap_app. simpl in Hc. by rewrite <- Hc, app_nil_r.
Qed.

Lemma clock_inv owed n e : engine_inv owed e → engine_inv owed (e <| le_reads := n |>).
Proof. by intros [Ht Hc]. Qed.

Lemma dispatch_event_inv env e :
  engine_inv [] e → (∀ cmd, env_event env ≠ EngineEvent.Control cmd) →
  returns (LiveEngine.dispatch_event clock env e) (λ e',
    engine_inv [] e' ∧ seen e' = seen e ++ (deliver false [env_event env]).1.1 ∧
    le_paused e' = le_paused e).
Proof.
  intros Hi Hn. unfold LiveEngine.dispatch_event. cbn [LiveEngine.instant_now LiveEngine.system_time_ns].
  apply returns_bind. eapply returns_mono; [apply process_event_inv; [|exact Hn]|].
  { by apply clock_inv, clock_inv. }
  intros [actions e1] (Hi1 & Hok & He & Hp & _). cbn [fst snd] in *.
  destruct actions as [|a actions].
  - eapply returns_mono; [apply dispatch_actions_inv; [|done]|]; [by apply clock_inv, clock_inv|].
    intros e2 [Hi2 (Hk1 & Hk2 & _)]. unfold seen in *. rewrite Hk1, Hk2. by split_and!.
  - eapply returns_mono; [apply dispatch_actions_inv; [|done]|].
    { destruct Hi1 as [Ht Hc]. split; [exact Ht|exact Hc]. }
    intros e2 [Hi2 (Hk1 & Hk2 & _)]. unfold seen in *. rewrite Hk1, Hk2. by split_and!.
Qed.

Lemma deliver_data p event l :
  (∀ cmd, event ≠ EngineEvent.Control cmd) →
  deliver p (event :: l) =
  let '(d, q, s) := deliver p l in
  ((if p && negb (LiveEngine.is_oms_update event) then [] else (deliver false [event]).1.1) ++ d, q, s).
Proof.
  intros Hn. destruct event as [t|b|o|b|po|sg|k|cmd]; cbn [deliver];
    try (destruct (deliver p l) as [[d q] s]; by destruct p). by destruct (Hn cmd).
Qed.

Lemma batch_loop_data env l n e :
  (∀ cmd, env_event env ≠ EngineEvent.Control cmd) →
  LiveEngine.batch_loop clock (env :: l) n e =
  if le_paused e && negb (LiveEngine.is_oms_update (env_event env))
  then LiveEngine.batch_loop clock l n e
  else e ← LiveEngine.dispatch_event clock env e;
       LiveEngine.batch_loop clock l (Datatypes.S n) e.
Proof.
  intros Hn. cbn [LiveEngine.batch_loop].
  destruct (env_event env) as [t|b|o|b|po|sg|k|cmd]; try done. by destruct (Hn cmd).
Qed.

(** A pause or resume command that takes effect. *)
Lemma control_inv cb ev st e :
  (∀ ctx s, Forall action_ok (cb ctx s).1.1) → engine_inv [] e →
  returns (LiveEngine.lifecycle clock (StrategyRunner.invoke (note ev cb))
    (e <| le_lifecycle_state := st |>)) (λ e', engine_inv [] e' ∧ seen e' = seen e ++ ev).
Proof.
  intros Hcb [Ht Hc]. eapply returns_mono; [apply lifecycle_inv|].
  - by apply invoke_step.
  - split; [exact Ht|exact Hc].
  - intros e1 (Hi1 & He & _). by split.
Qed.

Lemma batch_loop_inv l n e :
  engine_inv [] e →
  returns (LiveEngine.batch_loop clock l n e) (λ '(_, stop, e'),
    engine_inv [] e' ∧
    let '(d, p, s) := deliver (le_paused e) (env_event <$> l) in
    seen e' = seen e ++ d ∧ le_paused e' = p ∧ stop = s).
Proof.
  revert n e. induction l as [|env l IH]; intros n e Hi.
  { simpl. by rewrite app_nil_r. }
  assert (∀ events m e1, engine_inv [] e1 → seen e1 = seen e ++ events →
    returns (LiveEngine.batch_loop clock l m e1) (λ '(_, stop, e'),
      engine_inv [] e' ∧
      let '(d, p, s) := deliver (le_paused e1) (env_event <$> l) in
      seen e' = seen e ++ (events ++ d) ∧ le_paused e' = p ∧ stop = s)) as Hrest.
  { intros events m e1 Hi1 He. eapply returns_mono; [by apply IH|]. intros [[k stop] e2] [Hi2 H2].
    split; [done|]. destruct (deliver _ _) as [[d p] s]. rewrite (assoc_L (++)), <- He. done. }
  rewrite fmap_cons.
  assert ((∃ cmd, env_event env = EngineEvent.Control cmd) ∨
          ∀ cmd, env_event env ≠ EngineEvent.Control cmd) as [[cmd Ecmd]|Hn].
  { destruct (env_event env) as [| | | | | | |cmd]; [by right..|left; by exists cmd]. }
  - cbn [LiveEngine.batch_loop]. rewrite Ecmd. destruct cmd as [r|r|r]; cbn [deliver].
    + unfold LiveEngine.handle_pause. destruct (le_paused e) eqn:Ep; cbn [negb].
      * specialize (Hrest [] n e Hi). rewrite app_nil_r, Ep in Hrest. specialize (Hrest eq_refl).
        by destruct (deliver true _) as [[d p] s].
      * apply returns_bind, returns_bind. eapply returns_mono; [by apply control_inv; [apply tv_pause|]|].
        intros e1 [Hi1 He1]. apply returns_ret. eapply returns_mono; [apply (Hrest [EngineEvent.Control (CtlPause r)])|].
        -- destruct Hi1 as [Ht Hc]. split; [exact Ht|exact Hc].
        -- exact He1.
        -- intros [[k stop] e2] H2. simpl in H2. by destruct (deliver true _) as [[d p] s].
    + unfold LiveEngine.handle_resume. destruct (le_paused e) eqn:Ep; cbn [negb].
      * apply returns_bind, returns_bind. eapply returns_mono; [by apply control_inv; [apply tv_resume|]|].
        intros e1 [Hi1 He1]. apply returns_ret. eapply returns_mono; [apply (Hrest [EngineEvent.Control (CtlResume r)])|].
        -- destruct Hi1 as [Ht Hc]. split; [exact Ht|exact Hc].
        -- exact He1.
        -- intros [[k stop] e2] H2. simpl in H2. by destruct (deliver false _) as [[d p] s].
      * specialize (Hrest [] n e Hi). rewrite app_nil_r, Ep in Hrest. specialize (Hrest eq_refl).
        by destruct (deliver false _) as [[d p] s].
    + simpl. rewrite app_nil_r. done.
  - rewrite batch_loop_data, deliver_data by done.
    destruct (le_paused e && _) eqn:Ep.
    + specialize (Hrest [] n e Hi). rewrite app_nil_r in Hrest. specialize (Hrest eq_refl).
      by destruct (deliver _ (env_event <$> l)) as [[d p] s].
    + apply returns_bind. eapply returns_mono; [by apply dispatch_event_inv|].
      intros e1 (Hi1 & He1 & Hp1). specialize (Hrest _ (Datatypes.S n) e1 Hi1 He1). rewrite Hp1 in Hrest.
      by destruct (deliver (le_paused e) (env_event <$> l)) as [[d p] s].
Qed.

(** The events of the batches, before and after coalescing. *)
Definition received (batches : list (EventEnvelope * list EventEnvelope)) : list EngineEvent.t :=
  batches ≫= λ b, env_event <$> (b.1 :: b.2).
Definition coalesced_events (batches : list (EventEnvelope * list EventEnvelope))
    : list EngineEvent.t :=
  batches ≫= λ b, env_event <$> coalesce_ticks (b.1 :: b.2).

Lemma run_batch_inv b e :
  engine_inv [] e →
  returns (LiveEngine.run_batch clock b e) (λ '(stop, e'),
    engine_inv [] e' ∧
    let '(d, p, s) := deliver (le_paused e) (env_event <$> coalesce_ticks (b.1 :: b.2)) in
    seen e' = seen e ++ d ∧ le_paused e' = p ∧ stop = s).
Proof.
  intros Hi. unfold LiveEngine.run_batch. apply returns_bind.
  eapply returns_mono; [by apply batch_loop_inv|]. intros [[n stop] e1] [[Ht Hc] H1].
  destruct stop; (split; [split; [exact Ht|exact Hc]|]); exact H1.
Qed.

Lemma run_loop_inv batches e :
  engine_inv [] e →
  returns (LiveEngine.run_loop clock batches e) (λ e',
    engine_inv [] e' ∧ seen e' = seen e ++ (deliver (le_paused e) (coalesced_events batches)).1.1).
Proof.
  revert e. induction batches as [|b batches IH]; intros e Hi.
  { simpl. by rewrite app_nil_r. }
  cbn [LiveEngine.run_loop]. apply returns_bind. eapply returns_mono; [by apply run_batch_inv|].
  intros [stop e1] [Hi1 H1]. unfold coalesced_events. rewrite bind_cons, deliver_app.
  destruct (deliver (le_paused e) _) as [[d p] s]. destruct H1 as (He & Hp & ->).
  destruct s; [by simpl|]. eapply returns_mono; [by apply IH|]. intros e2 [Hi2 He2].
  split; [done|]. rewrite He2, He, Hp. unfold coalesced_events.
  destruct (deliver p _) as [[d' p'] s']. simpl. by rewrite (assoc_L (++)).
Qed.

Lemma startup_inv e :
  engine_inv [] e → returns (LiveEngine.startup clock e) (λ e',
    engine_inv [] e' ∧ seen e' = seen e ∧ le_paused e' = le_paused e).
Proof.
  intros Hi. unfold LiveEngine.startup. apply returns_bind. eapply returns_mono.
  { apply lifecycle_inv; [apply (invoke_step [] strategy_on_create); [done|apply event_ok, cb_create]|done]. }
  intros e1 (Hi1 & He1 & Hp1). apply returns_bind. eapply returns_mono.
  { apply lifecycle_inv; [apply (invoke_step [] strategy_on_init); [done|apply event_ok, cb_init]|done]. }
  intros e2 (Hi2 & He2 & Hp2). eapply returns_mono.
  { apply lifecycle_inv; [apply (invoke_step [] strategy_on_reinit); [done|apply event_ok, cb_reinit]|done]. }
  intros e3 (Hi3 & He3 & Hp3). rewrite He3, He2, He1, !app_nil_r. by split_and!; congruence.
Qed.

(** Ticks decide neither when the engine stops nor which OMS updates it has seen. *)
Definition is_tick (event : EngineEvent.t) : bool :=
  match event with EngineEvent.Tick _ => true | _ => false end.
Definition without_ticks : list EngineEvent.t → list EngineEvent.t :=
  filter (λ event, is_tick event = false).

Lemma oms_without_ticks l :
  oms_updates (until_stop l) = oms_updates (until_stop (without_ticks l)).
Proof.
  unfold without_ticks, oms_updates. induction l as [|event l IH]; [done|].
  rewrite (filter_cons (λ event, is_tick event = false)).
  destruct event as [t|b|o|b|po|sg|k|[r|r|r]]; simpl; rewrite ?filter_cons; simpl; by rewrite ?IH.
Qed.

Lemma coalesced_without_ticks batches :
  without_ticks (coalesced_events batches) = without_ticks (received batches).
Proof.
  unfold without_ticks, coalesced_events, received.
  assert (∀ l : list EventEnvelope, filter (λ event, is_tick event = false) (env_event <$> l) =
    env_event <$> filter (λ env, tick_key env = None) l) as Hf.
  { intros l. induction l as [|env l IH]; [done|]. rewrite fmap_cons, !filter_cons, IH.
    unfold tick_key. destruct (env_event env) eqn:E; repeat case_decide; simplify_eq/=; by rewrite ?E. }
  induction batches as [|b batches IH]; [done|].
  rewrite !bind_cons, !filter_app, IH, !Hf, coalesce_rec. by rewrite coalesced_other.
Qed.

End delivery.

(** ** Runs of a small strategy *)

Section demo.
#[local] Existing Instances demo_cron demo_timer_heap.

(** An order on every tick, its cancellation when paused. *)
Definition tick_buyer : Strategy unit Z := {|
  strategy_on_create _ := no_op;
  strategy_on_init _ := no_op;
  strategy_on_reinit _ := no_op;
  strategy_on_tick t _ n :=
    ([SAction.PlaceOrder (mkStrategyOrder (n + 1) (td_instrument_code t) (f64.of_Z 100)
                            (f64.of_Z 1) BsBuy 0 7)], n + 1, 0%nat);
  strategy_on_bar _ _ := no_op;
  strategy_on_signal _ _ := no_op;
  strategy_on_order_update _ _ := no_op;
  strategy_on_balance_update _ _ := no_op;
  strategy_on_position_update _ _ := no_op;
  strategy_on_timer _ _ := no_op;
  strategy_on_pause _ _ n := ([SAction.Cancel (mkStrategyCancel n 7)], n, 0%nat);
  strategy_on_resume _ _ := no_op;
|}.
#[local] Existing Instance tick_buyer.

Lemma tick_buyer_valid : TimersValid unit Z.
Proof.
  split; [intros cb ctx s Hcb; destruct Hcb|..]; simpl; repeat constructor.
Qed.

Definition demo_clock_ns (k : nat) : Z * Z := (1000 * Z.of_nat k, 500 * Z.of_nat k).
Definition demo_tick (n : Z) : EventEnvelope :=
  envelope_now n (EngineEvent.Tick (mkTickData 0 "BTC" "X" n n f64.zero f64.zero f64.zero "" [] [])).
Definition demo_update : EventEnvelope :=
  envelope_now 0 (EngineEvent.OrderUpdate default_OrderUpdateEvent).
Definition demo_control (cmd : ControlCommand) : EventEnvelope :=
  envelope_now 0 (EngineEvent.Control cmd).

Definition demo_engine_run (batches : list (EventEnvelope * list EventEnvelope))
    : outcome (LiveEngine unit (Z * trace)) :=
  e ← LiveEngine.startup demo_clock_ns
        (LiveEngine.new demo_clock_ns [7] [] (0, mkTrace [] []) "exec" "strat");
  LiveEngine.run demo_clock_ns batches e.

Definition demo_batches : list (EventEnvelope * list EventEnvelope) :=
  [(demo_tick 1, [demo_tick 2; demo_update]);
   (demo_control (CtlPause "op"), [demo_tick 3; demo_update]);
   (demo_control (CtlStop "end"), [demo_update])].


(** The ticks around a pause in one batch are both lost: the first is superseded
    by the second, and the second comes while paused. *)
Lemma tick_lost_around_pause :
  returns (demo_engine_run [(demo_tick 1, [demo_control (CtlPause "op"); demo_tick 2])]) (λ e,
    tr_events (le_strategy e).2 = [EngineEvent.Control (CtlPause "op")]).
Proof. by vm_compute. Qed.
End demo.
