(* ===== verification/EngineSvc.v ===== *)
(** * The engine service ([zk-engine-svc]) and its way to the OMS

    The queues in front of the live engine ([subscriptions.rs], [control_api.rs],
    the priority forwarder of [runtime.rs]): market ticks go straight into the
    engine's channel and may be dropped, OMS updates and bars wait in the grace
    queue, commands of the operator in the control queue.  And the way of an
    action to the OMS: [dispatcher.rs] and the mapping of
    [zk-trading-sdk-rs/src/client.rs].

    The tasks run concurrently: a run is any sequence of their steps. *)

From S2P Require Import Prelude F64 Proto Models Collections Scheduler Rtmd Strategy Channels Engine.
From S2P Require Import Metadata OrderStore OmsCore Scenario BacktestOms OmsExec.

(** ** The queues *)

Definition EVENT_CHANNEL_CAPACITY : nat := 256.
Definition GRACE_QUEUE_CAPACITY : nat := 512.
Definition CONTROL_QUEUE_CAPACITY : nat := 32.

(** [sq_held] is the envelope the forwarder took and waits to hand on. *)
Record EngineQueues : Type := mkEngineQueues {
  sq_control : channel EventEnvelope;
  sq_grace : channel EventEnvelope;
  sq_engine : channel EventEnvelope;
  sq_held : option EventEnvelope;
  sq_ticks_dropped : Z;
  sq_grace_overflow : Z;
}.
#[export] Instance eta_EngineQueues : Eta EngineQueues := λ r,
  mkEngineQueues (sq_control r) (sq_grace r) (sq_engine r) (sq_held r) (sq_ticks_dropped r)
    (sq_grace_overflow r).

(** The answer to a control command: [CommandAck] or a gRPC status. *)
Inductive control_reply : Set :=
| Acked
| Waiting (envelope : EventEnvelope)
| Unavailable (msg : string)
| ResourceExhausted (msg : string).

Module EngineQueues.
Implicit Types (q : EngineQueues).

Definition new : EngineQueues := mkEngineQueues new_channel new_channel new_channel None 0 0.

(** [subscribe_ticks]: the handler of a tick. *)
Definition on_tick_msg (ts : Z) (tick : TickData) q : EngineQueues :=
  match try_send EVENT_CHANNEL_CAPACITY (envelope_now ts (EngineEvent.Tick tick)) (sq_engine q) with
  | (Ok _, ch) => q <| sq_engine := ch |>
  | (Err _, _) => q <| sq_ticks_dropped ::= λ n, wrap_u64 (n + 1) |>
  end.

Definition enqueue_reliable (envelope : EventEnvelope) q : bool * EngineQueues :=
  match try_send GRACE_QUEUE_CAPACITY envelope (sq_grace q) with
  | (Ok _, ch) => (true, q <| sq_grace := ch |>)
  | (Err _, _) =>
      (false, if ch_open (sq_grace q) then q <| sq_grace_overflow ::= λ n, wrap_u64 (n + 1) |> else q)
  end.

(** [subscribe_oms_updates], [subscribe_klines]: the handlers. *)
Definition on_order_update_msg (ts : Z) (oue : OrderUpdateEvent) q : bool * EngineQueues :=
  enqueue_reliable (envelope_now ts (EngineEvent.OrderUpdate oue)) q.
Definition on_balance_update_msg (ts : Z) (bue : BalanceUpdateEvent) q : bool * EngineQueues :=
  enqueue_reliable (envelope_now ts (EngineEvent.BalanceUpdate bue)) q.
Definition on_position_update_msg (ts : Z) (pue : PositionUpdateEvent) q : bool * EngineQueues :=
  enqueue_reliable (envelope_now ts (EngineEvent.PositionUpdate pue)) q.
Definition on_kline_msg (ts : Z) (kline : Kline) q : bool * EngineQueues :=
  enqueue_reliable (envelope_now ts (EngineEvent.Bar kline)) q.

(** [send_control]: at once, or waiting for room. *)
Definition send_control (ts : Z) (cmd : ControlCommand) q : control_reply * EngineQueues :=
  let envelope := envelope_now ts (EngineEvent.Control cmd) in
  match try_send CONTROL_QUEUE_CAPACITY envelope (sq_control q) with
  | (Ok _, ch) => (Acked, q <| sq_control := ch |>)
  | (Err _, _) =>
      if ch_open (sq_control q) then (Waiting envelope, q)
      else (Unavailable "engine control channel closed", q)
  end.

(** The end of the wait: room, a closed channel, or the timeout. *)
Definition finish_control (timed_out : bool) (envelope : EventEnvelope) q : control_reply * EngineQueues :=
  if timed_out then (ResourceExhausted "control queue full — command timed out", q)
  else
    match try_send CONTROL_QUEUE_CAPACITY envelope (sq_control q) with
    | (Ok _, ch) => (Acked, q <| sq_control := ch |>)
    | (Err _, _) =>
        if ch_open (sq_control q) then (Waiting envelope, q)
        else (Unavailable "engine control channel closed", q)
    end.

Definition pause (ts : Z) : EngineQueues → control_reply * EngineQueues :=
  send_control ts (CtlPause "gRPC Pause request").
Definition resume (ts : Z) : EngineQueues → control_reply * EngineQueues :=
  send_control ts (CtlResume "gRPC Resume request").
Definition stop (ts : Z) (reason : string) : EngineQueues → control_reply * EngineQueues :=
  send_control ts (CtlStop reason).

(** The forwarder takes an envelope, from the control queue if it has one. *)
Definition forward_take q : EngineQueues :=
  match sq_held q with
  | Some _ => q
  | None =>
      match recv (sq_control q) with
      | Some (envelope, ch) => q <| sq_control := ch |> <| sq_held := Some envelope |>
      | None =>
          match recv (sq_grace q) with
          | Some (envelope, ch) => q <| sq_grace := ch |> <| sq_held := Some envelope |>
          | None => q
          end
      end
  end.

(** A blocking [send]: it goes through when there is room, and fails when the
    receiver is gone. *)
Definition engine_send (envelope : EventEnvelope) q : option (result unit EventEnvelope * EngineQueues) :=
  match try_send EVENT_CHANNEL_CAPACITY envelope (sq_engine q) with
  | (Ok _, ch) => Some (Ok tt, q <| sq_engine := ch |>)
  | (Err _, _) => if ch_open (sq_engine q) then None else Some (Err envelope, q)
  end.

(** The forwarder hands on what it holds, or ends with its receivers. *)
Definition forward_put q : EngineQueues :=
  match sq_held q with
  | None => q
  | Some envelope =>
      match engine_send envelope q with
      | None => q
      | Some (Ok _, q) => q <| sq_held := None |>
      | Some (Err _, q) =>
          q <| sq_held := None |> <| sq_control ::= close |> <| sq_grace ::= close |>
      end
  end.

(** [run_timer_clock] and [stop_engine] send into the engine's channel. *)
Definition direct_send (envelope : EventEnvelope) q : EngineQueues :=
  match engine_send envelope q with Some (_, q) => q | None => q end.

(** The engine drains [n] envelopes. *)
Definition engine_drain (n : nat) q : list EventEnvelope * EngineQueues :=
  let l := ch_queue (sq_engine q) in
  (take n l, q <| sq_engine := mkChannel (drop n l) (ch_open (sq_engine q)) |>).

(** The engine's task ends. *)
Definition engine_exit q : EngineQueues := q <| sq_engine ::= close |>.
End EngineQueues.

(** ** Steps of the tasks *)

Inductive queue_event : Type :=
| TickMsg (ts : Z) (tick : TickData)
| OrderUpdateMsg (ts : Z) (oue : OrderUpdateEvent)
| BalanceUpdateMsg (ts : Z) (bue : BalanceUpdateEvent)
| PositionUpdateMsg (ts : Z) (pue : PositionUpdateEvent)
| KlineMsg (ts : Z) (kline : Kline)
| ControlMsg (ts : Z) (cmd : ControlCommand)
| ControlWaitOver (timed_out : bool) (envelope : EventEnvelope)
| ForwardTake
| ForwardPut
| TimerPulse (ts now_ms : Z)
| StopEngine (ts : Z) (reason : string)
| EngineDrain (n : nat)
| EngineExit.

(** The queues, the reliable envelopes accepted, how many were refused, and what
    the engine took. *)
Record queue_run : Type := mkQueueRun {
  qr_queues : EngineQueues;
  qr_accepted : list EventEnvelope;
  qr_refused : nat;
  qr_taken : list EventEnvelope;
}.
#[export] Instance eta_queue_run : Eta queue_run := λ r,
  mkQueueRun (qr_queues r) (qr_accepted r) (qr_refused r) (qr_taken r).

Definition reliable_step (envelope : EventEnvelope) (s : queue_run) : queue_run :=
  let '(ok, q) := EngineQueues.enqueue_reliable envelope (qr_queues s) in
  let s := s <| qr_queues := q |> in
  if ok then s <| qr_accepted ::= λ l, l ++ [envelope] |> else s <| qr_refused ::= S |>.

Definition queue_step (s : queue_run) (ev : queue_event) : queue_run :=
  let q := qr_queues s in
  match ev with
  | TickMsg ts tick => s <| qr_queues := EngineQueues.on_tick_msg ts tick q |>
  | OrderUpdateMsg ts oue => reliable_step (envelope_now ts (EngineEvent.OrderUpdate oue)) s
  | BalanceUpdateMsg ts bue => reliable_step (envelope_now ts (EngineEvent.BalanceUpdate bue)) s
  | PositionUpdateMsg ts pue => reliable_step (envelope_now ts (EngineEvent.PositionUpdate pue)) s
  | KlineMsg ts kline => reliable_step (envelope_now ts (EngineEvent.Bar kline)) s
  | ControlMsg ts cmd => s <| qr_queues := (EngineQueues.send_control ts cmd q).2 |>
  | ControlWaitOver timed_out envelope =>
      match env_event envelope with
      | EngineEvent.Control _ =>
          s <| qr_queues := (EngineQueues.finish_control timed_out envelope q).2 |>
      | _ => s
      end
  | ForwardTake => s <| qr_queues := EngineQueues.forward_take q |>
  | ForwardPut => s <| qr_queues := EngineQueues.forward_put q |>
  | TimerPulse ts now_ms =>
      s <| qr_queues := EngineQueues.direct_send (envelope_now ts (EngineEvent.Timer now_ms)) q |>
  | StopEngine ts reason =>
      s <| qr_queues :=
        EngineQueues.direct_send (envelope_now ts (EngineEvent.Control (CtlStop reason))) q |>
  | EngineDrain n =>
      let '(batch, q) := EngineQueues.engine_drain n q in
      s <| qr_queues := q |> <| qr_taken ::= λ l, l ++ batch |>
  | EngineExit => s <| qr_queues := EngineQueues.engine_exit q |>
  end.

Definition queue_runs (evs : list queue_event) : queue_run :=
  foldl queue_step (mkQueueRun EngineQueues.new [] 0 []) evs.

(** ** Reliable events reach the engine in order *)

(** OMS updates and bars. *)
Definition is_reliable (envelope : EventEnvelope) : bool :=
  match env_event envelope with
  | EngineEvent.Bar _ => true
  | event => LiveEngine.is_oms_update event
  end.
Notation reliable := (List.filter is_reliable).

Record queues_inv (s : queue_run) : Prop := {
  qi_grace : Forall (λ env, is_reliable env = true) (ch_queue (sq_grace (qr_queues s)));
  qi_control : Forall (λ env, is_reliable env = false) (ch_queue (sq_control (qr_queues s)));
  qi_prefix : reliable (qr_taken s) `prefix_of` qr_accepted s;
  qi_open : ch_open (sq_engine (qr_queues s)) = true →
    ch_open (sq_grace (qr_queues s)) = true ∧
    reliable (qr_taken s) ++ reliable (ch_queue (sq_engine (qr_queues s))) ++
      reliable (option_list (sq_held (qr_queues s))) ++ ch_queue (sq_grace (qr_queues s))
    = qr_accepted s;
  qi_closed : ch_open (sq_engine (qr_queues s)) = false → ch_queue (sq_engine (qr_queues s)) = [];
  qi_refused : ch_open (sq_grace (qr_queues s)) = true →
    sq_grace_overflow (qr_queues s) = wrap_u64 (Z.of_nat (qr_refused s));
}.

(** What a successful send does to a queue. *)
Lemma try_send_spec {A} cap (a : A) ch :
  match try_send cap a ch with
  | (Ok _, ch') => ch_open ch = true ∧ ch' = mkChannel (ch_queue ch ++ [a]) true
  | (Err _, ch') => ch' = ch
  end.
Proof.
  unfold try_send. destruct ch as [l []]; simpl; [|done]. by destruct (_ <=? _)%nat.
Qed.

Lemma reliable_nil l : Forall (λ env, is_reliable env = false) l → reliable l = [].
Proof. induction 1 as [|env l He _ IH]; [done|]. simpl. by rewrite He. Qed.
Lemma reliable_all l : Forall (λ env, is_reliable env = true) l → reliable l = l.
Proof. induction 1 as [|env l He _ IH]; [done|]. simpl. by rewrite He, IH. Qed.

(** An envelope that is not reliable enters the engine's channel. *)
Lemma engine_put_inv env s q' :
  is_reliable env = false → queues_inv s →
  q' = (qr_queues s) <| sq_engine := mkChannel (ch_queue (sq_engine (qr_queues s)) ++ [env]) true |> →
  ch_open (sq_engine (qr_queues s)) = true → queues_inv (s <| qr_queues := q' |>).
Proof.
  intros Hr [Hg Hc Hp Ho Hx Hf] -> Hopen. split; try done. simpl. intros _.
  specialize (Ho Hopen) as [Hgo He]. split; [done|].
  rewrite List.filter_app. simpl. by rewrite Hr, app_nil_r.
Qed.

Lemma reliable_step_inv env s :
  is_reliable env = true → queues_inv s → queues_inv (reliable_step env s).
Proof.
  intros Hr [Hg Hc Hp Ho Hx Hf]. unfold reliable_step, EngineQueues.enqueue_reliable.
  pose proof (try_send_spec GRACE_QUEUE_CAPACITY env (sq_grace (qr_queues s))) as Hs.
  destruct (try_send _ env _) as [[u|a] ch].
  - destruct Hs as [Hopen ->]. split; simpl; try done.
    + apply Forall_app. by split; [|constructor].
    + by apply prefix_app_r.
    + intros He. destruct (Ho He) as [_ <-]. split; [done|]. by rewrite !(assoc_L (++)).
    + intros _. by apply Hf.
  - destruct (ch_open (sq_grace (qr_queues s))) eqn:Hopen; split; simpl; try done.
    + intros He. destruct (Ho He). by rewrite Hopen.
    + intros _. rewrite Hf by done. unfold wrap_u64. rewrite Zplus_mod_idemp_l. f_equal. lia.
    + by rewrite Hopen.
    + by rewrite Hopen.
Qed.

Lemma direct_send_inv env s :
  is_reliable env = false → queues_inv s →
  queues_inv (s <| qr_queues := EngineQueues.direct_send env (qr_queues s) |>).
Proof.
  intros Hr Hi. unfold EngineQueues.direct_send, EngineQueues.engine_send.
  pose proof (try_send_spec EVENT_CHANNEL_CAPACITY env (sq_engine (qr_queues s))) as Hs.
  destruct (try_send _ env _) as [[u|a] ch].
  - destruct Hs as [Hopen ->]. by eapply engine_put_inv.
  - destruct (ch_open (sq_engine (qr_queues s))); by destruct s.
Qed.

Lemma forward_put_inv s :
  queues_inv s → queues_inv (s <| qr_queues := EngineQueues.forward_put (qr_queues s) |>).
Proof.
  intros Hi. unfold EngineQueues.forward_put, EngineQueues.engine_send.
  destruct (sq_held (qr_queues s)) as [env|] eqn:Eh; [|by destruct s].
  pose proof (try_send_spec EVENT_CHANNEL_CAPACITY env (sq_engine (qr_queues s))) as Hs.
  destruct (try_send _ env _) as [[u|a] ch].
  - destruct Hi as [Hg Hc Hp Ho Hx Hf]. destruct Hs as [Hopen ->]. split; simpl; try done. intros _.
    destruct (Ho Hopen) as [Hgo <-]. split; [done|]. rewrite Eh, List.filter_app. simpl.
    by rewrite <- !(assoc_L (++)).
  - destruct (ch_open (sq_engine (qr_queues s))) eqn:Hopen; [by destruct s|].
    destruct Hi as [Hg Hc Hp Ho Hx Hf]. split; simpl; try done. by rewrite Hopen.
Qed.

Lemma forward_take_inv s :
  queues_inv s → queues_inv (s <| qr_queues := EngineQueues.forward_take (qr_queues s) |>).
Proof.
  intros Hi. unfold EngineQueues.forward_take, recv.
  destruct (sq_held (qr_queues s)) as [env|] eqn:Eh; [by destruct s|].
  destruct (ch_queue (sq_control (qr_queues s))) as [|env l] eqn:Ec.
  - destruct (ch_queue (sq_grace (qr_queues s))) as [|env l] eqn:Eg; [by destruct s|].
    destruct Hi as [Hg Hc Hp Ho Hx Hf]. rewrite Eg in Hg, Ho. apply Forall_cons in Hg as [He Hg]. split; simpl; try done.
    intros Hopen. destruct (Ho Hopen) as [Hgo <-]. split; [done|]. rewrite Eh. simpl. by rewrite He.
  - destruct Hi as [Hg Hc Hp Ho Hx Hf]. rewrite Ec in Hc. apply Forall_cons in Hc as [He Hc].
    split; simpl; try done. intros Hopen. destruct (Ho Hopen) as [Hgo <-]. split; [done|]. rewrite Eh. simpl. by rewrite He.
Qed.

(** A command enters the control queue, or nothing happens. *)
Lemma control_put_inv cap env s :
  is_reliable env = false → queues_inv s →
  queues_inv (s <| qr_queues :=
    match try_send cap env (sq_control (qr_queues s)) with
    | (Ok _, ch) => (qr_queues s) <| sq_control := ch |>
    | (Err _, _) => qr_queues s
    end |>).
Proof.
  intros Hr Hi. pose proof (try_send_spec cap env (sq_control (qr_queues s))) as Hs.
  destruct (try_send _ env _) as [[u|a] ch]; [|by destruct s].
  destruct Hs as [_ ->]. destruct Hi as [Hg Hc Hp Ho Hx Hf]. split; simpl; try done.
  apply Forall_app. by split; [|constructor].
Qed.

Lemma queue_step_inv ev s : queues_inv s → queues_inv (queue_step s ev).
Proof.
  intros Hi. destruct ev as [ts tick|ts o|ts b|ts po|ts k|ts cmd|w env| | |ts n|ts r|n|]; cbn [queue_step].
  - pose proof (direct_send_inv (envelope_now ts (EngineEvent.Tick tick)) s eq_refl Hi) as Hd.
    unfold EngineQueues.on_tick_msg, EngineQueues.direct_send, EngineQueues.engine_send in *.
    destruct (try_send _ _ _) as [[u|a] ch]; [exact Hd|]. by destruct Hi as [Hg Hc Hp Ho Hx Hf].
  - by apply reliable_step_inv.
  - by apply reliable_step_inv.
  - by apply reliable_step_inv.
  - by apply reliable_step_inv.
  - pose proof (control_put_inv CONTROL_QUEUE_CAPACITY (envelope_now ts (EngineEvent.Control cmd))
      s eq_refl Hi) as Hd. unfold EngineQueues.send_control.
    destruct (try_send _ _ _) as [[u|a] ch]; [exact Hd|]. by destruct (ch_open _).
  - destruct (env_event env) as [| | | | | | |cmd] eqn:Ee; try done.
    assert (is_reliable env = false) as Hr by (unfold is_reliable; by rewrite Ee).
    pose proof (control_put_inv CONTROL_QUEUE_CAPACITY env s Hr Hi) as Hd.
    unfold EngineQueues.finish_control. destruct w; [by destruct s|].
    destruct (try_send _ _ _) as [[u|a] ch]; [exact Hd|]. by destruct (ch_open _).
  - by apply forward_take_inv.
  - by apply forward_put_inv.
  - by apply direct_send_inv.
  - by apply direct_send_inv.
  - destruct Hi as [Hg Hc Hp Ho Hx Hf]. split; simpl; try done.
    + rewrite List.filter_app. destruct (ch_open (sq_engine (qr_queues s))) eqn:Hopen.
      * destruct (Ho eq_refl) as [_ <-]. apply prefix_app.
        rewrite <- (take_drop n (ch_queue (sq_engine (qr_queues s)))) at 2.
        rewrite List.filter_app, <- (assoc_L (++)). by apply prefix_app_r.
      * rewrite (Hx eq_refl), take_nil. simpl. by rewrite app_nil_r.
    + intros Hopen. destruct (Ho Hopen) as [Hgo <-]. split; [done|].
      rewrite <- (take_drop n (ch_queue (sq_engine (qr_queues s)))) at 3.
      rewrite !List.filter_app. by rewrite <- !(assoc_L (++)).
    + intros Hopen. by rewrite (Hx Hopen), drop_nil.
  - destruct Hi as [Hg Hc Hp Ho Hx Hf]. by split.
Qed.

(** C22: OMS updates and bars reach the engine in order.  Whatever the tasks of the
    service do, what the engine has taken of them is, in order, the beginning of
    what the queues accepted; while the engine runs, the rest is in the engine's
    channel, in the hand of the forwarder or in the grace queue, in this order,
    and every event refused so far is counted as an overflow. *)
Theorem reliable_events_in_order (evs : list queue_event) :
  let s := queue_runs evs in
  let q := qr_queues s in
  reliable (qr_taken s) `prefix_of` qr_accepted s ∧
  (ch_open (sq_engine q) = true →
   reliable (qr_taken s) ++ reliable (ch_queue (sq_engine q)) ++
     reliable (option_list (sq_held q)) ++ ch_queue (sq_grace q) = qr_accepted s ∧
   sq_grace_overflow q = wrap_u64 (Z.of_nat (qr_refused s))).
Proof.
  cbv zeta. assert (queues_inv (queue_runs evs)) as [_ _ Hp Ho _ Hf].
  { unfold queue_runs. induction evs as [|ev evs IH] using rev_ind; [by split|].
    rewrite foldl_snoc. by apply queue_step_inv. }
  split; [exact Hp|]. intros Hopen. destruct (Ho Hopen) as [Hg He]. split; [exact He|by apply Hf].
Qed.

(** ** [dispatcher.rs] and [client.rs]: from an action to a request of the OMS *)

Module Side.
Inductive t : Set := Buy | Sell.
End Side.

Module OrderKind.
Inductive t : Set := Limit | Market.
End OrderKind.

Record TradingOrder : Set := mkTradingOrder {
  tro_order_id : Z;
  tro_instrument_id : string;
  tro_side : Side.t;
  tro_order_type : OrderKind.t;
  tro_open_close_type : Z;
  tro_price : f64;
  tro_qty : f64;
  tro_source_id : string;
  tro_trigger_context : option TriggerContext;
}.
#[export] Instance eta_TradingOrder : Eta TradingOrder := λ r,
  mkTradingOrder (tro_order_id r) (tro_instrument_id r) (tro_side r) (tro_order_type r)
    (tro_open_close_type r) (tro_price r) (tro_qty r) (tro_source_id r) (tro_trigger_context r).

Record TradingCancel : Set := mkTradingCancel {
  trc_order_id : Z;
  trc_exch_order_ref : string;
  trc_source_id : string;
  trc_trigger_context : option TriggerContext;
}.

Definition OrdertypeMarket : Z := 2.

Definition map_strategy_order (order : StrategyOrder) (source_id : string) : TradingOrder :=
  mkTradingOrder (so_order_id order) (so_symbol order)
    (if so_side order =? BsBuy then Side.Buy else Side.Sell) OrderKind.Limit
    (if so_open_close_type order =? 0 then OcOpen else so_open_close_type order)
    (so_price order) (so_qty order) source_id None.

Definition map_order_request (now_ms account_id : Z) (order : TradingOrder) : OrderRequest :=
  {| req_order_id := tro_order_id order;
     req_account_id := account_id;
     req_instrument_code := tro_instrument_id order;
     req_buy_sell_type := match tro_side order with Side.Buy => BsBuy | Side.Sell => BsSell end;
     req_open_close_type := tro_open_close_type order;
     req_order_type :=
       match tro_order_type order with
       | OrderKind.Limit => OrdertypeLimit
       | OrderKind.Market => OrdertypeMarket
       end;
     req_price := tro_price order;
     req_qty := tro_qty order;
     req_source_id := tro_source_id order;
     req_timestamp := now_ms;
     req_leverage := f64.zero;
     req_extra_properties := None;
     req_time_inforce_type := TimeinforceGtc;
     req_extra_order_tags := [];
     req_trigger_context := tro_trigger_context order |}.

Definition map_cancel_request (now_ms : Z) (cancel : TradingCancel) : OrderCancelRequest :=
  mkOrderCancelRequest (trc_order_id cancel) (trc_exch_order_ref cancel) None (trc_source_id cancel)
    now_ms (trc_trigger_context cancel).

Record CommandAck : Set := mkCommandAck {
  ca_success : bool;
  ca_message : string;
  ca_timestamp_ms : Z;
}.

Definition map_command_ack (response : OmsResponse) : CommandAck :=
  mkCommandAck (orsp_status response =? OmsRespStatusSuccess) (orsp_message response)
    (orsp_timestamp response).

Module TradingDispatcher.
Section dispatcher.
Context (source_id : string).

(** The order and the cancel of a call, at [submit_ts]. *)
Definition place_order (submit_ts : Z) (order : StrategyOrder) (ctx : EngineTrigger) : TradingOrder :=
  (map_strategy_order order source_id) <| tro_trigger_context :=
    Some (trigger_to_proto submit_ts (display_i64 (so_order_id order)) ctx) |>.

Definition cancel_order (submit_ts : Z) (cancel : StrategyCancel) (ctx : EngineTrigger) : TradingCancel :=
  mkTradingCancel (sca_order_id cancel) "" source_id
    (Some (trigger_to_proto submit_ts (display_i64 (sca_order_id cancel)) ctx)).

(** What the task spawned for a call sends to the OMS, at [now_ms]; the client
    gives an order without an id the next one of its generator. *)
Definition request (next_order_id submit_ts now_ms : Z) (call : DispatchCall) : option OmsMessage :=
  match call with
  | CallPlaceOrder order ctx =>
      let o := place_order submit_ts order ctx in
      let o := if tro_order_id o =? 0 then o <| tro_order_id := next_order_id |> else o in
      Some (PlaceOrder (map_order_request now_ms (so_account_id order) o))
  | CallCancelOrder cancel ctx =>
      Some (CancelOrder (map_cancel_request now_ms (cancel_order submit_ts cancel ctx)))
  | CallLog _ => None
  end.
End dispatcher.
End TradingDispatcher.

(** ** [query_api.rs] *)

Definition status_state (s : LifecycleState.t) : string :=
  match s with
  | LifecycleState.Running => "RUNNING"
  | LifecycleState.Paused | LifecycleState.Pausing => "PAUSED"
  | LifecycleState.Starting | LifecycleState.Resuming => "RUNNING"
  | LifecycleState.Stopping | LifecycleState.Stopped => "IDLE"
  | LifecycleState.Degraded => "ERROR"
  | LifecycleState.Fenced | LifecycleState.Failed => "ERROR"
  end.

Definition health_status (s : LifecycleState.t) : string :=
  match s with
  | LifecycleState.Running | LifecycleState.Paused | LifecycleState.Starting
  | LifecycleState.Resuming | LifecycleState.Pausing => "SERVING"
  | _ => "NOT_SERVING"
  end.

(** ** Runs *)

Definition svc_tick : TickData := default_TickData.

(** A command of the operator waits behind what the engine's channel holds and
    behind the update the forwarder already took. *)
Lemma control_waits_behind_backlog :
  let s := queue_runs (replicate 256 (TickMsg 0 svc_tick) ++
             [OrderUpdateMsg 1 default_OrderUpdateEvent; ForwardTake;
              ControlMsg 2 (CtlPause "op"); ForwardPut; ForwardTake;
              EngineDrain 256; ForwardPut; ForwardTake; ForwardPut; EngineDrain 10]) in
  env_event <$> drop 255 (qr_taken s) =
  [EngineEvent.Tick svc_tick; EngineEvent.OrderUpdate default_OrderUpdateEvent;
   EngineEvent.Control (CtlPause "op")].
Proof. vm_compute. reflexivity. Qed.

(** The tasks spawned for an order and for its cancellation run independently.
    When the cancellation reaches the OMS first it is turned down, and the order
    is sent to the gateway and stays. *)
Definition svc_calls : list DispatchCall :=
  let ctx := from_envelope 0 (envelope_now 0 (EngineEvent.Timer 0)) "exec" "strat" in
  [CallPlaceOrder (mkStrategyOrder 11 "BTC-PERP" (f64.of_Z 100) (f64.of_Z 10) BsBuy 0 7) ctx;
   CallCancelOrder (mkStrategyCancel 11 7) ctx].

Definition svc_sent (calls : list DispatchCall) : option (list (bool * Z)) :=
  match play (omap (TradingDispatcher.request "exec" 99 0 1000) calls) checked_core with
  | Returns (actions, _) =>
      Some (omap (λ a, match a with
                       | SendOrderToGw _ oid _ => Some (true, oid)
                       | SendCancelToGw _ oid => Some (false, oid)
                       | _ => None
                       end) actions)
  | Panics _ => None
  end.

Lemma cancel_overtakes_order :
  svc_sent svc_calls = Some [(true, 11); (false, 11)] ∧
  svc_sent (reverse svc_calls) = Some [(true, 11)].
Proof. vm_compute. split; reflexivity. Qed.
