(* ===== verification/SimVenue.v ===== *)
(** * The simulated venue ([zk-gw-svc/src/venue/simulator])

    [state.rs], [error_injection.rs], [adapter.rs] and [admin.rs]: the adapter a
    gateway uses in tests, over the matching simulator, with the balances of one
    account, rules that inject errors, and the calls of the test harness.

    All state is behind one lock, which an operation may release and take again:
    a placement or cancellation while a rule delays it, a synthetic tick between
    the matching and the balances.  Each stretch under the lock is a definition of
    its own; an operation composes them, and returns the events it sends to the
    gateway.  Wall-clock times are arguments; [uuid] is the source of random ids
    of the simulator, and a rule without an id is given [fresh_id]. *)

From S2P Require Import Prelude F64 Proto Models Utils Text Rtmd Simulator Gateway GwExec.

(** ** [error_injection.rs] *)

Module ErrorScope.
Inductive t : Set := PlaceOrder | CancelOrder | QueryAccountBalance | QueryOrderDetail.
#[global] Instance t_eq_dec : EqDecision t.
Proof. solve_decision. Defined.
End ErrorScope.

Inductive ErrorEffect : Set :=
| RpcError (grpc_status_code : Z) (error_message : string)
| RejectOrder (error_message : string)
| DelayResponse (delay_ms : Z).

Inductive RuleTrigger : Set := TriggerOnce | TriggerTimes (n : Z) | TriggerUntilCleared.

(** [MatchCriteria] and [RequestContext] have the same fields. *)
Record MatchCriteria : Set := mkMatchCriteria {
  mc_account_id : option Z;
  mc_side : option Z;
  mc_instrument : option string;
  mc_order_id : option Z;
  mc_client_order_id : option Z;
  mc_exch_account_id : option string;
}.
#[export] Instance eta_MatchCriteria : Eta MatchCriteria := λ r,
  mkMatchCriteria (mc_account_id r) (mc_side r) (mc_instrument r) (mc_order_id r)
    (mc_client_order_id r) (mc_exch_account_id r).
Definition default_MatchCriteria : MatchCriteria := mkMatchCriteria None None None None None None.
Notation RequestContext := MatchCriteria (only parsing).

Record InjectedErrorRule : Set := mkInjectedErrorRule {
  ier_error_id : string;
  ier_scope : ErrorScope.t;
  ier_criteria : MatchCriteria;
  ier_effect : ErrorEffect;
  ier_trigger_policy : RuleTrigger;
  ier_remaining_triggers : option Z;
  ier_priority : Z;
  ier_enabled : bool;
  ier_created_at : Z;
  ier_last_fired_at : option Z;
}.
#[export] Instance eta_InjectedErrorRule : Eta InjectedErrorRule := λ r,
  mkInjectedErrorRule (ier_error_id r) (ier_scope r) (ier_criteria r) (ier_effect r)
    (ier_trigger_policy r) (ier_remaining_triggers r) (ier_priority r) (ier_enabled r)
    (ier_created_at r) (ier_last_fired_at r).

(** An absent criterion matches everything. *)
Definition criterion {A} `{EqDecision A} (wanted actual : option A) : bool :=
  match wanted with Some _ => bool_decide (actual = wanted) | None => true end.

Definition rule_matches (ctx : RequestContext) (r : InjectedErrorRule) : bool :=
  let c := ier_criteria r in
  ier_enabled r &&
  negb (bool_decide (ier_remaining_triggers r = Some 0)) &&
  criterion (mc_account_id c) (mc_account_id ctx) && criterion (mc_side c) (mc_side ctx) &&
  criterion (mc_instrument c) (mc_instrument ctx) && criterion (mc_order_id c) (mc_order_id ctx) &&
  criterion (mc_client_order_id c) (mc_client_order_id ctx) &&
  criterion (mc_exch_account_id c) (mc_exch_account_id ctx).

(** [fire]: [saturating_sub] on the triggers left. *)
Definition fire_rule (now : Z) (r : InjectedErrorRule) : InjectedErrorRule :=
  r <| ier_last_fired_at := Some now |>
    <| ier_remaining_triggers ::= fmap (λ n, Z.max 0 (n - 1)) |>.

(** The loop of [evaluate_rules]: the best rule so far, with its index. *)
Definition better_rule (scope : ErrorScope.t) (ctx : RequestContext)
    (best : option (nat * InjectedErrorRule)) (ir : nat * InjectedErrorRule)
    : option (nat * InjectedErrorRule) :=
  let '(i, rule) := ir in
  if negb (bool_decide (ier_scope rule = scope)) || negb (rule_matches ctx rule) then best
  else match best with
       | None => Some (i, rule)
       | Some (_, b) => if ier_priority rule <? ier_priority b then Some (i, rule) else best
       end.

Definition best_rule (scope : ErrorScope.t) (ctx : RequestContext) (rules : list InjectedErrorRule)
    : option (nat * InjectedErrorRule) :=
  foldl (better_rule scope ctx) None (imap pair rules).

Definition evaluate_rules (now : Z) (scope : ErrorScope.t) (ctx : RequestContext)
    (rules : list InjectedErrorRule) : option ErrorEffect * list InjectedErrorRule :=
  match best_rule scope ctx rules with
  | Some (i, rule) => (Some (ier_effect rule), alter (fire_rule now) i rules)
  | None => (None, rules)
  end.

(** ** [state.rs] *)

Record BalanceEntry : Set := mkBalanceEntry {
  ble_total_qty : f64;
  ble_avail_qty : f64;
  ble_frozen_qty : f64;
}.
Definition new_balance (qty : f64) : BalanceEntry := mkBalanceEntry qty qty f64.zero.

Record PositionEntry : Set := mkPositionEntry {
  poe_instrument_code : string;
  poe_long_short_type : Z;
  poe_total_qty : f64;
  poe_avail_qty : f64;
  poe_frozen_qty : f64;
}.

Record SimAccountState : Set := mkSimAccountState {
  sas_account_id : Z;
  sas_balances : gmap string BalanceEntry;
  sas_positions : gmap string PositionEntry;
  sas_initial_balances : gmap string BalanceEntry;
  sas_initial_positions : gmap string PositionEntry;
}.
#[export] Instance eta_SimAccountState : Eta SimAccountState := λ r,
  mkSimAccountState (sas_account_id r) (sas_balances r) (sas_positions r) (sas_initial_balances r)
    (sas_initial_positions r).

Module SimAccountState.
Implicit Types (a : SimAccountState).

Definition new (account_id : Z) (initial_balances : gmap string f64) : SimAccountState :=
  let balances := new_balance <$> initial_balances in
  mkSimAccountState account_id balances ∅ balances ∅.

(** An entry, created empty on first use, changed by [f] in total and available. *)
Definition change (f : f64 → f64) (asset : string) (balances : gmap string BalanceEntry)
    : gmap string BalanceEntry :=
  let e := default (new_balance f64.zero) (balances !! asset) in
  <[asset := mkBalanceEntry (f (ble_total_qty e)) (f (ble_avail_qty e)) (ble_frozen_qty e)]> balances.

Definition apply_fill_to_balances (instrument : string) (side : Z) (qty price : f64)
    (balances : gmap string BalanceEntry) : gmap string BalanceEntry :=
  let '(base, quote) :=
    match split_at 0x2D instrument with
    | Some (b, q) => (b, Some q)
    | None => (instrument, None)
    end in
  let value := f64.mul price qty in
  let gains x y := f64.add y x in
  let loses x y := f64.sub y x in
  if side =? 1 then
    let balances := change (gains qty) base balances in
    match quote with Some q => change (loses value) q balances | None => balances end
  else
    let balances := change (loses qty) base balances in
    match quote with Some q => change (gains value) q balances | None => balances end.

Definition balance_snapshot_entry (account_id : Z) (symbol : string) (e : BalanceEntry) : PositionReport :=
  default_PositionReport <| pr_instrument_code := symbol |> <| pr_instrument_type := InstTypeSpot |>
    <| pr_qty := ble_total_qty e |> <| pr_avail_qty := ble_avail_qty e |>
    <| pr_account_id := account_id |>.
Definition balance_snapshot `{!HashIter string} a : list PositionReport :=
  (λ '(symbol, e), balance_snapshot_entry (sas_account_id a) symbol e) <$> hash_iter (sas_balances a).

Definition reset a : SimAccountState :=
  a <| sas_balances := sas_initial_balances a |> <| sas_positions := sas_initial_positions a |>.
End SimAccountState.

Record ManualControlState : Set := mkManualControlState {
  mcs_error_rules : list InjectedErrorRule;
  mcs_matching_paused : bool;
  mcs_current_match_policy : string;
  mcs_initial_match_policy : string;
}.
#[export] Instance eta_ManualControlState : Eta ManualControlState := λ r,
  mkManualControlState (mcs_error_rules r) (mcs_matching_paused r) (mcs_current_match_policy r)
    (mcs_initial_match_policy r).

Module ManualControlState.
Definition new (initial_policy : string) : ManualControlState :=
  mkManualControlState [] false initial_policy initial_policy.
Definition reset (c : ManualControlState) : ManualControlState :=
  mkManualControlState [] false (mcs_initial_match_policy c) (mcs_initial_match_policy c).
End ManualControlState.

Record SimulatorState : Type := mkSimulatorState {
  ss_sim_core : SimulatorCore;
  ss_account_state : SimAccountState;
  ss_control_state : ManualControlState;
}.
#[export] Instance eta_SimulatorState : Eta SimulatorState := λ r,
  mkSimulatorState (ss_sim_core r) (ss_account_state r) (ss_control_state r).

(** ** [adapter.rs] *)

Definition make_match_policy (name : string) : MatchPolicy :=
  if String.eqb name "fcfs" then FirstComeFirstServedMatchPolicy else ImmediateMatchPolicy.

(** The simulator of [build_adapter] ([venue/mod.rs]). *)
Definition build_simulator (account_id : Z) (balances : gmap string f64) (match_policy : string)
    : SimulatorState :=
  mkSimulatorState (SimulatorCore.new (make_match_policy match_policy) "SIM")
    (SimAccountState.new account_id balances) (ManualControlState.new match_policy).

(** One entry of the loop of [extract_fill_info]. *)
Definition fill_of_entry (acc : string * Z * f64 * f64) (entry : OrderReportEntry)
    : string * Z * f64 * f64 :=
  let '(instrument, side, _, _) := acc in
  if ent_report_type entry =? OrderReportType_i32 OrderRepTypeTrade then
    match ent_report entry with
    | Some (RTradeReport trade) =>
        match trr_order_info trade with
        | Some info => (oi_instrument info, oi_buy_sell_type info, trr_filled_qty trade,
                        trr_filled_price trade)
        | None => (instrument, side, trr_filled_qty trade, trr_filled_price trade)
        end
    | _ => acc
    end
  else acc.

Definition extract_fill_info (report : OrderReport) : option (string * Z * f64 * f64) :=
  let '(instrument, side, fill_qty, fill_price) :=
    foldl fill_of_entry ("", 0, f64.zero, f64.zero) (rep_order_report_entries report) in
  if f64.ltb f64.zero fill_qty && negb (String.eqb instrument "")
  then Some (instrument, side, fill_qty, fill_price) else None.

Definition sim_order_to_venue_fact (o : SimOrder) : VenueOrderFact :=
  mkVenueOrderFact (gwreq_correlation_id (sim_req o)) (sim_exch_order_id o)
    (gwreq_instrument (sim_req o))
    (if f64.leb (sim_remaining_qty o) f64.zero then VFilled
     else if f64.ltb f64.zero (sim_filled_qty o) then VPartiallyFilled else VBooked)
    (sim_filled_qty o) (sim_remaining_qty o) f64.zero (sim_update_ts o).

(** [zk-gw-types] *)
Record VenueOrderQuery : Set := mkVenueOrderQuery {
  voq_exch_order_ref : option string;
  voq_order_id : option Z;
  voq_instrument : option string;
}.

(** The balance changes of the fills in [results]. *)
Definition apply_result (balances : gmap string BalanceEntry) (r : SimResult)
    : gmap string BalanceEntry :=
  match extract_fill_info (sr_order_report r) with
  | Some (instrument, side, qty, price) =>
      SimAccountState.apply_fill_to_balances instrument side qty price balances
  | None => balances
  end.
Definition has_fill (r : SimResult) : bool :=
  match extract_fill_info (sr_order_report r) with Some _ => true | None => false end.
Definition apply_results (results : list SimResult) (s : SimulatorState) : SimulatorState :=
  s <| ss_account_state ::= λ a, a <| sas_balances ::= λ b, foldl apply_result b results |> |>.

Definition report_events (results : list SimResult) : list VenueEvent :=
  VOrderReport ∘ sr_order_report <$> results.

Module SimulatorVenueAdapter.
Section adapter.
Context (uuid : nat → string) `{!HashIter Z, !HashIter string}.
Implicit Types (s : SimulatorState).

Definition balance_facts s : list VenueBalanceFact :=
  (λ '(asset, e), mkVenueBalanceFact asset (ble_total_qty e) (ble_avail_qty e) (ble_frozen_qty e))
    <$> hash_iter (sas_balances (ss_account_state s)).

Definition evaluate (now : Z) (scope : ErrorScope.t) (ctx : RequestContext) s
    : option ErrorEffect * SimulatorState :=
  let '(effect, rules) := evaluate_rules now scope ctx (mcs_error_rules (ss_control_state s)) in
  (effect, s <| ss_control_state ::= λ c, c <| mcs_error_rules := rules |> |>).

Definition check_error_injection (now : Z) (scope : ErrorScope.t) (ctx : RequestContext) s
    : result (option Z) VenueCommandAck * SimulatorState :=
  let '(effect, s) := evaluate now scope ctx s in
  (match effect with
   | Some (RpcError _ msg) | Some (RejectOrder msg) => Err (mkVenueCommandAck false None (Some msg))
   | Some (DelayResponse delay_ms) => Ok (Some delay_ms)
   | None => Ok None
   end, s).

(** [place_order] up to the delay. *)
Definition place_check (now : Z) (req : VenuePlaceOrder) s
    : result (option Z) VenueCommandAck * SimulatorState :=
  check_error_injection now ErrorScope.PlaceOrder
    (default_MatchCriteria <| mc_instrument := Some (vpo_instrument req) |>
                           <| mc_side := Some (vpo_buysell_type req) |>) s.

Definition send_request (req : VenuePlaceOrder) : SendOrderRequest :=
  default_SendOrderRequest <| gwreq_correlation_id := vpo_correlation_id req |>
    <| gwreq_exch_account_id := vpo_exch_account_id req |>
    <| gwreq_instrument := vpo_instrument req |> <| gwreq_buysell_type := vpo_buysell_type req |>
    <| gwreq_openclose_type := vpo_openclose_type req |> <| gwreq_order_type := vpo_order_type req |>
    <| gwreq_scaled_price := vpo_price req |> <| gwreq_scaled_qty := vpo_qty req |>
    <| gwreq_leverage := vpo_leverage req |> <| gwreq_timestamp := vpo_timestamp req |>.

(** [place_order] after it. *)
Definition place_apply (ts : Z) (req : VenuePlaceOrder) s : list SimResult * SimulatorState :=
  let '(results, core) :=
    (if mcs_matching_paused (ss_control_state s) then SimulatorCore.on_new_order_book_only uuid
     else SimulatorCore.on_new_order uuid) (send_request req) ts (ss_sim_core s) in
  (results, apply_results results (s <| ss_sim_core := core |>)).

Definition place_order (now ts : Z) (req : VenuePlaceOrder) s
    : VenueCommandAck * list VenueEvent * SimulatorState :=
  match place_check now req s with
  | (Err ack, s) => (ack, [], s)
  | (Ok _, s) =>
      let '(results, s) := place_apply ts req s in
      (mkVenueCommandAck true (rep_exch_order_ref ∘ sr_order_report <$> head results) None,
       (if existsb has_fill results then [VBalance (balance_facts s)] else []) ++
         report_events results, s)
  end.

Definition cancel_check (now : Z) (req : VenueCancelOrder) s
    : result (option Z) VenueCommandAck * SimulatorState :=
  check_error_injection now ErrorScope.CancelOrder
    (default_MatchCriteria <| mc_order_id := Some (vco_order_id req) |>) s.

Definition cancel_apply (ts : Z) (req : VenueCancelOrder) s : list SimResult * SimulatorState :=
  let '(results, core) :=
    SimulatorCore.on_cancel
      (mkCancelOrderRequest (vco_exch_order_ref req) (vco_order_id req) None (vco_timestamp req))
      ts (ss_sim_core s) in
  (results, s <| ss_sim_core := core |>).

Definition cancel_order (now ts : Z) (req : VenueCancelOrder) s
    : VenueCommandAck * list VenueEvent * SimulatorState :=
  match cancel_check now req s with
  | (Err ack, s) => (ack, [], s)
  | (Ok _, s) =>
      let '(results, s) := cancel_apply ts req s in
      (match results with
       | [] => mkVenueCommandAck false None (Some "order not found or already filled")
       | _ :: _ => mkVenueCommandAck true None None
       end, report_events results, s)
  end.

Definition query_balance (now : Z) s : result (list VenueBalanceFact) string * SimulatorState :=
  let '(effect, s) := evaluate now ErrorScope.QueryAccountBalance default_MatchCriteria s in
  (match effect with
   | Some (RpcError _ msg) => Err msg
   | Some (RejectOrder msg) => Err ("query rejected: " +:+ msg)
   | Some (DelayResponse _) | None => Ok (balance_facts s)
   end, s).

Definition query_order (req : VenueOrderQuery) s : list VenueOrderFact :=
  sim_order_to_venue_fact <$>
    List.filter (λ o, bool_decide (voq_order_id req = Some (gwreq_correlation_id (sim_req o))) ||
                      bool_decide (voq_exch_order_ref req = Some (sim_exch_order_id o)) ||
                      bool_decide (voq_instrument req = Some (gwreq_instrument (sim_req o))))
      (hash_iter (sim_order_cache (ss_sim_core s))).*2.

(** The orders with something left. *)
Definition sim_open_orders s : list SimOrder :=
  List.filter (λ o, f64.ltb f64.zero (sim_remaining_qty o))
    (hash_iter (sim_order_cache (ss_sim_core s))).*2.
Definition query_open_orders s : list VenueOrderFact := sim_order_to_venue_fact <$> sim_open_orders s.

Definition position_facts s : list VenuePositionFact :=
  (λ '(_, e), mkVenuePositionFact (poe_instrument_code e) (poe_long_short_type e) (poe_total_qty e)
                (poe_avail_qty e) (poe_frozen_qty e) (sas_account_id (ss_account_state s)) 0)
    <$> hash_iter (sas_positions (ss_account_state s)).
Definition query_positions s : list VenuePositionFact := position_facts s.
End adapter.
End SimulatorVenueAdapter.

(** ** [gateway_simulator_admin.proto] *)

Record ForceMatchRequest : Set := mkForceMatchRequest {
  fmr_order_id : Z;
  fmr_fill_mode : Z;
  fmr_fill_qty : f64;
  fmr_fill_price : f64;
  fmr_publish_balance_update : bool;
  fmr_publish_position_update : bool;
}.
Record ForceMatchResponse : Set := mkForceMatchResponse {
  fms_accepted : bool;
  fms_matched_order_id : Z;
  fms_generated_trade_count : Z;
  fms_remaining_open_qty : f64;
  fms_message : message;
}.
Definition FillModePartial : Z := 2.

Record ErrorMatchCriteria : Set := mkErrorMatchCriteria {
  emc_account_id : Z;
  emc_side : Z;
  emc_instrument : string;
  emc_order_id : Z;
  emc_client_order_id : Z;
  emc_exch_account_id : string;
}.
Record InjectErrorRequest : Set := mkInjectErrorRequest {
  inj_error_id : string;
  inj_scope : Z;
  inj_match_criteria : option ErrorMatchCriteria;
  inj_effect : Z;
  inj_grpc_status_code : Z;
  inj_error_message : string;
  inj_delay_ms : Z;
  inj_trigger_policy : Z;
  inj_trigger_times : Z;
  inj_priority : Z;
  inj_enabled : bool;
}.
Record InjectedErrorInfo : Set := mkInjectedErrorInfo {
  iei_error_id : string;
  iei_scope : Z;
  iei_remaining_triggers : Z;
  iei_priority : Z;
  iei_enabled : bool;
  iei_created_at : Z;
  iei_last_fired_at : Z;
}.

Record BalanceMutation : Set := mkBalanceMutation {
  bm_asset : string;
  bm_total_qty : f64;
  bm_avail_qty : f64;
  bm_frozen_qty : f64;
  bm_mode : Z;
}.
Record PositionMutation : Set := mkPositionMutation {
  pm_instrument_code : string;
  pm_long_short_type : Z;
  pm_total_qty : f64;
  pm_avail_qty : f64;
  pm_frozen_qty : f64;
  pm_mode : Z;
}.
Definition MutationModeRemove : Z := 2.
Record SetAccountStateRequest : Set := mkSetAccountStateRequest {
  sar_balance_mutations : list BalanceMutation;
  sar_position_mutations : list PositionMutation;
  sar_clear_existing_balances : bool;
  sar_clear_existing_positions : bool;
  sar_publish_updates : bool;
}.

Record SimOpenOrder : Set := mkSimOpenOrder {
  soo_order_id : Z;
  soo_exch_order_ref : string;
  soo_account_id : Z;
  soo_instrument : string;
  soo_side : Z;
  soo_remaining_qty : f64;
  soo_filled_qty : f64;
  soo_limit_price : f64;
  soo_created_ts : Z;
  soo_updated_ts : Z;
}.

(** [as i32] of the proto scopes. *)
Definition ErrorScope_i32 (scope : ErrorScope.t) : Z :=
  match scope with
  | ErrorScope.PlaceOrder => 1
  | ErrorScope.CancelOrder => 2
  | ErrorScope.QueryAccountBalance => 3
  | ErrorScope.QueryOrderDetail => 4
  end.

(** ** [admin.rs] *)

(** The fields of the [Status] answers used here. *)
Inductive AdminStatus : Set := InvalidArgument (msg : string).

Module SimAdminHandler.
Section admin.
Context (uuid : nat → string) `{!HashIter Z, !HashIter string}.
Implicit Types (s : SimulatorState).

(** The matching of [force_match], with the balances, under one lock. *)
Definition force_match_section (ts : Z) (req : ForceMatchRequest) s
    : result (list SimResult) message * SimulatorState :=
  let fill_qty := if fmr_fill_mode req =? FillModePartial then Some (fmr_fill_qty req) else None in
  let fill_price :=
    if f64.ltb f64.zero (fmr_fill_price req) then Some (fmr_fill_price req) else None in
  match SimulatorCore.force_match_order uuid (fmr_order_id req) fill_qty fill_price ts
          (ss_sim_core s) with
  | (Ok results, core) => (Ok results, apply_results results (s <| ss_sim_core := core |>))
  | (Err msg, core) => (Err msg, s <| ss_sim_core := core |>)
  end.

Definition force_match (ts : Z) (req : ForceMatchRequest) s
    : ForceMatchResponse * list VenueEvent * SimulatorState :=
  match force_match_section ts req s with
  | (Err msg, s) => (mkForceMatchResponse false 0 0 f64.zero msg, [], s)
  | (Ok results, s) =>
      let balance :=
        if fmr_publish_balance_update req
        then [VBalance (SimulatorVenueAdapter.balance_facts s)] else [] in
      let remaining :=
        match sim_order_cache (ss_sim_core s) !! fmr_order_id req with
        | Some o => sim_remaining_qty o
        | None => f64.zero
        end in
      (mkForceMatchResponse true (fmr_order_id req) (wrap_i32 (Z.of_nat (length results))) remaining
         [Lit "force match applied"], report_events results ++ balance, s)
  end.

Definition nonzero (z : Z) : option Z := if z =? 0 then None else Some z.
Definition nonempty (x : string) : option string := if String.eqb x "" then None else Some x.

Definition criteria_of (c : ErrorMatchCriteria) : MatchCriteria :=
  mkMatchCriteria (nonzero (emc_account_id c)) (nonzero (emc_side c)) (nonempty (emc_instrument c))
    (nonzero (emc_order_id c)) (nonzero (emc_client_order_id c)) (nonempty (emc_exch_account_id c)).

Definition scope_of (x : Z) : option ErrorScope.t :=
  if x =? 1 then Some ErrorScope.PlaceOrder
  else if x =? 2 then Some ErrorScope.CancelOrder
  else if x =? 3 then Some ErrorScope.QueryAccountBalance
  else if x =? 4 then Some ErrorScope.QueryOrderDetail
  else None.

Definition effect_of (req : InjectErrorRequest) : option ErrorEffect :=
  if inj_effect req =? 1 then Some (RpcError (inj_grpc_status_code req) (inj_error_message req))
  else if inj_effect req =? 2 then Some (RejectOrder (inj_error_message req))
  else if inj_effect req =? 3 then Some (DelayResponse (wrap_u64 (inj_delay_ms req)))
  else None.

Definition trigger_of (req : InjectErrorRequest) : RuleTrigger :=
  if inj_trigger_policy req =? 2 then TriggerTimes (wrap_u32 (inj_trigger_times req))
  else if inj_trigger_policy req =? 3 then TriggerUntilCleared
  else TriggerOnce.

Definition triggers_of (t : RuleTrigger) : option Z :=
  match t with TriggerOnce => Some 1 | TriggerTimes n => Some n | TriggerUntilCleared => None end.

Definition push_rule (rule : InjectedErrorRule) s : SimulatorState :=
  s <| ss_control_state ::= λ c, c <| mcs_error_rules ::= λ l, l ++ [rule] |> |>.

(** [inject_error]: the id of the new rule. *)
Definition inject_error (now : Z) (fresh_id : string) (req : InjectErrorRequest) s
    : result string AdminStatus * SimulatorState :=
  let error_id := if String.eqb (inj_error_id req) "" then fresh_id else inj_error_id req in
  match scope_of (inj_scope req) with
  | None => (Err (InvalidArgument "invalid error scope"), s)
  | Some scope =>
      let criteria := default default_MatchCriteria (criteria_of <$> inj_match_criteria req) in
      match effect_of req with
      | None => (Err (InvalidArgument "invalid error effect"), s)
      | Some effect =>
          (Ok error_id,
           push_rule (mkInjectedErrorRule error_id scope criteria effect (trigger_of req)
                        (triggers_of (trigger_of req)) (inj_priority req) (inj_enabled req) now None) s)
      end
  end.

Definition rule_info (scope : Z) (r : InjectedErrorRule) : InjectedErrorInfo :=
  mkInjectedErrorInfo (ier_error_id r) scope (wrap_i32 (default 0 (ier_remaining_triggers r)))
    (ier_priority r) (ier_enabled r) (ier_created_at r) (default 0 (ier_last_fired_at r)).
Definition list_injected_errors s : list InjectedErrorInfo :=
  (λ r, rule_info (ErrorScope_i32 (ier_scope r)) r) <$> mcs_error_rules (ss_control_state s).

(** [clear_injected_error]: how many rules were removed. *)
Definition clear_injected_error (error_id : string) s : Z * SimulatorState :=
  let before := mcs_error_rules (ss_control_state s) in
  let after := if String.eqb error_id "" then []
               else List.filter (λ r, negb (String.eqb (ier_error_id r) error_id)) before in
  (wrap_i32 (Z.of_nat (length before - length after)),
   s <| ss_control_state ::= λ c, c <| mcs_error_rules := after |> |>).

(** The simulator's part of [reset_simulator]: the orders and rules removed. *)
Definition reset_section s : Z * Z * SimulatorState :=
  let orders := wrap_i32 (Z.of_nat (size (sim_order_cache (ss_sim_core s)))) in
  let rules := wrap_i32 (Z.of_nat (length (mcs_error_rules (ss_control_state s)))) in
  let control := ManualControlState.reset (ss_control_state s) in
  (orders, rules,
   mkSimulatorState
     ((SimulatorCore.clear_orders (ss_sim_core s))
        <| sim_match_policy := make_match_policy (mcs_current_match_policy control) |>)
     (SimAccountState.reset (ss_account_state s)) control).

Definition reset_simulator s (pipeline : SemanticPipeline)
    : Z * Z * SimulatorState * SemanticPipeline :=
  (reset_section s, SemanticPipeline.reset pipeline).

Definition mutate_balance (b : gmap string BalanceEntry) (m : BalanceMutation)
    : gmap string BalanceEntry :=
  if bm_mode m =? MutationModeRemove then delete (bm_asset m) b
  else <[bm_asset m := mkBalanceEntry (bm_total_qty m) (bm_avail_qty m) (bm_frozen_qty m)]> b.
Definition mutate_position (p : gmap string PositionEntry) (m : PositionMutation)
    : gmap string PositionEntry :=
  if pm_mode m =? MutationModeRemove then delete (pm_instrument_code m) p
  else <[pm_instrument_code m :=
           mkPositionEntry (pm_instrument_code m) (pm_long_short_type m) (pm_total_qty m)
             (pm_avail_qty m) (pm_frozen_qty m)]> p.

Definition set_balances (req : SetAccountStateRequest) (b : gmap string BalanceEntry)
    : gmap string BalanceEntry :=
  foldl mutate_balance (if sar_clear_existing_balances req then ∅ else b) (sar_balance_mutations req).
Definition set_positions (req : SetAccountStateRequest) (p : gmap string PositionEntry)
    : gmap string PositionEntry :=
  foldl mutate_position (if sar_clear_existing_positions req then ∅ else p)
    (sar_position_mutations req).

(** [set_account_state]: the numbers of mutations applied, the events and the state. *)
Definition set_account_state (req : SetAccountStateRequest) s
    : Z * Z * list VenueEvent * SimulatorState :=
  let s := s <| ss_account_state ::= λ a,
                  a <| sas_balances ::= set_balances req |> <| sas_positions ::= set_positions req |> |> in
  let positions := SimulatorVenueAdapter.position_facts s in
  (wrap_i32 (Z.of_nat (length (sar_balance_mutations req))),
   wrap_i32 (Z.of_nat (length (sar_position_mutations req))),
   if sar_publish_updates req then
     VBalance (SimulatorVenueAdapter.balance_facts s) ::
       match positions with [] => [] | _ :: _ => [VPosition positions] end
   else [], s).

(** The matching of [submit_synthetic_tick]; its balances follow under a lock of
    their own, by [apply_results]. *)
Definition tick_section (tick : TickData) s : outcome (list SimResult * SimulatorState) :=
  if mcs_matching_paused (ss_control_state s) then
    Returns ([], s <| ss_sim_core ::= SimulatorCore.update_orderbook tick |>)
  else
    '(results, core) ← SimulatorCore.on_tick uuid tick (ss_sim_core s);
    Returns (results, s <| ss_sim_core := core |>).

(** [submit_synthetic_tick] with nothing in between: the number of reports. *)
Definition submit_synthetic_tick (tick : option TickData) s
    : outcome (result Z AdminStatus * list VenueEvent * SimulatorState) :=
  match tick with
  | None => Returns (Err (InvalidArgument "tick is required"), [], s)
  | Some tick =>
      '(results, s) ← tick_section tick s;
      let s := apply_results results s in
      Returns (Ok (wrap_i32 (Z.of_nat (length results))),
               report_events results ++
                 match results with
                 | [] => []
                 | _ :: _ => [VBalance (SimulatorVenueAdapter.balance_facts s)]
                 end, s)
  end.

Definition open_order_info (account_id : Z) (o : SimOrder) : SimOpenOrder :=
  mkSimOpenOrder (gwreq_correlation_id (sim_req o)) (sim_exch_order_id o) account_id
    (gwreq_instrument (sim_req o)) (gwreq_buysell_type (sim_req o)) (sim_remaining_qty o)
    (sim_filled_qty o) (gwreq_scaled_price (sim_req o)) (gwreq_timestamp (sim_req o))
    (sim_update_ts o).
Definition list_open_orders s : list SimOpenOrder :=
  open_order_info (sas_account_id (ss_account_state s)) <$> SimulatorVenueAdapter.sim_open_orders s.

Definition set_paused (paused : bool) s : SimulatorState :=
  s <| ss_control_state ::= λ c, c <| mcs_matching_paused := paused |> |>.
Definition pause_matching : SimulatorState → SimulatorState := set_paused true.
Definition resume_matching : SimulatorState → SimulatorState := set_paused false.

(** [set_match_policy]: whether it is accepted, the previous and the current policy. *)
Definition set_match_policy (name : string) s : bool * string * string * SimulatorState :=
  let previous := mcs_current_match_policy (ss_control_state s) in
  let policy :=
    if String.eqb name "immediate" then Some ImmediateMatchPolicy
    else if String.eqb name "fcfs" then Some FirstComeFirstServedMatchPolicy
    else None in
  match policy with
  | None => (false, previous, previous, s)
  | Some policy =>
      (true, previous, name,
       s <| ss_sim_core ::= λ c, c <| sim_match_policy := policy |> |>
         <| ss_control_state ::= λ c, c <| mcs_current_match_policy := name |> |>)
  end.

(** [get_simulator_state]: the fields it fills in. *)
Definition get_simulator_state s
    : list SimOpenOrder * list VenueBalanceFact * list PositionEntry * list InjectedErrorInfo *
      string * bool :=
  (list_open_orders s, SimulatorVenueAdapter.balance_facts s,
   (hash_iter (sas_positions (ss_account_state s))).*2,
   rule_info 0 <$> mcs_error_rules (ss_control_state s),
   mcs_current_match_policy (ss_control_state s), mcs_matching_paused (ss_control_state s)).
End admin.
End SimAdminHandler.
