(* ===== verification/SimVenueFacts.v ===== *)
(** * Properties of the simulated venue

    Which injected rule answers a request, and how often; what the balances of
    the account are after any interleaving of the venue's operations; and what a
    reset restores. *)

From S2P Require Import Prelude F64 Proto Models Utils Text Rtmd Simulator SimFacts Gateway GwExec SimVenue.

(** ** Injected errors *)

(** A rule that applies to a request. *)
Definition rule_applies (scope : ErrorScope.t) (ctx : RequestContext) (r : InjectedErrorRule) : bool :=
  bool_decide (ier_scope r = scope) && rule_matches ctx r.

(** [i] is the first index, among those of the rules that apply, of least priority. *)
Definition first_by_priority (scope : ErrorScope.t) (ctx : RequestContext)
    (rules : list InjectedErrorRule) (i : nat) (r : InjectedErrorRule) : Prop :=
  rules !! i = Some r ∧ rule_applies scope ctx r = true ∧
  ∀ j r', rules !! j = Some r' → rule_applies scope ctx r' = true →
    ier_priority r < ier_priority r' ∨ (ier_priority r = ier_priority r' ∧ (i ≤ j)%nat).

Lemma better_rule_applies scope ctx best i r :
  better_rule scope ctx best (i, r) =
    if rule_applies scope ctx r then
      match best with
      | None => Some (i, r)
      | Some (_, b) => if ier_priority r <? ier_priority b then Some (i, r) else best
      end
    else best.
Proof.
  unfold better_rule, rule_applies. rewrite <- negb_andb. by destruct (_ && _).
Qed.

Lemma best_rule_snoc scope ctx rules r :
  best_rule scope ctx (rules ++ [r]) = better_rule scope ctx (best_rule scope ctx rules) (length rules, r).
Proof.
  unfold best_rule. rewrite imap_app, foldl_app. simpl. by rewrite Nat.add_0_r.
Qed.

Lemma best_rule_spec scope ctx rules :
  match best_rule scope ctx rules with
  | Some (i, r) => first_by_priority scope ctx rules i r
  | None => Forall (λ r, rule_applies scope ctx r = false) rules
  end.
Proof.
  induction rules as [|r rules IH] using rev_ind; [constructor|].
  rewrite best_rule_snoc, better_rule_applies.
  destruct (rule_applies scope ctx r) eqn:Hr;
    destruct (best_rule scope ctx rules) as [[i b]|] eqn:Hbest.
  - destruct IH as (Hi & Hb & Hmin). destruct (Z.ltb_spec (ier_priority r) (ier_priority b)).
    + split; [by rewrite lookup_app_r, Nat.sub_diag|]. split; [done|].
      intros j r' [Hj|[? Hj]]%lookup_app_Some Hr'.
      * destruct (Hmin j r' Hj Hr') as [?|[? ?]]; left; lia.
      * apply list_lookup_singleton_Some in Hj as [? ->]. right. split; [done|lia].
    + split; [by apply lookup_app_l_Some|]. split; [done|].
      intros j r' [Hj|[? Hj]]%lookup_app_Some Hr'; [by apply Hmin|].
      apply list_lookup_singleton_Some in Hj as [? ->]. apply lookup_lt_Some in Hi. lia.
  - split; [by rewrite lookup_app_r, Nat.sub_diag|]. split; [done|].
    intros j r' [Hj|[? Hj]]%lookup_app_Some Hr'.
    + by rewrite (Forall_lookup_1 _ _ _ _ IH Hj) in Hr'.
    + apply list_lookup_singleton_Some in Hj as [? ->]. right. split; [done|lia].
  - destruct IH as (Hi & Hb & Hmin). split; [by apply lookup_app_l_Some|]. split; [done|].
    intros j r' [Hj|[? Hj]]%lookup_app_Some Hr'; [by apply Hmin|].
    apply list_lookup_singleton_Some in Hj as [? ->]. congruence.
  - apply Forall_app. auto.
Qed.

(** A request checked against the rules: when, and its scope and context. *)
Record RuleRequest : Set := mkRuleRequest {
  rr_now : Z;
  rr_scope : ErrorScope.t;
  rr_ctx : RequestContext;
}.

(** The effects that answer a sequence of requests. *)
Fixpoint evaluate_run (reqs : list RuleRequest) (rules : list InjectedErrorRule)
    : list (option ErrorEffect) :=
  match reqs with
  | [] => []
  | q :: reqs =>
      let '(effect, rules) := evaluate_rules (rr_now q) (rr_scope q) (rr_ctx q) rules in
      effect :: evaluate_run reqs rules
  end.

(** Every criterion that is given agrees with the context. *)
Definition covers (c ctx : MatchCriteria) : Prop :=
  (∀ x, mc_account_id c = Some x → mc_account_id ctx = Some x) ∧
  (∀ x, mc_side c = Some x → mc_side ctx = Some x) ∧
  (∀ x, mc_instrument c = Some x → mc_instrument ctx = Some x) ∧
  (∀ x, mc_order_id c = Some x → mc_order_id ctx = Some x) ∧
  (∀ x, mc_client_order_id c = Some x → mc_client_order_id ctx = Some x) ∧
  (∀ x, mc_exch_account_id c = Some x → mc_exch_account_id ctx = Some x).

(** How often the rule at [i] fired, the rules fired so far being [fired]. *)
Definition times_fired (i : nat) (fired : list nat) : Z :=
  Z.of_nat (length (filter (.= i) fired)).

(** The rule at [i], as it was injected, applies to [q] after the rules [fired]. *)
Definition applicable (fired : list nat) (q : RuleRequest) (i : nat) (r : InjectedErrorRule) : Prop :=
  ier_enabled r = true ∧ ier_scope r = rr_scope q ∧ covers (ier_criteria r) (rr_ctx q) ∧
  ∀ n, ier_remaining_triggers r = Some n → times_fired i fired < n.

(** What the rules promise: the first applicable rule of least priority answers,
    and counts as fired; without one there is no effect. *)
Inductive answers (rules : list InjectedErrorRule)
    : list nat → list RuleRequest → list (option ErrorEffect) → Prop :=
| answers_nil fired : answers rules fired [] []
| answers_none fired q reqs effects :
    (∀ i r, rules !! i = Some r → ¬ applicable fired q i r) →
    answers rules fired reqs effects →
    answers rules fired (q :: reqs) (None :: effects)
| answers_some fired q reqs effects i r :
    rules !! i = Some r → applicable fired q i r →
    (∀ j r', rules !! j = Some r' → applicable fired q j r' →
       ier_priority r < ier_priority r' ∨ (ier_priority r = ier_priority r' ∧ (i ≤ j)%nat)) →
    answers rules (i :: fired) reqs effects →
    answers rules fired (q :: reqs) (Some (ier_effect r) :: effects).

(** The rules in the state, against the rules as injected. *)
Definition fired_rule (fired : list nat) (i : nat) (r r' : InjectedErrorRule) : Prop :=
  ∃ last, r' = r <| ier_remaining_triggers ::= fmap (λ n, n - times_fired i fired) |>
                 <| ier_last_fired_at := last |>.
Definition fired_rules (fired : list nat) (rules rules' : list InjectedErrorRule) : Prop :=
  length rules' = length rules ∧
  (∀ i r r', rules !! i = Some r → rules' !! i = Some r' → fired_rule fired i r r') ∧
  (∀ i r n, rules !! i = Some r → ier_remaining_triggers r = Some n → times_fired i fired ≤ n).

Lemma criterion_covers {A} `{EqDecision A} (c x : option A) :
  criterion c x = true ↔ ∀ a, c = Some a → x = Some a.
Proof.
  destruct c as [a|]; simpl; [|naive_solver]. rewrite bool_decide_eq_true. naive_solver.
Qed.

Lemma rule_applies_fired fired q i r r' :
  fired_rule fired i r r' →
  (∀ n, ier_remaining_triggers r = Some n → times_fired i fired ≤ n) →
  rule_applies (rr_scope q) (rr_ctx q) r' = true ↔ applicable fired q i r.
Proof.
  intros [last ->] Hle. unfold rule_applies, rule_matches, applicable, covers. simpl.
  rewrite !andb_true_iff, !criterion_covers, bool_decide_eq_true, negb_true_iff, bool_decide_eq_false.
  assert (fmap (λ n, n - times_fired i fired) (ier_remaining_triggers r) ≠ Some 0 ↔
          ∀ n, ier_remaining_triggers r = Some n → times_fired i fired < n) as ->; [|tauto].
  destruct (ier_remaining_triggers r) as [n|]; simpl; [|naive_solver].
  specialize (Hle n eq_refl). split; [|intros Hlt [=]; specialize (Hlt n eq_refl); lia].
  intros Hne ? [= <-]. assert (n ≠ times_fired i fired); [|lia]. intros ->. apply Hne. f_equal. lia.
Qed.

Lemma times_fired_cons i j fired :
  times_fired i (j :: fired) = (if decide (j = i) then 1 else 0) + times_fired i fired.
Proof.
  unfold times_fired. rewrite filter_cons. destruct (decide (j = i)); simpl; lia.
Qed.

Lemma fire_rule_fired now k last r :
  (∀ n, ier_remaining_triggers r = Some n → k < n) →
  fire_rule now (r <| ier_remaining_triggers ::= fmap (λ n, n - k) |> <| ier_last_fired_at := last |>) =
    r <| ier_remaining_triggers ::= fmap (λ n, n - (1 + k)) |> <| ier_last_fired_at := Some now |>.
Proof.
  destruct r as [id scope c e t rem prio en at_ fired_at]. intros Hlt. simpl in Hlt.
  destruct rem as [n|]; [|reflexivity]. specialize (Hlt n eq_refl).
  change (mkInjectedErrorRule id scope c e t (Some (Z.max 0 (n - k - 1))) prio en at_ (Some now) =
          mkInjectedErrorRule id scope c e t (Some (n - (1 + k))) prio en at_ (Some now)).
  do 2 f_equal. lia.
Qed.

Lemma fire_fired_rules now fired rules rules' i r q :
  fired_rules fired rules rules' → rules !! i = Some r → applicable fired q i r →
  fired_rules (i :: fired) rules (alter (fire_rule now) i rules').
Proof.
  intros (Hlen & Hrules & Hle) Hi (_ & _ & _ & Hlt). split; [by rewrite length_alter|]. split.
  - intros j rj rj' Hj Hj'. unfold fired_rule. rewrite times_fired_cons.
    destruct (decide (i = j)) as [<-|Hne].
    + rewrite list_lookup_alter_eq in Hj'. destruct (rules' !! i) as [r'|] eqn:Hr'; [|done].
      injection Hj' as <-. destruct (Hrules i rj r' Hj Hr') as [last ->]. exists (Some now).
      assert (rj = r) as -> by congruence. by apply fire_rule_fired.
    + rewrite list_lookup_alter_ne in Hj' by done. rewrite Z.add_0_l. by eapply Hrules.
  - intros j rj n Hj Hn. rewrite times_fired_cons. specialize (Hle j rj n Hj Hn).
    destruct (decide (i = j)) as [<-|]; [|lia].
    assert (rj = r) as -> by congruence. specialize (Hlt n Hn). lia.
Qed.

Lemma evaluate_run_answers reqs fired rules rules' :
  fired_rules fired rules rules' → answers rules fired reqs (evaluate_run reqs rules').
Proof.
  revert fired rules'. induction reqs as [|q reqs IH]; intros fired rules' Hf; [constructor|].
  destruct Hf as (Hlen & Hrules & Hle) eqn:Hf'. cbn [evaluate_run].
  assert (∀ i r r', rules !! i = Some r → rules' !! i = Some r' →
            rule_applies (rr_scope q) (rr_ctx q) r' = true ↔ applicable fired q i r) as Happ.
  { intros i r r' Hi Hi'. apply rule_applies_fired; [by eapply Hrules|]. intros n. by apply Hle. }
  assert (∀ i r, rules !! i = Some r → ∃ r', rules' !! i = Some r') as Hin.
  { intros i r Hi. apply lookup_lt_is_Some. rewrite Hlen. by eapply lookup_lt_Some. }
  pose proof (best_rule_spec (rr_scope q) (rr_ctx q) rules') as Hbest. unfold evaluate_rules.
  destruct (best_rule _ _ rules') as [[i r']|].
  - destruct Hbest as (Hi' & Ha & Hmin).
    destruct (lookup_lt_is_Some_2 rules i) as [r Hi].
    { rewrite <- Hlen. by eapply lookup_lt_Some. }
    assert (applicable fired q i r) as Ha' by (by eapply Happ).
    destruct (Hrules i r r' Hi Hi') as [last ->]. simpl.
    apply (answers_some rules fired q reqs _ i r); [done..| |].
    + intros j rj Hj Hja. destruct (Hin j rj Hj) as [rj' Hj'].
      destruct (Hrules j rj rj' Hj Hj') as [? ->].
      by apply (Hmin j _ Hj'), (Happ j rj _ Hj Hj').
    + apply IH. by eapply fire_fired_rules.
  - constructor; [|by apply IH]. intros i r Hi. destruct (Hin i r Hi) as [r' Hi'].
    rewrite <- (Happ i r r' Hi Hi'). by rewrite (Forall_lookup_1 _ _ _ _ Hbest Hi').
Qed.

(** The rules answer any sequence of requests as injected: each request is
    answered by the effect of the first rule, by priority and then by age, that
    is enabled, is for the request's scope, whose given criteria agree with the
    request, and which has fired less often than its trigger count; only that
    rule counts as fired, and without such a rule the request has no effect.
    (Trigger counts are unsigned.) *)
Theorem injected_errors_answer reqs rules :
  Forall (λ r, from_option (Z.le 0) True (ier_remaining_triggers r)) rules →
  answers rules [] reqs (evaluate_run reqs rules).
Proof.
  intros Hu. apply evaluate_run_answers. split; [done|]. split.
  - intros i r r' Hi Hi'. assert (r' = r) as -> by congruence. exists (ier_last_fired_at r).
    destruct r as [id scope c e t rem prio en at_ fired_at]. destruct rem as [n|]; [|done].
    change (mkInjectedErrorRule id scope c e t (Some n) prio en at_ fired_at =
            mkInjectedErrorRule id scope c e t (Some (n - 0)) prio en at_ fired_at).
    by rewrite Z.sub_0_r.
  - intros i r n Hi Hn. pose proof (Forall_lookup_1 _ _ _ _ Hu Hi) as Hr. simpl in Hr.
    by rewrite Hn in Hr.
Qed.

(** Two rules: the younger one is of better priority, for one instrument, and
    fires once. *)
Definition demo_rules : list InjectedErrorRule :=
  [mkInjectedErrorRule "all" ErrorScope.PlaceOrder default_MatchCriteria (RejectOrder "no")
     TriggerUntilCleared None 5 true 0 None;
   mkInjectedErrorRule "btc" ErrorScope.PlaceOrder
     (default_MatchCriteria <| mc_instrument := Some "BTC-USD" |>) (DelayResponse 10)
     TriggerOnce (Some 1) 1 true 0 None].
Definition demo_request (instrument : string) : RuleRequest :=
  mkRuleRequest 1 ErrorScope.PlaceOrder (default_MatchCriteria <| mc_instrument := Some instrument |>).

Lemma injected_errors_answer_witness :
  evaluate_run (demo_request <$> ["ETH-USD"; "BTC-USD"; "BTC-USD"]) demo_rules =
    [Some (RejectOrder "no"); Some (DelayResponse 10); Some (RejectOrder "no")] ∧
  answers demo_rules [] (demo_request <$> ["ETH-USD"; "BTC-USD"; "BTC-USD"])
    (evaluate_run (demo_request <$> ["ETH-USD"; "BTC-USD"; "BTC-USD"]) demo_rules).
Proof.
  split; [reflexivity|]. apply injected_errors_answer.
  repeat constructor; simpl; lia.
Defined.

(** ** Interleavings of the venue's operations *)

(** The stretches under the lock of the operations that use it.  A synthetic tick
    is two of them: the matching, and later the balances of its results. *)
Inductive VenueOp : Type :=
| OpPlaceCheck (now : Z) (req : VenuePlaceOrder)
| OpPlaceApply (ts : Z) (req : VenuePlaceOrder)
| OpCancelCheck (now : Z) (req : VenueCancelOrder)
| OpCancelApply (ts : Z) (req : VenueCancelOrder)
| OpQueryBalance (now : Z)
| OpForceMatch (ts : Z) (req : ForceMatchRequest)
| OpTick (tick : TickData)
| OpSettleTick (i : nat)
| OpInjectError (now : Z) (fresh_id : string) (req : InjectErrorRequest)
| OpClearError (error_id : string)
| OpReset
| OpSetAccount (req : SetAccountStateRequest)
| OpPause
| OpResume
| OpSetPolicy (name : string).

(** What an operation does to the balances. *)
Inductive BalanceChange : Type :=
| ByResult (r : SimResult)
| ByReset
| BySet (req : SetAccountStateRequest).

Definition change_balances (initial b : gmap string BalanceEntry) (c : BalanceChange)
    : gmap string BalanceEntry :=
  match c with
  | ByResult r => apply_result b r
  | ByReset => initial
  | BySet req => SimAdminHandler.set_balances req b
  end.
Definition change_result (c : BalanceChange) : option SimResult :=
  match c with ByResult r => Some r | ByReset | BySet _ => None end.

(** A venue under way: its state, the results of ticks whose balances are still
    to come, the results returned so far and the changes of the balances. *)
Record VenueRun : Type := mkVenueRun {
  vr_state : SimulatorState;
  vr_unsettled : list (list SimResult);
  vr_results : list SimResult;
  vr_changes : list BalanceChange;
}.
#[export] Instance eta_VenueRun : Eta VenueRun := λ r,
  mkVenueRun (vr_state r) (vr_unsettled r) (vr_results r) (vr_changes r).

Section runs.
Context (uuid : nat → string) `{!HashIter Z, !HashIter string}.

(** [results] returned, their fills in the balances at once. *)
Definition settled (results : list SimResult) (s : SimulatorState) (v : VenueRun) : VenueRun :=
  mkVenueRun s (vr_unsettled v) (vr_results v ++ results)
    (vr_changes v ++ (ByResult <$> results)).

Definition venue_step (v : VenueRun) (op : VenueOp) : outcome VenueRun :=
  let s := vr_state v in
  match op with
  | OpPlaceCheck now req =>
      Returns (v <| vr_state := (SimulatorVenueAdapter.place_check now req s).2 |>)
  | OpPlaceApply ts req =>
      let '(results, s) := SimulatorVenueAdapter.place_apply uuid ts req s in
      Returns (settled results s v)
  | OpCancelCheck now req =>
      Returns (v <| vr_state := (SimulatorVenueAdapter.cancel_check now req s).2 |>)
  | OpCancelApply ts req =>
      let '(results, s) := SimulatorVenueAdapter.cancel_apply ts req s in
      Returns (v <| vr_state := s |> <| vr_results ::= λ l, l ++ results |>)
  | OpQueryBalance now =>
      Returns (v <| vr_state := (SimulatorVenueAdapter.query_balance now s).2 |>)
  | OpForceMatch ts req =>
      match SimAdminHandler.force_match_section uuid ts req s with
      | (Ok results, s) => Returns (settled results s v)
      | (Err _, s) => Returns (v <| vr_state := s |>)
      end
  | OpTick tick =>
      '(results, s) ← SimAdminHandler.tick_section uuid tick s;
      Returns (v <| vr_state := s |> <| vr_unsettled ::= λ l, l ++ [results] |>
                 <| vr_results ::= λ l, l ++ results |>)
  | OpSettleTick i =>
      match vr_unsettled v !! i with
      | Some results =>
          Returns (v <| vr_state := apply_results results s |> <| vr_unsettled ::= delete i |>
                     <| vr_changes ::= λ l, l ++ (ByResult <$> results) |>)
      | None => Returns v
      end
  | OpInjectError now fresh_id req =>
      Returns (v <| vr_state := (SimAdminHandler.inject_error now fresh_id req s).2 |>)
  | OpClearError error_id =>
      Returns (v <| vr_state := (SimAdminHandler.clear_injected_error error_id s).2 |>)
  | OpReset =>
      Returns (v <| vr_state := (SimAdminHandler.reset_section s).2 |>
                 <| vr_changes ::= λ l, l ++ [ByReset] |>)
  | OpSetAccount req =>
      Returns (v <| vr_state := (SimAdminHandler.set_account_state req s).2 |>
                 <| vr_changes ::= λ l, l ++ [BySet req] |>)
  | OpPause => Returns (v <| vr_state := SimAdminHandler.pause_matching s |>)
  | OpResume => Returns (v <| vr_state := SimAdminHandler.resume_matching s |>)
  | OpSetPolicy name => Returns (v <| vr_state := (SimAdminHandler.set_match_policy name s).2 |>)
  end.

Definition venue_run (ops : list VenueOp) (s : SimulatorState) : outcome VenueRun :=
  for_each venue_step ops (mkVenueRun s [] [] []).
End runs.

Section run_facts.
Context (uuid : nat → string) `{!HashIter Z, !HashIterOk Z, !HashIter string}.

(** What no operation changes. *)
Definition constants (s : SimulatorState)
    : Z * gmap string BalanceEntry * gmap string PositionEntry * string * string :=
  (sas_account_id (ss_account_state s), sas_initial_balances (ss_account_state s),
   sas_initial_positions (ss_account_state s), mcs_initial_match_policy (ss_control_state s),
   sim_exch_name (ss_sim_core s)).

(** The fills among the results. *)
Definition fills (results : list SimResult) : list SimResult :=
  filter (λ r, has_fill r = true) results.

Record venue_inv (s0 : SimulatorState) (v : VenueRun) : Prop := {
  vi_keyed : sim_keyed (ss_sim_core (vr_state v));
  vi_constants : constants (vr_state v) = constants s0;
  vi_balances : sas_balances (ss_account_state (vr_state v)) =
    foldl (change_balances (sas_initial_balances (ss_account_state s0)))
      (sas_balances (ss_account_state s0)) (vr_changes v);
  vi_fills : fills (omap change_result (vr_changes v) ++ concat (vr_unsettled v)) ≡ₚ
    fills (vr_results v);
}.

Lemma foldl_by_result initial b results :
  foldl (change_balances initial) b (ByResult <$> results) = foldl apply_result b results.
Proof. revert b. induction results as [|r results IH]; intros b; [done|]. apply IH. Qed.

Lemma results_by_result (results : list SimResult) : omap change_result (ByResult <$> results) = results.
Proof. induction results as [|r results IH]; [done|]. cbn. by f_equal. Qed.

Lemma fills_app (l k : list SimResult) : fills (l ++ k) = fills l ++ fills k.
Proof. apply filter_app. Qed.

#[local] Instance fills_perm : Proper ((≡ₚ) ==> (≡ₚ)) fills.
Proof. intros l k Hlk. unfold fills. by rewrite Hlk. Qed.

Lemma concat_delete {A} (l : list (list A)) i x :
  l !! i = Some x → concat l ≡ₚ x ++ concat (delete i l).
Proof.
  intros Hi. rewrite <- (take_drop_middle l i x Hi) at 1. rewrite delete_take_drop, !concat_app. simpl.
  solve_Permutation.
Qed.

(** Operations that leave orders and balances alone. *)
Lemma inv_quiet s0 v s :
  venue_inv s0 v → sim_keyed (ss_sim_core s) → constants s = constants (vr_state v) →
  sas_balances (ss_account_state s) = sas_balances (ss_account_state (vr_state v)) →
  venue_inv s0 (v <| vr_state := s |>).
Proof. intros [Hk Hc Hb Hf] Hk' Hc' Hb'. split; simpl; [done|by rewrite Hc'|by rewrite Hb'|done]. Qed.

(** New results whose fills are in the balances. *)
Lemma inv_settled s0 v results core :
  venue_inv s0 v → sim_keyed core → sim_exch_name core = sim_exch_name (ss_sim_core (vr_state v)) →
  venue_inv s0 (settled results (apply_results results ((vr_state v) <| ss_sim_core := core |>)) v).
Proof.
  intros [Hk Hc Hb Hf] Hk' Hn. split; simpl; [done| | |].
  - rewrite <- Hc. unfold constants. simpl. by rewrite Hn.
  - by rewrite foldl_app, foldl_by_result, Hb.
  - rewrite omap_app, results_by_result, (fills_app (vr_results v)), <- Hf, !fills_app.
    solve_Permutation.
Qed.

(** New results without fills. *)
Lemma inv_no_fills s0 v results core :
  venue_inv s0 v → sim_keyed core → sim_exch_name core = sim_exch_name (ss_sim_core (vr_state v)) →
  fills results = [] →
  venue_inv s0 (v <| vr_state := (vr_state v) <| ss_sim_core := core |> |>
                  <| vr_results ::= λ l, l ++ results |>).
Proof.
  intros [Hk Hc Hb Hf] Hk' Hn Hno. split; simpl; [done| |done|].
  - rewrite <- Hc. unfold constants. simpl. by rewrite Hn.
  - by rewrite (fills_app (vr_results v)), Hno, app_nil_r.
Qed.

(** New results whose fills are not in the balances yet. *)
Lemma inv_unsettled s0 v results core :
  venue_inv s0 v → sim_keyed core → sim_exch_name core = sim_exch_name (ss_sim_core (vr_state v)) →
  venue_inv s0 (v <| vr_state := (vr_state v) <| ss_sim_core := core |> |>
                  <| vr_unsettled ::= λ l, l ++ [results] |> <| vr_results ::= λ l, l ++ results |>).
Proof.
  intros [Hk Hc Hb Hf] Hk' Hn. split; simpl; [done| |done|].
  - rewrite <- Hc. unfold constants. simpl. by rewrite Hn.
  - rewrite concat_app, (fills_app (vr_results v)), <- Hf, app_assoc, fills_app. simpl.
    by rewrite app_nil_r.
Qed.

(** The balances of results that waited. *)
Lemma inv_settle s0 v i results :
  venue_inv s0 v → vr_unsettled v !! i = Some results →
  venue_inv s0 (v <| vr_state := apply_results results (vr_state v) |> <| vr_unsettled ::= delete i |>
                  <| vr_changes ::= λ l, l ++ (ByResult <$> results) |>).
Proof.
  intros [Hk Hc Hb Hf] Hi. split; simpl; [done|done| |].
  - by rewrite foldl_app, foldl_by_result, Hb.
  - rewrite <- Hf, omap_app, results_by_result.
    rewrite (concat_delete _ _ _ Hi), !fills_app. solve_Permutation.
Qed.

(** The exchange's name. *)
Lemma on_new_order_inner_name req ts book_only c :
  sim_exch_name (SimulatorCore.on_new_order_inner uuid req ts book_only c).2 = sim_exch_name c.
Proof.
  unfold SimulatorCore.on_new_order_inner. destruct (negb _); [done|].
  by destruct (SimulatorCore.apply_matches uuid _ _ _ _) as [[? ?] ?].
Qed.
Lemma force_match_order_name id qty price ts c :
  sim_exch_name (SimulatorCore.force_match_order uuid id qty price ts c).2 = sim_exch_name c.
Proof.
  unfold SimulatorCore.force_match_order. destruct (sim_order_cache c !! id) as [o|]; [|done].
  destruct (f64.leb _ _); [done|]. cbv zeta. by destruct (f64.leb _ _ || _).
Qed.
Lemma on_tick_name tick c :
  yields (SimulatorCore.on_tick uuid tick c) (λ r, sim_exch_name r.2 = sim_exch_name c).
Proof.
  unfold SimulatorCore.on_tick. apply yields_bind. intros t _. apply yields_for_each; [done|].
  intros [results c'] id Hn. apply yields_bind. intros o _. cbv beta zeta.
  by destruct (SimulatorCore.apply_matches uuid _ _ _ _) as [[? ?] ?].
Qed.

Lemma on_cancel_fills req ts c :
  fills (SimulatorCore.on_cancel req ts c).1 = [] ∧
  sim_exch_name (SimulatorCore.on_cancel req ts c).2 = sim_exch_name c.
Proof.
  unfold SimulatorCore.on_cancel. destruct (sim_order_cache c !! _) as [o|]; [|done].
  by destruct (f64.ltb _ _).
Qed.

Lemma tick_section_inv s0 v tick :
  venue_inv s0 v → returns (venue_step uuid v (OpTick tick)) (venue_inv s0).
Proof.
  intros Hv. cbn [venue_step]. apply returns_bind. unfold SimAdminHandler.tick_section.
  destruct (mcs_matching_paused _).
  - apply (inv_unsettled s0 v []); [done| |done]. by apply vi_keyed in Hv.
  - apply returns_bind. pose proof (on_tick_name tick (ss_sim_core (vr_state v))) as Hn.
    destruct (returns_inv _ _ (on_tick_keyed uuid tick _ (vi_keyed _ _ Hv))) as ([results c] & E & Hk).
    rewrite E in Hn |- *. by apply (inv_unsettled s0 v results).
Qed.

Lemma evaluate_inv s0 v now scope ctx :
  venue_inv s0 v →
  venue_inv s0 (v <| vr_state := (SimulatorVenueAdapter.evaluate now scope ctx (vr_state v)).2 |>).
Proof.
  intros Hv. unfold SimulatorVenueAdapter.evaluate.
  destruct (evaluate_rules _ _ _ _) as [effect rules].
  apply (inv_quiet s0 v); [done|by apply vi_keyed in Hv|done..].
Qed.

Lemma check_state now scope ctx s :
  (SimulatorVenueAdapter.check_error_injection now scope ctx s).2 =
    (SimulatorVenueAdapter.evaluate now scope ctx s).2.
Proof.
  unfold SimulatorVenueAdapter.check_error_injection.
  by destruct (SimulatorVenueAdapter.evaluate now scope ctx s).
Qed.

Lemma place_apply_inv s0 v ts req :
  venue_inv s0 v → returns (venue_step uuid v (OpPlaceApply ts req)) (venue_inv s0).
Proof.
  intros Hv. cbn [venue_step]. unfold SimulatorVenueAdapter.place_apply.
  set (paused := mcs_matching_paused _).
  replace ((if paused then SimulatorCore.on_new_order_book_only uuid
            else SimulatorCore.on_new_order uuid) _ _ _) with
    (SimulatorCore.on_new_order_inner uuid (SimulatorVenueAdapter.send_request req) ts paused
       (ss_sim_core (vr_state v))) by (by destruct paused).
  pose proof (on_new_order_inner_keyed uuid (SimulatorVenueAdapter.send_request req) ts paused _
                (vi_keyed _ _ Hv)) as Hk.
  pose proof (on_new_order_inner_name (SimulatorVenueAdapter.send_request req) ts paused
                (ss_sim_core (vr_state v))) as Hn.
  destruct (SimulatorCore.on_new_order_inner uuid _ _ _ _) as [results c]. by apply inv_settled.
Qed.

Lemma cancel_apply_inv s0 v ts req :
  venue_inv s0 v → returns (venue_step uuid v (OpCancelApply ts req)) (venue_inv s0).
Proof.
  intros Hv. cbn [venue_step]. unfold SimulatorVenueAdapter.cancel_apply.
  set (creq := mkCancelOrderRequest _ _ _ _).
  pose proof (on_cancel_keyed creq ts _ (vi_keyed _ _ Hv)) as Hk.
  destruct (on_cancel_fills creq ts (ss_sim_core (vr_state v))) as [Hno Hn].
  destruct (SimulatorCore.on_cancel _ _ _) as [results c]. by apply inv_no_fills.
Qed.

Lemma force_match_venue_inv s0 v ts req :
  venue_inv s0 v → returns (venue_step uuid v (OpForceMatch ts req)) (venue_inv s0).
Proof.
  intros Hv. cbn [venue_step]. unfold SimAdminHandler.force_match_section. cbv zeta.
  set (qty := if _ =? _ then _ else _). set (price := if f64.ltb _ _ then _ else _).
  pose proof (force_match_order_keyed uuid (fmr_order_id req) qty price ts _ (vi_keyed _ _ Hv)) as Hk.
  pose proof (force_match_order_name (fmr_order_id req) qty price ts (ss_sim_core (vr_state v))) as Hn.
  destruct (SimulatorCore.force_match_order uuid _ _ _ _ _) as [[results|msg] c].
  - by apply inv_settled.
  - apply (inv_quiet s0 v); [done|done| |done]. unfold constants. simpl in *. by rewrite Hn.
Qed.

Lemma reset_inv s0 v :
  venue_inv s0 v → returns (venue_step uuid v OpReset) (venue_inv s0).
Proof.
  intros [Hk Hc Hb Hf]. split; simpl; [|done| |].
  - intros id o Ho. by apply (lookup_empty_Some id o) in Ho.
  - rewrite foldl_app. simpl. injection Hc. congruence.
  - by rewrite omap_app, app_nil_r.
Qed.

Lemma set_account_inv s0 v req :
  venue_inv s0 v → returns (venue_step uuid v (OpSetAccount req)) (venue_inv s0).
Proof.
  intros [Hk Hc Hb Hf]. split; simpl; [done|done| |].
  - by rewrite foldl_app, Hb.
  - by rewrite omap_app, app_nil_r.
Qed.

Lemma venue_step_inv s0 v op : venue_inv s0 v → returns (venue_step uuid v op) (venue_inv s0).
Proof.
  intros Hv. destruct op as [now req|ts req|now req|ts req|now|ts req|tick|i|now id req|id| |req| | |name].
  - cbn [venue_step]. unfold SimulatorVenueAdapter.place_check. rewrite check_state. by apply evaluate_inv.
  - by apply place_apply_inv.
  - cbn [venue_step]. unfold SimulatorVenueAdapter.cancel_check. rewrite check_state. by apply evaluate_inv.
  - by apply cancel_apply_inv.
  - pose proof (evaluate_inv s0 v now ErrorScope.QueryAccountBalance default_MatchCriteria Hv) as He.
    cbn [venue_step]. unfold SimulatorVenueAdapter.query_balance.
    by destruct (SimulatorVenueAdapter.evaluate _ _ _ _).
  - by apply force_match_venue_inv.
  - by apply tick_section_inv.
  - cbn [venue_step]. destruct (vr_unsettled v !! i) as [results|] eqn:Hi; [by apply inv_settle|done].
  - cbn [venue_step]. apply (inv_quiet s0 v); [done|..]; unfold SimAdminHandler.inject_error;
      destruct (SimAdminHandler.scope_of _); [|by apply vi_keyed in Hv|..];
      destruct (SimAdminHandler.effect_of req); by first [apply vi_keyed in Hv|done].
  - apply (inv_quiet s0 v); [done|by apply vi_keyed in Hv|done..].
  - by apply reset_inv.
  - by apply set_account_inv.
  - apply (inv_quiet s0 v); [done|by apply vi_keyed in Hv|done..].
  - apply (inv_quiet s0 v); [done|by apply vi_keyed in Hv|done..].
  - cbn [venue_step]. unfold SimAdminHandler.set_match_policy. cbv zeta.
    destruct (if String.eqb name "immediate" then _ else _) as [policy|]; [|by destruct v].
    apply (inv_quiet s0 v); [done|by apply vi_keyed in Hv|done..].
Qed.

Lemma venue_run_inv ops s :
  sim_keyed (ss_sim_core s) → returns (venue_run uuid ops s) (venue_inv s).
Proof.
  intros Hk. apply returns_for_each; [by split|]. intros v op _. apply venue_step_inv.
Qed.
End run_facts.


(** A venue with one buy order filled by a tick, whose balances wait while a
    second order is placed. *)
Definition demo_venue : SimulatorState := build_simulator 7 {["USD" := f64.of_Z 1000]} "fcfs".
Definition venue_place (id : Z) : VenuePlaceOrder :=
  mkVenuePlaceOrder id "acc" "BTC-USD" BsBuy 0 0 (f64.of_Z 100) (f64.of_Z 2) f64.zero 5.
Definition venue_tick : TickData :=
  mkTickData 0 "BTC-USD" "SIM" 10 10 f64.zero f64.zero f64.zero "" []
    [mkPriceLevel (f64.of_Z 99) (f64.of_Z 2) 1 1].
Definition venue_ops : list VenueOp :=
  [OpPlaceApply 1 (venue_place 1); OpTick venue_tick; OpPlaceApply 2 (venue_place 2); OpSettleTick 0].
Definition demo_run : outcome VenueRun := @venue_run demo_uuid canonical_iter canonical_iter venue_ops demo_venue.


(** Once the venue is reset it is the venue that was built, the ids already drawn
    apart. *)
Definition as_built (s s0 : SimulatorState) : Prop :=
  s = s0 <| ss_sim_core ::= λ c, c <| sim_drawn := sim_drawn (ss_sim_core s) |> |>.

(** Whatever happened to a venue since it was built, [reset_simulator] brings
    back the venue that was built: its orders, order books and match policy, its
    balances and positions, its rules and pause. *)
Theorem reset_restores_venue (uuid : nat → string) `{!HashIter Z, !HashIterOk Z, !HashIter string}
    (ops : list VenueOp) account_id balances policy pipeline :
  returns (venue_run uuid ops (build_simulator account_id balances policy)) (λ v,
    let '(_, s, pipeline) := SimAdminHandler.reset_simulator (vr_state v) pipeline in
    as_built s (build_simulator account_id balances policy) ∧
    pipeline = SemanticPipeline.new (sp_exch_account_code pipeline)).
Proof.
  assert (sim_keyed (ss_sim_core (build_simulator account_id balances policy))) as Hk.
  { intros id o Ho. by apply (lookup_empty_Some id o) in Ho. }
  eapply returns_mono; [by apply (venue_run_inv uuid ops)|]. intros v [_ Hc _ _]. destruct v as [[core account control] unsettled results changes].
  destruct core, account, control. injection Hc as -> -> -> -> ->. by split.
Qed.

Lemma reset_restores_venue_witness :
  returns demo_run (λ v, (SimAdminHandler.reset_section (vr_state v)).1 = (2, 0)) ∧
  returns demo_run (λ v,
    let '(_, s, pipeline) :=
      SimAdminHandler.reset_simulator (vr_state v) (SemanticPipeline.new "acc") in
    as_built s demo_venue ∧ pipeline = SemanticPipeline.new (sp_exch_account_code pipeline)).
Proof.
  split; [vm_compute; reflexivity|]. unfold demo_run, demo_venue.
  exact (@reset_restores_venue demo_uuid canonical_iter canonical_iter_ok canonical_iter venue_ops 7
           {["USD" := f64.of_Z 1000]} "fcfs" (SemanticPipeline.new "acc")).
Defined.

(** A resting order that is cancelled unfilled is reported as filled by a query. *)
Definition cancelled_venue : SimulatorState :=
  let '(_, _, s) := @SimulatorVenueAdapter.place_order demo_uuid canonical_iter 1 1 (venue_place 1) demo_venue in
  let '(_, _, s) := SimulatorVenueAdapter.cancel_order 2 2 (mkVenueCancelOrder "" 1 2) s in s.
Lemma cancelled_order_queried_filled :
  (λ f, (vof_status f, vof_filled_qty f, vof_unfilled_qty f)) <$>
    @SimulatorVenueAdapter.query_order canonical_iter (mkVenueOrderQuery None (Some 1) None)
      cancelled_venue = [(VFilled, f64.zero, f64.zero)].
Proof. vm_compute. reflexivity. Qed.
