(* ===== verification/Json.v ===== *)
(** * JSON values ([serde_json::Value])

    The values a parsed document is made of, their equality, the accessors and
    the JSON pointers the code uses.
    Parsing itself is the library's: the code that parses takes it as an
    argument. *)

From S2P Require Import Prelude Text F64.
From Stdlib Require Import Sorted Ascii.

Inductive JNumber : Set :=
| JPosInt (n : Z)
| JNegInt (n : Z)
| JFloat (x : f64).

(** The keys of an object are unique. *)
Inductive Value : Set :=
| JNull
| JBool (b : bool)
| JNumber_ (n : JNumber)
| JString (s : string)
| JArray (l : list Value)
| JObject (fields : list (string * Value)).

Definition as_str (v : Value) : option string := match v with JString s => Some s | _ => None end.
Definition as_object (v : Value) : option (list (string * Value)) :=
  match v with JObject fields => Some fields | _ => None end.
Definition as_u64 (v : Value) : option Z := match v with JNumber_ (JPosInt n) => Some n | _ => None end.

(** [Map::get] *)
Fixpoint field (key : string) (fields : list (string * Value)) : option Value :=
  match fields with
  | [] => None
  | (k, v) :: fields => if String.eqb k key then Some v else field key fields
  end.

(** [Value::get] with a string. *)
Definition get (key : string) (v : Value) : option Value := as_object v ≫= field key.

(** [PartialEq] of numbers: the variant, then the value. *)
Definition number_eq (m n : JNumber) : bool :=
  match m, n with
  | JPosInt m, JPosInt n | JNegInt m, JNegInt n => m =? n
  | JFloat x, JFloat y => f64.eqb x y
  | _, _ => false
  end.

(** [PartialEq] of values; objects are compared entry by entry in key order. *)
Fixpoint value_eq (v w : Value) : bool :=
  match v, w with
  | JNull, JNull => true
  | JBool b, JBool c => Bool.eqb b c
  | JNumber_ m, JNumber_ n => number_eq m n
  | JString s, JString t => String.eqb s t
  | JArray l, JArray k =>
      (fix go l k :=
         match l, k with
         | [], [] => true
         | v :: l, w :: k => value_eq v w && go l k
         | _, _ => false
         end) l k
  | JObject a, JObject b =>
      (fix go a b :=
         match a, b with
         | [], [] => true
         | (k, v) :: a, (k', w) :: b => String.eqb k k' && value_eq v w && go a b
         | _, _ => false
         end) a b
  | _, _ => false
  end.

(** A map of the library is ordered by key, in the order of bytes. *)
Definition key_lt (s t : string) : Prop := String.compare s t = Lt.

Fixpoint wf_value (v : Value) : Prop :=
  match v with
  | JArray l => (fix go l := match l with [] => True | v :: l => wf_value v ∧ go l end) l
  | JObject a =>
      StronglySorted key_lt a.*1 ∧
      (fix go a := match a with [] => True | (_, v) :: a => wf_value v ∧ go a end) a
  | _ => True
  end.

(** [Map::insert] and [BTreeMap::insert]. *)
Fixpoint map_insert (k : string) (v : Value) (a : list (string * Value)) : list (string * Value) :=
  match a with
  | [] => [(k, v)]
  | (k', v') :: a' =>
      match String.compare k k' with
      | Lt => (k, v) :: a
      | Eq => (k, v) :: a'
      | Gt => (k', v') :: map_insert k v a'
      end
  end.

(** The tokens of a JSON pointer: the parts after the first slash, with [~1]
    and then [~0] replaced. *)
Fixpoint replace_escape (d : Z) (by_ : Ascii.ascii) (s : string) : string :=
  match s with
  | String a (String b s' as rest) =>
      if (byte_of a =? 126) && (byte_of b =? d) then String by_ (replace_escape d by_ s')
      else String a (replace_escape d by_ rest)
  | s => s
  end.
Definition unescape (token : string) : string :=
  replace_escape 48 "~"%char (replace_escape 49 "/"%char token).

(** No tokens for the empty pointer, none at all for one without a slash. *)
Definition pointer_tokens (pointer : string) : option (list string) :=
  match pointer with
  | EmptyString => Some []
  | String a _ => if byte_of a =? 47 then Some (unescape <$> tail (split_on 47 pointer)) else None
  end.

(** [parse_index]: no sign and no leading zero. *)
Definition parse_index (token : string) : option nat :=
  if has_prefix "+" token || (has_prefix "0" token && negb (String.length token =? 1)%nat) then None
  else Z.to_nat <$> parse_int 0 (2 ^ 64 - 1) token.

(** [*v.pointer_mut(p) = w] where the path exists; [v] as it is otherwise. *)
Fixpoint set_at (tokens : list string) (w v : Value) : Value :=
  match tokens with
  | [] => w
  | t :: tokens =>
      match v with
      | JObject fields =>
          JObject ((λ kv, (kv.1, if String.eqb kv.1 t then set_at tokens w kv.2 else kv.2)) <$> fields)
      | JArray l =>
          match parse_index t with
          | Some i => JArray (alter (set_at tokens w) i l)
          | None => v
          end
      | _ => v
      end
  end.
