(* ===== verification/Strategies.v ===== *)
(** * The strategies of the repository

    [strategies/strategy-smoke-test], [strategies/mm], [strategies/arbi],
    [strategies/noop] and the host that picks one ([zk-strategy-host-rs]).

    A callback of the smoke test may panic in its [expect]s and [unwrap]s, so its
    methods are outcomes; [StrategyFacts] shows that they return.  Ids drawn from
    the context's allocator are counted: a method takes the number drawn before
    it in the same callback and returns the number drawn after it. *)

From S2P Require Import Prelude F64 Proto Models Utils Text Json Collections Rtmd Strategy.

(** ** [strategy-smoke-test] *)

Definition TIMER_KEY : string := "smoke_mm/refresh".
Definition MAX_OPEN_ORDERS_BEFORE_PAUSE : nat := 4.

Record SmokeMMConfig : Set := mkSmokeMMConfig {
  smc_quote_interval_ms : Z;
  smc_quote_qty : f64;
  smc_buy_tick_distance : f64;
  smc_sell_tick_distance : f64;
}.
Definition default_SmokeMMConfig : SmokeMMConfig :=
  mkSmokeMMConfig 5000 (f64.of_Z 1) f64.zero f64.zero.

Record SymbolState : Type := mkSymbolState {
  sy_best_bid : f64;
  sy_best_ask : f64;
  sy_buy_order_id : option Z;
  sy_sell_order_id : option Z;
  sy_internal_position : f64;
  sy_last_filled_qty : gmap Z f64;
}.
#[export] Instance eta_SymbolState : Eta SymbolState := λ r,
  mkSymbolState (sy_best_bid r) (sy_best_ask r) (sy_buy_order_id r) (sy_sell_order_id r)
    (sy_internal_position r) (sy_last_filled_qty r).

Module SymbolState.
Definition new (bid ask : f64) : SymbolState := mkSymbolState bid ask None None f64.zero ∅.
Definition active_order_ids (ss : SymbolState) : list Z :=
  option_list (sy_buy_order_id ss) ++ option_list (sy_sell_order_id ss).
End SymbolState.

Record SmokeTestStrategy : Type := mkSmokeTestStrategy {
  sm_config : SmokeMMConfig;
  sm_symbols : gmap string SymbolState;
  sm_quoting_enabled : bool;
  sm_account_id : option Z;
}.
#[export] Instance eta_SmokeTestStrategy : Eta SmokeTestStrategy := λ r,
  mkSmokeTestStrategy (sm_config r) (sm_symbols r) (sm_quoting_enabled r) (sm_account_id r).

Module SmokeTestStrategy.
Section smoke.
Context {D : Type} `{!HashIter Z, !HashIter string}.
Notation Ctx := (StrategyContext D).
Implicit Types (s : SmokeTestStrategy) (ctx : Ctx).

Definition with_config (config : SmokeMMConfig) : SmokeTestStrategy :=
  mkSmokeTestStrategy config ∅ true None.
Definition new : SmokeTestStrategy := with_config default_SmokeMMConfig.

Definition log (msg : message) (ts_ms : Z) : SAction.t := SAction.Log (mkStrategyLog ts_ms msg).

(** [ctx.account_ids()] *)
Definition account_ids ctx : list Z := (hash_iter (ctx_account_states ctx)).*1.

(** The method [account_id], which caches the first account. *)
Definition cache_account_id ctx s : SmokeTestStrategy :=
  match sm_account_id s with
  | None => s <| sm_account_id := head (account_ids ctx) |>
  | Some _ => s
  end.

Definition arm_timer (now_ms : Z) s : SAction.t :=
  SAction.SubscribeTimer
    (mkTimerSubscription TIMER_KEY
       (StrategyTimer.OnceAt (wrap_i64 (now_ms + smc_quote_interval_ms (sm_config s))))).

Definition extract_bbo (tick : TickData) : option (f64 * f64) :=
  bid ← pl_price <$> head (td_buy_price_levels tick);
  ask ← pl_price <$> head (td_sell_price_levels tick);
  if f64.leb bid f64.zero || f64.leb ask f64.zero || f64.leb ask bid then None else Some (bid, ask).

Definition tick_size_for (symbol : string) ctx : f64 :=
  match rd_price_tick_size <$> StrategyContext.get_symbol_info symbol ctx with
  | Some tick => if f64.ltb f64.zero tick then tick else f64.of_Z 1
  | None => f64.of_Z 1
  end.

Definition quote_prices (symbol : string) (bid ask : f64) ctx s : option (f64 * f64) :=
  let tick_size := tick_size_for symbol ctx in
  let buy_offset := f64.mul (f64.max (smc_buy_tick_distance (sm_config s)) f64.zero) tick_size in
  let sell_offset := f64.mul (f64.max (smc_sell_tick_distance (sm_config s)) f64.zero) tick_size in
  let quote_bid := f64.sub bid buy_offset in
  let quote_ask := f64.add ask sell_offset in
  if f64.leb quote_bid f64.zero || f64.leb quote_ask quote_bid then None
  else Some (quote_bid, quote_ask).

(** The [n]-th id drawn in a callback, from 0. *)
Definition drawn_id ctx (n : nat) : Z := SequentialIdAllocator.after_calls n (ctx_next_id ctx).

Definition quote_order (side : Z) (order_id : Z) (symbol : string) (price : f64) (account_id : Z) s
    : SAction.t :=
  SAction.PlaceOrder
    (mkStrategyOrder order_id symbol price (smc_quote_qty (sm_config s)) side OcOpen account_id).

(** What a method returns: its actions, the strategy and the ids drawn. *)
Definition done : Type := list SAction.t * SmokeTestStrategy * nat.

Definition place_quotes (symbol : string) (bid ask : f64) ctx (account_id ts_ms : Z) s (ids : nat)
    : outcome done :=
  let open_orders := length (StrategyContext.get_open_orders account_id ctx) in
  if (MAX_OPEN_ORDERS_BEFORE_PAUSE <? open_orders)%nat then
    Returns ([log [Lit ("smoke_mm.skip_quote symbol=" +:+ symbol +:+
                        " reason=open_order_limit open_orders=" +:+ display_i64 (Z.of_nat open_orders) +:+
                        " limit=" +:+ display_i64 (Z.of_nat MAX_OPEN_ORDERS_BEFORE_PAUSE))] ts_ms], s, ids)
  else
    match quote_prices symbol bid ask ctx s with
    | None =>
        Returns ([log [Lit ("smoke_mm.skip_quote symbol=" +:+ symbol +:+
                            " reason=invalid_quote_prices bid="); DispF64 bid; Lit " ask="; DispF64 ask]
                    ts_ms], s, ids)
    | Some (quote_bid, quote_ask) =>
        let buy_id := drawn_id ctx ids in
        let sell_id := drawn_id ctx (S ids) in
        ss ← unwrap "symbol must exist" (sm_symbols s !! symbol);
        let ss := ss <| sy_buy_order_id := Some buy_id |> <| sy_sell_order_id := Some sell_id |> in
        Returns
          ([log [Lit ("smoke_mm.quote symbol=" +:+ symbol +:+ " buy_id=" +:+ display_i64 buy_id +:+ "@");
                 DispF64 quote_bid; Lit (" sell_id=" +:+ display_i64 sell_id +:+ "@"); DispF64 quote_ask;
                 Lit " qty="; DispF64 (smc_quote_qty (sm_config s));
                 Lit " buy_ticks="; DispF64 (smc_buy_tick_distance (sm_config s));
                 Lit " sell_ticks="; DispF64 (smc_sell_tick_distance (sm_config s))] ts_ms;
            quote_order BsBuy buy_id symbol quote_bid account_id s;
            quote_order BsSell sell_id symbol quote_ask account_id s],
           s <| sm_symbols ::= <[symbol := ss]> |>, S (S ids))
    end.

(** The quotes of one symbol cancelled: the actions and its state. *)
Definition cancel_quotes (symbol : string) (account_id ts_ms : Z) (ss : SymbolState)
    : list SAction.t * SymbolState :=
  let oids := SymbolState.active_order_ids ss in
  (oids ≫= (λ oid, [log [Lit ("smoke_mm.cancel symbol=" +:+ symbol +:+ " order_id=" +:+ display_i64 oid)] ts_ms;
                    SAction.Cancel (mkStrategyCancel oid account_id)]),
   ss <| sy_last_filled_qty ::= λ m, foldl (λ m oid, delete oid m) m oids |>
      <| sy_buy_order_id := None |> <| sy_sell_order_id := None |>).

Definition cancel_all (account_id ts_ms : Z) s : list SAction.t * SmokeTestStrategy :=
  foldl (λ '(actions, s) '(sym, ss),
    let '(more, ss) := cancel_quotes sym account_id ts_ms ss in
    (actions ++ more, s <| sm_symbols ::= <[sym := ss]> |>)) ([], s) (hash_iter (sm_symbols s)).

Definition cancel_symbol (symbol : string) (account_id ts_ms : Z) s : list SAction.t * SmokeTestStrategy :=
  match sm_symbols s !! symbol with
  | Some ss =>
      let '(actions, ss) := cancel_quotes symbol account_id ts_ms ss in
      (actions, s <| sm_symbols ::= <[symbol := ss]> |>)
  | None => ([], s)
  end.

(** [find_order]: the symbol, and whether the order is its buy quote. *)
Definition find_order (order_id : Z) s : option (string * bool) :=
  let side '(sym, ss) :=
    if bool_decide (sy_buy_order_id ss = Some order_id) then Some (sym, true)
    else if bool_decide (sy_sell_order_id ss = Some order_id) then Some (sym, false)
    else None in
  head (omap side (hash_iter (sm_symbols s))).

Definition apply_fill (symbol : string) (is_buy : bool) (fill_qty : f64) ctx (ts_ms : Z) s
    : outcome (SAction.t * SmokeTestStrategy) :=
  ss ← unwrap "symbol must exist" (sm_symbols s !! symbol);
  let signed := if is_buy then fill_qty else f64.neg fill_qty in
  let ss := ss <| sy_internal_position ::= λ p, f64.add p signed |> in
  let ctx_pos :=
    match StrategyContext.get_position (default 0 (sm_account_id s)) symbol ctx with
    | Some p => pos_total_qty p
    | None => f64.zero
    end in
  Returns
    (log [Lit ("smoke_mm.fill symbol=" +:+ symbol +:+ " side=" +:+
               (if is_buy then "BsBuy" else "BsSell") +:+ " qty="); DispF64 fill_qty;
          Lit " internal_pos="; FixedF64 4 (sy_internal_position ss);
          Lit " ctx_pos="; FixedF64 4 ctx_pos;
          Lit " diff="; FixedF64 4 (f64.sub (sy_internal_position ss) ctx_pos)] ts_ms,
     s <| sm_symbols ::= <[symbol := ss]> |>).

(** A book worth quoting. *)
Definition quotable (bid ask : f64) : bool :=
  f64.ltb f64.zero bid && f64.ltb f64.zero ask && f64.ltb bid ask.

Definition maybe_requote_on_both_cleared (symbol : string) ctx (account_id ts_ms : Z) s (ids : nat)
    : outcome done :=
  ss ← unwrap "called `Option::unwrap()` on a `None` value" (sm_symbols s !! symbol);
  match sy_buy_order_id ss, sy_sell_order_id ss with
  | None, None =>
      if sm_quoting_enabled s && quotable (sy_best_bid ss) (sy_best_ask ss)
      then place_quotes symbol (sy_best_bid ss) (sy_best_ask ss) ctx account_id ts_ms s ids
      else Returns ([], s, ids)
  | _, _ => Returns ([], s, ids)
  end.

(** *** The callbacks *)

Definition on_create ctx s : outcome done :=
  Returns ([log [Lit "smoke_mm.on_create"] (ctx_current_ts_ms ctx)], s, 0%nat).

Definition on_init ctx s : outcome done :=
  let account_count := length (account_ids ctx) in
  Returns ([log [Lit ("smoke_mm.on_init accounts=" +:+ display_i64 (Z.of_nat account_count))]
              (ctx_current_ts_ms ctx)], cache_account_id ctx s, 0%nat).

Definition on_reinit ctx s : outcome done :=
  Returns ([log [Lit "smoke_mm.on_reinit"] (ctx_current_ts_ms ctx);
            arm_timer (ctx_current_ts_ms ctx) s], s, 0%nat).

Definition on_tick (tick : TickData) ctx s : outcome done :=
  let symbol := td_instrument_code tick in
  match extract_bbo tick with
  | None =>
      Returns ([log [Lit ("smoke_mm.on_tick symbol=" +:+ symbol +:+ " skipped=invalid_bbo")]
                  (ctx_current_ts_ms ctx)], s, 0%nat)
  | Some (bid, ask) =>
      let is_new_symbol := bool_decide (sm_symbols s !! symbol = None) in
      let ss := default (SymbolState.new bid ask) (sm_symbols s !! symbol) in
      let s := s <| sm_symbols ::=
                      <[symbol := ss <| sy_best_bid := bid |> <| sy_best_ask := ask |>]> |> in
      if negb (sm_quoting_enabled s) then Returns ([], s, 0%nat)
      else if is_new_symbol then
        let account_id :=
          match sm_account_id s with Some a => Some a | None => head (account_ids ctx) end in
        match account_id with
        | None =>
            Returns ([log [Lit "smoke_mm.on_tick no account_ids"] (ctx_current_ts_ms ctx)], s, 0%nat)
        | Some account_id =>
            place_quotes symbol bid ask ctx account_id (ctx_current_ts_ms ctx)
              (s <| sm_account_id := Some account_id |>) 0
        end
      else Returns ([], s, 0%nat)
  end.

(** The symbols with their best prices. *)
Definition books s : list (string * f64 * f64) :=
  (λ '(sym, ss), (sym, sy_best_bid ss, sy_best_ask ss)) <$> hash_iter (sm_symbols s).

(** One symbol of the loop of [on_timer]. *)
Definition refresh ctx (account_id ts_ms : Z) (acc : done) (book : string * f64 * f64) : outcome done :=
  let '(actions, s, ids) := acc in
  let '(sym, bid, ask) := book in
  let '(cancels, s) := cancel_symbol sym account_id ts_ms s in
  if quotable bid ask then
    '(quotes, s, ids) ← place_quotes sym bid ask ctx account_id ts_ms s ids;
    Returns (actions ++ cancels ++ quotes, s, ids)
  else
    Returns (actions ++ cancels ++
               [log [Lit ("smoke_mm.skip_quote symbol=" +:+ sym +:+ " bid="); DispF64 bid;
                     Lit " ask="; DispF64 ask] ts_ms], s, ids).

Definition on_timer (event : TimerEvent) ctx s : outcome done :=
  if negb (String.eqb (te_timer_key event) TIMER_KEY) then Returns ([], s, 0%nat)
  else
    let actions := [log [Lit "smoke_mm.on_timer refresh"] (te_ts_ms event);
                    arm_timer (te_ts_ms event) s] in
    if negb (sm_quoting_enabled s) then Returns (actions, s, 0%nat)
    else
      match sm_account_id s with
      | None => Returns (actions, s, 0%nat)
      | Some account_id =>
          for_each (refresh ctx account_id (te_ts_ms event)) (books s) (actions, s, 0%nat)
      end.

(** The fill an update reports, booked. *)
Definition track_fill (update : OrderUpdateEvent) (symbol : string) (is_buy : bool) ctx s
    : outcome (list SAction.t * SmokeTestStrategy) :=
  let booked qty s :=
    '(action, s) ← apply_fill symbol is_buy qty ctx (oue_timestamp update) s; Returns ([action], s) in
  match oue_last_trade update with
  | Some trade =>
      if f64.ltb f64.zero (tr_filled_qty trade) then booked (tr_filled_qty trade) s
      else Returns ([], s)
  | None =>
      match oue_order_snapshot update with
      | Some snap =>
          ss ← unwrap "called `Option::unwrap()` on a `None` value" (sm_symbols s !! symbol);
          let prev := default f64.zero (sy_last_filled_qty ss !! oue_order_id update) in
          let delta := f64.sub (ord_filled_qty snap) prev in
          if f64.ltb f64.zero delta then
            booked delta
              (s <| sm_symbols ::= <[symbol :=
                      ss <| sy_last_filled_qty ::= <[oue_order_id update := ord_filled_qty snap]> |>]> |>)
          else Returns ([], s)
      | None => Returns ([], s)
      end
  end.

Definition update_is_terminal (update : OrderUpdateEvent) : bool :=
  match oue_order_snapshot update with
  | Some snap => is_terminal (ord_order_status snap)
  | None => false
  end.

(** The slots of an order that has ended. *)
Definition clear_order (order_id : Z) (ss : SymbolState) : SymbolState :=
  ss <| sy_last_filled_qty ::= delete order_id |>
     <| sy_buy_order_id ::= λ o, if bool_decide (o = Some order_id) then None else o |>
     <| sy_sell_order_id ::= λ o, if bool_decide (o = Some order_id) then None else o |>.

Definition on_order_update (update : OrderUpdateEvent) ctx s : outcome done :=
  let order_id := oue_order_id update in
  match find_order order_id s with
  | None => Returns ([], s, 0%nat)
  | Some (symbol, is_buy) =>
      '(actions, s) ← track_fill update symbol is_buy ctx s;
      if update_is_terminal update then
        ss ← unwrap "called `Option::unwrap()` on a `None` value" (sm_symbols s !! symbol);
        let s := s <| sm_symbols ::= <[symbol := clear_order order_id ss]> |> in
        '(more, s, ids) ← maybe_requote_on_both_cleared symbol ctx (default 0 (sm_account_id s))
                            (oue_timestamp update) s 0;
        Returns (actions ++ more, s, ids)
      else Returns (actions, s, 0%nat)
  end.

Definition on_pause (reason : string) ctx s : outcome done :=
  let s := s <| sm_quoting_enabled := false |> in
  let '(cancels, s) := cancel_all (default 0 (sm_account_id s)) (ctx_current_ts_ms ctx) s in
  Returns (log [Lit ("smoke_mm.on_pause reason=" +:+ reason)] (ctx_current_ts_ms ctx) :: cancels, s, 0%nat).

(** One symbol of the loop of [on_resume]. *)
Definition requote ctx (account_id : Z) (acc : done) (book : string * f64 * f64) : outcome done :=
  let '(actions, s, ids) := acc in
  let '(sym, bid, ask) := book in
  if quotable bid ask then
    '(quotes, s, ids) ← place_quotes sym bid ask ctx account_id (ctx_current_ts_ms ctx) s ids;
    Returns (actions ++ quotes, s, ids)
  else Returns acc.

Definition on_resume (reason : string) ctx s : outcome done :=
  let actions := [log [Lit ("smoke_mm.on_resume reason=" +:+ reason)] (ctx_current_ts_ms ctx)] in
  let s := s <| sm_quoting_enabled := true |> in
  match sm_account_id s with
  | None => Returns (actions, s, 0%nat)
  | Some account_id => for_each (requote ctx account_id) (books s) (actions, s, 0%nat)
  end.
End smoke.
End SmokeTestStrategy.

(** The strategy as the runner calls it.  The methods return for every state
    ([smoke_callbacks_return]); the other case never occurs. *)
Definition replied {S} (m : outcome (reply S)) (s : S) : reply S :=
  match m with Returns r => r | Panics _ => no_op s end.

#[export] Instance smoke_strategy {D} `{!HashIter Z, !HashIter string} : Strategy D SmokeTestStrategy := {|
  strategy_on_create ctx s := replied (SmokeTestStrategy.on_create ctx s) s;
  strategy_on_init ctx s := replied (SmokeTestStrategy.on_init ctx s) s;
  strategy_on_reinit ctx s := replied (SmokeTestStrategy.on_reinit ctx s) s;
  strategy_on_tick tick ctx s := replied (SmokeTestStrategy.on_tick tick ctx s) s;
  strategy_on_bar _ _ s := no_op s;
  strategy_on_signal _ _ s := no_op s;
  strategy_on_order_update update ctx s := replied (SmokeTestStrategy.on_order_update update ctx s) s;
  strategy_on_balance_update _ _ s := no_op s;
  strategy_on_position_update _ _ s := no_op s;
  strategy_on_timer event ctx s := replied (SmokeTestStrategy.on_timer event ctx s) s;
  strategy_on_pause reason ctx s := replied (SmokeTestStrategy.on_pause reason ctx s) s;
  strategy_on_resume reason ctx s := replied (SmokeTestStrategy.on_resume reason ctx s) s;
|}.

(** ** [noop], [mm] and [arbi] *)

Record NoopStrategy : Set := mkNoopStrategy {}.

#[export] Instance noop_strategy {D} : Strategy D NoopStrategy := {|
  strategy_on_create _ s := no_op s;
  strategy_on_init _ s := no_op s;
  strategy_on_reinit _ s := no_op s;
  strategy_on_tick _ _ s := no_op s;
  strategy_on_bar _ _ s := no_op s;
  strategy_on_signal _ _ s := no_op s;
  strategy_on_order_update _ _ s := no_op s;
  strategy_on_balance_update _ _ s := no_op s;
  strategy_on_position_update _ _ s := no_op s;
  strategy_on_timer _ _ s := no_op s;
  strategy_on_pause _ _ s := no_op s;
  strategy_on_resume _ _ s := no_op s;
|}.

(** A callback that only logs. *)
Definition logs {D S} (msg : message) (ctx : StrategyContext D) (s : S) : reply S :=
  ([SAction.Log (mkStrategyLog (ctx_current_ts_ms ctx) msg)], s, 0%nat).

Record MarketMakingStrategy : Set := mkMarketMakingStrategy { mms_last_symbol : option string }.

#[export] Instance mm_strategy {D} : Strategy D MarketMakingStrategy := {|
  strategy_on_create ctx s := logs [Lit "mm_placeholder.on_create"] ctx s;
  strategy_on_init _ s := no_op s;
  strategy_on_reinit _ s := no_op s;
  strategy_on_tick tick ctx _ :=
    logs [Lit ("mm_placeholder.on_tick symbol=" +:+ td_instrument_code tick)] ctx
      (mkMarketMakingStrategy (Some (td_instrument_code tick)));
  strategy_on_bar bar ctx _ :=
    logs [Lit ("mm_placeholder.on_bar symbol=" +:+ kl_symbol bar)] ctx
      (mkMarketMakingStrategy (Some (kl_symbol bar)));
  strategy_on_signal _ _ s := no_op s;
  strategy_on_order_update _ _ s := no_op s;
  strategy_on_balance_update _ _ s := no_op s;
  strategy_on_position_update _ _ s := no_op s;
  strategy_on_timer _ _ s := no_op s;
  strategy_on_pause reason ctx s :=
    logs [Lit ("mm_placeholder.on_pause reason=" +:+ reason +:+ " last_symbol=");
          DebugStr (mms_last_symbol s)] ctx s;
  strategy_on_resume _ _ s := no_op s;
|}.

Record ArbitrageStrategy : Set := mkArbitrageStrategy { arb_signal_count : Z }.

#[export] Instance arbi_strategy {D} : Strategy D ArbitrageStrategy := {|
  strategy_on_create ctx s := logs [Lit "arbi_placeholder.on_create"] ctx s;
  strategy_on_init _ s := no_op s;
  strategy_on_reinit _ s := no_op s;
  strategy_on_tick _ _ s := no_op s;
  strategy_on_bar _ _ s := no_op s;
  strategy_on_signal signal ctx s :=
    let count := wrap_u64 (arb_signal_count s + 1) in
    logs [Lit ("arbi_placeholder.on_signal instrument=" +:+ rs_instrument signal +:+ " count=" +:+
               display_i64 count)] ctx (mkArbitrageStrategy count);
  strategy_on_order_update _ _ s := no_op s;
  strategy_on_balance_update _ _ s := no_op s;
  strategy_on_position_update _ _ s := no_op s;
  strategy_on_timer _ _ s := no_op s;
  strategy_on_pause _ _ s := no_op s;
  strategy_on_resume reason ctx s :=
    logs [Lit ("arbi_placeholder.on_resume reason=" +:+ reason)] ctx s;
|}.

(** ** [zk-strategy-host-rs] *)

Record PythonStrategySpec : Set := mkPythonStrategySpec {
  pss_module : string;
  pss_class_name : string;
  pss_config_json : option string;
}.

Inductive StrategySpec : Set :=
| SpecNoop
| SpecSmokeTest
| SpecMm
| SpecArbi
| SpecPython (spec : PythonStrategySpec).

(** The next part of an entry point, which must not be empty. *)
Definition next_part (parts : list string) : option (string * list string) :=
  match parts with
  | p :: parts => if is_empty p then None else Some (p, parts)
  | [] => None
  end.

Definition parse_python_entrypoint (key : string) : result StrategySpec string :=
  match strip_prefix "python:" key with
  | None => Err ("invalid python entrypoint: " +:+ key)
  | Some raw =>
      match next_part (split_on 0x3A raw) with
      | None => Err ("python strategy entrypoint is missing module: " +:+ key)
      | Some (modul, parts) =>
          match next_part parts with
          | None => Err ("python strategy entrypoint is missing class: " +:+ key)
          | Some (class_name, []) => Ok (SpecPython (mkPythonStrategySpec modul class_name None))
          | Some (_, _ :: _) => Err ("invalid python strategy entrypoint: " +:+ key)
          end
      end
  end.

Definition parse_strategy_spec (key : string) : result StrategySpec string :=
  if String.eqb key "smoke-test" then Ok SpecSmokeTest
  else if String.eqb key "mm" then Ok SpecMm
  else if String.eqb key "arbi" then Ok SpecArbi
  else if String.eqb key "python-wrapper" then Ok (SpecPython (mkPythonStrategySpec "" "" None))
  else if String.eqb key "noop" || String.eqb key "" then Ok SpecNoop
  else if has_prefix "python:" key then parse_python_entrypoint key
  else Err ("unknown strategy type key: " +:+ key).

(** [Box<dyn Strategy>], without the [python] feature. *)
Inductive BuiltStrategy : Type :=
| BuiltNoop (s : NoopStrategy)
| BuiltSmokeTest (s : SmokeTestStrategy)
| BuiltMm (s : MarketMakingStrategy)
| BuiltArbi (s : ArbitrageStrategy).

(** [config_from_str] is [serde_json::from_str::<SmokeMMConfig>]. *)
Definition build_strategy (config_from_str : string → result SmokeMMConfig string)
    (spec : StrategySpec) (config_json : option string) : result BuiltStrategy string :=
  match spec with
  | SpecNoop => Ok (BuiltNoop (mkNoopStrategy))
  | SpecSmokeTest =>
      match config_json with
      | Some json =>
          if trim_is_empty json then Ok (BuiltSmokeTest SmokeTestStrategy.new)
          else match config_from_str json with
               | Ok config => Ok (BuiltSmokeTest (SmokeTestStrategy.with_config config))
               | Err e => Err e
               end
      | None => Ok (BuiltSmokeTest SmokeTestStrategy.new)
      end
  | SpecMm => Ok (BuiltMm (mkMarketMakingStrategy None))
  | SpecArbi => Ok (BuiltArbi (mkArbitrageStrategy 0))
  | SpecPython _ => Err "python strategy support is disabled; enable zk-strategy-host-rs/python"
  end.

(** [resolve_python_strategy_spec], of the [python] feature: the module, the class
    and the configuration.  [json_from_str] is [serde_json::from_str::<Value>]. *)
Record ResolvedPythonStrategySpec : Set := mkResolvedPythonStrategySpec {
  rps_module : string;
  rps_class_name : string;
  rps_strategy_config : Value;
}.

Definition nonempty_field (key : string) (obj : list (string * Value)) : option string :=
  v ← field key obj ≫= as_str; if is_empty v then None else Some v.

Definition resolve_python_strategy_spec (json_from_str : string → result Value string)
    (spec : PythonStrategySpec) (config_json : option string)
    : result ResolvedPythonStrategySpec string :=
  let effective := match config_json with Some j => Some j | None => pss_config_json spec end in
  let parsed :=
    match effective with
    | Some json => if trim_is_empty json then Ok JNull else json_from_str json
    | None => Ok JNull
    end in
  match parsed with
  | Err e => Err e
  | Ok parsed =>
      if is_empty (pss_module spec) || is_empty (pss_class_name spec) then
        match as_object parsed with
        | None => Err "python-wrapper config must be a JSON object"
        | Some obj =>
            match nonempty_field "python_module" obj with
            | None => Err "python-wrapper config is missing python_module"
            | Some modul =>
                match nonempty_field "python_class" obj with
                | None => Err "python-wrapper config is missing python_class"
                | Some class_name =>
                    Ok (mkResolvedPythonStrategySpec modul class_name
                          (default (JObject []) (field "python_strategy_config" obj)))
                end
            end
        end
      else Ok (mkResolvedPythonStrategySpec (pss_module spec) (pss_class_name spec) parsed)
  end.

(** ** What the engine service prefetches ([zk-engine-svc/src/runtime.rs]) *)

Record KlinePrefetchRequest : Set := mkKlinePrefetchRequest {
  kpr_instrument_id : string;
  kpr_interval : string;
  kpr_limit : Z;
}.

Definition strategy_config_root (strategy_type_key : string) (parsed : Value) : option Value :=
  if String.eqb strategy_type_key "python-wrapper" then get "python_strategy_config" parsed
  else Some parsed.

Definition extract_kline_prefetch_request (json_from_str : string → result Value string)
    (strategy_type_key strategy_config_json : string) : option KlinePrefetchRequest :=
  parsed ← (if trim_is_empty strategy_config_json then Some JNull
            else match json_from_str strategy_config_json with Ok v => Some v | Err _ => None end);
  strategy_cfg ← strategy_config_root strategy_type_key parsed;
  obj ← as_object strategy_cfg;
  instrument_id ← field "symbol" obj ≫= as_str;
  let interval :=
    match nonempty_field "init_kline_interval" obj with
    | Some i => Some i
    | None => field "kline_interval" obj ≫= as_str
    end in
  Some (mkKlinePrefetchRequest instrument_id (default "1m" interval)
          (wrap_u32 (default 0 (field "init_lookback_bars" obj ≫= as_u64)))).

(** The [match] on [value.to_ascii_lowercase()]. *)
Definition parse_instrument_type (value : string) : Z :=
  let same := eq_ignore_ascii_case value in
  if same "spot" then InstTypeSpot
  else if same "perp" || same "perpetual" then InstTypePerp
  else if same "future" then InstTypeFuture
  else if same "option" then InstTypeOption
  else if same "cfd" then InstTypeCfd
  else 0.
