(* ===== verification/StrategyFacts.v ===== *)
(** * Properties of the strategies

    The smoke-test strategy never panics, quotes in pairs and only while it is
    not paused, and forgets no order: every order it placed is in one of its slots,
    was cancelled by it or was reported ended.  What the live engine delivers
    resumes a strategy only after it paused it.  And the keys of the strategy
    host. *)

From S2P Require Import Prelude F64 Proto Models Utils Text Json Collections Rtmd Strategy Strategies.
From S2P Require Import Engine EngineFacts.

(** ** What actions ask for *)

Definition order_of (a : SAction.t) : option StrategyOrder :=
  match a with SAction.PlaceOrder o => Some o | _ => None end.
Definition cancel_of (a : SAction.t) : option Z :=
  match a with SAction.Cancel c => Some (sca_order_id c) | _ => None end.

Definition orders (actions : list SAction.t) : list StrategyOrder := omap order_of actions.
Definition placed (actions : list SAction.t) : list Z := so_order_id <$> orders actions.
Definition cancelled (actions : list SAction.t) : list Z := omap cancel_of actions.

Lemma orders_app (l k : list SAction.t) : orders (l ++ k) = orders l ++ orders k.
Proof. apply omap_app. Qed.
Lemma placed_app (l k : list SAction.t) : placed (l ++ k) = placed l ++ placed k.
Proof. unfold placed. by rewrite orders_app, fmap_app. Qed.
Lemma cancelled_app (l k : list SAction.t) : cancelled (l ++ k) = cancelled l ++ cancelled k.
Proof. apply omap_app. Qed.

(** A buy and a sell quote of one symbol, the buy price positive and below the sell price. *)
Definition quote_pair (config : SmokeMMConfig) (buy sell : StrategyOrder) : Prop :=
  so_side buy = BsBuy ∧ so_side sell = BsSell ∧
  so_symbol sell = so_symbol buy ∧ so_account_id sell = so_account_id buy ∧
  so_qty buy = smc_quote_qty config ∧ so_qty sell = smc_quote_qty config ∧
  f64.leb (so_price buy) f64.zero = false ∧ f64.leb (so_price sell) (so_price buy) = false.

Fixpoint quote_pairs (config : SmokeMMConfig) (l : list StrategyOrder) : Prop :=
  match l with
  | [] => True
  | buy :: sell :: l => quote_pair config buy sell ∧ quote_pairs config l
  | [_] => False
  end.

Lemma quote_pairs_app config l k :
  quote_pairs config l → quote_pairs config k → quote_pairs config (l ++ k).
Proof.
  revert l. fix IH 1. intros [|buy [|sell l]] Hl Hk; [done|done|].
  simpl in *. destruct Hl as [? Hl]. split; [done|]. by apply IH.
Qed.

Section smoke.
Context {D : Type} `{!HashIter Z, !HashIter string, !HashIterOk string}.
Notation Ctx := (StrategyContext D).
Implicit Types (s : SmokeTestStrategy) (ctx : Ctx).

(** An order in one of the slots. *)
Definition tracked s (id : Z) : Prop :=
  ∃ sym ss, sm_symbols s !! sym = Some ss ∧ id ∈ SymbolState.active_order_ids ss.

(** A symbol without quotes. *)
Definition idle s (sym : string) : Prop :=
  ∃ ss, sm_symbols s !! sym = Some ss ∧ SymbolState.active_order_ids ss = [].

(** What a method of the strategy does between two states: it keeps its configuration,
    pauses and symbols; it forgets no order except those it cancels and [ended];
    and it places pairs of quotes, of an account with few open orders. *)
Record quoted ctx (ended : list Z) s (actions : list SAction.t) s' : Prop := {
  qt_config : sm_config s' = sm_config s;
  qt_enabled : sm_quoting_enabled s' = sm_quoting_enabled s;
  qt_symbols : dom (sm_symbols s) ⊆ dom (sm_symbols s');
  qt_kept id : tracked s id ∨ id ∈ placed actions → tracked s' id ∨ id ∈ cancelled actions ∨ id ∈ ended;
  qt_pairs : quote_pairs (sm_config s) (orders actions);
  qt_limit : Forall (λ o, (length (StrategyContext.get_open_orders (so_account_id o) ctx) ≤ 4)%nat)
               (orders actions);
}.

Lemma quoted_silent ctx s actions :
  orders actions = [] → cancelled actions = [] → quoted ctx [] s actions s.
Proof.
  intros Ho Hc. split; [done..| |by rewrite Ho|by rewrite Ho].
  intros id [?|Hid]; [by left|]. unfold placed in Hid. by rewrite Ho, elem_of_nil in Hid.
Qed.

Lemma quoted_trans ctx e1 e2 s a s1 b s2 :
  quoted ctx e1 s a s1 → quoted ctx e2 s1 b s2 → quoted ctx (e1 ++ e2) s (a ++ b) s2.
Proof.
  intros [Hc1 He1 Hd1 Hk1 Hp1 Hl1] [Hc2 He2 Hd2 Hk2 Hp2 Hl2]. split.
  - congruence.
  - congruence.
  - set_solver.
  - intros id. rewrite placed_app, cancelled_app, !elem_of_app. specialize (Hk1 id). specialize (Hk2 id). tauto.
  - rewrite orders_app. rewrite Hc1 in Hp2. by apply quote_pairs_app.
  - rewrite orders_app. by apply Forall_app.
Qed.

(** The state of one symbol replaced. *)
Lemma tracked_insert s sym ss id :
  tracked (s <| sm_symbols ::= <[sym := ss]> |>) id ↔
  id ∈ SymbolState.active_order_ids ss ∨
  ∃ sym' ss', sym' ≠ sym ∧ sm_symbols s !! sym' = Some ss' ∧ id ∈ SymbolState.active_order_ids ss'.
Proof.
  unfold tracked. simpl. setoid_rewrite lookup_insert_Some. naive_solver.
Qed.

Lemma tracked_lookup s sym ss id :
  sm_symbols s !! sym = Some ss →
  tracked s id ↔ id ∈ SymbolState.active_order_ids ss ∨
  ∃ sym' ss', sym' ≠ sym ∧ sm_symbols s !! sym' = Some ss' ∧ id ∈ SymbolState.active_order_ids ss'.
Proof.
  intros Hs. unfold tracked. split; [|naive_solver].
  intros (sym' & ss' & Hs' & Hid). destruct (decide (sym' = sym)) as [->|]; [|naive_solver].
  left. congruence.
Qed.

Lemma place_quotes_quoted sym bid ask ctx acc ts s ids :
  idle s sym →
  returns (SmokeTestStrategy.place_quotes sym bid ask ctx acc ts s ids) (λ r,
    quoted ctx [] s r.1.1 r.1.2 ∧ ∀ sym', sym' ≠ sym → sm_symbols r.1.2 !! sym' = sm_symbols s !! sym').
Proof.
  intros (ss & Hs & Hidle). unfold SmokeTestStrategy.place_quotes. cbv zeta.
  destruct (MAX_OPEN_ORDERS_BEFORE_PAUSE <? _)%nat eqn:Hlim;
    [by split; [apply quoted_silent|]|].
  apply Nat.ltb_ge in Hlim. destruct (SmokeTestStrategy.quote_prices _ _ _ _ _) as [[qb qa]|] eqn:Hq;
    [|by split; [apply quoted_silent|]].
  unfold SmokeTestStrategy.quote_prices in Hq. cbv zeta in Hq.
  destruct (f64.leb _ f64.zero || _) eqn:Hle; [done|]. injection Hq as <- <-.
  apply orb_false_iff in Hle as [Hpos Hlt]. rewrite Hs. simpl.
  split; [|intros sym' Hne; by rewrite lookup_insert_ne]. split; simpl; [done|done| | | |].
  - rewrite dom_insert_L. set_solver.
  - intros id Hid. left. rewrite tracked_insert, (tracked_lookup _ _ _ _ Hs) in *. simpl.
    rewrite Hidle in Hid. set_solver.
  - by split.
  - by rewrite !Forall_cons, Forall_nil.
Qed.


(** Cancelling the quotes of a symbol leaves it idle. *)
Lemma cancelled_bind (ts acc : Z) (sym : string) (oids : list Z) :
  cancelled (oids ≫= λ oid,
    [SmokeTestStrategy.log [Lit ("smoke_mm.cancel symbol=" +:+ sym +:+ " order_id=" +:+ display_i64 oid)] ts;
     SAction.Cancel (mkStrategyCancel oid acc)]) = oids ∧
  orders (oids ≫= λ oid,
    [SmokeTestStrategy.log [Lit ("smoke_mm.cancel symbol=" +:+ sym +:+ " order_id=" +:+ display_i64 oid)] ts;
     SAction.Cancel (mkStrategyCancel oid acc)]) = [].
Proof.
  induction oids as [|oid oids [IHc IHo]]; [done|]. rewrite bind_cons, cancelled_app, orders_app, IHc, IHo.
  done.
Qed.

Lemma cancel_quotes_spec sym acc ts ss :
  let '(actions, ss') := SmokeTestStrategy.cancel_quotes sym acc ts ss in
  cancelled actions = SymbolState.active_order_ids ss ∧ orders actions = [] ∧
  SymbolState.active_order_ids ss' = [].
Proof.
  unfold SmokeTestStrategy.cancel_quotes. cbv zeta.
  destruct (cancelled_bind ts acc sym (SymbolState.active_order_ids ss)) as [Hc Ho]. by split_and!.
Qed.

Lemma cancel_symbol_quoted ctx sym acc ts s :
  is_Some (sm_symbols s !! sym) →
  let '(actions, s') := SmokeTestStrategy.cancel_symbol sym acc ts s in
  quoted ctx [] s actions s' ∧ idle s' sym.
Proof.
  intros [ss Hs]. unfold SmokeTestStrategy.cancel_symbol. rewrite Hs.
  pose proof (cancel_quotes_spec sym acc ts ss) as Hspec.
  destruct (SmokeTestStrategy.cancel_quotes sym acc ts ss) as [actions ss'].
  destruct Hspec as (Hc & Ho & Hidle). split.
  - split; simpl; [done|done|rewrite dom_insert_L; set_solver| |by rewrite Ho|by rewrite Ho].
    intros id. rewrite tracked_insert, (tracked_lookup _ _ _ _ Hs), Hc. unfold placed. rewrite Ho. set_solver.
  - exists ss'. simpl. by rewrite lookup_insert_eq.
Qed.

Lemma cancel_all_quoted ctx acc ts s :
  let '(actions, s') := SmokeTestStrategy.cancel_all acc ts s in
  quoted ctx [] s actions s' ∧ orders actions = [] ∧ ∀ id, ¬ tracked s' id.
Proof.
  unfold SmokeTestStrategy.cancel_all.
  set (f := λ '(actions, s) '(sym, ss), _ : list SAction.t * SmokeTestStrategy).
  assert (∀ l actions s1, quoted ctx [] s actions s1 → orders actions = [] →
    (∀ sym ss, (sym, ss) ∈ l → sm_symbols s !! sym = Some ss) →
    (∀ sym ss, sm_symbols s1 !! sym = Some ss → SymbolState.active_order_ids ss = [] ∨
       (sm_symbols s !! sym = Some ss ∧ (sym, ss) ∈ l)) →
    let '(actions, s') := foldl f (actions, s1) l in
    quoted ctx [] s actions s' ∧ orders actions = [] ∧ ∀ id, ¬ tracked s' id) as Hloop.
  2: { apply Hloop; [by apply quoted_silent|done| |]; setoid_rewrite elem_of_hash_iter; naive_solver. }
  induction l as [|[sym ss] l IH]; intros actions s1 Hq Hnone Hl Hs1.
  { split; [done|]. split; [done|]. intros id (sym & ss & Hs & Hid). destruct (Hs1 sym ss Hs) as [Hn|[_ Hn]].
    - by rewrite Hn, elem_of_nil in Hid.
    - by apply elem_of_nil in Hn. }
  cbn [foldl]. unfold f at 2. pose proof (cancel_quotes_spec sym acc ts ss) as Hspec.
  destruct (SmokeTestStrategy.cancel_quotes sym acc ts ss) as [more ss'].
  destruct Hspec as (Hc & Ho & Hidle). apply IH.
  - assert (sm_symbols s !! sym = Some ss) as Hs by (apply Hl; left).
    destruct Hq as [Hc1 He1 Hd1 Hk1 Hp1 Hl1].
    split; simpl; [done|done|rewrite dom_insert_L; set_solver| | |].
    + intros id Hid. rewrite cancelled_app, Hc, elem_of_app, tracked_insert.
      rewrite placed_app, elem_of_app in Hid. unfold placed at 2 in Hid. rewrite Ho in Hid.
      destruct (Hk1 id) as [(sym' & ss1 & Hs' & Hin)|[?|?]]; [set_solver| |set_solver|set_solver].
      destruct (decide (sym' = sym)) as [->|Hne]; [|naive_solver].
      destruct (Hs1 sym ss1 Hs') as [Hn|[Hs2 _]]; [by rewrite Hn, elem_of_nil in Hin|].
      assert (ss1 = ss) as -> by congruence. auto.
    + by rewrite orders_app, Ho, app_nil_r.
    + by rewrite orders_app, Ho, app_nil_r.
  - by rewrite orders_app, Ho, app_nil_r.
  - intros sym' ss1 Hin. apply Hl. by right.
  - intros sym' ss1. simpl. rewrite lookup_insert_Some. intros [[<- <-]|[Hne Hs']]; [by left|].
    destruct (Hs1 sym' ss1 Hs') as [?|[? Hin]]; [by left|right]. split; [done|].
    apply elem_of_cons in Hin as [[=]|?]; [congruence|done].
Qed.

(** ** The callbacks *)

Lemma replace_quoted ctx s sym ss ss' actions :
  sm_symbols s !! sym = Some ss →
  SymbolState.active_order_ids ss' = SymbolState.active_order_ids ss →
  orders actions = [] → cancelled actions = [] →
  quoted ctx [] s actions (s <| sm_symbols ::= <[sym := ss']> |>).
Proof.
  intros Hs Ha Ho Hc. split; simpl; [done|done|rewrite dom_insert_L; set_solver| |by rewrite Ho|by rewrite Ho].
  intros id. unfold placed. rewrite Ho, tracked_insert, Ha, (tracked_lookup _ _ _ _ Hs). set_solver.
Qed.

Lemma books_known s book : book ∈ SmokeTestStrategy.books s → is_Some (sm_symbols s !! book.1.1).
Proof.
  intros ([sym ss] & -> & Hin)%list_elem_of_fmap. exists ss. by apply elem_of_hash_iter.
Qed.

Lemma books_NoDup s : NoDup (SmokeTestStrategy.books s).*1.*1.
Proof.
  assert ((SmokeTestStrategy.books s).*1.*1 = (hash_iter (sm_symbols s)).*1) as ->.
  { unfold SmokeTestStrategy.books. rewrite <- !list_fmap_compose. by apply list_fmap_ext; intros ? []. }
  rewrite (hash_iter_perm _ (sm_symbols s)). apply NoDup_fst_map_to_list.
Qed.

Lemma refresh_quoted ctx acc ts s0 actions s ids book :
  quoted ctx [] s0 actions s → is_Some (sm_symbols s !! book.1.1) →
  returns (SmokeTestStrategy.refresh ctx acc ts (actions, s, ids) book) (λ r, quoted ctx [] s0 r.1.1 r.1.2).
Proof.
  intros Hq Hk. destruct book as [[sym bid] ask]. unfold SmokeTestStrategy.refresh.
  pose proof (cancel_symbol_quoted ctx sym acc ts s Hk) as Hcancel.
  destruct (SmokeTestStrategy.cancel_symbol sym acc ts s) as [cancels s1].
  destruct Hcancel as [Hq1 Hidle]. destruct (SmokeTestStrategy.quotable bid ask).
  - apply returns_bind. eapply returns_mono; [by apply place_quotes_quoted|].
    intros [[quotes s2] ids2] [Hq2 _]. simpl in *.
    eapply (quoted_trans ctx [] []); [exact Hq|]. by eapply (quoted_trans ctx [] []).
  - eapply (quoted_trans ctx [] []); [exact Hq|].
    eapply (quoted_trans ctx [] []); [exact Hq1|]. by apply quoted_silent.
Qed.

Lemma on_timer_quoted event ctx s :
  returns (SmokeTestStrategy.on_timer event ctx s) (λ r,
    quoted ctx [] s r.1.1 r.1.2 ∧ (sm_quoting_enabled s = false → orders r.1.1 = [] ∧ r.1.2 = s)).
Proof.
  unfold SmokeTestStrategy.on_timer. cbv zeta.
  destruct (negb _); [by split; [apply quoted_silent|]|].
  destruct (sm_quoting_enabled s) eqn:Hen; cbn [negb]; [|by split; [apply quoted_silent|]].
  destruct (sm_account_id s) as [acc|]; [|by split; [apply quoted_silent|]].
  eapply (returns_mono _ (λ r, quoted ctx [] s r.1.1 r.1.2)); [|done].
  apply returns_for_each; [by apply quoted_silent|].
  intros [[actions s1] ids] book Hin Hq. apply refresh_quoted; [done|].
  apply books_known, elem_of_dom in Hin. apply elem_of_dom. by apply (qt_symbols _ _ _ _ _ Hq).
Qed.

Lemma requote_loop_quoted ctx acc l s0 actions s ids :
  quoted ctx [] s0 actions s → NoDup l.*1.*1 → Forall (λ book, idle s book.1.1) l →
  returns (for_each (SmokeTestStrategy.requote ctx acc) l (actions, s, ids)) (λ r,
    quoted ctx [] s0 r.1.1 r.1.2).
Proof.
  revert actions s ids. induction l as [|[[sym bid] ask] l IH]; intros actions s ids Hq Hnd Hidle; [done|].
  cbn [for_each]. apply Forall_cons in Hidle as [Hi Hidle].
  apply NoDup_cons in Hnd as [Hnin Hnd]. apply returns_bind. cbn [SmokeTestStrategy.requote].
  destruct (SmokeTestStrategy.quotable bid ask); [|by apply IH].
  apply returns_bind. eapply returns_mono; [by apply place_quotes_quoted|].
  intros [[quotes s1] ids1] [Hq1 Hother]. simpl in *. apply IH; [by eapply (quoted_trans ctx [] [])|done|].
  apply Forall_forall. intros book Hin. rewrite Forall_forall in Hidle.
  destruct (Hidle book Hin) as (ss & Hs & Ha). exists ss. rewrite Hother; [done|].
  intros Heq. apply Hnin. rewrite <- Heq. apply list_elem_of_fmap. eexists. split; [done|].
  by apply list_elem_of_fmap_2.
Qed.

Lemma on_resume_quoted reason ctx s :
  (∀ id, ¬ tracked s id) →
  returns (SmokeTestStrategy.on_resume reason ctx s) (λ r,
    quoted ctx [] (s <| sm_quoting_enabled := true |>) r.1.1 r.1.2).
Proof.
  intros Hno. unfold SmokeTestStrategy.on_resume. cbv zeta.
  set (s1 := s <| sm_quoting_enabled := true |>).
  destruct (sm_account_id s1) as [acc|]; [|by apply quoted_silent].
  apply requote_loop_quoted; [by apply quoted_silent|apply books_NoDup|].
  apply Forall_forall. intros book [ss Hs]%books_known. exists ss. split; [done|].
  destruct (SymbolState.active_order_ids ss) as [|id ids] eqn:Ha; [done|].
  destruct (Hno id). exists book.1.1, ss. split; [done|]. rewrite Ha. left.
Qed.

(** The new prices of a symbol. *)
Lemma book_quoted ctx s sym bid ask :
  let ss := default (SymbolState.new bid ask) (sm_symbols s !! sym) in
  let s' := s <| sm_symbols ::= <[sym := ss <| sy_best_bid := bid |> <| sy_best_ask := ask |>]> |> in
  quoted ctx [] s [] s' ∧ (∀ id, tracked s' id → tracked s id) ∧
  (sm_symbols s !! sym = None → idle s' sym).
Proof.
  cbv zeta. destruct (sm_symbols s !! sym) as [ss|] eqn:Hs; simpl.
  - split_and!; [by apply (replace_quoted ctx s sym ss)| |done].
    intros id. by rewrite tracked_insert, (tracked_lookup _ _ _ _ Hs).
  - split_and!.
    + split; simpl; [done|done|rewrite dom_insert_L; set_solver| |done|done].
      intros id [(sym' & ss & Hs' & Hid)|Hid]; [|by apply elem_of_nil in Hid].
      left. exists sym', ss. simpl. rewrite lookup_insert_ne; [done|congruence].
    + intros id [Hid|(sym' & ss & _ & Hs' & Hid)]%tracked_insert; [by apply elem_of_nil in Hid|].
      by exists sym', ss.
    + intros _. eexists. simpl. by rewrite lookup_insert_eq.
Qed.

Lemma on_tick_quoted tick ctx s :
  returns (SmokeTestStrategy.on_tick tick ctx s) (λ r,
    quoted ctx [] s r.1.1 r.1.2 ∧
    (sm_quoting_enabled s = false → orders r.1.1 = [] ∧ ∀ id, tracked r.1.2 id → tracked s id)).
Proof.
  unfold SmokeTestStrategy.on_tick. cbv zeta.
  destruct (SmokeTestStrategy.extract_bbo tick) as [[bid ask]|]; [|by split; [apply quoted_silent|]].
  destruct (book_quoted ctx s (td_instrument_code tick) bid ask) as (Hq & Hback & Hnew).
  set (s1 := s <| sm_symbols ::= _ |>) in *.
  change (sm_quoting_enabled s1) with (sm_quoting_enabled s).
  destruct (sm_quoting_enabled s) eqn:Hen; cbn [negb]; [|done].
  case_bool_decide as Hs; [|done]. specialize (Hnew Hs).
  change (sm_account_id s1) with (sm_account_id s).
  assert (∀ log, orders log = [] → cancelled log = [] → quoted ctx [] s log s1) as Hsilent.
  { intros log Ho Hc. eapply (quoted_trans ctx [] [] s []); [exact Hq|by apply quoted_silent]. }
  destruct (match sm_account_id s with Some a => Some a | None => _ end) as [acc|];
    [|by split; [apply Hsilent|]].
  set (s2 := s1 <| sm_account_id := Some acc |>).
  assert (quoted ctx [] s [] s2) as Hq2.
  { destruct Hq as [Hc He Hd Hk Hp Hl]. by split. }
  eapply returns_mono; [by apply (place_quotes_quoted _ _ _ ctx _ _ s2)|].
  intros [[actions s3] ids] [Hq3 _]. split; [by eapply (quoted_trans ctx [] [] s [])|done].
Qed.

Lemma find_order_Some id s sym is_buy :
  SmokeTestStrategy.find_order id s = Some (sym, is_buy) →
  ∃ ss, sm_symbols s !! sym = Some ss ∧ id ∈ SymbolState.active_order_ids ss.
Proof.
  unfold SmokeTestStrategy.find_order. intros Hh.
  apply head_Some_elem_of, list_elem_of_omap in Hh as ([sym' ss] & Hin & Hside).
  apply elem_of_hash_iter in Hin. exists ss. unfold SymbolState.active_order_ids.
  case_bool_decide as Hb; [|case_bool_decide as Hsl; [|done]];
    injection Hside as -> _; (split; [done|]); rewrite elem_of_app.
  - left. rewrite Hb. simpl. set_solver.
  - right. rewrite Hsl. simpl. set_solver.
Qed.

Lemma apply_fill_quoted sym is_buy qty ctx ts s ss :
  sm_symbols s !! sym = Some ss →
  returns (SmokeTestStrategy.apply_fill sym is_buy qty ctx ts s) (λ r, quoted ctx [] s [r.1] r.2).
Proof.
  intros Hs. unfold SmokeTestStrategy.apply_fill. rewrite Hs. simpl. by apply (replace_quoted ctx s sym ss).
Qed.

Lemma track_fill_quoted update sym is_buy ctx s ss :
  sm_symbols s !! sym = Some ss →
  returns (SmokeTestStrategy.track_fill update sym is_buy ctx s) (λ r, quoted ctx [] s r.1 r.2).
Proof.
  intros Hs. unfold SmokeTestStrategy.track_fill. cbv zeta.
  destruct (oue_last_trade update) as [trade|].
  { destruct (f64.ltb _ _); [|by apply quoted_silent]. apply returns_bind.
    eapply returns_mono; [by eapply apply_fill_quoted|]. by intros [action s1] Hq. }
  destruct (oue_order_snapshot update) as [snap|]; [|by apply quoted_silent].
  rewrite Hs. simpl. destruct (f64.ltb _ _); [|by apply quoted_silent].
  set (ss1 := ss <| sy_last_filled_qty ::= _ |>).
  assert (quoted ctx [] s [] (s <| sm_symbols ::= <[sym := ss1]> |>)) as Hq
    by (by apply (replace_quoted ctx s sym ss)).
  apply returns_bind. eapply returns_mono.
  { eapply apply_fill_quoted. simpl. apply lookup_insert_eq. }
  intros [action s1] Hq1. by eapply (quoted_trans ctx [] [] s []).
Qed.

Lemma clear_order_quoted ctx id s sym ss :
  sm_symbols s !! sym = Some ss →
  quoted ctx [id] s [] (s <| sm_symbols ::= <[sym := SmokeTestStrategy.clear_order id ss]> |>).
Proof.
  intros Hs. split; simpl; [done|done|rewrite dom_insert_L; set_solver| |done|done].
  intros id' [Hid|Hid]; [|by apply elem_of_nil in Hid]. rewrite tracked_insert.
  rewrite (tracked_lookup _ _ _ _ Hs) in Hid. destruct Hid as [Hid|Hid]; [|by left; right].
  destruct (decide (id' = id)) as [->|Hne]; [right; right; set_solver|]. left. left.
  unfold SymbolState.active_order_ids, SmokeTestStrategy.clear_order in *. simpl.
  rewrite elem_of_app in *. destruct Hid as [Hid|Hid]; [left|right].
  - destruct (sy_buy_order_id ss) as [o|]; [|done]. simpl in Hid. apply list_elem_of_singleton in Hid as ->.
    rewrite bool_decide_false by congruence. set_solver.
  - destruct (sy_sell_order_id ss) as [o|]; [|done]. simpl in Hid. apply list_elem_of_singleton in Hid as ->.
    rewrite bool_decide_false by congruence. set_solver.
Qed.

Lemma maybe_requote_quoted sym ctx acc ts s ids :
  is_Some (sm_symbols s !! sym) →
  returns (SmokeTestStrategy.maybe_requote_on_both_cleared sym ctx acc ts s ids) (λ r,
    quoted ctx [] s r.1.1 r.1.2).
Proof.
  intros [ss Hs]. unfold SmokeTestStrategy.maybe_requote_on_both_cleared. rewrite Hs. simpl.
  destruct (sy_buy_order_id ss) eqn:Hb; [by apply quoted_silent|].
  destruct (sy_sell_order_id ss) eqn:Hsl; [by apply quoted_silent|].
  destruct (_ && _); [|by apply quoted_silent].
  eapply returns_mono; [apply place_quotes_quoted|by intros r [? _]].
  exists ss. split; [done|]. unfold SymbolState.active_order_ids. by rewrite Hb, Hsl.
Qed.

(** The order an update reports ended. *)
Definition ended_by (update : OrderUpdateEvent) : list Z :=
  if SmokeTestStrategy.update_is_terminal update then [oue_order_id update] else [].

Lemma on_order_update_quoted update ctx s :
  returns (SmokeTestStrategy.on_order_update update ctx s) (λ r,
    quoted ctx (ended_by update) s r.1.1 r.1.2 ∧ ((∀ id, ¬ tracked s id) → orders r.1.1 = [] ∧ r.1.2 = s)).
Proof.
  unfold SmokeTestStrategy.on_order_update. cbv zeta.
  assert (∀ actions, orders actions = [] → cancelled actions = [] →
    quoted ctx (ended_by update) s actions s) as Hsilent.
  { intros actions Ho Hc. rewrite <- (app_nil_r actions).
    eapply (quoted_trans ctx [] (ended_by update)); [by apply quoted_silent|].
    split; [done..| |done|done]. intros id [?|Hid]; [by left|by apply elem_of_nil in Hid]. }
  destruct (SmokeTestStrategy.find_order _ s) as [[sym is_buy]|] eqn:Hf; [|by split; [apply Hsilent|]].
  apply find_order_Some in Hf as (ss & Hs & Hid).
  eapply (returns_mono _ (λ r, quoted ctx (ended_by update) s r.1.1 r.1.2)).
  2: { intros r Hq. split; [done|]. intros Hno. destruct (Hno (oue_order_id update)). by exists sym, ss. }
  apply returns_bind. eapply returns_mono; [by eapply track_fill_quoted|].
  intros [actions s1] Hq1. simpl in Hq1.
  assert (is_Some (sm_symbols s1 !! sym)) as [ss1 Hs1].
  { apply elem_of_dom, (qt_symbols _ _ _ _ _ Hq1), elem_of_dom. by exists ss. }
  unfold ended_by. destruct (SmokeTestStrategy.update_is_terminal update); [|done].
  rewrite Hs1. simpl. set (s2 := s1 <| sm_symbols ::= _ |>).
  assert (quoted ctx [oue_order_id update] s actions s2) as Hq2.
  { rewrite <- (app_nil_r actions). eapply (quoted_trans ctx [] [_]); [exact Hq1|].
    by apply clear_order_quoted. }
  apply returns_bind. eapply returns_mono.
  { apply (maybe_requote_quoted sym ctx _ _ s2). simpl. rewrite lookup_insert_eq. by eexists. }
  intros [[more s3] ids] Hq3. simpl in *. rewrite <- (app_nil_r [oue_order_id update]).
  by eapply quoted_trans.
Qed.
End smoke.

(** ** Runs *)

(** The callbacks of the smoke test. *)
Inductive SmokeEvent : Type :=
| EvCreate
| EvInit
| EvReinit
| EvTick (tick : TickData)
| EvUpdate (update : OrderUpdateEvent)
| EvTimer (event : TimerEvent)
| EvPause (reason : string)
| EvResume (reason : string).

(** The strategy is paused after an event. *)
Definition paused_by (paused : bool) (e : SmokeEvent) : bool :=
  match e with EvPause _ => true | EvResume _ => false | _ => paused end.

(** Every resume follows a pause. *)
Fixpoint resumes_ok (paused : bool) (l : list SmokeEvent) : bool :=
  match l with
  | [] => true
  | e :: l => match e with EvResume _ => paused | _ => true end && resumes_ok (paused_by paused e) l
  end.

(** The orders reported ended. *)
Definition ended (l : list SmokeEvent) : list Z :=
  l ≫= λ e, match e with EvUpdate u => ended_by u | _ => [] end.

Section runs.
Context {D : Type} `{!HashIter Z, !HashIter string, !HashIterOk string}.
Notation Ctx := (StrategyContext D).

Definition smoke_callback (e : SmokeEvent) (ctx : Ctx) (s : SmokeTestStrategy)
    : outcome SmokeTestStrategy.done :=
  match e with
  | EvCreate => SmokeTestStrategy.on_create ctx s
  | EvInit => SmokeTestStrategy.on_init ctx s
  | EvReinit => SmokeTestStrategy.on_reinit ctx s
  | EvTick tick => SmokeTestStrategy.on_tick tick ctx s
  | EvUpdate update => SmokeTestStrategy.on_order_update update ctx s
  | EvTimer event => SmokeTestStrategy.on_timer event ctx s
  | EvPause reason => SmokeTestStrategy.on_pause reason ctx s
  | EvResume reason => SmokeTestStrategy.on_resume reason ctx s
  end.

(** The actions of each callback, and the strategy at the end. *)
Fixpoint smoke_run (l : list (SmokeEvent * Ctx)) (s : SmokeTestStrategy)
    : outcome (list (list SAction.t) * SmokeTestStrategy) :=
  match l with
  | [] => Returns ([], s)
  | (e, ctx) :: l =>
      '(actions, s, _) ← smoke_callback e ctx s;
      '(rest, s) ← smoke_run l s;
      Returns (actions :: rest, s)
  end.

Definition event_ended (e : SmokeEvent) : list Z := ended [e].

(** The strategy quotes unless it is paused, and has no quotes while it is. *)
Definition pause_inv (paused : bool) (s : SmokeTestStrategy) : Prop :=
  sm_quoting_enabled s = negb paused ∧ (paused = true → ∀ id, ¬ tracked s id).

(** What every callback guarantees. *)
Definition callback_ok (config : SmokeMMConfig) (paused : bool) (ctx : Ctx) (actions : list SAction.t) : Prop :=
  quote_pairs config (orders actions) ∧
  Forall (λ o, (length (StrategyContext.get_open_orders (so_account_id o) ctx) ≤ 4)%nat) (orders actions) ∧
  (paused = true → orders actions = []).

(** What a callback does, in a strategy that is [paused] or not. *)
Definition step_ok (paused : bool) (e : SmokeEvent) (ctx : Ctx) (s : SmokeTestStrategy)
    (r : SmokeTestStrategy.done) : Prop :=
  sm_config r.1.2 = sm_config s ∧ pause_inv (paused_by paused e) r.1.2 ∧
  callback_ok (sm_config s) (paused_by paused e) ctx r.1.1 ∧
  ∀ id, tracked s id ∨ id ∈ placed r.1.1 → tracked r.1.2 id ∨ id ∈ cancelled r.1.1 ∨ id ∈ event_ended e.

(** From what its methods do; [s1] is [s] with quoting switched. *)
Lemma quoted_step paused e ctx s s1 r :
  sm_config s1 = sm_config s → sm_symbols s1 = sm_symbols s →
  sm_quoting_enabled s1 = negb (paused_by paused e) →
  quoted ctx (event_ended e) s1 r.1.1 r.1.2 →
  (paused_by paused e = true → orders r.1.1 = [] ∧ ∀ id, ¬ tracked r.1.2 id) →
  step_ok paused e ctx s r.
Proof.
  intros Hc Hs He [Hc' He' Hd Hk Hp Hl] Hpaused. split_and!.
  - congruence.
  - split; [congruence|]. intros Hp'. by apply Hpaused.
  - rewrite Hc in Hp. split_and!; [done|done|]. intros Hp'. by apply Hpaused.
  - intros id Hid. apply Hk. destruct Hid as [(sym & ss & Hss & Hid)|Hid]; [|by right].
    left. exists sym, ss. by rewrite Hs.
Qed.

Lemma smoke_callback_step paused e ctx s :
  pause_inv paused s → (∀ reason, e = EvResume reason → paused = true) →
  returns (smoke_callback e ctx s) (step_ok paused e ctx s).
Proof.
  intros [Hen Hno] Hres. destruct e as [| | |tick|update|event|reason|reason]; cbn [smoke_callback].
  - apply (quoted_step paused EvCreate ctx s s); [done..|by apply quoted_silent|]. auto.
  - apply (quoted_step paused EvInit ctx s s); [done..| |].
    + unfold SmokeTestStrategy.on_init, SmokeTestStrategy.cache_account_id. simpl.
      destruct (sm_account_id s); [by apply quoted_silent|].
      assert (quoted ctx [] s [SmokeTestStrategy.log [] 0] s) as [? ? ? ? ? ?]
        by (by apply quoted_silent). by split.
    + intros Hp. split; [done|]. intros id Htr. apply (Hno Hp id).
      unfold SmokeTestStrategy.on_init, SmokeTestStrategy.cache_account_id in Htr. simpl in Htr.
      by destruct (sm_account_id s).
  - apply (quoted_step paused EvReinit ctx s s); [done..|by apply quoted_silent|]. auto.
  - eapply returns_mono; [apply on_tick_quoted|]. intros r [Hq Hquiet].
    apply (quoted_step paused (EvTick tick) ctx s s); [done..|]. simpl. intros Hp.
    rewrite Hen, Hp in Hquiet. destruct (Hquiet eq_refl) as [Ho Hback]. split; [done|].
    intros id Htr. by apply (Hno Hp id), Hback.
  - eapply returns_mono; [apply on_order_update_quoted|]. intros r [Hq Hquiet].
    apply (quoted_step paused (EvUpdate update) ctx s s); [done..| |].
    + unfold event_ended, ended. cbn. by rewrite app_nil_r.
    + simpl. intros Hp. destruct (Hquiet (Hno Hp)) as [Ho ->]. split; [done|]. by apply Hno.
  - eapply returns_mono; [apply on_timer_quoted|]. intros r [Hq Hquiet].
    apply (quoted_step paused (EvTimer event) ctx s s); [done..|]. simpl. intros Hp.
    rewrite Hen, Hp in Hquiet. destruct (Hquiet eq_refl) as [Ho ->]. split; [done|]. by apply Hno.
  - unfold SmokeTestStrategy.on_pause. cbv zeta. set (s1 := s <| sm_quoting_enabled := false |>).
    pose proof (cancel_all_quoted ctx (default 0 (sm_account_id s1)) (ctx_current_ts_ms ctx) s1) as Hq.
    destruct (SmokeTestStrategy.cancel_all _ _ s1) as [cancels s2]. destruct Hq as (Hq & Ho & Hnone).
    apply (quoted_step paused (EvPause reason) ctx s s1); [done..| |].
    + by eapply (quoted_trans ctx [] [] s1 [_]); [apply quoted_silent|].
    + done.
  - assert (paused = true) as -> by (by apply (Hres reason)).
    eapply returns_mono; [apply on_resume_quoted; by apply Hno|]. intros r Hq.
    by apply (quoted_step true (EvResume reason) ctx s (s <| sm_quoting_enabled := true |>)).
Qed.

(** What a run guarantees: the guarantee of every callback, in the order of the
    events, and the fate of every order. *)
Fixpoint callbacks_ok (config : SmokeMMConfig) (paused : bool) (l : list (SmokeEvent * Ctx))
    (actions : list (list SAction.t)) : Prop :=
  match l, actions with
  | [], [] => True
  | (e, ctx) :: l, a :: actions =>
      callback_ok config (paused_by paused e) ctx a ∧ callbacks_ok config (paused_by paused e) l actions
  | _, _ => False
  end.

Lemma elem_of_ended_cons id e l : id ∈ ended (e :: l) ↔ id ∈ event_ended e ∨ id ∈ ended l.
Proof. unfold event_ended, ended. by rewrite !bind_cons, app_nil_r, elem_of_app. Qed.

Lemma smoke_run_ok l paused s :
  pause_inv paused s → resumes_ok paused l.*1 = true →
  returns (smoke_run l s) (λ '(actions, s'),
    callbacks_ok (sm_config s) paused l actions ∧
    pause_inv (foldl paused_by paused l.*1) s' ∧
    ∀ id, tracked s id ∨ id ∈ placed (concat actions) →
      tracked s' id ∨ id ∈ cancelled (concat actions) ∨ id ∈ ended l.*1).
Proof.
  revert paused s. induction l as [|[e ctx] l IH]; intros paused s Hi Hres.
  { split_and!; [done|done|]. intros id [?|Hid]; [by left|by apply elem_of_nil in Hid]. }
  cbn [fmap list_fmap fst resumes_ok] in Hres. apply andb_true_iff in Hres as [He Hres]. cbn [smoke_run].
  apply returns_bind. eapply returns_mono; [apply (smoke_callback_step paused e ctx s); [done|]|].
  { by intros reason ->. }
  intros [[actions s1] ids] (Hc & Hi1 & Hok & Hk). simpl in Hc, Hi1, Hok, Hk.
  apply returns_bind. eapply returns_mono; [by apply (IH _ _ Hi1)|].
  intros [rest s2] (Hoks & Hi2 & Hk2). rewrite Hc in Hoks. split_and!; [done|done|].
  intros id. cbn [concat]. rewrite placed_app, cancelled_app, !elem_of_app.
  cbn [fmap list_fmap fst]. rewrite elem_of_ended_cons. specialize (Hk id). specialize (Hk2 id). tauto.
Qed.
End runs.


Definition smoke_ctx (next : Z) : StrategyContext unit :=
  (StrategyContext.new [100] []) <| ctx_next_id := next |>.
Definition smoke_tick (symbol : string) : TickData :=
  mkTickData 0 symbol "SIM" 1 1 f64.zero f64.zero f64.zero ""
    [mkPriceLevel (f64.of_Z 100) (f64.of_Z 1) 1 1] [mkPriceLevel (f64.of_Z 101) (f64.of_Z 1) 1 1].
Definition smoke_update (id : Z) (status : OrderStatus) (filled : f64) (trade : option Trade)
    : OrderUpdateEvent :=
  default_OrderUpdateEvent <| oue_order_id := id |> <| oue_last_trade := trade |>
    <| oue_order_snapshot := Some (default_Order <| ord_order_id := id |>
         <| ord_order_status := OrderStatus_i32 status |> <| ord_filled_qty := filled |>) |>.
Definition smoke_events : list (SmokeEvent * StrategyContext unit) :=
  [(EvReinit, smoke_ctx 1); (EvTick (smoke_tick "BTC"), smoke_ctx 1);
   (EvTimer (mkTimerEvent TIMER_KEY 5000), smoke_ctx 3);
   (EvUpdate (smoke_update 3 Filled (f64.of_Z 1) None), smoke_ctx 5);
   (EvPause "op", smoke_ctx 5); (EvTick (smoke_tick "ETH"), smoke_ctx 5); (EvResume "op", smoke_ctx 5)].


(** ** No callback panics *)

Section returns.
Context {D : Type} `{!HashIter Z, !HashIter string, !HashIterOk string}.
Notation Ctx := (StrategyContext D).

Lemma place_quotes_returns sym bid ask (ctx : Ctx) acc ts s ids :
  is_Some (sm_symbols s !! sym) →
  returns (SmokeTestStrategy.place_quotes sym bid ask ctx acc ts s ids) (λ r,
    dom (sm_symbols s) ⊆ dom (sm_symbols r.1.2)).
Proof.
  intros [ss Hs]. unfold SmokeTestStrategy.place_quotes. cbv zeta.
  destruct (_ <? _)%nat; [simpl; set_solver|].
  destruct (SmokeTestStrategy.quote_prices _ _ _ _ _) as [[qb qa]|]; [|simpl; set_solver].
  rewrite Hs. simpl. rewrite dom_insert_L. set_solver.
Qed.

Lemma on_resume_returns reason (ctx : Ctx) s :
  returns (SmokeTestStrategy.on_resume reason ctx s) (λ _, True).
Proof.
  unfold SmokeTestStrategy.on_resume. cbv zeta. set (s1 := s <| sm_quoting_enabled := true |>).
  destruct (sm_account_id s1) as [acc|]; [|done].
  eapply (returns_mono _ (λ r, dom (sm_symbols s1) ⊆ dom (sm_symbols r.1.2))); [|done].
  apply returns_for_each; [simpl; set_solver|]. intros [[actions s2] ids] [[sym bid] ask] Hin Hd.
  apply books_known, elem_of_dom in Hin. cbn [SmokeTestStrategy.requote].
  destruct (SmokeTestStrategy.quotable bid ask); [|done]. apply returns_bind.
  eapply returns_mono; [apply place_quotes_returns, elem_of_dom; by apply Hd|].
  intros [[quotes s3] ids3] Hd'. simpl in *. set_solver.
Qed.

(** Every callback returns in every state, so the strategy is the instance
    [smoke_strategy] on all of its paths. *)
Theorem smoke_callbacks_return (e : SmokeEvent) (ctx : Ctx) s :
  returns (smoke_callback e ctx s) (λ _, True).
Proof.
  destruct e as [| | |tick|update|event|reason|reason]; [done|done|done|..|apply on_resume_returns].
  - eapply returns_mono; [apply on_tick_quoted|done].
  - eapply returns_mono; [apply on_order_update_quoted|done].
  - eapply returns_mono; [apply on_timer_quoted|done].
  - cbn [smoke_callback]. unfold SmokeTestStrategy.on_pause. by destruct (SmokeTestStrategy.cancel_all _ _ _).
Qed.
End returns.

(** ** Under the live engine *)

(** The callback the engine calls for an event it delivers; timers come on their
    own. *)
Definition smoke_event (event : EngineEvent.t) : option SmokeEvent :=
  match event with
  | EngineEvent.Tick tick => Some (EvTick tick)
  | EngineEvent.OrderUpdate update => Some (EvUpdate update)
  | EngineEvent.Control (CtlPause reason) => Some (EvPause reason)
  | EngineEvent.Control (CtlResume reason) => Some (EvResume reason)
  | _ => None
  end.

(** Whatever events it receives, the engine resumes the strategy only after it
    paused it. *)
Theorem engine_resumes_after_pause (paused : bool) (events : list EngineEvent.t) :
  resumes_ok paused (omap smoke_event (deliver paused events).1.1) = true.
Proof.
  revert paused. induction events as [|event events IH]; intros paused; [done|].
  destruct event as [t|b|o|b|po|sg|n|[r|r|r]]; cbn [deliver]; try done;
    match goal with |- context [deliver ?p events] => specialize (IH p) end;
    destruct (deliver _ events) as [[d p] st]; simpl in IH |- *; by destruct paused.
Qed.

(** ** Fills counted twice *)

(** A fill reported with its trade does not update [last_filled_qty]: a later
    update with the order snapshot alone counts it again.  Half of a buy quote is
    filled once, then the order is cancelled. *)
Definition double_events : list (SmokeEvent * StrategyContext unit) :=
  let half := f64.div (f64.of_Z 1) (f64.of_Z 2) in
  [(EvTick (smoke_tick "BTC"), smoke_ctx 1);
   (EvUpdate (smoke_update 1 PartiallyFilled half (Some (default_Trade <| tr_filled_qty := half |>))), smoke_ctx 3);
   (EvUpdate (smoke_update 1 Cancelled half None), smoke_ctx 3)].
Lemma smoke_counts_fill_twice :
  returns (@smoke_run unit canonical_iter canonical_iter double_events SmokeTestStrategy.new) (λ '(_, s),
    sy_internal_position <$> sm_symbols s !! "BTC" = Some (f64.of_Z 1)).
Proof. vm_compute. reflexivity. Qed.

(** ** The strategy host *)

Lemma next_part_Some parts p rest :
  next_part parts = Some (p, rest) ↔ parts = p :: rest ∧ p ≠ "".
Proof.
  destruct parts as [|q parts]; simpl; [naive_solver|].
  destruct q as [|a q]; simpl; split; [done|by intros [[= <- <-] ?]|by intros [= <- <-]|].
  by intros [[= <- <-] ?].
Qed.

Lemma python_entrypoint_exact (key : string) (spec : StrategySpec) :
  parse_python_entrypoint key = Ok spec ↔
  ∃ m c, spec = SpecPython (mkPythonStrategySpec m c None) ∧ key = "python:" +:+ m +:+ ":" +:+ c ∧
    m ≠ "" ∧ c ≠ "" ∧ count_byte 0x3A m = 0%nat ∧ count_byte 0x3A c = 0%nat.
Proof.
  unfold parse_python_entrypoint. split.
  - destruct (strip_prefix "python:" key) as [raw|] eqn:Hraw; [|done]. apply strip_prefix_Some in Hraw as ->.
    destruct (next_part (split_on _ raw)) as [[m parts]|] eqn:Hm; [|done].
    apply next_part_Some in Hm as [Hsplit Hm].
    destruct (next_part parts) as [[c rest]|] eqn:Hc; [|done].
    apply next_part_Some in Hc as [-> Hc]. destruct rest; [|done]. intros [= <-].
    apply split_on_pair in Hsplit as (a & Ha & -> & Hnm & Hnc). exists m, c. split_and!; [done| |done..].
    assert (a = Ascii.ascii_of_N 0x3A) as ->; [|done].
    rewrite <- (Ascii.ascii_N_embedding a). f_equal. unfold byte_of in Ha. lia.
  - intros (m & c & -> & -> & Hm & Hc & Hnm & Hnc).
    assert (strip_prefix "python:" ("python:" +:+ m +:+ ":" +:+ c) = Some (m +:+ ":" +:+ c)) as ->
      by (by apply strip_prefix_Some).
    change (":" +:+ c) with (String (Ascii.ascii_of_N 0x3A) c). rewrite split_on_app, split_on_fresh by done.
    assert (next_part [m; c] = Some (m, [c])) as -> by (by apply next_part_Some).
    assert (next_part [c] = Some (c, [])) as -> by (by apply next_part_Some). done.
Qed.

(** The keys of a Python strategy are exactly the wrapper and the keys
    "python:module:class" with both parts present and free of colons. *)
Theorem python_keys_exact (key : string) (spec : PythonStrategySpec) :
  parse_strategy_spec key = Ok (SpecPython spec) ↔
  (key = "python-wrapper" ∧ spec = mkPythonStrategySpec "" "" None) ∨
  ∃ m c, spec = mkPythonStrategySpec m c None ∧ key = "python:" +:+ m +:+ ":" +:+ c ∧
    m ≠ "" ∧ c ≠ "" ∧ count_byte 0x3A m = 0%nat ∧ count_byte 0x3A c = 0%nat.
Proof.
  split.
  - unfold parse_strategy_spec.
    do 3 (destruct (String.eqb _ _); [done|]).
    destruct (String.eqb_spec key "python-wrapper") as [->|_]; [intros [= <-]; by left|].
    destruct (_ || _); [done|]. destruct (has_prefix _ _); [|done].
    intros (m & c & [= ->] & ?)%python_entrypoint_exact. right. by exists m, c.
  - intros [[-> ->]|(m & c & -> & -> & ?)]; [done|].
    change (parse_strategy_spec ("python:" +:+ m +:+ ":" +:+ c))
      with (parse_python_entrypoint ("python:" +:+ m +:+ ":" +:+ c)).
    apply python_entrypoint_exact. by exists m, c.
Qed.
