(* ===== verification/Registry.v ===== *)
(** * Service registration and its heartbeat

    [zk-infra-rs/src/nats_kv.rs] and [service_registry.rs] with the shutdown
    of the services that use them.

    An instance of a service writes its registration under a key of the
    key-value store, then rewrites it periodically on the condition that the
    revision of the key is the one of its own last write.  The store is a
    parameter, [KvServer], with its documented laws, [KvServerOk]; the network
    may lose a request or its reply ([delivery]). *)

From S2P Require Import Prelude Text.

Definition Bytes : Set := string.

(** ** The key-value store *)

(** [kv_last s k]: the revision of the last message of key [k], 0 if it has
    none.  A deletion is a message too; [kv_expire] drops the messages of a key
    when they reach the age limit of the bucket. *)
Class KvServer : Type := {
  kv_state : Type;
  kv_empty : kv_state;
  kv_seq : kv_state → Z;
  kv_last : string → kv_state → Z;
  kv_put : string → Bytes → kv_state → Z * kv_state;
  kv_update : string → Bytes → Z → kv_state → option Z * kv_state;
  kv_delete : string → kv_state → kv_state;
  kv_expire : string → kv_state → kv_state;
}.

(** A message is appended to [k] with the next sequence number. *)
Definition appended `{KvServer} (k : string) (r : Z) (s s' : kv_state) : Prop :=
  kv_seq s < r ∧ kv_seq s' = r ∧ kv_last k s' = r ∧
  ∀ k', k' ≠ k → kv_last k' s' = kv_last k' s.

Class KvServerOk (S : KvServer) : Prop := {
  kv_empty_seq : kv_seq kv_empty = 0;
  kv_put_ok : ∀ k v s r s', kv_put k v s = (r, s') → appended k r s s';
  kv_update_ok : ∀ k v last s r s', kv_update k v last s = (Some r, s') →
    kv_last k s = last ∧ appended k r s s';
  kv_update_accepts : ∀ k v s s', kv_update k v (kv_last k s) s ≠ (None, s');
  kv_update_refused : ∀ k v last s s', kv_update k v last s = (None, s') → s' = s;
  kv_delete_ok : ∀ k s, ∃ r, appended k r s (kv_delete k s);
  kv_expire_seq : ∀ k s, kv_seq (kv_expire k s) = kv_seq s;
  kv_expire_key : ∀ k s, kv_last k (kv_expire k s) = 0;
  kv_expire_other : ∀ k k' s, k' ≠ k → kv_last k' (kv_expire k s) = kv_last k' s;
}.

(** What becomes of a request: answered, applied but its reply lost, or lost. *)
Inductive delivery : Set := Delivered | ReplyLost | RequestLost.

(** ** [nats_kv.rs] *)

Definition MAX_HEARTBEAT_RETRIES : Z := 5.

(** The text of an error is only logged. *)
Inductive HeartbeatError : Set := HeFenced | HeRetryable.

Inductive HeartbeatTermination : Set := HtFenced | HtRegistryUnavailable.
#[export] Instance HeartbeatTermination_eq_dec : EqDecision HeartbeatTermination.
Proof. solve_decision. Defined.

Module KvRegistryClient.
Section KvRegistryClient.
Context `{KvServer}.

Definition put (net : delivery) (key : string) (value : Bytes) (s : kv_state)
    : result Z unit * kv_state :=
  match net with
  | RequestLost => (Err tt, s)
  | ReplyLost => (Err tt, (kv_put key value s).2)
  | Delivered => let '(revision, s) := kv_put key value s in (Ok revision, s)
  end.

Definition delete (net : delivery) (key : string) (s : kv_state) : result unit unit * kv_state :=
  match net with
  | RequestLost => (Err tt, s)
  | ReplyLost => (Err tt, kv_delete key s)
  | Delivered => (Ok tt, kv_delete key s)
  end.

(** The update of [heartbeat_loop]: only [WrongLastRevision] is fencing. *)
Definition heartbeat_update (net : delivery) (key : string) (value : Bytes) (last_revision : Z)
    (s : kv_state) : result Z HeartbeatError * kv_state :=
  match net with
  | RequestLost => (Err HeRetryable, s)
  | ReplyLost => (Err HeRetryable, (kv_update key value last_revision s).2)
  | Delivered =>
      match kv_update key value last_revision s with
      | (Some revision, s) => (Ok revision, s)
      | (None, s) => (Err HeFenced, s)
      end
  end.
End KvRegistryClient.
End KvRegistryClient.

(** The locals of [heartbeat_loop_inner] and the value of its watch channel. *)
Record Heartbeat : Set := mkHeartbeat {
  hb_revision : Z;
  hb_consecutive_failures : Z;
  hb_termination : option HeartbeatTermination;
}.

Module Heartbeat.
Definition start (initial_revision : Z) : Heartbeat := mkHeartbeat initial_revision 0 None.

Definition running (h : Heartbeat) : bool := bool_decide (hb_termination h = None).

(** The reply to the update of one tick. *)
Definition on_reply (reply : result Z HeartbeatError) (h : Heartbeat) : Heartbeat :=
  match reply with
  | Ok new_rev => mkHeartbeat new_rev 0 (hb_termination h)
  | Err HeFenced =>
      mkHeartbeat (hb_revision h) (hb_consecutive_failures h) (Some HtFenced)
  | Err HeRetryable =>
      let failures := hb_consecutive_failures h + 1 in
      mkHeartbeat (hb_revision h) failures
        (if MAX_HEARTBEAT_RETRIES <=? failures then Some HtRegistryUnavailable
         else hb_termination h)
  end.

(** [heartbeat_loop_inner]: the replies up to the one that ends the loop. *)
Fixpoint run (replies : list (result Z HeartbeatError)) (h : Heartbeat) : Heartbeat :=
  match replies with
  | [] => h
  | reply :: replies => if running h then run replies (on_reply reply h) else h
  end.
End Heartbeat.

(** ** [service_registry.rs] *)

Definition PILOT_DUPLICATE_RETRY_DELAY : Z := 2000.
Definition PILOT_DUPLICATE_RETRY_WINDOW : Z := 50000.

(** Durations and instants in milliseconds. *)
Definition duplicate_retry_delay (status : string) (now deadline : Z) : option Z :=
  if negb (String.eqb status "DUPLICATE") || (deadline <=? now) then None
  else Some (Z.min PILOT_DUPLICATE_RETRY_DELAY (Z.max 0 (deadline - now))).

Record ConfigMetadata : Set := mkConfigMetadata {
  cm_config_version : string;
  cm_config_hash : string;
  cm_loaded_at_ms : Z;
  cm_config_source : string;
  cm_issued_at_ms : Z;
}.
Definition default_ConfigMetadata : ConfigMetadata := mkConfigMetadata "" "" 0 "" 0.

Record SecretRef : Set := mkSecretRef { srf_logical_ref : string; srf_field_key : string }.

Record PilotPayload : Set := mkPilotPayload {
  pp_runtime_config_json : string;
  pp_config_metadata : option ConfigMetadata;
  pp_secret_refs : list SecretRef;
  pp_server_time_ms : Z;
}.

Record BootstrapRegisterResponse : Set := mkBootstrapRegisterResponse {
  brr_owner_session_id : string;
  brr_kv_key : string;
  brr_lock_key : string;
  brr_lease_ttl_ms : Z;
  brr_instance_id : Z;
  brr_scoped_credential : string;
  brr_status : string;
  brr_error_message : string;
  brr_runtime_config : string;
  brr_server_time_ms : Z;
  brr_config_metadata : option ConfigMetadata;
  brr_secret_refs : list SecretRef;
}.

Record PilotBootstrapGrant : Set := mkPilotBootstrapGrant {
  pbg_kv_key : string;
  pbg_lock_key : string;
  pbg_lease_ttl_ms : Z;
  pbg_owner_session_id : string;
  pbg_scoped_credential : string;
  pbg_instance_id : Z;
  pbg_payload : PilotPayload;
}.

Inductive RegistrationError : Set :=
| RegNats
| RegProto
| RegPilot (status message : string).

Record RegistrationGrant : Set := mkRegistrationGrant {
  rg_owner_session_id : string;
  rg_kv_key : string;
  rg_lock_key : string;
  rg_lease_ttl_ms : Z;
  rg_scoped_credential : option string;
  rg_instance_id : option Z;
}.

Inductive ShutdownSignal : Set := SigInt | SigTerm | SigHup.

Inductive ShutdownReason : Set :=
| SdSignal (s : ShutdownSignal)
| SdFenced
| SdHeartbeatLost.

Module ShutdownReason.
Definition is_fenced (r : ShutdownReason) : bool := match r with SdFenced => true | _ => false end.

Definition display (r : ShutdownReason) : string :=
  match r with
  | SdSignal SigInt => "SIGINT"
  | SdSignal SigTerm => "SIGTERM"
  | SdSignal SigHup => "SIGHUP"
  | SdFenced => "fenced"
  | SdHeartbeatLost => "heartbeat lost"
  end.
End ShutdownReason.

(** [reg_pilot]: whether a NATS client is kept to notify Pilot. *)
Record ServiceRegistration : Set := mkServiceRegistration {
  reg_grant : RegistrationGrant;
  reg_value : Bytes;
  reg_hb : Heartbeat;
  reg_pilot : bool;
}.

Module ServiceRegistration.

(** The reply of a round of [pilot_request]: none when the request fails, and
    the decoded response, if it decodes. *)
Definition pilot_reply : Set := option (option BootstrapRegisterResponse).

Definition grant_of (resp : BootstrapRegisterResponse) : PilotBootstrapGrant :=
  mkPilotBootstrapGrant (brr_kv_key resp) (brr_lock_key resp) (wrap_u64 (brr_lease_ttl_ms resp))
    (brr_owner_session_id resp) (brr_scoped_credential resp) (brr_instance_id resp)
    (mkPilotPayload (brr_runtime_config resp) (brr_config_metadata resp) (brr_secret_refs resp)
       (brr_server_time_ms resp)).

(** The loop of [pilot_request] over its rounds: each the reply and the time
    at which it is examined.  No result while the replies last. *)
Fixpoint pilot_rounds (deadline : Z) (rounds : list (pilot_reply * Z))
    : option (result PilotBootstrapGrant RegistrationError) :=
  match rounds with
  | [] => None
  | (None, _) :: _ => Some (Err RegNats)
  | (Some None, _) :: _ => Some (Err RegProto)
  | (Some (Some resp), now) :: rounds =>
      if String.eqb (brr_status resp) "OK" then Some (Ok (grant_of resp))
      else match duplicate_retry_delay (brr_status resp) now deadline with
           | Some _ => pilot_rounds deadline rounds
           | None => Some (Err (RegPilot (brr_status resp) (brr_error_message resp)))
           end
  end.

Definition pilot_request (started : Z) (rounds : list (pilot_reply * Z))
    : option (result PilotBootstrapGrant RegistrationError) :=
  pilot_rounds (started + PILOT_DUPLICATE_RETRY_WINDOW) rounds.

Section Store.
Context `{KvServer}.

(** [session_id]: the nanoseconds since the epoch, printed. *)
Definition register_direct (net : delivery) (kv_key : string) (value : Bytes)
    (heartbeat_interval_ms : Z) (session_id : string) (s : kv_state)
    : result ServiceRegistration unit * kv_state :=
  match KvRegistryClient.put net kv_key value s with
  | (Err e, s) => (Err e, s)
  | (Ok revision, s) =>
      (Ok (mkServiceRegistration
             (mkRegistrationGrant session_id kv_key kv_key (wrap_u64 (heartbeat_interval_ms * 3))
                None None)
             value (Heartbeat.start revision) false), s)
  end.

Definition register_kv_with_grant (net : delivery) (grant : PilotBootstrapGrant) (value : Bytes)
    (s : kv_state) : result ServiceRegistration RegistrationError * kv_state :=
  match KvRegistryClient.put net (pbg_kv_key grant) value s with
  | (Err _, s) => (Err RegNats, s)
  | (Ok revision, s) =>
      (Ok (mkServiceRegistration
             (mkRegistrationGrant (pbg_owner_session_id grant) (pbg_kv_key grant)
                (pbg_lock_key grant) (pbg_lease_ttl_ms grant)
                (if is_empty (pbg_scoped_credential grant) then None
                 else Some (pbg_scoped_credential grant))
                (if pbg_instance_id grant =? 0 then None else Some (pbg_instance_id grant)))
             value (Heartbeat.start revision) true), s)
  end.

(** One tick of the heartbeat task. *)
Definition beat (net : delivery) (reg : ServiceRegistration) (s : kv_state)
    : ServiceRegistration * kv_state :=
  let '(reply, s) :=
    KvRegistryClient.heartbeat_update net (rg_kv_key (reg_grant reg)) (reg_value reg)
      (hb_revision (reg_hb reg)) s in
  (mkServiceRegistration (reg_grant reg) (reg_value reg)
     (Heartbeat.on_reply reply (reg_hb reg)) (reg_pilot reg), s).

(** The deletion, and whether Pilot is notified of the session. *)
Definition deregister (net : delivery) (reg : ServiceRegistration) (s : kv_state)
    : result (option string) unit * kv_state :=
  match KvRegistryClient.delete net (rg_kv_key (reg_grant reg)) s with
  | (Err e, s) => (Err e, s)
  | (Ok _, s) =>
      (Ok (if reg_pilot reg then Some (rg_owner_session_id (reg_grant reg)) else None), s)
  end.
End Store.

Definition heartbeat_termination_reason (reg : ServiceRegistration) : ShutdownReason :=
  match hb_termination (reg_hb reg) with
  | Some HtFenced => SdFenced
  | Some HtRegistryUnavailable => SdHeartbeatLost
  | None => SdHeartbeatLost
  end.

(** [wait_shutdown] with the signal that has arrived, if any: the reason it
    returns, none while it waits.  With both a signal and a terminated
    heartbeat either may be taken; the caller gives the signal that is. *)
Definition wait_shutdown (signal : option ShutdownSignal) (reg : ServiceRegistration)
    : option ShutdownReason :=
  match signal with
  | Some g => Some (SdSignal g)
  | None =>
      if Heartbeat.running (reg_hb reg) then None else Some (heartbeat_termination_reason reg)
  end.

(** The end of the services' [main]: deregister unless fenced, ignoring an
    error. *)
Definition shut_down `{KvServer} (net : delivery) (reason : ShutdownReason)
    (reg : ServiceRegistration) (s : kv_state) : kv_state :=
  if ShutdownReason.is_fenced reason then s else (deregister net reg s).2.
End ServiceRegistration.

(** ** Instances that share the store *)

Record RegInstance : Set := mkRegInstance { in_reg : ServiceRegistration; in_exited : bool }.

(** The messages the store accepted, newest first. *)
Inductive write : Set :=
| WPut (i : nat) (k : string)
| WBeat (i : nat) (k : string)
| WRemoved (k : string).

Record World `{KvServer} : Type := mkWorld {
  w_kv : kv_state;
  w_instances : gmap nat RegInstance;
  w_log : list write;
}.

Inductive event : Set :=
| EvRegister (i : nat) (net : delivery) (kv_key : string) (value : Bytes)
    (heartbeat_interval_ms : Z) (session_id : string)
| EvRegisterPilot (i : nat) (net : delivery) (grant : PilotBootstrapGrant) (value : Bytes)
| EvTick (i : nat) (net : delivery)
| EvShutdown (i : nat) (signal : option ShutdownSignal) (net : delivery)
| EvExpire (k : string)
| EvDeleted (k : string).

Module World.
Section World.
Context `{KvServer}.

Definition init : World := mkWorld _ kv_empty ∅ [].

Definition live (i : nat) (w : World) : option ServiceRegistration :=
  match w_instances w !! i with
  | Some inst => if in_exited inst then None else Some (in_reg inst)
  | None => None
  end.

(** The store accepted a message exactly when its sequence number moved. *)
Definition logged (e : write) (s s' : kv_state) (log : list write) : list write :=
  if kv_seq s =? kv_seq s' then log else e :: log.

(** A process registers once; it runs only if that succeeded. *)
Definition registered {E} (i : nat) (k : string)
    (r : result ServiceRegistration E * kv_state) (w : World) : World :=
  mkWorld _ r.2
    (match r.1 with
     | Ok reg => <[i := mkRegInstance reg false]> (w_instances w)
     | Err _ => w_instances w
     end)
    (logged (WPut i k) (w_kv w) r.2 (w_log w)).

Definition step (e : event) (w : World) : World :=
  match e with
  | EvRegister i net k v hb session =>
      if bool_decide (is_Some (w_instances w !! i)) then w
      else registered i k (ServiceRegistration.register_direct net k v hb session (w_kv w)) w
  | EvRegisterPilot i net grant v =>
      if bool_decide (is_Some (w_instances w !! i)) then w
      else registered i (pbg_kv_key grant)
             (ServiceRegistration.register_kv_with_grant net grant v (w_kv w)) w
  | EvTick i net =>
      match live i w with
      | Some reg =>
          if Heartbeat.running (reg_hb reg) then
            let '(reg', s) := ServiceRegistration.beat net reg (w_kv w) in
            mkWorld _ s (<[i := mkRegInstance reg' false]> (w_instances w))
              (logged (WBeat i (rg_kv_key (reg_grant reg))) (w_kv w) s (w_log w))
          else w
      | None => w
      end
  | EvShutdown i signal net =>
      match live i w with
      | Some reg =>
          match ServiceRegistration.wait_shutdown signal reg with
          | Some reason =>
              let s := ServiceRegistration.shut_down net reason reg (w_kv w) in
              mkWorld _ s (<[i := mkRegInstance reg true]> (w_instances w))
                (logged (WRemoved (rg_kv_key (reg_grant reg))) (w_kv w) s (w_log w))
          | None => w
          end
      | None => w
      end
  | EvExpire k => mkWorld _ (kv_expire k (w_kv w)) (w_instances w) (WRemoved k :: w_log w)
  | EvDeleted k => mkWorld _ (kv_delete k (w_kv w)) (w_instances w) (WRemoved k :: w_log w)
  end.

Definition run (evs : list event) (w : World) : World := foldl (λ w e, step e w) w evs.
End World.

(** Whose write is the last one of a key: nobody's once it is removed. *)
Fixpoint owner (k : string) (log : list write) : option nat :=
  match log with
  | [] => None
  | WPut i k' :: log | WBeat i k' :: log => if String.eqb k' k then Some i else owner k log
  | WRemoved k' :: log => if String.eqb k' k then None else owner k log
  end.
End World.
