(* ===== verification/Discovery.v ===== *)
(** * Service discovery

    [zk-infra-rs/src/discovery_registration.rs] and [nats_kv_discovery.rs], and
    the resolution of endpoints in [zk-trading-sdk-rs/src/discovery.rs].

    One task watches the registry and maintains the cache; readers take the
    whole map under a lock.  A watch stream is the list of its items, each with
    the delay before it; decoding of the stored bytes is a parameter. *)

From S2P Require Import Prelude Text Registry.

(** ** [discovery.proto] and [discovery_registration.rs] *)

Record TransportEndpoint : Set := mkTransportEndpoint {
  te_protocol : string;
  te_address : string;
  te_authority : string;
}.
#[export] Instance TransportEndpoint_eq_dec : EqDecision TransportEndpoint.
Proof. solve_decision. Defined.

(** The message [zk.discovery.v1.ServiceRegistration]. *)
Record SvcRegProto : Set := mkSvcRegProto {
  sp_service_type : string;
  sp_service_id : string;
  sp_instance_id : string;
  sp_endpoint : option TransportEndpoint;
  sp_account_ids : list Z;
  sp_venue : string;
  sp_capabilities : list string;
  sp_lease_expiry_ms : Z;
  sp_updated_at_ms : Z;
  sp_attrs : gmap string string;
}.
#[export] Instance SvcRegProto_eq_dec : EqDecision SvcRegProto.
Proof. solve_decision. Defined.

Definition grpc_endpoint (address : string) (authority : option string) : TransportEndpoint :=
  mkTransportEndpoint "grpc" address (default "" authority).

Definition engine_registration (now : Z) (engine_id grpc_address execution_id strategy_key : string)
    (account_ids : list Z) : SvcRegProto :=
  mkSvcRegProto "engine" engine_id execution_id (Some (grpc_endpoint grpc_address None))
    account_ids "" [] 0 now
    (<["strategy_key" := strategy_key]> (<["execution_id" := execution_id]> ∅)).

Definition oms_registration (now : Z) (oms_id grpc_address : string) (account_ids : list Z)
    : SvcRegProto :=
  mkSvcRegProto "oms" oms_id "" (Some (grpc_endpoint grpc_address None)) account_ids "" [] 0 now ∅.

Definition mdgw_registration (now : Z) (mdgw_id grpc_address venue : string)
    (capabilities : list string) (metadata : gmap string string) : SvcRegProto :=
  mkSvcRegProto "mdgw" mdgw_id "" (Some (grpc_endpoint grpc_address None)) [] venue capabilities
    0 now metadata.

Definition gw_registration (now : Z) (gw_id grpc_address venue : string) (account_id : Z)
    (admin_grpc_port : option Z) : SvcRegProto :=
  let attrs := <["account_id" := display_i64 account_id]> ∅ in
  mkSvcRegProto "gw" gw_id "" (Some (grpc_endpoint grpc_address None)) [account_id] venue [] 0 now
    (match admin_grpc_port with
     | Some port => <["admin_grpc_port" := display_i64 port]> attrs
     | None => attrs
     end).

(** ** [nats_kv_discovery.rs] *)

Definition SNAPSHOT_SETTLE_MS : Z := 200.

Inductive KvOperation : Set := OpPut | OpDelete | OpPurge.
Record KvEntry : Set := mkKvEntry { ke_key : string; ke_value : Bytes; ke_operation : KvOperation }.

Inductive DiscoveryEvent : Set :=
| Upsert (key : string) (registration : SvcRegProto)
| Remove (key : string).

Notation registry_map := (gmap string SvcRegProto).

(** A watch stream: after the given milliseconds, an entry or an error.  The
    end of the list is the end of the stream, or a stream that stays silent. *)
Definition watch_stream : Type := list (Z * result KvEntry unit).

Record KvDiscoveryClient : Type := mkKvDiscoveryClient {
  kd_cache : registry_map;
  kd_events : list DiscoveryEvent;
}.

Module KvDiscoveryClient.
Definition start : KvDiscoveryClient := mkKvDiscoveryClient ∅ [].

Section Watch.
Context (decode : Bytes → option SvcRegProto) `{!HashIter string}.

Definition apply_entry (map : registry_map) (entry : KvEntry)
    : option DiscoveryEvent * registry_map :=
  let key := ke_key entry in
  match ke_operation entry with
  | OpPut =>
      match decode (ke_value entry) with
      | Some reg =>
          (if decide (map !! key = Some reg) then None else Some (Upsert key reg),
           <[key := reg]> map)
      | None => (None, map)
      end
  | OpDelete | OpPurge =>
      (match map !! key with Some _ => Some (Remove key) | None => None end, delete key map)
  end.

(** Phase 1: whether the stream failed, the staged map and the rest of the
    stream.  An item that is not there when the settle time is over stays in
    the stream. *)
Fixpoint drain_snapshot (stream : watch_stream) (staging : registry_map)
    : bool * registry_map * watch_stream :=
  match stream with
  | [] => (false, staging, [])
  | (delay, item) :: rest =>
      if SNAPSHOT_SETTLE_MS <? delay then (false, staging, stream)
      else match item with
           | Ok entry => drain_snapshot rest (apply_entry staging entry).2
           | Err _ => (true, staging, rest)
           end
  end.

(** Phase 2: the swap, and the events sent after it. *)
Definition swap_snapshot (staging : registry_map) (c : KvDiscoveryClient) : KvDiscoveryClient :=
  let guard := kd_cache c in
  let removed := filter (λ key, staging !! key = None) (hash_iter guard).*1 in
  let upserts := filter (λ kr, guard !! kr.1 ≠ Some kr.2) (hash_iter staging) in
  mkKvDiscoveryClient staging
    (kd_events c ++ (Remove <$> removed) ++ ((λ kr, Upsert kr.1 kr.2) <$> upserts)).

Definition apply_live (entry : KvEntry) (c : KvDiscoveryClient) : KvDiscoveryClient :=
  let '(event, cache) := apply_entry (kd_cache c) entry in
  mkKvDiscoveryClient cache (kd_events c ++ option_list event).

(** Phase 3: until an error or the end of the stream. *)
Fixpoint live_updates (stream : watch_stream) (c : KvDiscoveryClient) : KvDiscoveryClient :=
  match stream with
  | (_, Ok entry) :: rest => live_updates rest (apply_live entry c)
  | _ => c
  end.

(** One round of [spawn_watch_loop]; no stream when the watch fails. *)
Definition watch_round (watch : option watch_stream) (c : KvDiscoveryClient)
    : KvDiscoveryClient :=
  match watch with
  | None => c
  | Some stream =>
      let '(stream_error, staging, rest) := drain_snapshot stream ∅ in
      if (stream_error : bool) then c else live_updates rest (swap_snapshot staging c)
  end.

Definition watch_loop (rounds : list (option watch_stream)) (c : KvDiscoveryClient)
    : KvDiscoveryClient :=
  foldl (λ c watch, watch_round watch c) c rounds.

Definition resolve (pred : SvcRegProto → bool) (c : KvDiscoveryClient) : list SvcRegProto :=
  filter (λ r, pred r = true) (hash_iter (kd_cache c)).*2.
End Watch.
End KvDiscoveryClient.

(** ** [zk-trading-sdk-rs/src/discovery.rs] *)

Record OmsEndpoint : Set := mkOmsEndpoint {
  oe_oms_id : string;
  oe_grpc_address : string;
  oe_grpc_authority : option string;
}.

Record MdgwEndpoint : Set := mkMdgwEndpoint {
  me_service_id : string;
  me_venue : string;
  me_grpc_address : string;
  me_grpc_authority : option string;
}.

Inductive SdkError : Set :=
| DiscoveryConflict (account_id : Z) (existing claimant : string)
| SdkConfig (message : string)
| OmsNotFound (account_id : Z)
| RefdataNotAvailable (what : string)
| RefdataDeprecated (instrument_id : string)
| SdkGrpc.

(** The part of [TradingClientConfig] that discovery reads. *)
Record TradingClientConfig : Set := mkTradingClientConfig {
  tcc_account_ids : list Z;
  tcc_oms_id : option string;
  tcc_refdata_grpc : option string;
}.

Definition is_service_type (reg : SvcRegProto) (expected : string) : bool :=
  eq_ignore_ascii_case (sp_service_type reg) expected.

(** [key.rsplit('.').next()]: the text after the last dot. *)
Definition extract_service_id (key : string) (reg : SvcRegProto) : string :=
  if negb (is_empty (sp_service_id reg)) then sp_service_id reg
  else default key (last (split_on 46 key)).

(** The filters the three resolutions share. *)
Definition expired (now : Z) (reg : SvcRegProto) : bool :=
  (0 <? sp_lease_expiry_ms reg) && (sp_lease_expiry_ms reg <? now).

Definition authority_of (ep : TransportEndpoint) : option string :=
  if is_empty (te_authority ep) then None else Some (te_authority ep).

(** The endpoint of a registration that has an address. *)
Definition addressed (reg : SvcRegProto) : option TransportEndpoint :=
  match sp_endpoint reg with
  | Some ep => if is_empty (te_address ep) then None else Some ep
  | None => None
  end.

(** What an entry contributes to the account map: its OMS and its endpoint. *)
Definition oms_entry (now : Z) (target : option string) (kr : string * SvcRegProto)
    : option OmsEndpoint :=
  let '(key, reg) := kr in
  if negb (has_prefix "svc.oms." key) || negb (is_service_type reg "oms") then None
  else if expired now reg then None
  else match addressed reg with
       | None => None
       | Some ep =>
           let oms_id := extract_service_id key reg in
           if match target with Some t => negb (String.eqb oms_id t) | None => false end then None
           else Some (mkOmsEndpoint oms_id (te_address ep) (authority_of ep))
       end.

Fixpoint claim_accounts (ep : OmsEndpoint) (account_ids : list Z) (map : gmap Z OmsEndpoint)
    : result (gmap Z OmsEndpoint) SdkError :=
  match account_ids with
  | [] => Ok map
  | a :: account_ids =>
      match map !! a with
      | Some existing =>
          if negb (String.eqb (oe_oms_id existing) (oe_oms_id ep))
          then Err (DiscoveryConflict a (oe_oms_id existing) (oe_oms_id ep))
          else claim_accounts ep account_ids map
      | None => claim_accounts ep account_ids (<[a := ep]> map)
      end
  end.

Fixpoint claim_entries (now : Z) (target : option string) (entries : list (string * SvcRegProto))
    (map : gmap Z OmsEndpoint) : result (gmap Z OmsEndpoint) SdkError :=
  match entries with
  | [] => Ok map
  | kr :: entries =>
      match oms_entry now target kr with
      | None => claim_entries now target entries map
      | Some ep =>
          match claim_accounts ep (sp_account_ids kr.2) map with
          | Ok map => claim_entries now target entries map
          | Err e => Err e
          end
      end
  end.

Section Resolve.
Context `{!HashIter string}.

Definition build_account_map_with_target (now : Z) (snapshot : registry_map)
    (target_oms_id : option string) : result (gmap Z OmsEndpoint) SdkError :=
  claim_entries now target_oms_id (hash_iter snapshot) ∅.

Definition build_account_map (now : Z) (snapshot : registry_map)
    : result (gmap Z OmsEndpoint) SdkError :=
  build_account_map_with_target now snapshot None.

Definition refdata_entry (now : Z) (kr : string * SvcRegProto) : option string :=
  let '(key, reg) := kr in
  if negb (has_prefix "svc.refdata." key) || negb (is_service_type reg "refdata") then None
  else if expired now reg then None
  else te_address <$> addressed reg.

Definition resolve_refdata_endpoint (now : Z) (snapshot : registry_map) : option string :=
  head (omap (refdata_entry now) (hash_iter snapshot)).

Definition mdgw_entry (now : Z) (venue : string) (kr : string * SvcRegProto)
    : option MdgwEndpoint :=
  let '(key, reg) := kr in
  if negb (has_prefix "svc.mdgw." key) || negb (is_service_type reg "mdgw") then None
  else if expired now reg then None
  else if negb (eq_ignore_ascii_case (sp_venue reg) venue) then None
  else ep ← addressed reg;
       Some (mkMdgwEndpoint (extract_service_id key reg) (sp_venue reg) (te_address ep)
               (authority_of ep)).

Definition resolve_mdgw_endpoint (now : Z) (snapshot : registry_map) (venue : string)
    : option MdgwEndpoint :=
  head (omap (mdgw_entry now venue) (hash_iter snapshot)).

(** The clock is read by each of the two calls. *)
Definition snapshot_satisfies_requirements (now now' : Z) (snapshot : registry_map)
    (config : TradingClientConfig) : result bool SdkError :=
  if bool_decide (snapshot = ∅) then Ok false
  else match build_account_map_with_target now snapshot (tcc_oms_id config) with
       | Err e => Err e
       | Ok account_map =>
           let accounts_ready :=
             forallb (λ a, bool_decide (is_Some (account_map !! a))) (tcc_account_ids config) in
           let refdata_ready :=
             bool_decide (is_Some (tcc_refdata_grpc config))
             || bool_decide (is_Some (resolve_refdata_endpoint now' snapshot)) in
           Ok (accounts_ready && refdata_ready)
       end.
End Resolve.

(** [OmsDiscovery]: the account map derived from the cache of the client. *)
Module OmsDiscovery.
Section OmsDiscovery.
Context `{!HashIter string}.

(** [refresh_account_cache]: on an error the map is left as it was. *)
Definition refresh_account_cache (now : Z) (oms_id : option string) (inner : registry_map)
    (cache : gmap Z OmsEndpoint) : result unit SdkError * gmap Z OmsEndpoint :=
  match build_account_map_with_target now inner oms_id with
  | Ok account_map => (Ok tt, account_map)
  | Err e => (Err e, cache)
  end.

Definition resolve_oms (account_id : Z) (cache : gmap Z OmsEndpoint) : option OmsEndpoint :=
  cache !! account_id.

(** [TradingClient::resolve_account_endpoint]. *)
Definition resolve_account_endpoint (now : Z) (config : TradingClientConfig)
    (inner : registry_map) (account_id : Z) (cache : gmap Z OmsEndpoint)
    : result OmsEndpoint SdkError * gmap Z OmsEndpoint :=
  match refresh_account_cache now (tcc_oms_id config) inner cache with
  | (Err e, cache) => (Err e, cache)
  | (Ok _, cache) =>
      (match resolve_oms account_id cache with
       | Some ep => Ok ep
       | None => Err (OmsNotFound account_id)
       end, cache)
  end.

(** [wait_for_required_snapshot]: one snapshot per poll before the deadline. *)
Fixpoint wait_for_required_snapshot (config : TradingClientConfig)
    (polls : list (Z * Z * registry_map)) : result bool SdkError :=
  match polls with
  | [] => Ok false
  | (now, now', snapshot) :: polls =>
      match snapshot_satisfies_requirements now now' snapshot config with
      | Err e => Err e
      | Ok true => Ok true
      | Ok false => wait_for_required_snapshot config polls
      end
  end.
End OmsDiscovery.
End OmsDiscovery.

(** [TradingClient]'s [unique_oms]: one endpoint per OMS. *)
Definition unique_oms `{!HashIter Z} (snapshot : gmap Z OmsEndpoint) : gmap string OmsEndpoint :=
  foldl (λ unique ep, match unique !! oe_oms_id ep with
                      | Some _ => unique
                      | None => <[oe_oms_id ep := ep]> unique
                      end) ∅ (hash_iter snapshot).*2.
