(* ===== verification/RegistryFacts.v ===== *)
(** * Registration: one writer per key, and what becomes of the others

    [heartbeat_never_overwrites] and [superseded_instance_stops] are about any
    number of instances that share the store, over every interleaving of their
    registrations, ticks and shutdowns, with every loss of requests and
    replies.  [pilot_request_answers] bounds the retries of a registration.
    Runs in which an instance harms its successor follow, and then the theorems
    of discovery, [discovery_tracks_registry] and [account_map_exact]. *)

From S2P Require Import Prelude Text Registry Discovery.

(** ** The heartbeat loop *)

Definition is_retryable (r : result Z HeartbeatError) : bool :=
  match r with Err HeRetryable => true | _ => false end.

(** The number of retryable failures at the end of a list of replies. *)
Fixpoint trailing_failures (n : Z) (replies : list (result Z HeartbeatError)) : Z :=
  match replies with
  | [] => n
  | r :: replies => trailing_failures (if is_retryable r then n + 1 else 0) replies
  end.

(** A reply that ends the loop, after [pre]. *)
Definition ends_loop (pre : list (result Z HeartbeatError)) (r : result Z HeartbeatError)
    : option HeartbeatTermination :=
  match r with
  | Err HeFenced => Some HtFenced
  | Err HeRetryable =>
      if MAX_HEARTBEAT_RETRIES <=? trailing_failures 0 pre + 1 then Some HtRegistryUnavailable
      else None
  | Ok _ => None
  end.

Lemma trailing_failures_snoc n pre r :
  trailing_failures n (pre ++ [r]) = if is_retryable r then trailing_failures n pre + 1 else 0.
Proof. revert n. induction pre as [|r' pre IH]; intros n; cbn; [done|]. apply IH. Qed.

Lemma heartbeat_run_app l k h : Heartbeat.run (l ++ k) h = Heartbeat.run k (Heartbeat.run l h).
Proof.
  revert h. induction l as [|r l IH]; intros h; [done|]. cbn [app Heartbeat.run].
  destruct (Heartbeat.running h) eqn:Hr; [apply IH|].
  destruct k; cbn [Heartbeat.run]; [done|]. by rewrite Hr.
Qed.

Lemma heartbeat_run_stopped l h t :
  hb_termination h = Some t → Heartbeat.run l h = h.
Proof.
  intros Ht. destruct l; [done|]. cbn [Heartbeat.run]. unfold Heartbeat.running.
  by rewrite bool_decide_false by (by rewrite Ht).
Qed.

Lemma heartbeat_run_snoc l r h :
  hb_termination (Heartbeat.run l h) = None →
  Heartbeat.run (l ++ [r]) h = Heartbeat.on_reply r (Heartbeat.run l h).
Proof.
  intros Hn. rewrite heartbeat_run_app. cbn [Heartbeat.run]. unfold Heartbeat.running.
  by rewrite bool_decide_true.
Qed.

Lemma heartbeat_failures pre r0 :
  hb_termination (Heartbeat.run pre (Heartbeat.start r0)) = None →
  hb_consecutive_failures (Heartbeat.run pre (Heartbeat.start r0)) = trailing_failures 0 pre.
Proof.
  induction pre as [|r pre IH] using rev_ind; [done|]. intros Hs.
  destruct (hb_termination (Heartbeat.run pre (Heartbeat.start r0))) eqn:Hn.
  { rewrite heartbeat_run_app, (heartbeat_run_stopped _ _ _ Hn) in Hs. congruence. }
  rewrite heartbeat_run_snoc, trailing_failures_snoc by done.
  destruct r as [v|[]]; cbn; [done|by rewrite heartbeat_run_snoc in Hs|]. by rewrite IH.
Qed.

Lemma heartbeat_next pre r r0 :
  hb_termination (Heartbeat.run pre (Heartbeat.start r0)) = None →
  hb_termination (Heartbeat.run (pre ++ [r]) (Heartbeat.start r0)) = ends_loop pre r.
Proof.
  intros Hn. rewrite heartbeat_run_snoc by done. pose proof (heartbeat_failures pre r0 Hn) as Hf.
  destruct r as [v|[]]; cbn; rewrite ?Hf, ?Hn; done.
Qed.

(** No reply of [pre] ends the loop. *)
Definition quiet (pre : list (result Z HeartbeatError)) : Prop :=
  ∀ pre' r post, pre = pre' ++ r :: post → ends_loop pre' r = None.

Lemma quiet_running pre r0 :
  quiet pre ↔ hb_termination (Heartbeat.run pre (Heartbeat.start r0)) = None.
Proof.
  induction pre as [|r pre IH] using rev_ind.
  { split; [done|]. intros _ pre' r post Hp. by destruct pre'. }
  split.
  - intros Hq. rewrite heartbeat_next; [by eapply Hq|]. apply IH. intros pre' r' post ->.
    apply (Hq pre' r' (post ++ [r])). by rewrite <- app_assoc.
  - intros Hs. destruct (hb_termination (Heartbeat.run pre (Heartbeat.start r0))) eqn:Hn.
    { rewrite heartbeat_run_app, (heartbeat_run_stopped _ _ _ Hn) in Hs. congruence. }
    rewrite heartbeat_next in Hs by done. intros pre' r' post Heq.
    destruct post as [|r'' post _] using rev_ind; [by simplify_list_eq|].
    rewrite app_comm_cons, app_assoc in Heq. simplify_list_eq. by eapply IH.
Qed.

(** The loop ends exactly at the first reply that is a conflict or the fifth
    retryable failure in a row, with the matching reason. *)
Theorem heartbeat_ends_exactly replies r0 t :
  hb_termination (Heartbeat.run replies (Heartbeat.start r0)) = Some t ↔
  ∃ pre r post, replies = pre ++ r :: post ∧ quiet pre ∧ ends_loop pre r = Some t.
Proof.
  split.
  - induction replies as [|r l IH] using rev_ind; [done|]. intros Hs.
    destruct (hb_termination (Heartbeat.run l (Heartbeat.start r0))) as [t'|] eqn:Hl.
    + rewrite heartbeat_run_app, (heartbeat_run_stopped _ _ _ Hl), Hl in Hs. simplify_eq.
      destruct (IH eq_refl) as (pre & r' & post & -> & Hq & He).
      exists pre, r', (post ++ [r]). by rewrite <- app_assoc.
    + rewrite heartbeat_next in Hs by done. exists l, r, []. by rewrite (quiet_running l r0).
  - intros (pre & r & post & -> & Hq & He). rewrite (quiet_running pre r0) in Hq.
    rewrite (app_assoc pre [r] post : pre ++ r :: post = _), heartbeat_run_app.
    rewrite <- (heartbeat_next pre r r0 Hq) in He. by rewrite (heartbeat_run_stopped _ _ _ He).
Qed.

(** ** The retries of a registration with Pilot *)

(** The time of each round is past the delay that precedes it. *)
Fixpoint paced (deadline : Z) (rounds : list (ServiceRegistration.pilot_reply * Z)) : Prop :=
  match rounds with
  | (_, t) :: (((_, t') :: _) as rest) =>
      t + Z.min PILOT_DUPLICATE_RETRY_DELAY (Z.max 0 (deadline - t)) ≤ t' ∧ paced deadline rest
  | _ => True
  end.


Lemma pilot_rounds_answer deadline r t rounds :
  paced deadline ((r, t) :: rounds) →
  deadline - t ≤ PILOT_DUPLICATE_RETRY_DELAY * Z.of_nat (length rounds) →
  is_Some (ServiceRegistration.pilot_rounds deadline ((r, t) :: rounds)).
Proof.
  unfold PILOT_DUPLICATE_RETRY_DELAY. revert r t.
  induction rounds as [|[r' t'] rounds IH]; intros r t Hp Hd; cbn [ServiceRegistration.pilot_rounds];
    (destruct r as [[resp|]|]; [|by eexists..]); (case_match; [by eexists|]);
    unfold duplicate_retry_delay; (destruct (_ || _) eqn:Hn; [by eexists|]);
    destruct (orb_false_elim _ _ Hn) as [_ Hlt%Z.leb_gt]; cbn [length] in Hd.
  - lia.
  - destruct Hp as [Ht Hp]. unfold PILOT_DUPLICATE_RETRY_DELAY in Ht. apply IH; [done|lia].
Qed.

(** A registration request is answered within twenty-six rounds: the window
    of fifty seconds at one round every two seconds, and the first. *)
Theorem pilot_request_answers started rounds :
  paced (started + PILOT_DUPLICATE_RETRY_WINDOW) rounds →
  (∀ r t, head rounds = Some (r, t) → started ≤ t) →
  (26 ≤ length rounds)%nat →
  is_Some (ServiceRegistration.pilot_request started rounds).
Proof.
  intros Hp Ht Hl. destruct rounds as [|[r t] rounds]; [cbn in Hl; lia|].
  specialize (Ht r t eq_refl). apply pilot_rounds_answer; [done|].
  unfold PILOT_DUPLICATE_RETRY_WINDOW, PILOT_DUPLICATE_RETRY_DELAY. cbn [length] in Hl. lia.
Qed.

(** ** Instances that share the store *)

Definition write_key (e : write) : string :=
  match e with WPut _ k | WBeat _ k | WRemoved k => k end.

Definition writer (e : write) : option nat :=
  match e with WPut i _ | WBeat i _ => Some i | WRemoved _ => None end.

Lemma owner_cons k e log :
  World.owner k (e :: log) = if String.eqb (write_key e) k then writer e else World.owner k log.
Proof. by destruct e. Qed.

(** Every heartbeat the store accepted renewed its sender's own entry. *)
Fixpoint own_beats (log : list write) : Prop :=
  match log with
  | [] => True
  | WBeat i k :: log => World.owner k log = Some i ∧ own_beats log
  | _ :: log => own_beats log
  end.

Lemma own_beats_split log newer i k older :
  own_beats log → log = newer ++ WBeat i k :: older → World.owner k older = Some i.
Proof.
  revert log. induction newer as [|e newer IH]; intros log Hb ->; cbn in Hb; [by destruct Hb|].
  destruct e; by eapply IH; [|done]; tauto.
Qed.

(** A running loop has failed fewer times in a row than it may. *)
Definition hb_ok (h : Heartbeat) : Prop :=
  0 ≤ hb_consecutive_failures h ∧
  (hb_termination h = None → hb_consecutive_failures h < MAX_HEARTBEAT_RETRIES).

Lemma hb_ok_start rev : hb_ok (Heartbeat.start rev).
Proof. unfold hb_ok, MAX_HEARTBEAT_RETRIES. cbn. lia. Qed.

Lemma hb_ok_reply reply h : hb_ok h → hb_ok (Heartbeat.on_reply reply h).
Proof.
  unfold hb_ok, MAX_HEARTBEAT_RETRIES. intros [Hn Hr]. destruct reply as [v|[]]; cbn; [lia|done|].
  unfold MAX_HEARTBEAT_RETRIES. case_match; (split; [lia|]); [done|lia].
Qed.

Section Store.
Context `{Hkv : KvServerOk}.

(** An instance whose revision is the one of its key wrote it last. *)
Definition holds_own (s : kv_state) (log : list write) (i : nat) (reg : ServiceRegistration)
    : Prop :=
  0 < hb_revision (reg_hb reg) ≤ kv_seq s ∧ hb_ok (reg_hb reg) ∧
  (kv_last (rg_kv_key (reg_grant reg)) s = hb_revision (reg_hb reg) →
   World.owner (rg_kv_key (reg_grant reg)) log = Some i).

Definition wf (w : World) : Prop :=
  0 ≤ kv_seq (w_kv w) ∧ own_beats (w_log w) ∧
  map_Forall (λ i inst, holds_own (w_kv w) (w_log w) i (in_reg inst)) (w_instances w).

Lemma holds_own_appended s s' r e log i reg :
  holds_own s log i reg → appended (write_key e) r s s' → holds_own s' (e :: log) i reg.
Proof.
  intros (Hr & Hf & Ho) (Hlt & Hseq & Hlast & Hother). split; [lia|]. split; [done|].
  rewrite owner_cons. intros Heq. destruct (String.eqb_spec (write_key e) (rg_kv_key (reg_grant reg)))
    as [Hk|Hk]; [rewrite <- Hk in Heq; lia|]. apply Ho. by rewrite <- Hother.
Qed.

Lemma holds_own_fresh s s' e log i reg :
  0 ≤ kv_seq s → appended (write_key e) (hb_revision (reg_hb reg)) s s' →
  hb_ok (reg_hb reg) →
  write_key e = rg_kv_key (reg_grant reg) → writer e = Some i →
  holds_own s' (e :: log) i reg.
Proof.
  intros Hs (Hlt & Hseq & Hlast & Hother) Hf Hk Hw. split; [lia|]. split; [done|].
  intros _. by rewrite owner_cons, Hk, String.eqb_refl.
Qed.

Lemma logged_appended e r s s' log :
  appended (write_key e) r s s' → World.logged e s s' log = e :: log.
Proof. intros (? & ? & _). unfold World.logged. case_match; [|done]. lia. Qed.

Lemma logged_same e s log : World.logged e s s log = log.
Proof. unfold World.logged. by rewrite Z.eqb_refl. Qed.

(** A message that the store appended keeps every instance that did not write
    it in order. *)
Lemma wf_appended w e r s' :
  wf w → appended (write_key e) r (w_kv w) s' →
  (∀ i k, e = WBeat i k → World.owner k (w_log w) = Some i) →
  wf (mkWorld _ s' (w_instances w) (e :: w_log w)).
Proof.
  intros (Hs & Hb & Hi) Ha He. pose proof Ha as (? & ? & _). split_and!; cbn; [lia| |].
  - destruct e; [done| |done]. split; [by apply He|done].
  - intros i inst Hl. eapply holds_own_appended; [by apply Hi|done].
Qed.

Lemma wf_instance w i inst :
  wf w → holds_own (w_kv w) (w_log w) i (in_reg inst) →
  wf (mkWorld _ (w_kv w) (<[i := inst]> (w_instances w)) (w_log w)).
Proof. intros (Hs & Hb & Hi) Hn. split_and!; [done..|]. by apply map_Forall_insert_2. Qed.

(** *** The calls of the client *)

Lemma put_cases net k v s res s' :
  KvRegistryClient.put net k v s = (res, s') →
  (s' = s ∧ res = Err tt) ∨ ∃ r, appended k r s s' ∧ (res = Ok r ∨ res = Err tt).
Proof.
  unfold KvRegistryClient.put. destruct (kv_put k v s) as [r s1] eqn:Hp.
  apply kv_put_ok in Hp. destruct net; intros ?; simplify_eq/=; eauto.
Qed.

Lemma update_cases net k v rev s reply s' :
  KvRegistryClient.heartbeat_update net k v rev s = (reply, s') →
  (s' = s ∧ (reply = Err HeRetryable ∨ reply = Err HeFenced)) ∨
  ∃ r, kv_last k s = rev ∧ appended k r s s' ∧ (reply = Ok r ∨ reply = Err HeRetryable).
Proof.
  unfold KvRegistryClient.heartbeat_update. destruct (kv_update k v rev s) as [[r|] s1] eqn:Hu.
  - apply kv_update_ok in Hu as [??]. destruct net; intros ?; simplify_eq/=; eauto 10.
  - apply kv_update_refused in Hu as ->. destruct net; intros ?; simplify_eq/=; eauto.
Qed.

Lemma shut_down_cases net reason reg s s' :
  ServiceRegistration.shut_down net reason reg s = s' →
  s' = s ∨ ∃ r, appended (rg_kv_key (reg_grant reg)) r s s'.
Proof.
  unfold ServiceRegistration.shut_down, ServiceRegistration.deregister, KvRegistryClient.delete.
  destruct (kv_delete_ok (rg_kv_key (reg_grant reg)) s) as [r Hr].
  destruct (ShutdownReason.is_fenced reason); [auto|]. destruct net; cbn; intros <-; eauto.
Qed.

Lemma live_Some i w reg :
  World.live i w = Some reg → w_instances w !! i = Some (mkRegInstance reg false).
Proof.
  unfold World.live. destruct (w_instances w !! i) as [[reg' []]|]; intros; by simplify_eq/=.
Qed.

(** *** The invariant *)

Lemma wf_registered {E} w i k (r : result ServiceRegistration E * kv_state) :
  wf w →
  (r.2 = w_kv w ∧ is_err r.1 = true ∨
   ∃ rev, appended k rev (w_kv w) r.2 ∧
     ∀ reg, r.1 = Ok reg → reg_hb reg = Heartbeat.start rev ∧ rg_kv_key (reg_grant reg) = k) →
  wf (World.registered i k r w).
Proof.
  intros Hw [[Hs Hr]|(rev & Ha & Hr)]; unfold World.registered.
  - rewrite Hs, logged_same. destruct r as [[reg|e] s]; [done|]. by destruct w.
  - rewrite (logged_appended (WPut i k) rev) by done.
    pose proof (wf_appended w (WPut i k) rev r.2 Hw Ha ltac:(done)) as Hw'.
    destruct r as [[reg|e] s]; [|done]. destruct (Hr reg eq_refl) as [Hh Hk].
    apply (wf_instance _ i (mkRegInstance reg false) Hw'), (holds_own_fresh (w_kv w));
      cbn; rewrite ?Hh, ?Hk; try done. by destruct Hw.
Qed.

Lemma wf_register_direct w i net k v hb session :
  wf w → wf (World.registered i k
               (ServiceRegistration.register_direct net k v hb session (w_kv w)) w).
Proof.
  intros Hw. apply wf_registered; [done|]. unfold ServiceRegistration.register_direct.
  destruct (KvRegistryClient.put net k v (w_kv w)) as [res s'] eqn:Hp.
  apply put_cases in Hp as [[-> ->]|(r & Ha & [-> | ->])]; [by left|right; exists r..];
    (split; [done|]); intros reg ?; by simplify_eq/=.
Qed.

Lemma wf_register_grant w i net grant v :
  wf w → wf (World.registered i (pbg_kv_key grant)
               (ServiceRegistration.register_kv_with_grant net grant v (w_kv w)) w).
Proof.
  intros Hw. apply wf_registered; [done|]. unfold ServiceRegistration.register_kv_with_grant.
  destruct (KvRegistryClient.put net (pbg_kv_key grant) v (w_kv w)) as [res s'] eqn:Hp.
  apply put_cases in Hp as [[-> ->]|(r & Ha & [-> | ->])]; [by left|right; exists r..];
    (split; [done|]); intros reg ?; by simplify_eq/=.
Qed.

Lemma wf_tick w i net : wf w → wf (World.step (EvTick i net) w).
Proof.
  intros Hw. cbn [World.step]. destruct (World.live i w) as [reg|] eqn:Hl; [|done].
  destruct (Heartbeat.running (reg_hb reg)); [|done]. apply live_Some in Hl.
  unfold ServiceRegistration.beat. set (k := rg_kv_key (reg_grant reg)).
  pose proof Hw as (Hs & Hb & Hi). pose proof (Hi i _ Hl) as Hreg. cbn in Hreg.
  destruct (KvRegistryClient.heartbeat_update net k (reg_value reg) (hb_revision (reg_hb reg))
              (w_kv w)) as [reply s'] eqn:Hu.
  apply update_cases in Hu as [[-> Hr]|(r & Hlast & Ha & Hr)].
  - rewrite logged_same. apply wf_instance; [done|].
    destruct Hreg as (?&?&?). destruct Hr as [-> | ->]; (split; [cbn; lia|]);
      (split; [by apply (hb_ok_reply (Err _))|done]).
  - rewrite (logged_appended (WBeat i k) r) by done.
    assert (Ho : World.owner k (w_log w) = Some i) by (by apply Hreg).
    assert (Hw' : wf (mkWorld _ s' (w_instances w) (WBeat i k :: w_log w))).
    { apply (wf_appended w (WBeat i k) r); [done..|]. by intros ?? [= <- <-]. }
    apply (wf_instance _ i (mkRegInstance _ false) Hw'). destruct Hr as [-> | ->]; cbn [in_reg].
    + apply (holds_own_fresh (w_kv w)); cbn; done.
    + pose proof (holds_own_appended _ _ r (WBeat i k) _ _ _ Hreg Ha) as (?&?&?).
      split; [cbn; lia|]. split; [by apply (hb_ok_reply (Err _))|done].
Qed.

Lemma wf_step e w : wf w → wf (World.step e w).
Proof.
  intros Hw. destruct e as [i net k v hb ss|i net grant v|i net|i signal net|k|k]; cbn [World.step].
  - case_bool_decide; [done|]. by apply wf_register_direct.
  - case_bool_decide; [done|]. by apply wf_register_grant.
  - by apply wf_tick.
  - destruct (World.live i w) as [reg|] eqn:Hl; [|done].
    destruct (ServiceRegistration.wait_shutdown signal reg) as [reason|]; [|done].
    apply live_Some in Hl. assert (Hreg := proj2 (proj2 Hw) i _ Hl). cbn in Hreg.
    destruct (shut_down_cases net reason reg (w_kv w) _ eq_refl) as [Hs|[r Ha]].
    + rewrite Hs, logged_same. by apply wf_instance.
    + rewrite (logged_appended (WRemoved (rg_kv_key (reg_grant reg))) r) by done.
      apply (wf_instance (mkWorld _ _ (w_instances w) (_ :: w_log w))); [by eapply wf_appended|].
      by eapply holds_own_appended.
  - destruct Hw as (Hs & Hb & Hi). split_and!; cbn; [by rewrite kv_expire_seq|done|].
    intros i inst Hl. destruct (Hi i inst Hl) as (Hr & Hf & Ho).
    split; [rewrite kv_expire_seq; lia|]. split; [done|]. rewrite owner_cons. cbn [write_key writer].
    destruct (String.eqb_spec k (rg_kv_key (reg_grant (in_reg inst)))) as [->|Hne].
    { rewrite kv_expire_key. lia. }
    by rewrite kv_expire_other.
  - destruct (kv_delete_ok k (w_kv w)) as [r Ha]. by eapply (wf_appended w (WRemoved k)).
Qed.

Lemma wf_run evs w : wf w → wf (World.run evs w).
Proof. intros Hw. apply (foldl_inv wf); [done|]. intros; by apply wf_step. Qed.

Lemma wf_init : wf World.init.
Proof. split_and!; cbn; [by rewrite kv_empty_seq|done|apply map_Forall_empty]. Qed.

(** C24: A heartbeat renews only the sender's own entry.  Whatever instances
    register under a key, whichever requests or replies are lost, and whenever
    entries expire or are deleted: each heartbeat that the store accepted found
    as the last write of its key one of the same instance.  So an instance
    whose key another one has taken over never overwrites the new entry. *)
Theorem heartbeat_never_overwrites evs newer i k older :
  w_log (World.run evs World.init) = newer ++ WBeat i k :: older →
  World.owner k older = Some i.
Proof.
  destruct (wf_run evs World.init wf_init) as (_ & Hb & _). by apply own_beats_split.
Qed.

(** *** Instances that lost their key *)

Lemma owner_logged k e s s' log i :
  World.owner k log ≠ Some i → (write_key e = k → writer e ≠ Some i) →
  World.owner k (World.logged e s s' log) ≠ Some i.
Proof.
  intros Ho He. unfold World.logged. case_match; [done|]. rewrite owner_cons.
  destruct (String.eqb_spec (write_key e) k); auto.
Qed.

Definition ticking (i : nat) (w : World) : bool :=
  match World.live i w with Some reg => Heartbeat.running (reg_hb reg) | None => false end.

(** Instance [i], whose key [k] is no longer its own, has failed at least [n]
    times in a row or has stopped. *)
Definition superseded (i : nat) (k : string) (n : Z) (w : World) : Prop :=
  World.owner k (w_log w) ≠ Some i ∧
  ∃ inst, w_instances w !! i = Some inst ∧ rg_kv_key (reg_grant (in_reg inst)) = k ∧
    (ticking i w = true → n ≤ hb_consecutive_failures (reg_hb (in_reg inst))).

Definition ticks_of (i : nat) (e : event) : bool :=
  match e with EvTick j _ => bool_decide (j = i) | _ => false end.

(** Steps of other instances. *)
Lemma superseded_frame i k n w s insts e :
  superseded i k n w → insts !! i = w_instances w !! i →
  (write_key e = k → writer e ≠ Some i) →
  superseded i k n (mkWorld _ s insts (World.logged e (w_kv w) s (w_log w))).
Proof.
  intros (Ho & inst & Hi & Hk & Hn) Hinsts He. split; [by apply owner_logged|].
  exists inst. rewrite <- Hi. split_and!; [done..|]. unfold ticking, World.live in *. cbn.
  by rewrite Hinsts.
Qed.

Lemma superseded_tick i k n net w :
  wf w → superseded i k n w → superseded i k (n + 1) (World.step (EvTick i net) w).
Proof.
  intros Hw (Ho & inst & Hi & Hk & Hn). cbn [World.step].
  destruct (World.live i w) as [reg|] eqn:Hl; [|].
  2: { split; [done|]. exists inst. split_and!; [done..|]. unfold ticking. by rewrite Hl. }
  unfold ticking in Hn. rewrite Hl in Hn. pose proof (live_Some _ _ _ Hl). simplify_eq/=.
  destruct (Heartbeat.running (reg_hb reg)) eqn:Hr.
  2: { split; [done|]. exists (mkRegInstance reg false). split_and!; [done..|].
       unfold ticking. by rewrite Hl, Hr. }
  unfold ServiceRegistration.beat.
  destruct (KvRegistryClient.heartbeat_update _ _ _ _ _) as [reply s'] eqn:Hu.
  apply update_cases in Hu as [[-> Hrep]|(r & Hlast & _)].
  2: { exfalso. apply Ho. by apply (proj2 (proj2 Hw) i _ Hi). }
  rewrite logged_same. split; [done|]. eexists. split; [cbn; by rewrite lookup_insert_eq|].
  split; [done|]. unfold ticking, World.live. cbn. rewrite lookup_insert_eq. cbn.
  specialize (Hn eq_refl). destruct Hrep as [-> | ->]; cbn; [lia|done].
Qed.

Lemma superseded_step i k n e w :
  wf w → superseded i k n w →
  superseded i k (if ticks_of i e then n + 1 else n) (World.step e w).
Proof.
  intros Hw Hsup. pose proof Hsup as (Ho & inst & Hi & Hk & Hn).
  destruct e as [j net k' v hb ss|j net grant v|j net|j signal net|k'|k']; cbn [ticks_of].
  - cbn [World.step]. case_bool_decide as Hj; [done|].
    assert (j ≠ i) by (intros ->; eauto).
    apply superseded_frame; [done| |cbn; congruence]. by case_match; [apply lookup_insert_ne|].
  - cbn [World.step]. case_bool_decide as Hj; [done|].
    assert (j ≠ i) by (intros ->; eauto).
    apply superseded_frame; [done| |cbn; congruence]. by case_match; [apply lookup_insert_ne|].
  - case_bool_decide as Hj; [subst; by apply superseded_tick|]. cbn [World.step].
    destruct (World.live j w) as [reg|]; [|done]. case_match; [|done]. case_match.
    apply superseded_frame; [done|by rewrite lookup_insert_ne|cbn; congruence].
  - cbn [World.step]. destruct (World.live j w) as [reg|] eqn:Hl; [|done]. case_match; [|done].
    destruct (decide (j = i)) as [->|Hj].
    2: { apply superseded_frame; [done|by rewrite lookup_insert_ne|done]. }
    apply live_Some in Hl. simplify_eq/=. split; [by apply owner_logged|].
    eexists. split; [cbn; by rewrite lookup_insert_eq|]. split; [done|].
    unfold ticking, World.live. cbn. by rewrite lookup_insert_eq.
  - split; [|by exists inst]. cbn. case_match; [done|]. done.
  - split; [|by exists inst]. cbn. case_match; [done|]. done.
Qed.

Lemma superseded_run i k n evs w :
  wf w → superseded i k n w →
  superseded i k (n + Z.of_nat (length (filter (λ e, ticks_of i e = true) evs))) (World.run evs w).
Proof.
  revert n w. induction evs as [|e evs IH]; intros n w Hw Hs; [by rewrite Z.add_0_r|].
  cbn [World.run foldl]. pose proof (IH _ _ (wf_step e w Hw) (superseded_step i k n e w Hw Hs)) as H'.
  destruct (ticks_of i e) eqn:He;
    [rewrite filter_cons_True by done|rewrite filter_cons_False by congruence]; [|exact H'].
  cbn [length]. by replace (n + Z.of_nat (S _)) with (n + 1 +
    Z.of_nat (length (filter (λ e, ticks_of i e = true) evs))) by lia.
Qed.

(** C25: An instance that lost its key stops.  Once the last write of its key
    is not its own -- another instance registered, the entry was deleted or it
    expired -- five ticks of its heartbeat end it, whatever happens in between
    and however many requests and replies are lost, and it never becomes the
    owner of the key again. *)
Theorem superseded_instance_stops evs0 evs i reg :
  World.live i (World.run evs0 World.init) = Some reg →
  World.owner (rg_kv_key (reg_grant reg)) (w_log (World.run evs0 World.init)) ≠ Some i →
  (5 ≤ length (filter (λ e, ticks_of i e = true) evs))%nat →
  ticking i (World.run evs (World.run evs0 World.init)) = false ∧
  World.owner (rg_kv_key (reg_grant reg))
    (w_log (World.run evs (World.run evs0 World.init))) ≠ Some i.
Proof.
  intros Hl Ho Hn. pose proof (wf_run evs0 World.init wf_init) as Hw.
  pose proof (live_Some _ _ _ Hl) as Hi. pose proof (proj2 (proj2 Hw) i _ Hi) as (_ & [Hf _] & _).
  assert (Hs : superseded i (rg_kv_key (reg_grant reg)) 0 (World.run evs0 World.init)).
  { split; [done|]. exists (mkRegInstance reg false). by split_and!. }
  destruct (superseded_run _ _ _ evs _ Hw Hs) as (Ho' & inst & Hi' & Hk & Hfail).
  split; [|done]. apply not_true_iff_false. intros Ht. specialize (Hfail Ht).
  pose proof (proj2 (proj2 (wf_run evs _ Hw)) i _ Hi') as (_ & [_ Hlt] & _).
  unfold ticking, World.live in Ht. rewrite Hi' in Ht. destruct inst as [reg' []]; [done|].
  apply bool_decide_eq_true in Ht. specialize (Hlt Ht). unfold MAX_HEARTBEAT_RETRIES in Hlt.
  cbn in *. lia.
Qed.

(** An instance that holds its key keeps it at every tick that is answered. *)
Theorem answered_tick_renews i reg w :
  World.live i w = Some reg → Heartbeat.running (reg_hb reg) = true →
  kv_last (rg_kv_key (reg_grant reg)) (w_kv w) = hb_revision (reg_hb reg) →
  ∃ reg', World.live i (World.step (EvTick i Delivered) w) = Some reg' ∧
    Heartbeat.running (reg_hb reg') = true ∧ reg_grant reg' = reg_grant reg ∧
    kv_last (rg_kv_key (reg_grant reg)) (w_kv (World.step (EvTick i Delivered) w))
    = hb_revision (reg_hb reg').
Proof.
  intros Hl Hr Hk. cbn [World.step]. rewrite Hl, Hr. unfold ServiceRegistration.beat. cbn.
  rewrite <- Hk. destruct (kv_update _ _ _ _) as [[r|] s] eqn:Hu;
    [|by apply kv_update_accepts in Hu].
  apply kv_update_ok in Hu as (_ & _ & _ & Hlast & _). cbn. unfold World.live. cbn.
  rewrite lookup_insert_eq. cbn. eauto.
Qed.
End Store.

(** ** A store *)

Record kv_store : Set := mkStore { st_seq : Z; st_keys : gmap string (Z * option Bytes) }.

Definition st_last (k : string) (s : kv_store) : Z := from_option fst 0 (st_keys s !! k).
Definition st_append (k : string) (v : option Bytes) (s : kv_store) : kv_store :=
  mkStore (st_seq s + 1) (<[k := (st_seq s + 1, v)]> (st_keys s)).

Definition demo_store : KvServer :=
  Build_KvServer kv_store (mkStore 0 ∅) st_seq st_last
    (λ k v s, (st_seq s + 1, st_append k (Some v) s))
    (λ k v last s, if st_last k s =? last then (Some (st_seq s + 1), st_append k (Some v) s)
                   else (None, s))
    (λ k s, st_append k None s)
    (λ k s, mkStore (st_seq s) (delete k (st_keys s))).

Lemma demo_appended k v (s : kv_store) :
  @appended demo_store k (st_seq s + 1) s (st_append k v s).
Proof.
  split_and!; cbn; [lia|done|unfold st_last; cbn; by rewrite lookup_insert_eq|].
  intros k' Hk. unfold st_last. cbn. by rewrite lookup_insert_ne.
Qed.

Lemma demo_store_ok : KvServerOk demo_store.
Proof.
  split; cbn; try done.
  - intros k v s r s' ?. simplify_eq. apply demo_appended.
  - intros k v rev s r s'. destruct (Z.eqb_spec (st_last k s) rev); intros ?; simplify_eq.
    split; [done|apply demo_appended].
  - intros k v s s'. by rewrite Z.eqb_refl.
  - intros k v rev s s'. case_match; intros; by simplify_eq.
  - intros k s. eexists. apply demo_appended.
  - intros k s. unfold st_last. cbn. by rewrite lookup_delete_eq.
  - intros k k' s Hk. unfold st_last. cbn. by rewrite lookup_delete_ne.
Qed.

(** ** Two instances of one service *)

Definition oms_key : string := "svc.oms.oms_dev_1".
Definition demo_register (i : nat) : event := EvRegister i Delivered oms_key "" 10000 "".
Definition demo_run (evs : list event) : @World demo_store :=
  @World.run demo_store evs (@World.init demo_store).

(** Instance 1 beats, instance 2 takes the key over and beats. *)
Lemma heartbeat_never_overwrites_witness :
  w_log (demo_run [demo_register 1; EvTick 1 Delivered; demo_register 2; EvTick 2 Delivered;
                   EvTick 1 Delivered])
  = [WBeat 2 oms_key; WPut 2 oms_key; WBeat 1 oms_key; WPut 1 oms_key] ∧
  World.owner oms_key [WPut 2 oms_key; WBeat 1 oms_key; WPut 1 oms_key] = Some 2%nat.
Proof.
  split; [by vm_compute|].
  apply (@heartbeat_never_overwrites demo_store demo_store_ok
           [demo_register 1; EvTick 1 Delivered; demo_register 2; EvTick 2 Delivered;
            EvTick 1 Delivered] []).
  by vm_compute.
Defined.

(** Instance 1 is cut off while instance 2 takes its key over. *)
Lemma superseded_instance_stops_witness :
  let before := [demo_register 1; demo_register 2] in
  let after := [EvTick 1 RequestLost; EvTick 2 Delivered; EvTick 1 ReplyLost; EvTick 1 RequestLost;
                EvTick 1 RequestLost; EvTick 1 RequestLost] in
  @ticking demo_store 1 (@World.run demo_store after (demo_run before)) = false ∧
  World.owner oms_key (w_log (@World.run demo_store after (demo_run before))) ≠ Some 1%nat.
Proof.
  intros before after. unfold demo_run.
  refine (@superseded_instance_stops demo_store demo_store_ok before after 1
            (mkServiceRegistration (mkRegistrationGrant "" oms_key oms_key 30000 None None) ""
               (Heartbeat.start 1) false) _ _ _).
  - by vm_compute.
  - by vm_compute.
  - apply Nat.leb_le. by vm_compute.
Defined.

(** ** Instances that end more than themselves *)

(** The only instance of a key fences itself when the reply to one of its own
    heartbeats is lost: the store has applied the update, and the next one is
    refused as if another writer had intervened. *)
Example lost_reply_fences_owner :
  let w := demo_run [demo_register 1; EvTick 1 ReplyLost; EvTick 1 Delivered] in
  World.owner oms_key (w_log w) = Some 1%nat ∧
  (reg ← @World.live demo_store 1 w; hb_termination (reg_hb reg)) = Some HtFenced.
Proof. by vm_compute. Qed.

(** An instance that is stopped by a signal before its next heartbeat deletes
    the entry of the instance that took its key over, which then fences itself:
    no instance is left and no other one ever wrote the key. *)
Example stale_shutdown_removes_successor :
  let w := demo_run [demo_register 1; demo_register 2; EvTick 2 Delivered;
                     EvShutdown 1 (Some SigTerm) Delivered; EvTick 2 Delivered] in
  World.owner oms_key (w_log w) = None ∧
  (reg ← @World.live demo_store 2 w; hb_termination (reg_hb reg)) = Some HtFenced.
Proof. by vm_compute. Qed.

(** The same after an instance was cut off from the store for five ticks: its
    shutdown is not a fenced one. *)
Example lost_heartbeat_removes_successor :
  let w := demo_run ([demo_register 1] ++ replicate 5 (EvTick 1 RequestLost)
                     ++ [demo_register 2; EvShutdown 1 None Delivered; EvTick 2 Delivered]) in
  World.owner oms_key (w_log w) = None ∧
  (reg ← @World.live demo_store 2 w; hb_termination (reg_hb reg)) = Some HtFenced.
Proof. by vm_compute. Qed.

(** * Service discovery: the cache, its events and the account map

    [discovery_tracks_registry] relates the cache to the entries delivered and
    the events to the cache; [account_map_exact] says which OMS serves an
    account, for every iteration order of the snapshot.  The last section holds
    what the code does against its documentation. *)

(** What a subscriber makes of the events it receives. *)
Definition apply_event (m : registry_map) (e : DiscoveryEvent) : registry_map :=
  match e with Upsert key reg => <[key := reg]> m | Remove key => delete key m end.
Definition replay (events : list DiscoveryEvent) (m : registry_map) : registry_map :=
  foldl apply_event m events.

(** The entries of a stream up to its first error. *)
Fixpoint entries_of (stream : watch_stream) : list KvEntry :=
  match stream with (_, Ok entry) :: rest => entry :: entries_of rest | _ => [] end.

Lemma replay_app l k m : replay (l ++ k) m = replay k (replay l m).
Proof. apply foldl_app. Qed.

Lemma replay_removes keys (m : registry_map) k :
  replay (Remove <$> keys) m !! k = if decide (k ∈ keys) then None else m !! k.
Proof.
  revert m. induction keys as [|key keys IH]; intros m; cbn; [by case_decide; set_solver|].
  unfold replay in IH. rewrite IH. destruct (decide (k = key)) as [->|Hne].
  - rewrite lookup_delete_eq. repeat case_decide; set_solver.
  - rewrite lookup_delete_ne by done. repeat case_decide; set_solver.
Qed.

Lemma replay_upserts (l : list (string * SvcRegProto)) (m : registry_map) k :
  NoDup l.*1 →
  replay ((λ kr, Upsert kr.1 kr.2) <$> l) m !! k = match (list_to_map l : registry_map) !! k with
                                                   | Some r => Some r
                                                   | None => m !! k
                                                   end.
Proof.
  revert m. induction l as [|[key reg] l IH]; intros m Hnd; [done|]. cbn in *.
  apply NoDup_cons in Hnd as [Hk Hnd]. unfold replay in IH. rewrite IH by done.
  destruct (decide (k = key)) as [->|Hne].
  - rewrite (not_elem_of_list_to_map_1 l) by done. by rewrite !lookup_insert_eq.
  - by rewrite !lookup_insert_ne.
Qed.

Section Watch.
Context (decode : Bytes → option SvcRegProto) `{!HashIter string, !HashIterOk string}.

Lemma apply_entry_event m entry :
  replay (option_list (KvDiscoveryClient.apply_entry decode m entry).1) m
  = (KvDiscoveryClient.apply_entry decode m entry).2.
Proof.
  unfold KvDiscoveryClient.apply_entry.
  destruct (ke_operation entry); [destruct (decode (ke_value entry)); [|done]| |]; cbn.
  - case_decide as Hm; cbn; [|done]. by rewrite insert_id.
  - destruct (m !! ke_key entry) eqn:Hm; cbn; [done|]. by rewrite delete_id.
  - destruct (m !! ke_key entry) eqn:Hm; cbn; [done|]. by rewrite delete_id.
Qed.

Lemma hash_iter_NoDup_filter (P : string * SvcRegProto → Prop) `{∀ x, Decision (P x)} m :
  NoDup (filter P (hash_iter m)).*1.
Proof.
  apply (sublist_NoDup _ (hash_iter m).*1); [|apply fmap_sublist, sublist_filter].
  rewrite (hash_iter_perm _ m). apply NoDup_fst_map_to_list.
Qed.

Lemma swap_events staging c :
  replay (kd_events c) ∅ = kd_cache c →
  replay (kd_events (KvDiscoveryClient.swap_snapshot staging c)) ∅ = staging.
Proof.
  intros Hc. unfold KvDiscoveryClient.swap_snapshot. cbn [kd_events].
  rewrite !replay_app, Hc. apply map_eq. intros k.
  rewrite replay_upserts by apply hash_iter_NoDup_filter.
  destruct (list_to_map _ !! k) as [r|] eqn:Hl.
  { apply elem_of_list_to_map_2, list_elem_of_filter in Hl as [_ Hl].
    by apply elem_of_hash_iter in Hl. }
  rewrite replay_removes. destruct (staging !! k) as [r|] eqn:Hs.
  - rewrite decide_False by (rewrite list_elem_of_filter; intros []; congruence).
    apply dec_stable. intros Hne. apply not_elem_of_list_to_map_2 in Hl. apply Hl.
    apply list_elem_of_fmap. exists (k, r). split; [done|]. apply list_elem_of_filter.
    split; [done|]. by apply elem_of_hash_iter.
  - case_decide as Hk; [done|]. apply eq_None_not_Some. intros [r Hr]. apply Hk.
    apply list_elem_of_filter. split; [done|]. apply list_elem_of_fmap. exists (k, r).
    split; [done|]. by apply elem_of_hash_iter.
Qed.

Definition synced (c : KvDiscoveryClient) : Prop := replay (kd_events c) ∅ = kd_cache c.

Lemma synced_live stream c : synced c → synced (KvDiscoveryClient.live_updates decode stream c).
Proof.
  revert c. induction stream as [|[d [entry|e]] stream IH]; intros c Hc; [done| |done]. cbn.
  apply IH. unfold synced, KvDiscoveryClient.apply_live.
  destruct (KvDiscoveryClient.apply_entry decode (kd_cache c) entry) as [event cache] eqn:He.
  cbn [kd_events kd_cache]. rewrite replay_app, Hc. pose proof (apply_entry_event (kd_cache c) entry) as Hev.
  by rewrite He in Hev.
Qed.

Lemma synced_round watch c : synced c → synced (KvDiscoveryClient.watch_round decode watch c).
Proof.
  intros Hc. destruct watch as [stream|]; [|done]. cbn.
  destruct (KvDiscoveryClient.drain_snapshot decode stream ∅) as [[[] staging] rest]; [done|].
  apply synced_live. by apply swap_events.
Qed.

(** The map that the entries build up. *)
Definition built (m : registry_map) (entries : list KvEntry) : registry_map :=
  foldl (λ m entry, (KvDiscoveryClient.apply_entry decode m entry).2) m entries.

Lemma live_cache stream c :
  kd_cache (KvDiscoveryClient.live_updates decode stream c) = built (kd_cache c) (entries_of stream).
Proof.
  revert c. induction stream as [|[d [entry|e]] stream IH]; intros c; [done| |done]. cbn.
  rewrite IH. f_equal. unfold KvDiscoveryClient.apply_live.
  by destruct (KvDiscoveryClient.apply_entry _ _ _).
Qed.

Lemma drain_built stream staging staged rest :
  KvDiscoveryClient.drain_snapshot decode stream staging = (false, staged, rest) →
  built staged (entries_of rest) = built staging (entries_of stream).
Proof.
  revert staging. induction stream as [|[d item] stream IH]; intros staging; cbn [KvDiscoveryClient.drain_snapshot].
  { intros ?. by simplify_eq. }
  case_match; [intros ?; by simplify_eq|]. destruct item; [|done]. apply IH.
Qed.

(** C26: The cache is what the registry said, and the events say the same.
    After any sequence of connections, failed ones included: a subscriber that
    applies the events to an empty map has exactly the cache; and a connection
    whose snapshot does not fail leaves in the cache exactly what its entries
    up to the first error build up from nothing, whenever the settle time ends
    the snapshot phase. *)
Theorem discovery_tracks_registry rounds stream :
  let c := KvDiscoveryClient.watch_loop decode rounds KvDiscoveryClient.start in
  replay (kd_events c) ∅ = kd_cache c ∧
  ((KvDiscoveryClient.drain_snapshot decode stream ∅).1.1 = false →
   kd_cache (KvDiscoveryClient.watch_round decode (Some stream) c) = built ∅ (entries_of stream)).
Proof.
  intros c. split.
  - apply (foldl_inv synced); [done|]. intros; by apply synced_round.
  - cbn. destruct (KvDiscoveryClient.drain_snapshot decode stream ∅) as [[[] staged] rest] eqn:Hd;
      [done|]. intros _. rewrite live_cache. by apply drain_built in Hd.
Qed.
End Watch.

(** ** The account map *)

Section Accounts.
Context `{!HashIter string, !HashIterOk string}.

(** A registration of the snapshot that counts, with its endpoint, claims an
    account. *)
Definition claims (now : Z) (target : option string) (entries : list (string * SvcRegProto))
    (a : Z) (ep : OmsEndpoint) : Prop :=
  ∃ kr, kr ∈ entries ∧ oms_entry now target kr = Some ep ∧ a ∈ sp_account_ids kr.2.

(** What a result says of the claims that were processed. *)
Definition account_map_spec (claim : Z → OmsEndpoint → Prop)
    (r : result (gmap Z OmsEndpoint) SdkError) : Prop :=
  match r with
  | Ok m =>
      (∀ a ep, m !! a = Some ep → claim a ep) ∧
      (∀ a ep, claim a ep → ∃ ep', m !! a = Some ep' ∧ oe_oms_id ep' = oe_oms_id ep)
  | Err (DiscoveryConflict a x y) =>
      x ≠ y ∧ ∃ ep ep', claim a ep ∧ claim a ep' ∧ oe_oms_id ep = x ∧ oe_oms_id ep' = y
  | Err _ => False
  end.

Lemma account_map_spec_mono (P Q : Z → OmsEndpoint → Prop) r :
  (∀ a ep, P a ep ↔ Q a ep) → account_map_spec P r → account_map_spec Q r.
Proof.
  intros HPQ. destruct r as [m|[]]; cbn; try done.
  - intros [H1 H2]. split; intros a ep Ha; [by apply HPQ, H1|by apply H2, HPQ].
  - intros (Hne & ep & ep' & Hp & Hp' & ?). split; [done|]. exists ep, ep'. by rewrite <- !HPQ.
Qed.

Lemma claim_accounts_spec claim ep l m :
  account_map_spec claim (Ok m) →
  account_map_spec (λ a ep', claim a ep' ∨ a ∈ l ∧ ep' = ep) (claim_accounts ep l m).
Proof.
  revert claim m. induction l as [|a l IH]; intros claim m Hm; cbn [claim_accounts].
  { eapply account_map_spec_mono, Hm. set_solver. }
  destruct (m !! a) as [ex|] eqn:Ha.
  - destruct (String.eqb_spec (oe_oms_id ex) (oe_oms_id ep)) as [He|He]; cbn [negb].
    + eapply account_map_spec_mono; [|apply (IH (λ a' ep', claim a' ep' ∨ a' = a ∧ ep' = ep))].
      { set_solver. }
      destruct Hm as [H1 H2]. split; [auto|]. intros a' ep' [Hc|[-> ->]]; eauto.
    + split; [done|]. exists ex, ep. split_and!; [left; by apply Hm|right; set_solver|done..].
  - eapply account_map_spec_mono; [|apply (IH (λ a' ep', claim a' ep' ∨ a' = a ∧ ep' = ep))].
    { set_solver. }
    destruct Hm as [H1 H2]. split; intros a' ep'.
    + rewrite lookup_insert_Some. intros [[<- <-]|[_ Hl]]; eauto.
    + intros [Hc|[-> ->]]; [|rewrite lookup_insert_eq; eauto].
      destruct (H2 a' ep' Hc) as (ex & Hl & He). exists ex. split; [|done].
      rewrite lookup_insert_ne; [done|]. congruence.
Qed.

Lemma claim_entries_spec now target l claim m :
  account_map_spec claim (Ok m) →
  account_map_spec (λ a ep, claim a ep ∨ claims now target l a ep)
    (claim_entries now target l m).
Proof.
  unfold claims. revert claim m. induction l as [|kr l IH]; intros claim m Hm; cbn [claim_entries].
  { eapply account_map_spec_mono, Hm. set_solver. }
  destruct (oms_entry now target kr) as [ep|] eqn:He.
  2: { eapply account_map_spec_mono, IH, Hm. set_solver. }
  pose proof (claim_accounts_spec claim ep (sp_account_ids kr.2) m Hm) as Hc.
  destruct (claim_accounts ep (sp_account_ids kr.2) m) as [m'|e].
  - eapply account_map_spec_mono, IH, Hc. set_solver.
  - destruct e; try done. destruct Hc as (Hne & ep1 & ep2 & H1 & H2 & ?). split; [done|].
    exists ep1, ep2. set_solver.
Qed.

(** C27: An account resolves to the OMS that claims it.  For every snapshot and
    whatever order its entries are visited in: when no two live OMS
    registrations with different ids claim one account, the account map holds
    exactly the claimed accounts, each with the endpoint of a registration that
    claims it and the id of all of them; otherwise resolution fails and names
    an account with two OMS that claim it. *)
Theorem account_map_exact now target snapshot :
  account_map_spec
    (λ a ep, ∃ key reg, snapshot !! key = Some reg ∧ oms_entry now target (key, reg) = Some ep ∧
       a ∈ sp_account_ids reg)
    (build_account_map_with_target now snapshot target).
Proof.
  eapply account_map_spec_mono;
    [|apply (claim_entries_spec now target (hash_iter snapshot) (λ _ _, False))];
    [|by split; [set_solver|]].
  intros a ep. unfold claims. split.
  - intros [[]|([key reg] & Hin & He & Ha)]. apply elem_of_hash_iter in Hin. eauto.
  - intros (key & reg & Hs & He & Ha). right. exists (key, reg).
    split; [by apply elem_of_hash_iter|done].
Qed.
End Accounts.

Lemma account_map_exact_witness :
  let snapshot : registry_map := {[ "svc.oms.a" := oms_registration 5 "a" "h:1" [7; 8] ]} in
  @build_account_map_with_target canonical_iter 9 snapshot None
  = Ok {[ 7 := mkOmsEndpoint "a" "h:1" None; 8 := mkOmsEndpoint "a" "h:1" None ]} ∧
  account_map_spec
    (λ a ep, ∃ key reg, snapshot !! key = Some reg ∧ oms_entry 9 None (key, reg) = Some ep ∧
       a ∈ sp_account_ids reg)
    (@build_account_map_with_target canonical_iter 9 snapshot None).
Proof.
  intros snapshot. split; [by vm_compute|]. exact (@account_map_exact _ canonical_iter_ok 9 None snapshot).
Defined.

(** A decoder for the examples: the bytes are the id of an OMS. *)
Definition demo_decode (b : Bytes) : option SvcRegProto := Some (oms_registration 0 b "h:1" [1]).
Definition demo_put (d : Z) (k : string) : Z * result KvEntry unit :=
  (d, Ok (mkKvEntry k k OpPut)).

Lemma discovery_tracks_registry_witness :
  let c := @KvDiscoveryClient.watch_loop demo_decode canonical_iter
             [Some [demo_put 1 "a"; demo_put 1 "b"; (1000, Err tt)]; None]
             KvDiscoveryClient.start in
  kd_events c ≠ [] ∧ replay (kd_events c) ∅ = kd_cache c ∧
  kd_cache (@KvDiscoveryClient.watch_round demo_decode canonical_iter
              (Some [demo_put 1 "b"; demo_put 900 "c"; (5, Ok (mkKvEntry "b" "" OpDelete))]) c)
  = {[ "c" := oms_registration 0 "c" "h:1" [1] ]}.
Proof.
  intros c. pose proof (@discovery_tracks_registry demo_decode canonical_iter canonical_iter_ok
    [Some [demo_put 1 "a"; demo_put 1 "b"; (1000, Err tt)]; None]
    [demo_put 1 "b"; demo_put 900 "c"; (5, Ok (mkKvEntry "b" "" OpDelete))]) as [H1 H2].
  split; [by vm_compute|]. split; [exact H1|]. etrans; [exact (H2 eq_refl)|by vm_compute].
Defined.

(** ** Against the documentation *)

(** The cache is emptied although no registration went away: after a
    reconnect whose first entry takes longer than the settle time, the swap
    installs the empty staging map and announces the removal of every service. *)
Example slow_snapshot_empties_cache :
  let stream d := [demo_put d "svc.oms.a"] in
  let c := @KvDiscoveryClient.watch_loop demo_decode canonical_iter [Some (stream 1)]
             KvDiscoveryClient.start in
  let '(failed, staging, rest) := KvDiscoveryClient.drain_snapshot demo_decode (stream 201) ∅ in
  let c' := @KvDiscoveryClient.swap_snapshot canonical_iter staging c in
  failed = false ∧ size (kd_cache c) = 1%nat ∧ kd_cache c' = ∅ ∧
  last (kd_events c') = Some (Remove "svc.oms.a").
Proof. by vm_compute. Qed.

(** No registration the services build carries a lease, so the filter of live
    entries never drops one, at any time. *)
Theorem registrations_never_expire now t id address x y v accounts caps attrs port :
  expired t (engine_registration now id address x y accounts) = false ∧
  expired t (oms_registration now id address accounts) = false ∧
  expired t (mdgw_registration now id address v caps attrs) = false ∧
  (∀ a, expired t (gw_registration now id address v a port) = false).
Proof. done. Qed.
