(* ===== verification/RefdataSdk.v ===== *)
(** * The reference-data cache of the trading SDK

    [zk-trading-sdk-rs/src/refdata.rs]: queries through a cache, and the tasks
    that invalidate it.  The gRPC service is a parameter.  A query takes the
    lock of the cache twice, around its call; [lookup_instrument] and
    [store_answer] are the two parts, so that other tasks may run in between.
    [refdata_serves_current] holds when messages are handled between queries;
    the last section shows what a message during a query does. *)

From S2P Require Import Prelude Text F64 Registry Discovery.

(** The fields of the disclosure level the SDK asks for. *)
Record InstrumentRefdataResponse : Set := mkInstrumentRefdataResponse {
  ir_instrument_id : string;
  ir_venue : string;
  ir_instrument_exch : string;
  ir_instrument_type : string;
  ir_disabled : bool;
  ir_price_tick_size : f64;
  ir_qty_lot_size : f64;
  ir_base_asset : string;
  ir_quote_asset : string;
  ir_updated_at_ms : Z;
}.

Record MarketStatusResponse : Set := mkMarketStatusResponse {
  ms_venue : string;
  ms_market : string;
  ms_session_state : string;
  ms_effective_at_ms : Z;
}.

Record CachedEntry (T : Set) : Set := mkCachedEntry {
  ce_data : T;
  ce_valid : bool;
  ce_deprecated : bool;
  ce_loaded_at_ms : Z;
}.
Arguments mkCachedEntry {T}.
Arguments ce_data {T}.
Arguments ce_valid {T}.
Arguments ce_deprecated {T}.
Arguments ce_loaded_at_ms {T}.

Record RefdataCache : Type := mkRefdataCache {
  rc_instruments : gmap string (CachedEntry InstrumentRefdataResponse);
  rc_by_venue_symbol : gmap (string * string) string;
  rc_market_status : gmap (string * string) (CachedEntry MarketStatusResponse);
}.

(** [trait RefdataGrpc], as the answers of the moment. *)
Record RefdataGrpc : Type := mkRefdataGrpc {
  query_instrument_by_id : string → result InstrumentRefdataResponse SdkError;
  query_instrument_by_venue_symbol : string → string → result InstrumentRefdataResponse SdkError;
  grpc_query_market_status : string → string → result MarketStatusResponse SdkError;
}.

Module RefdataSdkInner.

Definition new : RefdataCache := mkRefdataCache ∅ ∅ ∅.

Definition upsert_instrument (now : Z) (data : InstrumentRefdataResponse) (c : RefdataCache)
    : RefdataCache :=
  mkRefdataCache
    (<[ir_instrument_id data := mkCachedEntry data true false now]> (rc_instruments c))
    (<[(ir_venue data, ir_instrument_exch data) := ir_instrument_id data]> (rc_by_venue_symbol c))
    (rc_market_status c).

Definition upsert_market_status (now : Z) (data : MarketStatusResponse) (c : RefdataCache)
    : RefdataCache :=
  mkRefdataCache (rc_instruments c) (rc_by_venue_symbol c)
    (<[(ms_venue data, ms_market data) := mkCachedEntry data true false now]> (rc_market_status c)).

Definition update_market_status_inline : Z → MarketStatusResponse → RefdataCache → RefdataCache :=
  upsert_market_status.

Definition invalidate (instrument_id : string) (deprecated : bool) (c : RefdataCache)
    : RefdataCache :=
  mkRefdataCache
    (alter (λ e, mkCachedEntry (ce_data e) false deprecated (ce_loaded_at_ms e)) instrument_id
       (rc_instruments c))
    (rc_by_venue_symbol c) (rc_market_status c).

(** The first section of [query_instrument]: an answer, or that the service is
    to be asked, with the stale data there is. *)
Inductive lookup : Set :=
| Answer (r : result InstrumentRefdataResponse SdkError)
| Ask (stale : option InstrumentRefdataResponse).

Definition lookup_instrument (instrument_id : string) (c : RefdataCache) : lookup :=
  match rc_instruments c !! instrument_id with
  | Some entry =>
      if ce_deprecated entry then Answer (Err (RefdataDeprecated instrument_id))
      else if ce_valid entry then Answer (Ok (ce_data entry))
      else Ask (Some (ce_data entry))
  | None => Ask None
  end.

(** The rest of [query_instrument], with the answer of the service. *)
Definition store_answer (now : Z) (instrument_id : string)
    (stale : option InstrumentRefdataResponse) (answer : result InstrumentRefdataResponse SdkError)
    (c : RefdataCache) : result InstrumentRefdataResponse SdkError * RefdataCache :=
  match answer, stale with
  | Ok data, _ => (Ok data, upsert_instrument now data c)
  | Err _, Some stale_data => (Ok stale_data, c)
  | Err _, None => (Err (RefdataNotAvailable instrument_id), c)
  end.

Definition query_instrument (grpc : RefdataGrpc) (now : Z) (instrument_id : string)
    (c : RefdataCache) : result InstrumentRefdataResponse SdkError * RefdataCache :=
  match lookup_instrument instrument_id c with
  | Answer r => (r, c)
  | Ask stale => store_answer now instrument_id stale (query_instrument_by_id grpc instrument_id) c
  end.

Definition query_by_venue_symbol (grpc : RefdataGrpc) (now : Z) (venue instrument_exch : string)
    (c : RefdataCache) : result InstrumentRefdataResponse SdkError * RefdataCache :=
  match rc_by_venue_symbol c !! (venue, instrument_exch) with
  | Some instrument_id => query_instrument grpc now instrument_id c
  | None =>
      match query_instrument_by_venue_symbol grpc venue instrument_exch with
      | Ok data => (Ok data, upsert_instrument now data c)
      | Err _ => (Err (RefdataNotAvailable (venue +:+ "/" +:+ instrument_exch)), c)
      end
  end.

Definition query_market_status (grpc : RefdataGrpc) (now : Z) (venue market : string)
    (c : RefdataCache) : result MarketStatusResponse SdkError * RefdataCache :=
  let ask :=
    match grpc_query_market_status grpc venue market with
    | Ok data => (Ok data, upsert_market_status now data c)
    | Err e => (Err e, c)
    end in
  match rc_market_status c !! (venue, market) with
  | Some entry => if ce_valid entry then (Ok (ce_data entry), c) else ask
  | None => ask
  end.

(** A decoded message of the topic of [spawn_invalidation_task]. *)
Record RefdataInvalidationEvent : Set := mkRefdataInvalidationEvent {
  rie_event_type : string;
  rie_instrument_id : string;
  rie_change_class : string;
}.

(** One message of [spawn_invalidation_task]; none if it does not decode. *)
Definition on_invalidation (grpc : RefdataGrpc) (now : Z)
    (msg : option RefdataInvalidationEvent) (c : RefdataCache) : RefdataCache :=
  match msg with
  | None => c
  | Some event =>
      if negb (String.eqb (rie_event_type event) "refdata_updated")
         || is_empty (rie_instrument_id event) then c
      else
        let deprecated := eq_ignore_ascii_case (rie_change_class event) "deprecate" in
        let c := invalidate (rie_instrument_id event) deprecated c in
        if negb deprecated then (query_instrument grpc now (rie_instrument_id event) c).2 else c
  end.

Record MarketStatusEvent : Set := mkMarketStatusEvent {
  mse_event_type : string;
  mse_venue : string;
  mse_market : string;
  mse_session_state : string;
  mse_effective_at_ms : Z;
}.

(** One message of [spawn_market_status_task]. *)
Definition on_market_status (now : Z) (msg : option MarketStatusEvent) (c : RefdataCache)
    : RefdataCache :=
  match msg with
  | None => c
  | Some event =>
      if negb (String.eqb (mse_event_type event) "market_status_updated") then c
      else update_market_status_inline now
             (mkMarketStatusResponse (mse_venue event) (mse_market event)
                (mse_session_state event) (mse_effective_at_ms event)) c
  end.
End RefdataSdkInner.

(** ** The cache serves what the service has *)

(** The instruments of the service, by id, and its answers while it is
    reachable.  [by_symbol] is how it finds an instrument by symbol. *)
Section Service.
Context (by_symbol : gmap string InstrumentRefdataResponse → string → string → option string).
Context (status : string → string → result MarketStatusResponse SdkError).

Definition service (srv : gmap string InstrumentRefdataResponse) (reachable : bool) : RefdataGrpc :=
  let answer id :=
    match srv !! id with Some d => if reachable then Ok d else Err SdkGrpc | None => Err SdkGrpc end in
  mkRefdataGrpc answer
    (λ v e, match by_symbol srv v e with Some id => answer id | None => Err SdkGrpc end) status.

(** [SeChange]: the service changes an instrument and the SDK handles its
    message; [change_class] is the class of the message. *)
Inductive sdk_event : Set :=
| SeQuery (id : string) (reachable : bool) (now : Z)
| SeSymbol (venue exch : string) (reachable : bool) (now : Z)
| SeChange (data : InstrumentRefdataResponse) (change_class : string) (reachable : bool) (now : Z).

Definition sdk_state : Type := gmap string InstrumentRefdataResponse * RefdataCache.

Definition sdk_step (s : sdk_state) (e : sdk_event) : sdk_state :=
  let '(srv, c) := s in
  match e with
  | SeQuery id reach now => (srv, (RefdataSdkInner.query_instrument (service srv reach) now id c).2)
  | SeSymbol v x reach now =>
      (srv, (RefdataSdkInner.query_by_venue_symbol (service srv reach) now v x c).2)
  | SeChange data class reach now =>
      let srv := <[ir_instrument_id data := data]> srv in
      (srv, RefdataSdkInner.on_invalidation (service srv reach) now
              (Some (RefdataSdkInner.mkRefdataInvalidationEvent "refdata_updated"
                       (ir_instrument_id data) class)) c)
  end.

Definition sdk_run (evs : list sdk_event) : sdk_state := foldl sdk_step (∅, RefdataSdkInner.new) evs.

(** Every instrument of the service is filed under its id, and every valid
    entry of the cache holds what the service has. *)
Definition current (s : sdk_state) : Prop :=
  map_Forall (λ id d, ir_instrument_id d = id) s.1 ∧
  map_Forall (λ id e, ce_valid e = true → s.1 !! id = Some (ce_data e)) (rc_instruments s.2).

(** Ids are not empty: the messages of an empty one are ignored. *)
Definition named (e : sdk_event) : Prop :=
  match e with SeChange data _ _ _ => is_empty (ir_instrument_id data) = false | _ => True end.

Lemma current_upsert srv c now d id :
  current (srv, c) → srv !! id = Some d →
  current (srv, RefdataSdkInner.upsert_instrument now d c).
Proof.
  intros [Hs Hc] Hd. split; [done|]. cbn in *. intros id' e. rewrite lookup_insert_Some.
  intros [[<- <-]|[_ He]] Hv; [|by apply Hc]. cbn. by rewrite (Hs id d Hd).
Qed.

Lemma service_by_id srv reach id d :
  query_instrument_by_id (service srv reach) id = Ok d → srv !! id = Some d.
Proof. cbn. destruct (srv !! id); [|done]. destruct reach; intros; by simplify_eq. Qed.

Lemma current_query srv c reach now id :
  current (srv, c) →
  current (srv, (RefdataSdkInner.query_instrument (service srv reach) now id c).2).
Proof.
  intros Hc. unfold RefdataSdkInner.query_instrument.
  destruct (RefdataSdkInner.lookup_instrument id c) as [|stale]; [done|].
  unfold RefdataSdkInner.store_answer.
  destruct (query_instrument_by_id (service srv reach) id) as [d|] eqn:Hd.
  - apply (current_upsert srv c now d id Hc). by eapply service_by_id.
  - by destruct stale.
Qed.

Lemma current_change srv c id deprecated d :
  current (srv, c) → ir_instrument_id d = id →
  current (<[id := d]> srv, RefdataSdkInner.invalidate id deprecated c).
Proof.
  intros [Hs Hc] Hid. split; cbn in *; [by apply map_Forall_insert_2|].
  intros id' e. destruct (decide (id' = id)) as [->|Hne].
  - rewrite lookup_alter_eq. destruct (rc_instruments c !! id); cbn; [|done].
    intros ?. by simplify_eq/=.
  - rewrite lookup_alter_ne, lookup_insert_ne by done. apply Hc.
Qed.

Lemma current_step s e : current s → named e → current (sdk_step s e).
Proof.
  intros Hc Hn. destruct s as [srv c], e as [id reach now|v x reach now|data class reach now]; cbn.
  - by apply current_query.
  - unfold RefdataSdkInner.query_by_venue_symbol.
    destruct (rc_by_venue_symbol c !! (v, x)); [by apply current_query|].
    destruct (query_instrument_by_venue_symbol _ _ _) as [d|] eqn:Hd; [|done]. cbn in Hd.
    destruct (by_symbol srv v x) as [id|]; [|done].
    eapply (current_upsert srv c now d id Hc). by eapply (service_by_id srv reach).
  - cbn in Hn. rewrite Hn. cbn [orb negb].
    pose proof (current_change srv c _ (eq_ignore_ascii_case class "deprecate") data Hc eq_refl).
    destruct (eq_ignore_ascii_case class "deprecate"); cbn [negb]; [done|]. by apply current_query.
Qed.

(** Reference data is never older than the service's last announced change.
    After any sequence of queries and changes, each with the service reachable
    or not, where the messages are handled as they come: a query that the
    service could answer returns exactly what the service has, or that the
    instrument is deprecated. *)
Theorem refdata_serves_current evs now id d :
  Forall named evs → (sdk_run evs).1 !! id = Some d →
  let r := (RefdataSdkInner.query_instrument (service (sdk_run evs).1 true) now id
              (sdk_run evs).2).1 in
  r = Ok d ∨ r = Err (RefdataDeprecated id).
Proof.
  intros Hn Hd r. assert (Hc : current (sdk_run evs)).
  { apply (foldl_inv current); [by split; apply map_Forall_empty|].
    intros s e He Hs. apply current_step; [done|]. by eapply Forall_forall in Hn. }
  subst r. destruct (sdk_run evs) as [srv c]. cbn in Hd. cbn [fst snd].
  unfold RefdataSdkInner.query_instrument, RefdataSdkInner.lookup_instrument.
  destruct (rc_instruments c !! id) as [e|] eqn:He; cbn; rewrite ?Hd; [|by left].
  destruct (ce_deprecated e); [by right|]. left.
  destruct (ce_valid e) eqn:Hv; cbn; rewrite ?Hd; [|done].
  pose proof (proj2 Hc id e He Hv) as Hd'. cbn in Hd'. congruence.
Qed.
End Service.

(** ** A change during a query *)

Definition demo_instrument (tick : f64) : InstrumentRefdataResponse :=
  mkInstrumentRefdataResponse "BTC" "OKX" "BTC-USDT" "SPOT" false tick tick "BTC" "USDT" 0.
Definition no_symbols (srv : gmap string InstrumentRefdataResponse) (v e : string) : option string :=
  None.
Definition no_status (v m : string) : result MarketStatusResponse SdkError := Err SdkGrpc.

Lemma refdata_serves_current_witness :
  let evs := [SeChange (demo_instrument (f64.of_Z 1)) "" true 1; SeQuery "BTC" true 2;
              SeChange (demo_instrument f64.zero) "" false 3] in
  let r := (RefdataSdkInner.query_instrument
              (service no_symbols no_status (sdk_run no_symbols no_status evs).1 true) 4 "BTC"
              (sdk_run no_symbols no_status evs).2).1 in
  r = Ok (demo_instrument f64.zero) ∨ r = Err (RefdataDeprecated "BTC").
Proof.
  apply (refdata_serves_current no_symbols no_status
    [SeChange (demo_instrument (f64.of_Z 1)) "" true 1; SeQuery "BTC" true 2;
     SeChange (demo_instrument f64.zero) "" false 3] 4 "BTC" (demo_instrument f64.zero)).
  - by repeat (apply Forall_cons; split; [done|]).
  - by vm_compute.
Defined.

(** The answer a query waits for is stored after a change that was announced
    and handled meanwhile: the cache then serves the old data as valid, until
    the next announcement. *)
Example late_answer_hides_change :
  let old := demo_instrument f64.zero in
  let new := demo_instrument (f64.of_Z 1) in
  let srv := <["BTC" := new]> ∅ in
  let c := RefdataSdkInner.on_invalidation (service no_symbols no_status srv true) 2
             (Some (RefdataSdkInner.mkRefdataInvalidationEvent "refdata_updated" "BTC" ""))
             RefdataSdkInner.new in
  RefdataSdkInner.lookup_instrument "BTC" RefdataSdkInner.new = RefdataSdkInner.Ask None ∧
  RefdataSdkInner.lookup_instrument "BTC" c = RefdataSdkInner.Answer (Ok new) ∧
  RefdataSdkInner.lookup_instrument "BTC"
    (RefdataSdkInner.store_answer 3 "BTC" None (Ok old) c).2 = RefdataSdkInner.Answer (Ok old).
Proof. by vm_compute. Qed.

(** A deprecation handled during a reload is undone by the reload. *)
Example late_answer_undoes_deprecation :
  let d := demo_instrument (f64.of_Z 1) in
  let c0 := RefdataSdkInner.invalidate "BTC" false
              (RefdataSdkInner.upsert_instrument 1 d RefdataSdkInner.new) in
  let c1 := RefdataSdkInner.invalidate "BTC" true c0 in
  RefdataSdkInner.lookup_instrument "BTC" c0 = RefdataSdkInner.Ask (Some d) ∧
  RefdataSdkInner.lookup_instrument "BTC" c1
  = RefdataSdkInner.Answer (Err (RefdataDeprecated "BTC")) ∧
  RefdataSdkInner.lookup_instrument "BTC"
    (RefdataSdkInner.store_answer 3 "BTC" (Some d) (Ok d) c1).2 = RefdataSdkInner.Answer (Ok d).
Proof. by vm_compute. Qed.
