(* ===== verification/ConfigMgmt.v ===== *)
(** * Runtime configuration

    [zk-infra-rs/src/config_mgmt.rs] and [bootstrap.rs].  Printing and parsing
    JSON and SHA-256 are parameters; clock readings are arguments.  A service
    is an instance of [ServiceBootstrap]; the second half holds those of the
    OMS, the gateways and the engine. *)

From S2P Require Import Prelude Text F64 Json Registry Discovery.

(** ** [config_mgmt.rs] *)

Record FieldDescriptor : Set := mkFieldDescriptor {
  fd_field_path : string;
  fd_reloadable : bool;
  fd_is_secret_ref : bool;
  fd_is_resolved_secret : bool;
}.

(** The maps of the library are ordered already; [sort_keys] rebuilds them. *)
Fixpoint sort_keys (value : Value) : Value :=
  match value with
  | JObject map =>
      JObject
        ((fix go acc map :=
            match map with
            | [] => acc
            | (k, v) :: map => go (map_insert k (sort_keys v) acc) map
            end) [] map)
  | JArray arr => JArray (sort_keys <$> arr)
  | other => other
  end.

Definition REDACTED : Value := JString "***REDACTED***".

Definition redact_path (json : Value) (path : string) : Value :=
  match pointer_tokens path with Some tokens => set_at tokens REDACTED json | None => json end.

Definition redact_secrets (json : Value) (secret_paths : list string) : Value :=
  foldl redact_path json secret_paths.

Record FieldDiff : Set := mkFieldDiff {
  dif_path : string;
  dif_old_value : option Value;
  dif_new_value : option Value;
}.

Fixpoint diff_recursive (old new : Value) (prefix : string) : list FieldDiff :=
  match old, new with
  | JObject a, JObject b =>
      (fix go l :=
         match l with
         | [] => []
         | (key, old_val) :: l =>
             let path := prefix +:+ "/" +:+ key in
             match field key b with
             | Some new_val => diff_recursive old_val new_val path
             | None => [mkFieldDiff path (Some old_val) None]
             end ++ go l
         end) a
      ++ omap (λ '(key, new_val),
                 match field key a with
                 | Some _ => None
                 | None => Some (mkFieldDiff (prefix +:+ "/" +:+ key) None (Some new_val))
                 end) b
  | _, _ => if value_eq old new then [] else [mkFieldDiff prefix (Some old) (Some new)]
  end.

Definition diff_configs (old new : Value) : list FieldDiff := diff_recursive old new "".

Inductive DriftStatus : Set := DriftUnspecified | NoDiff | Reloadable | RestartRequired.
#[export] Instance DriftStatus_eq_dec : EqDecision DriftStatus.
Proof. solve_decision. Defined.
Definition drift_value (s : DriftStatus) : Z :=
  match s with DriftUnspecified => 0 | NoDiff => 1 | Reloadable => 2 | RestartRequired => 3 end.

Definition find_descriptor (path : string) (descriptors : list FieldDescriptor)
    : option FieldDescriptor :=
  snd <$> list_find (λ d, fd_field_path d = path) descriptors.

(** The status of one diff, as both functions below compute it. *)
Definition field_status (descriptors : list FieldDescriptor) (diff : FieldDiff) : DriftStatus :=
  match find_descriptor (dif_path diff) descriptors with
  | Some d =>
      if fd_is_secret_ref d then RestartRequired
      else if fd_reloadable d then Reloadable else RestartRequired
  | None => RestartRequired
  end.

Fixpoint worst_status (descriptors : list FieldDescriptor) (worst : DriftStatus)
    (diffs : list FieldDiff) : DriftStatus :=
  match diffs with
  | [] => worst
  | diff :: diffs =>
      let status := field_status descriptors diff in
      if decide (status = RestartRequired) then RestartRequired
      else worst_status descriptors
             (if drift_value worst <? drift_value status then status else worst) diffs
  end.

Definition classify_drift (diffs : list FieldDiff) (descriptors : list FieldDescriptor)
    : DriftStatus :=
  match diffs with [] => NoDiff | _ => worst_status descriptors Reloadable diffs end.

Record ChangedField : Set := mkChangedField {
  cf_field_path : string;
  cf_desired_value : string;
  cf_current_value : string;
  cf_classification : DriftStatus;
}.
Record ConfigDriftResult : Set := mkConfigDriftResult {
  cdr_overall_status : DriftStatus;
  cdr_changed_fields : list ChangedField;
}.

Record SecretRefStatus : Set := mkSecretRefStatus {
  srs_logical_ref : string;
  srs_resolved : bool;
  srs_resolved_at_ms : Z;
  srs_error : string;
}.
Record GetCurrentConfigResponse : Set := mkGetCurrentConfigResponse {
  gcc_effective_config_json : string;
  gcc_metadata : option ConfigMetadata;
  gcc_service_kind : string;
  gcc_logical_id : string;
  gcc_secret_ref_statuses : list SecretRefStatus;
}.

(** [ConfigEnvelope<T>], with the configuration as its serialisation. *)
Record ConfigEnvelope : Set := mkConfigEnvelope { env_config : Value; env_metadata : ConfigMetadata }.

(** ** [bootstrap.rs]: errors, sources and modes *)

(** The text of a JSON error is the library's. *)
Inductive BootstrapConfigError : Set :=
| BceInvalidJson
| BceMissingField (name : string)
| BceHashMismatch (expected actual : string)
| BceValidation (message : string)
| BceCustom (message : string).

Inductive ConfigSource : Set :=
| CsDirect
| CsPilot (config_version config_hash : string) (issued_at_ms : Z).

Definition as_metadata_source (s : ConfigSource) : string :=
  match s with CsDirect => "env_direct" | CsPilot _ _ _ => "bootstrap" end.

Inductive BootstrapMode : Set :=
| BmPilot (payload : PilotPayload) (validate_hash : bool)
| BmDirect.

Class ServiceBootstrap : Type := {
  BootstrapConfig : Type;
  ProvidedConfig : Type;
  RuntimeConfig : Type;
  decode_pilot_config : PilotPayload → result ProvidedConfig BootstrapConfigError;
  load_direct_config : result ProvidedConfig BootstrapConfigError;
  assemble_runtime_config :
    BootstrapConfig → ProvidedConfig → result RuntimeConfig BootstrapConfigError;
}.

Record BootstrapOutcome (R : Type) : Type := mkBootstrapOutcome {
  bo_runtime_config : R;
  bo_source : ConfigSource;
  bo_metadata : ConfigMetadata;
  bo_secret_refs : list SecretRef;
}.
Arguments mkBootstrapOutcome {R}.
Arguments bo_runtime_config {R}.
Arguments bo_source {R}.
Arguments bo_metadata {R}.
Arguments bo_secret_refs {R}.

Definition config_source_from_metadata (meta : option ConfigMetadata) : ConfigSource :=
  match meta with
  | Some m => CsPilot (cm_config_version m) (cm_config_hash m) (cm_issued_at_ms m)
  | None => CsPilot "" "" 0
  end.

Definition pilot_metadata_or_default (now : Z) (meta : option ConfigMetadata) : ConfigMetadata :=
  let m := default default_ConfigMetadata meta in
  mkConfigMetadata (cm_config_version m) (cm_config_hash m) now
    (if is_empty (cm_config_source m) then "bootstrap" else cm_config_source m)
    (cm_issued_at_ms m).

Section Json.
Context (to_string : Value → string) (from_str : string → option Value)
        (sha256_hex : string → string).

Definition normalize_json (value : Value) : string := to_string (sort_keys value).

Definition build_drift_result (diffs : list FieldDiff) (descriptors : list FieldDescriptor)
    : ConfigDriftResult :=
  mkConfigDriftResult (classify_drift diffs descriptors)
    ((λ d, mkChangedField (dif_path d)
             (from_option to_string "" (dif_new_value d))
             (from_option to_string "" (dif_old_value d))
             (field_status descriptors d)) <$> diffs).

Definition new_envelope (now : Z) (config : Value) (source : string) : ConfigEnvelope :=
  mkConfigEnvelope config
    (mkConfigMetadata "1" (sha256_hex (normalize_json config)) 0 source now).

Definition build_get_current_config_response (envelope : ConfigEnvelope)
    (resolved_secret_paths : list string) (service_kind logical_id : string)
    (secret_statuses : list SecretRefStatus) : GetCurrentConfigResponse :=
  mkGetCurrentConfigResponse
    (normalize_json (redact_secrets (env_config envelope) resolved_secret_paths))
    (Some (env_metadata envelope)) service_kind logical_id secret_statuses.

(** ** [bootstrap.rs]: the orchestrator *)

Definition validate_config_hash (json : string) (metadata : ConfigMetadata)
    : result unit BootstrapConfigError :=
  if is_empty (cm_config_hash metadata) then Ok tt
  else match from_str json with
       | None => Err BceInvalidJson
       | Some value =>
           let actual := sha256_hex (normalize_json value) in
           if negb (String.eqb actual (cm_config_hash metadata))
           then Err (BceHashMismatch (cm_config_hash metadata) actual)
           else Ok tt
       end.

Definition check_hash (payload : PilotPayload) (validate_hash : bool)
    : result unit BootstrapConfigError :=
  match validate_hash, pp_config_metadata payload with
  | true, Some meta => validate_config_hash (pp_runtime_config_json payload) meta
  | _, _ => Ok tt
  end.

Definition bootstrap_runtime_config `{ServiceBootstrap} (now : Z) (bootstrap : BootstrapConfig)
    (mode : BootstrapMode) : result (BootstrapOutcome RuntimeConfig) BootstrapConfigError :=
  match mode with
  | BmPilot payload validate_hash =>
      match check_hash payload validate_hash with
      | Err e => Err e
      | Ok _ =>
          match decode_pilot_config payload with
          | Err e => Err e
          | Ok provided =>
              match assemble_runtime_config bootstrap provided with
              | Err e => Err e
              | Ok runtime =>
                  Ok (mkBootstrapOutcome runtime
                        (config_source_from_metadata (pp_config_metadata payload))
                        (pilot_metadata_or_default now (pp_config_metadata payload))
                        (pp_secret_refs payload))
              end
          end
      end
  | BmDirect =>
      match load_direct_config with
      | Err e => Err e
      | Ok provided =>
          match assemble_runtime_config bootstrap provided with
          | Err e => Err e
          | Ok runtime =>
              Ok (mkBootstrapOutcome runtime CsDirect
                    (mkConfigMetadata "" "" now "env_direct" 0) [])
          end
      end
  end.

Definition wrap_in_envelope (now : Z) (config : Value) (source : ConfigSource) : ConfigEnvelope :=
  new_envelope now config (as_metadata_source source).

Definition build_config_metadata (now : Z) (config : Value) (source : ConfigSource)
    : ConfigMetadata :=
  match source with
  | CsDirect =>
      mkConfigMetadata "" (sha256_hex (normalize_json config)) now "env_direct" now
  | CsPilot version hash issued => mkConfigMetadata version hash now "bootstrap" issued
  end.
End Json.

(** * The configurations of the services

    The bootstraps of [zk-oms-svc/src/config.rs], [zk-gw-svc/src/config.rs],
    [zk-rtmd-gw-svc/src/config.rs] and [zk-engine-svc/src/bootstrap.rs] with
    [config.rs], as instances of [ServiceBootstrap].  The environment is a
    function; the decoders that [serde] and [envy] derive for the configuration
    types are parameters.  The text that a library gives for an error is left
    out of the messages. *)

Definition environment : Type := string → option string.
Definition parse_u16 : string → option Z := parse_int 0 65535.
Definition parse_u64 : string → option Z := parse_int 0 (2 ^ 64 - 1).
Definition parse_i64 : string → option Z := parse_int (- 2 ^ 63) (2 ^ 63 - 1).

(** ** OMS *)

Record OmsBootstrapConfig : Set := mkOmsBootstrapConfig {
  obc_oms_id : string;
  obc_grpc_host : string;
  obc_grpc_port : Z;
  obc_nats_url : string;
  obc_bootstrap_token : string;
  obc_instance_type : string;
  obc_env : string;
}.

Record OmsProvidedConfig : Set := mkOmsProvidedConfig {
  opc_redis_url : string;
  opc_pg_url : string;
  opc_handle_external_orders : bool;
  opc_risk_check_enabled : bool;
  opc_max_pending_reports : Z;
  opc_max_cached_orders : Z;
  opc_cmd_channel_buf : Z;
  opc_kv_heartbeat_secs : Z;
  opc_gateway_kv_prefix : string;
  opc_order_resync_interval_secs : Z;
  opc_balance_resync_interval_secs : Z;
  opc_position_recheck_interval_secs : Z;
  opc_cleanup_interval_secs : Z;
  opc_gw_exec_shard_count : Z;
  opc_gw_exec_queue_capacity : Z;
  opc_metrics_interval_secs : Z;
  opc_metrics_max_pending : Z;
  opc_metrics_max_complete : Z;
}.

(** [OmsRuntimeConfig]: its identity fields, then those of the provided one. *)
Record OmsRuntimeConfig : Set := mkOmsRuntimeConfig {
  orc_oms_id : string;
  orc_grpc_host : string;
  orc_grpc_port : Z;
  orc_nats_url : string;
  orc_env : string;
  orc_provided : OmsProvidedConfig;
}.

Module OmsService.
Definition check_urls (cfg : OmsProvidedConfig) : result OmsProvidedConfig BootstrapConfigError :=
  if is_empty (opc_redis_url cfg) then Err (BceMissingField "redis_url")
  else if is_empty (opc_pg_url cfg) then Err (BceMissingField "pg_url")
  else Ok cfg.

Definition decode_pilot_config (from_str : string → option OmsProvidedConfig)
    (payload : PilotPayload) : result OmsProvidedConfig BootstrapConfigError :=
  match from_str (pp_runtime_config_json payload) with
  | None => Err BceInvalidJson
  | Some cfg => check_urls cfg
  end.

Definition load_direct_config (from_env : result OmsProvidedConfig string)
    : result OmsProvidedConfig BootstrapConfigError :=
  match from_env with Err e => Err (BceCustom e) | Ok cfg => check_urls cfg end.

Definition assemble_runtime_config (bootstrap : OmsBootstrapConfig) (provided : OmsProvidedConfig)
    : result OmsRuntimeConfig BootstrapConfigError :=
  if opc_gw_exec_shard_count provided <? 1 then
    Err (BceValidation "gw_exec_shard_count must be >= 1")
  else if opc_gw_exec_queue_capacity provided <? 1 then
    Err (BceValidation "gw_exec_queue_capacity must be >= 1")
  else Ok (mkOmsRuntimeConfig (obc_oms_id bootstrap) (obc_grpc_host bootstrap)
             (obc_grpc_port bootstrap) (obc_nats_url bootstrap) (obc_env bootstrap) provided).
End OmsService.

Definition oms_service (from_str : string → option OmsProvidedConfig)
    (from_env : result OmsProvidedConfig string) : ServiceBootstrap :=
  Build_ServiceBootstrap OmsBootstrapConfig OmsProvidedConfig OmsRuntimeConfig
    (OmsService.decode_pilot_config from_str) (OmsService.load_direct_config from_env)
    OmsService.assemble_runtime_config.

(** ** Gateway *)

Record GwBootstrapConfig : Set := mkGwBootstrapConfig {
  gbc_gw_id : string;
  gbc_grpc_host : string;
  gbc_grpc_port : Z;
  gbc_nats_url : option string;
  gbc_bootstrap_token : string;
  gbc_instance_type : string;
  gbc_env : string;
}.

Record SimulatorProvidedConfig : Set := mkSimulatorProvidedConfig {
  spc_mock_balances : string;
  spc_fill_delay_ms : Z;
  spc_match_policy : string;
  spc_admin_grpc_port : Z;
  spc_enable_admin_controls : bool;
}.

Record GwProvidedConfig : Set := mkGwProvidedConfig {
  gpc_venue : string;
  gpc_account_id : Z;
  gpc_exch_account_id : string;
  gpc_venue_config : Value;
  gpc_venue_root : option string;
  gpc_exec_shard_count : Z;
  gpc_exec_queue_capacity : Z;
  gpc_simulator : option SimulatorProvidedConfig;
}.

(** [SimulatorRuntimeConfig] has the fields of the provided one. *)
Record GwRuntimeConfig : Set := mkGwRuntimeConfig {
  grc_gw_id : string;
  grc_grpc_host : string;
  grc_grpc_port : Z;
  grc_nats_url : option string;
  grc_instance_type : string;
  grc_env : string;
  grc_venue : string;
  grc_account_id : Z;
  grc_exch_account_id : string;
  grc_venue_config : Value;
  grc_venue_root : option string;
  grc_exec_shard_count : Z;
  grc_exec_queue_capacity : Z;
  grc_simulator : option SimulatorProvidedConfig;
}.

Definition default_venue_config : Value := JObject [].

(** The root of the manifests: the provided one unless empty, else the
    environment's. *)
Definition venue_root_or_env (env : environment) (provided : option string) : option string :=
  match provided with
  | Some s => if is_empty s then env "ZK_VENUE_MANIFEST_ROOT" else Some s
  | None => env "ZK_VENUE_MANIFEST_ROOT"
  end.

Module GwBootstrap.

Definition from_env (env : environment) : GwBootstrapConfig :=
  mkGwBootstrapConfig (default "gw_sim_1" (env "ZK_GW_ID")) (default "127.0.0.1" (env "ZK_GRPC_HOST"))
    (default 51051 (env "ZK_GRPC_PORT" ≫= parse_u16)) (env "ZK_NATS_URL")
    (default "" (env "ZK_BOOTSTRAP_TOKEN")) (default "GW" (env "ZK_INSTANCE_TYPE"))
    (default "dev" (env "ZK_ENV")).

Definition remove_field (key : string) (obj : list (string * Value)) : list (string * Value) :=
  filter (λ kv, kv.1 ≠ key) obj.

Definition move_if_present (rt : list (string * Value) * list (string * Value)) (key : string)
    : list (string * Value) * list (string * Value) :=
  let '(root, target) := rt in
  match field key root with
  | Some value => (remove_field key root, map_insert key value target)
  | None => rt
  end.

Definition simulator_keys : list string :=
  ["mock_balances"; "fill_delay_ms"; "match_policy"; "admin_grpc_port"; "enable_admin_controls"].

Definition normalize_simulator_pilot_config (raw : Value) : Value :=
  match raw with
  | JObject obj =>
      let venue := to_ascii_lowercase (default "" (field "venue" obj ≫= as_str)) in
      if negb (String.eqb venue "simulator") || bool_decide (is_Some (field "simulator" obj))
      then raw
      else
        let '(obj, simulator) := foldl move_if_present (obj, []) simulator_keys in
        match simulator with
        | [] => JObject obj
        | _ => JObject (map_insert "simulator" (JObject simulator) obj)
        end
  | _ => raw
  end.

Definition decode_pilot_config (from_str : string → option Value)
    (from_value : Value → option GwProvidedConfig) (payload : PilotPayload)
    : result GwProvidedConfig BootstrapConfigError :=
  match from_str (pp_runtime_config_json payload) with
  | None => Err BceInvalidJson
  | Some raw =>
      match from_value (normalize_simulator_pilot_config raw) with
      | None => Err BceInvalidJson
      | Some cfg => Ok cfg
      end
  end.

Definition direct_simulator (env : environment) : SimulatorProvidedConfig :=
  mkSimulatorProvidedConfig (default "BTC:10,USDT:100000,ETH:50" (env "ZK_MOCK_BALANCES"))
    (default 0 (env "ZK_FILL_DELAY_MS" ≫= parse_u64))
    (default "immediate" (env "ZK_MATCH_POLICY"))
    (default 51052 (env "ZK_ADMIN_GRPC_PORT" ≫= parse_u16))
    (from_option (λ v, String.eqb v "true" || String.eqb v "1") false
       (env "ZK_ENABLE_ADMIN_CONTROLS")).

Definition default_exec_shard_count : Z := 4.
Definition default_exec_queue_capacity : Z := 256.

Definition load_direct_config (env : environment) (from_str : string → option Value)
    : result GwProvidedConfig BootstrapConfigError :=
  match env "ZK_VENUE" with
  | None => Err (BceMissingField "venue (ZK_VENUE)")
  | Some venue =>
      match env "ZK_ACCOUNT_ID" with
      | None => Err (BceMissingField "account_id (ZK_ACCOUNT_ID)")
      | Some a =>
          match parse_i64 a with
          | None => Err (BceValidation "invalid ZK_ACCOUNT_ID")
          | Some account_id =>
              Ok (mkGwProvidedConfig venue account_id (default "" (env "ZK_EXCH_ACCOUNT_ID"))
                    (default default_venue_config
                       (from_str (default "{}" (env "ZK_VENUE_CONFIG"))))
                    (env "ZK_VENUE_MANIFEST_ROOT")
                    (default default_exec_shard_count (env "ZK_EXEC_SHARD_COUNT" ≫= parse_u64))
                    (default default_exec_queue_capacity (env "ZK_EXEC_QUEUE_CAPACITY" ≫= parse_u64))
                    (if String.eqb venue "simulator" then Some (direct_simulator env) else None))
          end
      end
  end.

Definition assemble_runtime_config (env : environment) (bootstrap : GwBootstrapConfig)
    (provided : GwProvidedConfig) : result GwRuntimeConfig BootstrapConfigError :=
  let is_sim := String.eqb (gpc_venue provided) "simulator" in
  let has_sim := bool_decide (is_Some (gpc_simulator provided)) in
  if is_sim && negb has_sim then Err (BceMissingField "simulator")
  else if negb is_sim && has_sim then
    Err (BceValidation "simulator config present on non-simulator venue")
  else if gpc_exec_shard_count provided <? 1 then Err (BceValidation "exec_shard_count must be >= 1")
  else if gpc_exec_queue_capacity provided <? 1 then
    Err (BceValidation "exec_queue_capacity must be >= 1")
  else Ok (mkGwRuntimeConfig (gbc_gw_id bootstrap) (gbc_grpc_host bootstrap)
             (gbc_grpc_port bootstrap) (gbc_nats_url bootstrap) (gbc_instance_type bootstrap)
             (gbc_env bootstrap) (gpc_venue provided) (gpc_account_id provided)
             (gpc_exch_account_id provided) (gpc_venue_config provided)
             (venue_root_or_env env (gpc_venue_root provided)) (gpc_exec_shard_count provided)
             (gpc_exec_queue_capacity provided) (gpc_simulator provided)).
End GwBootstrap.

Definition gw_bootstrap (env : environment) (from_str : string → option Value)
    (from_value : Value → option GwProvidedConfig) : ServiceBootstrap :=
  Build_ServiceBootstrap GwBootstrapConfig GwProvidedConfig GwRuntimeConfig
    (GwBootstrap.decode_pilot_config from_str from_value)
    (GwBootstrap.load_direct_config env from_str)
    (GwBootstrap.assemble_runtime_config env).

(** ** Market-data gateway *)

Record MdgwBootstrapConfig : Set := mkMdgwBootstrapConfig {
  mbc_mdgw_id : string;
  mbc_env : string;
  mbc_nats_url : string;
  mbc_grpc_port : Z;
  mbc_grpc_host : string;
  mbc_bootstrap_token : string;
  mbc_instance_type : string;
}.

Record MdgwProvidedConfig : Set := mkMdgwProvidedConfig {
  mpc_venue : string;
  mpc_venue_config : Value;
  mpc_venue_root : option string;
  mpc_gateway_kv_prefix : string;
  mpc_rtmd_sub_bucket : string;
  mpc_sub_lease_ttl_s : Z;
}.

Record MdgwRuntimeConfig : Set := mkMdgwRuntimeConfig {
  mrc_mdgw_id : string;
  mrc_env : string;
  mrc_nats_url : string;
  mrc_grpc_port : Z;
  mrc_grpc_host : string;
  mrc_venue : string;
  mrc_venue_config : Value;
  mrc_venue_root : option string;
  mrc_gateway_kv_prefix : string;
  mrc_rtmd_sub_bucket : string;
  mrc_sub_lease_ttl_s : Z;
}.

Module MdgwService.
Definition from_env (env : environment) : result MdgwBootstrapConfig BootstrapConfigError :=
  match parse_u16 (default "52051" (env "ZK_GRPC_PORT")) with
  | None => Err (BceValidation "ZK_GRPC_PORT must be a valid u16")
  | Some port =>
      Ok (mkMdgwBootstrapConfig (default "mdgw_dev_1" (env "ZK_MDGW_ID"))
            (default "dev" (env "ZK_ENV")) (default "nats://localhost:4222" (env "ZK_NATS_URL"))
            port (default "127.0.0.1" (env "ZK_GRPC_HOST")) (default "" (env "ZK_BOOTSTRAP_TOKEN"))
            (default "MDGW" (env "ZK_INSTANCE_TYPE")))
  end.

Definition decode_pilot_config (from_str : string → option MdgwProvidedConfig)
    (payload : PilotPayload) : result MdgwProvidedConfig BootstrapConfigError :=
  match from_str (pp_runtime_config_json payload) with
  | None => Err BceInvalidJson
  | Some cfg => if is_empty (mpc_venue cfg) then Err (BceMissingField "venue") else Ok cfg
  end.

Definition load_direct_config (env : environment) (from_str : string → option Value)
    : result MdgwProvidedConfig BootstrapConfigError :=
  match env "ZK_VENUE" with
  | None => Err (BceMissingField "venue (ZK_VENUE)")
  | Some venue =>
      if is_empty venue then Err (BceMissingField "venue (ZK_VENUE)")
      else match from_str (default "{}" (env "ZK_VENUE_CONFIG")) with
           | None => Err (BceValidation "ZK_VENUE_CONFIG invalid JSON")
           | Some venue_config =>
               match parse_u64 (default "60" (env "ZK_SUB_LEASE_TTL_S")) with
               | None => Err (BceValidation "ZK_SUB_LEASE_TTL_S must be a valid u64")
               | Some ttl =>
                   Ok (mkMdgwProvidedConfig venue venue_config (env "ZK_VENUE_MANIFEST_ROOT")
                         (default "svc.mdgw" (env "ZK_GATEWAY_KV_PREFIX"))
                         (default "zk-rtmd-subs-v1" (env "ZK_RTMD_SUB_BUCKET")) ttl)
               end
           end
  end.

Definition assemble_runtime_config (env : environment) (bootstrap : MdgwBootstrapConfig)
    (provided : MdgwProvidedConfig) : result MdgwRuntimeConfig BootstrapConfigError :=
  Ok (mkMdgwRuntimeConfig (mbc_mdgw_id bootstrap) (mbc_env bootstrap) (mbc_nats_url bootstrap)
        (mbc_grpc_port bootstrap) (mbc_grpc_host bootstrap) (mpc_venue provided)
        (mpc_venue_config provided) (venue_root_or_env env (mpc_venue_root provided))
        (mpc_gateway_kv_prefix provided) (mpc_rtmd_sub_bucket provided)
        (mpc_sub_lease_ttl_s provided)).
End MdgwService.

Definition mdgw_service (env : environment) (from_str : string → option MdgwProvidedConfig)
    (parse : string → option Value) : ServiceBootstrap :=
  Build_ServiceBootstrap MdgwBootstrapConfig MdgwProvidedConfig MdgwRuntimeConfig
    (MdgwService.decode_pilot_config from_str) (MdgwService.load_direct_config env parse)
    (MdgwService.assemble_runtime_config env).

(** ** Engine *)

Record EngineBootstrapConfig : Set := mkEngineBootstrapConfig {
  ebc_nats_url : string;
  ebc_env : string;
  ebc_engine_id : string;
  ebc_grpc_port : Z;
  ebc_grpc_host : string;
  ebc_kv_heartbeat_secs : Z;
  ebc_bootstrap_token : string;
  ebc_discovery_bucket : string;
}.

Record EngineProvidedConfig : Set := mkEngineProvidedConfig {
  epc_strategy_key : string;
  epc_strategy_type_key : string;
  epc_account_ids : list Z;
  epc_instruments : list string;
  epc_oms_id : string;
  epc_strategy_config_json : string;
  epc_timer_interval_ms : Z;
  epc_kline_interval : string;
}.
#[export] Instance eta_EngineProvidedConfig : Eta EngineProvidedConfig := λ r,
  mkEngineProvidedConfig (epc_strategy_key r) (epc_strategy_type_key r) (epc_account_ids r)
    (epc_instruments r) (epc_oms_id r) (epc_strategy_config_json r) (epc_timer_interval_ms r)
    (epc_kline_interval r).

Record EngineRuntimeConfig : Set := mkEngineRuntimeConfig {
  erc_nats_url : string;
  erc_env : string;
  erc_engine_id : string;
  erc_grpc_port : Z;
  erc_grpc_host : string;
  erc_kv_heartbeat_secs : Z;
  erc_discovery_bucket : string;
  erc_strategy_key : string;
  erc_strategy_type_key : string;
  erc_account_ids : list Z;
  erc_instruments : list string;
  erc_oms_id : string;
  erc_strategy_config_json : string;
  erc_timer_interval_ms : Z;
  erc_kline_interval : string;
  erc_execution_id : string;
  erc_instance_id : Z;
}.
#[export] Instance eta_EngineRuntimeConfig : Eta EngineRuntimeConfig := λ r,
  mkEngineRuntimeConfig (erc_nats_url r) (erc_env r) (erc_engine_id r) (erc_grpc_port r)
    (erc_grpc_host r) (erc_kv_heartbeat_secs r) (erc_discovery_bucket r) (erc_strategy_key r)
    (erc_strategy_type_key r) (erc_account_ids r) (erc_instruments r) (erc_oms_id r)
    (erc_strategy_config_json r) (erc_timer_interval_ms r) (erc_kline_interval r)
    (erc_execution_id r) (erc_instance_id r).

Module EngineService.

Fixpoint parse_account_ids (parts : list string) : result (list Z) BootstrapConfigError :=
  match parts with
  | [] => Ok []
  | s :: parts =>
      if trim_is_empty s then parse_account_ids parts
      else match parse_i64 (trim s) with
           | None => Err (BceValidation "invalid account_id")
           | Some a =>
               match parse_account_ids parts with Ok l => Ok (a :: l) | Err e => Err e end
           end
  end.

Definition load_provided_from_env (env : environment)
    : result EngineProvidedConfig BootstrapConfigError :=
  let strategy_key := default "" (env "ZK_STRATEGY_KEY") in
  let strategy_type_key :=
    match env "ZK_STRATEGY_TYPE_KEY" with
    | Some value => if is_empty value then strategy_key else value
    | None => strategy_key
    end in
  match parse_account_ids (split_on 44 (default "" (env "ZK_ACCOUNT_IDS"))) with
  | Err e => Err e
  | Ok account_ids =>
      Ok (mkEngineProvidedConfig strategy_key strategy_type_key account_ids
            (filter (λ s, is_empty s = false)
               (trim <$> split_on 44 (default "" (env "ZK_INSTRUMENTS"))))
            (default "" (env "ZK_OMS_ID")) (default "" (env "ZK_STRATEGY_CONFIG_JSON"))
            (default 1000 (env "ZK_TIMER_INTERVAL_MS" ≫= parse_u64))
            (default "" (env "ZK_KLINE_INTERVAL")))
  end.

Definition decode_pilot_config (from_str : string → option EngineProvidedConfig)
    (payload : PilotPayload) : result EngineProvidedConfig BootstrapConfigError :=
  match from_str (pp_runtime_config_json payload) with
  | None => Err BceInvalidJson
  | Some cfg =>
      let cfg :=
        if is_empty (epc_strategy_type_key cfg) && negb (is_empty (epc_strategy_key cfg))
        then cfg <| epc_strategy_type_key := epc_strategy_key cfg |> else cfg in
      if is_empty (epc_strategy_type_key cfg) then Err (BceMissingField "strategy_type_key")
      else match epc_account_ids cfg with
           | [] => Err (BceMissingField "account_ids")
           | _ =>
               match epc_instruments cfg with
               | [] => Err (BceMissingField "instruments")
               | _ => Ok cfg
               end
           end
  end.

(** [suffix]: the milliseconds of the clock, printed in hexadecimal. *)
Definition assemble_runtime_config (suffix : string) (bootstrap : EngineBootstrapConfig)
    (provided : EngineProvidedConfig) : result EngineRuntimeConfig BootstrapConfigError :=
  let strategy_key :=
    if is_empty (epc_strategy_key provided) then epc_strategy_type_key provided
    else epc_strategy_key provided in
  Ok (mkEngineRuntimeConfig (ebc_nats_url bootstrap) (ebc_env bootstrap) (ebc_engine_id bootstrap)
        (ebc_grpc_port bootstrap) (ebc_grpc_host bootstrap) (ebc_kv_heartbeat_secs bootstrap)
        (ebc_discovery_bucket bootstrap) strategy_key (epc_strategy_type_key provided)
        (epc_account_ids provided) (epc_instruments provided) (epc_oms_id provided)
        (epc_strategy_config_json provided) (epc_timer_interval_ms provided)
        (epc_kline_interval provided) (ebc_engine_id bootstrap +:+ "-" +:+ suffix) 0).
End EngineService.

Definition engine_service (env : environment) (from_str : string → option EngineProvidedConfig)
    (suffix : string) : ServiceBootstrap :=
  Build_ServiceBootstrap EngineBootstrapConfig EngineProvidedConfig EngineRuntimeConfig
    (EngineService.decode_pilot_config from_str) (EngineService.load_provided_from_env env)
    (EngineService.assemble_runtime_config suffix).

(** [run_bootstrap] and the registration of the engine. *)
Section Engine.
Context (to_string : Value → string) (parse : string → option Value) (sha256_hex : string → string).
Context (env : environment) (from_str : string → option EngineProvidedConfig) (suffix : string).

Inductive engine_bootstrap_error : Set :=
| EbeConfig (e : BootstrapConfigError)
| EbePilot (e : RegistrationError).

(** No result while the replies of Pilot last, as in [pilot_request]. *)
Definition run_bootstrap (now : Z) (boot_cfg : EngineBootstrapConfig) (started : Z)
    (rounds : list (ServiceRegistration.pilot_reply * Z))
    : option (result (BootstrapOutcome EngineRuntimeConfig * option PilotBootstrapGrant)
                engine_bootstrap_error) :=
  let config mode :=
    @bootstrap_runtime_config to_string parse sha256_hex (engine_service env from_str suffix)
      now boot_cfg mode in
  if is_empty (ebc_bootstrap_token boot_cfg) then
    Some (match config BmDirect with
          | Err e => Err (EbeConfig e)
          | Ok outcome => Ok (outcome, None)
          end)
  else
    answer ← ServiceRegistration.pilot_request started rounds;
    Some (match answer with
          | Err e => Err (EbePilot e)
          | Ok grant =>
              match config (BmPilot (pbg_payload grant) false) with
              | Err e => Err (EbeConfig e)
              | Ok outcome =>
                  let runtime :=
                    if pbg_instance_id grant =? 0 then bo_runtime_config outcome
                    else (bo_runtime_config outcome)
                           <| erc_instance_id := pbg_instance_id grant mod 2 ^ 16 |> in
                  Ok (mkBootstrapOutcome runtime (bo_source outcome) (bo_metadata outcome)
                        (bo_secret_refs outcome), Some grant)
              end
          end).

Definition engine_registration_of (now : Z) (cfg : EngineRuntimeConfig) : SvcRegProto :=
  engine_registration now (erc_engine_id cfg)
    (erc_grpc_host cfg +:+ ":" +:+ display_i64 (erc_grpc_port cfg)) (erc_execution_id cfg)
    (erc_strategy_key cfg) (erc_account_ids cfg).

Definition register_kv `{KvServer} (encode : SvcRegProto → Bytes) (net : delivery) (now : Z)
    (session_id : string) (cfg : EngineRuntimeConfig) (s : kv_state)
    : result ServiceRegistration unit * kv_state :=
  ServiceRegistration.register_direct net ("svc.engine." +:+ erc_engine_id cfg)
    (encode (engine_registration_of now cfg)) (erc_kv_heartbeat_secs cfg * 1000) session_id s.
End Engine.
