(* ===== verification/ConfigFacts.v ===== *)
(** * Runtime configuration: redaction, drift and bootstrap

    [redaction_hides_secrets]: nothing of a secret shows in a configuration
    that is shown.  [drift_exact]: drift is reported exactly when two
    configurations differ, with the most restrictive status.
    [pilot_config_verified]: what a bootstrap with Pilot accepts. *)

From S2P Require Import Prelude Text F64 Json Registry Discovery ConfigMgmt.
From stdpp Require Import sorting.

(** ** Values *)

Section Value_ind.
Context (P : Value → Prop).
Hypothesis (Hnull : P JNull) (Hbool : ∀ b, P (JBool b)) (Hnum : ∀ n, P (JNumber_ n))
  (Hstr : ∀ s, P (JString s)) (Harr : ∀ l, Forall P l → P (JArray l))
  (Hobj : ∀ a, Forall (λ kv, P kv.2) a → P (JObject a)).

Fixpoint value_ind (v : Value) : P v :=
  match v with
  | JNull => Hnull
  | JBool b => Hbool b
  | JNumber_ n => Hnum n
  | JString s => Hstr s
  | JArray l =>
      Harr l ((fix go l : Forall P l :=
                 match l with
                 | [] => Forall_nil_2 _
                 | v :: l => Forall_cons_2 _ _ _ (value_ind v) (go l)
                 end) l)
  | JObject a =>
      Hobj a ((fix go a : Forall (λ kv, P kv.2) a :=
                 match a with
                 | [] => Forall_nil_2 _
                 | kv :: a =>
                     Forall_cons_2 (λ kv : string * Value, P kv.2) kv a (value_ind kv.2) (go a)
                 end) a)
  end.
End Value_ind.

(** ** Redaction *)

Lemma set_at_overwrites p w w' v : set_at p w (set_at p w' v) = set_at p w v.
Proof.
  revert v. induction p as [|t p IH]; intros v; [done|]. cbn [set_at].
  destruct v as [| | | |l|a]; try done.
  - destruct (parse_index t) as [i|]; [|done]. f_equal.
    rewrite list_alter_alter_eq. apply list_alter_ext; [|done]. intros x _. apply IH.
  - f_equal. rewrite <- list_fmap_compose. apply list_fmap_ext. intros _ [k x] _. cbn.
    f_equal. by destruct (String.eqb k t).
Qed.

Lemma set_at_idemp p w v : set_at p w (set_at p w v) = set_at p w v.
Proof. apply set_at_overwrites. Qed.

(** What a path overwrites does not depend on what another path overwrote. *)
Lemma set_at_absorb p q s v :
  set_at p (JString s) (set_at q (JString s) (set_at p (JString s) v))
  = set_at p (JString s) (set_at q (JString s) v).
Proof.
  revert q v. induction p as [|t p IH]; intros [|u q] v; try done.
  cbn [set_at]. destruct v as [| | | |l|a]; try done.
  - destruct (parse_index t) as [i|], (parse_index u) as [j|]; try done; f_equal.
    + destruct (decide (i = j)) as [->|Hij].
      * rewrite !list_alter_alter_eq. apply list_alter_ext; [|done]. intros x _. apply IH.
      * rewrite (list_alter_alter_ne _ _ l j i), list_alter_alter_eq by done.
        apply list_alter_ext; [|done]. intros x _. apply set_at_idemp.
    + rewrite list_alter_alter_eq. apply list_alter_ext; [|done]. intros x _. apply set_at_idemp.
  - f_equal. rewrite <- !list_fmap_compose. apply list_fmap_ext. intros _ [k x] _. cbn.
    destruct (String.eqb k t), (String.eqb k u); rewrite ?IH, ?set_at_idemp; done.
Qed.

Lemma redact_absorb p q v :
  redact_path (redact_path (redact_path v p) q) p = redact_path (redact_path v q) p.
Proof.
  unfold redact_path. destruct (pointer_tokens p) as [tp|], (pointer_tokens q) as [tq|]; try done;
    [apply set_at_absorb|apply set_at_idemp].
Qed.

Lemma redact_secrets_absorb p ps v :
  p ∈ ps → redact_secrets (redact_path v p) ps = redact_secrets v ps.
Proof.
  intros Hp.
  assert (H : ∀ ps v w, redact_path v p = redact_path w p → p ∈ ps →
              redact_secrets v ps = redact_secrets w ps).
  { clear. intros ps. induction ps as [|q ps IH]; intros v w Hvw Hp; [set_solver|]. cbn.
    destruct (decide (q = p)) as [->|Hq]; [by rewrite Hvw|].
    apply IH; [|set_solver]. by rewrite <- (redact_absorb p q v), Hvw, redact_absorb. }
  apply H; [|done]. unfold redact_path. case_match; [apply set_at_idemp|done].
Qed.

(** The value at a path, replaced by any other. *)
Definition with_value (path : string) (w v : Value) : Value :=
  match pointer_tokens path with Some tokens => set_at tokens w v | None => v end.

(** C29: A configuration that is shown says nothing of its secrets.  Whatever
    values the paths of resolved secrets hold, nested or overlapping as they
    may be: replacing any of them by any other value changes nothing in the
    JSON of the response. *)
Theorem redaction_hides_secrets to_string secret_paths replaced config metadata kind id statuses :
  Forall (λ pw, pw.1 ∈ secret_paths) replaced →
  let shown c := gcc_effective_config_json
    (build_get_current_config_response to_string (mkConfigEnvelope c metadata) secret_paths kind id
       statuses) in
  shown (foldl (λ c pw, with_value pw.1 pw.2 c) config replaced) = shown config.
Proof.
  intros Hr shown. unfold shown. cbn. f_equal. revert config.
  induction Hr as [|[p w] l Hp _ IH]; intros config; [done|]. cbn. rewrite IH. cbn in Hp.
  rewrite <- (redact_secrets_absorb p _ (with_value p w config)) by done.
  rewrite <- (redact_secrets_absorb p _ config) by done. f_equal.
  unfold redact_path, with_value. destruct (pointer_tokens p); [apply set_at_overwrites|done].
Qed.

(** A printer for the example: the text of one field. *)
Definition demo_print (v : Value) : string :=
  default "" (a ← get "api" v; k ← get "key" a; as_str k).

Lemma redaction_hides_secrets_witness :
  let config key := JObject [("api", JObject [("key", JString key)]); ("env", JString "dev")] in
  let shown key := gcc_effective_config_json
    (build_get_current_config_response demo_print
       (mkConfigEnvelope (config key) default_ConfigMetadata) ["/api/key"] "OMS" "oms1" []) in
  shown "s3cret" = shown "other" ∧ shown "other" = "***REDACTED***".
Proof.
  split; [|done].
  exact (redaction_hides_secrets demo_print
    ["/api/key"] [("/api/key", JString "s3cret")]
    (JObject [("api", JObject [("key", JString "other")]); ("env", JString "dev")])
    default_ConfigMetadata "OMS" "oms1" [] ltac:(repeat constructor)).
Defined.

(** ** Drift *)

Lemma field_Some_in k (a : list (string * Value)) v : field k a = Some v → (k, v) ∈ a.
Proof.
  induction a as [|[k' v'] a IH]; [done|]. cbn. destruct (String.eqb_spec k' k) as [->|].
  - intros [= ->]. left.
  - intros H. right. auto.
Qed.

Lemma field_in k (a : list (string * Value)) v : NoDup a.*1 → (k, v) ∈ a → field k a = Some v.
Proof.
  induction a as [|[k' v'] a IH]; cbn; [set_solver|]. intros [Hk Hnd]%NoDup_cons Hin.
  apply elem_of_cons in Hin as [[= <- <-]|Hin]; [by rewrite String.eqb_refl|].
  destruct (String.eqb_spec k' k) as [->|]; [|auto]. exfalso. apply Hk.
  apply list_elem_of_fmap. by exists (k, v).
Qed.

Lemma field_is_Some k (a : list (string * Value)) : is_Some (field k a) ↔ k ∈ a.*1.
Proof.
  split.
  - intros [v Hv%field_Some_in]. apply list_elem_of_fmap. by exists (k, v).
  - induction a as [|[k' v'] a IH]; cbn; [set_solver|].
    destruct (String.eqb_spec k' k) as [->|]; [by eexists|]. set_solver.
Qed.

Lemma key_lt_irrefl s : ¬ key_lt s s.
Proof. unfold key_lt. intros H. pose proof (String.compare_antisym s s) as E. by rewrite H in E. Qed.

#[local] Instance key_lt_antisymm : AntiSymm (=) key_lt.
Proof.
  unfold key_lt. intros s t Hst Hts. rewrite String.compare_antisym, Hst in Hts. done.
Qed.

Lemma sorted_NoDup l : StronglySorted key_lt l → NoDup l.
Proof.
  induction 1 as [|k l _ IH Hk]; constructor; [|done]. intros Hin.
  eapply Forall_forall in Hk; [|done]. by apply key_lt_irrefl in Hk.
Qed.

Lemma sorted_same_keys l k :
  StronglySorted key_lt l → StronglySorted key_lt k → (∀ x, x ∈ l ↔ x ∈ k) → l = k.
Proof.
  intros Hl Hk Hlk. apply (StronglySorted_unique key_lt); [done..|].
  by apply NoDup_Permutation; [apply sorted_NoDup..|].
Qed.

Lemma wf_object a :
  wf_value (JObject a) ↔ StronglySorted key_lt a.*1 ∧ Forall (λ kv, wf_value kv.2) a.
Proof.
  cbn. split; intros [Hs Ha]; (split; [done|]); clear Hs.
  - induction a as [|[k v] a IH]; [done|]. destruct Ha. constructor; auto.
  - induction Ha as [|[k v] a Hv Ha IH]; [done|]. done.
Qed.

Lemma value_eq_object a b :
  value_eq (JObject a) (JObject b) = true ↔
  Forall2 (λ x y, x.1 = y.1 ∧ value_eq x.2 y.2 = true) a b.
Proof.
  cbn. revert b. induction a as [|[k v] a IH]; intros [|[k' w] b].
  1-3: by split; [|inversion 1].
  rewrite !andb_true_iff, IH, String.eqb_eq, Forall2_cons. cbn. tauto.
Qed.

Lemma diff_object a b prefix :
  diff_recursive (JObject a) (JObject b) prefix = [] ↔
  Forall (λ kv, ∃ w, field kv.1 b = Some w ∧
            diff_recursive kv.2 w (prefix +:+ "/" +:+ kv.1) = []) a ∧
  Forall (λ kv, is_Some (field kv.1 a)) b.
Proof.
  cbn [diff_recursive]. rewrite app_nil. f_equiv.
  - induction a as [|[k v] a IH]; [done|].
    rewrite app_nil, Forall_cons, <- IH. cbn [fst snd]. f_equiv.
    destruct (field k b) as [w|]; naive_solver.
  - induction b as [|[k w] b IH]; [done|]. rewrite Forall_cons, <- IH. cbn.
    destruct (field k a) as [v|]; cbn; naive_solver.
Qed.

(** The order of keys makes equality of objects a matter of their fields. *)
Lemma same_fields a b (R : Value → Value → Prop) :
  StronglySorted key_lt a.*1 → StronglySorted key_lt b.*1 →
  Forall2 (λ x y, x.1 = y.1 ∧ R x.2 y.2) a b ↔
  Forall (λ kv, ∃ w, field kv.1 b = Some w ∧ R kv.2 w) a ∧
  Forall (λ kv, is_Some (field kv.1 a)) b.
Proof.
  intros Ha Hb. split.
  - intros H. assert (Hk : a.*1 = b.*1).
    { clear Ha Hb. induction H as [|x y a b [Hxy _] _ IH]; [done|]. cbn. by rewrite Hxy, IH. }
    split; apply Forall_forall; intros [k v] Hin.
    + apply list_elem_of_lookup in Hin as [i Hi].
      destruct (Forall2_lookup_l _ _ _ i _ H Hi) as ([k' w] & Hw & Hkk & HR). cbn in *. subst k'.
      exists w. split; [|done]. apply field_in; [by apply sorted_NoDup|].
      by apply list_elem_of_lookup_2 in Hw.
    + apply field_is_Some. rewrite Hk. apply list_elem_of_fmap. by exists (k, v).
  - intros [H1 H2]. assert (Hk : a.*1 = b.*1).
    { apply sorted_same_keys; [done..|]. intros k. split; intros Hin.
      - apply list_elem_of_fmap in Hin as ([k' v] & -> & Hin). cbn.
        eapply Forall_forall in H1 as (w & Hw & _); [|done]. apply field_is_Some. by exists w.
      - apply list_elem_of_fmap in Hin as ([k' v] & -> & Hin). cbn.
        eapply Forall_forall in H2; [|done]. by apply field_is_Some in H2. }
    apply Forall2_same_length_lookup. split; [by rewrite <- (length_fmap fst a), Hk, length_fmap|].
    intros i [k v] [k' w] Hv Hw. cbn.
    assert (k' = k) as ->.
    { apply (f_equal (.!! i)) in Hk. rewrite !list_lookup_fmap, Hv, Hw in Hk. by simplify_eq/=. }
    split; [done|]. apply list_elem_of_lookup_2 in Hv, Hw.
    eapply Forall_forall in H1 as (w' & Hw' & HR); [|done]. cbn in *.
    rewrite (field_in k b w) in Hw' by (done || by apply sorted_NoDup). by simplify_eq.
Qed.

Lemma diff_empty_iff old new prefix :
  wf_value old → wf_value new →
  diff_recursive old new prefix = [] ↔ value_eq old new = true.
Proof.
  revert new prefix. induction old as [| | | | |a IH] using value_ind; intros new prefix Ho Hn;
    try (cbn [diff_recursive]; destruct (value_eq _ new); by split).
  destruct new as [| | | | |b]; try done.
  apply wf_object in Ho as [Hsa Ha], Hn as [Hsb Hb].
  rewrite diff_object, value_eq_object, (same_fields a b (λ v w, value_eq v w = true)) by done.
  f_equiv. rewrite !Forall_forall in *.
  assert (Hkv : ∀ kv w, kv ∈ a → field kv.1 b = Some w →
    diff_recursive kv.2 w (prefix +:+ "/" +:+ kv.1) = [] ↔ value_eq kv.2 w = true).
  { intros kv w Hin Hw. apply (IH kv Hin); [by apply Ha|].
    by apply (Hb (kv.1, w)), field_Some_in. }
  split; intros H kv Hin; destruct (H kv Hin) as (w & Hw & Hd); exists w; split; try done;
    by apply Hkv.
Qed.

(** A field that may change while the service runs: described as reloadable and
    no secret reference. *)
Definition reloadable_field (descriptors : list FieldDescriptor) (d : FieldDiff) : Prop :=
  ∃ fd, find_descriptor (dif_path d) descriptors = Some fd ∧
    fd_reloadable fd = true ∧ fd_is_secret_ref fd = false.

Lemma field_status_reloadable descriptors d :
  field_status descriptors d = Reloadable ↔ reloadable_field descriptors d.
Proof.
  unfold field_status, reloadable_field. destruct (find_descriptor _ _) as [fd|];
    [|by split; [|intros (? & ? & _)]].
  destruct (fd_is_secret_ref fd) eqn:Hs, (fd_reloadable fd) eqn:Hr; split; try done;
    try (intros (? & [= <-] & ? & ?); congruence). intros _. by exists fd.
Qed.

Lemma field_status_cases descriptors d :
  field_status descriptors d = Reloadable ∨ field_status descriptors d = RestartRequired.
Proof. unfold field_status. repeat case_match; auto. Qed.

Lemma worst_status_spec descriptors l :
  worst_status descriptors Reloadable l
  = if decide (Forall (λ d, field_status descriptors d = Reloadable) l) then Reloadable
    else RestartRequired.
Proof.
  induction l as [|d l IH]; [done|]. cbn [worst_status].
  destruct (field_status_cases descriptors d) as [Hd|Hd]; rewrite Hd.
  - rewrite decide_False by done.
    change (worst_status _ _ l) with (worst_status descriptors Reloadable l). rewrite IH.
    apply decide_ext. rewrite Forall_cons. tauto.
  - rewrite decide_True by done. rewrite decide_False; [done|].
    rewrite Forall_cons. intros [??]. congruence.
Qed.



(** Rebuilding an ordered map leaves it as it is. *)
Lemma map_insert_last k v a :
  Forall (λ k', key_lt k' k) a.*1 → map_insert k v a = a ++ [(k, v)].
Proof.
  induction a as [|[k' v'] a IH]; intros Ha; [done|]. apply Forall_cons in Ha as [Hk Ha].
  unfold key_lt in Hk. cbn in *. rewrite String.compare_antisym, Hk. cbn. by rewrite IH.
Qed.

Theorem sort_keys_ordered v : wf_value v → sort_keys v = v.
Proof.
  induction v as [| | | |l IH|a IH] using value_ind; try done.
  - intros Hl. cbn [sort_keys]. f_equal. induction IH as [|v l Hv _ IH]; [done|].
    cbn in *. destruct Hl. f_equal; auto.
  - intros [Hs Hw]%wf_object. cbn [sort_keys]. f_equal.
    cut (∀ acc, StronglySorted key_lt (acc ++ a).*1 →
           (fix go acc map := match map with
                              | [] => acc
                              | (k, v) :: map => go (map_insert k (sort_keys v) acc) map
                              end) acc a = acc ++ a); [intros H; by apply (H [])|].
    clear Hs. induction IH as [|[k v] a Hv _ IH]; intros acc Hs; [by rewrite app_nil_r|].
    apply Forall_cons in Hw as [Hwv Hw]. cbn in Hv, Hwv. rewrite (Hv Hwv).
    rewrite map_insert_last.
    + rewrite IH, <- app_assoc; [done..|]. by rewrite <- app_assoc.
    + rewrite fmap_app in Hs. revert Hs. generalize (acc.*1). intros ks Hs.
      induction ks as [|k' ks IHk]; [done|]. apply StronglySorted_inv in Hs as [Hs Hk'].
      constructor; [|by apply IHk]. eapply Forall_forall in Hk'; [exact Hk'|set_solver].
Qed.

(** ** Bootstrap *)

Section Bootstrap.
Context (to_string : Value → string) (parse : string → option Value) (sha256_hex : string → string).

(** The hash that a payload announces, if it is to be validated. *)
Definition announced_hash (payload : PilotPayload) (validate_hash : bool) : option string :=
  if validate_hash then
    m ← pp_config_metadata payload;
    if is_empty (cm_config_hash m) then None else Some (cm_config_hash m)
  else None.

(** What a bootstrap with Pilot accepts.  The orchestrator succeeds exactly
    when the announced hash, if there is one to validate, is the one of the
    normalised payload, and the service decodes the payload and assembles its
    configuration from it; the outcome then is that configuration with the
    version, the hash and the secret references of the payload.  Nothing is
    ever taken from the local configuration instead. *)
Theorem pilot_config_verified `{ServiceBootstrap} now bootstrap payload validate_hash outcome :
  bootstrap_runtime_config to_string parse sha256_hex now bootstrap
    (BmPilot payload validate_hash) = Ok outcome ↔
  (∀ hash, announced_hash payload validate_hash = Some hash →
     ∃ v, parse (pp_runtime_config_json payload) = Some v ∧
       sha256_hex (normalize_json to_string v) = hash) ∧
  ∃ provided, decode_pilot_config payload = Ok provided ∧
    assemble_runtime_config bootstrap provided = Ok (bo_runtime_config outcome) ∧
    bo_source outcome = config_source_from_metadata (pp_config_metadata payload) ∧
    bo_metadata outcome = pilot_metadata_or_default now (pp_config_metadata payload) ∧
    bo_secret_refs outcome = pp_secret_refs payload.
Proof.
  assert (Hhash : check_hash to_string parse sha256_hex payload validate_hash = Ok tt ↔
    ∀ hash, announced_hash payload validate_hash = Some hash →
      ∃ v, parse (pp_runtime_config_json payload) = Some v ∧
        sha256_hex (normalize_json to_string v) = hash).
  { unfold check_hash, announced_hash, validate_config_hash.
    destruct validate_hash; [|by split]. destruct (pp_config_metadata payload) as [m|]; [|by split].
    cbn. destruct (is_empty (cm_config_hash m)); [by split|].
    destruct (parse (pp_runtime_config_json payload)) as [v|].
    2: { split; [done|]. intros Hh. by destruct (Hh _ eq_refl) as (? & ? & _). }
    destruct (String.eqb_spec (sha256_hex (normalize_json to_string v)) (cm_config_hash m)); cbn.
    - split; [|done]. intros _ hash [= <-]. eauto.
    - split; [done|]. intros Hh. destruct (Hh _ eq_refl) as (v' & [= <-] & ?). done. }
  rewrite <- Hhash. cbn [bootstrap_runtime_config].
  destruct (check_hash _ _ _ payload validate_hash) as [[]|e]; [|by split; [|intros [? _]]].
  destruct (decode_pilot_config payload) as [provided|e].
  2: { split; [done|]. by intros (_ & ? & ? & _). }
  destruct (assemble_runtime_config bootstrap provided) as [runtime|e] eqn:Ha.
  2: { split; [done|]. intros (_ & p & Hp & Ha' & _). simplify_eq. congruence. }
  split.
  - intros ?. simplify_eq. split; [done|]. by exists provided.
  - intros (_ & p & Hp & Ha' & Hsrc & Hm & Hr). destruct outcome. cbn in *. simplify_eq. congruence.
Qed.
End Bootstrap.

(** An engine that bootstraps with Pilot has a strategy, accounts and
    instruments, and an instance id of sixteen bits. *)
Theorem engine_pilot_ready to_string parse sha env from_str suffix now boot started rounds outcome
    grant :
  run_bootstrap to_string parse sha env from_str suffix now boot started rounds
    = Some (Ok (outcome, Some grant)) →
  let cfg := bo_runtime_config outcome in
  is_empty (erc_strategy_type_key cfg) = false ∧ is_empty (erc_strategy_key cfg) = false ∧
  erc_account_ids cfg ≠ [] ∧ erc_instruments cfg ≠ [] ∧ (0 ≤ erc_instance_id cfg < 2 ^ 16)%Z.
Proof.
  unfold run_bootstrap. destruct (is_empty (ebc_bootstrap_token boot)).
  { destruct (bootstrap_runtime_config _ _ _ _ _ _); intros; simplify_eq. }
  destruct (ServiceRegistration.pilot_request started rounds) as [[g|e]|]; cbn [mbind option_bind];
    [|intros; simplify_eq..].
  destruct (bootstrap_runtime_config to_string parse sha _ _ _) as [o|] eqn:Hb;
    intros; simplify_eq. apply pilot_config_verified in Hb as (_ & provided & Hdec & Hasm & _).
  cbn in Hdec, Hasm. unfold EngineService.decode_pilot_config in Hdec.
  destruct (from_str _) as [cfg|]; [|done].
  set (cfg' := if _ && _ then _ else cfg) in Hdec.
  destruct (is_empty (epc_strategy_type_key cfg')) eqn:Ht; [done|].
  destruct (epc_account_ids cfg') eqn:Hac; [done|]. destruct (epc_instruments cfg') eqn:Hi; [done|].
  injection Hdec as <-. unfold EngineService.assemble_runtime_config in Hasm.
  destruct o as [runtime source metadata refs]. cbn in Hasm. injection Hasm as <-. cbn.
  assert (is_empty (if is_empty (epc_strategy_key cfg') then epc_strategy_type_key cfg'
                    else epc_strategy_key cfg') = false) by (by case_match).
  assert (0 ≤ pbg_instance_id grant mod 2 ^ 16 < 2 ^ 16)%Z by (by apply Z.mod_pos_bound).
  destruct (pbg_instance_id grant =? 0)%Z; cbn; rewrite Hac, Hi; split_and!; done || lia.
Qed.

(** ** Against the documentation *)

(** A key with a slash gives a path that is a pointer to something else. *)
Example diff_path_unescaped :
  let d := diff_configs (JObject [("a/b", JNull)]) (JObject []) in
  dif_path <$> d = ["/a/b"] ∧ pointer_tokens "/a/b" = Some ["a"; "b"] ∧
  pointer_tokens "/a~1b" = Some ["a/b"].
Proof. by vm_compute. Qed.

(** The hash beside the redacted JSON is the one of the unredacted
    configuration: with any hash function that tells two secrets apart the
    metadata of the response does so too. *)
Theorem shown_hash_covers_secrets to_string sha now secret_paths c c' kind id statuses source :
  let hash_of c := cm_config_hash <$> gcc_metadata
    (build_get_current_config_response to_string (new_envelope to_string sha now c source)
       secret_paths kind id statuses) in
  sha (normalize_json to_string c) ≠ sha (normalize_json to_string c') → hash_of c ≠ hash_of c'.
Proof. cbn. congruence. Qed.

(** A simulator venue written in another case: the decoder collects the
    simulator's fields, and the assembly then rejects them. *)
Theorem simulator_in_another_case_rejected env boot provided :
  gpc_venue provided = "SIMULATOR" → is_Some (gpc_simulator provided) →
  GwBootstrap.normalize_simulator_pilot_config
    (JObject [("fill_delay_ms", JNumber_ (JPosInt 5)); ("venue", JString "SIMULATOR")])
  = JObject [("simulator", JObject [("fill_delay_ms", JNumber_ (JPosInt 5))]);
             ("venue", JString "SIMULATOR")] ∧
  GwBootstrap.assemble_runtime_config env boot provided
  = Err (BceValidation "simulator config present on non-simulator venue").
Proof.
  intros Hv Hs. split; [by vm_compute|]. unfold GwBootstrap.assemble_runtime_config.
  by rewrite Hv, (bool_decide_true _ Hs).
Qed.
